(* ===== verification/_CoqProject ===== *)
-Q . S2P
Prelude.v
Heap.v
CircleQueue.v
Path.v
LinkList.v
ListRefine.v
CString.v
Base64.v
HashTable.v
HashRefine.v
SceneCond.v
SceneTimer.v
SceneSync.v
SyncRefine.v
SyncProps.v
SceneData.v
PtrHash.v
PtrRefine.v
PtrProps.v
ActionList.v
ActionRefine.v
CondList.v
CondRefine.v
SceneTruth.v
SceneRefine.v
SceneFire.v
SceneTimeFire.v
SceneOps.v
SceneEvent.v
OpsRefine.v
OpsProps.v
DelProps.v
EventProps.v
ExecProps.v
ScenePanel.v
SceneList.v
SceneRemove.v
RemoveProps.v
AddProps.v
PanelProps.v
BindProps.v
Json.v
JsonText.v
JsonProps.v
JsonCheck.v
CheckProps.v
SceneCmd.v
SceneDispatch.v
DispatchProps.v
EngineProps.v
CmdProps.v
QueryProps.v
CondCmdProps.v
CommonFunc.v
HyLink.v
HyLinkProps.v
RegistryProps.v
HyBase64.v
AliDb.v
AliLink.v
AliLinkProps.v
AliRequests.v
AliScene.v
AliGroup.v
AliSceneProps.v
AliGroupProps.v
AliEngine.v
Zcl.v
Zigbee.v
ZigbeeLink.v
ZclProps.v
ZigbeeProps.v
ZigbeeOnline.v
ZigbeeCommand.v
