(* ===== verification/Prelude.v ===== *)
(** * The local scene engine of the honyar gateway, verified

    The repository holds the firmware of a home gateway.  Its own core is the
    hylink program, src/hylink/src: a front end passes messages between the cloud
    and the devices, which report events, and the local scene engine
    (src/hylink/src/local_scene) decides which scenes - sets of actions - these
    reports and the clock execute.  The gateway of the Ali cloud (src/alink/src on
    the device library src/libhylink/src) is another program that talks to hylink:
    it keeps a twin of every device in the cloud and turns the cloud's scenes into
    commands of the engine.  The ZigBee program (src/tyzigbee/src) is the third: it
    drives the devices, turns hylink's commands into frames for them and their
    reports into messages to hylink.  The rest of the repository is vendor SDKs,
    third-party libraries, cloud glue and copies of the same engine for other
    builds.  This library models the engine, bottom up, the front end, the
    Ali gateway and the ZigBee program.

    ** Parts and files

    - Prelude: faults, the state monad [M], total-correctness triples [wp],
      machine integers, error codes (error_msg.h), shared tactics.
    - Heap: allocated objects by address, [calloc] that may fail, [free].
    - CString: C strings and <string.h>, <stdlib.h> as the program uses them,
      and tool.c.
    - CircleQueue: circle_queue.c, a ring of pointers.
    - Path, LinkList, ListRefine: scene_link_list.c, a circular doubly linked
      list with a sentinel.  LinkList has the functions on the heap, behind the
      class [ListHeap] that says which objects are nodes and list objects;
      ListRefine has the abstract list and the refinement.
    - HashTable, HashRefine: hashtable.c, a chained hash table that grows, the
      same way: class [HashHeap], functions, abstract multimap, refinement.
    - SceneCond: one condition: [_scene_time_cond_is_true] and
      [_scene_event_cond_is_true] of scene_list.c.
    - SceneTimer: scene_timer.c, the table of software timers.
    - SceneSync, SyncRefine, SyncProps: scene_sync.c, the list of states that
      scenes have asked devices for, with an abstract specification on queues
      of values, its refinement, and what follows for requests and answers.
    - SceneData: the structs of condition_list.h, scene_list.h, ptr_hash.h and
      the engine's heap: hash tables, pointer nodes, condition lists, scenes.
    - PtrHash, PtrRefine, PtrProps: ptr_hash.c, under a key a doubly linked
      list of pointer nodes, in a hash table that frees the list with the key;
      it implements a registry, a list of node contents per key.
    - ActionList, ActionRefine: action_list.c, the actions of a scene, their
      execution and the callback registry; the list implements a sequence keyed
      by id, device and key.
    - Base64: base64_encode and base64_decode of the tool library
      (hytoolsdk/src/misc/misc_api.c), which the actions for Zigbee frames use.
    - CondList, CondRefine: condition_list.c, up to 32 sets of up to 32
      conditions, and its refinement of a finite map.
    - SceneTruth: the truth bits of scene_list.c: [scene_*_cond_true_init],
      [scene_*_cond_set_true_init], [scene_*_cond_true_update] and
      [scene_list_exec].  SceneRefine states the invariant of the bits;
      SceneFire and SceneTimeFire prove when scenes are executed.
    - SceneOps: the operations of scene_list.c on the conditions of a scene,
      [scene_{time,event}_{or,and}_cond_*], each on a condition list and the
      pointer hash table together.  OpsRefine and OpsProps: additions keep both
      in agreement; DelProps: what deletions do.
    - SceneEvent: [scene_list_event], [scene_list_active], the clock
      ([scene_list_time_true_all], [scene_cond]) and the execution thread
      ([scene_exec]).  EventProps and ExecProps: which conditions a report
      updates, which scenes a round of the thread executes.
    - ScenePanel: the panel keys bound to a scene, [scene_bind] and the rest: a
      chain of nodes and the pointer table.  PanelProps: they implement a list
      of bindings; BindProps: refused bindings and cleared chains.
    - SceneList: the scenes of the engine: [scene_list_add], [scene_list_del],
      the lookups, the synchronisation and load, [new_scene_list] and
      [destroy_scene_list].  SceneRemove: what the removal of a scene's parts
      leaves; RemoveProps, AddProps: what deletions and additions do.
    - Json: the trees of the tool library's cJSON (hytoolsdk/src/cjson), their
      item lists, and [JSON_value_get], which reads the value of a key as text.
    - JsonText: the texts of these trees: [cJSON_Parse], [cJSON_Print],
      [cJSON_PrintUnformatted] and [cJSON_Minify].  JsonProps: the parser ends and
      reads back what is printed.
    - JsonCheck (Module Checker): [JSON_check], a table-driven format checker.
      CheckProps: it refines a pushdown automaton and accepts what is printed.
    - SceneCmd, SceneDispatch: scene.c, the commands of the protocol: a function
      per command, the dispatch of an array of them, the query with its answer,
      reports of devices, start and stop.  DispatchProps: the order in which
      commands are done.
    - EngineProps: the engine as a whole, its scenes with all they own and the
      pointer table, and what the operations on scenes do to it.  CmdProps,
      CondCmdProps: what commands do to it.  QueryProps: the same from the text
      of a request to the text of its answer.
    - CommonFunc: what front end and gateway share: reading members of JSON
      objects (libhytool/tool/commonFunc.c), messages and their frames.
    - HyLink: the front end: messages in frames (hylink/hylinkRecv.c,
      hylinkSend.c), the registry of devices (hylinkListFunc.c), starting, reset
      and the network access (hylink.c, hytool/hytool.c, client.c, main.c), the
      LED and the button (hylink/rk3308/rkDriver.c), and the adapter to the
      engine (scene_adapter.c).  HyLinkProps: frames, malformed messages, the
      network access, requests and commands of the engine; RegistryProps: the
      registry as a map and the listing of its devices.
    - HyBase64: the other base64, libhytool/base64/base64.c, and its round trip.
    - AliDb: the statements on the tables of rules and groups of switches
      (alink/src/scene/scene_database.c) over SQLite as a parameter: class
      [sqlite_laws], and tables in memory that are an instance.
    - AliLink: the Ali gateway: devices and their profiles (hylinkListFunc.c,
      cloudLinkListFunc.c), messages from hylink (hylinkRecv.c, hylinkSubDev.c) and
      to it (hylinkSend.c), reports to the cloud (cloudLinkReport.c,
      linkkit_subdev.c), the life of sub-devices (cloudLink.c) and requests to set
      and read properties (cloudLinkCtrl.c).  AliLinkProps: the cloud's view of
      a device; AliRequests: reading, setting, removing.
    - AliScene: rules of the cloud become commands of the engine (scene_add.c,
      scene.c); AliGroup: groups of switches (more_control.c) and the services of
      devices (cloudLinkCtrl.c).  AliSceneProps, AliGroupProps: what the engine,
      the tables and the cloud get; AliEngine: the way of a rule through
      HyLink's front end to the engine.

    - Zcl: frames of the ZigBee Cluster Library, lengths of values by their types
      (tyzigbee/tyZigbeeZcl3.c, tyZigbee.c), buffers of bytes.
    - Zigbee: the ZigBee program's devices and profiles (hylinkListFunc.c,
      zigbeeListFunc.c, zigbeeProfile.c), messages to hylink (hylinkSend.c),
      conversion of values (zigbeeManage.c, cpython.c), commands to devices
      (zigbeeDispatch.c) and their reports (zigbeeReport.c).  ZigbeeLink: devices that
      join, are heard of and leave, reset (hylink.c, zigbee.c), callbacks of the SDK,
      the heartbeat (heartbeat.c) and commands of hylink (hylinkRecv.c).
    - ZclProps: reports read attribute by attribute; ZigbeeProps: what hylink is told
      when a device joins or leaves, questions to devices; ZigbeeOnline: devices
      over time, as one machine each; ZigbeeCommand: commands from hylink's frames to
      the device and back.

    The front end hands the text of every report of a device to [scene_event], and
    that of a request for scenes to [scene_query]; the engine's commands come back to
    [hylink_scene_send].

    A text in JSON reaches [scene_query] or [scene_event].  The commands of the
    first name scenes by id and go to the operations of SceneList, SceneOps,
    ScenePanel and ActionList; the reports of the second go to
    [scene_list_event], which looks up the conditions
    on the device's key in a hash table of pointer nodes, asks SceneCond for
    the truth of each, and calls [scene_event_cond_true_update]; a thread calls
    [scene_time_cond_true_update] for every time condition once a minute.
    Conditions marked StateSync go to scene_sync.c instead, which asks the other
    devices of the scene for the reported state.
    Conditions live in the four condition lists of a scene (And/Or, time/event);
    one bit per condition, per set and per list is kept up to date on the way
    to the scene's flag, and an edge of a condition in a true scene puts the
    scene into the execution queue or starts a timer.  A second thread,
    [scene_exec], executes the actions of the queued scenes that are due.

    ** State and operations

    A function of the C code is a definition of the same name in [M]: it gets
    the state, and returns a value and a new state or a [fault], one of the
    ways to leave defined behaviour.  Pointers are addresses or NULL; members
    are read and written through the heap.  Struct fields keep their names,
    except where two structs share one (then the prefix says which).  32-bit
    and 8-bit fields wrap ([u32], [u8], [s32]); shifts by a count out of range
    are faults.  [wp m s Q] says that the run of [m] from [s] has no fault and
    that [Q] holds of its result and final state, so every theorem about [wp]
    includes termination and memory safety.

    ** Theorems

    - refinement: the ring is a bounded queue that drops its oldest element, the
      linked list a list, the hash table a multimap, the pointer hash table a
      registry, a condition list a finite map with room for 1024 conditions, the
      synchronisation list one queue of wanted values per device and key, the
      panels of a scene a list of bindings;
    - invariants: the truth bits of a scene agree with those of its conditions
      after every initialisation and update, and the scene's flag is the And/Or
      formula over the conditions; the addition of a condition keeps them and the
      pointer hash table in agreement; the commands on scenes, whatever is sent in
      texts shorter than their arrays, keep the engine well formed: different ids,
      disjoint parts, no handle in the table but those of the scenes;
    - commands: the dispatch is three plain traversals; the scene that a request in
      text adds is the first of the report that answers the next one, when the texts
      are shorter than their arrays, and one that fills its array makes the report
      read past it; the text of
      a device's report does what the report does, if its characters are ASCII or
      unsigned; cleaning ends with an empty engine;
    - the front end: frames are handled one by one, however many come in one
      piece; messages on devices do to memory and database what a map from ids to
      models and states does, and the scene engine gets the reports of devices that
      were removed; a request for the devices is answered with all of them; a grant
      of network access ends after its time;
    - the Ali gateway: a device that registers, for the first time or again, goes on
      line in the cloud, and whatever it reports then, the properties posted last
      are its values, and what the cloud reads is what was posted; a rule at a time
      in cron notation holds in the engine exactly in that minute of its days; the
      actions of a rule go in messages of ten, the executions of scenes in messages
      of their own before the other actions of their ten; requests in base64 are
      handled as their texts; a request about a group replaces exactly its rows
      and makes its scene anew;
    - the ZigBee program: a report of attributes whose lengths the program knows is
      reported to hylink attribute by attribute, and every walk over a report ends;
      each device's states and what hylink is told of it are those of a machine for
      one device, off line is told at most once after each on line, also while
      devices join, are listed and asked, and is told when the device is silent;
      the commands of scenes to devices reach them through both programs, once each
      and in order, while those to scenes and groups are dropped; a number that is
      sent, as an attribute or as a command of the cluster, comes back, by its low
      byte;
    - JSON texts: the parser ends on every text and gives well-formed trees; a
      tree is read back from its text; the unformatted text is the formatted one
      without its blanks; the format checker is a pushdown automaton;
    - behaviour: when a condition holds, when its scene is executed, how often a
      timer runs; the update's short cuts are exact; a report updates exactly the
      conditions on its key in enabled scenes, where none is a state
      synchronisation and the database takes the values; a round of the execution
      thread executes exactly the scenes that are due, with actions of every kind;
    - round trips: a condition or a scene that was added is what the get returns,
      base64 text decodes to what was encoded, each request of a scene is
      answered once;
    - memory: constructors and destructors neither leak nor free twice; deleting
      a scene releases all of its parts and handles and nothing else;
    - errors: what the code does outside its contracts, where that is not what
      its comments say: full timer table, deletion of a condition (its set's truth
      values, the set freed with its last condition), long hash
      keys, one-shot conditions, the ring's [foot] and [get_by_id], requests sent
      twice or past the array of the synchronisation list, a registration that
      fails silently, a binding the database refuses, cleared panels, a scene
      that is deleted while it waits for its execution, the interval of a time
      condition that is written past its end, event conditions that cannot be
      deleted, names cut by an execution; messages of the front end whose command is
      not a text, its listing of 64 devices or more, scene requests done more than
      once, commands to execute scenes that do not reach the engine; conditions of
      the cloud on a period of the day, which the engine refuses; every trigger of
      a rule added as often as there are triggers; rules and scenes of groups that
      outlive their deletion; long reports; a twin whose reset was refused;
      a ZigBee device that is read after it was freed when it leaves.

    ** Bounds and fuel

    Loops over linked structures run with fuel the number of allocated objects
    plus one, enough because a walk visits distinct objects ([NoDup_size]); the
    recursion of [scene_event_cond_true_update] has fuel 2, enough because the
    inner call has a false condition.  The theorems are about [wp], so running
    out of fuel would contradict them.  The parser of JSON texts has fuel for three
    calls a character, enough for every text (parse_value_ends).  The walk over the
    attributes of a ZigBee report has fuel for one more than the bytes of its message,
    enough because an attribute has three bytes or more (zcl_report_ends).

    ** Abstractions

    - The allocator never reuses an address, so a dangling pointer stays one.
    - Method pointers are those the constructors install.
    - Log output is left out; so are the locks' system calls: the read and write
      locks of the linked list return before they lock, as in the code.
    - The slots and chains of the hash table, and the condition nodes of a set,
      are lists inside their object, in order; the condition nodes have their
      addresses.  A handle whose condition is not in its set is a [Dangling]
      fault.  The sets of a condition list are the sequence that the linked
      list's contract promises.
    - An array of n characters holds a text of up to n: one of exactly n stands for
      an array that [strncpy] left without a NUL.  The reports of commands read the
      arrays as C strings, and fault on such a text ([scene_ends] and the others of
      SceneCmd).  Other reads without a length - numbers, comparisons by [strcmp],
      SQL texts and logs - stop at the end of the array in the model.
    - A timer of the engine is a trace of its creation where a truth bit starts it
      (SceneTruth); the table of timers is SceneTimer.  [atoi] of a number out of
      range wraps.  The devices of the front end are heap objects; those of the
      ZigBee program are entries of its map, and reading one that was freed is a
      failed lookup.
    - SQL requests are their outcome: the next one of a list of results.  The
      rows that the init functions read are an argument.
    - JSON texts: numbers are exact decimals, without the range and rounding of a
      double; memory for texts and for the checker is taken for granted.  The
      execution of actions is stated for any parser and any [JSON_value_get]; those
      of JsonText and [text] of SceneCmd are instances.  A command that is sent is its type and fields.
      Commands, custom frames, sleeps, callbacks and scene reports are a trace of
      effects; the command handler and the callbacks do not change the scenes.
    - The front end calls its handlers directly, not through the tables of
      frameCb.c.  libhytool's cJSON (1.7.13) is the one of JsonText but for a byte
      order mark, which is skipped there.  The hash map of devices (klib's khash)
      is a finite map that is walked in some order.  [long] has 32 bits, as on the
      gateway.  Timers can always be made; when both expire in a second the LED's
      comes first.  What is sent, written to the database or shown is a trace.
    - Each operation and each round of a thread runs alone: most commands hold the
      engine's mutex ([scene_lock]) around them; scene_event, hyScene_Exec and
      scene_clean do not take it, and their interleavings are not modelled.  The walk of the execution
      queue is outside it in the code; its interleavings with insertions are
      not modelled, and the locks of the linked list return before they lock.
    - The Ali gateway: the cloud's SDK and the socket to hylink are a trace, their
      results a list of answers, 0 where it ends.  Profiles are files, whose text is
      a parameter; so are the order in which the map of devices is walked and
      SQLite.  Each handler runs alone.
    - The ZigBee program: what its SDK, the socket, the database and the shell are
      asked for is a trace, their results a list of answers, 0 where it ends.  The
      Python scripts that convert values are a parameter: the text and the length for
      a module, a function and a text, if there is such a function; a missing one
      ends the interpreter.  The table in which the map of devices is walked and the
      line with the channel are parameters.  Handlers of the tables of frameCb.c are
      called directly.  Each callback runs alone.
    - [localtime], [time] and the thread pool are parts of the state.
    - [0x1 << 31] is the top bit, as gcc computes it.
    - [atof] yields the exact decimal number, not the nearest double.

    ** Not modelled

    The SQL texts of db_api.c, the debug printing, the editing functions of cJSON
    that nothing here calls, the sockets of the front end and its table of devices in
    the database, and the rest of the hytoolsdk library (message queue, sessions,
    epoll, curl).  Of the Ali gateway: its start and main loop with the cloud's SDK
    (linkkit_app_gateway.c, linkkit_sdk_status.c), opening the database and creating
    its tables.  Of the ZigBee program: its start and main loop, the callbacks of the
    SDK that only log, the SQL of its table of devices and reading the profiles' files.
    [time_cond_true_all] and the functions [scene_*_get_db] and
    [scene_list_clear_db] are assigned to methods that nothing calls;
    [scene_cond_list_true_update] is compiled out. *)
From stdpp Require Export base list gmap strings.
From Stdlib Require Export ZArith Lia.

#[export] Set Default Goal Selector "!".
Open Scope Z_scope.

(** * Faults: the ways a C execution leaves the defined behaviour

    [NullDeref]: a member access through NULL.  [Dangling]: an access through,
    or a [free] of, a pointer whose object is not allocated.  [OutOfBounds]: an
    array access outside the array.  [ShiftRange]: a shift by a negative count
    or by at least the width.  [BadCast]: an object used through a pointer cast to
    another struct's type.  [OutOfFuel]: a loop bound of the model was reached;
    the theorems show that it never is. *)
Inductive fault : Type :=
| NullDeref | Dangling | OutOfBounds | ShiftRange | BadCast | OutOfFuel.

#[export] Instance fault_eq_dec : EqDecision fault.
Proof. solve_decision. Defined.

Inductive res (A : Type) : Type :=
| Val (a : A)
| Fault (f : fault).
Arguments Val {A} a.
Arguments Fault {A} f.

(** * The state monad of the C code *)
Definition M (S A : Type) : Type := S -> res (A * S).

#[export] Instance M_ret S : MRet (M S) := fun A a s => Val (a, s).
#[export] Instance M_bind S : MBind (M S) := fun A B f m s =>
  match m s with
  | Val (a, s') => f a s'
  | Fault e => Fault e
  end.

Definition fail {S A} (e : fault) : M S A := fun _ => Fault e.
Definition getS {S} : M S S := fun s => Val (s, s).
Definition putS {S} (s' : S) : M S unit := fun _ => Val (tt, s').
Definition modify {S} (f : S -> S) : M S unit := fun s => Val (tt, f s).
Definition gets {S A} (f : S -> A) : M S A := fun s => Val (f s, s).

(** A partial read: the fault [e] when the value is absent. *)
Definition get_or {S A} (e : fault) (o : option A) : M S A :=
  match o with Some a => mret a | None => fail e end.

(** [loop]: a loop whose body either goes on with a new loop state ([inl]) or
    leaves with a result ([inr]); [fuel] bounds the number of iterations. *)
Fixpoint loop {S A R} (fuel : nat) (body : A -> M S (A + R)) (a : A) : M S R :=
  match fuel with
  | O => fail OutOfFuel
  | Datatypes.S n =>
      r ← body a;
      match r with
      | inl a' => loop n body a'
      | inr x => mret x
      end
  end.

(** * Total correctness

    [wp m s Q]: the run of [m] from [s] has no fault and its result and final
    state satisfy [Q]. *)
Definition wp {S A} (m : M S A) (s : S) (Q : A -> S -> Prop) : Prop :=
  match m s with
  | Val (a, s') => Q a s'
  | Fault _ => False
  end.

#[global] Arguments loop : simpl never.
#[global] Arguments wp : simpl never.

Declare Scope c_scope.
Delimit Scope c_scope with C.
Notation "s ⊢ m ⟨ v , s' ⟩ Q" := (wp m s (fun v s' => Q))
  (at level 90, m at level 80, v name, s' name, Q at level 90,
   format "s  ⊢  m  ⟨ v ,  s' ⟩  Q") : c_scope.
Open Scope c_scope.

Section wp.
Context {S : Type}.

Lemma wp_ret {A} (a : A) (s : S) (Q : A -> S -> Prop) : Q a s -> wp (mret a) s Q.
Proof. done. Qed.

Lemma wp_bind {A B} (m : M S A) (f : A -> M S B) s Q :
  wp m s (fun a s' => wp (f a) s' Q) -> wp (m ≫= f) s Q.
Proof.
  unfold wp, mbind, M_bind. destruct (m s) as [[a s']|e]; done.
Qed.

Lemma wp_bind_inv {A B} (m : M S A) (f : A -> M S B) s Q :
  wp (m ≫= f) s Q -> wp m s (fun a s' => wp (f a) s' Q).
Proof.
  unfold wp, mbind, M_bind. destruct (m s) as [[a s']|e]; done.
Qed.

Lemma wp_mono {A} (m : M S A) s (P Q : A -> S -> Prop) :
  wp m s P -> (forall a s', P a s' -> Q a s') -> wp m s Q.
Proof. unfold wp. destruct (m s) as [[a s']|e]; naive_solver. Qed.

Lemma wp_and {A} (m : M S A) s (P Q : A -> S -> Prop) :
  wp m s P -> wp m s Q -> wp m s (fun a s' => P a s' /\ Q a s').
Proof. unfold wp. destruct (m s) as [[a s']|e]; naive_solver. Qed.

Lemma wp_getS s (Q : S -> S -> Prop) : Q s s -> wp getS s Q.
Proof. done. Qed.

Lemma wp_putS s s' (Q : unit -> S -> Prop) : Q tt s' -> wp (putS s') s Q.
Proof. done. Qed.

Lemma wp_modify s f (Q : unit -> S -> Prop) : Q tt (f s) -> wp (modify f) s Q.
Proof. done. Qed.

Lemma wp_gets {A} s (f : S -> A) (Q : A -> S -> Prop) : Q (f s) s -> wp (gets f) s Q.
Proof. done. Qed.

Lemma wp_get_or {A} e (o : option A) a (s : S) (Q : A -> S -> Prop) :
  o = Some a -> Q a s -> wp (get_or e o) s Q.
Proof. intros ->. done. Qed.

(** A run is determined by its outcome. *)
Lemma wp_run {A} (m : M S A) s Q :
  wp m s Q <-> exists a s', m s = Val (a, s') /\ Q a s'.
Proof.
  unfold wp. split.
  - destruct (m s) as [[a s']|e]; [eauto|done].
  - intros (a & s' & -> & HQ). done.
Qed.

(** The loop rule: an invariant and a measure that every iteration lowers. *)
Lemma wp_loop {A R} (body : A -> M S (A + R)) (I : A -> S -> Prop)
    (μ : A -> S -> nat) (Q : R -> S -> Prop) :
  (forall a s, I a s ->
     wp (body a) s (fun r s' =>
       match r with
       | inl a' => I a' s' /\ (μ a' s' < μ a s)%nat
       | inr x => Q x s'
       end)) ->
  forall fuel a s, I a s -> (μ a s < fuel)%nat -> wp (loop fuel body a) s Q.
Proof.
  intros Hb fuel. induction fuel as [|n IH]; intros a s HI Hμ; [lia|].
  cbn [loop]. apply wp_bind. eapply wp_mono; [exact (Hb a s HI)|].
  intros [a'|x] s'; simpl; [|done].
  intros [HI' Hlt]. apply IH; [done|lia].
Qed.

Lemma loop_S {A R} fuel (body : A -> M S (A + R)) a :
  loop (Datatypes.S fuel) body a = (r ← body a; match r with inl a' => loop fuel body a' | inr x => mret x end).
Proof. done. Qed.

(** A fault stops the run. *)
Lemma fault_bind {A B} (m : M S A) (f : A -> M S B) s e : m s = Fault e -> (m ≫= f) s = Fault e.
Proof. unfold mbind, M_bind. by intros ->. Qed.
Lemma fault_after {A B} (m : M S A) (f : A -> M S B) s e :
  wp m s (fun a s' => f a s' = Fault e) -> (m ≫= f) s = Fault e.
Proof. unfold wp, mbind, M_bind. by destruct (m s) as [[a s']|]. Qed.

(** The same with the measure inside the invariant. *)
Lemma wp_loop_n {A R} (body : A -> M S (A + R)) (I : nat -> A -> S -> Prop)
    (Q : R -> S -> Prop) :
  (forall n a s, I n a s ->
     wp (body a) s (fun r s' =>
       match r with
       | inl a' => exists n', (n' < n)%nat /\ I n' a' s'
       | inr x => Q x s'
       end)) ->
  forall n fuel a s, I n a s -> (n < fuel)%nat -> wp (loop fuel body a) s Q.
Proof.
  intros Hb n fuel. revert n. induction fuel as [|k IH]; intros n a s HI Hn; [lia|].
  cbn [loop]. apply wp_bind. eapply wp_mono; [exact (Hb n a s HI)|].
  intros [a'|x] s'; simpl; [|done].
  intros (n' & Hlt & HI'). apply (IH n'); [done|lia].
Qed.
End wp.

Create HintDb wp discriminated.
#[export] Hint Resolve wp_ret wp_getS wp_putS wp_modify wp_gets : wp.

(** One step of symbolic execution: associate a bind, then run its head. *)
Ltac wp_step :=
  lazymatch goal with
  | |- wp (mbind _ _) _ _ => apply wp_bind
  | |- wp (mret _) _ _ => apply wp_ret
  | |- wp getS _ _ => apply wp_getS
  | |- wp (putS _) _ _ => apply wp_putS
  | |- wp (modify _) _ _ => apply wp_modify
  | |- wp (gets _) _ _ => apply wp_gets
  | |- wp (get_or _ ?o) _ _ => eapply wp_get_or; [solve [eauto]|]
  | |- wp (match ?x with _ => _ end) _ _ =>
      match x with
      | true => idtac | false => idtac
      | Some _ => idtac | None => idtac
      end; cbv beta iota
  | |- wp (let _ := _ in _) _ _ => cbv zeta
  end; cbv beta.
Ltac wp_steps := repeat wp_step.

(** Runs a callee through its specification [H]. *)
Tactic Notation "wp_apply" uconstr(H) := eapply wp_mono; [eapply H|].

(** * Machine integers *)
Definition INT_MAX : Z := 2147483647.
Definition INT_MIN : Z := -2147483648.
Definition u32 (x : Z) : Z := x mod 2 ^ 32.
Definition u8 (x : Z) : Z := x mod 2 ^ 8.
(** Two's complement reading of the low 32 bits. *)
Definition s32 (x : Z) : Z :=
  let r := x mod 2 ^ 32 in if r <? 2 ^ 31 then r else r - 2 ^ 32.

Lemma u32_small x : 0 <= x < 2 ^ 32 -> u32 x = x.
Proof. apply Z.mod_small. Qed.
Lemma u32_range x : 0 <= u32 x < 2 ^ 32.
Proof. apply Z.mod_pos_bound. lia. Qed.
Lemma s32_small x : INT_MIN <= x <= INT_MAX -> s32 x = x.
Proof.
  unfold s32, INT_MIN, INT_MAX. intros H.
  destruct (Z_le_gt_dec 0 x).
  - rewrite Z.mod_small by lia. destruct (Z.ltb_spec x (2 ^ 31)); lia.
  - assert (x mod 2 ^ 32 = x + 2 ^ 32) as ->.
    { symmetry. apply (Z.mod_unique _ _ (-1)); lia. }
    destruct (Z.ltb_spec (x + 2 ^ 32) (2 ^ 31)); lia.
Qed.

(** [0x1 << i]; as gcc does, [0x1 << 31] gives the top bit. *)
Definition shl1 {S} (i : Z) : M S Z :=
  if (0 <=? i) && (i <? 32) then mret (Z.shiftl 1 i) else fail ShiftRange.

Lemma shl1_pow i : 0 <= i -> Z.shiftl 1 i = 2 ^ i.
Proof. intros Hi. by rewrite Z.shiftl_mul_pow2, Z.mul_1_l. Qed.

Lemma wp_shl1 {S} i (s : S) (Q : Z -> S -> Prop) :
  0 <= i < 32 -> Q (Z.shiftl 1 i) s -> wp (shl1 i) s Q.
Proof.
  intros Hi HQ. unfold shl1. destruct (Z.leb_spec 0 i), (Z.ltb_spec i 32); try lia. by apply wp_ret.
Qed.

(** * Counting loops and arrays *)

(** [for(; i < i + n; i ++)]: the body gets the counter and the variables. *)
Fixpoint for_up {S A} (n : nat) (i : Z) (body : Z -> A -> M S A) (a : A) : M S A :=
  match n with
  | O => mret a
  | Datatypes.S n => a ← body i a; for_up n (i + 1) body a
  end.

(** The rule for counting loops: an invariant of the counter. *)
Lemma wp_for_up {S A} (I : Z -> A -> S -> Prop) (body : Z -> A -> M S A) n i a s Q :
  I i a s ->
  (forall j a s, i <= j < i + Z.of_nat n -> I j a s -> wp (body j a) s (I (j + 1))) ->
  (forall a s, I (i + Z.of_nat n) a s -> Q a s) ->
  wp (for_up n i body a) s Q.
Proof.
  revert i a s. induction n as [|n IH]; intros i a s HI Hb HQ.
  - apply wp_ret, HQ. by rewrite Z.add_0_r.
  - apply wp_bind. eapply wp_mono; [apply Hb; [lia|done]|]. intros a' s' HI'.
    apply IH; [done| |].
    + intros j b t Hj. apply Hb. lia.
    + intros b t Ht. apply HQ. by replace (i + Z.of_nat (Datatypes.S n)) with (i + 1 + Z.of_nat n) by lia.
Qed.

(** A walk over the elements of a list. *)
Definition each {S A} (f : A -> M S unit) : list A -> M S unit :=
  fix go xs := match xs with [] => mret tt | x :: xs => f x ;; go xs end.

(** The rule for walks: an invariant of the elements done. *)
Lemma wp_each {S A} (I : list A -> S -> Prop) (f : A -> M S unit) xs s Q :
  I [] s ->
  (forall done x rest s, xs = done ++ x :: rest -> I done s ->
     wp (f x) s (fun _ s' => I (done ++ [x]) s')) ->
  (forall s, I xs s -> Q tt s) ->
  wp (each f xs) s Q.
Proof.
  intros H0 Hf HQ.
  assert (forall rest pre s, xs = pre ++ rest -> I pre s -> wp (each f rest) s Q) as Hgo.
  { induction rest as [|x rest IH]; intros pre s1 Hx HI; cbn [each].
    - apply wp_ret, HQ. by rewrite app_nil_r in Hx; subst.
    - apply wp_bind. eapply wp_mono; [by eapply Hf|]. intros [] s2 HI2.
      apply (IH (pre ++ [x])); [by rewrite <- app_assoc|done]. }
  by apply (Hgo xs []).
Qed.

(** [a[i]] and [a[i] = v] with the bounds the declaration gives. *)
Definition arr_get {S A} (l : list A) (i : Z) : M S A :=
  if i <? 0 then fail OutOfBounds else get_or OutOfBounds (l !! Z.to_nat i).
Definition arr_set {S A} (l : list A) (i : Z) (v : A) : M S (list A) :=
  if (0 <=? i) && (i <? Z.of_nat (length l)) then mret (<[Z.to_nat i := v]> l) else fail OutOfBounds.

Lemma wp_arr_get {S A} (l : list A) i x (s : S) (Q : A -> S -> Prop) :
  0 <= i -> l !! Z.to_nat i = Some x -> Q x s -> wp (arr_get l i) s Q.
Proof.
  intros Hi Hx HQ. unfold arr_get. destruct (Z.ltb_spec i 0); [lia|]. by eapply wp_get_or.
Qed.
Lemma wp_arr_set {S A} (l : list A) i v (s : S) (Q : list A -> S -> Prop) :
  0 <= i < Z.of_nat (length l) -> Q (<[Z.to_nat i := v]> l) s -> wp (arr_set l i v) s Q.
Proof.
  intros Hi HQ. unfold arr_set. destruct (Z.leb_spec 0 i), (Z.ltb_spec i (Z.of_nat (length l))); try lia.
  by apply wp_ret.
Qed.

(** C's truth values. *)
Definition truth (z : Z) : bool := negb (z =? 0).
Definition of_bool (b : bool) : Z := if b then 1 else 0.

(** * Error codes (libhytoolsdk/include/error_msg.h) *)
Definition NoErr : Z := 0.
Definition GeneralErr : Z := -1.
Definition ParaErr : Z := -251.
Definition HeapReqErr : Z := -252.
Definition MutexLockErr : Z := -255.
Definition NotFoundErr : Z := -257.
Definition JsonFormatErr : Z := -283.
Definition ListInsertErr : Z := -261.
Definition QueuePushErr : Z := -263.
Definition QueuePopErr : Z := -264.
Definition SceneAddErr : Z := -287.
Definition SceneDelErr : Z := -288.
Definition SceneSetErr : Z := -289.
Definition SceneGetErr : Z := -290.

(** * Pointers *)
Abbreviation ptr := (option positive).
Abbreviation NULL := (@None positive).
(** The [PARAM_CHECK_*] macros test pointers against NULL. *)
Definition is_null {A} (p : option A) : bool :=
  match p with Some _ => false | None => true end.

(** Reduces the null checks of known pointers, and nothing of the model. *)
Ltac c_red := cbn [is_null negb andb orb Z.eqb Z.ltb Z.leb Z.compare Pos.eqb
                    Pos.compare Pos.compare_cont head tail].
Ltac d_true := rewrite decide_True by (done || lia); c_red.
Ltac d_false := rewrite decide_False by (done || lia); c_red.

(** Membership in lists built from cons and append. *)
Ltac in_list := rewrite ?elem_of_app, ?elem_of_cons, ?elem_of_app, ?elem_of_cons; tauto.

Lemma NoDup_middle {A} (l1 : list A) x l2 :
  NoDup (l1 ++ x :: l2) <-> NoDup (l1 ++ l2) /\ x ∉ l1 ++ l2.
Proof. rewrite <- Permutation_middle, NoDup_cons. tauto. Qed.
