(* ===== verification/Heap.v ===== *)
(** The C heap: allocated objects by address, an allocator that never reuses an
    address, and an oracle for [calloc]'s failures.  [T] is the type of the
    objects a component allocates, [G] its global variables. *)
From stdpp Require Import gmap.
From S2P Require Import Prelude.

Record heap (T G : Type) : Type := Heap {
  cells : gmap positive T;
  brk : positive;          (* the next address *)
  oom : list bool;         (* the outcome of the next allocations: true = NULL *)
  glob : G
}.
Arguments Heap {T G} cells brk oom glob.
Arguments cells {T G} h.
Arguments brk {T G} h.
Arguments oom {T G} h.
Arguments glob {T G} h.

Section heap.
Context {T G : Type}.
Implicit Types (s : heap T G) (a : positive) (p : ptr) (t : T).

Definition with_cells (f : gmap positive T -> gmap positive T) s : heap T G :=
  Heap (f (cells s)) (brk s) (oom s) (glob s).
Definition with_glob (f : G -> G) s : heap T G :=
  Heap (cells s) (brk s) (oom s) (f (glob s)).
Definition upd a t s : heap T G := with_cells <[a := t]> s.
Definition del a s : heap T G := with_cells (delete a) s.

(** A member access through [p], [pr] selecting the objects of its type. *)
Definition load {X} (pr : T -> option X) (p : ptr) : M (heap T G) X :=
  match p with
  | None => fail NullDeref
  | Some a =>
      s ← getS;
      match cells s !! a with
      | Some t => get_or Dangling (pr t)
      | None => fail Dangling
      end
  end.

(** A write of the whole object at [p]. *)
Definition store (p : ptr) t : M (heap T G) unit :=
  match p with
  | None => fail NullDeref
  | Some a =>
      s ← getS;
      match cells s !! a with
      | Some _ => putS (upd a t s)
      | None => fail Dangling
      end
  end.

(** [calloc]/[malloc]: NULL when the oracle says so. *)
Definition alloc t : M (heap T G) ptr := fun s =>
  match oom s with
  | true :: o => Val (None, Heap (cells s) (brk s) o (glob s))
  | o => Val (Some (brk s),
              Heap (<[brk s := t]> (cells s)) (Pos.succ (brk s)) (tl o) (glob s))
  end.

(** An allocation whose object lives inside another object of the model: only
    its outcome matters, true for success. *)
Definition reserve : M (heap T G) bool := fun s =>
  Val (negb (hd false (oom s)), Heap (cells s) (brk s) (tl (oom s)) (glob s)).

(** The same when the object's address is its identity. *)
Definition fresh : M (heap T G) ptr := fun s =>
  match oom s with
  | true :: o => Val (None, Heap (cells s) (brk s) o (glob s))
  | o => Val (Some (brk s), Heap (cells s) (Pos.succ (brk s)) (tl o) (glob s))
  end.

(** [free]: nothing for NULL, a fault for an address that is not allocated. *)
Definition free p : M (heap T G) unit :=
  match p with
  | None => mret tt
  | Some a =>
      s ← getS;
      match cells s !! a with
      | Some _ => putS (del a s)
      | None => fail Dangling
      end
  end.

(** The bound on the objects a loop visits: the heap's objects. *)
Definition fuel : M (heap T G) nat := gets (fun s => Datatypes.S (size (cells s))).

Definition getg : M (heap T G) G := gets glob.
Definition setg (f : G -> G) : M (heap T G) unit := modify (with_glob f).

(** The addresses from [brk] on are unused. *)
Definition heap_wf s : Prop := forall a, (brk s <= a)%positive -> cells s !! a = None.

Lemma upd_upd a t t' s : upd a t (upd a t' s) = upd a t s.
Proof. unfold upd, with_cells. cbn. by rewrite insert_insert_eq. Qed.

Lemma wp_load {X} (pr : T -> option X) a t x s (Q : X -> heap T G -> Prop) :
  cells s !! a = Some t -> pr t = Some x -> Q x s -> wp (load pr (Some a)) s Q.
Proof. intros Ha Hx HQ. unfold load. wp_step. wp_step. rewrite Ha, Hx. done. Qed.

Lemma wp_store a t0 t s (Q : unit -> heap T G -> Prop) :
  cells s !! a = Some t0 -> Q tt (upd a t s) -> wp (store (Some a) t) s Q.
Proof. intros Ha HQ. unfold store. wp_step. wp_step. rewrite Ha. done. Qed.

Lemma wp_free a t0 s (Q : unit -> heap T G -> Prop) :
  cells s !! a = Some t0 -> Q tt (del a s) -> wp (free (Some a)) s Q.
Proof. intros Ha HQ. unfold free. wp_step. wp_step. rewrite Ha. done. Qed.

Lemma wp_free_null s (Q : unit -> heap T G -> Prop) :
  Q tt s -> wp (free None) s Q.
Proof. done. Qed.

Lemma wp_getg s (Q : G -> heap T G -> Prop) : Q (glob s) s -> wp getg s Q.
Proof. done. Qed.
Lemma wp_setg f s (Q : unit -> heap T G -> Prop) :
  Q tt (with_glob f s) -> wp (setg f) s Q.
Proof. done. Qed.

Lemma wp_reserve s (Q : bool -> heap T G -> Prop) :
  (forall b, b = negb (hd false (oom s)) ->
     Q b (Heap (cells s) (brk s) (tl (oom s)) (glob s))) -> wp reserve s Q.
Proof. intros HQ. by apply HQ. Qed.

(** Either outcome of an allocation. *)
Lemma wp_alloc t s (Q : ptr -> heap T G -> Prop) :
  (forall o, oom s = true :: o ->
     Q None (Heap (cells s) (brk s) o (glob s))) ->
  (hd false (oom s) = false ->
     Q (Some (brk s))
       (Heap (<[brk s := t]> (cells s)) (Pos.succ (brk s)) (tl (oom s)) (glob s))) ->
  wp (alloc t) s Q.
Proof.
  intros Hnull Hok. unfold wp, alloc. destruct (oom s) as [|[] o]; simpl in *; eauto.
Qed.

Lemma wp_fresh s (Q : ptr -> heap T G -> Prop) :
  (forall o, oom s = true :: o -> Q None (Heap (cells s) (brk s) o (glob s))) ->
  (hd false (oom s) = false ->
     Q (Some (brk s)) (Heap (cells s) (Pos.succ (brk s)) (tl (oom s)) (glob s))) ->
  wp fresh s Q.
Proof.
  intros Hnull Hok. unfold wp, fresh. destruct (oom s) as [|[] o]; simpl in *; eauto.
Qed.

Lemma heap_wf_upd a t s : heap_wf s -> is_Some (cells s !! a) -> heap_wf (upd a t s).
Proof.
  intros H [t0 Ha] b Hb. simpl. rewrite lookup_insert_ne; [by apply H|].
  intros ->. specialize (H b Hb). congruence.
Qed.
Lemma heap_wf_del a s : heap_wf s -> heap_wf (del a s).
Proof.
  intros H b Hb. simpl in *. apply lookup_delete_None. right. by apply H.
Qed.
Lemma heap_wf_alloc t s o g : heap_wf s ->
  heap_wf (Heap (<[brk s := t]> (cells s)) (Pos.succ (brk s)) o g).
Proof.
  intros H b Hb. simpl in *. rewrite lookup_insert_ne by lia. apply H. lia.
Qed.
Lemma heap_wf_brk s a t : heap_wf s -> cells s !! a = Some t -> a <> brk s.
Proof. intros H Ha ->. rewrite H in Ha by lia. done. Qed.
End heap.

(** Distinct allocated objects are at most as many as the heap's objects. *)
Lemma NoDup_size {T} (m : gmap positive T) (l : list positive) :
  NoDup l -> (forall x, x ∈ l -> is_Some (m !! x)) -> (length l <= size m)%nat.
Proof.
  intros Hnd Hl. rewrite <- (size_list_to_set (C := gset positive)) by done.
  rewrite <- size_dom. apply subseteq_size. intros x Hx%elem_of_list_to_set.
  apply elem_of_dom. by apply Hl.
Qed.

#[global] Arguments load : simpl never.
#[global] Arguments store : simpl never.
#[global] Arguments free : simpl never.
#[global] Arguments alloc : simpl never.
#[global] Arguments reserve : simpl never.
#[global] Arguments fresh : simpl never.
#[global] Arguments getg : simpl never.
#[global] Arguments setg : simpl never.
#[export] Hint Resolve heap_wf_upd heap_wf_del heap_wf_alloc : core.

(** Steps through the heap operations whose object is known. *)
Ltac hp_step :=
  lazymatch goal with
  | |- wp (load _ (Some _)) _ _ => eapply wp_load; [eassumption|reflexivity|]
  | |- wp (store (Some _) _) _ _ => eapply wp_store; [eassumption|]
  | |- wp (free (Some _)) _ _ => eapply wp_free; [eassumption|]
  | |- wp (free None) _ _ => apply wp_free_null
  | |- wp getg _ _ => apply wp_getg
  | |- wp (setg _) _ _ => apply wp_setg
  | |- _ => wp_step
  end; cbv beta.
Ltac hp_steps := repeat hp_step.
