(* ===== verification/CircleQueue.v ===== *)
(** The bounded ring queue of src/hylink/src/local_scene/circle_queue.c. *)
From stdpp Require Import gmap.
From S2P Require Import Prelude Heap.

Module CircleQueue.

(** [circle_queue_class_t] with its private [queue_private_param_t]; the
    methods are the functions below, which the constructor installs. *)
Record queue : Type := Queue {
  iSize : Z;
  ucFreeValueEnable : Z;
  iCount : Z;
  iFront : Z;
  iRear : Z;
  Elem : ptr
}.

(** What the queue's code allocates or frees: class objects, [Elem] arrays, and
    the values of its clients. *)
Inductive obj : Type :=
| OQueue (q : queue)
| OArr (vs : list ptr)
| OVal.

Definition as_queue (o : obj) : option queue :=
  match o with OQueue q => Some q | _ => None end.
Definition as_arr (o : obj) : option (list ptr) :=
  match o with OArr vs => Some vs | _ => None end.

Definition mem : Type := heap obj unit.
Definition Q (A : Type) : Type := M mem A.

Definition this_ (p : ptr) : Q queue := load as_queue p.
Definition set_this (p : ptr) (q : queue) : Q unit := store p (OQueue q).

(** [Elem[i]] *)
Definition elem (e : ptr) (i : Z) : Q ptr :=
  vs ← load as_arr e;
  if (i <? 0) then fail OutOfBounds
  else get_or OutOfBounds (vs !! Z.to_nat i).
(** [Elem[i] = v] *)
Definition set_elem (e : ptr) (i : Z) (v : ptr) : Q unit :=
  vs ← load as_arr e;
  if (0 <=? i) && (i <? Z.of_nat (length vs))
  then store e (OArr (<[Z.to_nat i := v]> vs))
  else fail OutOfBounds.

Definition circle_queue_size (this : ptr) : Q Z :=
  if is_null this then mret ParaErr else
  q ← this_ this; mret (iSize q).

Definition circle_queue_len (this : ptr) : Q Z :=
  if is_null this then mret ParaErr else
  q ← this_ this; mret (iCount q).

Definition circle_queue_is_empty (this : ptr) : Q Z :=
  if is_null this then mret ParaErr else
  q ← this_ this; mret (if truth (iCount q) then 0 else 1).

Definition circle_queue_is_full (this : ptr) : Q Z :=
  if is_null this then mret ParaErr else
  q ← this_ this; mret (if iSize q =? iCount q then 1 else 0).

Definition circle_queue_pop (this : ptr) : Q ptr :=
  if is_null this then mret NULL else
  e ← circle_queue_is_empty this;
  if e =? 1 then mret NULL else
  q ← this_ this;
  pTmp ← elem (Elem q) (iFront q);
  set_this this (Queue (iSize q) (ucFreeValueEnable q) (iCount q - 1)
                       (Z.rem (iFront q + 1) (iSize q)) (iRear q) (Elem q)) ;;
  mret pTmp.

Definition circle_queue_push (this pValue : ptr) : Q Z :=
  if is_null this || is_null pValue then mret ParaErr else
  f ← circle_queue_is_full this;
  (if f =? 1 then
     pTmp ← circle_queue_pop this;
     q ← this_ this;
     if negb (is_null pTmp) && truth (ucFreeValueEnable q) then free pTmp else mret tt
   else mret tt) ;;
  q ← this_ this;
  set_elem (Elem q) (iRear q) pValue ;;
  q ← this_ this;
  set_this this (Queue (iSize q) (ucFreeValueEnable q) (iCount q + 1) (iFront q)
                       (Z.rem (iRear q + 1) (iSize q)) (Elem q)) ;;
  mret NoErr.

Definition circle_queue_clear (this : ptr) : Q Z :=
  if is_null this then mret ParaErr else
  q0 ← this_ this;
  loop (Datatypes.S (Z.to_nat (iCount q0))) (fun _ : unit =>
    pTmp ← circle_queue_pop this;
    if is_null pTmp then mret (inr tt) else
    q ← this_ this;
    (if truth (ucFreeValueEnable q) then free pTmp else mret tt) ;;
    mret (inl tt)) tt ;;
  mret NoErr.

Definition circle_queue_get_top (this : ptr) : Q ptr :=
  if is_null this then mret NULL else
  e ← circle_queue_is_empty this;
  if e =? 1 then mret NULL else
  q ← this_ this;
  elem (Elem q) (iFront q).

Definition circle_queue_get_foot (this : ptr) : Q ptr :=
  if is_null this then mret NULL else
  e ← circle_queue_is_empty this;
  if e =? 1 then mret NULL else
  q ← this_ this;
  if iFront q <? iRear q then elem (Elem q) (iRear q - 1)
  else elem (Elem q) (iRear q + 1).

(** [for(i = lo; i < hi; ++i, ++iCount) if(test) { pTmp = Elem[i]; break; }]:
    the final [iCount] and [pTmp]. *)
Definition scan (e : ptr) (test : Z -> Z -> Q bool) (lo hi : Z) (iCount : Z) (pTmp : ptr)
    : Q (Z * ptr) :=
  loop (Datatypes.S (Z.to_nat (hi - lo))) (fun '(i, iCount) =>
    if i <? hi then
      b ← test i iCount;
      if (b : bool) then pTmp' ← elem e i; mret (inr (iCount, pTmp'))
      else mret (inl (i + 1, iCount + 1))
    else mret (inr (iCount, pTmp))) (lo, iCount).

Definition circle_queue_get_by_id (this : ptr) (iIndex : Z) : Q ptr :=
  if is_null this then mret NULL else
  if iIndex <? 0 then mret NULL else
  e ← circle_queue_is_empty this;
  if e =? 1 then mret NULL else
  n ← circle_queue_len this;
  if n <=? iIndex then mret NULL else
  q ← this_ this;
  let test (_ iCount : Z) : Q bool := mret (iIndex =? iCount) in
  if iFront q <? iRear q then
    '(_, pTmp) ← scan (Elem q) test (iFront q) (iRear q) 0 NULL;
    mret pTmp
  else
    '(iCount, pTmp) ← scan (Elem q) test (iFront q) (iSize q) 0 NULL;
    '(_, pTmp) ← scan (Elem q) test 0 (iRear q) iCount pTmp;
    mret pTmp.

(** [CmpValueFunc], [PrintValueFunc]: the clients' callbacks. *)
Definition circle_queue_get (this : ptr) (pCmpValueHandle : option (ptr -> ptr -> Q Z))
    (pCmpValue : ptr) : Q ptr :=
  match pCmpValueHandle with
  | None => mret NULL
  | Some cmp =>
      if is_null this || is_null pCmpValue then mret NULL else
      e ← circle_queue_is_empty this;
      if e =? 1 then mret NULL else
      q ← this_ this;
      let test (i _ : Z) : Q bool :=
        v ← elem (Elem q) i; r ← cmp v pCmpValue; mret (0 =? r) in
      if iFront q <? iRear q then
        '(_, pTmp) ← scan (Elem q) test (iFront q) (iRear q) 0 NULL;
        mret pTmp
      else
        '(iCount, pTmp) ← scan (Elem q) test (iFront q) (iSize q) 0 NULL;
        '(_, pTmp) ← scan (Elem q) test 0 (iRear q) iCount pTmp;
        mret pTmp
  end.

Definition circle_queue_print (this : ptr) (pPrintValueHandle : option (ptr -> Q Z)) : Q Z :=
  match pPrintValueHandle with
  | None => mret ParaErr
  | Some pr =>
      if is_null this then mret ParaErr else
      e ← circle_queue_is_empty this;
      if e =? 1 then mret NoErr else
      q ← this_ this;
      let test (i _ : Z) : Q bool := v ← elem (Elem q) i; pr v ;; mret false in
      if iFront q <? iRear q then
        scan (Elem q) test (iFront q) (iRear q) 0 NULL ;;
        mret NoErr
      else
        '(iCount, _) ← scan (Elem q) test (iFront q) (iSize q) 0 NULL;
        scan (Elem q) test 0 (iRear q) iCount NULL ;;
        mret NoErr
  end.

Definition new_circle_queue (size iFreeValueEnable : Z) : Q ptr :=
  if (size <? 0) || (0 =? size) then mret NULL else
  pNew ← alloc (OQueue (Queue 0 0 0 0 0 NULL));
  if is_null pNew then mret NULL else
  set_this pNew (Queue size (u8 iFreeValueEnable) 0 0 0 NULL) ;;
  e ← alloc (OArr (replicate (Z.to_nat size) NULL));
  q ← this_ pNew;
  if is_null e then free pNew ;; mret NULL else
  set_this pNew (Queue (iSize q) (ucFreeValueEnable q) 0 0 0 e) ;;
  mret pNew.

Definition destroy_circle_queue (this : ptr) : Q Z :=
  if is_null this then mret ParaErr else
  n ← circle_queue_len this;
  (if 0 <? n then circle_queue_clear this else mret 0) ;;
  q ← this_ this;
  free (Elem q) ;;
  free this ;;
  mret NoErr.

(** ** The queue as a sequence *)

(** The slot of the [i]-th oldest element. *)
Definition slot (q : queue) (i : Z) : nat := Z.to_nat ((iFront q + i) mod iSize q).

(** The queue at [this] is well formed and holds [vs], oldest first. *)
Record queue_rep (s : mem) (this : positive) (q : queue) (e : positive) (es : list ptr)
    (vs : list positive) : Prop := {
  qr_this : cells s !! this = Some (OQueue q);
  qr_elem : Elem q = Some e;
  qr_arr : cells s !! e = Some (OArr es);
  qr_size : 0 < iSize q;
  qr_len : Z.of_nat (length es) = iSize q;
  qr_front : 0 <= iFront q < iSize q;
  qr_rear : iRear q = (iFront q + iCount q) mod iSize q;
  qr_count : iCount q = Z.of_nat (length vs);
  qr_fit : iCount q <= iSize q;
  qr_vals : forall i v, vs !! i = Some v -> es !! slot q (Z.of_nat i) = Some (Some v)
}.

Definition is_queue (s : mem) (this : positive) (cap en : Z) (e : positive)
    (vs : list positive) : Prop :=
  exists q es, queue_rep s this q e es vs /\ iSize q = cap /\ ucFreeValueEnable q = en.

Lemma mod_wrap x n : 0 <= x < 2 * n -> x mod n = if x <? n then x else x - n.
Proof.
  intros H. destruct (Z.ltb_spec x n).
  - apply Z.mod_small. lia.
  - symmetry. apply (Z.mod_unique _ _ 1); lia.
Qed.

Lemma rem_wrap x n : 0 <= x < n -> Z.rem (x + 1) n = (x + 1) mod n.
Proof. intros H. apply Z.rem_mod_nonneg; lia. Qed.

Lemma mod_succ a b n : 0 < n -> ((a + b) mod n + 1) mod n = (a + (b + 1)) mod n.
Proof. intros H. rewrite Zplus_mod_idemp_l. f_equal. lia. Qed.

Lemma wp_this (s : mem) a q (P : queue -> mem -> Prop) :
  cells s !! a = Some (OQueue q) -> P q s -> wp (this_ (Some a)) s P.
Proof. intros Ha HP. by eapply wp_load. Qed.

Lemma cq_is_empty_spec s this q e es vs :
  queue_rep s this q e es vs ->
  wp (circle_queue_is_empty (Some this)) s
     (fun r s' => s' = s /\ r = (if decide (vs = []) then 1 else 0)).
Proof.
  intros R. unfold circle_queue_is_empty, this_; c_red. destruct R. hp_steps.
  split; [done|]. rewrite qr_count0. unfold truth. destruct vs; simpl; done.
Qed.

Lemma elem_spec (s : mem) e es i v (P : ptr -> mem -> Prop) :
  cells s !! e = Some (OArr es) -> 0 <= i -> es !! Z.to_nat i = Some v ->
  P v s -> wp (elem (Some e) i) s P.
Proof.
  intros He Hi Hv HP. unfold elem. hp_steps.
  destruct (Z.ltb_spec i 0); [lia|]. rewrite Hv. done.
Qed.

Lemma set_elem_spec (s : mem) e es i v (P : unit -> mem -> Prop) :
  cells s !! e = Some (OArr es) -> 0 <= i < Z.of_nat (length es) ->
  P tt (upd e (OArr (<[Z.to_nat i := v]> es)) s) -> wp (set_elem (Some e) i v) s P.
Proof.
  intros He Hi HP. unfold set_elem. hp_steps.
  destruct (Z.leb_spec 0 i); [|lia]. destruct (Z.ltb_spec i (Z.of_nat (length es))); [|lia].
  simpl. hp_steps. done.
Qed.

Lemma cq_is_full_spec s this q e es vs :
  queue_rep s this q e es vs ->
  wp (circle_queue_is_full (Some this)) s
     (fun r s' => s' = s /\ r = (if decide (Z.of_nat (length vs) = iSize q) then 1 else 0)).
Proof.
  intros R. unfold circle_queue_is_full, this_; c_red. destruct R. hp_steps.
  split; [done|]. rewrite qr_count0. case_decide; destruct (Z.eqb_spec (iSize q) (Z.of_nat (length vs))); lia.
Qed.

(** The state after the queue object is rewritten; the array is another object. *)
Lemma rep_arr_ne s this q e es vs : queue_rep s this q e es vs -> this <> e.
Proof. intros [] ->. congruence. Qed.

Lemma cq_pop_spec s this cap en e vs :
  is_queue s this cap en e vs ->
  wp (circle_queue_pop (Some this)) s (fun r s' =>
    r = head vs /\ is_queue s' this cap en e (tail vs) /\
    forall a, a <> this -> cells s' !! a = cells s !! a).
Proof.
  intros (q & es & R & Hcap & Hen). unfold circle_queue_pop; c_red.
  wp_step. wp_apply cq_is_empty_spec; [exact R|]. intros r s' [-> ->].
  destruct vs as [|v vs]; [d_true|d_false].
  { wp_steps. split_and!; [done| |done]. exists q, es. done. }
  pose proof (rep_arr_ne _ _ _ _ _ _ R) as Hne. destruct R. unfold this_, set_this. hp_steps.
  rewrite qr_elem0. eapply elem_spec; [done|lia| |].
  { specialize (qr_vals0 0%nat v eq_refl). unfold slot in qr_vals0.
    rewrite Z.add_0_r, Z.mod_small in qr_vals0 by lia. exact qr_vals0. }
  hp_steps. split_and!; [done| |intros a Ha; simpl; by rewrite lookup_insert_ne].
  simpl in *.
  exists (Queue (iSize q) (ucFreeValueEnable q) (iCount q - 1)
                (Z.rem (iFront q + 1) (iSize q)) (iRear q) (Elem q)), es.
  split; [|split; simpl; done]. constructor; simpl; try lia.
  - by rewrite lookup_insert_eq, qr_elem0.
  - done.
  - by rewrite lookup_insert_ne.
  - rewrite rem_wrap by lia. apply Z.mod_pos_bound. lia.
  - rewrite rem_wrap, Zplus_mod_idemp_l by lia. rewrite qr_rear0. f_equal. lia.
  - intros i w Hi. specialize (qr_vals0 (Datatypes.S i) w Hi). rewrite <- qr_vals0.
    unfold slot; simpl. rewrite rem_wrap, Zplus_mod_idemp_l by lia. do 3 f_equal. lia.
Qed.

(** Writing at the rear extends the sequence when the queue is not full. *)
Lemma rep_snoc s this q e es vs v :
  queue_rep s this q e es vs -> Z.of_nat (length vs) < iSize q ->
  queue_rep
    (upd this (OQueue (Queue (iSize q) (ucFreeValueEnable q) (iCount q + 1) (iFront q)
                  (Z.rem (iRear q + 1) (iSize q)) (Elem q)))
       (upd e (OArr (<[Z.to_nat (iRear q) := Some v]> es)) s)) this
    (Queue (iSize q) (ucFreeValueEnable q) (iCount q + 1) (iFront q)
           (Z.rem (iRear q + 1) (iSize q)) (Elem q)) e
    (<[Z.to_nat (iRear q) := Some v]> es) (vs ++ [v]).
Proof.
  intros R Hlt. pose proof (rep_arr_ne _ _ _ _ _ _ R) as Hne. destruct R.
  assert (0 <= iRear q < iSize q) by (rewrite qr_rear0; apply Z.mod_pos_bound; lia).
  constructor; simpl; try lia.
  - by rewrite lookup_insert_eq.
  - done.
  - rewrite lookup_insert_ne by done. by rewrite lookup_insert_eq.
  - by rewrite length_insert.
  - rewrite rem_wrap by lia. rewrite qr_rear0 at 1. apply mod_succ. lia.
  - rewrite length_app; simpl. lia.
  - intros i w Hi. unfold slot in *; simpl. apply lookup_app_Some in Hi as [Hi|[Hge Hi]].
    + rewrite list_lookup_insert_ne; [by apply qr_vals0|].
      apply lookup_lt_Some in Hi. rewrite qr_rear0, !mod_wrap by lia.
      destruct (Z.ltb_spec (iFront q + iCount q) (iSize q));
        destruct (Z.ltb_spec (iFront q + Z.of_nat i) (iSize q)); lia.
    + apply list_lookup_singleton_Some in Hi as [Hi ->].
      replace (Z.of_nat i) with (iCount q) by lia. rewrite <- qr_rear0.
      apply list_lookup_insert_eq. clear qr_rear0. lia.
Qed.

(** The sequence after a push: a full queue drops its oldest element. *)
Definition pushed (cap : Z) (vs : list positive) (v : positive) : list positive :=
  (if decide (Z.of_nat (length vs) = cap) then tail vs else vs) ++ [v].

Lemma rep_length s this cap en e vs :
  is_queue s this cap en e vs -> Z.of_nat (length vs) <= cap /\ 0 < cap.
Proof. intros (q & es & [] & <- & _). lia. Qed.

(** Besides its own two objects a queue operation changes nothing but frees the
    values [fr]. *)
Definition framed (s s' : mem) (this e : positive) (fr : list positive) : Prop :=
  forall a, a <> this -> a <> e ->
    cells s' !! a = if decide (a ∈ fr) then None else cells s !! a.

Lemma cq_push_room_spec s this cap en e vs v :
  is_queue s this cap en e vs -> Z.of_nat (length vs) < cap ->
  wp (q ← this_ (Some this);
      set_elem (Elem q) (iRear q) (Some v) ;;
      q ← this_ (Some this);
      set_this (Some this) (Queue (iSize q) (ucFreeValueEnable q) (iCount q + 1) (iFront q)
                       (Z.rem (iRear q + 1) (iSize q)) (Elem q)) ;;
      mret NoErr) s
    (fun r s' => r = NoErr /\ is_queue s' this cap en e (vs ++ [v]) /\
                 framed s s' this e []).
Proof.
  intros (q & es & R & <- & <-) Hlt. pose proof (rep_arr_ne _ _ _ _ _ _ R) as Hne.
  pose proof (rep_snoc _ _ _ _ _ _ v R Hlt) as R'. destruct R.
  assert (0 <= iRear q < iSize q) by (rewrite qr_rear0; apply Z.mod_pos_bound; lia).
  unfold this_, set_this. hp_steps. rewrite qr_elem0.
  eapply set_elem_spec; [done|lia|].
  wp_steps. eapply wp_load; [simpl; rewrite lookup_insert_ne by done; eassumption|reflexivity|].
  wp_steps. eapply wp_store; [simpl; rewrite lookup_insert_ne by done; eassumption|].
  wp_steps. split_and!; [done| |].
  - eexists _, _. split; [exact R'|done].
  - intros a Ha He. simpl. by rewrite !lookup_insert_ne.
Qed.

Lemma cq_push_spec s this cap en e vs v :
  is_queue s this cap en e vs ->
  (en <> 0 -> forall w, head vs = Some w -> cells s !! w = Some OVal) ->
  wp (circle_queue_push (Some this) (Some v)) s (fun r s' =>
    r = NoErr /\ is_queue s' this cap en e (pushed cap vs v) /\
    framed s s' this e
      (if decide (Z.of_nat (length vs) = cap /\ en <> 0) then take 1 vs else [])).
Proof.
  intros Hq Hv. unfold circle_queue_push; c_red. pose proof (rep_length _ _ _ _ _ _ Hq) as Hl.
  wp_step. destruct Hq as (q & es & R & Hc & He). wp_apply cq_is_full_spec; [exact R|].
  intros r s0 [-> ->]. rewrite Hc. unfold pushed.
  destruct (decide (Z.of_nat (length vs) = cap)) as [Hf|Hf]; c_red.
  - destruct vs as [|w vs]; [simpl in Hf; lia|].
    wp_step. wp_step. wp_apply cq_pop_spec; [by exists q, es|].
    intros r s1 (-> & Hq1 & Hfr1). cbn [head tail] in *.
    assert (Hq1' := Hq1). destruct Hq1' as (q1 & es1 & R1 & Hc1 & He1).
    wp_step. eapply wp_this; [apply R1|]. c_red.
    rewrite He1. unfold truth. destruct (Z.eqb_spec en 0) as [->|Hen]; c_red.
    + wp_step. wp_apply cq_push_room_spec; [exact Hq1|simpl in Hf; lia|].
      intros r s2 (-> & Hq2 & Hfr2). split_and!; [done..|].
      rewrite decide_False by tauto. intros a Ha Hae. rewrite Hfr2 by done.
      by apply Hfr1.
    + pose proof (Hv Hen w eq_refl) as Hw.
      assert (w <> this /\ w <> e) as [Hwt Hwe].
      { destruct R. split; intros ->; congruence. }
      eapply wp_free; [rewrite Hfr1 by done; exact Hw|].
      wp_apply (cq_push_room_spec (del w s1) this cap en e vs v); [|simpl in Hf; lia|].
      { exists q1, es1. split; [|done]. destruct R1. constructor; try done; simpl;
          rewrite lookup_delete_ne; done. }
      intros r s2 (-> & Hq2 & Hfr2). split_and!; [done..|].
      rewrite (decide_True (P := _ /\ _)) by done. intros a Ha Hae.
      rewrite Hfr2 by done. simpl.
      destruct (decide (w = a)) as [->|Hwa].
      * rewrite lookup_delete_eq, decide_True; [done|by left].
      * rewrite lookup_delete_ne by done. rewrite decide_False; [by apply Hfr1|by intros [?|?%elem_of_nil]%elem_of_cons].
  - wp_step. wp_step. wp_apply cq_push_room_spec; [by exists q, es|lia|].
    intros r s2 (-> & Hq2 & Hfr2). split_and!; [done..|].
    rewrite decide_False by tauto. done.
Qed.

Lemma is_queue_ne s this cap en e vs : is_queue s this cap en e vs -> this <> e.
Proof. intros (q & es & R & _). by eapply rep_arr_ne. Qed.

Lemma is_queue_load s this cap en e vs :
  is_queue s this cap en e vs ->
  exists q, cells s !! this = Some (OQueue q) /\ iSize q = cap /\
    ucFreeValueEnable q = en /\ Elem q = Some e /\ iCount q = Z.of_nat (length vs) /\
    exists es, cells s !! e = Some (OArr es).
Proof. intros (q & es & [] & ? & ?). exists q. split_and!; try done. by exists es. Qed.

Lemma is_queue_frame s s' this cap en e vs :
  is_queue s this cap en e vs ->
  cells s' !! this = cells s !! this -> cells s' !! e = cells s !! e ->
  is_queue s' this cap en e vs.
Proof.
  intros (q & es & R & Hc & He) H1 H2. exists q, es. split; [|done].
  destruct R. constructor; first [congruence|done].
Qed.

(** The values of a clearing queue: allocated, each stored once. *)
Definition owned (s : mem) (en : Z) (vs : list positive) : Prop :=
  en <> 0 -> NoDup vs /\ forall v, v ∈ vs -> cells s !! v = Some OVal.

Lemma framed_del s s1 s2 this e us w :
  framed s s1 this e us -> (forall a, a <> this -> cells s2 !! a = cells s1 !! a) ->
  framed s (del w s2) this e (us ++ [w]).
Proof.
  intros Hfr H2 a Ha Hae. simpl. destruct (decide (w = a)) as [->|Hwa].
  - rewrite lookup_delete_eq, decide_True; [done|]. apply elem_of_app. right. by left.
  - rewrite lookup_delete_ne, H2, (Hfr a Ha Hae) by done.
    apply decide_ext. rewrite elem_of_app, list_elem_of_singleton.
    split; [by left|intros [?|?]; [done|congruence]].
Qed.

Lemma owned_tail s1 s2 this e en q es w ws :
  cells s1 !! this = Some (OQueue q) -> cells s1 !! e = Some (OArr es) ->
  owned s1 en (w :: ws) -> en <> 0 ->
  (forall a, a <> this -> cells s2 !! a = cells s1 !! a) ->
  cells s1 !! w = Some OVal /\ w <> this /\ w <> e /\ owned (del w s2) en ws.
Proof.
  intros Hq He Ho Hen H2. destruct (Ho Hen) as [Hnd Hval].
  apply NoDup_cons in Hnd as [Hw Hnd]. pose proof (Hval w ltac:(by left)) as Hwv.
  split_and!; [done|intros ->; congruence|intros ->; congruence|].
  intros _. split; [done|]. intros v Hv. simpl. rewrite lookup_delete_ne by (intros ->; done).
  assert (cells s1 !! v = Some OVal) as Hv1 by (apply Hval; by right).
  rewrite H2; [done|]. intros ->. congruence.
Qed.

Lemma cq_clear_spec s this cap en e vs :
  is_queue s this cap en e vs -> owned s en vs ->
  wp (circle_queue_clear (Some this)) s (fun r s' =>
    r = NoErr /\ is_queue s' this cap en e [] /\
    framed s s' this e (if decide (en <> 0) then vs else [])).
Proof.
  intros Hq Ho. unfold circle_queue_clear; c_red.
  destruct (is_queue_load _ _ _ _ _ _ Hq) as (q0 & Hq0 & _ & _ & _ & Hn0 & _).
  wp_step. eapply wp_this; [exact Hq0|]. wp_step.
  set (I := fun (_ : unit) (s1 : mem) => exists ws us, vs = us ++ ws /\
    is_queue s1 this cap en e ws /\ owned s1 en ws /\
    framed s s1 this e (if decide (en <> 0) then us else []) /\
    (length ws = Z.to_nat (match cells s1 !! this with Some (OQueue q) => iCount q | _ => 0 end))).
  eapply (wp_loop _ I (fun _ s1 => Z.to_nat
    (match cells s1 !! this with Some (OQueue q) => iCount q | _ => 0 end))).
  2:{ exists vs, []. split_and!; [done..| |rewrite Hq0; lia].
      destruct (decide (en <> 0)); intros a _ _; done. }
  2:{ rewrite Hq0. lia. }
  clear q0 Hq0 Hn0. intros [] s1 (ws & us & -> & Hq1 & Ho1 & Hfr & Hlen).
  wp_step. wp_apply cq_pop_spec; [exact Hq1|]. intros r s2 (-> & Hq2 & Hfr2).
  destruct ws as [|w ws]; c_red.
  { wp_steps. split_and!; [done|exact Hq2|].
    pose proof (is_queue_ne _ _ _ _ _ _ Hq). intros a Ha Hae. rewrite Hfr2 by done.
    rewrite app_nil_r. by apply Hfr. }
  destruct (is_queue_load _ _ _ _ _ _ Hq2) as (q2 & Hl2 & _ & Hen2 & _ & Hn2 & es2 & Hes2).
  wp_step. eapply wp_this; [exact Hl2|].
  rewrite Hen2. wp_step. unfold truth. destruct (Z.eqb_spec en 0) as [He0|He0]; c_red.
  - wp_steps. split.
    + exists ws, (us ++ [w]). rewrite <- app_assoc.
      split_and!; [done|done|done| |rewrite Hl2; simpl in Hn2; lia].
      intros a Ha Hae. rewrite Hfr2, (Hfr a Ha Hae) by done.
      destruct (decide (en <> 0)); [done|]. reflexivity.
    + rewrite <- Hlen, Hl2. simpl in *. lia.
  - destruct (is_queue_load _ _ _ _ _ _ Hq1) as (q1 & Hl1 & _ & _ & _ & _ & es1 & Hes1).
    destruct (owned_tail _ _ _ _ _ _ _ _ _ Hl1 Hes1 Ho1 He0 Hfr2) as (Hwv & Hwt & Hwe & Ho2).
    eapply wp_free; [by rewrite Hfr2|]. wp_steps. split.
    + exists ws, (us ++ [w]). rewrite <- app_assoc.
      split_and!; [done| | | |simpl; rewrite lookup_delete_ne, Hl2 by done; simpl in Hn2; lia].
      * eapply is_queue_frame; [exact Hq2|..]; simpl; by rewrite lookup_delete_ne.
      * exact Ho2.
      * rewrite decide_True in Hfr |- * by done. by eapply framed_del.
    + simpl. rewrite lookup_delete_ne by done. rewrite <- Hlen, Hl2. simpl in *. lia.
Qed.

Lemma cq_get_top_spec s this cap en e vs :
  is_queue s this cap en e vs ->
  wp (circle_queue_get_top (Some this)) s (fun r s' => r = head vs /\ s' = s).
Proof.
  intros (q & es & R & Hcap & Hen). unfold circle_queue_get_top; c_red.
  wp_step. wp_apply cq_is_empty_spec; [exact R|]. intros r s' [-> ->].
  destruct vs as [|v vs]; [d_true|d_false]; [by wp_steps|].
  destruct R. wp_step. eapply wp_this; [done|].
  rewrite qr_elem0. eapply elem_spec; [done|lia| |done].
  specialize (qr_vals0 0%nat v eq_refl). unfold slot in qr_vals0.
  by rewrite Z.add_0_r, Z.mod_small in qr_vals0 by lia.
Qed.

Lemma cq_len_spec s this cap en e vs :
  is_queue s this cap en e vs ->
  wp (circle_queue_len (Some this)) s (fun r s' => r = Z.of_nat (length vs) /\ s' = s).
Proof.
  intros (q & es & [] & _). unfold circle_queue_len; c_red.
  wp_step. eapply wp_this; [done|]. by wp_steps.
Qed.

Lemma cq_size_spec s this cap en e vs :
  is_queue s this cap en e vs ->
  wp (circle_queue_size (Some this)) s (fun r s' => r = cap /\ s' = s).
Proof.
  intros (q & es & [] & <- & _). unfold circle_queue_size; c_red.
  wp_step. eapply wp_this; [done|]. by wp_steps.
Qed.

(** *** The scanning loops *)

Lemma cq_scan_spec (s : mem) e es (test : Z -> Z -> Q bool) (f : nat -> Z -> bool) lo hi c p :
  cells s !! e = Some (OArr es) -> 0 <= lo -> hi <= Z.of_nat (length es) ->
  (forall i ic, lo <= i < hi ->
     wp (test i ic) s (fun b s' => b = f (Z.to_nat i) ic /\ s' = s)) ->
  wp (scan (Some e) test lo hi c p) s (fun r s' => s' = s /\
    ((exists i, lo <= i < hi /\ f (Z.to_nat i) (c + (i - lo)) = true /\
        (forall j, lo <= j < i -> f (Z.to_nat j) (c + (j - lo)) = false) /\
        exists v, es !! Z.to_nat i = Some v /\ r = (c + (i - lo), v)) \/
     ((forall j, lo <= j < hi -> f (Z.to_nat j) (c + (j - lo)) = false) /\
        r = (c + Z.max 0 (hi - lo), p)))).
Proof.
  intros He Hlo Hhi Htest. unfold scan.
  eapply (wp_loop _ (fun '(i, ic) s' => s' = s /\ lo <= i <= Z.max lo hi /\ ic = c + (i - lo) /\
      forall j, lo <= j < i -> f (Z.to_nat j) (c + (j - lo)) = false)
    (fun '(i, _) _ => Z.to_nat (hi - i))); [|split_and!; [done|lia..|intros; lia]|lia].
  intros [i ic] s' (-> & Hi & -> & Hno).
  destruct (Z.ltb_spec i hi) as [Hlt|Hge].
  - wp_step. wp_apply Htest; [lia|]. intros b s' [-> ->].
    destruct (f (Z.to_nat i) _) eqn:Hf.
    + destruct (lookup_lt_is_Some_2 es (Z.to_nat i)) as [v Hv]; [lia|].
      wp_step. eapply elem_spec; [done|lia|exact Hv|]. wp_steps.
      split; [done|]. left. exists i. split_and!; eauto; lia.
    + wp_steps. split; [|lia]. split_and!; try lia; [done|].
      intros j Hj. destruct (decide (j = i)) as [->|]; [done|]. apply Hno. lia.
  - wp_steps. split; [done|]. right. split; [|f_equal; lia].
    intros j Hj. apply Hno. lia.
Qed.

(** The element the code returns for [iIndex] when the used slots wrap around
    the end of the array and the search of the first segment succeeds: the
    second loop starts with [iCount] still equal to [iIndex] and overwrites it
    with [Elem[0]]. *)
Definition by_id_index (q : queue) (iIndex : Z) : Z :=
  if (iRear q <=? iFront q) && negb (iRear q =? 0)
  then Z.max iIndex (iSize q - iFront q) else iIndex.

Lemma rep_slot s this q e es vs i v :
  queue_rep s this q e es vs -> 0 <= i < iCount q ->
  es !! Z.to_nat ((iFront q + i) mod iSize q) = Some v -> vs !! Z.to_nat i = v.
Proof.
  intros [] Hi Hv. destruct (lookup_lt_is_Some_2 vs (Z.to_nat i)) as [w Hw]; [lia|].
  specialize (qr_vals0 _ _ Hw). unfold slot in qr_vals0.
  rewrite Z2Nat.id in qr_vals0 by lia. congruence.
Qed.

(** Where the sequence lies in the array. *)
Lemma rep_layout s this q e es vs :
  queue_rep s this q e es vs -> 0 < iCount q ->
  0 <= iRear q < iSize q /\
  (iFront q < iRear q /\ iCount q = iRear q - iFront q \/
   iRear q <= iFront q /\ iCount q = iSize q - iFront q + iRear q).
Proof.
  intros [] Hc. assert (0 <= iRear q < iSize q) by (rewrite qr_rear0; apply Z.mod_pos_bound; lia).
  rewrite mod_wrap in qr_rear0 by lia.
  destruct (Z.ltb_spec (iFront q + iCount q) (iSize q)); lia.
Qed.

Lemma rep_slot_at s this q e es vs j v i :
  queue_rep s this q e es vs -> 0 <= i < iCount q ->
  (j = iFront q + i \/ j = iFront q + i - iSize q) -> 0 <= j < iSize q ->
  es !! Z.to_nat j = Some v -> v = vs !! Z.to_nat i.
Proof.
  intros R Hi Hj Hj' Hv. symmetry. eapply rep_slot; [exact R|done|].
  rewrite <- Hv. do 2 f_equal. destruct R. rewrite mod_wrap by lia.
  destruct (Z.ltb_spec (iFront q + i) (iSize q)); lia.
Qed.

(** The scan for an index finds it exactly when it lies in the segment. *)
Lemma cq_scan_id_spec (s : mem) e es iIndex lo hi c p :
  cells s !! e = Some (OArr es) -> 0 <= lo <= hi -> hi <= Z.of_nat (length es) ->
  c <= iIndex ->
  wp (scan (Some e) (fun _ ic => mret (iIndex =? ic)) lo hi c p) s (fun r s' => s' = s /\
    if iIndex <? c + (hi - lo)
    then exists v, es !! Z.to_nat (lo + (iIndex - c)) = Some v /\ r = (iIndex, v)
    else r = (c + (hi - lo), p)).
Proof.
  intros He Hlo Hhi Hc.
  eapply wp_mono; [eapply (cq_scan_spec _ _ _ _ (fun _ ic => iIndex =? ic));
    [exact He|lia|lia|intros; by wp_steps]|].
  intros r s' (-> & [(i & Hir & Hf & _ & v & Hv & ->)|(Hno & ->)]); (split; [done|]).
  - apply Z.eqb_eq in Hf. destruct (Z.ltb_spec iIndex (c + (hi - lo))); [|lia].
    exists v. split; [|f_equal; lia]. rewrite <- Hv. f_equal. lia.
  - destruct (Z.ltb_spec iIndex (c + (hi - lo))); [|f_equal; lia].
    specialize (Hno (lo + (iIndex - c)) ltac:(lia)). apply Z.eqb_neq in Hno. lia.
Qed.

Lemma cq_get_by_id_spec s this q e es vs iIndex :
  queue_rep s this q e es vs -> 0 <= iIndex < iCount q ->
  wp (circle_queue_get_by_id (Some this) iIndex) s (fun r s' =>
    s' = s /\ r = vs !! Z.to_nat (by_id_index q iIndex)).
Proof.
  intros R Hi. unfold circle_queue_get_by_id; c_red.
  destruct (rep_layout _ _ _ _ _ _ R ltac:(lia)) as [Hr Hlay].
  destruct (Z.ltb_spec iIndex 0); [lia|]. wp_step.
  wp_apply cq_is_empty_spec; [exact R|]. intros r s' [-> ->].
  assert (vs <> []) by (intros ->; destruct R; simpl in *; lia). d_false.
  wp_step. wp_apply (cq_len_spec s this (iSize q) (ucFreeValueEnable q) e vs); [by exists q, es|].
  intros r s' [-> ->]. pose proof (qr_count _ _ _ _ _ _ R) as Hc.
  destruct (Z.leb_spec (Z.of_nat (length vs)) iIndex); [lia|].
  pose proof (qr_len _ _ _ _ _ _ R) as Hlen. pose proof (qr_front _ _ _ _ _ _ R) as Hfr.
  pose proof (qr_arr _ _ _ _ _ _ R) as Harr.
  wp_step. eapply wp_this; [apply R|]. rewrite (qr_elem _ _ _ _ _ _ R).
  unfold by_id_index. destruct (Z.ltb_spec (iFront q) (iRear q)) as [Hw|Hw].
  - destruct (Z.leb_spec (iRear q) (iFront q)); [lia|]. c_red.
    wp_step. wp_apply cq_scan_id_spec; [exact Harr|lia..|].
    intros r s' [-> Hcase]. destruct (Z.ltb_spec iIndex (0 + (iRear q - iFront q))); [|lia].
    destruct Hcase as (v & Hv & ->). wp_steps. split; [done|].
    eapply rep_slot_at; [exact R|lia| | |exact Hv]; lia.
  - destruct (Z.leb_spec (iRear q) (iFront q)); [|lia].
    wp_step. wp_apply cq_scan_id_spec; [exact Harr|lia..|].
    intros r s' [-> Hcase]. destruct (Z.ltb_spec iIndex (0 + (iSize q - iFront q))).
    + destruct Hcase as (v & Hv & ->). wp_step. wp_apply cq_scan_id_spec; [exact Harr|lia..|].
      intros r1 s' [-> Hcase1]. destruct (Z.eqb_spec (iRear q) 0) as [Hz|Hz]; c_red.
      * destruct (Z.ltb_spec iIndex (iIndex + (iRear q - 0))); [lia|]. rewrite Hcase1.
        wp_steps. split; [done|]. eapply rep_slot_at; [exact R|lia| | |exact Hv]; lia.
      * destruct (Z.ltb_spec iIndex (iIndex + (iRear q - 0))); [|lia].
        destruct Hcase1 as (v' & Hv' & ->). wp_steps. split; [done|].
        eapply rep_slot_at; [exact R| | | |exact Hv']; lia.
    + rewrite Hcase. wp_step. wp_apply cq_scan_id_spec; [exact Harr|lia..|].
      intros r1 s' [-> Hcase']. destruct (Z.eqb_spec (iRear q) 0) as [Hz|Hz]; [lia|c_red].
      destruct (Z.ltb_spec iIndex (0 + (iSize q - iFront q) + (iRear q - 0))); [|lia].
      destruct Hcase' as (v' & Hv' & ->). wp_steps. split; [done|].
      eapply rep_slot_at; [exact R| | | |exact Hv']; lia.
Qed.

(** [foot] on a non-empty queue: [Elem[iRear - 1]] when the used slots do not
    wrap, [Elem[iRear + 1]] when they do. *)
Lemma cq_get_foot_spec s this q e es vs :
  queue_rep s this q e es vs -> 0 < iCount q ->
  circle_queue_get_foot (Some this) s =
  if iFront q <? iRear q then Val (last vs, s)
  else match es !! Z.to_nat (iRear q + 1) with
       | Some v => Val (v, s)
       | None => Fault OutOfBounds
       end.
Proof.
  intros R Hc. destruct (rep_layout _ _ _ _ _ _ R Hc) as [Hr Hlay].
  pose proof (cq_is_empty_spec _ _ _ _ _ _ R) as (r & s' & He & -> & ->)%wp_run.
  assert (vs <> []) as Hne by (intros ->; pose proof (qr_count _ _ _ _ _ _ R) as H0; simpl in H0; lia).
  unfold circle_queue_get_foot; c_red. unfold mbind, M_bind.
  rewrite He, decide_False by done. c_red.
  unfold this_, elem, load, getS. unfold mbind, M_bind. simpl.
  rewrite (qr_this _ _ _ _ _ _ R). simpl. rewrite (qr_elem _ _ _ _ _ _ R).
  pose proof (qr_front _ _ _ _ _ _ R) as Hf.
  destruct (Z.ltb_spec (iFront q) (iRear q)).
  - simpl. rewrite (qr_arr _ _ _ _ _ _ R). simpl. destruct (Z.ltb_spec (iRear q - 1) 0); [lia|].
    pose proof (qr_len _ _ _ _ _ _ R). pose proof (qr_count _ _ _ _ _ _ R).
    destruct (lookup_lt_is_Some_2 es (Z.to_nat (iRear q - 1))) as [v Hv]; [lia|].
    rewrite Hv. simpl. rewrite (rep_slot_at _ _ _ _ _ _ (iRear q - 1) v (iCount q - 1) R ltac:(lia)
      ltac:(lia) ltac:(lia) Hv).
    rewrite last_lookup. by replace (Nat.pred (length vs)) with (Z.to_nat (iCount q - 1)) by lia.
  - simpl. rewrite (qr_arr _ _ _ _ _ _ R). simpl. destruct (Z.ltb_spec (iRear q + 1) 0); [lia|].
    by destruct (es !! Z.to_nat (iRear q + 1)).
Qed.

Lemma replicate_rep s this e size en :
  0 < size -> cells s !! this = Some (OQueue (Queue size en 0 0 0 (Some e))) ->
  cells s !! e = Some (OArr (replicate (Z.to_nat size) None)) ->
  is_queue s this size en e [].
Proof.
  intros Hs Ht He. exists (Queue size en 0 0 0 (Some e)), (replicate (Z.to_nat size) None).
  split; [|done]. constructor; simpl; try done; try lia.
  rewrite length_replicate. lia.
Qed.

(** The constructor: NULL without a change to the heap's objects when an
    allocation fails, otherwise an empty queue on two fresh objects. *)
Lemma cq_new_spec (s : mem) size en :
  heap_wf s -> 0 < size ->
  wp (new_circle_queue size en) s (fun r s' => heap_wf s' /\
    (r = NULL /\ cells s' = cells s \/
     exists this e, r = Some this /\ is_queue s' this size (u8 en) e [] /\
       cells s !! this = None /\ cells s !! e = None /\ framed s s' this e [])).
Proof.
  intros Hwf Hs. unfold new_circle_queue.
  destruct (Z.ltb_spec size 0); [lia|]. destruct (Z.eqb_spec 0 size); [lia|]. c_red.
  wp_step. apply wp_alloc; [intros o _; c_red; wp_steps; split; [done|by left]|intros _; c_red].
  pose proof (heap_wf_alloc (OQueue (Queue 0 0 0 0 0 NULL)) s (tl (oom s)) (glob s) Hwf) as Hwf1.
  wp_step. eapply wp_store; [simpl; by rewrite lookup_insert_eq|].
  wp_step. apply wp_alloc; simpl; [intros o _|intros _].
  - wp_step. eapply wp_this; [simpl; by rewrite lookup_insert_eq|]. c_red. wp_step.
    eapply wp_free; [simpl; by rewrite lookup_insert_eq|]. wp_steps.
    pose proof (Hwf (brk s) ltac:(lia)) as Hb. split.
    + intros a Ha. simpl in *. rewrite insert_insert_eq, delete_insert_id by done. apply Hwf. lia.
    + left. split; [done|]. simpl. by rewrite insert_insert_eq, delete_insert_id.
  - wp_step. eapply wp_this; [simpl; rewrite lookup_insert_ne by lia; by rewrite lookup_insert_eq|].
    c_red. wp_step.
    eapply wp_store; [simpl; rewrite lookup_insert_ne by lia; by rewrite lookup_insert_eq|].
    wp_steps. split.
    + intros a Ha. simpl in *. rewrite !lookup_insert_ne by lia. apply Hwf. lia.
    + right. exists (brk s), (Pos.succ (brk s)). split_and!; [done| |apply Hwf; lia|apply Hwf; lia|].
      * apply replicate_rep; simpl; [done| |].
        -- by rewrite lookup_insert_eq.
        -- rewrite lookup_insert_ne by lia. by rewrite lookup_insert_eq.
      * intros a Ha Hae. simpl. by rewrite !lookup_insert_ne.
Qed.

(** The destructor frees the two objects, and the values when the queue owns
    them. *)
Lemma cq_destroy_spec s this cap en e vs :
  is_queue s this cap en e vs -> owned s en vs ->
  wp (destroy_circle_queue (Some this)) s (fun r s' =>
    r = NoErr /\ cells s' !! this = None /\ cells s' !! e = None /\
    framed s s' this e (if decide (en <> 0) then vs else [])).
Proof.
  intros Hq Ho. unfold destroy_circle_queue; c_red. pose proof (is_queue_ne _ _ _ _ _ _ Hq) as Hne.
  wp_step. wp_apply cq_len_spec; [exact Hq|]. intros r s' [-> ->]. wp_step.
  eapply (wp_mono _ _ (fun _ s1 => is_queue s1 this cap en e [] /\
    framed s s1 this e (if decide (en <> 0) then vs else []))).
  { destruct (Z.ltb_spec 0 (Z.of_nat (length vs))).
    - eapply wp_mono; [apply cq_clear_spec; [exact Hq|exact Ho]|]. intros r s1 (_ & ? & ?). done.
    - destruct vs; [|simpl in *; lia]. wp_steps. split; [done|].
      destruct (decide (en <> 0)); intros a _ _; done. }
  intros _ s1 [Hq1 Hfr]. destruct (is_queue_load _ _ _ _ _ _ Hq1) as (q & Hl & _ & _ & He & _ & es & Hes).
  wp_step. eapply wp_this; [exact Hl|]. rewrite He.
  wp_step. eapply wp_free; [exact Hes|].
  wp_step. eapply wp_free; [simpl; rewrite lookup_delete_ne by done; exact Hl|].
  wp_steps. simpl. split_and!; [done|by rewrite lookup_delete_eq| |].
  - rewrite lookup_delete_ne by done. by rewrite lookup_delete_eq.
  - intros a Ha Hae. simpl. rewrite !lookup_delete_ne by done. by apply Hfr.
Qed.

(** ** The abstract queue: a bounded sequence that drops its oldest element *)

Inductive op : Type :=
| OpPush (v : positive) | OpPop | OpTop | OpLen | OpEmpty | OpFull | OpSize | OpClear.

Inductive outcome : Type :=
| RInt (z : Z)
| RPtr (p : ptr).

Definition exec_op (this : ptr) (o : op) : Q outcome :=
  match o with
  | OpPush v => r ← circle_queue_push this (Some v); mret (RInt r)
  | OpPop => r ← circle_queue_pop this; mret (RPtr r)
  | OpTop => r ← circle_queue_get_top this; mret (RPtr r)
  | OpLen => r ← circle_queue_len this; mret (RInt r)
  | OpEmpty => r ← circle_queue_is_empty this; mret (RInt r)
  | OpFull => r ← circle_queue_is_full this; mret (RInt r)
  | OpSize => r ← circle_queue_size this; mret (RInt r)
  | OpClear => r ← circle_queue_clear this; mret (RInt r)
  end.

Definition spec_op (cap : Z) (o : op) (vs : list positive) : outcome * list positive :=
  match o with
  | OpPush v => (RInt NoErr, pushed cap vs v)
  | OpPop => (RPtr (head vs), tail vs)
  | OpTop => (RPtr (head vs), vs)
  | OpLen => (RInt (Z.of_nat (length vs)), vs)
  | OpEmpty => (RInt (if decide (vs = []) then 1 else 0), vs)
  | OpFull => (RInt (if decide (Z.of_nat (length vs) = cap) then 1 else 0), vs)
  | OpSize => (RInt cap, vs)
  | OpClear => (RInt NoErr, [])
  end.

Fixpoint exec_ops (this : ptr) (os : list op) : Q (list outcome) :=
  match os with
  | [] => mret []
  | o :: os => r ← exec_op this o; rs ← exec_ops this os; mret (r :: rs)
  end.

Fixpoint spec_ops (cap : Z) (os : list op) (vs : list positive) : list outcome * list positive :=
  match os with
  | [] => ([], vs)
  | o :: os =>
      let '(r, vs1) := spec_op cap o vs in
      let '(rs, vs2) := spec_ops cap os vs1 in
      (r :: rs, vs2)
  end.

(** One operation of a queue that does not own its values. *)
Lemma cq_exec_op_spec s this cap e vs o :
  is_queue s this cap 0 e vs ->
  wp (exec_op (Some this) o) s (fun r s' =>
    r = (spec_op cap o vs).1 /\ is_queue s' this cap 0 e (spec_op cap o vs).2 /\
    framed s s' this e []).
Proof.
  intros Hq. assert (Hrefl : framed s s this e []) by (intros a _ _; done).
  assert (Hq' := Hq). destruct Hq' as (q & es & R & Hc & He).
  destruct o; simpl; wp_step.
  - wp_apply cq_push_spec; [exact Hq|done|]. intros r s' (-> & ? & Hfr). wp_steps.
    rewrite decide_False in Hfr by tauto. done.
  - wp_apply cq_pop_spec; [exact Hq|]. intros r s' (-> & ? & Hfr). wp_steps.
    split_and!; [done..|]. intros a Ha _. by apply Hfr.
  - wp_apply cq_get_top_spec; [exact Hq|]. intros r s' (-> & ->). by wp_steps.
  - wp_apply cq_len_spec; [exact Hq|]. intros r s' (-> & ->). by wp_steps.
  - wp_apply cq_is_empty_spec; [exact R|]. intros r s' (-> & ->). by wp_steps.
  - wp_apply cq_is_full_spec; [exact R|]. intros r s' (-> & ->). rewrite Hc. by wp_steps.
  - wp_apply cq_size_spec; [exact Hq|]. intros r s' (-> & ->). by wp_steps.
  - wp_apply cq_clear_spec; [exact Hq|done|]. intros r s' (-> & ? & ?). by wp_steps.
Qed.

(** ** Properties *)

(** C38: every sequence of operations on a ring queue that does not own its
    values (push, pop, top, len, empty, full, size, clear) runs without a fault,
    returns what a bounded FIFO sequence returns that drops its oldest element
    when it is full, and touches no object but the queue's own two. *)
Theorem circle_queue_refines_bounded_fifo s this cap e vs os :
  is_queue s this cap 0 e vs ->
  wp (exec_ops (Some this) os) s (fun rs s' =>
    rs = (spec_ops cap os vs).1 /\ is_queue s' this cap 0 e (spec_ops cap os vs).2 /\
    framed s s' this e []).
Proof.
  revert s vs. induction os as [|o os IH]; intros s vs Hq; simpl.
  { wp_steps. split_and!; [done|done|intros a _ _; done]. }
  wp_step. wp_apply cq_exec_op_spec; [exact Hq|]. intros r s1 (-> & Hq1 & Hfr1).
  destruct (spec_op cap o vs) as [r vs1]. cbn [fst snd] in *.
  wp_step. wp_apply IH; [exact Hq1|]. intros rs s2 (-> & Hq2 & Hfr2).
  destruct (spec_ops cap os vs1) as [rs vs2]. wp_steps. split_and!; [done|done|].
  intros a Ha Hae. rewrite (Hfr2 a Ha Hae). by apply Hfr1.
Qed.

(** A heap holding an empty queue of capacity [size] at 1, its array at 2 and
    five values at 3 to 7. *)
Definition demo (size en : Z) : mem :=
  Heap (list_to_map ((1%positive, OQueue (Queue size en 0 0 0 (Some 2%positive))) ::
                     (2%positive, OArr (replicate (Z.to_nat size) None)) ::
                     ((fun v => (v, OVal)) <$> [3; 4; 5; 6; 7]%positive))) 8 [] tt.

Lemma demo_queue size en : 0 < size -> is_queue (demo size en) 1 size en 2 [].
Proof. intros H. by apply replicate_rep. Qed.

Lemma circle_queue_refines_bounded_fifo_witness :
  wp (exec_ops (Some 1%positive) [OpPush 3; OpPush 4; OpPush 5; OpPop; OpLen]) (demo 2 0)
    (fun rs s' => rs = [RInt 0; RInt 0; RInt 0; RPtr (Some 4%positive); RInt 1] /\
       is_queue s' 1 2 0 2 [5%positive] /\ framed (demo 2 0) s' 1 2 []).
Proof.
  apply (circle_queue_refines_bounded_fifo (demo 2 0) 1 2 2 []
    [OpPush 3; OpPush 4; OpPush 5; OpPop; OpLen]).
  apply demo_queue. lia.
Defined.

(** A push onto a queue that owns its values keeps the newest [cap] values
    in order and frees exactly the value it evicts. *)
Theorem circle_queue_push_evicts_oldest s this cap en e vs v :
  is_queue s this cap en e vs ->
  en <> 0 ->
  (forall w, head vs = Some w -> cells s !! w = Some OVal) ->
  wp (circle_queue_push (Some this) (Some v)) s (fun r s' =>
    r = NoErr /\
    is_queue s' this cap en e
      (if decide (Z.of_nat (length vs) = cap) then tail vs ++ [v] else vs ++ [v]) /\
    forall a, a <> this -> a <> e ->
      cells s' !! a = if decide (Z.of_nat (length vs) = cap /\ head vs = Some a)
                      then None else cells s !! a).
Proof.
  intros Hq Hen Hv. wp_apply cq_push_spec; [exact Hq|auto|]. intros r s' (-> & Hq' & Hfr).
  split_and!; [done| |].
  - unfold pushed in Hq'. by destruct (decide (Z.of_nat (length vs) = cap)).
  - intros a Ha Hae. rewrite (Hfr a Ha Hae). apply decide_ext.
    destruct (decide (Z.of_nat (length vs) = cap /\ en <> 0)) as [[Hf _]|Hf].
    + destruct vs as [|w vs]; simpl.
      * rewrite elem_of_nil. intuition congruence.
      * rewrite list_elem_of_singleton. intuition congruence.
    + rewrite elem_of_nil. intuition congruence.
Qed.

Lemma circle_queue_push_evicts_oldest_witness :
  wp (circle_queue_push (Some 1%positive) (Some 5%positive)) (demo 2 1) (fun r s' =>
    r = NoErr /\
    is_queue s' 1 2 1 2
      (if decide (Z.of_nat (@length positive []) = 2) then tail [] ++ [5%positive]
       else [] ++ [5%positive]) /\
    forall a, a <> 1%positive -> a <> 2%positive ->
      cells s' !! a = if decide (Z.of_nat (@length positive []) = 2 /\ head [] = Some a)
                      then None else cells (demo 2 1) !! a).
Proof.
  apply (circle_queue_push_evicts_oldest (demo 2 1) 1 2 1 2 [] 5); [apply demo_queue; lia|done|done].
Defined.

(** [get_by_id] on a queue returns the element at the index when the used
    slots do not wrap around the array or the index lies past the wrap; when
    they wrap, an index before the wrap yields the element at the wrap instead,
    because the second scan runs after the first one has found its element. *)
Theorem circle_queue_get_by_id_exact s this q e es vs iIndex :
  queue_rep s this q e es vs -> 0 <= iIndex < iCount q ->
  exists r, circle_queue_get_by_id (Some this) iIndex s = Val (r, s) /\
    r = vs !! Z.to_nat (if (iFront q <? iRear q) || (iRear q =? 0) ||
                           (iSize q - iFront q <=? iIndex)
                        then iIndex else iSize q - iFront q).
Proof.
  intros R Hi. pose proof (cq_get_by_id_spec _ _ _ _ _ _ _ R Hi) as (r & s' & Hr & -> & ->)%wp_run.
  eexists. split; [exact Hr|]. f_equal. f_equal. unfold by_id_index.
  destruct (Z.ltb_spec (iFront q) (iRear q)), (Z.leb_spec (iRear q) (iFront q));
    destruct (Z.eqb_spec (iRear q) 0), (Z.leb_spec (iSize q - iFront q) iIndex); simpl; lia.
Qed.

(** Capacity 3, elements 4, 5, 6 with 6 stored in slot 0. *)
Definition wrapped : mem :=
  Heap (list_to_map [(1%positive, OQueue (Queue 3 0 3 1 1 (Some 2%positive)));
                     (2%positive, OArr [Some 6%positive; Some 4%positive; Some 5%positive])])
       3 [] tt.

Lemma wrapped_rep :
  queue_rep wrapped 1 (Queue 3 0 3 1 1 (Some 2%positive)) 2
    [Some 6%positive; Some 4%positive; Some 5%positive] [4; 5; 6]%positive.
Proof.
  constructor; try done. intros i v Hi.
  destruct i as [|[|[|i]]]; [..|done]; injection Hi as <-; reflexivity.
Qed.

Lemma circle_queue_get_by_id_exact_witness :
  exists r, circle_queue_get_by_id (Some 1%positive) 0 wrapped = Val (r, wrapped) /\
    r = [4; 5; 6]%positive !! Z.to_nat (if (1 <? 1) || (1 =? 0) || (3 - 1 <=? 0) then 0 else 3 - 1).
Proof.
  apply (circle_queue_get_by_id_exact wrapped 1 (Queue 3 0 3 1 1 (Some 2%positive)) 2 _
    [4; 5; 6]%positive 0 wrapped_rep).
  vm_compute. split; [discriminate|reflexivity].
Defined.

(** [foot] returns the newest element when the used slots do not wrap; when
    they wrap it reads [Elem[iRear + 1]] instead of the slot before [iRear], and
    past the end of the array when [iRear] is the last slot. *)
Theorem circle_queue_get_foot_exact s this q e es vs :
  queue_rep s this q e es vs -> 0 < iCount q ->
  circle_queue_get_foot (Some this) s =
  if iFront q <? iRear q then Val (last vs, s)
  else if iRear q + 1 =? iSize q then Fault OutOfBounds
  else Val (default NULL (es !! Z.to_nat (iRear q + 1)), s).
Proof.
  intros R Hc. rewrite (cq_get_foot_spec _ _ _ _ _ _ R Hc).
  destruct (rep_layout _ _ _ _ _ _ R Hc) as [Hr _]. pose proof (qr_len _ _ _ _ _ _ R) as Hl.
  destruct (Z.ltb_spec (iFront q) (iRear q)); [done|].
  destruct (Z.eqb_spec (iRear q + 1) (iSize q)) as [He|He].
  - rewrite lookup_ge_None_2 by lia. done.
  - destruct (lookup_lt_is_Some_2 es (Z.to_nat (iRear q + 1))) as [v Hv]; [lia|]. by rewrite Hv.
Qed.

Lemma circle_queue_get_foot_exact_witness :
  circle_queue_get_foot (Some 1%positive) wrapped =
  if 1 <? 1 then Val (last [4; 5; 6]%positive, wrapped)
  else if 1 + 1 =? 3 then Fault OutOfBounds
  else Val (default NULL ([Some 6; Some 4; Some 5]%positive !! Z.to_nat (1 + 1)), wrapped).
Proof.
  apply (circle_queue_get_foot_exact wrapped 1 (Queue 3 0 3 1 1 (Some 2%positive)) 2
    [Some 6; Some 4; Some 5]%positive [4; 5; 6]%positive wrapped_rep). reflexivity.
Defined.

Lemma cq_push_all_spec this cap en e ws : forall us s2,
  is_queue s2 this cap en e us ->
  Z.of_nat (length (us ++ ws)) <= cap ->
  wp (exec_ops (Some this) (OpPush <$> ws)) s2 (fun _ s3 =>
    is_queue s3 this cap en e (us ++ ws) /\ framed s2 s3 this e []).
Proof.
  induction ws as [|w ws IH]; intros us s2 Hq Hlen; simpl.
  { wp_steps. rewrite app_nil_r. split; [done|]. intros a _ _; done. }
  rewrite length_app in Hlen; simpl in Hlen. wp_step. wp_step.
  unfold circle_queue_push; c_red. wp_step. assert (Hq' := Hq).
  destruct Hq' as (q & es & R & Hc & He). wp_apply cq_is_full_spec; [exact R|].
  intros r s0 [-> ->]. rewrite Hc, decide_False by lia. c_red. wp_step. wp_step.
  wp_apply cq_push_room_spec; [exact Hq|lia|]. intros r s3 (-> & Hq3 & Hfr3). wp_steps.
  eapply wp_mono; [apply (IH (us ++ [w]) s3); [exact Hq3|]|].
  { rewrite !length_app; simpl. lia. }
  intros rs s4 [Hq4 Hfr4]. wp_steps. rewrite <- app_assoc in Hq4. split; [done|].
  intros a Ha Hae. rewrite (Hfr4 a Ha Hae). by apply Hfr3.
Qed.

(** A queue built by the constructor, filled by pushes that never exceed its
    capacity, and destroyed leaves the heap as it was, minus the values when it
    owns them: nothing leaks and nothing is freed twice.  A failed allocation
    leaves the heap as it was too. *)
Theorem circle_queue_lifecycle s size en vs :
  heap_wf s -> 0 < size -> Z.of_nat (length vs) <= size -> NoDup vs ->
  (forall v, v ∈ vs -> cells s !! v = Some OVal) ->
  wp (this ← new_circle_queue size en;
      if is_null this then mret NULL else
      exec_ops this (OpPush <$> vs) ;;
      destroy_circle_queue this ;;
      mret this) s (fun r s' =>
    r = NULL /\ cells s' = cells s \/
    r <> NULL /\ forall a,
      cells s' !! a = if decide (u8 en <> 0 /\ a ∈ vs) then None else cells s !! a).
Proof.
  intros Hwf Hs Hlen Hnd Hv. wp_step. wp_apply cq_new_spec; [exact Hwf|exact Hs|].
  intros r s1 (_ & [[-> Hc]|(this & e & -> & Hq & Ht & He & Hfr)]); c_red.
  { wp_steps. by left. }
  pose proof (is_queue_ne _ _ _ _ _ _ Hq) as Hne.
  wp_step. eapply wp_mono; [apply cq_push_all_spec; [exact Hq|done]|].
  intros _ s2 [Hq2 Hfr2]. cbn [app] in Hq2. wp_step. wp_apply cq_destroy_spec; [exact Hq2| |].
  { intros _. split; [done|]. intros v Hin. pose proof (Hv v Hin) as Hsv.
    assert (v <> this) by congruence. assert (v <> e) by congruence.
    rewrite (Hfr2 v), (Hfr v) by done. done. }
  intros r s3 (-> & Ht3 & He3 & Hfr3). wp_steps. right. split; [done|]. intros a.
  destruct (decide (a = this)) as [->|Ha]; [rewrite Ht3, Ht; by destruct (decide (u8 en <> 0 /\ _ ∈ vs))|].
  destruct (decide (a = e)) as [->|Hae]; [rewrite He3, He; by destruct (decide (u8 en <> 0 /\ _ ∈ vs))|].
  rewrite (Hfr3 a Ha Hae), (Hfr2 a Ha Hae), (Hfr a Ha Hae). apply decide_ext.
  destruct (decide (u8 en <> 0)); [tauto|]. rewrite elem_of_nil. tauto.
Qed.

Definition values : mem := Heap {[3%positive := OVal; 4%positive := OVal]} 5 [] tt.

Lemma circle_queue_lifecycle_witness :
  wp (this ← new_circle_queue 2 1;
      if is_null this then mret NULL else
      exec_ops this (OpPush <$> [3; 4]%positive) ;;
      destroy_circle_queue this ;;
      mret this) values (fun r s' =>
    r = NULL /\ cells s' = cells values \/
    r <> NULL /\ forall a,
      cells s' !! a = if decide (u8 1 <> 0 /\ a ∈ [3; 4]%positive) then None
                      else cells values !! a).
Proof.
  apply (circle_queue_lifecycle values 2 1 [3; 4]%positive).
  - intros a Ha. simpl in *. by rewrite lookup_insert_ne, lookup_singleton_ne by lia.
  - lia.
  - simpl. lia.
  - by apply (bool_decide_unpack _).
  - intros v [->|[->|[]%elem_of_nil]%elem_of_cons]%elem_of_cons; reflexivity.
Defined.

End CircleQueue.
