(* ===== verification/Path.v ===== *)
(** Linked paths: the shape shared by every linked list of the program.

    [path f l e]: following the link function [f] from the first node of [l]
    visits [l] in order and ends at [e]. A doubly linked list is a path along its
    next links and a path of the reversed nodes along its previous links. *)
From stdpp Require Import gmap.
From S2P Require Import Prelude Heap.

Definition hd_or (l : list positive) (e : ptr) : ptr :=
  match l with [] => e | x :: _ => Some x end.

Fixpoint path (f : positive -> option ptr) (l : list positive) (e : ptr) : Prop :=
  match l with
  | [] => True
  | x :: l' => f x = Some (hd_or l' e) /\ path f l' e
  end.

Section path.
Implicit Types (f g : positive -> option ptr) (l : list positive) (e : ptr).

Lemma path_app f l1 l2 e :
  path f (l1 ++ l2) e <-> path f l1 (hd_or l2 e) /\ path f l2 e.
Proof.
  induction l1 as [|x l1 IH]; simpl; [tauto|]. rewrite IH.
  destruct l1; simpl; tauto.
Qed.

Lemma path_ext f g l e :
  (forall x, x ∈ l -> g x = f x) -> path f l e -> path g l e.
Proof.
  induction l as [|x l IH]; simpl; [done|]. intros Hg [Hx Hl].
  split; [rewrite Hg by (by left); done|]. apply IH; [|done]. intros y Hy. apply Hg. by right.
Qed.

Lemma path_lookup f l1 x l2 e : path f (l1 ++ x :: l2) e -> f x = Some (hd_or l2 e).
Proof. intros [_ [H _]]%path_app. done. Qed.

Lemma path_is_Some f l e x : path f l e -> x ∈ l -> is_Some (f x).
Proof.
  intros Hp (l1 & l2 & ->)%list_elem_of_split. rewrite (path_lookup _ _ _ _ _ Hp). by eexists.
Qed.

(** [n] spliced in after [c]. *)
Lemma path_insert f g l1 c n l2 e :
  path f (l1 ++ c :: l2) e -> NoDup (l1 ++ c :: l2) -> n ∉ l1 ++ c :: l2 ->
  (forall b, g b = if decide (b = c) then Some (Some n)
                   else if decide (b = n) then f c else f b) ->
  path g (l1 ++ c :: n :: l2) e.
Proof.
  intros [H1 [Hc H2]]%path_app (Hnd1 & Hdis & Hnd2)%NoDup_app Hn Hg.
  apply NoDup_cons in Hnd2 as [Hc2 _]. rewrite elem_of_app, elem_of_cons in Hn.
  assert (c <> n) by (intros ->; tauto).
  apply path_app. simpl. split_and!.
  - apply (path_ext f); [|exact H1]. intros x Hx.
    assert (x <> n) by (intros ->; tauto).
    assert (x <> c) by (intros ->; apply (Hdis c Hx); by left).
    by rewrite Hg, !decide_False.
  - by rewrite Hg, decide_True.
  - by rewrite Hg, decide_False, decide_True.
  - apply (path_ext f); [|exact H2]. intros x Hx.
    assert (x <> n) by (intros ->; tauto). assert (x <> c) by (intros ->; done).
    by rewrite Hg, !decide_False.
Qed.

(** [n] spliced out from behind [c]. *)
Lemma path_remove f g l1 c n l2 e :
  path f (l1 ++ c :: n :: l2) e -> NoDup (l1 ++ c :: n :: l2) ->
  (forall b, b <> n -> g b = if decide (b = c) then f n else f b) ->
  path g (l1 ++ c :: l2) e.
Proof.
  intros [H1 (Hc & Hn & H2)]%path_app (Hnd1 & Hdis & Hnd2)%NoDup_app Hg.
  apply NoDup_cons in Hnd2 as [Hc2 Hnd2]. apply NoDup_cons in Hnd2 as [Hn2 _].
  rewrite elem_of_cons in Hc2.
  apply path_app. simpl. split_and!.
  - apply (path_ext f); [|exact H1]. intros x Hx.
    assert (x <> c) by (intros ->; apply (Hdis c Hx); by left).
    assert (x <> n) by (intros ->; apply (Hdis n Hx); right; by left).
    by rewrite Hg, decide_False.
  - assert (c <> n) by (intros ->; tauto). by rewrite Hg, decide_True.
  - apply (path_ext f); [|exact H2]. intros x Hx.
    assert (x <> c) by (intros ->; tauto). assert (x <> n) by (intros ->; tauto).
    by rewrite Hg, decide_False.
Qed.

(** The nodes after [c] seen from the other direction: in a ring with sentinel
    [h], what follows [c] forwards is what precedes it backwards. *)
Lemma ring_reverse h xs l1 c l2 :
  h :: xs = l1 ++ c :: l2 ->
  exists m1 nxt m2, hd_or l2 (Some h) = Some nxt /\ hd_or m2 (Some h) = Some c /\
    h :: reverse xs = m1 ++ nxt :: m2 /\
    forall n, h :: reverse (tail (l1 ++ c :: n :: l2)) = m1 ++ nxt :: n :: m2.
Proof.
  intros Heq. destruct l2 as [|y l2]; simpl.
  - exists [], h, (reverse xs). simpl.
    destruct l1 as [|x l1]; simpl in *; injection Heq as <- ->.
    + done.
    + rewrite !reverse_app. simpl. split_and!; [done|done|done|]. intros n.
      rewrite reverse_app. by rewrite reverse_cons, reverse_singleton.
  - destruct l1 as [|x l1]; simpl in *; injection Heq as <- ->.
    + exists (h :: reverse l2), y, []. rewrite reverse_cons. split_and!; [done..|].
      intros n. rewrite !reverse_cons, <- app_assoc. done.
    + exists (h :: reverse l2), y, (c :: reverse l1).
      rewrite reverse_app, !reverse_cons, <- !app_assoc. split_and!; [done..|].
      intros n. rewrite reverse_app, !reverse_cons, <- !app_assoc. done.
Qed.
End path.
