(* ===== verification/LinkList.v ===== *)
(** The circular doubly linked list of
    src/hylink/src/local_scene/scene_link_list.c, the container every module of
    the scene engine is built on: operations, representation, specifications. *)
From stdpp Require Import gmap.
From S2P Require Import Prelude Heap Path.

(** [link_list_piece_t]: the links every list node starts with, then the data
    of the node type that embeds it. *)
Record piece (V : Type) : Type := Piece { pPrev : ptr; pNext : ptr; pVal : V }.
Arguments Piece {V} pPrev pNext pVal.
Arguments pPrev {V} p.
Arguments pNext {V} p.
Arguments pVal {V} p.

(** [link_list_class_t]; the method pointers are the functions of [Section ops],
    which the constructor installs. *)
Record list_class : Type := ListClass {
  pHead : ptr; pTail : ptr; iNodeNum : Z; iNodeDataSize : Z
}.

(** The objects [T] of a heap that holds lists with node data [V]; [vzero n] is
    the data of a node of [n] zeroed bytes. *)
Class ListHeap (T V : Type) : Type := {
  of_piece : piece V -> T;
  to_piece : T -> option (piece V);
  of_class : list_class -> T;
  to_class : T -> option list_class;
  vzero : Z -> V;
  to_of_piece p : to_piece (of_piece p) = Some p;
  to_of_class c : to_class (of_class c) = Some c;
  to_piece_class c : to_piece (of_class c) = None;
  to_class_piece p : to_class (of_piece p) = None;
  to_piece_Some t p : to_piece t = Some p -> t = of_piece p;
  to_class_Some t c : to_class t = Some c -> t = of_class c
}.

Section ops.
Context {T V G : Type} `{ListHeap T V}.
Abbreviation mem := (heap T G).
Abbreviation L A := (M mem A).

Definition piece_at (p : ptr) : L (piece V) := load to_piece p.
Definition class_at (p : ptr) : L list_class := load to_class p.

(** [p->pNext = q], [p->pPrev = q] *)
Definition set_pNext (p q : ptr) : L unit :=
  n ← piece_at p; store p (of_piece (Piece (pPrev n) q (pVal n))).
Definition set_pPrev (p q : ptr) : L unit :=
  n ← piece_at p; store p (of_piece (Piece q (pNext n) (pVal n))).
(** A write of a node's data. *)
Definition set_pVal (p : ptr) (v : V) : L unit :=
  n ← piece_at p; store p (of_piece (Piece (pPrev n) (pNext n) v)).

(** [INSERT_NODE(curNode, insNode)] *)
Definition INSERT_NODE (curNode insNode : ptr) : L unit :=
  c ← piece_at curNode;
  set_pNext insNode (pNext c) ;;
  set_pPrev insNode curNode ;;
  c ← piece_at curNode;
  set_pPrev (pNext c) insNode ;;
  set_pNext curNode insNode.

(** [REMOVE_NODE(rmNode)] *)
Definition REMOVE_NODE (rmNode : ptr) : L unit :=
  r ← piece_at rmNode;
  set_pNext (pPrev r) (pNext r) ;;
  r ← piece_at rmNode;
  set_pPrev (pNext r) (pPrev r).

(** The locks: every one of them returns before its body. *)
Definition link_list_read_lock (this : ptr) : L Z := mret NoErr.
Definition link_list_read_lock_non_blocking (this : ptr) : L Z := mret NoErr.
Definition link_list_read_unlock (this : ptr) : L Z := mret NoErr.
Definition link_list_write_lock (this : ptr) : L Z := mret NoErr.
Definition link_list_write_lock_non_blocking (this : ptr) : L Z := mret NoErr.
Definition link_list_write_unlock (this : ptr) : L Z := mret NoErr.

Definition link_list_size (this : ptr) : L Z :=
  if is_null this then mret ParaErr else
  link_list_read_lock this ;;
  c ← class_at this;
  link_list_read_unlock this ;;
  mret (iNodeNum c).

Definition link_list_get_head (this : ptr) : L ptr :=
  if is_null this then mret NULL else
  c ← class_at this; mret (pHead c).

Definition link_list_get_first (this : ptr) : L ptr :=
  if is_null this then mret NULL else
  n ← link_list_size this;
  if truth n then
    c ← class_at this; h ← piece_at (pHead c); mret (pNext h)
  else mret NULL.

Definition link_list_get_tail (this : ptr) : L ptr :=
  if is_null this then mret NULL else
  c ← class_at this; mret (pTail c).

Definition link_list_get_next (this pstCurrent : ptr) : L ptr :=
  if is_null this then mret NULL else
  if is_null pstCurrent then link_list_get_first this
  else p ← piece_at pstCurrent; mret (pNext p).

Definition link_list_get_prev (this pstCurrent : ptr) : L ptr :=
  if is_null this then mret NULL else
  if is_null pstCurrent then link_list_get_tail this
  else p ← piece_at pstCurrent; mret (pPrev p).

Definition link_list_new_node (this : ptr) : L ptr :=
  if is_null this then mret NULL else
  c ← class_at this;
  pstPtr ← alloc (of_piece (Piece NULL NULL (vzero (iNodeDataSize c))));
  if is_null pstPtr then mret NULL else mret pstPtr.

Definition link_list_destroy_node (this pstCurrent : ptr) : L Z :=
  if is_null this || is_null pstCurrent then mret ParaErr else
  free pstCurrent ;; mret NoErr.

Definition link_list_inst (this pstCurrent pstInstValue : ptr) : L Z :=
  if is_null this || is_null pstCurrent || is_null pstInstValue then mret ParaErr else
  link_list_write_lock this ;;
  INSERT_NODE pstCurrent pstInstValue ;;
  c ← class_at this;
  (if decide (pTail c = pstCurrent)
   then store this (of_class (ListClass (pHead c) pstInstValue (iNodeNum c) (iNodeDataSize c)))
   else mret tt) ;;
  c ← class_at this;
  store this (of_class (ListClass (pHead c) (pTail c) (iNodeNum c + 1) (iNodeDataSize c))) ;;
  link_list_write_unlock this ;;
  mret NoErr.

Definition link_list_inst_head (this pstInstValue : ptr) : L Z :=
  if is_null this || is_null pstInstValue then mret ParaErr else
  h ← link_list_get_head this; link_list_inst this h pstInstValue.

Definition link_list_inst_tail (this pstInstValue : ptr) : L Z :=
  if is_null this || is_null pstInstValue then mret ParaErr else
  t ← link_list_get_tail this; link_list_inst this t pstInstValue.

Definition link_list_get_by_id (this : ptr) (iId : Z) : L ptr :=
  if is_null this then mret NULL else
  if iId <? 0 then mret NULL else
  n ← link_list_size this;
  if n <? iId then mret NULL else
  pstPtr ← link_list_get_next this NULL;
  if is_null pstPtr then mret NULL else
  pstHead ← link_list_get_head this;
  if is_null pstHead then mret NULL else
  k ← fuel;
  loop k (fun '(pstPtr, iCount) =>
    if decide (pstHead <> pstPtr) then
      if iId =? iCount then mret (inr pstPtr)
      else pstPtr ← link_list_get_next this pstPtr; mret (inl (pstPtr, iCount + 1))
    else mret (inr NULL)) (pstPtr, 0).

Definition link_list_inst_by_id (this : ptr) (iId : Z) (pstInstValue : ptr) : L Z :=
  if is_null this || is_null pstInstValue then mret ParaErr else
  if iId <? 0 then mret ParaErr else
  p ← link_list_get_by_id this iId; link_list_inst this p pstInstValue.

Definition link_list_del_result (this pstCurrent : ptr) : L ptr :=
  if is_null this || is_null pstCurrent then mret NULL else
  h ← link_list_get_head this;
  if decide (pstCurrent = h) then mret NULL else
  link_list_write_lock this ;;
  REMOVE_NODE pstCurrent ;;
  c ← class_at this;
  (if decide (pstCurrent = pTail c)
   then p ← piece_at pstCurrent;
        store this (of_class (ListClass (pHead c) (pPrev p) (iNodeNum c) (iNodeDataSize c)))
   else mret tt) ;;
  c ← class_at this;
  store this (of_class (ListClass (pHead c) (pTail c) (iNodeNum c - 1) (iNodeDataSize c))) ;;
  link_list_write_unlock this ;;
  mret pstCurrent.

Definition link_list_del_head_result (this : ptr) : L ptr :=
  if is_null this then mret NULL else
  p ← link_list_get_first this; link_list_del_result this p.

Definition link_list_del_head (this : ptr) : L Z :=
  if is_null this then mret ParaErr else
  p ← link_list_del_head_result this; link_list_destroy_node this p.

Definition link_list_del_tail_result (this : ptr) : L ptr :=
  if is_null this then mret NULL else
  p ← link_list_get_tail this; link_list_del_result this p.

Definition link_list_del_tail (this : ptr) : L Z :=
  if is_null this then mret ParaErr else
  p ← link_list_del_tail_result this; link_list_destroy_node this p.

Definition link_list_del (this pstCurrent : ptr) : L Z :=
  if is_null this || is_null pstCurrent then mret ParaErr else
  p ← link_list_del_result this pstCurrent; link_list_destroy_node this p.

Definition link_list_clear (this : ptr) : L Z :=
  if is_null this then mret ParaErr else
  k ← fuel;
  loop k (fun _ : unit =>
    r ← link_list_del_head this;
    if NoErr =? r then mret (inl tt) else mret (inr tt)) tt ;;
  mret NoErr.

Definition link_list_set (this pstCurrent pstSetValue : ptr) : L Z :=
  if is_null this || is_null pstCurrent || is_null pstSetValue then mret ParaErr else
  pstPrev ← link_list_get_prev this pstCurrent;
  link_list_del this pstCurrent ;;
  link_list_inst this pstPrev pstSetValue ;;
  mret NoErr.

Definition link_list_set_by_id (this : ptr) (iId : Z) (pstSetValue : ptr) : L Z :=
  if is_null this || is_null pstSetValue then mret ParaErr else
  if iId <? 0 then mret ParaErr else
  p ← link_list_get_by_id this iId; link_list_set this p pstSetValue.

(** [pCompareHandle], [pTraverseHandle], [pPrintHandle]: the clients'
    callbacks. *)
Definition link_list_get (this : ptr) (pCompareHandle : option (ptr -> ptr -> L Z))
    (pstCmpParam : ptr) : L ptr :=
  match pCompareHandle with
  | None => mret NULL
  | Some cmp =>
      if is_null this || is_null pstCmpParam then mret NULL else
      pstPtr ← link_list_get_next this NULL;
      if is_null pstPtr then mret NULL else
      pstHead ← link_list_get_head this;
      if is_null pstHead then mret NULL else
      k ← fuel;
      loop k (fun pstPtr : ptr =>
        if negb (is_null pstPtr) && bool_decide (pstHead <> pstPtr) then
          r ← cmp pstPtr pstCmpParam;
          if truth r then pstPtr ← link_list_get_next this pstPtr; mret (inl pstPtr)
          else mret (inr pstPtr)
        else mret (inr NULL)) pstPtr
  end.

Definition link_list_get_index (this pstCurrent : ptr) : L Z :=
  if is_null this || is_null pstCurrent then mret ParaErr else
  pstPtr ← link_list_get_next this NULL;
  if is_null pstPtr then mret SceneGetErr else
  pstHead ← link_list_get_head this;
  if is_null pstHead then mret SceneGetErr else
  k ← fuel;
  loop k (fun '(pstPtr, iCount) =>
    if decide (pstHead <> pstPtr) then
      if decide (pstCurrent = pstPtr) then mret (inr iCount)
      else pstPtr ← link_list_get_next this pstPtr; mret (inl (pstPtr, iCount + 1))
    else mret (inr NotFoundErr)) (pstPtr, 0).

Definition link_list_traverse (this : ptr) (pTraverseHandle : option (ptr -> ptr -> L Z))
    (pstTraverseParam : ptr) : L Z :=
  match pTraverseHandle with
  | None => mret ParaErr
  | Some trav =>
      if is_null this then mret ParaErr else
      pstPtr ← link_list_get_next this NULL;
      if is_null pstPtr then mret SceneGetErr else
      pstHead ← link_list_get_head this;
      if is_null pstHead then mret SceneGetErr else
      k ← fuel;
      loop k (fun '(pstPtr, iRet) =>
        if decide (pstHead <> pstPtr) then
          iRet ← trav pstPtr pstTraverseParam;
          pstPtr ← link_list_get_next this pstPtr; mret (inl (pstPtr, iRet))
        else mret (inr iRet)) (pstPtr, 0)
  end.

Definition link_list_print (this : ptr) (pPrintHandle : ptr -> L Z) : L Z :=
  if is_null this then mret ParaErr else
  pstPtr ← link_list_get_next this NULL;
  if is_null pstPtr then mret SceneGetErr else
  pstHead ← link_list_get_head this;
  if is_null pstHead then mret SceneGetErr else
  k ← fuel;
  loop k (fun pstPtr : ptr =>
    if decide (pstHead <> pstPtr) then
      pPrintHandle pstPtr ;;
      pstPtr ← link_list_get_next this pstPtr; mret (inl pstPtr)
    else mret (inr NoErr)) pstPtr.

Definition new_link_list (size : Z) : L ptr :=
  if size <? 0 then mret NULL else
  pstLinkList ← alloc (of_class (ListClass NULL NULL 0 0));
  if is_null pstLinkList then mret NULL else
  pstPtr ← alloc (of_piece (Piece NULL NULL (vzero size)));
  if is_null pstPtr then free pstLinkList ;; mret NULL else
  set_pPrev pstPtr pstPtr ;;
  set_pNext pstPtr pstPtr ;;
  store pstLinkList (of_class (ListClass pstPtr pstPtr 0 size)) ;;
  mret pstLinkList.

Definition destroy_link_list (this : ptr) : L Z :=
  if is_null this then mret ParaErr else
  n ← link_list_size this;
  (if truth n then link_list_clear this else mret 0) ;;
  c ← class_at this;
  free (pHead c) ;;
  store this (of_class (ListClass NULL NULL (iNodeNum c) (iNodeDataSize c))) ;;
  free this ;;
  mret 0.
End ops.

(** * Representation *)

Section rep.
Context {T V G : Type} `{ListHeap T V}.
Implicit Types (s : heap T G).

Definition node_of s (a : positive) : option (piece V) := cells s !! a ≫= to_piece.
Definition nx s a : option ptr := pNext <$> node_of s a.
Definition pv s a : option ptr := pPrev <$> node_of s a.
Definition data s a : option V := pVal <$> node_of s a.
Definition class_of s (a : positive) : option list_class := cells s !! a ≫= to_class.

(** The list object [this] has the sentinel [h] and the nodes [xs], in order. *)
Record list_rep s (this h : positive) (xs : list positive) : Prop := {
  lr_class : exists size, class_of s this =
    Some (ListClass (Some h) (last (h :: xs)) (Z.of_nat (length xs)) size);
  lr_next : path (nx s) (h :: xs) (Some h);
  lr_prev : path (pv s) (h :: reverse xs) (Some h);
  lr_nodup : NoDup (h :: xs)
}.

(** Two states that agree outside the list: the other cells and the data of
    every node, the globals and the allocator. *)
Record agree s s' (D : positive -> Prop) : Prop := {
  ag_cells : forall a, ~ D a -> cells s' !! a = cells s !! a;
  ag_data : forall a, data s' a = data s a;
  ag_class : forall a, ~ D a -> class_of s' a = class_of s a;
  ag_glob : glob s' = glob s;
  ag_brk : brk s' = brk s;
  ag_oom : oom s' = oom s;
  ag_wf : heap_wf s -> heap_wf s';
  ag_dead : forall a, cells s !! a = None -> cells s' !! a = None
}.

Lemma agree_refl s D : agree s s D.
Proof. by constructor. Qed.

Lemma agree_trans s1 s2 s3 D1 D2 D :
  agree s1 s2 D1 -> agree s2 s3 D2 -> (forall a, D1 a \/ D2 a -> D a) -> agree s1 s3 D.
Proof.
  intros A B HD. constructor.
  - intros a Ha. rewrite (ag_cells _ _ _ B), (ag_cells _ _ _ A); [done|auto..].
  - intros a. by rewrite (ag_data _ _ _ B), (ag_data _ _ _ A).
  - intros a Ha. rewrite (ag_class _ _ _ B), (ag_class _ _ _ A); [done|auto..].
  - by rewrite (ag_glob _ _ _ B), (ag_glob _ _ _ A).
  - by rewrite (ag_brk _ _ _ B), (ag_brk _ _ _ A).
  - by rewrite (ag_oom _ _ _ B), (ag_oom _ _ _ A).
  - intros Hwf. by apply (ag_wf _ _ _ B), (ag_wf _ _ _ A).
  - intros a Ha. by apply (ag_dead _ _ _ B), (ag_dead _ _ _ A).
Qed.

Lemma agree_weaken s1 s2 (D1 D2 : positive -> Prop) :
  agree s1 s2 D1 -> (forall a, D1 a -> D2 a) -> agree s1 s2 D2.
Proof. intros [] HD. constructor; auto. Qed.

(** The effect of operations that also free the objects [F]. *)
Record effect s s' (D F : positive -> Prop) : Prop := {
  ef_cells : forall a, ~ D a -> ~ F a -> cells s' !! a = cells s !! a;
  ef_data : forall a, ~ F a -> data s' a = data s a;
  ef_class : forall a, ~ D a -> ~ F a -> class_of s' a = class_of s a;
  ef_freed : forall a, F a -> cells s' !! a = None;
  ef_glob : glob s' = glob s;
  ef_brk : brk s' = brk s;
  ef_oom : oom s' = oom s;
  ef_wf : heap_wf s -> heap_wf s';
  ef_dead : forall a, cells s !! a = None -> cells s' !! a = None
}.

Lemma agree_effect s s' D : agree s s' D -> effect s s' D (fun _ => False).
Proof. intros []. constructor; auto. done. Qed.

Lemma effect_refl s D : effect s s D (fun _ => False).
Proof. by constructor. Qed.

Lemma effect_trans s1 s2 s3 (D1 D2 F1 F2 D F : positive -> Prop) :
  effect s1 s2 D1 F1 -> effect s2 s3 D2 F2 ->
  (forall a, D1 a \/ D2 a -> D a \/ F a) -> (forall a, F a <-> F1 a \/ F2 a) ->
  effect s1 s3 D F.
Proof.
  intros A B HD HF. constructor.
  - intros a Ha Hf. rewrite HF in Hf. pose proof (HD a). pose proof (HF a).
    rewrite (ef_cells _ _ _ _ B), (ef_cells _ _ _ _ A); tauto.
  - intros a Hf. rewrite HF in Hf. rewrite (ef_data _ _ _ _ B), (ef_data _ _ _ _ A); tauto.
  - intros a Ha Hf. pose proof (HD a). pose proof (HF a).
    rewrite (ef_class _ _ _ _ B), (ef_class _ _ _ _ A); tauto.
  - intros a [Hf|Hf]%HF; [apply (ef_dead _ _ _ _ B)|]; by eapply ef_freed.
  - by rewrite (ef_glob _ _ _ _ B), (ef_glob _ _ _ _ A).
  - by rewrite (ef_brk _ _ _ _ B), (ef_brk _ _ _ _ A).
  - by rewrite (ef_oom _ _ _ _ B), (ef_oom _ _ _ _ A).
  - intros Hwf. by apply (ef_wf _ _ _ _ B), (ef_wf _ _ _ _ A).
  - intros a Ha. by apply (ef_dead _ _ _ _ B), (ef_dead _ _ _ _ A).
Qed.

Lemma effect_del s a : effect s (del a s) (fun _ => False) (fun b => b = a).
Proof.
  constructor; try done.
  - intros b _ Hb. simpl. by rewrite lookup_delete_ne.
  - intros b Hb. unfold data, node_of. simpl. by rewrite lookup_delete_ne.
  - intros b _ Hb. unfold class_of. simpl. by rewrite lookup_delete_ne.
  - intros b ->. apply lookup_delete_eq.
  - apply heap_wf_del.
  - intros b Hb. simpl. apply lookup_delete_None. by right.
Qed.

Lemma node_of_Some s a p : node_of s a = Some p ->
  exists t, cells s !! a = Some t /\ to_piece t = Some p.
Proof. unfold node_of. destruct (cells s !! a); naive_solver. Qed.

Lemma class_of_Some s a c : class_of s a = Some c ->
  exists t, cells s !! a = Some t /\ to_class t = Some c.
Proof. unfold class_of. destruct (cells s !! a); naive_solver. Qed.

Lemma nx_node s a p : nx s a = Some p -> exists n, node_of s a = Some n /\ pNext n = p.
Proof. unfold nx. destruct (node_of s a); naive_solver. Qed.
Lemma pv_node s a p : pv s a = Some p -> exists n, node_of s a = Some n /\ pPrev n = p.
Proof. unfold pv. destruct (node_of s a); naive_solver. Qed.

Lemma wp_piece_at s a n (Q : piece V -> heap T G -> Prop) :
  node_of s a = Some n -> Q n s -> wp (piece_at (Some a)) s Q.
Proof. intros (t & Ht & Hp)%node_of_Some HQ. by eapply wp_load. Qed.

Lemma wp_class_at s a c (Q : list_class -> heap T G -> Prop) :
  class_of s a = Some c -> Q c s -> wp (class_at (Some a)) s Q.
Proof. intros (t & Ht & Hp)%class_of_Some HQ. by eapply wp_load. Qed.

Lemma node_of_upd s a n b :
  node_of (upd a (of_piece n) s) b = if decide (b = a) then Some n else node_of s b.
Proof.
  unfold node_of; simpl. case_decide; subst.
  - rewrite lookup_insert_eq. apply to_of_piece.
  - by rewrite lookup_insert_ne.
Qed.

Lemma class_of_upd_piece s a n b :
  is_Some (node_of s a) -> class_of (upd a (of_piece n) s) b = class_of s b.
Proof.
  intros [m (t & Ht & Hp)%node_of_Some]. unfold class_of; simpl.
  destruct (decide (b = a)) as [->|].
  - rewrite lookup_insert_eq, Ht. simpl. apply to_piece_Some in Hp as ->.
    by rewrite !to_class_piece.
  - by rewrite lookup_insert_ne.
Qed.

Lemma node_of_upd_class s a c b :
  is_Some (class_of s a) -> node_of (upd a (of_class c) s) b = node_of s b.
Proof.
  intros [m (t & Ht & Hp)%class_of_Some]. unfold node_of; simpl.
  destruct (decide (b = a)) as [->|].
  - rewrite lookup_insert_eq, Ht. simpl. apply to_class_Some in Hp as ->.
    by rewrite !to_piece_class.
  - by rewrite lookup_insert_ne.
Qed.

Lemma class_of_upd s a c b :
  class_of (upd a (of_class c) s) b = if decide (b = a) then Some c else class_of s b.
Proof.
  unfold class_of; simpl. case_decide; subst.
  - rewrite lookup_insert_eq. apply to_of_class.
  - by rewrite lookup_insert_ne.
Qed.

(** One link write. *)
Lemma agree_upd_piece s a n m :
  node_of s a = Some m -> pVal n = pVal m -> agree s (upd a (of_piece n) s) (fun b => b = a).
Proof.
  intros Hm Hv. constructor; try done.
  - intros b Hb. simpl. by rewrite lookup_insert_ne.
  - intros b. unfold data. rewrite node_of_upd. case_decide; subst; [by rewrite Hm; simpl; rewrite Hv|done].
  - intros b _. apply class_of_upd_piece. by eexists.
  - intros Hwf. apply node_of_Some in Hm as (t & Ht & _). apply heap_wf_upd; [done|by eexists].
  - intros b Hb. simpl. apply node_of_Some in Hm as (t & Ht & _).
    rewrite lookup_insert_ne; [done|congruence].
Qed.

Lemma agree_upd_class s a c :
  is_Some (class_of s a) -> agree s (upd a (of_class c) s) (fun b => b = a).
Proof.
  intros Hc. constructor; try done.
  - intros b Hb. simpl. by rewrite lookup_insert_ne.
  - intros b. unfold data. by rewrite node_of_upd_class.
  - intros b Hb. rewrite class_of_upd. by case_decide.
  - intros Hwf. destruct Hc as [m (t & Ht & _)%class_of_Some]. apply heap_wf_upd; [done|by eexists].
  - intros b Hb. simpl. destruct Hc as [m (t & Ht & _)%class_of_Some].
    rewrite lookup_insert_ne; [done|congruence].
Qed.

Lemma wp_set_pNext s a q m (Q : unit -> heap T G -> Prop) :
  node_of s a = Some m ->
  (forall s', agree s s' (fun b => b = a) ->
     (forall b, class_of s' b = class_of s b) ->
     (forall b, nx s' b = if decide (b = a) then Some q else nx s b) ->
     (forall b, pv s' b = pv s b) -> Q tt s') ->
  wp (set_pNext (Some a) q) s Q.
Proof.
  intros Hm HQ. unfold set_pNext. wp_step. eapply wp_piece_at; [exact Hm|].
  assert (Hm' := Hm). apply node_of_Some in Hm' as (t & Ht & _). eapply wp_store; [exact Ht|].
  apply HQ.
  - by eapply agree_upd_piece.
  - intros b. apply class_of_upd_piece. by eexists.
  - intros b. unfold nx. rewrite node_of_upd. by case_decide.
  - intros b. unfold pv. rewrite node_of_upd. case_decide; subst; [by rewrite Hm|done].
Qed.

Lemma wp_set_pPrev s a q m (Q : unit -> heap T G -> Prop) :
  node_of s a = Some m ->
  (forall s', agree s s' (fun b => b = a) ->
     (forall b, class_of s' b = class_of s b) ->
     (forall b, nx s' b = nx s b) ->
     (forall b, pv s' b = if decide (b = a) then Some q else pv s b) -> Q tt s') ->
  wp (set_pPrev (Some a) q) s Q.
Proof.
  intros Hm HQ. unfold set_pPrev. wp_step. eapply wp_piece_at; [exact Hm|].
  assert (Hm' := Hm). apply node_of_Some in Hm' as (t & Ht & _). eapply wp_store; [exact Ht|].
  apply HQ.
  - by eapply agree_upd_piece.
  - intros b. apply class_of_upd_piece. by eexists.
  - intros b. unfold nx. rewrite node_of_upd. case_decide; subst; [by rewrite Hm|done].
  - intros b. unfold pv. rewrite node_of_upd. by case_decide.
Qed.

Lemma node_nx s a q : nx s a = Some q -> is_Some (node_of s a).
Proof. unfold nx. destruct (node_of s a); [by eexists|done]. Qed.
Lemma node_pv s a q : pv s a = Some q -> is_Some (node_of s a).
Proof. unfold pv. destruct (node_of s a); [by eexists|done]. Qed.

Lemma wp_INSERT_NODE s c n y (Q : unit -> heap T G -> Prop) :
  nx s c = Some (Some y) -> is_Some (node_of s n) -> is_Some (node_of s y) ->
  c <> n -> y <> n ->
  (forall s', agree s s' (fun b => b = c \/ b = n \/ b = y) ->
     (forall b, class_of s' b = class_of s b) ->
     (forall b, nx s' b = if decide (b = c) then Some (Some n)
                          else if decide (b = n) then nx s c else nx s b) ->
     (forall b, pv s' b = if decide (b = y) then Some (Some n)
                          else if decide (b = n) then Some (Some c) else pv s b) ->
     Q tt s') ->
  wp (INSERT_NODE (Some c) (Some n)) s Q.
Proof.
  intros Hc [mn Hn] [my Hy] Hcn Hyn HQ. apply nx_node in Hc as (mc & Hc & Hnx).
  assert (Hnxc : nx s c = Some (Some y)) by (unfold nx; by rewrite Hc, <- Hnx).
  unfold INSERT_NODE. wp_step. eapply wp_piece_at; [exact Hc|]. rewrite Hnx.
  wp_step. eapply wp_set_pNext; [exact Hn|]. intros s1 A1 C1 N1 P1.
  assert (is_Some (node_of s1 n)) as [mn1 Hn1].
  { apply (node_nx _ _ (Some y)). by rewrite N1, decide_True. }
  wp_step. eapply wp_set_pPrev; [exact Hn1|]. intros s2 A2 C2 N2 P2.
  assert (nx s2 c = Some (Some y)) as Hc2 by by rewrite N2, N1, decide_False.
  apply nx_node in Hc2 as (mc2 & Hc2 & Hnx2).
  wp_step. eapply wp_piece_at; [exact Hc2|]. rewrite Hnx2.
  assert (is_Some (node_of s2 y)) as [my2 Hy2].
  { assert (nx s2 y = nx s y) as Hy2 by by rewrite N2, N1, decide_False.
    unfold nx in Hy2 at 2. rewrite Hy in Hy2. by eapply node_nx. }
  wp_step. eapply wp_set_pPrev; [exact Hy2|]. intros s3 A3 C3 N3 P3.
  assert (is_Some (node_of s3 c)) as [mc3 Hc3].
  { apply (node_nx _ _ (Some y)). by rewrite N3, N2, N1, decide_False. }
  eapply wp_set_pNext; [exact Hc3|]. intros s4 A4 C4 N4 P4. apply HQ.
  - eapply agree_trans; [exact A1|eapply agree_trans; [exact A2|eapply agree_trans;
      [exact A3|exact A4|intros a Ha; exact Ha]|intros a Ha; exact Ha]|].
    simpl. intros a. tauto.
  - intros b. by rewrite C4, C3, C2, C1.
  - intros b. by rewrite N4, N3, N2, N1, Hnxc.
  - intros b. rewrite P4, P3, P2, P1. done.
Qed.

Lemma wp_REMOVE_NODE s x p y (Q : unit -> heap T G -> Prop) :
  nx s x = Some (Some y) -> pv s x = Some (Some p) ->
  is_Some (node_of s p) -> is_Some (node_of s y) -> p <> x -> y <> x ->
  (forall s', agree s s' (fun b => b = p \/ b = y) ->
     (forall b, class_of s' b = class_of s b) ->
     (forall b, nx s' b = if decide (b = p) then Some (Some y) else nx s b) ->
     (forall b, pv s' b = if decide (b = y) then Some (Some p) else pv s b) ->
     Q tt s') ->
  wp (REMOVE_NODE (Some x)) s Q.
Proof.
  intros Hx Hx' [mp Hp] [my Hy] Hpx Hyx HQ. assert (Hxn := Hx). assert (Hxp := Hx').
  apply nx_node in Hx as (mx & Hx & Hnx). apply pv_node in Hx' as (mx' & Hx' & Hpv).
  assert (mx' = mx) as -> by congruence.
  unfold REMOVE_NODE. wp_step. eapply wp_piece_at; [exact Hx|]. rewrite Hnx, Hpv.
  wp_step. eapply wp_set_pNext; [exact Hp|]. intros s1 A1 C1 N1 P1.
  assert (nx s1 x = Some (Some y)) as Hx1 by by rewrite N1, decide_False.
  assert (pv s1 x = Some (Some p)) as Hx1' by by rewrite P1.
  apply nx_node in Hx1 as (m1 & Hx1 & Hnx1). apply pv_node in Hx1' as (m1' & Hx1' & Hpv1).
  assert (m1' = m1) as -> by congruence.
  wp_step. eapply wp_piece_at; [exact Hx1|]. rewrite Hnx1, Hpv1.
  assert (is_Some (node_of s1 y)) as [my1 Hy1].
  { assert (pv s1 y = pv s y) as Hy1 by by rewrite P1.
    unfold pv in Hy1 at 2. rewrite Hy in Hy1. by eapply node_pv. }
  eapply wp_set_pPrev; [exact Hy1|]. intros s2 A2 C2 N2 P2. apply HQ.
  - eapply agree_trans; [exact A1|exact A2|]. simpl. tauto.
  - intros b. by rewrite C2, C1.
  - intros b. by rewrite N2, N1.
  - intros b. by rewrite P2, P1.
Qed.

Lemma wp_set_class s a c c0 (Q : unit -> heap T G -> Prop) :
  class_of s a = Some c0 ->
  (forall s', agree s s' (fun b => b = a) ->
     (forall b, class_of s' b = if decide (b = a) then Some c else class_of s b) ->
     (forall b, nx s' b = nx s b) -> (forall b, pv s' b = pv s b) -> Q tt s') ->
  wp (store (Some a) (of_class c)) s Q.
Proof.
  intros Hc HQ. assert (Hc' := Hc). apply class_of_Some in Hc' as (t & Ht & _).
  eapply wp_store; [exact Ht|]. apply HQ.
  - apply agree_upd_class. by eexists.
  - intros b. apply class_of_upd.
  - intros b. unfold nx. rewrite node_of_upd_class; [done|by eexists].
  - intros b. unfold pv. rewrite node_of_upd_class; [done|by eexists].
Qed.

Lemma path_eq (f g : positive -> option ptr) l e :
  (forall x, g x = f x) -> path f l e -> path g l e.
Proof. intros Hfg. by apply path_ext. Qed.

Lemma rep_nodes s this h xs x : list_rep s this h xs -> x ∈ h :: xs -> is_Some (node_of s x).
Proof.
  intros R Hx. destruct (path_is_Some _ _ _ _ (lr_next _ _ _ _ R) Hx) as [p Hp].
  by eapply node_nx.
Qed.

Lemma rep_class_ne s this h xs : list_rep s this h xs -> this ∉ h :: xs.
Proof.
  intros R Hin. destruct (rep_nodes _ _ _ _ _ R Hin) as [n (t & Ht & Hp)%node_of_Some].
  destruct (lr_class _ _ _ _ R) as [sz (t' & Ht' & Hp')%class_of_Some].
  assert (t' = t) as -> by congruence.
  apply to_piece_Some in Hp as ->. by rewrite to_class_piece in Hp'.
Qed.

(** The representation depends on the class object and on the list's nodes. *)
Lemma rep_ext s s' this h xs :
  list_rep s this h xs -> class_of s' this = class_of s this ->
  (forall x, x ∈ h :: xs -> nx s' x = nx s x /\ pv s' x = pv s x) -> list_rep s' this h xs.
Proof.
  intros [Hc Hn Hp Hd] Hc' Hx. constructor; [by rewrite Hc'| | |done].
  - apply (path_ext (nx s)); [|done]. intros x Hin. by apply Hx.
  - apply (path_ext (pv s)); [|done]. intros x [->|Hin]%elem_of_cons; [by apply Hx; left|].
    apply Hx. right. by rewrite <- elem_of_reverse.
Qed.

Lemma agree_nx s s' D a : agree s s' D -> ~ D a -> nx s' a = nx s a /\ pv s' a = pv s a.
Proof.
  intros A Ha. unfold nx, pv, node_of. by rewrite (ag_cells _ _ _ A).
Qed.

Lemma rep_agree s s' D this h xs :
  list_rep s this h xs -> agree s s' D -> ~ D this -> (forall x, x ∈ h :: xs -> ~ D x) ->
  list_rep s' this h xs.
Proof.
  intros R A Ht Hx. eapply rep_ext; [exact R|by apply A|].
  intros x Hin. eapply agree_nx; [exact A|by apply Hx].
Qed.

Lemma last_split {A} (l1 : list A) c l2 :
  NoDup (l1 ++ c :: l2) -> last (l1 ++ c :: l2) = Some c <-> l2 = [].
Proof.
  intros (_ & _ & [Hc _]%NoDup_cons)%NoDup_app. split; [|intros ->; apply last_snoc].
  destruct (decide (l2 = [])) as [->|Hl]; [done|]. intros Hlast.
  rewrite last_app_cons, last_cons in Hlast.
  destruct (last l2) as [z|] eqn:Hz.
  - apply last_Some in Hz as [l' ->]. injection Hlast as ->. rewrite elem_of_app, list_elem_of_singleton in Hc. tauto.
  - by apply last_None in Hz.
Qed.

(** ** Insertion and removal *)

Lemma splice_list (h : positive) xs l1 c l2 n :
  h :: xs = l1 ++ c :: l2 -> n ∉ h :: xs -> NoDup (h :: xs) ->
  h :: tail (l1 ++ c :: n :: l2) = l1 ++ c :: n :: l2 /\
  NoDup (h :: tail (l1 ++ c :: n :: l2)) /\
  length (tail (l1 ++ c :: n :: l2)) = Datatypes.S (length xs).
Proof.
  intros Heq Hn Hnd.
  assert (Htl : h :: tail (l1 ++ c :: n :: l2) = l1 ++ c :: n :: l2).
  { destruct l1; simpl in *; congruence. }
  split_and!; [done| |].
  - rewrite Htl. change (c :: n :: l2) with ([c] ++ n :: l2).
    rewrite app_assoc, <- Permutation_middle.
    apply NoDup_cons. rewrite <- app_assoc. simpl. by rewrite <- Heq.
  - apply (f_equal length) in Heq, Htl. rewrite !length_app in *. simpl in *. lia.
Qed.

(** The neighbours of a position of the ring, and the ring after a splice. *)
Lemma rep_splice s this h xs l1 c l2 n :
  list_rep s this h xs -> h :: xs = l1 ++ c :: l2 -> n ∉ h :: xs ->
  exists y, nx s c = Some (Some y) /\ pv s y = Some (Some c) /\ y ∈ h :: xs /\
    forall s',
      (forall b, nx s' b = if decide (b = c) then Some (Some n)
                           else if decide (b = n) then nx s c else nx s b) ->
      (forall b, pv s' b = if decide (b = y) then Some (Some n)
                           else if decide (b = n) then Some (Some c) else pv s b) ->
      path (nx s') (h :: tail (l1 ++ c :: n :: l2)) (Some h) /\
      path (pv s') (h :: reverse (tail (l1 ++ c :: n :: l2))) (Some h).
Proof.
  intros R Heq Hn.
  destruct (ring_reverse _ _ _ _ _ Heq) as (m1 & y & m2 & Hy & Hpc & Hrev & Hrev').
  destruct R as [_ Hnext Hprev Hnd].
  destruct (splice_list _ _ _ _ _ _ Heq Hn Hnd) as (Htl & _ & _).
  assert (Hyc : pv s y = Some (Some c)).
  { rewrite Hrev in Hprev. rewrite (path_lookup _ _ _ _ _ Hprev). by rewrite Hpc. }
  exists y. split_and!; [|done| |intros s' N1 P1; split].
  - rewrite Heq in Hnext. rewrite (path_lookup _ _ _ _ _ Hnext). by rewrite Hy.
  - assert (y ∈ h :: reverse xs) as Hy' by (rewrite Hrev; in_list).
    rewrite elem_of_cons, elem_of_reverse in Hy'. by apply elem_of_cons.
  - rewrite Htl. eapply path_insert; [by rewrite <- Heq|by rewrite <- Heq|by rewrite <- Heq|done].
  - rewrite Hrev'. eapply (path_insert (pv s)); [by rewrite <- Hrev| | |].
    + rewrite <- Hrev. by rewrite reverse_Permutation.
    + by rewrite <- Hrev, elem_of_cons, elem_of_reverse, <- elem_of_cons.
    + intros b. by rewrite P1, Hyc.
Qed.

Lemma node_class_ne s a b : is_Some (node_of s a) -> is_Some (class_of s b) -> a <> b.
Proof.
  intros [m (t & Ht & Hp)%node_of_Some] [c (t' & Ht' & Hp')%class_of_Some] ->.
  assert (t' = t) as -> by congruence.
  apply to_piece_Some in Hp as ->. by rewrite to_class_piece in Hp'.
Qed.

(** The bookkeeping of an insertion in the class object. *)
Lemma inst_class_spec s this h xs l1 c l2 n sz (Q : Z -> heap T G -> Prop) :
  class_of s this = Some (ListClass (Some h) (last (h :: xs)) (Z.of_nat (length xs)) sz) ->
  h :: xs = l1 ++ c :: l2 -> n ∉ h :: xs -> NoDup (h :: xs) ->
  (forall s', agree s s' (fun a => a = this) ->
    class_of s' this = Some (ListClass (Some h) (last (h :: tail (l1 ++ c :: n :: l2)))
      (Z.of_nat (length (tail (l1 ++ c :: n :: l2)))) sz) ->
    (forall b, nx s' b = nx s b) -> (forall b, pv s' b = pv s b) -> Q NoErr s') ->
  wp (c' ← class_at (Some this);
      (if decide (pTail c' = Some c)
       then store (Some this) (of_class (ListClass (pHead c') (Some n) (iNodeNum c') (iNodeDataSize c')))
       else mret tt) ;;
      c' ← class_at (Some this);
      store (Some this) (of_class (ListClass (pHead c') (pTail c') (iNodeNum c' + 1) (iNodeDataSize c'))) ;;
      link_list_write_unlock (Some this) ;;
      mret NoErr) s Q.
Proof.
  intros Hc Heq Hn Hnd HQ.
  destruct (splice_list _ _ _ _ _ _ Heq Hn Hnd) as (Htl & _ & Hlen).
  assert (Hlast := Hnd). rewrite Heq in Hlast. apply last_split in Hlast. rewrite <- Heq in Hlast.
  wp_step. eapply wp_class_at; [exact Hc|]. cbn [pTail pHead iNodeNum iNodeDataSize]. wp_step.
  eapply (wp_mono _ _ (fun _ s1 => agree s s1 (fun a => a = this) /\
    class_of s1 this = Some (ListClass (Some h) (last (h :: tail (l1 ++ c :: n :: l2)))
                               (Z.of_nat (length xs)) sz) /\
    (forall b, nx s1 b = nx s b) /\ (forall b, pv s1 b = pv s b))).
  { rewrite Htl. destruct (decide (last (h :: xs) = Some c)) as [Hl|Hl].
    - apply Hlast in Hl as ->. eapply wp_set_class; [exact Hc|]. intros s1 A1 C1 N1 P1.
      split_and!; [done| |done|done]. rewrite C1, decide_True by done. by rewrite !last_app_cons.
    - wp_steps. split_and!; [apply agree_refl| |done|done]. rewrite Hc, Heq.
      destruct l2 as [|y l2]; [tauto|]. by rewrite !last_app_cons. }
  intros _ s1 (A1 & C1 & N1 & P1).
  wp_step. eapply wp_class_at; [exact C1|]. cbn [pTail pHead iNodeNum iNodeDataSize].
  wp_step. eapply wp_set_class; [exact C1|]. intros s2 A2 C2 N2 P2.
  unfold link_list_write_unlock. wp_steps. apply HQ.
  - eapply agree_trans; [exact A1|exact A2|]. simpl. tauto.
  - rewrite C2, decide_True by done. do 2 f_equal. lia.
  - intros b. by rewrite N2.
  - intros b. by rewrite P2.
Qed.

Lemma inst_spec s this h xs l1 c l2 n :
  list_rep s this h xs -> h :: xs = l1 ++ c :: l2 ->
  is_Some (node_of s n) -> n ∉ h :: xs ->
  wp (link_list_inst (Some this) (Some c) (Some n)) s (fun r s' =>
    r = NoErr /\ list_rep s' this h (tail (l1 ++ c :: n :: l2)) /\
    agree s s' (fun a => a = this \/ a ∈ h :: xs \/ a = n)).
Proof.
  intros R Heq Hn Hnin.
  destruct (rep_splice _ _ _ _ _ _ _ _ R Heq Hnin) as (y & Hcy & Hyc & Hyin & Hpaths).
  assert (Hcin : c ∈ h :: xs) by (rewrite Heq; in_list).
  destruct (lr_class _ _ _ _ R) as [sz Hc]. pose proof (lr_nodup _ _ _ _ R) as Hnd.
  unfold link_list_inst, link_list_write_lock; c_red. wp_step. wp_step. wp_step.
  eapply wp_INSERT_NODE; [exact Hcy|done|by eapply node_pv|by intros ->|by intros ->|].
  intros s1 A1 C1 N1 P1. destruct (Hpaths s1 N1 P1) as [Hn1 Hp1].
  eapply inst_class_spec; [rewrite C1; exact Hc|done..|]. intros s2 A2 C2 N2 P2.
  split_and!; [done| |].
  - constructor; [by eexists|by eapply path_eq|by eapply path_eq|].
    by eapply splice_list.
  - eapply agree_trans; [exact A1|exact A2|]. simpl. intros a [[->|[->| ->]]| ->]; tauto.
Qed.

Lemma rep_unsplice s this h xs l0 p x l2 :
  list_rep s this h xs -> h :: xs = l0 ++ p :: x :: l2 ->
  exists y, nx s x = Some (Some y) /\ pv s x = Some (Some p) /\ y ∈ h :: xs /\
    p <> x /\ y <> x /\ h :: tail (l0 ++ p :: l2) = l0 ++ p :: l2 /\
    forall s',
      (forall b, nx s' b = if decide (b = p) then Some (Some y) else nx s b) ->
      (forall b, pv s' b = if decide (b = y) then Some (Some p) else pv s b) ->
      path (nx s') (h :: tail (l0 ++ p :: l2)) (Some h) /\
      path (pv s') (h :: reverse (tail (l0 ++ p :: l2))) (Some h).
Proof.
  intros [_ Hnext Hprev Hnd] Heq.
  assert (Htl : h :: tail (l0 ++ p :: l2) = l0 ++ p :: l2).
  { destruct l0; simpl in *; congruence. }
  destruct (ring_reverse _ _ _ _ _ Htl) as (m1 & y & m2 & Hy & Hpc & Hrev & Hrev').
  specialize (Hrev' x). rewrite <- Heq in Hrev'. cbn [tail] in Hrev'.
  assert (Hnx : nx s x = Some (Some y)).
  { rewrite Heq in Hnext. change (l0 ++ p :: x :: l2) with (l0 ++ [p] ++ x :: l2) in Hnext.
    rewrite app_assoc in Hnext. by rewrite (path_lookup _ _ _ _ _ Hnext), Hy. }
  assert (Hpv : pv s x = Some (Some p)).
  { rewrite Hrev' in Hprev. change (m1 ++ y :: x :: m2) with (m1 ++ [y] ++ x :: m2) in Hprev.
    rewrite app_assoc in Hprev. by rewrite (path_lookup _ _ _ _ _ Hprev), Hpc. }
  assert (Hndr : NoDup (h :: reverse xs)) by by rewrite reverse_Permutation.
  assert (p <> x).
  { intros ->. rewrite Heq in Hnd. apply NoDup_app in Hnd as (_ & _ & [Hx _]%NoDup_cons).
    apply Hx. in_list. }
  assert (y <> x).
  { intros ->. rewrite Hrev' in Hndr. apply NoDup_app in Hndr as (_ & _ & [Hx _]%NoDup_cons).
    apply Hx. in_list. }
  exists y. split_and!; try done.
  - assert (y ∈ h :: reverse xs) as Hy' by (rewrite Hrev'; in_list).
    rewrite elem_of_cons, elem_of_reverse in Hy'. by apply elem_of_cons.
  - intros s' N1 P1. split.
    + rewrite Htl. eapply path_remove; [by rewrite <- Heq|by rewrite <- Heq|].
      intros b _. by rewrite N1, Hnx.
    + rewrite Hrev. eapply (path_remove (pv s)); [by rewrite <- Hrev'|by rewrite <- Hrev'|].
      intros b _. by rewrite P1, Hpv.
Qed.

(** The bookkeeping of a removal. *)
Lemma del_class_spec s this h xs l0 p x l2 sz (Q : ptr -> heap T G -> Prop) :
  class_of s this = Some (ListClass (Some h) (last (h :: xs)) (Z.of_nat (length xs)) sz) ->
  h :: xs = l0 ++ p :: x :: l2 -> NoDup (h :: xs) -> pv s x = Some (Some p) ->
  (forall s', agree s s' (fun a => a = this) ->
    class_of s' this = Some (ListClass (Some h) (last (l0 ++ p :: l2))
      (Z.of_nat (length (tail (l0 ++ p :: l2)))) sz) ->
    (forall b, nx s' b = nx s b) -> (forall b, pv s' b = pv s b) -> Q (Some x) s') ->
  wp (c ← class_at (Some this);
      (if decide (Some x = pTail c)
       then p ← piece_at (Some x);
            store (Some this) (of_class (ListClass (pHead c) (pPrev p) (iNodeNum c) (iNodeDataSize c)))
       else mret tt) ;;
      c ← class_at (Some this);
      store (Some this) (of_class (ListClass (pHead c) (pTail c) (iNodeNum c - 1) (iNodeDataSize c))) ;;
      link_list_write_unlock (Some this) ;;
      mret (Some x)) s Q.
Proof.
  intros Hc Heq Hnd Hpv HQ. assert (Hlast := Hnd).
  change (p :: x :: l2) with ([p] ++ x :: l2) in Heq. rewrite app_assoc in Heq.
  rewrite Heq in Hlast. apply last_split in Hlast. rewrite <- Heq in Hlast.
  wp_step. eapply wp_class_at; [exact Hc|]. cbn [pTail pHead iNodeNum iNodeDataSize]. wp_step.
  eapply (wp_mono _ _ (fun _ s1 => agree s s1 (fun a => a = this) /\
    class_of s1 this = Some (ListClass (Some h) (last (l0 ++ p :: l2)) (Z.of_nat (length xs)) sz) /\
    (forall b, nx s1 b = nx s b) /\ (forall b, pv s1 b = pv s b))).
  { destruct (decide (Some x = last (h :: xs))) as [Hl|Hl].
    - symmetry in Hl. apply Hlast in Hl as ->. apply pv_node in Hpv as (m & Hm & Hmp).
      wp_step. eapply wp_piece_at; [exact Hm|]. rewrite Hmp. eapply wp_set_class; [exact Hc|].
      intros s1 A1 C1 N1 P1. split_and!; [done| |done|done].
      rewrite C1, decide_True by done. by rewrite last_snoc.
    - wp_steps. split_and!; [apply agree_refl| |done|done]. rewrite Hc, Heq.
      destruct l2 as [|y l2]; [exfalso; apply Hl; symmetry; by apply Hlast|].
      rewrite <- app_assoc. simpl. by rewrite !last_app_cons, !last_cons_cons. }
  intros _ s1 (A1 & C1 & N1 & P1).
  wp_step. eapply wp_class_at; [exact C1|]. cbn [pTail pHead iNodeNum iNodeDataSize].
  wp_step. eapply wp_set_class; [exact C1|]. intros s2 A2 C2 N2 P2.
  unfold link_list_write_unlock. wp_steps. apply HQ.
  - eapply agree_trans; [exact A1|exact A2|]. simpl. tauto.
  - rewrite C2, decide_True by done. do 2 f_equal. apply (f_equal length) in Heq.
    rewrite !length_app in Heq. destruct l0; simpl in *; rewrite ?length_app; simpl; lia.
  - intros b. by rewrite N2.
  - intros b. by rewrite P2.
Qed.

Lemma get_head_spec s this h xs :
  list_rep s this h xs ->
  wp (link_list_get_head (Some this)) s (fun r s' => r = Some h /\ s' = s).
Proof.
  intros R. destruct (lr_class _ _ _ _ R) as [sz Hc]. unfold link_list_get_head; c_red.
  wp_step. eapply wp_class_at; [exact Hc|]. by wp_steps.
Qed.

Lemma del_result_spec s this h xs l0 p x l2 :
  list_rep s this h xs -> h :: xs = l0 ++ p :: x :: l2 ->
  wp (link_list_del_result (Some this) (Some x)) s (fun r s' =>
    r = Some x /\ list_rep s' this h (tail (l0 ++ p :: l2)) /\
    agree s s' (fun a => a = this \/ (a ∈ h :: xs /\ a <> x)) /\ is_Some (node_of s' x)).
Proof.
  intros R Heq. pose proof (rep_class_ne _ _ _ _ R) as Hth.
  destruct (rep_unsplice _ _ _ _ _ _ _ _ R Heq) as (y & Hnx & Hpv & Hyin & Hpx & Hyx & Htl & Hpaths).
  assert (Hpin : p ∈ h :: xs) by (rewrite Heq; in_list).
  assert (Hxin : x ∈ h :: xs) by (rewrite Heq; in_list).
  destruct (lr_class _ _ _ _ R) as [sz Hc]. pose proof (lr_nodup _ _ _ _ R) as Hnd.
  assert (Hxh : x <> h).
  { intros ->. destruct l0 as [|z l0]; simpl in Heq; injection Heq as -> ->; [done|].
    apply NoDup_cons in Hnd as [Hnin _]. apply Hnin. in_list. }
  unfold link_list_del_result, link_list_write_lock; c_red.
  wp_step. wp_apply get_head_spec; [exact R|]. intros r s' [-> ->].
  rewrite decide_False by congruence. wp_step. wp_step. wp_step.
  eapply wp_REMOVE_NODE; [exact Hnx|exact Hpv|by eapply rep_nodes|by eapply rep_nodes|done|done|].
  intros s1 A1 C1 N1 P1. destruct (Hpaths s1 N1 P1) as [Hn1 Hp1].
  assert (pv s1 x = Some (Some p)) as Hpv1 by by rewrite P1, decide_False.
  eapply del_class_spec; [by rewrite C1|exact Heq|done|done|]. intros s2 A2 C2 N2 P2.
  split_and!; [done| | |].
  - constructor; [exists sz; by rewrite Htl|by eapply path_eq|by eapply path_eq|].
    rewrite Htl. rewrite Heq in Hnd. change (p :: x :: l2) with ([p] ++ x :: l2) in Hnd.
    rewrite app_assoc, <- Permutation_middle, <- app_assoc in Hnd. apply NoDup_cons in Hnd as [_ Hnd]. exact Hnd.
  - eapply agree_trans; [exact A1|exact A2|]. simpl.
    intros a [[->| ->]| ->]; [by right|by right|by left].
  - apply (node_pv _ _ (Some p)). by rewrite P2.
Qed.

(** ** Reading operations *)

Lemma size_spec s this h xs :
  list_rep s this h xs ->
  wp (link_list_size (Some this)) s (fun r s' => r = Z.of_nat (length xs) /\ s' = s).
Proof.
  intros R. destruct (lr_class _ _ _ _ R) as [sz Hc].
  unfold link_list_size, link_list_read_lock, link_list_read_unlock; c_red.
  wp_steps. eapply wp_class_at; [exact Hc|]. by wp_steps.
Qed.

Lemma get_tail_spec s this h xs :
  list_rep s this h xs ->
  wp (link_list_get_tail (Some this)) s (fun r s' => r = last (h :: xs) /\ s' = s).
Proof.
  intros R. destruct (lr_class _ _ _ _ R) as [sz Hc]. unfold link_list_get_tail; c_red.
  wp_step. eapply wp_class_at; [exact Hc|]. by wp_steps.
Qed.

Lemma get_first_spec s this h xs :
  list_rep s this h xs ->
  wp (link_list_get_first (Some this)) s (fun r s' => r = head xs /\ s' = s).
Proof.
  intros R. destruct (lr_class _ _ _ _ R) as [sz Hc]. unfold link_list_get_first; c_red.
  wp_step. wp_apply size_spec; [exact R|]. intros r s' [-> ->].
  destruct xs as [|x xs]; simpl; [by wp_steps|].
  wp_step. eapply wp_class_at; [exact Hc|]. cbn [pHead].
  destruct (lr_next _ _ _ _ R) as [Hn _]. apply nx_node in Hn as (n & Hn & Hnx).
  wp_step. eapply wp_piece_at; [exact Hn|]. by wp_steps.
Qed.

Lemma get_next_spec s this a q :
  nx s a = Some q ->
  wp (link_list_get_next (Some this) (Some a)) s (fun r s' => r = q /\ s' = s).
Proof.
  intros (n & Hn & Hnx)%nx_node. unfold link_list_get_next; c_red.
  wp_step. eapply wp_piece_at; [exact Hn|]. by wp_steps.
Qed.

Lemma get_prev_spec s this a q :
  pv s a = Some q ->
  wp (link_list_get_prev (Some this) (Some a)) s (fun r s' => r = q /\ s' = s).
Proof.
  intros (n & Hn & Hnx)%pv_node. unfold link_list_get_prev; c_red.
  wp_step. eapply wp_piece_at; [exact Hn|]. by wp_steps.
Qed.

Lemma get_next_null_spec s this h xs :
  list_rep s this h xs ->
  wp (link_list_get_next (Some this) NULL) s (fun r s' => r = head xs /\ s' = s).
Proof. intros R. unfold link_list_get_next; c_red. by eapply get_first_spec. Qed.

(** The node after the prefix [l1] of the list: the next node, or the
    sentinel. *)
Lemma rep_next_at s this h l1 x l2 :
  list_rep s this h (l1 ++ x :: l2) -> nx s x = Some (hd_or l2 (Some h)).
Proof.
  intros [_ Hn _ _]. change (h :: l1 ++ x :: l2) with ((h :: l1) ++ x :: l2) in Hn.
  by apply path_lookup in Hn.
Qed.

Lemma rep_size s this h xs : list_rep s this h xs -> (length xs < size (cells s))%nat.
Proof.
  intros R. pose proof (lr_nodup _ _ _ _ R) as Hnd.
  apply (NoDup_size (cells s) (h :: xs)) in Hnd; [simpl in Hnd; lia|].
  intros x Hx. destruct (rep_nodes _ _ _ _ _ R Hx) as [n (t & Ht & _)%node_of_Some]. by eexists.
Qed.

(** *** The searching loops *)

Lemma rep_ne_head s this h l1 y l2 : list_rep s this h (l1 ++ y :: l2) -> y <> h.
Proof.
  intros [_ _ _ Hnd] ->. apply NoDup_cons in Hnd as [Hh _]. apply Hh. in_list.
Qed.

Lemma get_by_id_spec s this h xs iId :
  list_rep s this h xs -> 0 <= iId ->
  wp (link_list_get_by_id (Some this) iId) s (fun r s' => r = xs !! Z.to_nat iId /\ s' = s).
Proof.
  intros R Hi. unfold link_list_get_by_id; c_red. destruct (Z.ltb_spec iId 0); [lia|].
  wp_step. wp_apply size_spec; [exact R|]. intros r s' [-> ->].
  destruct (Z.ltb_spec (Z.of_nat (length xs)) iId).
  { wp_steps. by rewrite lookup_ge_None_2 by lia. }
  wp_step. wp_apply get_next_null_spec; [exact R|]. intros r s' [-> ->].
  destruct xs as [|x xs]; c_red; [by wp_steps|].
  wp_step. wp_apply get_head_spec; [exact R|]. intros r s' [-> ->]. c_red.
  unfold fuel. wp_steps.
  eapply (wp_loop_n _ (fun n '(p, i) s' => s' = s /\ exists l1 l2, x :: xs = l1 ++ l2 /\
    n = length l2 /\ p = hd_or l2 (Some h) /\ i = Z.of_nat (length l1) /\ i <= iId)).
  - intros n [p i] s' (-> & l1 & l2 & Heq & -> & -> & -> & Hle). rewrite Heq in R |- *.
    destruct l2 as [|y l2]; simpl.
    + rewrite decide_False by (intros []; done). wp_steps. split; [|done].
      rewrite app_nil_r, lookup_ge_None_2 by lia. done.
    + assert (y <> h) by (by eapply rep_ne_head).
      rewrite decide_True by congruence. destruct (Z.eqb_spec iId (Z.of_nat (length l1))) as [->|].
      * wp_steps. split; [|done]. rewrite Nat2Z.id. by rewrite list_lookup_middle.
      * wp_step. wp_apply get_next_spec; [by eapply rep_next_at|]. intros r s' [-> ->].
        wp_steps. exists (length l2). split; [lia|]. split; [done|].
        exists (l1 ++ [y]), l2. rewrite <- app_assoc, length_app. simpl. split_and!; try done; lia.
  - split; [done|]. exists [], (x :: xs). split_and!; try done.
  - pose proof (rep_size _ _ _ _ R). simpl in *. lia.
Qed.

(** The position of the first occurrence. *)
Lemma get_index_spec s this h xs a :
  list_rep s this h xs ->
  wp (link_list_get_index (Some this) (Some a)) s (fun r s' => s' = s /\
    r = if decide (xs = []) then SceneGetErr
        else match list_find (a =.) xs with Some (i, _) => Z.of_nat i | None => NotFoundErr end).
Proof.
  intros R. unfold link_list_get_index; c_red.
  wp_step. wp_apply get_next_null_spec; [exact R|]. intros r s' [-> ->].
  destruct xs as [|x xs]; c_red; [by wp_steps|]. d_false.
  wp_step. wp_apply get_head_spec; [exact R|]. intros r s' [-> ->]. c_red.
  unfold fuel. wp_steps.
  eapply (wp_loop_n _ (fun n '(p, i) s' => s' = s /\ exists l1 l2, x :: xs = l1 ++ l2 /\
    n = length l2 /\ p = hd_or l2 (Some h) /\ i = Z.of_nat (length l1) /\ a ∉ l1)).
  - intros n [p i] s' (-> & l1 & l2 & Heq & -> & -> & -> & Hni). rewrite Heq in R |- *.
    destruct l2 as [|y l2]; simpl.
    + rewrite decide_False by (intros []; done). wp_steps. split; [done|].
      rewrite app_nil_r. assert (list_find (a =.) l1 = None) as ->; [|done].
      apply list_find_None. apply Forall_forall. intros z Hz ->. done.
    + assert (y <> h) by (by eapply rep_ne_head).
      rewrite decide_True by congruence. destruct (decide (Some a = Some y)) as [[= <-]|Hne].
      * wp_steps. split; [done|].
        assert (list_find (a =.) (l1 ++ a :: l2) = Some (length l1, a)) as ->; [|done].
        apply list_find_Some. rewrite list_lookup_middle by done. split_and!; [done..|].
        intros j z Hj Hlt ->. rewrite lookup_app_l in Hj by lia. by eapply Hni, list_elem_of_lookup_2.
      * wp_step. wp_apply get_next_spec; [by eapply rep_next_at|]. intros r s' [-> ->].
        wp_steps. exists (length l2). split; [lia|]. split; [done|].
        exists (l1 ++ [y]), l2. rewrite <- app_assoc, length_app. simpl. split_and!; try done; try lia.
        rewrite elem_of_app, list_elem_of_singleton. intros [?| ->]; done.
  - split; [done|]. exists [], (x :: xs). split_and!; try done. by apply not_elem_of_nil.
  - pose proof (rep_size _ _ _ _ R). simpl in *. lia.
Qed.

(** A search with a comparison that reads the heap: the first node it accepts. *)
Lemma get_spec s this h xs cmp prm (f : positive -> bool) :
  list_rep s this h xs ->
  (forall x, x ∈ xs -> wp (cmp (Some x) (Some prm)) s (fun r s' => truth r = negb (f x) /\ s' = s)) ->
  wp (link_list_get (Some this) (Some cmp) (Some prm)) s (fun r s' =>
    r = snd <$> list_find f xs /\ s' = s).
Proof.
  intros R Hcmp. unfold link_list_get; c_red.
  wp_step. wp_apply get_next_null_spec; [exact R|]. intros r s' [-> ->].
  destruct xs as [|x xs]; c_red; [by wp_steps|].
  wp_step. wp_apply get_head_spec; [exact R|]. intros r s' [-> ->]. c_red.
  unfold fuel. wp_steps.
  eapply (wp_loop_n _ (fun n (p : ptr) s' => s' = s /\ exists l1 l2, x :: xs = l1 ++ l2 /\
    n = length l2 /\ p = hd_or l2 (Some h) /\ list_find f l1 = None)).
  - intros n p s' (-> & l1 & l2 & Heq & -> & -> & Hni). rewrite Heq in R, Hcmp |- *.
    destruct l2 as [|y l2]; simpl.
    + rewrite bool_decide_false by (intros []; done). c_red. wp_steps. split; [|done].
      rewrite app_nil_r. by rewrite Hni.
    + assert (y <> h) by (by eapply rep_ne_head).
      rewrite bool_decide_true by congruence. c_red. wp_step. wp_apply Hcmp; [in_list|].
      intros r s' [Hr ->]. rewrite Hr. destruct (f y) eqn:Hfy; c_red.
      * wp_steps. split; [|done].
        rewrite list_find_app_r by done. simpl.
        rewrite decide_True by (by rewrite Hfy). done.
      * wp_step. wp_apply get_next_spec; [by eapply rep_next_at|]. intros r' s' [-> ->].
        wp_steps. exists (length l2). split; [lia|]. split; [done|].
        exists (l1 ++ [y]), l2. rewrite <- app_assoc. split_and!; [done..|].
        rewrite list_find_app_r by done. simpl. rewrite decide_False by (rewrite Hfy; intros []). done.
  - split; [done|]. exists [], (x :: xs). by split_and!.
  - pose proof (rep_size _ _ _ _ R). simpl in *. lia.
Qed.

(** A traversal: the callback is run on every node in order, [I] being what it
    maintains; the result is the callback's last one. *)
Lemma traverse_spec s this h xs trav prm (I : list positive -> Z -> heap T G -> Prop) :
  list_rep s this h xs -> I [] 0 s ->
  (forall l1 x l2 r0 s1, xs = l1 ++ x :: l2 -> I l1 r0 s1 -> list_rep s1 this h xs ->
     wp (trav (Some x) prm) s1 (fun r s2 => I (l1 ++ [x]) r s2 /\ list_rep s2 this h xs)) ->
  wp (link_list_traverse (Some this) (Some trav) prm) s (fun r s' =>
    if decide (xs = []) then r = SceneGetErr /\ s' = s
    else I xs r s' /\ list_rep s' this h xs).
Proof.
  intros R HI Htrav. unfold link_list_traverse; c_red.
  wp_step. wp_apply get_next_null_spec; [exact R|]. intros r s' [-> ->].
  destruct xs as [|x xs]; c_red; [by wp_steps|].
  wp_step. wp_apply get_head_spec; [exact R|]. intros r s' [-> ->]. c_red.
  unfold fuel. wp_steps.
  eapply wp_mono; [|intros r s' Hr; rewrite decide_False by done; exact Hr].
  eapply (wp_loop_n _ (fun n '(p, r) s1 => exists l1 l2, x :: xs = l1 ++ l2 /\
    n = length l2 /\ p = hd_or l2 (Some h) /\ I l1 r s1 /\ list_rep s1 this h (x :: xs))).
  - intros n [p r] s1 (l1 & l2 & Heq & -> & -> & HI1 & R1).
    destruct l2 as [|y l2]; simpl.
    + rewrite decide_False by (intros []; done). wp_steps. rewrite app_nil_r in Heq. by rewrite Heq in *.
    + assert (y <> h) by (rewrite Heq in R1; by eapply rep_ne_head).
      rewrite decide_True by congruence. wp_step. eapply wp_mono; [by eapply Htrav|].
      intros r2 s2 [HI2 R2]. wp_step. wp_apply get_next_spec; [rewrite Heq in R2; by eapply rep_next_at|].
      intros r' s3 [-> ->]. wp_steps. exists (length l2). split; [simpl; lia|].
      exists (l1 ++ [y]), l2. rewrite <- app_assoc. by split_and!.
  - exists [], (x :: xs). by split_and!.
  - pose proof (rep_size _ _ _ _ R). simpl in *. lia.
Qed.

(** ** Insertion and removal at the client's level *)

Lemma inst_tail_spec s this h xs n :
  list_rep s this h xs -> is_Some (node_of s n) -> n ∉ h :: xs ->
  wp (link_list_inst_tail (Some this) (Some n)) s (fun r s' =>
    r = NoErr /\ list_rep s' this h (xs ++ [n]) /\
    agree s s' (fun a => a = this \/ a ∈ h :: xs \/ a = n)).
Proof.
  intros R Hn Hni. unfold link_list_inst_tail; c_red.
  wp_step. wp_apply get_tail_spec; [exact R|]. intros r s' [-> ->].
  destruct (last (h :: xs)) as [c|] eqn:Hl; [|by apply last_None in Hl].
  apply last_Some in Hl as [l1 Hl].
  wp_apply inst_spec; [exact R|exact Hl|done|done|].
  intros r s' (-> & R' & A). split_and!; [done| |done].
  replace (xs ++ [n]) with (tail (l1 ++ [c; n])); [done|].
  destruct l1; simpl in *; injection Hl as <- ->; [done|by rewrite <- app_assoc].
Qed.

Lemma inst_head_spec s this h xs n :
  list_rep s this h xs -> is_Some (node_of s n) -> n ∉ h :: xs ->
  wp (link_list_inst_head (Some this) (Some n)) s (fun r s' =>
    r = NoErr /\ list_rep s' this h (n :: xs) /\
    agree s s' (fun a => a = this \/ a ∈ h :: xs \/ a = n)).
Proof.
  intros R Hn Hni. unfold link_list_inst_head; c_red.
  wp_step. wp_apply get_head_spec; [exact R|]. intros r s' [-> ->].
  by apply (inst_spec s this h xs [] h xs n).
Qed.

Lemma inst_by_id_spec s this h xs iId n x :
  list_rep s this h xs -> is_Some (node_of s n) -> n ∉ h :: xs ->
  0 <= iId -> xs !! Z.to_nat iId = Some x ->
  wp (link_list_inst_by_id (Some this) iId (Some n)) s (fun r s' =>
    r = NoErr /\
    list_rep s' this h (take (Datatypes.S (Z.to_nat iId)) xs ++ n :: drop (Datatypes.S (Z.to_nat iId)) xs) /\
    agree s s' (fun a => a = this \/ a ∈ h :: xs \/ a = n)).
Proof.
  intros R Hn Hni Hi Hx. unfold link_list_inst_by_id; c_red. destruct (Z.ltb_spec iId 0); [lia|].
  wp_step. wp_apply get_by_id_spec; [exact R|done|]. intros r s' [-> ->]. rewrite Hx.
  pose proof (take_drop_middle _ _ _ Hx) as Hsplit.
  wp_apply (inst_spec s this h xs (h :: take (Z.to_nat iId) xs) x (drop (Datatypes.S (Z.to_nat iId)) xs));
    [exact R|by simpl; rewrite Hsplit|done|done|].
  intros r s' (-> & R' & A). split_and!; [done| |done].
  rewrite (take_S_r _ _ _ Hx), <- app_assoc. exact R'.
Qed.

Lemma split_prev (h : positive) l1 (x : positive) l2 :
  exists l0 p, h :: l1 ++ x :: l2 = l0 ++ p :: x :: l2 /\ tail (l0 ++ p :: l2) = l1 ++ l2.
Proof.
  destruct (@exists_last _ (h :: l1) ltac:(done)) as (l0 & p & Heq). exists l0, p.
  change (h :: l1 ++ x :: l2) with ((h :: l1) ++ x :: l2). rewrite Heq, <- app_assoc.
  split; [done|]. destruct l0; simpl in *; injection Heq as <- ->; [done|by rewrite <- app_assoc].
Qed.

Lemma del_result_at s this h l1 x l2 :
  list_rep s this h (l1 ++ x :: l2) ->
  wp (link_list_del_result (Some this) (Some x)) s (fun r s' =>
    r = Some x /\ list_rep s' this h (l1 ++ l2) /\
    agree s s' (fun a => a = this \/ (a ∈ h :: l1 ++ x :: l2 /\ a <> x)) /\ is_Some (node_of s' x)).
Proof.
  intros R. destruct (split_prev h l1 x l2) as (l0 & p & Heq & Htl).
  rewrite <- Htl. by eapply del_result_spec.
Qed.

Lemma del_spec s this h l1 x l2 :
  list_rep s this h (l1 ++ x :: l2) ->
  wp (link_list_del (Some this) (Some x)) s (fun r s' =>
    r = NoErr /\ list_rep s' this h (l1 ++ l2) /\
    effect s s' (fun a => a = this \/ (a ∈ h :: l1 ++ x :: l2 /\ a <> x)) (fun a => a = x)).
Proof.
  intros R. unfold link_list_del; c_red. wp_step. wp_apply del_result_at; [exact R|].
  intros r s1 (-> & R1 & A1 & [n Hn]). unfold link_list_destroy_node; c_red.
  apply node_of_Some in Hn as (t & Ht & _).
  wp_step. eapply wp_free; [exact Ht|]. wp_steps. split_and!; [done| |].
  - eapply rep_ext; [exact R1| |].
    + pose proof (rep_class_ne _ _ _ _ R) as Hth. unfold class_of; simpl.
      rewrite lookup_delete_ne; [done|]. intros ->. apply Hth. in_list.
    + intros y Hy. assert (y <> x).
      { intros ->. pose proof (lr_nodup _ _ _ _ R) as Hnd.
        change (h :: l1 ++ x :: l2) with ((h :: l1) ++ x :: l2) in Hnd.
        rewrite <- Permutation_middle in Hnd. by apply NoDup_cons in Hnd as [? _]. }
      unfold nx, pv, node_of; simpl. by rewrite lookup_delete_ne.
  - eapply effect_trans; [by apply agree_effect|apply effect_del|simpl; tauto|simpl; tauto].
Qed.

Lemma del_head_spec s this h xs :
  list_rep s this h xs ->
  wp (link_list_del_head (Some this)) s (fun r s' =>
    match xs with
    | [] => r = ParaErr /\ s' = s
    | x :: xs' => r = NoErr /\ list_rep s' this h xs' /\
        effect s s' (fun a => a = this \/ (a ∈ h :: xs /\ a <> x)) (fun a => a = x)
    end).
Proof.
  intros R. unfold link_list_del_head, link_list_del_head_result; c_red.
  wp_step. wp_step. wp_apply get_first_spec; [exact R|]. intros r s' [-> ->].
  destruct xs as [|x xs]; simpl.
  - unfold link_list_del_result, link_list_destroy_node; c_red. by wp_steps.
  - pose proof (del_spec s this h [] x xs R) as Hdel. unfold link_list_del in Hdel; simpl in Hdel.
    by apply wp_bind_inv in Hdel.
Qed.

Lemma clear_spec s this h xs :
  list_rep s this h xs ->
  wp (link_list_clear (Some this)) s (fun r s' =>
    r = NoErr /\ list_rep s' this h [] /\
    effect s s' (fun a => a = this \/ a = h) (fun a => a ∈ xs)).
Proof.
  intros R. unfold link_list_clear, fuel; c_red. wp_steps.
  eapply (wp_loop_n _ (fun n (_ : unit) s1 => exists us ws, xs = us ++ ws /\ n = length ws /\
    list_rep s1 this h ws /\ effect s s1 (fun a => a = this \/ a = h \/ a ∈ ws) (fun a => a ∈ us))).
  - intros n [] s1 (us & ws & -> & -> & R1 & E1). wp_step. wp_apply del_head_spec; [exact R1|].
    intros r s2 Hr. destruct ws as [|w ws].
    + destruct Hr as [-> ->]. rewrite app_nil_r. simpl. wp_steps. split_and!; [done..|].
      eapply effect_trans; [exact E1|apply (effect_refl _ (fun _ => False))| |tauto].
      intros a [[->|[->|Hin]]|[]]; [tauto..|]. by apply elem_of_nil in Hin.
    + destruct Hr as (-> & R2 & E2). simpl. wp_steps. exists (length ws). split; [simpl; lia|].
      exists (us ++ [w]), ws. rewrite <- app_assoc. split_and!; [done..|].
      eapply effect_trans; [exact E1|exact E2| |]; simpl; intros a.
      * rewrite elem_of_app, !elem_of_cons, elem_of_nil. tauto.
      * rewrite elem_of_app, elem_of_cons, elem_of_nil. tauto.
  - exists [], xs. split_and!; [done..|].
    eapply effect_trans; [apply (effect_refl _ (fun _ => False))|apply (effect_refl _ (fun _ => False))|tauto|].
    intros a. rewrite elem_of_nil. tauto.
  - pose proof (rep_size _ _ _ _ R). lia.
Qed.

Lemma set_spec s this h l1 x l2 n :
  list_rep s this h (l1 ++ x :: l2) -> is_Some (node_of s n) -> n ∉ h :: l1 ++ x :: l2 ->
  wp (link_list_set (Some this) (Some x) (Some n)) s (fun r s' =>
    r = NoErr /\ list_rep s' this h (l1 ++ n :: l2) /\
    effect s s' (fun a => a = this \/ a = n \/ (a ∈ h :: l1 ++ x :: l2 /\ a <> x)) (fun a => a = x)).
Proof.
  intros R Hn Hni. unfold link_list_set; c_red.
  destruct (@exists_last _ (h :: l1) ltac:(done)) as (l0 & p & Heq).
  assert (Hfull : h :: l1 ++ x :: l2 = l0 ++ p :: x :: l2).
  { change (h :: l1 ++ x :: l2) with ((h :: l1) ++ x :: l2). by rewrite Heq, <- app_assoc. }
  assert (Hless : h :: l1 ++ l2 = l0 ++ p :: l2).
  { change (h :: l1 ++ l2) with ((h :: l1) ++ l2). by rewrite Heq, <- app_assoc. }
  assert (Htail : tail (l0 ++ p :: n :: l2) = l1 ++ n :: l2).
  { destruct l0; simpl in *; injection Heq as <- ->; [done|by rewrite <- app_assoc]. }
  destruct (rep_unsplice _ _ _ _ _ _ _ _ R Hfull) as (y & _ & Hpv & _ & _ & _ & _ & _).
  wp_step. wp_apply get_prev_spec; [exact Hpv|]. intros r s' [-> ->].
  wp_step. wp_apply del_spec; [exact R|]. intros r s1 (-> & R1 & E1).
  assert (Hn1 : is_Some (node_of s1 n)).
  { destruct Hn as [m Hm]. pose proof (ef_data _ _ _ _ E1 n) as Hd. unfold data in Hd.
    rewrite Hm in Hd. destruct (node_of s1 n); [by eexists|].
    exfalso. assert (n <> x) by (intros ->; apply Hni; in_list). by specialize (Hd H0). }
  assert (Hni1 : n ∉ h :: l1 ++ l2).
  { intros Hin. apply Hni. revert Hin. rewrite !elem_of_cons, !elem_of_app, elem_of_cons. tauto. }
  wp_step. wp_apply inst_spec; [exact R1|exact Hless|exact Hn1|exact Hni1|].
  intros r s2 (-> & R2 & A2). rewrite Htail in R2. wp_steps. split_and!; [done|done|].
  eapply effect_trans; [exact E1|apply agree_effect, A2| |simpl; tauto].
  assert (x <> n) by (intros ->; apply Hni; in_list).
  intros a. simpl. rewrite !elem_of_cons, !elem_of_app, elem_of_cons.
  destruct (decide (a = x)); tauto.
Qed.

(** A state extended with a fresh object. *)
Lemma rep_extend s s' this h xs :
  list_rep s this h xs -> (forall a t, cells s !! a = Some t -> cells s' !! a = Some t) ->
  list_rep s' this h xs.
Proof.
  intros R Hext. destruct (lr_class _ _ _ _ R) as [sz (t & Ht & Hc)%class_of_Some].
  eapply rep_ext; [exact R| |].
  - unfold class_of. by rewrite Ht, (Hext _ _ Ht).
  - intros x Hx. destruct (rep_nodes _ _ _ _ _ R Hx) as [n (t' & Ht' & _)%node_of_Some].
    unfold nx, pv, node_of. by rewrite Ht', (Hext _ _ Ht').
Qed.

(** A fresh node: NULL and an unchanged heap when the allocation fails. *)
Lemma new_node_spec s this c :
  class_of s this = Some c ->
  wp (link_list_new_node (Some this)) s (fun r s' =>
    r = NULL /\ cells s' = cells s /\ brk s' = brk s /\ glob s' = glob s \/
    r = Some (brk s) /\ glob s' = glob s /\ brk s' = Pos.succ (brk s) /\
    cells s' = <[brk s := of_piece (Piece NULL NULL (vzero (iNodeDataSize c)))]> (cells s)).
Proof.
  intros Hc. unfold link_list_new_node; c_red. wp_step. eapply wp_class_at; [exact Hc|].
  wp_step. apply wp_alloc; [intros o _|intros _]; c_red; wp_steps; [by left|by right].
Qed.

(** The constructor. *)
Lemma new_link_list_spec s size :
  heap_wf s -> 0 <= size ->
  wp (new_link_list size) s (fun r s' => heap_wf s' /\ glob s' = glob s /\
    (r = NULL /\ cells s' = cells s \/
     exists this h, r = Some this /\ list_rep s' this h [] /\
       class_of s' this = Some (ListClass (Some h) (Some h) 0 size) /\
       cells s !! this = None /\ cells s !! h = None /\
       forall a, a <> this -> a <> h -> cells s' !! a = cells s !! a)).
Proof.
  intros Hwf Hs. unfold new_link_list. destruct (Z.ltb_spec size 0); [lia|].
  wp_step. apply wp_alloc; [intros o _; c_red; wp_steps; split_and!; [done|done|by left]|intros _; c_red].
  pose proof (Hwf (brk s) ltac:(lia)) as Hb. pose proof (Hwf (Pos.succ (brk s)) ltac:(lia)) as Hb'.
  wp_step. apply wp_alloc; simpl; [intros o _|intros _].
  { wp_step. eapply wp_free; [simpl; by rewrite lookup_insert_eq|]. wp_steps. simpl.
    rewrite delete_insert_id by done. split_and!; [|done|by left].
    intros a Ha. simpl in *. rewrite delete_insert_id by done. apply Hwf. lia. }
  set (s0 := Heap _ _ _ _).
  assert (Hwf0 : heap_wf s0).
  { intros a Ha. simpl in *. rewrite !lookup_insert_ne by lia. apply Hwf. lia. }
  assert (Hnode : node_of s0 (Pos.succ (brk s)) = Some (Piece NULL NULL (vzero size))).
  { unfold node_of; simpl. rewrite lookup_insert_eq. apply to_of_piece. }
  assert (Hclass : class_of s0 (brk s) = Some (ListClass NULL NULL 0 0)).
  { unfold class_of; simpl. rewrite lookup_insert_ne by lia. rewrite lookup_insert_eq.
    apply to_of_class. }
  wp_step. eapply wp_set_pPrev; [exact Hnode|]. intros s1 A1 C1 N1 P1.
  assert (is_Some (node_of s1 (Pos.succ (brk s)))) as [m1 Hm1].
  { apply (node_pv _ _ (Some (Pos.succ (brk s)))). by rewrite P1, decide_True. }
  wp_step. eapply wp_set_pNext; [exact Hm1|]. intros s2 A2 C2 N2 P2.
  wp_step. eapply wp_set_class; [by rewrite C2, C1|]. intros s3 A3 C3 N3 P3.
  wp_steps. pose proof (agree_trans _ _ _ _ _ (fun a => a = Pos.succ (brk s) \/ a = brk s)
    (agree_trans _ _ _ _ _ (fun a => a = Pos.succ (brk s)) A1 A2 ltac:(simpl; tauto)) A3
    ltac:(simpl; tauto)) as A.
  split_and!; [by apply (ag_wf _ _ _ A)|by rewrite (ag_glob _ _ _ A)|]. right.
  exists (brk s), (Pos.succ (brk s)). split_and!; [done| |by rewrite C3, decide_True|done|done|].
  - constructor.
    + exists size. by rewrite C3, decide_True.
    + simpl. by rewrite N3, N2, decide_True.
    + simpl. by rewrite P3, P2, P1, decide_True.
    + apply NoDup_singleton.
  - intros a Ha Hb2. rewrite (ag_cells _ _ _ A) by tauto. simpl. by rewrite !lookup_insert_ne.
Qed.

(** The destructor frees the nodes, the sentinel and the class object. *)
Lemma destroy_link_list_spec s this h xs :
  list_rep s this h xs ->
  wp (destroy_link_list (Some this)) s (fun r s' =>
    r = 0 /\ effect s s' (fun _ => False) (fun a => a = this \/ a ∈ h :: xs)).
Proof.
  intros R. unfold destroy_link_list; c_red. pose proof (rep_class_ne _ _ _ _ R) as Hth.
  wp_step. wp_apply size_spec; [exact R|]. intros r s' [-> ->]. wp_step.
  eapply (wp_mono _ _ (fun _ s1 => list_rep s1 this h [] /\
    effect s s1 (fun a => a = this \/ a = h) (fun a => a ∈ xs))).
  { destruct xs as [|x xs]; simpl.
    - wp_steps. split; [done|].
      eapply effect_trans; [apply (effect_refl _ (fun _ => False))|apply (effect_refl _ (fun _ => False))|tauto|].
      intros a. rewrite elem_of_nil. tauto.
    - wp_apply clear_spec; [exact R|]. intros r s1 (_ & ? & ?). done. }
  intros _ s1 [R1 E1]. destruct (lr_class _ _ _ _ R1) as [sz Hc].
  destruct (rep_nodes _ _ _ _ h R1 ltac:(by left)) as [n (t & Ht & _)%node_of_Some].
  assert (this <> h) by (intros ->; apply Hth; by left).
  wp_step. eapply wp_class_at; [exact Hc|]. cbn [pHead iNodeNum iNodeDataSize].
  wp_step. eapply wp_free; [exact Ht|].
  apply class_of_Some in Hc as (tc & Htc & Hcc).
  wp_step. eapply wp_store; [simpl; rewrite lookup_delete_ne by done; exact Htc|].
  wp_step. eapply wp_free; [simpl; by rewrite lookup_insert_eq|]. wp_steps. split; [done|].
  assert (effect s1 (del this (upd this (of_class (ListClass None None (Z.of_nat 0) sz)) (del h s1)))
    (fun _ => False) (fun a => a = this \/ a = h)) as E2.
  { replace (del this (upd this _ (del h s1))) with (del this (del h s1)).
    - eapply effect_trans; [apply effect_del|apply effect_del|simpl; tauto|simpl; tauto].
    - unfold del, upd, with_cells; simpl. f_equal. by rewrite delete_insert_eq. }
  eapply effect_trans; [exact E1|exact E2|simpl|simpl]; intros a; rewrite elem_of_cons; tauto.
Qed.
End rep.
