(* ===== verification/ListRefine.v ===== *)
(** The contract of the linked list as an abstract list, the theorem that the
    operations of scene_link_list.c implement it, and the list's properties. *)
From stdpp Require Import gmap.
From S2P Require Import Prelude Heap Path LinkList.

(** * The abstract list

    A list and the nodes its client holds outside it.  Every operation either
    has a result and a new abstract state, or is a use the contract excludes
    (inserting a node the client does not hold, deleting a node that is not in
    the list). *)
Inductive list_op : Type :=
| InstHead (n : positive) | InstTail (n : positive) | InstById (i : nat) (n : positive)
| DelHead | DelNode (x : positive) | DelResult (x : positive) | SetNode (x n : positive)
| GetById (i : nat) | GetIndex (x : positive) | First | Tail_ | Size | Clear.

Inductive list_out : Type := OInt (z : Z) | OPtr (p : ptr).

Record list_state : Type := ListState { nodes : list positive; loose : gset positive }.

(** The list split at the first occurrence of [x]. *)
Fixpoint split_at (x : positive) (xs : list positive) : option (list positive * list positive) :=
  match xs with
  | [] => None
  | y :: ys =>
      if decide (x = y) then Some ([], ys)
      else '(l1, l2) ← split_at x ys; Some (y :: l1, l2)
  end.

Definition take_loose (n : positive) (st : list_state) : option (gset positive) :=
  if decide (n ∈ loose st) then Some (loose st ∖ {[n]}) else None.

(** [tl_of h xs]: the last node, or the sentinel. *)
Definition spec_step (h : positive) (o : list_op) (st : list_state)
    : option (list_out * list_state) :=
  let xs := nodes st in
  match o with
  | InstHead n => l ← take_loose n st; Some (OInt NoErr, ListState (n :: xs) l)
  | InstTail n => l ← take_loose n st; Some (OInt NoErr, ListState (xs ++ [n]) l)
  | InstById i n =>
      l ← take_loose n st;
      if decide (i < length xs)%nat
      then Some (OInt NoErr, ListState (take (S i) xs ++ n :: drop (S i) xs) l)
      else None
  | DelHead =>
      match xs with
      | [] => Some (OInt ParaErr, st)
      | _ :: ys => Some (OInt NoErr, ListState ys (loose st))
      end
  | DelNode x =>
      '(l1, l2) ← split_at x xs; Some (OInt NoErr, ListState (l1 ++ l2) (loose st))
  | DelResult x =>
      '(l1, l2) ← split_at x xs; Some (OPtr (Some x), ListState (l1 ++ l2) ({[x]} ∪ loose st))
  | SetNode x n =>
      l ← take_loose n st;
      '(l1, l2) ← split_at x xs; Some (OInt NoErr, ListState (l1 ++ n :: l2) l)
  | GetById i => Some (OPtr (xs !! i), st)
  | GetIndex x =>
      Some (OInt (match xs with
                  | [] => SceneGetErr
                  | _ => match list_find (x =.) xs with
                         | Some (i, _) => Z.of_nat i
                         | None => NotFoundErr
                         end
                  end), st)
  | First => Some (OPtr (head xs), st)
  | Tail_ => Some (OPtr (last (h :: xs)), st)
  | Size => Some (OInt (Z.of_nat (length xs)), st)
  | Clear => Some (OInt NoErr, ListState [] (loose st))
  end.

Fixpoint spec_run (h : positive) (os : list list_op) (st : list_state)
    : option (list list_out * list_state) :=
  match os with
  | [] => Some ([], st)
  | o :: os =>
      '(r, st1) ← spec_step h o st;
      '(rs, st2) ← spec_run h os st1; Some (r :: rs, st2)
  end.

Section refinement.
Context {T V G : Type} `{ListHeap T V}.
Implicit Types (s : heap T G) (st : list_state).

Definition exec_step (this : ptr) (o : list_op) : M (heap T G) list_out :=
  match o with
  | InstHead n => r ← link_list_inst_head this (Some n); mret (OInt r)
  | InstTail n => r ← link_list_inst_tail this (Some n); mret (OInt r)
  | InstById i n => r ← link_list_inst_by_id this (Z.of_nat i) (Some n); mret (OInt r)
  | DelHead => r ← link_list_del_head this; mret (OInt r)
  | DelNode x => r ← link_list_del this (Some x); mret (OInt r)
  | DelResult x => r ← link_list_del_result this (Some x); mret (OPtr r)
  | SetNode x n => r ← link_list_set this (Some x) (Some n); mret (OInt r)
  | GetById i => r ← link_list_get_by_id this (Z.of_nat i); mret (OPtr r)
  | GetIndex x => r ← link_list_get_index this (Some x); mret (OInt r)
  | First => r ← link_list_get_first this; mret (OPtr r)
  | Tail_ => r ← link_list_get_tail this; mret (OPtr r)
  | Size => r ← link_list_size this; mret (OInt r)
  | Clear => r ← link_list_clear this; mret (OInt r)
  end.

Fixpoint exec_run (this : ptr) (os : list list_op) : M (heap T G) (list list_out) :=
  match os with
  | [] => mret []
  | o :: os => r ← exec_step this o; rs ← exec_run this os; mret (r :: rs)
  end.

(** The concrete state of an abstract one: the list represents it and the
    loose nodes are allocated outside it. *)
Definition implements s (this h : positive) st : Prop :=
  list_rep s this h (nodes st) /\
  forall n, n ∈ loose st -> is_Some (node_of s n) /\ n ∉ h :: nodes st.

(** Between two states, nothing but the list's own objects and the loose nodes
    is touched, and the nodes that stay keep their data. *)
Definition only s s' (this h : positive) st st' : Prop :=
  (forall a, a <> this -> a ∉ h :: nodes st -> a ∉ loose st -> cells s' !! a = cells s !! a) /\
  (forall a, a ∈ nodes st' \/ a ∈ loose st' -> data s' a = data s a) /\
  (forall a, a ∈ nodes st' \/ a ∈ loose st' -> a ∈ nodes st \/ a ∈ loose st) /\
  glob s' = glob s.

Lemma split_at_Some x xs l1 l2 : split_at x xs = Some (l1, l2) -> xs = l1 ++ x :: l2.
Proof.
  revert l1. induction xs as [|y ys IH]; intros l1; simpl; [done|].
  destruct (decide (x = y)) as [->|]; [by intros [= <- <-]|].
  destruct (split_at x ys) as [[l l']|]; simpl; [|done].
  intros [= <- <-]. simpl. by rewrite <- IH.
Qed.

Lemma take_loose_Some n st l :
  take_loose n st = Some l -> n ∈ loose st /\ forall m, m ∈ l <-> m ∈ loose st /\ m <> n.
Proof.
  unfold take_loose. case_decide; [|done]. intros [= <-]. split; [done|].
  intros m. rewrite elem_of_difference, elem_of_singleton. done.
Qed.

Lemma implements_step s s' this h st xs' l' D F :
  implements s this h st -> list_rep s' this h xs' -> effect s s' D F ->
  (forall a, D a \/ F a -> a = this \/ a ∈ h :: nodes st \/ a ∈ loose st) ->
  (forall a, a ∈ xs' \/ a ∈ l' -> ~ F a /\ (a ∈ nodes st \/ a ∈ loose st)) ->
  (forall n, n ∈ l' -> n ∉ h :: xs') ->
  implements s' this h (ListState xs' l') /\ only s s' this h st (ListState xs' l').
Proof.
  intros [R Hl] R' E HDF Hin Hout. split; split_and!; simpl.
  - exact R'.
  - intros n Hn. split; [|by apply Hout]. destruct (Hin n ltac:(by right)) as [HF Hst].
    assert (is_Some (node_of s n)) as [m Hm].
    { destruct Hst as [Hst|Hst]; [|by apply Hl]. eapply rep_nodes; [exact R|by right]. }
    pose proof (ef_data _ _ _ _ E n HF) as Hd. unfold data in Hd. rewrite Hm in Hd.
    destruct (node_of s' n); [by eexists|done].
  - intros a Ha Hb Hc. apply (ef_cells _ _ _ _ E); intros Hx; pose proof (HDF a); tauto.
  - intros a Ha. apply (ef_data _ _ _ _ E). by apply Hin.
  - intros a Ha. by apply Hin.
  - by apply (ef_glob _ _ _ _ E).
Qed.

Lemma implements_read s this h st :
  implements s this h st -> implements s this h st /\ only s s this h st st.
Proof. intros Hi. split; [done|]. by split_and!. Qed.

Lemma rep_NoDup_middle s this h l1 x l2 :
  list_rep s this h (l1 ++ x :: l2) -> x ∉ h :: l1 ++ l2.
Proof.
  intros R. pose proof (lr_nodup _ _ _ _ R) as Hnd.
  change (h :: l1 ++ x :: l2) with ((h :: l1) ++ x :: l2) in Hnd.
  rewrite <- Permutation_middle in Hnd. by apply NoDup_cons in Hnd as [? _].
Qed.

Ltac mem := rewrite ?elem_of_cons, ?elem_of_app, ?elem_of_cons, ?elem_of_nil,
              ?elem_of_union, ?elem_of_singleton in *; try tauto.

(** The three insertions. *)
Lemma insert_step (m : M (heap T G) Z) s this h xs lo n l xs' :
  implements s this h (ListState xs lo) -> take_loose n (ListState xs lo) = Some l ->
  xs' ≡ₚ n :: xs ->
  wp m s (fun r s' => r = NoErr /\ list_rep s' this h xs' /\
    agree s s' (fun a => a = this \/ a ∈ h :: xs \/ a = n)) ->
  wp (r ← m; mret (OInt r)) s (fun r s' => r = OInt NoErr /\
    implements s' this h (ListState xs' l) /\ only s s' this h (ListState xs lo) (ListState xs' l)).
Proof.
  intros Hi Ht Hp Hm. apply take_loose_Some in Ht as [Hn Hl]. simpl in *.
  wp_step. eapply wp_mono; [exact Hm|]. intros r1 s1 (-> & R1 & A). wp_steps. split; [done|].
  eapply implements_step; [exact Hi|exact R1|apply agree_effect, A|..]; simpl.
  - intros a [[->|[?| ->]]|[]]; tauto.
  - intros a. rewrite Hp, elem_of_cons, Hl. intros [[->|?]|?]; tauto.
  - intros k. rewrite Hl, elem_of_cons, Hp. intros [Hlo Hne].
    destruct (proj2 Hi k Hlo) as [_ Hx]. mem.
Qed.

(** The removals that free their node. *)
Lemma remove_step (m : M (heap T G) Z) s this h lo l1 x l2 :
  implements s this h (ListState (l1 ++ x :: l2) lo) ->
  wp m s (fun r s' => r = NoErr /\ list_rep s' this h (l1 ++ l2) /\
    effect s s' (fun a => a = this \/ (a ∈ h :: l1 ++ x :: l2 /\ a <> x)) (fun a => a = x)) ->
  wp (r ← m; mret (OInt r)) s (fun r s' => r = OInt NoErr /\
    implements s' this h (ListState (l1 ++ l2) lo) /\
    only s s' this h (ListState (l1 ++ x :: l2) lo) (ListState (l1 ++ l2) lo)).
Proof.
  intros Hi Hm. assert (Hi' := Hi). destruct Hi' as [R Hl]. simpl in R, Hl.
  pose proof (rep_NoDup_middle _ _ _ _ _ _ R) as Hx.
  wp_step. eapply wp_mono; [exact Hm|]. intros r1 s1 (-> & R1 & E). wp_steps. split; [done|].
  eapply implements_step; [exact Hi|exact R1|exact E|..]; simpl.
  - intros a [[->|?]| ->]; [tauto|tauto|]. mem.
  - intros a [Ha|Ha].
    + split; [intros ->|]; mem.
    + split; [intros ->|tauto]. destruct (Hl x Ha). mem.
  - intros n Hn. destruct (Hl n Hn). mem.
Qed.

Lemma del_result_step s this h lo l1 x l2 :
  implements s this h (ListState (l1 ++ x :: l2) lo) ->
  wp (r ← link_list_del_result (Some this) (Some x); mret (OPtr r)) s (fun r s' =>
    r = OPtr (Some x) /\ implements s' this h (ListState (l1 ++ l2) ({[x]} ∪ lo)) /\
    only s s' this h (ListState (l1 ++ x :: l2) lo) (ListState (l1 ++ l2) ({[x]} ∪ lo))).
Proof.
  intros Hi. assert (Hi' := Hi). destruct Hi' as [R Hl]. simpl in R, Hl.
  pose proof (rep_NoDup_middle _ _ _ _ _ _ R) as Hx.
  wp_step. wp_apply del_result_at; [exact R|]. intros r1 s1 (-> & R1 & A & _). wp_steps. split; [done|].
  eapply implements_step; [exact Hi|exact R1|apply agree_effect, A|..]; simpl.
  - intros a [[->|?]|[]]; tauto.
  - intros a Ha. split; [intros []|]. mem.
  - intros n Hn. rewrite elem_of_union, elem_of_singleton in Hn.
    destruct Hn as [->|Hn]; [done|]. destruct (Hl n Hn). mem.
Qed.

Lemma set_step s this h lo l l1 x l2 n :
  implements s this h (ListState (l1 ++ x :: l2) lo) ->
  take_loose n (ListState (l1 ++ x :: l2) lo) = Some l ->
  wp (r ← link_list_set (Some this) (Some x) (Some n); mret (OInt r)) s (fun r s' =>
    r = OInt NoErr /\ implements s' this h (ListState (l1 ++ n :: l2) l) /\
    only s s' this h (ListState (l1 ++ x :: l2) lo) (ListState (l1 ++ n :: l2) l)).
Proof.
  intros Hi Ht. assert (Hi' := Hi). destruct Hi' as [R Hlo]. simpl in R, Hlo.
  apply take_loose_Some in Ht as [Hn Hl]. simpl in *. destruct (Hlo n Hn) as [Hnode Hni].
  pose proof (rep_NoDup_middle _ _ _ _ _ _ R) as Hx.
  wp_step. wp_apply set_spec; [exact R|done|done|]. intros r1 s1 (-> & R1 & E). wp_steps.
  split; [done|]. eapply implements_step; [exact Hi|exact R1|exact E|..]; simpl.
  - intros a [[->|[->|?]]| ->]; [tauto|tauto|tauto|]. mem.
  - intros a. rewrite Hl. assert (n <> x) by (intros ->; mem). intros [Ha|[Ha Hne]].
    + split; [intros ->; mem; destruct Ha as [?|[?|?]]; [tauto|congruence|tauto]|].
      mem. destruct Ha as [?|[->|?]]; tauto.
    + split; [intros ->|tauto]. destruct (Hlo x Ha). mem.
  - intros k. rewrite Hl. intros [Hk Hne]. destruct (Hlo k Hk). mem.
Qed.

Lemma clear_step s this h xs lo :
  implements s this h (ListState xs lo) ->
  wp (r ← link_list_clear (Some this); mret (OInt r)) s (fun r s' =>
    r = OInt NoErr /\ implements s' this h (ListState [] lo) /\
    only s s' this h (ListState xs lo) (ListState [] lo)).
Proof.
  intros Hi. assert (Hi' := Hi). destruct Hi' as [R Hl]. simpl in R, Hl.
  wp_step. wp_apply clear_spec; [exact R|]. intros r1 s1 (-> & R1 & E). wp_steps.
  split; [done|]. eapply implements_step; [exact Hi|exact R1|exact E|..]; simpl.
  - intros a [[->| ->]|?]; mem.
  - intros a [Ha|Ha]; [by apply elem_of_nil in Ha|]. split; [|tauto].
    intros Hin. destruct (Hl a Ha). mem.
  - intros n Hn. destruct (Hl n Hn). mem.
Qed.

Lemma exec_step_spec s this h st o r st' :
  implements s this h st -> spec_step h o st = Some (r, st') ->
  wp (exec_step (Some this) o) s (fun r' s' =>
    r' = r /\ implements s' this h st' /\ only s s' this h st st').
Proof.
  intros Hi Ho. assert (Hi' := Hi). destruct Hi' as [R Hl]. destruct st as [xs lo].
  pose proof (implements_read _ _ _ _ Hi) as Hread.
  assert (Hloose : forall n l, take_loose n (ListState xs lo) = Some l ->
    is_Some (node_of s n) /\ n ∉ h :: xs).
  { intros n l [Hn _]%take_loose_Some. by apply Hl. }
  destruct o; simpl in *.
  - destruct (take_loose n _) as [l|] eqn:Ht; [|done]. injection Ho as <- <-.
    destruct (Hloose n l Ht). eapply insert_step; [exact Hi|exact Ht|done|].
    by apply inst_head_spec.
  - destruct (take_loose n _) as [l|] eqn:Ht; [|done]. injection Ho as <- <-.
    destruct (Hloose n l Ht).
    eapply insert_step; [exact Hi|exact Ht|by rewrite Permutation_app_comm|].
    by apply inst_tail_spec.
  - destruct (take_loose n _) as [l|] eqn:Ht; [|done]. simpl in Ho. case_decide as Hlt; [|done].
    injection Ho as <- <-. destruct (Hloose n l Ht).
    destruct (lookup_lt_is_Some_2 _ _ Hlt) as [x Hx].
    eapply insert_step; [exact Hi|exact Ht| |].
    + rewrite <- Permutation_middle. by rewrite take_drop.
    + pose proof (inst_by_id_spec s this h xs (Z.of_nat i) n x R) as Hs.
      rewrite Nat2Z.id in Hs. apply Hs; [done|done|lia|done].
  - destruct xs as [|x xs]; injection Ho as <- <-.
    + wp_step. wp_apply del_head_spec; [exact R|]. intros r1 s1 [-> ->]. by wp_steps.
    + apply (remove_step _ s this h lo [] x xs Hi). by apply (del_head_spec s this h (x :: xs)).
  - destruct (split_at x xs) as [[l1 l2]|] eqn:Hs; [|done]. injection Ho as <- <-.
    apply split_at_Some in Hs as ->. apply remove_step; [done|]. by apply del_spec.
  - destruct (split_at x xs) as [[l1 l2]|] eqn:Hs; [|done]. injection Ho as <- <-.
    apply split_at_Some in Hs as ->. by apply del_result_step.
  - destruct (take_loose n _) as [l|] eqn:Ht; [|done]. simpl in Ho.
    destruct (split_at x xs) as [[l1 l2]|] eqn:Hs; [|done]. injection Ho as <- <-.
    apply split_at_Some in Hs as ->. by apply set_step.
  - injection Ho as <- <-. wp_step. wp_apply get_by_id_spec; [exact R|lia|].
    intros r1 s1 [-> ->]. wp_steps. by rewrite Nat2Z.id.
  - injection Ho as <- <-. wp_step. wp_apply get_index_spec; [exact R|].
    intros r1 s1 [-> ->]. wp_steps. by destruct xs.
  - injection Ho as <- <-. wp_step. wp_apply get_first_spec; [exact R|].
    intros r1 s1 [-> ->]. by wp_steps.
  - injection Ho as <- <-. wp_step. wp_apply get_tail_spec; [exact R|].
    intros r1 s1 [-> ->]. by wp_steps.
  - injection Ho as <- <-. wp_step. wp_apply size_spec; [exact R|].
    intros r1 s1 [-> ->]. by wp_steps.
  - injection Ho as <- <-. by apply clear_step.
Qed.

Lemma only_trans s1 s2 s3 this h st1 st2 st3 :
  only s1 s2 this h st1 st2 -> only s2 s3 this h st2 st3 -> only s1 s3 this h st1 st3.
Proof.
  intros (C1 & D1 & I1 & G1) (C2 & D2 & I2 & G2). split_and!.
  - intros a Ha Hb Hc. rewrite elem_of_cons in Hb. rewrite C2, C1; try done.
    + rewrite elem_of_cons. tauto.
    + rewrite elem_of_cons. intros [->|Hin]; [tauto|]. pose proof (I1 a). tauto.
    + intros Hin. pose proof (I1 a). tauto.
  - intros a Ha. rewrite (D2 a Ha). apply D1. by apply I2.
  - intros a Ha. by apply I1, I2.
  - by rewrite G2.
Qed.
End refinement.

(** ** Properties *)

(** The first element a predicate accepts. *)
Definition first_such (f : positive -> bool) (xs : list positive) : ptr :=
  snd <$> list_find f xs.

Section properties.
Context {T V G : Type} `{ListHeap T V}.
Implicit Types (s : heap T G) (st : list_state).

(** C35: every sequence of list operations that respects ownership (insert only
    nodes held outside the list, delete only nodes of the list) runs without a
    fault and terminates, returns what the operations on the abstract list
    return, and leaves every other object and the data of every remaining node
    unchanged. *)
Theorem link_list_refines_list s this h st os rs st' :
  implements s this h st -> spec_run h os st = Some (rs, st') ->
  wp (exec_run (Some this) os) s (fun rs' s' =>
    rs' = rs /\ implements s' this h st' /\ only s s' this h st st').
Proof.
  revert s st rs. induction os as [|o os IH]; intros s st rs Hi Hr; simpl in *.
  { injection Hr as <- <-. wp_steps. split; [done|by apply implements_read]. }
  destruct (spec_step h o st) as [[r st1]|] eqn:Ho; [|done]. simpl in Hr.
  destruct (spec_run h os st1) as [[rs2 st2]|] eqn:Hos; [|done]. injection Hr as <- <-.
  wp_step. wp_apply exec_step_spec; [exact Hi|exact Ho|]. intros r1 s1 (-> & Hi1 & O1).
  wp_step. wp_apply IH; [exact Hi1|exact Hos|]. intros rs1 s2 (-> & Hi2 & O2). wp_steps.
  split_and!; [done|done|]. by eapply only_trans.
Qed.

(** A search with a client's comparison visits the list from its first
    node and returns the first node the comparison accepts, or NULL; a
    comparison that only reads leaves the whole heap unchanged. *)
Theorem link_list_get_finds_first s this h xs cmp prm (f : positive -> bool) :
  list_rep s this h xs ->
  (forall x, x ∈ xs ->
     exists r, cmp (Some x) (Some prm) s = Val (r, s) /\ (r = 0 <-> f x = true)) ->
  link_list_get (Some this) (Some cmp) (Some prm) s = Val (first_such f xs, s).
Proof.
  intros R Hcmp.
  assert (wp (link_list_get (Some this) (Some cmp) (Some prm)) s
    (fun r s' => r = first_such f xs /\ s' = s)) as (r & s' & Hr & -> & ->)%wp_run; [|done].
  apply get_spec with (h := h); [done|]. intros x Hx.
  destruct (Hcmp x Hx) as (r & Hr & Hf). unfold wp. rewrite Hr. split; [|done].
  unfold truth. destruct (Z.eqb_spec r 0), (f x); simpl; intuition congruence.
Qed.

(** The constructor gives an empty list on two fresh objects or NULL, and
    the destructor of a list frees its class object, its sentinel and every node
    still in it, and nothing else. *)
Theorem link_list_lifecycle s size ns :
  heap_wf s -> 0 <= size -> NoDup ns -> (forall n, n ∈ ns -> is_Some (node_of s n)) ->
  wp (this ← new_link_list size;
      if is_null this then mret NULL else
      exec_run this (InstTail <$> ns) ;;
      destroy_link_list this ;;
      mret this) s (fun r s' =>
    glob s' = glob s /\
    (r = NULL /\ cells s' = cells s \/
     r <> NULL /\ forall a, cells s' !! a = if decide (a ∈ ns) then None else cells s !! a)).
Proof.
  intros Hwf Hs Hnd Hns. wp_step. wp_apply new_link_list_spec; [exact Hwf|exact Hs|].
  intros r s1 (_ & Hg & [[-> Hc]|(this & h & -> & R & _ & Ht & Hh & Hfr)]); c_red.
  { wp_steps. split; [done|by left]. }
  assert (Hne : forall n, n ∈ ns -> n <> this /\ n <> h).
  { intros n Hn. destruct (Hns n Hn) as [m (t & Hct & _)%node_of_Some]. split; congruence. }
  assert (Hinst : forall ms us s2, ns = us ++ ms -> list_rep s2 this h us ->
    (forall n, n ∈ ns -> is_Some (node_of s2 n)) ->
    wp (exec_run (Some this) (InstTail <$> ms)) s2 (fun _ s3 => list_rep s3 this h ns /\
      glob s3 = glob s2 /\
      forall a, a <> this -> a <> h -> a ∉ ns -> cells s3 !! a = cells s2 !! a)).
  { induction ms as [|m ms IH]; intros us s2 Heq R2 Hn2; simpl.
    { wp_steps. rewrite app_nil_r in Heq. by rewrite Heq. }
    assert (m ∈ ns) as Hm by (rewrite Heq; in_list).
    wp_step. wp_step. wp_apply inst_tail_spec; [exact R2|by apply Hn2| |].
    { rewrite elem_of_cons. intros [->|Hin]; [by destruct (Hne h Hm)|].
      rewrite Heq in Hnd. apply NoDup_app in Hnd as (_ & Hd & _). apply (Hd m Hin). by left. }
    intros r s3 (-> & R3 & A3). wp_steps.
    wp_apply (IH (us ++ [m]) s3); [by rewrite <- app_assoc|exact R3| |].
    { intros n Hn. destruct (Hn2 n Hn) as [x Hx]. pose proof (ag_data _ _ _ A3 n) as Hd.
      unfold data in Hd. rewrite Hx in Hd. destruct (node_of s3 n); [by eexists|done]. }
    intros rs s4 (R4 & G4 & F4). wp_steps. split_and!; [done|by rewrite G4, (ag_glob _ _ _ A3)|].
    intros a Ha Hb Hc. rewrite F4 by done. apply (ag_cells _ _ _ A3).
    rewrite elem_of_cons. intros [->|[[->|Hin]| ->]]; [done..| |done].
    apply Hc. rewrite Heq. in_list. }
  wp_step. eapply wp_mono; [apply (Hinst ns [] s1); [done|exact R|]|].
  { intros n Hn. destruct (Hne n Hn) as [Hn1 Hn2]. destruct (Hns n Hn) as [m Hm].
    exists m. unfold node_of in *. by rewrite Hfr. }
  intros _ s2 (R2 & G2 & F2). wp_step. wp_apply destroy_link_list_spec; [exact R2|].
  intros r s3 (_ & E). wp_steps. split; [by rewrite (ef_glob _ _ _ _ E), G2|]. right. split; [done|].
  intros a. destruct (decide (a ∈ ns)) as [Hin|Hin].
  { apply (ef_freed _ _ _ _ E). in_list. }
  destruct (decide (a = this)) as [->|]; [rewrite Ht; apply (ef_freed _ _ _ _ E); by left|].
  destruct (decide (a = h)) as [->|]; [rewrite Hh; apply (ef_freed _ _ _ _ E); in_list|].
  rewrite (ef_cells _ _ _ _ E), F2, Hfr; [done..| |tauto|]; rewrite ?elem_of_cons; tauto.
Qed.
End properties.

(** ** A concrete heap: nodes that carry an integer *)

Inductive demo_obj : Type := DPiece (p : piece Z) | DClass (c : list_class).

#[export, refine] Instance demo_heap : ListHeap demo_obj Z := {
  of_piece := DPiece;
  to_piece o := match o with DPiece p => Some p | _ => None end;
  of_class := DClass;
  to_class o := match o with DClass c => Some c | _ => None end;
  vzero _ := 0
}.
Proof.
  all: try done.
  - by intros [] ? [= ->].
  - by intros [] ? [= ->].
Defined.

(** The empty list 1 with the sentinel 2, and the loose nodes 3, 4 and 5. *)
Definition demo : heap demo_obj unit :=
  Heap (list_to_map ((1%positive, DClass (ListClass (Some 2%positive) (Some 2%positive) 0 16)) ::
                     (2%positive, DPiece (Piece (Some 2%positive) (Some 2%positive) 0)) ::
                     ((fun n => (n, DPiece (Piece NULL NULL (Zpos n)))) <$> [3; 4; 5]%positive)))
       6 [] tt.

Lemma demo_implements : implements demo 1 2 (ListState [] {[3%positive; 4%positive; 5%positive]}).
Proof.
  split; simpl.
  - constructor; [by eexists|done|done|apply NoDup_singleton].
  - intros n Hn. rewrite !elem_of_union, !elem_of_singleton in Hn.
    rewrite list_elem_of_singleton. destruct Hn as [[->| ->]| ->]; (split; [by eexists|done]).
Qed.

Lemma link_list_refines_list_witness :
  wp (exec_run (Some 1%positive) [InstTail 3; InstHead 4; GetById 1; DelNode 4; Size]) demo
    (fun rs s' => rs = [OInt 0; OInt 0; OPtr (Some 3%positive); OInt 0; OInt 1] /\
      implements s' 1 2 (ListState [3%positive] ({[3%positive; 4%positive; 5%positive]} ∖ {[3%positive]} ∖ {[4%positive]})) /\
      only demo s' 1 2 (ListState [] {[3%positive; 4%positive; 5%positive]})
        (ListState [3%positive] ({[3%positive; 4%positive; 5%positive]} ∖ {[3%positive]} ∖ {[4%positive]}))).
Proof.
  apply (link_list_refines_list demo 1 2 (ListState [] {[3%positive; 4%positive; 5%positive]})
    [InstTail 3; InstHead 4; GetById 1; DelNode 4; Size]).
  - apply demo_implements.
  - vm_compute. reflexivity.
Defined.

Lemma link_list_get_finds_first_witness :
  link_list_get (Some 1%positive) (Some (fun p _ => mret (if decide (p = NULL) then 0 else 1)))
    (Some 3%positive) demo
  = Val (first_such (fun _ => false) [], demo).
Proof.
  apply (link_list_get_finds_first demo 1 2 [] _ 3 (fun _ => false)).
  - apply demo_implements.
  - intros x Hx. by apply elem_of_nil in Hx.
Defined.

Lemma link_list_lifecycle_witness :
  wp (this ← new_link_list 16;
      if is_null this then mret NULL else
      exec_run this (InstTail <$> [3; 4]%positive) ;;
      destroy_link_list this ;;
      mret this) demo (fun r s' =>
    glob s' = glob demo /\
    (r = NULL /\ cells s' = cells demo \/
     r <> NULL /\ forall a, cells s' !! a = if decide (a ∈ [3; 4]%positive) then None else cells demo !! a)).
Proof.
  apply (link_list_lifecycle demo 16 [3; 4]%positive).
  - intros a Ha. simpl in Ha. unfold demo; simpl. by rewrite !lookup_insert_ne by lia.
  - lia.
  - by apply (bool_decide_unpack _).
  - intros n [->|[->|[]%elem_of_nil]%elem_of_cons]%elem_of_cons; by eexists.
Defined.
