(* ===== verification/CString.v ===== *)
(** C strings: byte strings without the terminating NUL, the functions of
    <string.h> the program uses on them, and its own helpers of
    src/hylink/src/local_scene/tool.c. *)
From stdpp Require Import strings.
From Stdlib Require Import Ascii.
From S2P Require Import Prelude.

(** [strncpy(dst, src, n)]: the first [n] bytes of the text.  An array of [n]
    bytes holds the texts of up to [n]: it is terminated if the text is shorter,
    and a text of exactly [n] stands for an array without a NUL.  A function
    that is given the length [n] reads no further than the array, whichever it
    is; one that is not reads past an array that is not terminated. *)
Fixpoint str_take (n : nat) (s : string) : string :=
  match n, s with
  | S n, String c s => String c (str_take n s)
  | _, _ => EmptyString
  end.

(** Whether an array of [n] bytes is terminated by the text it holds. *)
Definition ended (n : nat) (s : string) : bool := (String.length s <? n)%nat.

(** [strcmp(a, b) == 0] and [strncmp(a, b, n) == 0]. *)
Definition str_eq (a b : string) : bool := bool_decide (a = b).
Definition strn_eq (n : nat) (a b : string) : bool := bool_decide (str_take n a = str_take n b).

(** [strcasecmp(a, b) == 0], in the "C" locale. *)
Definition lower_char (c : ascii) : ascii :=
  let n := N_of_ascii c in
  if ((65 <=? n) && (n <=? 90))%N then ascii_of_N (n + 32) else c.
Fixpoint lower (s : string) : string :=
  match s with EmptyString => EmptyString | String c s => String (lower_char c) (lower s) end.
Definition strcase_eq (a b : string) : bool := bool_decide (lower a = lower b).

(** The value of a [char]: whether it is signed is the implementation's choice. *)
Definition char_val (signed : bool) (c : ascii) : Z :=
  let z := Z.of_N (N_of_ascii c) in
  if signed && (128 <=? z) then z - 256 else z.

Lemma str_take_short n s : (String.length s <= n)%nat -> str_take n s = s.
Proof.
  revert n. induction s as [|c s IH]; intros [|n] Hn; simpl in *; [done|done|lia|].
  rewrite IH; [done|lia].
Qed.

Lemma str_take_length n s : (String.length (str_take n s) <= n)%nat.
Proof.
  revert n. induction s as [|c s IH]; intros [|n]; simpl; [lia..|].
  specialize (IH n). lia.
Qed.

Lemma str_take_take n s : str_take n (str_take n s) = str_take n s.
Proof. apply str_take_short, str_take_length. Qed.

(** * tool.c *)

Definition char_code (c : ascii) : Z := Z.of_N (N_of_ascii c).
Definition is_digit (c : ascii) : bool := (48 <=? char_code c) && (char_code c <=? 57).

(** [is_int]: every character a digit; the empty string passes. *)
Fixpoint is_int (str : string) : Z :=
  match str with
  | EmptyString => 1
  | String c s => if negb (is_digit c) then 0 else is_int s
  end.

(** [is_float]: digits and exactly one point.  [iCount] counts the points. *)
Fixpoint is_float_loop (str : string) (iCount : Z) : Z :=
  match str with
  | EmptyString => if 1 =? iCount then 1 else 0
  | String c s =>
      if negb (is_digit c) then
        if char_code c =? 46 then is_float_loop s (iCount + 1) else 0
      else is_float_loop s iCount
  end.
Definition is_float (str : string) : Z := is_float_loop str 0.

Definition time_cmp (iHour_1 iMinu_1 iHour_2 iMinu_2 : Z) : Z :=
  if iHour_2 <? iHour_1 then 1
  else if iHour_1 <? iHour_2 then -1
  else if iMinu_2 <? iMinu_1 then 1
  else if iMinu_1 <? iMinu_2 then -1
  else 0.

(** [time_cmp] orders times by the minute of the day when minutes are below
    sixty. *)
Lemma time_cmp_spec h1 m1 h2 m2 :
  0 <= m1 < 60 -> 0 <= m2 < 60 ->
  time_cmp h1 m1 h2 m2 = Z.sgn ((60 * h1 + m1) - (60 * h2 + m2)).
Proof.
  intros H1 H2. unfold time_cmp.
  destruct (Z.ltb_spec h2 h1); [symmetry; apply Z.sgn_pos; lia|].
  destruct (Z.ltb_spec h1 h2); [symmetry; apply Z.sgn_neg; lia|].
  destruct (Z.ltb_spec m2 m1); [symmetry; apply Z.sgn_pos; lia|].
  destruct (Z.ltb_spec m1 m2); [symmetry; apply Z.sgn_neg; lia|].
  symmetry. apply Z.sgn_null. lia.
Qed.

(** * The Standard Library's conversions, as the program uses them *)

Definition is_space (c : ascii) : bool :=
  let z := char_code c in (z =? 32) || ((9 <=? z) && (z <=? 13)).
Fixpoint skip_space (s : string) : string :=
  match s with
  | String c s' => if is_space c then skip_space s' else s
  | EmptyString => s
  end.
(** An optional sign: its value and the rest. *)
Definition read_sign (s : string) : Z * string :=
  match s with
  | String c s' =>
      if char_code c =? 45 then (-1, s')
      else if char_code c =? 43 then (1, s') else (1, s)
  | EmptyString => (1, s)
  end.
(** The digits at the head of [s]: the number they write after [acc], how many
    they are, and the rest. *)
Fixpoint read_digits (s : string) (acc : Z) (n : nat) : Z * nat * string :=
  match s with
  | String c s' =>
      if is_digit c then read_digits s' (acc * 10 + (char_code c - 48)) (S n) else (acc, n, s)
  | EmptyString => (acc, n, s)
  end.

(** [atoi] of a number that an [int] holds. *)
Definition atoi (s : string) : Z :=
  let '(sg, s) := read_sign (skip_space s) in
  let '(v, _, _) := read_digits s 0 0 in sg * v.

(** [atof] of a decimal number without exponent: the exact rational, as a
    numerator over a power of ten. *)
Definition atof (s : string) : Z * nat :=
  let '(sg, s) := read_sign (skip_space s) in
  let '(v, _, s) := read_digits s 0 0 in
  match s with
  | String c s' =>
      if char_code c =? 46 then
        let '(w, k, _) := read_digits s' v 0 in (sg * w, k)
      else (sg * v, 0%nat)
  | EmptyString => (sg * v, 0%nat)
  end.
Definition pow10 (k : nat) : Z := 10 ^ Z.of_nat k.
(** [x > y], and [fabs(x - y) < 0.0001], [fabs(x - y) > 0.0001]. *)
Definition dgt (x y : Z * nat) : bool := y.1 * pow10 x.2 <? x.1 * pow10 y.2.
Definition ddist (x y : Z * nat) : Z := Z.abs (x.1 * pow10 y.2 - y.1 * pow10 x.2) * 10000.
Definition dnear (x y : Z * nat) : bool := ddist x y <? pow10 x.2 * pow10 y.2.
Definition dfar (x y : Z * nat) : bool := pow10 x.2 * pow10 y.2 <? ddist x y.

(** [strcmp]: the sign of the first difference of the bytes. *)
Fixpoint strcmp (a b : string) : Z :=
  match a, b with
  | EmptyString, EmptyString => 0
  | EmptyString, _ => -1
  | _, EmptyString => 1
  | String c a, String d b =>
      if char_code c <? char_code d then -1
      else if char_code d <? char_code c then 1 else strcmp a b
  end.

(** [strstr(s, pat) != NULL] *)
Fixpoint starts_with (pat s : string) : bool :=
  match pat, s with
  | EmptyString, _ => true
  | String c p, String d s => Ascii.eqb c d && starts_with p s
  | _, _ => false
  end.
Fixpoint strstr (s pat : string) : bool :=
  starts_with pat s || match s with String _ s' => strstr s' pat | EmptyString => false end.

(** The tokens [strtok_r] cuts at commas: the longest runs without one. *)
Fixpoint tokens_from (s cur : string) : list string :=
  match s with
  | EmptyString => if bool_decide (cur = EmptyString) then [] else [cur]
  | String c s' =>
      if char_code c =? 44
      then (if bool_decide (cur = EmptyString) then [] else [cur]) ++ tokens_from s' EmptyString
      else tokens_from s' (cur +:+ String c EmptyString)
  end.
Definition tokens (s : string) : list string := tokens_from s EmptyString.

Lemma strcmp_eq a b : strcmp a b = 0 <-> a = b.
Proof.
  revert b. induction a as [|c a IH]; intros [|d b]; simpl; try done.
  unfold char_code. destruct (Z.ltb_spec (Z.of_N (N_of_ascii c)) (Z.of_N (N_of_ascii d))).
  { split; [done|]. intros [= -> ->]. lia. }
  destruct (Z.ltb_spec (Z.of_N (N_of_ascii d)) (Z.of_N (N_of_ascii c))).
  { split; [done|]. intros [= -> ->]. lia. }
  assert (Hcd : c = d).
  { rewrite <- (ascii_N_embedding c), <- (ascii_N_embedding d). f_equal. lia. }
  subst d. rewrite IH. split; [by intros ->|by intros [= ->]].
Qed.

Example tokens_example : tokens "Mon,,Tue," = ["Mon"; "Tue"]%string.
Proof. reflexivity. Qed.
Example atoi_example : atoi " -42x" = -42.
Proof. reflexivity. Qed.
Example atof_example : dgt (atof "21.5") (atof "21.45") = true.
Proof. reflexivity. Qed.
