(* ===== verification/Base64.v ===== *)
(** The base64 coding of src/hylink/hytoolsdk/src/misc/misc_api.c: the actions
    that push raw data to a device carry it in this coding. *)
From stdpp Require Import strings.
From Stdlib Require Import Ascii.
From S2P Require Import Prelude CString.

(** [unsigned char] and [char] data as codes from 0 to 255. *)
Fixpoint codes (s : string) : list Z :=
  match s with EmptyString => [] | String c s => char_code c :: codes s end.

Definition base64char : list Z :=
  codes "ABCDEFGHIJKLMNOPQRSTUVWXYZabcdefghijklmnopqrstuvwxyz0123456789+/".
Definition char_of (current : Z) : Z := nth (Z.to_nat current) base64char 0.
Definition equals_sign : Z := 61.

Fixpoint base64_encode (bindata : list Z) : list Z :=
  match bindata with
  | [] => []
  | b0 :: bs =>
      let c0 := Z.land (Z.shiftr b0 2) 0x3F in
      let c1 := Z.land (u8 (Z.shiftl b0 4)) 0x30 in
      match bs with
      | [] => [char_of c0; char_of c1; equals_sign; equals_sign]
      | b1 :: bs =>
          let c1 := Z.lor c1 (Z.land (Z.shiftr b1 4) 0x0F) in
          let c2 := Z.land (u8 (Z.shiftl b1 2)) 0x3C in
          match bs with
          | [] => [char_of c0; char_of c1; char_of c2; equals_sign]
          | b2 :: bs =>
              let c2 := Z.lor c2 (Z.land (Z.shiftr b2 6) 0x03) in
              let c3 := Z.land b2 0x3F in
              char_of c0 :: char_of c1 :: char_of c2 :: char_of c3 :: base64_encode bs
          end
      end
  end.

(** [temp[..]]: the place of a character in the table, the last one that fits,
    or 0xFF. *)
Definition temp_of (c : Z) : Z :=
  foldl (fun t k => if nth k base64char 0 =? c then Z.of_nat k else t) 0xFF (seq 0 64).

(** The buffer [base64] ends somewhere behind its terminating zero; every group
    reads four of its characters. *)
Fixpoint base64_decode {S} (base64 : list Z) : M S (list Z) :=
  match base64 with
  | [] => fail OutOfBounds
  | x0 :: xs =>
      if x0 =? 0 then mret [] else
      match xs with
      | x1 :: x2 :: x3 :: xs =>
          let t0 := temp_of x0 in let t1 := temp_of x1 in
          let t2 := temp_of x2 in let t3 := temp_of x3 in
          let b0 := Z.lor (Z.land (u8 (Z.shiftl t0 2)) 0xFC) (Z.land (Z.shiftr t1 4) 0x03) in
          if x2 =? equals_sign then mret [b0] else
          let b1 := Z.lor (Z.land (u8 (Z.shiftl t1 4)) 0xF0) (Z.land (Z.shiftr t2 2) 0x0F) in
          if x3 =? equals_sign then mret [b0; b1] else
          let b2 := Z.lor (Z.land (u8 (Z.shiftl t2 6)) 0xF0) (Z.land t3 0x3F) in
          bs ← base64_decode xs;
          mret (b0 :: b1 :: b2 :: bs)
      | _ => fail OutOfBounds
      end
  end.

(** * Round trip *)

Definition byte (b : Z) : Prop := 0 <= b < 256.

(** What holds of the numbers below [n] by evaluation. *)
Definition below_all (n : nat) (P : Z -> bool) : bool := forallb P (Z.of_nat <$> seq 0 n).
Lemma below_all_spec n P i : below_all n P = true -> 0 <= i < Z.of_nat n -> P i = true.
Proof.
  unfold below_all. rewrite forallb_forall. intros H Hi. apply H, list_elem_of_In, list_elem_of_fmap.
  exists (Z.to_nat i). split; [lia|]. apply elem_of_seq. lia.
Qed.

Lemma char_of_spec i : 0 <= i < 64 ->
  temp_of (char_of i) = i /\ (char_of i =? 0) = false /\ (char_of i =? equals_sign) = false.
Proof.
  intros Hi.
  assert (((temp_of (char_of i) =? i) && negb (char_of i =? 0) && negb (char_of i =? equals_sign)) = true) as H.
  { apply (below_all_spec 64 (fun i => (temp_of (char_of i) =? i) && negb (char_of i =? 0) &&
      negb (char_of i =? equals_sign)) i); [vm_compute; reflexivity|exact Hi]. }
  apply andb_true_iff in H as [[H1%Z.eqb_eq H2%negb_true_iff]%andb_true_iff H3%negb_true_iff]. done.
Qed.

(** The parts of the bytes that the four characters carry. *)
Definition part0 (a : Z) : Z := Z.land (Z.shiftr a 2) 0x3F.
Definition part1 (a b : Z) : Z := Z.lor (Z.land (u8 (Z.shiftl a 4)) 0x30) (Z.land (Z.shiftr b 4) 0x0F).
Definition part2 (b c : Z) : Z := Z.lor (Z.land (u8 (Z.shiftl b 2)) 0x3C) (Z.land (Z.shiftr c 6) 0x03).
Definition part3 (c : Z) : Z := Z.land c 0x3F.
Definition join0 (t0 t1 : Z) : Z := Z.lor (Z.land (u8 (Z.shiftl t0 2)) 0xFC) (Z.land (Z.shiftr t1 4) 0x03).
Definition join1 (t1 t2 : Z) : Z := Z.lor (Z.land (u8 (Z.shiftl t1 4)) 0xF0) (Z.land (Z.shiftr t2 2) 0x0F).
Definition join2 (t2 t3 : Z) : Z := Z.lor (Z.land (u8 (Z.shiftl t2 6)) 0xF0) (Z.land t3 0x3F).

(** Equations between bytes, bit by bit. *)
Ltac bit_const :=
  match goal with
  | |- context [Z.testbit ?x (?a - ?b)] => let v := eval cbv in (a - b) in change (Z.testbit x (a - b)) with (Z.testbit x v)
  | |- context [Z.testbit ?x (?a + ?b)] => let v := eval cbv in (a + b) in change (Z.testbit x (a + b)) with (Z.testbit x v)
  | |- context [Z.testbit (Zpos ?c) ?m] => let v := eval cbv in (Z.testbit (Zpos c) m) in change (Z.testbit (Zpos c) m) with v
  | |- context [Z.testbit ?x (Zneg ?m)] => rewrite (Z.testbit_neg_r x (Zneg m)) by lia
  end.
Ltac bit_norm :=
  repeat first [ rewrite Z.lor_spec | rewrite Z.land_spec | rewrite Z.shiftr_spec by lia
               | rewrite Z.mod_pow2_bits_low by lia | rewrite Z.shiftl_spec by lia | bit_const
               | rewrite andb_true_r | rewrite andb_false_r | rewrite orb_false_r | rewrite orb_false_l ].
Ltac bit_eq :=
  apply Z.bits_inj'; intros m Hm; unfold u8;
  destruct (Z.ltb_spec m 8) as [Hlt|Hge];
  [ assert (m = 0 \/ m = 1 \/ m = 2 \/ m = 3 \/ m = 4 \/ m = 5 \/ m = 6 \/ m = 7) as Hbit by lia;
    destruct_or! Hbit; subst m; bit_norm
  | rewrite ?Z.lor_spec, ?Z.land_spec, ?(Z.bits_above_log2 (Zpos _)) by (cbn; lia);
    rewrite ?andb_false_r; try reflexivity ].

Lemma byte_high b m : byte b -> 8 <= m -> Z.testbit b m = false.
Proof. intros Hb Hm. rewrite <- (Z.mod_small b (2 ^ 8)) by exact Hb. apply Z.mod_pow2_bits_high. lia. Qed.

Lemma land63_range x : Z.land x 0x3F = x -> 0 <= x < 64.
Proof. intros <-. change 0x3F with (Z.ones 6). rewrite Z.land_ones by lia. apply Z.mod_pos_bound. lia. Qed.
Lemma part0_range a : 0 <= part0 a < 64.
Proof. apply land63_range. unfold part0. by rewrite <- Z.land_assoc. Qed.
Lemma part1_range a b : 0 <= part1 a b < 64.
Proof. apply land63_range. unfold part1. by rewrite Z.land_lor_distr_l, <- !Z.land_assoc. Qed.
Lemma part2_range b c : 0 <= part2 b c < 64.
Proof. apply land63_range. unfold part2. by rewrite Z.land_lor_distr_l, <- !Z.land_assoc. Qed.
Lemma part3_range c : 0 <= part3 c < 64.
Proof. apply land63_range. unfold part3. by rewrite <- Z.land_assoc. Qed.

Lemma join0_spec a b : byte a -> join0 (part0 a) (part1 a b) = a.
Proof. intros Ha. unfold join0, part0, part1. bit_eq; try done. by rewrite byte_high. Qed.
Lemma join1_spec a b c : byte b -> join1 (part1 a b) (part2 b c) = b.
Proof. intros Hb. unfold join1, part1, part2. bit_eq; try done. by rewrite byte_high. Qed.
Lemma join2_spec b c : byte c -> join2 (part2 b c) (part3 c) = c.
Proof. intros Hc. unfold join2, part2, part3. bit_eq; try done. by rewrite byte_high. Qed.

Lemma part1_zero a : Z.lor (Z.land (u8 (Z.shiftl a 4)) 0x30) 0 = part1 a 0.
Proof. done. Qed.

(** Decoding the four characters of a group. *)
Lemma char_group {S} i0 i1 x2 x3 xs (s : S) Q :
  0 <= i0 < 64 -> 0 <= i1 < 64 ->
  wp (if x2 =? equals_sign then mret [join0 i0 i1]
      else if x3 =? equals_sign then mret [join0 i0 i1; join1 i1 (temp_of x2)]
      else bs ← base64_decode xs;
           mret (join0 i0 i1 :: join1 i1 (temp_of x2) :: join2 (temp_of x2) (temp_of x3) :: bs)) s Q ->
  wp (base64_decode (char_of i0 :: char_of i1 :: x2 :: x3 :: xs)) s Q.
Proof.
  intros H0 H1 HQ. cbn [base64_decode].
  destruct (char_of_spec i0 H0) as (Ht0 & -> & _). destruct (char_of_spec i1 H1) as (Ht1 & _).
  rewrite Ht0, Ht1. exact HQ.
Qed.

(** Decoding what [base64_encode] has written gives the bytes back, for
    every length, and reads nothing behind the terminating zero. *)
Theorem base64_roundtrip {S} (bs rest : list Z) (s : S) :
  Forall byte bs ->
  wp (base64_decode (base64_encode bs ++ 0 :: rest)) s (fun r s' => r = bs /\ s' = s).
Proof.
  intros Hbs. assert (exists n, (length bs < n)%nat) as [n Hn] by (eexists; apply Nat.lt_succ_diag_r).
  revert bs s Hbs Hn. induction n as [|n IH]; intros bs s Hbs Hn; [lia|].
  destruct bs as [|a [|b [|c bs]]]; cbn [base64_encode app].
  - by apply wp_ret.
  - apply Forall_cons in Hbs as [Ha _]. fold (part0 a). rewrite <- (Z.lor_0_r (Z.land _ 0x30)), part1_zero.
    apply char_group; [apply part0_range|apply part1_range|]. cbn [Z.eqb equals_sign Pos.eqb].
    apply wp_ret. by rewrite join0_spec.
  - apply Forall_cons in Hbs as [Ha [Hb _]%Forall_cons]. fold (part0 a) (part1 a b).
    rewrite <- (Z.lor_0_r (Z.land _ 0x3C)). change (Z.lor _ 0) with (part2 b 0).
    destruct (char_of_spec _ (part2_range b 0)) as (T2 & _ & E2).
    apply char_group; [apply part0_range|apply part1_range|]. rewrite E2, T2.
    change (equals_sign =? equals_sign) with true. apply wp_ret. by rewrite join0_spec, join1_spec.
  - apply Forall_cons in Hbs as [Ha [Hb [Hc Hbs]%Forall_cons]%Forall_cons].
    fold (part0 a) (part1 a b) (part2 b c) (part3 c).
    destruct (char_of_spec _ (part2_range b c)) as (T2 & _ & E2).
    destruct (char_of_spec _ (part3_range c)) as (T3 & _ & E3).
    apply char_group; [apply part0_range|apply part1_range|]. rewrite E2, E3, T2, T3. wp_step.
    eapply wp_mono; [apply IH; [done|simpl in Hn; lia]|]. intros r s' [-> ->]. wp_steps.
    by rewrite join0_spec, join1_spec, join2_spec.
Qed.

Lemma base64_roundtrip_witness :
  wp (base64_decode (base64_encode [77; 97; 110; 255; 0] ++ [0])) tt (fun r s' => r = [77; 97; 110; 255; 0] /\ s' = tt).
Proof.
  apply (base64_roundtrip [77; 97; 110; 255; 0] [] tt).
  repeat constructor; lia.
Defined.
