(* ===== verification/HashTable.v ===== *)
(** The hash table of src/hylink/src/local_scene/hashtable.c. *)
From stdpp Require Import gmap strings.
From Stdlib Require Import Ascii.
From S2P Require Import Prelude Heap CString.

Definition HASH_KEY_MAX_LEN : nat := 128.

(** [hash_elem_t].  A bucket is the list of the elements of a slot of the table
    and its chain, in order; the empty bucket is a slot with [ucUsed] 0. *)
Record hash_elem : Type := HashElem { acKey : string; pValue : ptr }.
Abbreviation bucket := (list hash_elem).

(** [hash_table_class_t] with its private parameters. *)
Record hash_table : Type := HashTable {
  uiHashTableSize : Z;
  ucDilatationEnable : bool;
  uiUsedCount : Z;
  uiConflict : Z;
  pstHashTable : list bucket
}.

(** [pauiSizeList] *)
Definition pauiSizeList : list Z :=
  [53; 97; 193; 389; 769; 1543; 3079; 6151; 12289; 24593; 49157; 98317; 196613;
   393241; 786443; 1572869; 3145739; 6291469; 12582917; 25165842; 50331553;
   100663319; 201326611; 402653189; 805306457; 1610612741].

(** A heap with hash table objects. *)
Class HashHeap (T : Type) : Type := {
  of_hash : hash_table -> T;
  to_hash : T -> option hash_table;
  to_of_hash h : to_hash (of_hash h) = Some h
}.

Section ops.
Context {T G : Type} `{HashHeap T}.
(* whether [char] is signed, and the handle given to the constructor *)
Context (char_signed : bool) (pFreeValueHandle : option (ptr -> M (heap T G) Z)).
Abbreviation mem := (heap T G).
Abbreviation L A := (M mem A).

Definition this_ (p : ptr) : L hash_table := load to_hash p.
Definition set_this (p : ptr) (h : hash_table) : L unit := store p (of_hash h).

(** [hash]: BKDR on unsigned 32-bit arithmetic. *)
Fixpoint bkdr (uiHash : Z) (s : string) : Z :=
  match s with
  | EmptyString => uiHash
  | String c s => bkdr (u32 (uiHash * 131 + char_val char_signed c)) s
  end.
Definition hash (pcKey : string) (iSize : Z) : Z := bkdr 0 pcKey mod iSize.

Definition hash_is_empty (this : ptr) : L Z :=
  if is_null this then mret ParaErr else
  h ← this_ this; mret (if truth (uiUsedCount h) then 0 else 1).

Definition hash_size (this : ptr) : L Z :=
  if is_null this then mret ParaErr else
  h ← this_ this; mret (s32 (uiUsedCount h + uiConflict h)).

(** The tables an insertion builds: buckets, used slots, conflicts. *)
Definition tables : Type := (list bucket * Z * Z)%type.

(** The insertion of one element: into its slot when it is free, otherwise, with
    a node of its own, at the end of the chain.  [None] when the node cannot be
    allocated. *)
Definition hash_put (t : tables) (uiHash : Z) (key : string) (v : ptr) : L (option tables) :=
  let '(bs, used, conflict) := t in
  b ← get_or OutOfBounds (bs !! Z.to_nat uiHash);
  let new := HashElem (str_take (HASH_KEY_MAX_LEN - 1) key) v in
  match b with
  | [] => mret (Some (<[Z.to_nat uiHash := [new]]> bs, u32 (used + 1), conflict))
  | _ =>
      ok ← reserve;
      if (ok : bool)
      then mret (Some (<[Z.to_nat uiHash := b ++ [new]]> bs, used, u32 (conflict + 1)))
      else mret None
  end.

(** The elements of the old table, slot by slot, into the new one. *)
Fixpoint rehash (es : list hash_elem) (size : Z) (t : tables) : L (option tables) :=
  match es with
  | [] => mret (Some t)
  | e :: es =>
      r ← hash_put t (hash (acKey e) size) (acKey e) (pValue e);
      match r with
      | Some t' => rehash es size t'
      | None => mret None
      end
  end.

(** [for(;i < 26 && size >= pauiSizeList[i]; ++i);], then entry [26 == i ? 25 : i]. *)
Fixpoint next_size (size : Z) (l : list Z) : Z :=
  match l with
  | [] => 0
  | [x] => x
  | x :: l' => if x <=? size then next_size size l' else x
  end.

(** [(unsigned int)(uiHashTableSize * 0.15)]: for every 32-bit size the rounded
    product is below the next integer exactly when the exact one is. *)
Definition threshold (size : Z) : Z := size * 15 / 100.

Definition hash_inst (this : ptr) (pcKey : option string) (pVal : ptr) : L Z :=
  match pcKey with
  | None => mret ParaErr
  | Some key =>
      if is_null this || is_null pVal then mret ParaErr else
      h ← this_ this;
      grown ←
        (if ucDilatationEnable h && (threshold (uiHashTableSize h) <? uiConflict h) then
           let iNewHashTableSize := next_size (uiHashTableSize h) pauiSizeList in
           ok ← reserve;
           if (ok : bool) then
             r ← rehash (concat (pstHashTable h)) iNewHashTableSize
                   (replicate (Z.to_nat iNewHashTableSize) [], 0, 0);
             match r with
             | None => mret false
             | Some (bs, used, conflict) =>
                 set_this this (HashTable iNewHashTableSize (ucDilatationEnable h) used conflict bs) ;;
                 mret true
             end
           else mret false
         else mret true);
      if negb grown then mret HeapReqErr else
      h ← this_ this;
      r ← hash_put (pstHashTable h, uiUsedCount h, uiConflict h)
            (hash key (uiHashTableSize h)) key pVal;
      match r with
      | None => mret HeapReqErr
      | Some (bs, used, conflict) =>
          set_this this (HashTable (uiHashTableSize h) (ucDilatationEnable h) used conflict bs) ;;
          mret NoErr
      end
  end.

(** The bucket without the first element of key [key], and its value. *)
Fixpoint bucket_del (key : string) (b : bucket) : option (ptr * bucket) :=
  match b with
  | [] => None
  | e :: b =>
      if str_eq (acKey e) key then Some (pValue e, b)
      else '(v, b') ← bucket_del key b; Some (v, e :: b')
  end.

Definition call_free (v : ptr) : L unit :=
  match pFreeValueHandle with Some f => f v ;; mret tt | None => mret tt end.

Definition hash_del (this : ptr) (pcKey : option string) : L Z :=
  match pcKey with
  | None => mret ParaErr
  | Some key =>
      if is_null this then mret ParaErr else
      h ← this_ this;
      let uiHash := Z.to_nat (hash key (uiHashTableSize h)) in
      b ← get_or OutOfBounds (pstHashTable h !! uiHash);
      pTmp ←
        match bucket_del key b with
        | None => mret NULL
        | Some (v, b') =>
            set_this this
              (HashTable (uiHashTableSize h) (ucDilatationEnable h)
                 (match b' with [] => u32 (uiUsedCount h - 1) | _ => uiUsedCount h end)
                 (match b' with [] => uiConflict h | _ => u32 (uiConflict h - 1) end)
                 (<[uiHash := b']> (pstHashTable h))) ;;
            mret v
        end;
      call_free pTmp ;;
      mret NoErr
  end.

(** The value handles of a bucket: the chain first, then the slot. *)
Fixpoint free_values (vs : list ptr) : L unit :=
  match vs with
  | [] => mret tt
  | v :: vs => call_free v ;; free_values vs
  end.
Definition bucket_values (b : bucket) : list ptr :=
  match b with
  | [] => []
  | e :: chain => (pValue <$> chain) ++ [pValue e]
  end.

Definition hash_clear (this : ptr) : L Z :=
  if is_null this then mret ParaErr else
  h ← this_ this;
  free_values (concat (bucket_values <$> pstHashTable h)) ;;
  set_this this (HashTable (uiHashTableSize h) (ucDilatationEnable h) 0 0
                   ((fun _ => []) <$> pstHashTable h)) ;;
  mret NoErr.

(** The first element of key [key]. *)
Fixpoint bucket_find (key : string) (b : bucket) : ptr :=
  match b with
  | [] => NULL
  | e :: b => if str_eq (acKey e) key then pValue e else bucket_find key b
  end.

Definition hash_find (this : ptr) (pcKey : option string) : L ptr :=
  match pcKey with
  | None => mret NULL
  | Some key =>
      if is_null this then mret NULL else
      h ← this_ this;
      b ← get_or OutOfBounds (pstHashTable h !! Z.to_nat (hash key (uiHashTableSize h)));
      mret (bucket_find key b)
  end.

(** [hash_print]: the print callback on every value, slots in order, each slot
    before its chain. *)
Fixpoint print_values (pr : ptr -> L Z) (vs : list ptr) : L unit :=
  match vs with
  | [] => mret tt
  | v :: vs => pr v ;; print_values pr vs
  end.
Definition hash_print (this : ptr) (pPrintValueHandle : option (ptr -> L Z)) : L Z :=
  match pPrintValueHandle with
  | None => mret ParaErr
  | Some pr =>
      if is_null this then mret ParaErr else
      h ← this_ this;
      print_values pr (pValue <$> concat (pstHashTable h)) ;;
      mret NoErr
  end.

Definition new_hash_table (iSize : Z) (iDilatationEnable : Z) : L ptr :=
  let size := if 0 <? iSize then iSize else 53 in
  pNew ← alloc (of_hash (HashTable 0 false 0 0 []));
  if is_null pNew then mret NULL else
  ok ← reserve;
  if (ok : bool) then
    set_this pNew (HashTable size (truth (u8 iDilatationEnable)) 0 0
                     (replicate (Z.to_nat size) [])) ;;
    mret pNew
  else free pNew ;; mret NULL.

Definition destroy_hash_table (this : ptr) : L Z :=
  if is_null this then mret ParaErr else
  n ← hash_size this;
  (if truth n then hash_clear this else mret 0) ;;
  free this ;;
  mret NoErr.
End ops.

(** * The table as a multimap *)

Section spec.
Context {T G : Type} `{HashHeap T}.
Context (char_signed : bool).
Implicit Types (s : heap T G).
Abbreviation hash := (hash char_signed).

(** The values of key [key] in a bucket, in order. *)
Fixpoint of_key (key : string) (b : bucket) : list ptr :=
  match b with
  | [] => []
  | e :: b => if decide (acKey e = key) then pValue e :: of_key key b else of_key key b
  end.

(** The values stored under [key], oldest first. *)
Definition vals (bs : list bucket) (size : Z) (key : string) : list ptr :=
  match bs !! Z.to_nat (hash key size) with Some b => of_key key b | None => [] end.

Fixpoint n_used (bs : list bucket) : Z :=
  match bs with [] => 0 | b :: bs => (match b with [] => 0 | _ => 1 end) + n_used bs end.
Fixpoint n_elems (bs : list bucket) : Z :=
  match bs with [] => 0 | b :: bs => Z.of_nat (length b) + n_elems bs end.

(** Every element lies in the bucket of its key, keys fit their buffers, and the
    two counters count the used slots and the chained elements. *)
Record table_wf (bs : list bucket) (size used conflict : Z) : Prop := {
  tw_size : 0 < size;
  tw_len : Z.of_nat (length bs) = size;
  tw_slot : forall i b e, bs !! i = Some b -> e ∈ b ->
    i = Z.to_nat (hash (acKey e) size) /\ (String.length (acKey e) < HASH_KEY_MAX_LEN)%nat;
  tw_used : used = n_used bs;
  tw_conflict : conflict = n_elems bs - n_used bs
}.

Lemma hash_range key size : 0 < size -> 0 <= hash key size < size.
Proof. intros Hs. apply Z.mod_pos_bound. done. Qed.

Lemma tw_lookup bs size used conflict key :
  table_wf bs size used conflict -> is_Some (bs !! Z.to_nat (hash key size)).
Proof.
  intros W. apply lookup_lt_is_Some. pose proof (hash_range key size (tw_size _ _ _ _ W)).
  pose proof (tw_len _ _ _ _ W). lia.
Qed.

Definition used1 (b : bucket) : Z := match b with [] => 0 | _ => 1 end.

Lemma n_used_insert bs i b b' :
  bs !! i = Some b -> n_used (<[i := b']> bs) = n_used bs - used1 b + used1 b'.
Proof.
  revert i. induction bs as [|b0 bs IH]; intros [|i] Hi; simpl in *; try done.
  - injection Hi as ->. unfold used1. lia.
  - rewrite IH by done. lia.
Qed.

Lemma n_elems_insert bs i b b' :
  bs !! i = Some b ->
  n_elems (<[i := b']> bs) = n_elems bs - Z.of_nat (length b) + Z.of_nat (length b').
Proof.
  revert i. induction bs as [|b0 bs IH]; intros [|i] Hi; simpl in *; try done.
  - injection Hi as ->. lia.
  - rewrite IH by done. lia.
Qed.

Lemma n_used_range bs : 0 <= n_used bs <= n_elems bs.
Proof.
  induction bs as [|b bs IH]; simpl; [lia|]. destruct b; simpl; lia.
Qed.

Lemma used1_le b : 0 <= used1 b <= 1 /\ used1 b <= Z.of_nat (length b).
Proof. destruct b; simpl; lia. Qed.

Lemma n_elems_concat bs : n_elems bs = Z.of_nat (length (concat bs)).
Proof. induction bs as [|b bs IH]; simpl; [done|]. rewrite length_app. lia. Qed.

Lemma of_key_app key b1 b2 : of_key key (b1 ++ b2) = of_key key b1 ++ of_key key b2.
Proof. induction b1 as [|e b1 IH]; simpl; [done|]. case_decide; simpl; by rewrite IH. Qed.

Lemma of_key_nil key b : (forall e, e ∈ b -> acKey e <> key) -> of_key key b = [].
Proof.
  induction b as [|e b IH]; simpl; [done|]. intros Hb.
  rewrite decide_False by (apply Hb; by left). apply IH. intros e' He'. apply Hb. by right.
Qed.

(** Replacing the bucket of [key0]. *)
Lemma vals_insert bs size used conflict key0 b' key :
  table_wf bs size used conflict ->
  vals (<[Z.to_nat (hash key0 size) := b']> bs) size key =
  if decide (Z.to_nat (hash key size) = Z.to_nat (hash key0 size))
  then of_key key b' else vals bs size key.
Proof.
  intros W. destruct (tw_lookup _ _ _ _ key0 W) as [b Hb]. unfold vals.
  destruct (decide _) as [->|Hne].
  - rewrite list_lookup_insert_eq; [done|]. by eapply lookup_lt_Some.
  - by rewrite list_lookup_insert_ne.
Qed.

(** A well-formed table lists the values of a key in the key's bucket only. *)
Lemma vals_concat bs size used conflict key :
  table_wf bs size used conflict -> of_key key (concat bs) = vals bs size key.
Proof.
  intros W. destruct (tw_lookup _ _ _ _ key W) as [b Hb]. unfold vals. rewrite Hb.
  rewrite <- (take_drop_middle _ _ _ Hb), concat_app. simpl. rewrite !of_key_app.
  assert (Hother : forall l, (forall b e, b ∈ l -> e ∈ b -> acKey e <> key) -> of_key key (concat l) = []).
  { intros l Hl. apply of_key_nil. intros e (b0 & Hb0 & He)%list_elem_of_In%in_concat.
    eapply Hl; by apply list_elem_of_In. }
  rewrite !Hother; [by rewrite app_nil_r| |].
  - intros b0 e (j & Hj)%list_elem_of_lookup_1 He Hek. rewrite lookup_drop in Hj.
    destruct (tw_slot _ _ _ _ W _ _ _ Hj He) as [Hi _]. rewrite Hek in Hi. lia.
  - intros b0 e (j & Hj)%list_elem_of_lookup_1 He Hek. apply lookup_take_Some in Hj as [Hj Hlt].
    destruct (tw_slot _ _ _ _ W _ _ _ Hj He) as [Hi _]. rewrite Hek in Hi. lia.
Qed.

(** ** Building a table *)

Lemma of_key_in key b v : v ∈ of_key key b -> exists e, e ∈ b /\ acKey e = key /\ pValue e = v.
Proof.
  induction b as [|e b IH]; simpl; [by intros []%elem_of_nil|]. case_decide as He.
  - intros [->|Hin]%elem_of_cons.
    + exists e. split_and!; [by left|done|done].
    + destruct (IH Hin) as (e' & ? & ? & ?). exists e'. split_and!; [by right|done|done].
  - intros Hin. destruct (IH Hin) as (e' & ? & ? & ?). exists e'. split_and!; [by right|done|done].
Qed.

Lemma of_key_none key b : of_key key b = [] -> forall e, e ∈ b -> acKey e <> key.
Proof.
  induction b as [|e b IH]; simpl; [by intros _ e' []%elem_of_nil|].
  case_decide; [done|]. intros Hb e' [->|He']%elem_of_cons; [done|]. by apply IH.
Qed.

(** The table after one more element. *)
Lemma table_wf_put bs size used conflict key v b :
  table_wf bs size used conflict -> (String.length key < HASH_KEY_MAX_LEN)%nat ->
  bs !! Z.to_nat (hash key size) = Some b ->
  let bs' := <[Z.to_nat (hash key size) := b ++ [HashElem key v]]> bs in
  table_wf bs' size (n_used bs') (n_elems bs' - n_used bs') /\
  n_used bs' = used + 1 - used1 b /\ n_elems bs' = n_elems bs + 1 /\
  forall k, vals bs' size k = vals bs size k ++ (if decide (k = key) then [v] else []).
Proof.
  intros W Hk Hb bs'. pose proof (tw_used _ _ _ _ W) as Hu.
  assert (n_used bs' = n_used bs - used1 b + used1 (b ++ [HashElem key v])) as Hu'
    by (by apply n_used_insert).
  assert (n_elems bs' = n_elems bs + 1) as He'.
  { unfold bs'. rewrite (n_elems_insert _ _ _ _ Hb), length_app. simpl. lia. }
  split_and!; [|rewrite Hu'; destruct b; simpl; lia|done|].
  - constructor; [apply W|unfold bs'; rewrite length_insert; apply W| |done|done].
    intros i b' e Hi He. unfold bs' in Hi.
    destruct (decide (i = Z.to_nat (hash key size))) as [->|Hne].
    + rewrite list_lookup_insert_eq in Hi by (by eapply lookup_lt_Some). injection Hi as <-.
      apply elem_of_app in He as [He| ->%list_elem_of_singleton]; [by apply (tw_slot _ _ _ _ W _ _ _ Hb)|done].
    + rewrite list_lookup_insert_ne in Hi by done. by eapply (tw_slot _ _ _ _ W).
  - intros k. unfold bs'. erewrite vals_insert by exact W.
    destruct (decide (k = key)) as [->|Hne].
    + rewrite decide_True by done. rewrite of_key_app. unfold vals. rewrite Hb. simpl.
      by rewrite decide_True.
    + case_decide as Hh; [|by rewrite app_nil_r]. rewrite of_key_app. simpl.
      rewrite decide_False by congruence. unfold vals. by rewrite Hh, Hb.
Qed.

Lemma table_wf_eq bs size u c u' c' :
  table_wf bs size u c -> u = u' -> c = c' -> table_wf bs size u' c'.
Proof. by intros W -> ->. Qed.

(** The two states an insertion can meet: a free slot, or a chain to extend. *)
Lemma hash_put_spec s bs size used conflict key v :
  table_wf bs size used conflict -> (String.length key < HASH_KEY_MAX_LEN)%nat ->
  n_elems bs + 1 < 2 ^ 32 ->
  wp (hash_put (G := G) (bs, used, conflict) (hash key size) key v) s (fun r s' =>
    cells s' = cells s /\ brk s' = brk s /\ glob s' = glob s /\ oom s' ⊆ oom s /\
    match r with
    | None => true ∈ oom s
    | Some (bs', used', conflict') =>
        table_wf bs' size used' conflict' /\ n_elems bs' = n_elems bs + 1 /\
        forall k, vals bs' size k = vals bs size k ++ (if decide (k = key) then [v] else [])
    end).
Proof.
  intros W Hk Hn. destruct (tw_lookup _ _ _ _ key W) as [b Hb].
  destruct (table_wf_put _ _ _ _ _ v _ W Hk Hb) as (W' & Hu & He & Hv).
  unfold hash_put. rewrite str_take_short by (unfold HASH_KEY_MAX_LEN in *; lia).
  pose proof (tw_used _ _ _ _ W). pose proof (tw_conflict _ _ _ _ W).
  pose proof (n_used_range bs). wp_steps. destruct b as [|e b].
  - wp_steps. cbv beta iota. split_and!; [done..| |exact He|exact Hv].
    rewrite u32_small by lia. simpl in *. eapply table_wf_eq; [exact W'|lia|lia].
  - wp_step. apply wp_reserve. intros ok ->. destruct (oom s) as [|[] o] eqn:Ho; simpl; wp_steps.
    + split_and!; [done..| |exact He|exact Hv].
      rewrite u32_small by lia. simpl in *.
      eapply table_wf_eq; [exact W'|lia|lia].
    + split_and!; [done..| |by left]. intros x Hx. by right.
    + split_and!; [done..| | |exact He|exact Hv].
      { intros x Hx. by right. }
      rewrite u32_small by lia. simpl in *.
      eapply table_wf_eq; [exact W'|lia|lia].
Qed.

Lemma rehash_spec es : forall s bs size used conflict,
  table_wf bs size used conflict ->
  (forall e, e ∈ es -> (String.length (acKey e) < HASH_KEY_MAX_LEN)%nat) ->
  n_elems bs + Z.of_nat (length es) < 2 ^ 32 ->
  wp (rehash (G := G) char_signed es size (bs, used, conflict)) s (fun r s' =>
    cells s' = cells s /\ brk s' = brk s /\ glob s' = glob s /\ oom s' ⊆ oom s /\
    match r with
    | None => true ∈ oom s
    | Some (bs', used', conflict') =>
        table_wf bs' size used' conflict' /\
        n_elems bs' = n_elems bs + Z.of_nat (length es) /\
        forall k, vals bs' size k = vals bs size k ++ of_key k es
    end).
Proof.
  induction es as [|e es IH]; intros s bs size used conflict W Hk Hn; cbn [rehash].
  { wp_steps. cbv beta iota. split_and!; [done..|simpl; lia|].
    intros k. simpl. by rewrite app_nil_r. }
  wp_step. wp_apply hash_put_spec; [exact W|apply Hk; by left|simpl in Hn; lia|].
  intros [[[bs1 used1'] conflict1]|] s1 (Hc & Hb & Hg & Ho & Hr); [|wp_steps; done].
  destruct Hr as (W1 & He1 & Hv1).
  eapply wp_mono; [apply IH; [exact W1| |simpl in Hn; lia]|].
  { intros e' He'. apply Hk. by right. }
  intros r s2 (Hc2 & Hb2 & Hg2 & Ho2 & Hr2).
  split_and!; [congruence..|by etrans|]. destruct r as [[[bs2 u2] c2]|]; [|by apply Ho].
  destruct Hr2 as (W2 & He2 & Hv2). split_and!; [done|simpl; lia|].
  intros k. rewrite Hv2, Hv1, <- app_assoc. f_equal. simpl.
  destruct (decide (acKey e = k)) as [->|Hne]; [by rewrite decide_True|by rewrite decide_False].
Qed.

Lemma empty_table size : 0 < size ->
  table_wf (replicate (Z.to_nat size) []) size 0 0 /\
  n_elems (replicate (Z.to_nat size) []) = 0 /\
  forall k, vals (replicate (Z.to_nat size) []) size k = [].
Proof.
  intros Hs. assert (He : forall n, n_elems (replicate n []) = 0) by (induction n; done).
  assert (Hu : forall n, n_used (replicate n []) = 0) by (induction n; done).
  split_and!; [|done|].
  - constructor; [done|rewrite length_replicate; lia| |by rewrite Hu|by rewrite He, Hu].
    intros i b e Hi Hin. apply lookup_replicate in Hi as [-> _]. by apply elem_of_nil in Hin.
  - intros k. unfold vals. destruct (replicate _ _ !! _) as [b|] eqn:Hb; [|done].
    by apply lookup_replicate in Hb as [-> _].
Qed.

Lemma next_size_pos size : 0 < next_size size pauiSizeList.
Proof.
  assert (Hall : Forall (fun x => 0 < x) pauiSizeList) by (repeat constructor; lia).
  assert (Hne : pauiSizeList <> []) by done. revert Hall Hne.
  generalize pauiSizeList as l. induction l as [|x l IH]; intros Hall Hne; [done|].
  inversion Hall as [|? ? Hx Hl]; subst. simpl. destruct l as [|y l]; [done|].
  destruct (Z.leb_spec x size); [|done]. by apply IH.
Qed.

(** ** The table object *)

Definition hash_at s (a : positive) : option hash_table := cells s !! a ≫= to_hash.

(** The object at [this] is a well-formed table that stores, under each key, the
    values [m key], oldest first, [n] elements in all. *)
Definition is_hash s (this : positive) (m : string -> list ptr) (n : Z) : Prop :=
  exists h, hash_at s this = Some h /\
    table_wf (pstHashTable h) (uiHashTableSize h) (uiUsedCount h) (uiConflict h) /\
    n_elems (pstHashTable h) = n /\
    forall k, m k = vals (pstHashTable h) (uiHashTableSize h) k.

(** The multimaps after an insertion and a deletion. *)
Definition mm_add (m : string -> list ptr) (key : string) (v : ptr) : string -> list ptr :=
  fun k => m k ++ (if decide (k = key) then [v] else []).
Definition mm_del (m : string -> list ptr) (key : string) : string -> list ptr :=
  fun k => if decide (k = key) then tail (m k) else m k.

(** Everything but the table object, which keeps its address. *)
Definition outside s s' (this : positive) : Prop :=
  (forall a, a <> this -> cells s' !! a = cells s !! a) /\ glob s' = glob s /\ brk s' = brk s.

Lemma outside_refl s this : outside s s this.
Proof. done. Qed.
Lemma outside_trans s1 s2 s3 this :
  outside s1 s2 this -> outside s2 s3 this -> outside s1 s3 this.
Proof.
  intros (C1 & G1 & B1) (C2 & G2 & B2). split_and!; [|congruence..].
  intros a Ha. by rewrite C2, C1.
Qed.
Lemma outside_same s s' this :
  cells s' = cells s -> brk s' = brk s -> glob s' = glob s -> outside s s' this.
Proof. intros Hc Hb Hg. split_and!; [by rewrite Hc|done|done]. Qed.

Lemma wp_htable s a h (Q : hash_table -> heap T G -> Prop) :
  hash_at s a = Some h -> Q h s -> wp (this_ (Some a)) s Q.
Proof.
  unfold hash_at, this_. intros Ha HQ. destruct (cells s !! a) as [t|] eqn:Ht; [|done].
  by eapply wp_load.
Qed.

Lemma wp_set_htable s a h h' (Q : unit -> heap T G -> Prop) :
  hash_at s a = Some h ->
  (forall s', hash_at s' a = Some h' -> outside s s' a -> oom s' = oom s -> Q tt s') ->
  wp (set_this (Some a) h') s Q.
Proof.
  unfold hash_at, set_this. intros Ha HQ. destruct (cells s !! a) as [t|] eqn:Ht; [|done].
  eapply wp_store; [exact Ht|]. apply HQ; [| |done].
  - simpl. rewrite lookup_insert_eq. apply to_of_hash.
  - split_and!; [|done|done]. intros b Hb. simpl. by rewrite lookup_insert_ne.
Qed.

Lemma hash_at_same s s' a : cells s' = cells s -> hash_at s' a = hash_at s a.
Proof. unfold hash_at. by intros ->. Qed.

(** The growth step of an insertion. *)
Lemma grow_spec s this h n (m : string -> list ptr) :
  hash_at s this = Some h ->
  table_wf (pstHashTable h) (uiHashTableSize h) (uiUsedCount h) (uiConflict h) ->
  n_elems (pstHashTable h) = n -> n < 2 ^ 31 ->
  (forall k, m k = vals (pstHashTable h) (uiHashTableSize h) k) ->
  wp (if ucDilatationEnable h && (threshold (uiHashTableSize h) <? uiConflict h) then
        let iNewHashTableSize := next_size (uiHashTableSize h) pauiSizeList in
        ok ← reserve;
        if (ok : bool) then
          r ← rehash char_signed (concat (pstHashTable h)) iNewHashTableSize
                (replicate (Z.to_nat iNewHashTableSize) [], 0, 0);
          match r with
          | None => mret false
          | Some (bs, used, conflict) =>
              set_this (Some this)
                (HashTable iNewHashTableSize (ucDilatationEnable h) used conflict bs) ;;
              mret true
          end
        else mret false
      else mret true) s
    (fun r s' => outside s s' this /\ is_hash s' this m n /\ oom s' ⊆ oom s /\
                 (r = false -> true ∈ oom s)).
Proof.
  intros Hh W Hn Hlt Hm.
  destruct (ucDilatationEnable h && (threshold (uiHashTableSize h) <? uiConflict h)).
  2:{ wp_steps. split_and!; [done| |done|done]. by exists h. }
  cbv zeta. set (nsz := next_size (uiHashTableSize h) pauiSizeList).
  assert (0 < nsz) as Hsz by apply next_size_pos.
  destruct (empty_table nsz Hsz) as (W0 & He0 & Hv0).
  wp_step. apply wp_reserve. intros ok ->.
  set (s1 := Heap _ _ _ _). assert (hash_at s1 this = Some h) as Hh1 by done.
  assert (tl (oom s) ⊆ oom s) as Htl.
  { destruct (oom s); [done|]. intros x Hx. by right. }
  destruct (hd false (oom s)) eqn:Hhd; c_red.
  { wp_steps. split_and!; [done|by exists h|done|]. intros _.
    destruct (oom s) as [|b o]; simpl in *; [done|]. subst b. by left. }
  wp_step. rewrite n_elems_concat in Hn.
  eapply wp_mono; [apply rehash_spec; [exact W0| |rewrite He0; lia]|].
  { intros e (b & Hb & He)%list_elem_of_In%in_concat.
    apply list_elem_of_In, list_elem_of_lookup_1 in Hb as [i Hi]. apply list_elem_of_In in He.
    by destruct (tw_slot _ _ _ _ W _ _ _ Hi He). }
  intros r s2 (Hc & Hb & Hg & Ho & Hr).
  assert (hash_at s2 this = Some h) as Hh2 by (by rewrite (hash_at_same s1 s2)).
  destruct r as [[[bs used] conflict]|].
  - destruct Hr as (W2 & He2 & Hv2). wp_step. eapply wp_set_htable; [exact Hh2|].
    intros s3 Hh3 O3 Ho3. wp_steps.
    split_and!; [eapply outside_trans; [|exact O3]; by apply outside_same| | |done].
    + eexists. split_and!; [exact Hh3|exact W2|simpl; lia|]. intros k. simpl.
      by rewrite Hv2, Hv0, Hm, (vals_concat _ _ _ _ k W).
    + rewrite Ho3. by etrans.
  - wp_steps. split_and!; [by apply outside_same| |by etrans|by intros _; apply Htl].
    exists h. split_and!; [done|done|by rewrite n_elems_concat|done].
Qed.

Lemma hash_inst_spec s this m n key v :
  is_hash s this m n -> v <> NULL -> (String.length key < HASH_KEY_MAX_LEN)%nat ->
  n + 1 < 2 ^ 31 ->
  wp (hash_inst char_signed (Some this) (Some key) v) s (fun r s' =>
    outside s s' this /\ oom s' ⊆ oom s /\
    (r = NoErr /\ is_hash s' this (mm_add m key v) (n + 1) \/
     r = HeapReqErr /\ is_hash s' this m n /\ true ∈ oom s)).
Proof.
  intros (h & Hh & W & Hn & Hm) Hv Hk Hlt. unfold hash_inst.
  destruct v as [v|]; [|done]. c_red.
  wp_step. eapply wp_htable; [exact Hh|]. wp_step.
  eapply wp_mono; [apply (grow_spec s this h n m Hh W Hn ltac:(lia) Hm)|].
  intros grown s1 (O1 & Hi1 & Ho1 & Hf1).
  destruct grown; c_red; [|wp_steps; split_and!; [done|done|right; split_and!; auto]].
  destruct Hi1 as (h1 & Hh1 & W1 & Hn1 & Hm1).
  wp_step. eapply wp_htable; [exact Hh1|].
  wp_step. wp_apply hash_put_spec; [exact W1|done|lia|].
  intros r s2 (Hc & Hb & Hg & Ho2 & Hr).
  assert (hash_at s2 this = Some h1) as Hh2 by (by rewrite (hash_at_same s1 s2)).
  destruct r as [[[bs used] conflict]|].
  - destruct Hr as (W2 & He2 & Hv2). wp_step. eapply wp_set_htable; [exact Hh2|].
    intros s3 Hh3 O3 Ho3. wp_steps. split_and!.
    + eapply outside_trans; [exact O1|]. eapply outside_trans; [by apply outside_same|exact O3].
    + rewrite Ho3. by etrans.
    + left. split; [done|]. eexists. split_and!; [exact Hh3|exact W2|simpl; lia|].
      intros k. unfold mm_add. simpl. by rewrite Hv2, Hm1.
  - wp_steps. split_and!; [|by etrans|].
    + eapply outside_trans; [exact O1|]. by apply outside_same.
    + right. split_and!; [done| |by apply Ho1]. by exists h1.
Qed.

(** ** Lookup *)

Lemma bucket_find_head key b : bucket_find key b = default NULL (head (of_key key b)).
Proof.
  induction b as [|e b IH]; simpl; [done|]. unfold str_eq.
  case_decide; [by rewrite bool_decide_true|by rewrite bool_decide_false].
Qed.

Lemma hash_find_spec s this m n key :
  is_hash s this m n ->
  wp (hash_find char_signed (Some this) (Some key)) s (fun r s' =>
    r = default NULL (head (m key)) /\ s' = s).
Proof.
  intros (h & Hh & W & _ & Hm). unfold hash_find; c_red.
  wp_step. eapply wp_htable; [exact Hh|].
  destruct (tw_lookup _ _ _ _ key W) as [b Hb].
  wp_step. eapply wp_get_or; [exact Hb|]. wp_steps. split; [|done].
  rewrite bucket_find_head, Hm. unfold vals. by rewrite Hb.
Qed.

Lemma hash_size_spec s this m n :
  is_hash s this m n -> n < 2 ^ 31 ->
  wp (hash_size (Some this)) s (fun r s' => r = n /\ s' = s).
Proof.
  intros (h & Hh & W & Hn & _) Hlt. unfold hash_size; c_red.
  wp_step. eapply wp_htable; [exact Hh|]. wp_steps. split; [|done].
  rewrite (tw_used _ _ _ _ W), (tw_conflict _ _ _ _ W), Hn.
  pose proof (n_used_range (pstHashTable h)).
  rewrite s32_small; [lia|]. unfold INT_MIN, INT_MAX. lia.
Qed.

Lemma hash_is_empty_spec s this m n :
  is_hash s this m n ->
  wp (hash_is_empty (Some this)) s (fun r s' => r = (if n =? 0 then 1 else 0) /\ s' = s).
Proof.
  intros (h & Hh & W & Hn & _). unfold hash_is_empty; c_red.
  wp_step. eapply wp_htable; [exact Hh|]. wp_steps. split; [|done].
  rewrite (tw_used _ _ _ _ W), <- Hn. unfold truth.
  assert (n_used (pstHashTable h) = 0 <-> n_elems (pstHashTable h) = 0) as Hz.
  { generalize (pstHashTable h) as bs. induction bs as [|b bs IH]; simpl; [done|].
    pose proof (n_used_range bs). destruct b; simpl; lia. }
  destruct (Z.eqb_spec (n_used (pstHashTable h)) 0), (Z.eqb_spec (n_elems (pstHashTable h)) 0);
    simpl; tauto || lia.
Qed.

(** ** Deletion *)

Lemma bucket_del_spec key b :
  match bucket_del key b with
  | None => of_key key b = []
  | Some (v, b') =>
      exists b1 b2, b = b1 ++ HashElem key v :: b2 /\ b' = b1 ++ b2 /\ of_key key b1 = []
  end.
Proof.
  induction b as [|e b IH]; simpl; [done|]. unfold str_eq. case_bool_decide as He.
  - exists [], b. split_and!; [|done|done]. by destruct e; simpl in *; subst.
  - rewrite decide_False by done. destruct (bucket_del key b) as [[v b']|]; simpl; [|done].
    destruct IH as (b1 & b2 & -> & -> & Hb). exists (e :: b1), b2. simpl.
    by rewrite decide_False.
Qed.

Lemma bucket_del_table bs size used conflict key b v b1 b2 :
  table_wf bs size used conflict -> bs !! Z.to_nat (hash key size) = Some b ->
  b = b1 ++ HashElem key v :: b2 -> of_key key b1 = [] ->
  let bs' := <[Z.to_nat (hash key size) := b1 ++ b2]> bs in
  table_wf bs' size (n_used bs') (n_elems bs' - n_used bs') /\
  n_used bs' = n_used bs - (1 - used1 (b1 ++ b2)) /\ n_elems bs' = n_elems bs - 1 /\
  (forall k, vals bs' size k = if decide (k = key) then tail (vals bs size k) else vals bs size k) /\
  head (vals bs size key) = Some v.
Proof.
  intros W Hb -> Hk bs'.
  assert (Hvk : vals bs size key = v :: of_key key b2).
  { unfold vals. rewrite Hb, of_key_app, Hk. simpl. by rewrite decide_True. }
  split_and!.
  - constructor; [apply W|unfold bs'; rewrite length_insert; apply W| |done|done].
    intros i b' e Hi He. unfold bs' in Hi.
    destruct (decide (i = Z.to_nat (hash key size))) as [->|Hne].
    + rewrite list_lookup_insert_eq in Hi by (by eapply lookup_lt_Some). injection Hi as <-.
      apply (tw_slot _ _ _ _ W _ _ _ Hb). apply elem_of_app in He. in_list.
    + rewrite list_lookup_insert_ne in Hi by done. by eapply (tw_slot _ _ _ _ W).
  - unfold bs'. rewrite (n_used_insert _ _ _ _ Hb).
    assert (used1 (b1 ++ HashElem key v :: b2) = 1) as -> by (by destruct b1). lia.
  - unfold bs'. rewrite (n_elems_insert _ _ _ _ Hb), !length_app. simpl. lia.
  - intros k. unfold bs'. erewrite vals_insert by exact W.
    destruct (decide (k = key)) as [->|Hne].
    + rewrite decide_True by done. rewrite Hvk, of_key_app, Hk. done.
    + case_decide as Hh; [|done]. unfold vals. rewrite Hh, Hb, !of_key_app. simpl.
      by rewrite decide_False.
  - by rewrite Hvk.
Qed.

(** Deletion unlinks the oldest element of the key and hands its value, NULL when
    there is none, to the free handle. *)
Lemma hash_del_spec s this m n key free_handle (Q : Z -> heap T G -> Prop) :
  is_hash s this m n -> n < 2 ^ 31 ->
  (forall s1, outside s s1 this -> oom s1 = oom s ->
     is_hash s1 this (mm_del m key) (n - Z.of_nat (length (take 1 (m key)))) ->
     wp (call_free free_handle (default NULL (head (m key)))) s1 (fun _ => Q NoErr)) ->
  wp (hash_del char_signed free_handle (Some this) (Some key)) s Q.
Proof.
  intros (h & Hh & W & Hn & Hm) Hlt HQ. unfold hash_del; c_red.
  wp_step. eapply wp_htable; [exact Hh|]. cbv zeta.
  destruct (tw_lookup _ _ _ _ key W) as [b Hb].
  wp_step. eapply wp_get_or; [exact Hb|]. wp_step.
  pose proof (tw_used _ _ _ _ W) as Hu. pose proof (tw_conflict _ _ _ _ W) as Hc.
  pose proof (n_used_range (pstHashTable h)) as Hr.
  pose proof (bucket_del_spec key b) as Hd. destruct (bucket_del key b) as [[v b']|].
  - destruct Hd as (b1 & b2 & Heq & -> & Hk).
    destruct (bucket_del_table _ _ _ _ _ _ _ _ _ W Hb Heq Hk) as (W' & Hu' & He' & Hv & Hhd).
    wp_step. eapply wp_set_htable; [exact Hh|]. intros s1 Hh1 O1 Ho1. wp_steps.
    rewrite Hm in HQ. destruct (vals (pstHashTable h) _ key) as [|v0 vs] eqn:Hvals; [done|].
    injection Hhd as ->. eapply wp_mono; [apply HQ; [done|done|]|intros [] s2 HQ2; by wp_steps].
    eexists. split_and!; [exact Hh1|..]; simpl.
    + pose proof (n_used_range (<[Z.to_nat (hash key (uiHashTableSize h)) := b1 ++ b2]> (pstHashTable h))).
      eapply table_wf_eq; [exact W'|destruct (b1 ++ b2) eqn:Hb12; simpl in Hu'|
        destruct (b1 ++ b2) eqn:Hb12; simpl in Hu']; rewrite ?u32_small by lia; lia.
    + rewrite He'. simpl. lia.
    + intros k. unfold mm_del. by rewrite Hv, Hm.
  - wp_steps. rewrite Hm in HQ. unfold vals in HQ. rewrite Hb, Hd in HQ.
    eapply wp_mono; [apply HQ; [done|done|]|intros [] s2 HQ2; by wp_steps].
    exists h. split_and!; [done|done|simpl; lia|].
    intros k. unfold mm_del. case_decide as Hk; [|done]. subst k. rewrite Hm. unfold vals.
    by rewrite Hb, Hd.
Qed.

(** ** Construction, clearing, destruction *)

Lemma bucket_values_perm b : bucket_values b ≡ₚ pValue <$> b.
Proof. destruct b as [|e b]; simpl; [done|]. by rewrite Permutation_app_comm. Qed.

Lemma hash_clear_spec s this m n free_handle (P : heap T G -> Prop) :
  is_hash s this m n ->
  (forall h vs, hash_at s this = Some h -> vs ≡ₚ pValue <$> concat (pstHashTable h) ->
     wp (free_values free_handle vs) s (fun _ s1 => hash_at s1 this = Some h /\ P s1)) ->
  wp (hash_clear free_handle (Some this)) s (fun r s' =>
    r = NoErr /\ is_hash s' this (fun _ => []) 0 /\ exists s1, P s1 /\ outside s1 s' this).
Proof.
  intros (h & Hh & W & Hn & Hm) HP. unfold hash_clear; c_red.
  wp_step. eapply wp_htable; [exact Hh|]. wp_step.
  eapply wp_mono; [apply (HP h); [done|]|].
  { generalize (pstHashTable h) as bs. induction bs as [|b bs IH]; simpl; [done|].
    by rewrite fmap_app, IH, bucket_values_perm. }
  intros _ s1 [Hh1 HP1]. wp_step. eapply wp_set_htable; [exact Hh1|].
  intros s2 Hh2 O2 _. wp_steps. split_and!; [done| |by exists s1].
  assert (He : (fun _ : bucket => []) <$> pstHashTable h
               = replicate (Z.to_nat (uiHashTableSize h)) ([] : bucket)).
  { rewrite <- (tw_len _ _ _ _ W), Nat2Z.id.
    generalize (pstHashTable h) as bs. induction bs as [|b bs IH]; [done|].
    simpl. f_equal. exact IH. }
  destruct (empty_table _ (tw_size _ _ _ _ W)) as (W0 & He0 & Hv0).
  rewrite He in Hh2. eexists. split_and!; [exact Hh2|exact W0|exact He0|done].
Qed.

Lemma new_hash_table_spec s size en :
  heap_wf s ->
  wp (new_hash_table size en) s (fun r s' => heap_wf s' /\ glob s' = glob s /\ oom s' ⊆ oom s /\
    (r = NULL /\ cells s' = cells s /\ true ∈ oom s \/
     r = Some (brk s) /\ is_hash s' (brk s) (fun _ => []) 0 /\
       forall a, a <> brk s -> cells s' !! a = cells s !! a)).
Proof.
  intros Hwf. unfold new_hash_table. set (sz := if 0 <? size then size else 53).
  assert (0 < sz) as Hsz by (unfold sz; destruct (Z.ltb_spec 0 size); lia).
  pose proof (Hwf (brk s) ltac:(lia)) as Hb.
  wp_step. apply wp_alloc.
  { intros o Ho. c_red. wp_steps. rewrite Ho. split_and!; [done|done| |left].
    - intros x Hx. by right.
    - split_and!; [done|done|by left]. }
  intros Hhd. c_red. wp_step. apply wp_reserve. intros ok ->. cbn [oom cells brk glob].
  assert (tl (tl (oom s)) ⊆ oom s) as Htl.
  { intros x Hx. destruct (oom s) as [|b [|b' o]]; simpl in *;
      [by apply elem_of_nil in Hx|by apply elem_of_nil in Hx|by right; right]. }
  destruct (hd false (tl (oom s))) eqn:Hhd2; c_red.
  - wp_step. eapply wp_free; [simpl; by rewrite lookup_insert_eq|]. wp_steps. simpl.
    rewrite delete_insert_id by done. split_and!; [|done|done|left; split_and!; [done|done|]].
    + intros a Ha. simpl in *. rewrite delete_insert_id by done. apply Hwf. lia.
    + destruct (oom s) as [|b [|b' o]]; simpl in *; [done|done|]. subst. right. by left.
  - wp_step. eapply wp_set_htable; [unfold hash_at; simpl; rewrite lookup_insert_eq; apply to_of_hash|].
    intros s1 Hh1 (O1 & G1 & B1) Ho1. wp_steps. split_and!; [|by rewrite G1|by rewrite Ho1|right].
    + intros a Ha. rewrite B1 in Ha. simpl in Ha. rewrite O1 by lia. simpl.
      rewrite lookup_insert_ne by lia. apply Hwf. lia.
    + destruct (empty_table _ Hsz) as (W0 & He0 & Hv0). split_and!; [done| |].
      * eexists. split_and!; [exact Hh1|exact W0|exact He0|done].
      * intros a Ha. rewrite O1 by done. simpl. by rewrite lookup_insert_ne.
Qed.
End spec.
