(* ===== verification/HashRefine.v ===== *)
(** The hash table's contract, a multimap from keys to the values inserted under
    them, and the properties of hashtable.c against it. *)
From stdpp Require Import gmap strings.
From S2P Require Import Prelude Heap CString HashTable.

(** ** The abstract table *)

Inductive hash_op : Type :=
| HInst (key : string) (v : positive) | HDel (key : string) | HFind (key : string)
| HSize | HEmpty.

Inductive hash_out : Type := HInt (z : Z) | HPtr (p : ptr).

(** The multimap, the number of its elements, and the values handed to the free
    handle so far. *)
Record hash_state : Type := HashState {
  mm : string -> list ptr; count : Z; freed : list ptr
}.

Definition hash_spec_op (o : hash_op) (st : hash_state) : hash_out * hash_state :=
  match o with
  | HInst k v => (HInt NoErr, HashState (mm_add (mm st) k (Some v)) (count st + 1) (freed st))
  | HDel k =>
      (HInt NoErr, HashState (mm_del (mm st) k) (count st - Z.of_nat (length (take 1 (mm st k))))
                     (freed st ++ [default NULL (head (mm st k))]))
  | HFind k => (HPtr (default NULL (head (mm st k))), st)
  | HSize => (HInt (count st), st)
  | HEmpty => (HInt (if count st =? 0 then 1 else 0), st)
  end.

Fixpoint hash_spec_ops (os : list hash_op) (st : hash_state) : list hash_out * hash_state :=
  match os with
  | [] => ([], st)
  | o :: os =>
      let '(r, st1) := hash_spec_op o st in
      let '(rs, st2) := hash_spec_ops os st1 in (r :: rs, st2)
  end.

(** Keys that fit the table's buffers. *)
Definition key_fits (o : hash_op) : Prop :=
  match o with
  | HInst k _ => (String.length k < HASH_KEY_MAX_LEN)%nat
  | _ => True
  end.

Section refinement.
Context {T : Type} `{HashHeap T} (char_signed : bool).
(* the globals record the values the free handle receives *)
Abbreviation mem := (heap T (list ptr)).
Implicit Types (s : mem).

Definition record_free : option (ptr -> M mem Z) :=
  Some (fun v => _ ← setg (fun l => l ++ [v]); mret 0).

Definition hash_exec_op (this : ptr) (o : hash_op) : M mem hash_out :=
  match o with
  | HInst k v => r ← hash_inst char_signed this (Some k) (Some v); mret (HInt r)
  | HDel k => r ← hash_del char_signed record_free this (Some k); mret (HInt r)
  | HFind k => r ← hash_find char_signed this (Some k); mret (HPtr r)
  | HSize => r ← hash_size this; mret (HInt r)
  | HEmpty => r ← hash_is_empty this; mret (HInt r)
  end.

Fixpoint hash_exec_ops (this : ptr) (os : list hash_op) : M mem (list hash_out) :=
  match os with
  | [] => mret []
  | o :: os => r ← hash_exec_op this o; rs ← hash_exec_ops this os; mret (r :: rs)
  end.

Definition hash_implements s (this : positive) (st : hash_state) : Prop :=
  is_hash char_signed s this (mm st) (count st) /\ glob s = freed st /\ (true ∉ oom s) /\ 0 <= count st.

Lemma is_hash_glob s f this m n :
  is_hash char_signed s this m n -> is_hash char_signed (with_glob f s) this m n.
Proof. done. Qed.

Lemma hash_exec_op_spec s this st o :
  hash_implements s this st -> key_fits o -> count st + 1 < 2 ^ 31 ->
  wp (hash_exec_op (Some this) o) s (fun r s' =>
    r = (hash_spec_op o st).1 /\ hash_implements s' this (hash_spec_op o st).2 /\
    count (hash_spec_op o st).2 <= count st + 1 /\
    forall a, a <> this -> cells s' !! a = cells s !! a).
Proof.
  intros (Hi & Hg & Ho & Hc) Hk Hlt. destruct o as [k v|k|k| |];
    cbn [hash_exec_op hash_spec_op fst snd mm count freed key_fits] in *; wp_step.
  - wp_apply hash_inst_spec; [exact Hi|done|exact Hk|lia|].
    intros r s1 ((C1 & G1 & _) & Ho1 & [[-> Hi1]|(_ & _ & Hin)]); [|done].
    wp_steps. split_and!; [done|split_and!; cbn [mm count freed]|lia|done].
    + exact Hi1.
    + by rewrite G1.
    + intros Hin. by apply Ho, Ho1.
    + lia.
  - eapply hash_del_spec; [exact Hi|lia|]. intros s1 (C1 & G1 & _) Ho1 Hi1.
    unfold call_free, record_free. wp_step. wp_step. apply wp_setg. wp_steps.
    split_and!; [done|split_and!; cbn [mm count freed glob with_glob oom]|lia|exact C1].
    + by apply is_hash_glob.
    + by rewrite G1, Hg.
    + by rewrite Ho1.
    + destruct Hi1 as (h & _ & _ & <- & _). pose proof (n_used_range (pstHashTable h)). lia.
  - wp_apply hash_find_spec; [exact Hi|]. intros r s' [-> ->]. wp_steps.
    split_and!; [done|done|lia|done].
  - wp_apply hash_size_spec; [exact Hi|lia|]. intros r s' [-> ->]. wp_steps.
    split_and!; [done|done|lia|done].
  - wp_apply hash_is_empty_spec; [exact Hi|]. intros r s' [-> ->]. wp_steps.
    split_and!; [done|done|lia|done].
Qed.

(** ** Keys that do not fit *)

Definition short_keys (bs : list bucket) : Prop :=
  forall b e, b ∈ bs -> e ∈ b -> (String.length (acKey e) < HASH_KEY_MAX_LEN)%nat.

Lemma short_keys_put s bs used conflict i key v :
  short_keys bs -> is_Some (bs !! Z.to_nat i) ->
  wp (hash_put (T := T) (G := list ptr) (bs, used, conflict) i key v) s (fun r s' =>
    cells s' = cells s /\
    forall t, r = Some t -> short_keys t.1.1 /\ length t.1.1 = length bs).
Proof.
  intros Hs [b Hb]. unfold hash_put. set (e := HashElem _ _).
  assert (He : (String.length (acKey e) < HASH_KEY_MAX_LEN)%nat).
  { simpl. pose proof (str_take_length 127 key). unfold HASH_KEY_MAX_LEN in *. simpl in *. lia. }
  assert (Hput : short_keys (<[Z.to_nat i := b ++ [e]]> bs)).
  { intros b0 e0 (j & Hj)%list_elem_of_lookup_1 Hin.
    destruct (decide (j = Z.to_nat i)) as [->|Hne].
    - rewrite list_lookup_insert_eq in Hj by (by eapply lookup_lt_Some). injection Hj as <-.
      apply elem_of_app in Hin as [Hin| ->%list_elem_of_singleton]; [|done].
      eapply Hs; [by eapply list_elem_of_lookup_2|done].
    - rewrite list_lookup_insert_ne in Hj by done.
      eapply Hs; [by eapply list_elem_of_lookup_2|done]. }
  wp_step. eapply wp_get_or; [exact Hb|]. destruct b as [|e0 b].
  - wp_steps. split; [done|]. intros t [= <-]. cbn [fst]. by rewrite length_insert.
  - wp_step. apply wp_reserve. intros ok _. destruct ok; wp_steps; (split; [done|]); [|done].
    intros t [= <-]. cbn [fst]. by rewrite length_insert.
Qed.

Lemma find_long bs key b i :
  short_keys bs -> (HASH_KEY_MAX_LEN <= String.length key)%nat -> bs !! i = Some b ->
  bucket_find key b = NULL /\ bucket_del key b = None.
Proof.
  intros Hs Hk Hb. assert (Hb' : forall e, e ∈ b -> acKey e <> key).
  { intros e He <-. pose proof (Hs b e ltac:(by eapply list_elem_of_lookup_2) He). lia. }
  clear Hb. induction b as [|e b IH]; simpl; [done|]. unfold str_eq.
  rewrite bool_decide_false by (apply Hb'; by left).
  destruct IH as [-> ->]; [|done]. intros e' He'. apply Hb'. by right.
Qed.

(** An object whose stored keys fit: every object the operations build. *)
Definition is_short s (this : positive) : Prop :=
  exists h, hash_at s this = Some h /\ short_keys (pstHashTable h) /\
    0 < uiHashTableSize h /\ Z.of_nat (length (pstHashTable h)) = uiHashTableSize h.

Lemma is_hash_short s this m n : is_hash char_signed s this m n -> is_short s this.
Proof.
  intros (h & Hh & W & _). exists h. split_and!; [done| |apply W|apply W].
  intros b e (i & Hi)%list_elem_of_lookup_1 He. by eapply (tw_slot _ _ _ _ _ W).
Qed.

Lemma long_key_inst s this m n key v :
  is_hash char_signed s this m n -> n < 2 ^ 31 -> v <> NULL ->
  wp (hash_inst char_signed (Some this) (Some key) v) s (fun r s' => is_short s' this).
Proof.
  intros (h & Hh & W & Hn & Hm) Hlt Hv. unfold hash_inst.
  destruct v as [v|]; [|done]. c_red.
  wp_step. eapply wp_htable; [exact Hh|]. wp_step.
  eapply wp_mono; [apply (grow_spec char_signed s this h n m Hh W Hn Hlt Hm)|].
  intros grown s1 (_ & Hi1 & _). destruct grown; c_red; [|wp_steps; by eapply is_hash_short].
  destruct (is_hash_short _ _ _ _ Hi1) as (h1 & Hh1 & Hs1 & Hsz & Hlen).
  wp_step. eapply wp_htable; [exact Hh1|]. wp_step.
  pose proof (hash_range char_signed key (uiHashTableSize h1) Hsz) as Hr.
  destruct (lookup_lt_is_Some_2 (pstHashTable h1) (Z.to_nat (hash char_signed key (uiHashTableSize h1))))
    as [b Hb]; [lia|].
  eapply wp_mono; [apply short_keys_put; [exact Hs1|by eexists]|].
  intros r s2 [Hc Hput].
  assert (Hh2 : hash_at s2 this = Some h1) by (by rewrite (hash_at_same s1)).
  destruct r as [[[bs' u'] c']|]; [|wp_steps; by exists h1].
  destruct (Hput _ eq_refl) as [Hs2 Hl2]. cbn [fst] in *.
  wp_step. eapply wp_set_htable; [exact Hh2|]. intros s3 Hh3 _ _. wp_steps.
  eexists. split_and!; [exact Hh3|done|done|by rewrite <- Hlen; simpl; rewrite Hl2].
Qed.

(** ** Properties *)

(** C36: every sequence of insertions of keys shorter than their buffer,
    deletions, lookups and size queries implements a multimap, whatever the table's
    load and whether or not insertions grow it: a lookup returns the oldest value
    of its key, an insertion of a present key queues behind it, a deletion drops
    the oldest one and hands it (or NULL) to the free handle, the size is the
    number of elements. *)
Theorem hash_table_refines_multimap s this st os :
  hash_implements s this st -> Forall key_fits os ->
  count st + Z.of_nat (length os) < 2 ^ 31 ->
  wp (hash_exec_ops (Some this) os) s (fun rs s' =>
    rs = (hash_spec_ops os st).1 /\ hash_implements s' this (hash_spec_ops os st).2 /\
    forall a, a <> this -> cells s' !! a = cells s !! a).
Proof.
  revert s st. induction os as [|o os IH]; intros s st Hi Hk Hn;
    cbn [hash_exec_ops hash_spec_ops].
  { by wp_steps. }
  inversion Hk as [|? ? Ho Hos]; subst. cbn [length] in Hn. wp_step.
  eapply wp_mono; [apply hash_exec_op_spec; [exact Hi|done|lia]|].
  intros r s1 (-> & Hi1 & Hc1 & Hfr1).
  destruct (hash_spec_op o st) as [r st1]. cbn [fst snd] in *.
  wp_step. eapply wp_mono; [apply IH; [exact Hi1|done|lia]|].
  intros rs s2 (-> & Hi2 & Hfr2). destruct (hash_spec_ops os st1) as [rs st2].
  wp_steps. split_and!; [done|done|]. intros a Ha. by rewrite Hfr2, Hfr1.
Qed.

(** An insertion either succeeds or, only when an allocation fails, returns
    HeapReqErr and leaves the stored multimap as it was; in both cases the lookups
    of every other key are unchanged, growth included. *)
Theorem hash_inst_total s this m n key v :
  is_hash char_signed s this m n -> (String.length key < HASH_KEY_MAX_LEN)%nat -> n + 1 < 2 ^ 31 ->
  exists r s', hash_inst char_signed (Some this) (Some key) (Some v) s = Val (r, s') /\
    (r = NoErr \/ r = HeapReqErr /\ true ∈ oom s) /\
    is_hash char_signed s' this (if r =? NoErr then mm_add m key (Some v) else m)
      (if r =? NoErr then n + 1 else n) /\
    forall k, k <> key -> hash_find char_signed (Some this) (Some k) s' =
                          Val (default NULL (head (m k)), s').
Proof.
  intros Hi Hk Hn.
  assert (wp (hash_inst char_signed (Some this) (Some key) (Some v)) s (fun r s' =>
    (r = NoErr \/ r = HeapReqErr /\ true ∈ oom s) /\
    is_hash char_signed s' this (if r =? NoErr then mm_add m key (Some v) else m)
      (if r =? NoErr then n + 1 else n))) as (r & s' & Hr & Hc & Hi')%wp_run.
  { wp_apply hash_inst_spec; [exact Hi|done|done|lia|].
    intros r s' (_ & _ & [[-> ?]|(-> & ? & ?)]); (split; [tauto|done]). }
  exists r, s'. split_and!; [done|done|done|]. intros k Hne.
  pose proof (hash_find_spec char_signed s' this _ _ k Hi') as (p & s2 & Hf & -> & ->)%wp_run.
  rewrite Hf. do 2 f_equal. destruct (r =? NoErr); [|done].
  unfold mm_add. by rewrite decide_False, app_nil_r.
Qed.

(** A key that does not fit its buffer is stored truncated: right after its
    insertion succeeds, the lookup of the same key returns NULL and its deletion
    finds nothing, so the element stays. *)
Theorem hash_long_key_is_lost s this m n key v :
  is_hash char_signed s this m n -> n < 2 ^ 31 -> (HASH_KEY_MAX_LEN <= String.length key)%nat ->
  exists r s', hash_inst char_signed (Some this) (Some key) (Some v) s = Val (r, s') /\
    hash_find char_signed (Some this) (Some key) s' = Val (NULL, s') /\
    hash_del char_signed None (Some this) (Some key) s' = Val (NoErr, s').
Proof.
  intros Hi Hn Hk.
  pose proof (long_key_inst s this m n key (Some v) Hi Hn ltac:(done))
    as (r & s' & Hr & h & Hh & Hs & Hsz & Hlen)%wp_run.
  exists r, s'. split; [done|].
  pose proof (hash_range char_signed key (uiHashTableSize h) Hsz) as Hrange.
  destruct (lookup_lt_is_Some_2 (pstHashTable h) (Z.to_nat (hash char_signed key (uiHashTableSize h))))
    as [b Hb]; [lia|].
  destruct (find_long _ _ _ _ Hs Hk Hb) as [Hf Hd].
  split.
  - assert (wp (hash_find char_signed (Some this) (Some key)) s' (fun p s2 => p = NULL /\ s2 = s'))
      as (p & s2 & Hp & -> & ->)%wp_run; [|done].
    unfold hash_find; c_red. wp_step. eapply wp_htable; [exact Hh|].
    wp_step. eapply wp_get_or; [exact Hb|]. wp_steps. by rewrite Hf.
  - assert (wp (hash_del char_signed None (Some this) (Some key)) s' (fun p s2 => p = NoErr /\ s2 = s'))
      as (p & s2 & Hp & -> & ->)%wp_run; [|done].
    unfold hash_del; c_red. wp_step. eapply wp_htable; [exact Hh|]. cbv zeta.
    wp_step. eapply wp_get_or; [exact Hb|]. rewrite Hd. by wp_steps.
Qed.
End refinement.

(** ** A concrete table *)

#[export] Instance hash_only : HashHeap hash_table := {
  of_hash h := h; to_hash h := Some h; to_of_hash h := eq_refl
}.

Definition demo_table : heap hash_table (list ptr) :=
  Heap {[1%positive := HashTable 53 true 0 0 (replicate 53 [])]} 2 [] [].

Lemma demo_is_hash : is_hash true demo_table 1 (fun _ => []) 0.
Proof.
  destruct (empty_table true 53 ltac:(lia)) as (W & He & Hv).
  eexists. split_and!; [reflexivity|exact W|exact He|done].
Qed.

Lemma hash_table_refines_multimap_witness :
  wp (hash_exec_ops true (Some 1%positive)
        [HInst "dev" 7; HInst "dev" 8; HFind "dev"; HDel "dev"; HFind "dev"; HSize]) demo_table
    (fun rs s' =>
       rs = [HInt 0; HInt 0; HPtr (Some 7%positive); HInt 0; HPtr (Some 8%positive); HInt 1] /\
       hash_implements true s' 1 (hash_spec_ops
         [HInst "dev" 7; HInst "dev" 8; HFind "dev"; HDel "dev"; HFind "dev"; HSize]
         (HashState (fun _ => []) 0 [])).2 /\
       forall a, a <> 1%positive -> cells s' !! a = cells demo_table !! a).
Proof.
  apply (hash_table_refines_multimap true demo_table 1 (HashState (fun _ => []) 0 [])
    [HInst "dev" 7; HInst "dev" 8; HFind "dev"; HDel "dev"; HFind "dev"; HSize]).
  - split_and!; [apply demo_is_hash|done|by intros []%elem_of_nil|done].
  - repeat constructor; cbn [key_fits]; vm_compute; lia.
  - vm_compute. reflexivity.
Defined.

Lemma hash_inst_total_witness :
  exists r s', hash_inst true (Some 1%positive) (Some "dev"%string) (Some 7%positive) demo_table = Val (r, s') /\
    (r = NoErr \/ r = HeapReqErr /\ true ∈ oom demo_table) /\
    is_hash true s' 1 (if r =? NoErr then mm_add (fun _ => []) "dev" (Some 7%positive) else (fun _ => []))
      (if r =? NoErr then 0 + 1 else 0) /\
    forall k, k <> "dev"%string -> hash_find true (Some 1%positive) (Some k) s' = Val (NULL, s').
Proof.
  apply (hash_inst_total true demo_table 1 (fun _ => []) 0 "dev" 7).
  - apply demo_is_hash.
  - vm_compute. lia.
  - lia.
Defined.

(** A key of 128 bytes. *)
Definition long_key : string := String.string_of_list_ascii (replicate 128 (Ascii.ascii_of_nat 107)).

Lemma hash_long_key_is_lost_witness :
  exists r s', hash_inst true (Some 1%positive) (Some long_key) (Some 7%positive) demo_table = Val (r, s') /\
    hash_find true (Some 1%positive) (Some long_key) s' = Val (NULL, s') /\
    hash_del true None (Some 1%positive) (Some long_key) s' = Val (NoErr, s').
Proof.
  apply (hash_long_key_is_lost true demo_table 1 (fun _ => []) 0 long_key 7).
  - apply demo_is_hash.
  - lia.
  - vm_compute. lia.
Defined.
