(* ===== verification/SceneCond.v ===== *)
(** One condition of a scene: the data of condition_list.h and the two
    functions of scene_list.c that decide whether a condition holds now. *)
From stdpp Require Import strings.
From S2P Require Import Prelude CString.

(** * condition_list.h *)

Record time_cond : Type := TimeCond {
  acTimeKey : string;
  tcTriggerType : string;          (* acTriggerType *)
  acTriggerInterval : string;
  iTriggerInterval : Z;
  acStartHour : string;
  acStartMinu : string;
  acEndHour : string;
  acEndMinu : string;
  acWeek : string;
  acRepeat : string;
  acLose : string
}.

Record event_cond : Type := EventCond {
  ecDevId : string;                (* acDevId *)
  ecKey : string;                  (* acKey *)
  ecTriggerType : string;          (* acTriggerType *)
  acContinueTime : string;
  ecValue : string;                (* acValue *)
  acActive : string;
  acLastValue : string
}.

Record event_t : Type := Event {
  evDevId : string;                (* acDevId *)
  evKey : string;                  (* acKey *)
  evValue : string                 (* acValue *)
}.

#[export] Instance time_cond_eq_dec : EqDecision time_cond.
Proof. solve_decision. Defined.
#[export] Instance event_cond_eq_dec : EqDecision event_cond.
Proof. solve_decision. Defined.

Definition STATE_MAX_LEN : nat := 8.
Definition ACTIVE_MAX_LEN : nat := 8.
Definition WEEK_MAX_LEN : nat := 64.
Definition ACTIVE_EQU : string := "Equ".
Definition ACTIVE_GTR : string := "Gtr".
Definition ACTIVE_LSS : string := "Lss".
Definition ACTIVE_NOT : string := "Not".

(** The local time, as [localtime] gives it. *)
Record tm : Type := Tm { tm_wday : Z; tm_hour : Z; tm_min : Z }.

Definition apcWeek : list string := ["Sun"; "Mon"; "Tue"; "Wed"; "Thu"; "Fri"; "Sat"]%string.

(** The loop that turns a day into 0-6; 7 when it is no day. *)
Fixpoint week_index (weeks : list string) (i : Z) (pWeek : string) : Z :=
  match weeks with
  | [] => i
  | w :: ws => if strn_eq WEEK_MAX_LEN pWeek w then i else week_index ws (i + 1) pWeek
  end.

Definition with_lose (v : string) (c : time_cond) : time_cond :=
  TimeCond (acTimeKey c) (tcTriggerType c) (acTriggerInterval c) (iTriggerInterval c)
    (acStartHour c) (acStartMinu c) (acEndHour c) (acEndMinu c) (acWeek c) (acRepeat c)
    (str_take STATE_MAX_LEN v).

Definition cmp_start (t : tm) (c : time_cond) : Z :=
  time_cmp (tm_hour t) (tm_min t) (atoi (acStartHour c)) (atoi (acStartMinu c)).
Definition cmp_end (t : tm) (c : time_cond) : Z :=
  time_cmp (tm_hour t) (tm_min t) (atoi (acEndHour c)) (atoi (acEndMinu c)).

(** * Time conditions *)

(** The [while] loop over the days of [acWeek]; the condition is returned
    because the loop may set its [acLose]. *)
Fixpoint week_loop (t : tm) (days : list string) (pstCond : time_cond) (iNewTrue : Z)
    : Z * time_cond :=
  match days with
  | [] => (iNewTrue, pstCond)
  | pWeek :: days =>
      let i := week_index apcWeek 0 pWeek in
      if cmp_start t pstCond <? 0 then week_loop t days pstCond (iNewTrue + 0)
      else if (tm_wday t =? i) && (0 <=? cmp_start t pstCond) && (cmp_end t pstCond <=? 0)
      then week_loop t days pstCond (iNewTrue + 1)
      else if 0 =? atoi (acRepeat pstCond)
      then week_loop t days (with_lose "1" pstCond) (iNewTrue + 0)
      else week_loop t days pstCond (iNewTrue + 0)
  end.

Definition _scene_time_cond_is_true (t : tm) (pstCond : time_cond) : Z * time_cond :=
  let '(iNewTrue, pstCond) :=
    if strn_eq STATE_MAX_LEN (acLose pstCond) "1" then (0, pstCond)
    else week_loop t (tokens (str_take WEEK_MAX_LEN (acWeek pstCond))) pstCond 0 in
  (if iNewTrue =? 0 then 0 else 1, pstCond).

(** * Event conditions *)

Definition _scene_event_cond_is_true (pstCond : event_cond) (pstEventInfo : event_t) : Z :=
  let act := acActive pstCond in
  let x := evValue pstEventInfo in
  let y := ecValue pstCond in
  if truth (is_int y) then
    if strn_eq ACTIVE_MAX_LEN act ACTIVE_EQU then of_bool (atoi x =? atoi y)
    else if strn_eq ACTIVE_MAX_LEN act ACTIVE_GTR then of_bool (atoi y <? atoi x)
    else if strn_eq ACTIVE_MAX_LEN act ACTIVE_LSS then of_bool (atoi x <? atoi y)
    else if strn_eq ACTIVE_MAX_LEN act ACTIVE_NOT then of_bool (negb (atoi x =? atoi y))
    else 0
  else if truth (is_float y) then
    if strn_eq ACTIVE_MAX_LEN act ACTIVE_EQU then of_bool (dnear (atof x) (atof y))
    else if strn_eq ACTIVE_MAX_LEN act ACTIVE_GTR then of_bool (dgt (atof x) (atof y))
    else if strn_eq ACTIVE_MAX_LEN act ACTIVE_LSS then of_bool (dgt (atof x) (atof y))
    else if strn_eq ACTIVE_MAX_LEN act ACTIVE_NOT then of_bool (dfar (atof x) (atof y))
    else 0
  else
    let iRet := strcmp x y in
    if strn_eq ACTIVE_MAX_LEN act ACTIVE_EQU then of_bool (iRet =? 0)
    else if strn_eq ACTIVE_MAX_LEN act ACTIVE_GTR then of_bool (0 <? iRet)
    else if strn_eq ACTIVE_MAX_LEN act ACTIVE_LSS then of_bool (iRet <? 0)
    else if strn_eq ACTIVE_MAX_LEN act ACTIVE_NOT then of_bool (negb (iRet =? 0))
    else 0.

(** * What the two functions decide *)

(** The condition's window contains the time of day, and one of its days is
    today. *)
Definition in_window (t : tm) (c : time_cond) : bool :=
  (0 <=? cmp_start t c) && (cmp_end t c <=? 0).
Definition is_today (t : tm) (d : string) : bool := tm_wday t =? week_index apcWeek 0 d.
Definition week_days (c : time_cond) : list string := tokens (str_take WEEK_MAX_LEN (acWeek c)).
Definition lost (c : time_cond) : bool := strn_eq STATE_MAX_LEN (acLose c) "1".

(** When the check makes the condition void: it does not repeat, its start has
    passed, and some day of the list is not today or the window is over. *)
Definition loses (t : tm) (c : time_cond) : bool :=
  negb (lost c) && (atoi (acRepeat c) =? 0) && (0 <=? cmp_start t c) &&
  existsb (fun d => negb (is_today t d && in_window t c)) (week_days c).

Lemma week_loop_spec t days c n :
  0 <= n ->
  (fst (week_loop t days c n) =? 0) =
    ((n =? 0) && negb (existsb (fun d => is_today t d && in_window t c) days)) /\
  snd (week_loop t days c n) =
    if (atoi (acRepeat c) =? 0) && (0 <=? cmp_start t c) &&
       existsb (fun d => negb (is_today t d && in_window t c)) days
    then with_lose "1" c else c.
Proof.
  revert c n. induction days as [|d ds IH]; intros c n Hn.
  { cbn. rewrite andb_false_r, andb_true_r. done. }
  cbn [week_loop existsb]. unfold is_today at 1 3, in_window at 1 3.
  destruct (Z.ltb_spec (cmp_start t c) 0) as [Hs|Hs].
  - rewrite Z.add_0_r. destruct (IH c n Hn) as [IH1 IH2]. rewrite IH1, IH2.
    assert ((0 <=? cmp_start t c) = false) as -> by (apply Z.leb_gt; lia).
    by destruct (atoi (acRepeat c) =? 0), (tm_wday t =? week_index apcWeek 0 d).
  - assert ((0 <=? cmp_start t c) = true) as Hs' by (apply Z.leb_le; lia).
    rewrite Hs', !andb_true_r, !andb_true_l.
    destruct ((tm_wday t =? week_index apcWeek 0 d) && (cmp_end t c <=? 0)) eqn:Hd.
    + cbn [negb orb]. destruct (IH c (n + 1) ltac:(lia)) as [IH1 IH2].
      rewrite IH1, IH2, Hs', andb_true_r. split; [|done].
      assert ((n + 1 =? 0) = false) as -> by (apply Z.eqb_neq; lia).
      by rewrite andb_false_r.
    + cbn [negb orb]. rewrite andb_true_r, Z.add_0_r, (Z.eqb_sym 0).
      destruct (atoi (acRepeat c) =? 0) eqn:Hr.
      * destruct (IH (with_lose "1" c) n Hn) as [IH1 IH2]. split; [exact IH1|].
        rewrite IH2. by case_match.
      * destruct (IH c n Hn) as [IH1 IH2]. rewrite IH1, IH2, Hr. done.
Qed.

Lemma check_exact t c :
  _scene_time_cond_is_true t c =
    (of_bool (negb (lost c) && existsb (fun d => is_today t d && in_window t c) (week_days c)),
     if loses t c then with_lose "1" c else c).
Proof.
  unfold _scene_time_cond_is_true, loses. fold (lost c) (week_days c).
  destruct (lost c); [done|]. rewrite !andb_true_l.
  destruct (week_loop_spec t (week_days c) c 0 ltac:(lia)) as [H1 H2].
  rewrite andb_true_l in H1. rewrite <- H2.
  destruct (week_loop t (week_days c) c 0) as [r c']. cbn [fst snd] in *. rewrite H1.
  by destruct (existsb _ _).
Qed.

Definition minutes (h m : Z) : Z := 60 * h + m.
Definition now_minutes (t : tm) : Z := minutes (tm_hour t) (tm_min t).
Definition start_minutes (c : time_cond) : Z := minutes (atoi (acStartHour c)) (atoi (acStartMinu c)).
Definition end_minutes (c : time_cond) : Z := minutes (atoi (acEndHour c)) (atoi (acEndMinu c)).

(** Hours and minutes as a clock writes them. *)
Definition clock_ok (t : tm) (c : time_cond) : Prop :=
  0 <= tm_min t < 60 /\ 0 <= atoi (acStartMinu c) < 60 /\ 0 <= atoi (acEndMinu c) < 60.

Lemma in_window_iff t c :
  clock_ok t c ->
  in_window t c = true <-> start_minutes c <= now_minutes t <= end_minutes c.
Proof.
  intros (Hm & Hs & He). unfold in_window, cmp_start, cmp_end.
  rewrite !time_cmp_spec by done. rewrite andb_true_iff, !Z.leb_le.
  unfold start_minutes, end_minutes, now_minutes, minutes. lia.
Qed.

(** A time condition is true exactly when it is not void, one of its days
    is today and the time of day lies between its start and its end, both
    included; the check changes the condition only by making it void, and only
    when it does not repeat, its start has passed and some listed day fails. *)
Theorem time_cond_check_exact t c :
  clock_ok t c ->
  let '(iTrue, c') := _scene_time_cond_is_true t c in
  (iTrue = 0 \/ iTrue = 1) /\
  (iTrue = 1 <-> lost c = false /\ Exists (fun d => tm_wday t = week_index apcWeek 0 d) (week_days c) /\
                 start_minutes c <= now_minutes t <= end_minutes c) /\
  (c' <> c -> c' = with_lose "1" c /\ lost c = false /\ atoi (acRepeat c) = 0 /\
              start_minutes c <= now_minutes t /\
              (end_minutes c < now_minutes t \/
               Exists (fun d => tm_wday t <> week_index apcWeek 0 d) (week_days c))).
Proof.
  intros Hc. rewrite check_exact. pose proof (in_window_iff t c Hc) as Hw.
  split_and!.
  - destruct (_ && _); simpl; tauto.
  - rewrite Exists_exists.
    destruct (negb (lost c) && _) eqn:Hb; simpl.
    + apply andb_true_iff in Hb as [Hl (d & Hd & He)%existsb_exists].
      apply andb_true_iff in He as [Ht Hin]. apply negb_true_iff in Hl.
      split; [|done]. intros _. split_and!; [done| |by apply Hw..].
      exists d. split; [by apply list_elem_of_In|by apply Z.eqb_eq].
    + split; [done|]. intros (Hl & (d & Hd & Ht) & Hin). rewrite Hl in Hb.
      apply not_true_iff_false in Hb. destruct Hb. simpl. apply existsb_exists.
      exists d. split; [by apply list_elem_of_In|].
      apply andb_true_iff. split; [by apply Z.eqb_eq|by apply Hw].
  - destruct (loses t c) eqn:Hl; [|done]. intros _. split; [done|].
    unfold loses in Hl. repeat (apply andb_true_iff in Hl as [Hl ?]).
    apply negb_true_iff in Hl.
    assert (start_minutes c <= now_minutes t) as Hst.
    { destruct Hc as (? & ? & ?). unfold cmp_start in *.
      rewrite time_cmp_spec in * by done.
      unfold start_minutes, now_minutes, minutes. lia. }
    split_and!; [done|by apply Z.eqb_eq|done|].
    rewrite Exists_exists. apply existsb_exists in H as (d & Hd & Hx).
    apply negb_true_iff, andb_false_iff in Hx as [Hx|Hx].
    + right. exists d. split; [by apply list_elem_of_In|by apply Z.eqb_neq].
    + left. apply not_true_iff_false in Hx. rewrite Hw in Hx. lia.
Qed.

(** A one-shot condition on working days, eight to ten. *)
Definition demo_cond : time_cond :=
  TimeCond "t1" "Instant" "0" 0 "8" "00" "10" "00" "Mon,Tue" "0" "0".

Lemma time_cond_check_exact_witness :
  _scene_time_cond_is_true (Tm 1 9 30) demo_cond = (1, with_lose "1" demo_cond) /\
  let '(iTrue, c') := _scene_time_cond_is_true (Tm 1 9 30) demo_cond in
  (iTrue = 0 \/ iTrue = 1) /\
  (iTrue = 1 <-> lost demo_cond = false /\
     Exists (fun d => 1 = week_index apcWeek 0 d) (week_days demo_cond) /\
     start_minutes demo_cond <= now_minutes (Tm 1 9 30) <= end_minutes demo_cond) /\
  (c' <> demo_cond -> c' = with_lose "1" demo_cond /\ lost demo_cond = false /\
     atoi (acRepeat demo_cond) = 0 /\
     start_minutes demo_cond <= now_minutes (Tm 1 9 30) /\
     (end_minutes demo_cond < now_minutes (Tm 1 9 30) \/
      Exists (fun d => 1 <> week_index apcWeek 0 d) (week_days demo_cond))).
Proof.
  split; [vm_compute; reflexivity|].
  apply (time_cond_check_exact (Tm 1 9 30) demo_cond).
  split_and!; vm_compute; congruence.
Defined.

(** The check makes a one-shot condition void on a day that is not one of
    its days, as soon as the time of day reaches its start; from then on it is
    false at every time, though its window has not come yet. *)
Theorem time_cond_one_shot_lost_early t t' c :
  lost c = false -> atoi (acRepeat c) = 0 -> week_days c <> [] ->
  Forall (fun d => tm_wday t <> week_index apcWeek 0 d) (week_days c) ->
  0 <= cmp_start t c ->
  fst (_scene_time_cond_is_true t' (snd (_scene_time_cond_is_true t c))) = 0.
Proof.
  intros Hl Hr Hne Hd Hs. rewrite !check_exact. cbn [fst snd].
  assert (loses t c = true) as ->; [|done].
  unfold loses. rewrite Hl, Hr. apply Z.leb_le in Hs. rewrite Hs. simpl.
  destruct (week_days c) as [|d ds]; [done|]. simpl.
  apply Forall_cons in Hd as [Hd _]. unfold is_today.
  apply Z.eqb_neq in Hd. by rewrite Hd.
Qed.

(** Checked on Monday at nine, a one-shot condition for Tuesday eight to ten
    is false on Tuesday at nine. *)
Lemma time_cond_one_shot_lost_early_witness :
  let c := TimeCond "t1" "Instant" "0" 0 "8" "00" "10" "00" "Tue" "0" "0" in
  fst (_scene_time_cond_is_true (Tm 2 9 0) c) = 1 /\
  fst (_scene_time_cond_is_true (Tm 2 9 0) (snd (_scene_time_cond_is_true (Tm 1 9 0) c))) = 0.
Proof.
  intros c. split; [vm_compute; reflexivity|].
  apply (time_cond_one_shot_lost_early (Tm 1 9 0) (Tm 2 9 0) c);
    [vm_compute; reflexivity..| | |]; [vm_compute; congruence| |vm_compute; congruence].
  apply Forall_cons. split; [vm_compute; congruence|apply Forall_nil; exact I].
Defined.

(** * Event conditions *)

Definition with_active (a : string) (c : event_cond) : event_cond :=
  EventCond (ecDevId c) (ecKey c) (ecTriggerType c) (acContinueTime c) (ecValue c) a (acLastValue c).

(** A value that [is_float] takes and [is_int] does not. *)
Definition float_value (v : string) : bool := negb (truth (is_int v)) && truth (is_float v).

(** For an integer or a string value the comparisons are a trichotomy:
    exactly one of Equ, Gtr and Lss is true, and Not is the negation of Equ. *)
Theorem event_cond_trichotomy c e :
  float_value (ecValue c) = false ->
  let is_true a := _scene_event_cond_is_true (with_active a c) e in
  is_true ACTIVE_EQU + is_true ACTIVE_GTR + is_true ACTIVE_LSS = 1 /\
  is_true ACTIVE_NOT = 1 - is_true ACTIVE_EQU /\
  (is_int (ecValue c) = 1 -> is_true ACTIVE_EQU = of_bool (atoi (evValue e) =? atoi (ecValue c))) /\
  (is_int (ecValue c) = 0 -> is_true ACTIVE_EQU = of_bool (bool_decide (evValue e = ecValue c))).
Proof.
  intros Hf is_true. unfold is_true, _scene_event_cond_is_true.
  cbn [ecValue acActive with_active]. unfold float_value in Hf.
  set (x := evValue e). set (y := ecValue c) in *.
  change (strn_eq ACTIVE_MAX_LEN ACTIVE_EQU ACTIVE_EQU) with true.
  change (strn_eq ACTIVE_MAX_LEN ACTIVE_GTR ACTIVE_EQU) with false.
  change (strn_eq ACTIVE_MAX_LEN ACTIVE_LSS ACTIVE_EQU) with false.
  change (strn_eq ACTIVE_MAX_LEN ACTIVE_NOT ACTIVE_EQU) with false.
  change (strn_eq ACTIVE_MAX_LEN ACTIVE_GTR ACTIVE_GTR) with true.
  change (strn_eq ACTIVE_MAX_LEN ACTIVE_LSS ACTIVE_GTR) with false.
  change (strn_eq ACTIVE_MAX_LEN ACTIVE_NOT ACTIVE_GTR) with false.
  change (strn_eq ACTIVE_MAX_LEN ACTIVE_LSS ACTIVE_LSS) with true.
  change (strn_eq ACTIVE_MAX_LEN ACTIVE_NOT ACTIVE_LSS) with false.
  change (strn_eq ACTIVE_MAX_LEN ACTIVE_NOT ACTIVE_NOT) with true.
  cbv iota. destruct (truth (is_int y)) eqn:Hi; simpl in Hf.
  - split_and!; [| |done|intros H0; rewrite H0 in Hi; done].
    + destruct (Z.eqb_spec (atoi x) (atoi y)), (Z.ltb_spec (atoi y) (atoi x)),
        (Z.ltb_spec (atoi x) (atoi y)); simpl; lia.
    + by destruct (atoi x =? atoi y).
  - rewrite Hf. split_and!.
    + destruct (Z.eqb_spec (strcmp x y) 0), (Z.ltb_spec 0 (strcmp x y)),
        (Z.ltb_spec (strcmp x y) 0); simpl; lia.
    + by destruct (strcmp x y =? 0).
    + intros H1. rewrite H1 in Hi. done.
    + intros _. f_equal. case_bool_decide as Hxy.
      * apply Z.eqb_eq. by apply strcmp_eq.
      * apply Z.eqb_neq. by rewrite strcmp_eq.
Qed.

Lemma event_cond_trichotomy_witness :
  let c := EventCond "d" "Temp" "Instant" "0" "26" "Gtr" "" in
  let e := Event "d" "Temp" "30" in
  let is_true a := _scene_event_cond_is_true (with_active a c) e in
  is_true ACTIVE_GTR = 1 /\
  is_true ACTIVE_EQU + is_true ACTIVE_GTR + is_true ACTIVE_LSS = 1 /\
  is_true ACTIVE_NOT = 1 - is_true ACTIVE_EQU /\
  (is_int (ecValue c) = 1 -> is_true ACTIVE_EQU = of_bool (atoi (evValue e) =? atoi (ecValue c))) /\
  (is_int (ecValue c) = 0 -> is_true ACTIVE_EQU = of_bool (bool_decide (evValue e = ecValue c))).
Proof.
  intros c e is_true. split; [vm_compute; reflexivity|].
  apply (event_cond_trichotomy c e). vm_compute. reflexivity.
Defined.

(** For a float value "Lss" asks for greater: it agrees with "Gtr" on
    every report, so a value below the bound never makes the condition true. *)
Theorem event_cond_float_lss_is_gtr c e :
  float_value (ecValue c) = true ->
  _scene_event_cond_is_true (with_active ACTIVE_LSS c) e =
    _scene_event_cond_is_true (with_active ACTIVE_GTR c) e /\
  (_scene_event_cond_is_true (with_active ACTIVE_LSS c) e = 1 <->
     dgt (atof (evValue e)) (atof (ecValue c)) = true).
Proof.
  intros Hf. unfold float_value in Hf. apply andb_true_iff in Hf as [Hi%negb_true_iff Hf].
  unfold _scene_event_cond_is_true. cbn [ecValue acActive with_active].
  rewrite Hi, Hf. split; [done|]. cbn. by destruct (dgt _ _).
Qed.

(** 20.5 is below 21.5, and the condition "below 21.5" is false for it. *)
Lemma event_cond_float_lss_is_gtr_witness :
  let c := EventCond "d" "Temp" "Instant" "0" "21.5" "Lss" "" in
  _scene_event_cond_is_true (with_active ACTIVE_LSS c) (Event "d" "Temp" "20.5") =
    _scene_event_cond_is_true (with_active ACTIVE_GTR c) (Event "d" "Temp" "20.5") /\
  (_scene_event_cond_is_true (with_active ACTIVE_LSS c) (Event "d" "Temp" "20.5") = 1 <->
     dgt (atof "20.5") (atof "21.5") = true).
Proof.
  intros c. apply (event_cond_float_lss_is_gtr c (Event "d" "Temp" "20.5")).
  vm_compute. reflexivity.
Defined.
