(* ===== verification/SceneTimer.v ===== *)
(** The table of software timers of src/hylink/src/local_scene/scene_timer.c:
    timers counted down by a one-second clock, their tasks handed to a pool. *)
From stdpp Require Import list.
From S2P Require Import Prelude.

Definition TIMER_NUM : Z := 16.
Definition TIMER_NUM_MIN : Z := 1.
Definition TIMER_NUM_MAX : Z := 32.
Definition TIMER_TASK_ALWAYS : Z := -1.
Definition TIMER_TASK_ONCE : Z := 1.

(** [scene_task_timer_t]: [F] are the task functions, [A] their arguments. *)
Record timer (F A : Type) : Type := Timer {
  pfTimerExecFun : option F;
  pFunArg : option A;
  iFunExecTime : Z;
  ulTime : Z;
  ulRunTime : Z;
  ucUsedFlag : Z
}.
Arguments Timer {F A} pfTimerExecFun pFunArg iFunExecTime ulTime ulRunTime ucUsedFlag.
Arguments pfTimerExecFun {F A} t.
Arguments pFunArg {F A} t.
Arguments iFunExecTime {F A} t.
Arguments ulTime {F A} t.
Arguments ulRunTime {F A} t.
Arguments ucUsedFlag {F A} t.

(** The globals: the table (absent before [init]), its size, the tasks handed
    to the thread pool so far, and the outcomes of the next allocations. *)
Record timers (F A : Type) : Type := Timers {
  g_pstTimerList : option (list (timer F A));
  g_iTimerNum : Z;
  pool : list (option F * option A);
  t_oom : list bool
}.
Arguments Timers {F A} g_pstTimerList g_iTimerNum pool t_oom.
Arguments g_pstTimerList {F A} t.
Arguments g_iTimerNum {F A} t.
Arguments pool {F A} t.
Arguments t_oom {F A} t.

Section ops.
Context {F A : Type}.
Abbreviation timer := (timer F A).
Abbreviation timers := (timers F A).

(** What [memset] leaves. *)
Definition zero_timer : timer := Timer None None 0 0 0 0.

Definition table : M timers (list timer) :=
  s ← getS; get_or NullDeref (g_pstTimerList s).
(** [g_pstTimerList[i]] *)
Definition slot (i : Z) : M timers timer :=
  l ← table;
  if i <? 0 then fail OutOfBounds else get_or OutOfBounds (l !! Z.to_nat i).
Definition set_slot (i : Z) (t : timer) : M timers unit :=
  _ ← slot i;
  l ← table;
  modify (fun s => Timers (Some (<[Z.to_nat i := t]> l)) (g_iTimerNum s) (pool s) (t_oom s)).
Definition t_alloc : M timers bool := fun s =>
  Val (negb (hd false (t_oom s)),
       Timers (g_pstTimerList s) (g_iTimerNum s) (pool s) (tl (t_oom s))).
Definition thread_pool_add_worker (f : option F) (a : option A) : M timers unit :=
  modify (fun s => Timers (g_pstTimerList s) (g_iTimerNum s) (pool s ++ [(f, a)]) (t_oom s)).

(** [iPool] is what [thread_pool_init] returns. *)
Definition scene_task_timer_init (iTimerNum iPool : Z) : M timers Z :=
  let num := if iTimerNum <? TIMER_NUM_MIN then TIMER_NUM_MIN
             else if TIMER_NUM_MAX <? iTimerNum then TIMER_NUM_MAX else iTimerNum in
  modify (fun s => Timers (g_pstTimerList s) num (pool s) (t_oom s)) ;;
  ok ← t_alloc;
  if negb ok then
    modify (fun s => Timers None (g_iTimerNum s) (pool s) (t_oom s)) ;; mret (-1)
  else
    modify (fun s => Timers (Some (replicate (Z.to_nat iTimerNum) zero_timer))
                       (g_iTimerNum s) (pool s) (t_oom s)) ;;
    if iPool <? 0 then mret (-1) else mret 0.

Definition scene_task_timer_destroy : M timers Z :=
  modify (fun s => Timers None (g_iTimerNum s) (pool s) (t_oom s)) ;; mret 0.

(** [for (i = 0; i < g_iTimerNum; ++i) if (0 == ...ucUsedFlag) break;] *)
Fixpoint find_free (n : nat) (i : Z) : M timers Z :=
  match n with
  | O => mret i
  | S n =>
      t ← slot i;
      if 0 =? ucUsedFlag t then mret i else find_free n (i + 1)
  end.

Definition scene_task_timer_create (pf : option F) (arg : option A) (ulT : Z) (iExec : Z)
    : M timers Z :=
  if 0 =? ulT then mret (-1) else
  if (0 =? iExec) || (iExec <? -1) then mret (-1) else
  s ← getS;
  i ← find_free (Z.to_nat (g_iTimerNum s)) 0;
  if g_iTimerNum s <? i then mret (-1) else
  set_slot i zero_timer ;;
  match arg with
  | Some _ =>
      set_slot i (Timer pf None 0 0 0 0) ;;
      ok ← t_alloc;
      if negb ok then mret (-1) else
      set_slot i (Timer pf arg iExec ulT ulT 1) ;; mret i
  | None => set_slot i (Timer pf None iExec ulT ulT 1) ;; mret i
  end.

Definition scene_task_timer_change (iTimerId : Z) (pf : option F) (arg : option A)
    (ulT : Z) (iExec : Z) : M timers Z :=
  t ← slot iTimerId;
  if 0 =? ucUsedFlag t then mret (-1) else
  let pf' := match pf with Some _ => pf | None => pfTimerExecFun t end in
  let arg' := match arg with Some _ => arg | None => pFunArg t end in
  let '(ulT', ulR') := if truth ulT then (ulT, ulT) else (ulTime t, ulRunTime t) in
  let iExec' := if truth iExec then iExec else iFunExecTime t in
  set_slot iTimerId (Timer pf' arg' iExec' ulT' ulR' (ucUsedFlag t)) ;;
  mret 0.

Definition scene_task_timer_dele (iTimerId : Z) : M timers Z :=
  s ← getS;
  if g_iTimerNum s <=? iTimerId then mret (-1) else
  t ← slot iTimerId;
  set_slot iTimerId
    (Timer (pfTimerExecFun t) None (iFunExecTime t) (ulTime t) (ulRunTime t) 0) ;;
  mret 0.

Definition scene_task_timer_reset (iTimerId : Z) (pf : option F) (arg : option A)
    (ulT : Z) (iExec : Z) : M timers Z :=
  s ← getS;
  if g_iTimerNum s <=? iTimerId then mret (-1) else
  if (0 =? iExec) || (iExec <? -1) then mret (-1) else
  t ← slot iTimerId;
  if 0 =? ucUsedFlag t then mret (-1) else
  set_slot iTimerId (Timer pf arg iExec ulT ulT 1) ;;
  mret 0.

(** The body of the loop of [scene_task_timer_run]. *)
Definition run_slot (i : Z) : M timers unit :=
  t ← slot i;
  if truth (ucUsedFlag t) then
    if ulRunTime t <=? 1 then
      thread_pool_add_worker (pfTimerExecFun t) (pFunArg t) ;;
      let n := if -1 =? iFunExecTime t then iFunExecTime t else s32 (iFunExecTime t - 1) in
      if truth n then
        set_slot i (Timer (pfTimerExecFun t) (pFunArg t) n (ulTime t) (ulTime t) (ucUsedFlag t))
      else
        set_slot i (Timer (pfTimerExecFun t) None n (ulTime t) (ulRunTime t) 0)
    else
      set_slot i (Timer (pfTimerExecFun t) (pFunArg t) (iFunExecTime t) (ulTime t)
                    (ulRunTime t - 1) (ucUsedFlag t))
  else mret tt.

Fixpoint run_slots (n : nat) (i : Z) : M timers unit :=
  match n with
  | O => mret tt
  | S n => run_slot i ;; run_slots n (i + 1)
  end.

Definition scene_task_timer_run : M timers unit :=
  s ← getS; run_slots (Z.to_nat (g_iTimerNum s)) 0.
End ops.

(** * What the table does over time *)

Section spec.
Context {F A : Type}.
Abbreviation timer := (timer F A).
Abbreviation timers := (timers F A).
Abbreviation job := (option F * option A)%type.

(** One second of one timer: its new state, and the task it hands over. *)
Definition tick (t : timer) : timer * list job :=
  if ucUsedFlag t =? 0 then (t, []) else
  if ulRunTime t <=? 1 then
    let n := if iFunExecTime t =? -1 then -1 else s32 (iFunExecTime t - 1) in
    ((if n =? 0
      then Timer (pfTimerExecFun t) None 0 (ulTime t) (ulRunTime t) 0
      else Timer (pfTimerExecFun t) (pFunArg t) n (ulTime t) (ulTime t) (ucUsedFlag t)),
     [(pfTimerExecFun t, pFunArg t)])
  else (Timer (pfTimerExecFun t) (pFunArg t) (iFunExecTime t) (ulTime t)
          (ulRunTime t - 1) (ucUsedFlag t), []).

(** The tasks of one timer over [k] seconds. *)
Fixpoint jobs (k : nat) (t : timer) : list job :=
  match k with O => [] | S k => (tick t).2 ++ jobs k (tick t).1 end.
Fixpoint ticks (k : nat) (t : timer) : timer :=
  match k with O => t | S k => ticks k (tick t).1 end.

(** The clock: [k] runs of the table. *)
Fixpoint clock (k : nat) : M timers unit :=
  match k with O => mret tt | S k => scene_task_timer_run ;; clock k end.

(** A table as long as the number of timers says. *)
Definition table_ok (s : timers) (l : list timer) : Prop :=
  g_pstTimerList s = Some l /\ g_iTimerNum s = Z.of_nat (length l).

Lemma wp_slot s l i t (Q : timer -> timers -> Prop) :
  g_pstTimerList s = Some l -> l !! i = Some t -> Q t s -> wp (slot (Z.of_nat i)) s Q.
Proof.
  intros Hl Ht HQ. unfold slot, table. wp_steps.
  destruct (Z.ltb_spec (Z.of_nat i) 0); [lia|].
  eapply wp_get_or; [by rewrite Nat2Z.id|done].
Qed.

Lemma wp_set_slot s l i t0 t (Q : unit -> timers -> Prop) :
  g_pstTimerList s = Some l -> l !! i = Some t0 ->
  Q tt (Timers (Some (<[i := t]> l)) (g_iTimerNum s) (pool s) (t_oom s)) ->
  wp (set_slot (Z.of_nat i) t) s Q.
Proof.
  intros Hl Ht HQ. unfold set_slot. wp_step. eapply wp_slot; [exact Hl|exact Ht|].
  unfold table. wp_steps.
  by rewrite Nat2Z.id.
Qed.

Lemma run_slot_spec s l i t :
  g_pstTimerList s = Some l -> l !! i = Some t ->
  wp (run_slot (Z.of_nat i)) s (fun _ s' =>
    s' = Timers (Some (<[i := (tick t).1]> l)) (g_iTimerNum s) (pool s ++ (tick t).2) (t_oom s)).
Proof.
  intros Hl Ht. unfold run_slot, tick, truth. wp_step. eapply wp_slot; [exact Hl|exact Ht|].
  destruct (Z.eqb_spec (ucUsedFlag t) 0) as [Hu|Hu]; cbn [negb fst snd].
  { wp_steps. rewrite (list_insert_id _ _ _ Ht), app_nil_r, <- Hl. by destruct s. }
  destruct (ulRunTime t <=? 1).
  - wp_step. unfold thread_pool_add_worker. wp_step. cbv zeta. rewrite (Z.eqb_sym (-1)).
    destruct (Z.eqb_spec (iFunExecTime t) (-1)) as [->|_]; cbn [negb fst snd].
    { eapply wp_set_slot; [exact Hl|exact Ht|done]. }
    destruct (Z.eqb_spec (s32 (iFunExecTime t - 1)) 0) as [->|_]; cbn [negb];
      (eapply wp_set_slot; [exact Hl|exact Ht|done]).
  - eapply wp_set_slot; [exact Hl|exact Ht|]. cbn [fst snd]. by rewrite app_nil_r.
Qed.

Lemma run_slots_spec l1 : forall l0 s,
  g_pstTimerList s = Some (l0 ++ l1) ->
  wp (run_slots (length l1) (Z.of_nat (length l0))) s (fun _ s' =>
    s' = Timers (Some (l0 ++ ((fun t => (tick t).1) <$> l1))) (g_iTimerNum s)
           (pool s ++ concat ((fun t => (tick t).2) <$> l1)) (t_oom s)).
Proof.
  induction l1 as [|t l1 IH]; intros l0 s Hl; simpl.
  { wp_steps. rewrite !app_nil_r in *. rewrite <- Hl. by destruct s. }
  wp_step. eapply wp_mono.
  { eapply run_slot_spec; [exact Hl|]. by rewrite lookup_app_r, Nat.sub_diag by lia. }
  intros _ s1 ->. rewrite insert_app_r_alt, Nat.sub_diag by lia. simpl.
  replace (Z.of_nat (length l0) + 1) with (Z.of_nat (length (l0 ++ [(tick t).1])))
    by (rewrite length_app; simpl; lia).
  eapply wp_mono; [apply IH; simpl; by rewrite <- app_assoc|].
  intros _ s2 ->. simpl. by rewrite <- !app_assoc.
Qed.

Lemma run_spec s l :
  table_ok s l ->
  wp scene_task_timer_run s (fun _ s' =>
    table_ok s' ((fun t => (tick t).1) <$> l) /\ t_oom s' = t_oom s /\
    pool s' = pool s ++ concat ((fun t => (tick t).2) <$> l)).
Proof.
  intros [Hl Hn]. unfold scene_task_timer_run. wp_steps. rewrite Hn, Nat2Z.id.
  eapply wp_mono; [apply (run_slots_spec l [] s Hl)|]. intros _ s' ->.
  split_and!; [split; [done|]|done|done]. simpl. by rewrite length_fmap.
Qed.

Lemma concat_perm (l : list timer) (f g : timer -> list job) :
  concat (f <$> l) ++ concat (g <$> l) ≡ₚ concat ((fun t => f t ++ g t) <$> l).
Proof.
  induction l as [|t l IH]; simpl; [done|]. rewrite <- IH. solve_Permutation.
Qed.

Lemma jobs_concat k (l : list timer) :
  concat ((fun t => (tick t).2) <$> l) ++ concat (jobs k <$> ((fun t => (tick t).1) <$> l))
  ≡ₚ concat (jobs (S k) <$> l).
Proof.
  rewrite <- list_fmap_compose.
  exact (concat_perm l (fun t => (tick t).2) (fun t => jobs k (tick t).1)).
Qed.

Lemma clock_spec k : forall s l,
  table_ok s l ->
  wp (clock k) s (fun _ s' =>
    table_ok s' (ticks k <$> l) /\ t_oom s' = t_oom s /\
    pool s' ≡ₚ pool s ++ concat (jobs k <$> l)).
Proof.
  induction k as [|k IH]; intros s l Hok; cbn [clock].
  - wp_steps. assert (Hid : ticks 0 <$> l = l) by (clear; induction l; simpl; by f_equal).
    rewrite Hid.
    assert (concat (jobs 0 <$> l) = []) as -> by (clear; by induction l).
    by rewrite app_nil_r.
  - wp_step. wp_apply run_spec; [exact Hok|]. intros _ s1 (Hok1 & Ho1 & Hp1).
    wp_apply IH; [exact Hok1|]. intros _ s2 (Hok2 & Ho2 & Hp2). split_and!.
    + by rewrite <- list_fmap_compose in Hok2.
    + congruence.
    + rewrite Hp2, Hp1, <- (app_assoc (pool s)), jobs_concat. done.
Qed.
End spec.

(** * Schedules *)

(** How often a timer with [r] seconds to go, period [T] and [m] runs left
    (-1: no bound) has run after [k] seconds. *)
Definition runs (k r T m : Z) : Z :=
  if k <? r then 0
  else let n := 1 + (k - r) / T in if m =? TIMER_TASK_ALWAYS then n else Z.min m n.

(** The table has a free slot. *)
Definition is_free {F A} (t : timer F A) : bool := ucUsedFlag t =? 0.

Section schedule.
Context {F A : Type}.
Abbreviation timer := (timer F A).
Abbreviation timers := (timers F A).
Implicit Types (l : list timer) (s : timers).

Lemma jobs_unused k (t : timer) : is_free t = true -> jobs k t = [].
Proof.
  intros Hf. induction k as [|k IH]; [done|]. simpl. unfold is_free in Hf.
  unfold tick. rewrite Hf. exact IH.
Qed.

Lemma runs_step k r T m :
  0 <= k -> 1 <= r -> 1 <= T -> m = -1 \/ 1 <= m ->
  runs (k + 1) r T m =
    if r =? 1 then 1 + (if m =? 1 then 0 else runs k T T (if m =? -1 then -1 else m - 1))
    else runs k (r - 1) T m.
Proof.
  intros Hk Hr HT Hm. unfold runs, TIMER_TASK_ALWAYS.
  destruct (Z.eqb_spec r 1) as [->|Hr1].
  - destruct (Z.ltb_spec (k + 1) 1); [lia|]. replace (k + 1 - 1) with k by lia.
    destruct (Z.eqb_spec m 1) as [->|Hm1].
    { simpl. pose proof (Z.div_pos k T). lia. }
    destruct (Z.ltb_spec k T) as [Hlt|Hge].
    { rewrite Z.div_small by lia. destruct (Z.eqb_spec m (-1)); lia. }
    replace (k / T) with (1 + (k - T) / T).
    2:{ replace k with ((k - T) + 1 * T) at 2 by lia. rewrite Z.div_add by lia. lia. }
    destruct (Z.eqb_spec m (-1)) as [->|]; [simpl; lia|].
    destruct (Z.eqb_spec (m - 1) (-1)); lia.
  - destruct (Z.ltb_spec (k + 1) r), (Z.ltb_spec k (r - 1)); try lia.
    by replace (k + 1 - r) with (k - (r - 1)) by lia.
Qed.

Lemma jobs_armed k : forall f a m T r,
  1 <= T -> 1 <= r -> m = -1 \/ 1 <= m <= INT_MAX ->
  jobs k (Timer f a m T r 1 : timer) = replicate (Z.to_nat (runs (Z.of_nat k) r T m)) (f, a).
Proof.
  induction k as [|k IH]; intros f a m T r HT Hr Hm.
  { unfold runs. destruct (Z.ltb_spec (Z.of_nat 0) r); [done|lia]. }
  rewrite Nat2Z.inj_succ, <- Z.add_1_r, runs_step by lia.
  cbn [jobs]. unfold tick. cbn [ucUsedFlag ulRunTime iFunExecTime pfTimerExecFun pFunArg ulTime].
  change (1 =? 0) with false. cbv iota.
  destruct (Z.leb_spec r 1), (Z.eqb_spec r 1); try lia.
  - assert (Hn : forall x, 0 <= x -> Z.to_nat (1 + x) = S (Z.to_nat x)) by lia.
    assert (Hpos : forall m', m' = -1 \/ 1 <= m' -> 0 <= runs (Z.of_nat k) T T m').
    { intros m' Hm'. unfold runs. destruct (Z.ltb_spec (Z.of_nat k) T); [lia|].
      pose proof (Z.div_pos (Z.of_nat k - T) T).
      unfold TIMER_TASK_ALWAYS. destruct (Z.eqb_spec m' (-1)); lia. }
    destruct (Z.eqb_spec m (-1)) as [->|Hm1].
    + change (-1 =? 0) with false. change (-1 =? 1) with false. cbn [fst snd app].
      rewrite Hn by (apply Hpos; lia). simpl. f_equal. apply IH; lia.
    + rewrite s32_small by (unfold INT_MIN, INT_MAX in *; lia).
      destruct (Z.eqb_spec (m - 1) 0), (Z.eqb_spec m 1); try lia.
      * simpl. f_equal. by apply jobs_unused.
      * cbn [fst snd app]. rewrite Hn by (apply Hpos; lia). simpl. f_equal. apply IH; lia.
  - cbn [fst snd app]. apply IH; lia.
Qed.

Lemma find_free_spec l1 : forall l0 s,
  g_pstTimerList s = Some (l0 ++ l1) ->
  wp (find_free (length l1) (Z.of_nat (length l0))) s (fun i s' => s' = s /\
    i = Z.of_nat (length l0 + match list_find is_free l1 with
                              | Some (j, _) => j | None => length l1 end)).
Proof.
  induction l1 as [|t l1 IH]; intros l0 s Hl; cbn [find_free length].
  { wp_steps. split; [done|]. simpl. lia. }
  wp_step. eapply wp_slot; [exact Hl|by rewrite lookup_app_r, Nat.sub_diag by lia|].
  rewrite Z.eqb_sym. cbn [list_find]. change (ucUsedFlag t =? 0) with (is_free t).
  destruct (is_free t) eqn:Hu.
  { rewrite decide_True by exact I. wp_steps. split; [done|]. simpl. lia. }
  rewrite decide_False by (intros []).
  replace (Z.of_nat (length l0) + 1) with (Z.of_nat (length (l0 ++ [t])))
    by (rewrite length_app; simpl; lia).
  eapply wp_mono; [apply IH; by rewrite <- app_assoc|].
  intros i s' [-> ->]. split; [done|]. rewrite length_app. simpl.
  destruct (list_find is_free l1) as [[j t']|]; simpl; lia.
Qed.

Lemma create_spec s l0 t l1 f arg T m :
  table_ok s (l0 ++ t :: l1) -> Forall (fun t => is_free t = false) l0 -> is_free t = true ->
  true ∉ t_oom s -> 1 <= T -> m = -1 \/ 1 <= m ->
  wp (scene_task_timer_create f arg T m) s (fun i s' =>
    i = Z.of_nat (length l0) /\ table_ok s' (l0 ++ Timer f arg m T T 1 :: l1) /\
    pool s' = pool s).
Proof.
  intros [Hl Hn] Hl0 Ht Ho HT Hm. unfold scene_task_timer_create.
  destruct (Z.eqb_spec 0 T); [lia|]. destruct (Z.eqb_spec 0 m); [lia|].
  destruct (Z.ltb_spec m (-1)); [lia|]. cbn [orb]. wp_steps. rewrite Hn, Nat2Z.id.
  eapply wp_mono; [apply (find_free_spec (l0 ++ t :: l1) [] s Hl)|].
  intros i s' [-> ->]. assert (list_find is_free (l0 ++ t :: l1) = Some (length l0, t)) as ->.
  { apply list_find_Some. split_and!; [by rewrite lookup_app_r, Nat.sub_diag by lia|by rewrite Ht|].
    intros j y Hj Hlt. rewrite lookup_app_l in Hj by done.
    rewrite Forall_forall in Hl0. rewrite Hl0; [by intros []|]. by eapply list_elem_of_lookup_2. }
  simpl. destruct (Z.ltb_spec (Z.of_nat (length (l0 ++ t :: l1))) (Z.of_nat (length l0))) as [Hlt|_].
  { rewrite length_app in Hlt. lia. }
  wp_step. eapply wp_set_slot; [exact Hl|by rewrite lookup_app_r, Nat.sub_diag by lia|].
  rewrite insert_app_r_alt, Nat.sub_diag by lia. cbn [insert list_insert t_oom].
  destruct arg as [a|].
  - wp_step. eapply wp_set_slot; [done|by rewrite lookup_app_r, Nat.sub_diag by lia|].
    rewrite insert_app_r_alt, Nat.sub_diag by lia. cbn [insert list_insert].
    wp_step. unfold wp at 1, t_alloc. cbn [t_oom].
    assert (hd false (t_oom s) = false) as ->.
    { destruct (t_oom s) as [|[] o]; [done| |done]. destruct Ho. by left. }
    cbn [negb]. wp_step.
    eapply wp_set_slot; [done|by rewrite lookup_app_r, Nat.sub_diag by lia|].
    rewrite insert_app_r_alt, Nat.sub_diag by lia. wp_steps.
    split_and!; [done|split; [done|]|done]. simpl. rewrite Hn, !length_app. done.
  - wp_step. eapply wp_set_slot; [done|by rewrite lookup_app_r, Nat.sub_diag by lia|].
    rewrite insert_app_r_alt, Nat.sub_diag by lia. wp_steps.
    split_and!; [done|split; [done|]|done]. simpl. rewrite Hn, !length_app. done.
Qed.

Lemma runs_fresh k T m :
  0 <= k -> 1 <= T -> m = -1 \/ 1 <= m ->
  runs k T T m = if m =? TIMER_TASK_ALWAYS then k / T else Z.min m (k / T).
Proof.
  intros Hk HT Hm. unfold runs, TIMER_TASK_ALWAYS. destruct (Z.ltb_spec k T).
  { rewrite Z.div_small by lia. destruct (Z.eqb_spec m (-1)); lia. }
  replace (1 + (k - T) / T) with (k / T); [done|].
  replace k with ((k - T) + 1 * T) at 1 by lia. rewrite Z.div_add by lia. lia.
Qed.

(** A timer of period [T] seconds for [m] runs, created while the table
    has a free slot, takes the first one; [k] seconds later its task has been
    handed to the pool [k / T] times, at most [m] times when [m] is not -1,
    and every other timer has done exactly what it would have done without it. *)
Theorem scene_timer_schedule s l f arg T m k :
  table_ok s l -> existsb is_free l = true -> true ∉ t_oom s ->
  1 <= T -> m = TIMER_TASK_ALWAYS \/ 1 <= m <= INT_MAX ->
  wp (i ← scene_task_timer_create f arg T m; clock k ;; mret i) s (fun i s' =>
    (exists t, list_find is_free l = Some (Z.to_nat i, t)) /\
    pool s' ≡ₚ pool s ++ concat (jobs k <$> l) ++
      replicate (Z.to_nat (if m =? TIMER_TASK_ALWAYS then Z.of_nat k / T
                           else Z.min m (Z.of_nat k / T))) (f, arg)).
Proof.
  intros Hok Hex Ho HT Hm. unfold TIMER_TASK_ALWAYS in Hm.
  destruct (list_find is_free l) as [[i t]|] eqn:Hfind.
  2:{ apply list_find_None in Hfind. apply existsb_exists in Hex as (t & Hin & Ht).
      rewrite Forall_forall in Hfind. destruct (Hfind t); [by apply list_elem_of_In|by rewrite Ht]. }
  pose proof Hfind as Hf. apply list_find_Some in Hf as (Hi & Ht & Hlt).
  pose proof (take_drop_middle l i t Hi) as Hsplit.
  set (l0 := take i l) in *. set (l1 := drop (S i) l) in *.
  assert (length l0 = i) as Hlen. { apply length_take_le, Nat.lt_le_incl. by eapply lookup_lt_Some. }
  rewrite <- Hsplit in Hok |- *. apply Is_true_true in Ht.
  wp_step. eapply wp_mono; [apply (create_spec s l0 t l1 f arg T m Hok)|]; [|done..|lia|].
  { apply Forall_forall. intros x (j & Hj)%list_elem_of_lookup_1.
    apply lookup_take_Some in Hj as [Hj Hji]. apply not_true_iff_false. intros Hx.
    by destruct (Hlt j x Hj Hji); apply Is_true_true. }
  intros i' s1 (-> & Hok1 & Hp1). wp_step.
  eapply wp_mono; [apply (clock_spec k s1 _ Hok1)|]. intros [] s2 (_ & _ & Hp2). wp_steps.
  split; [exists t; by rewrite Nat2Z.id, Hlen|]. rewrite Hp2, Hp1.
  rewrite !fmap_app, !concat_app, !fmap_cons. cbn [concat].
  rewrite (jobs_unused k t Ht), jobs_armed, runs_fresh by lia. cbn [app].
  solve_Permutation.
Qed.

(** With every slot in use the search stops at [g_iTimerNum], which the
    test [i > g_iTimerNum] lets through: the new timer is written one slot past
    the table. *)
Theorem scene_timer_full_overruns s l f arg T m :
  table_ok s l -> existsb is_free l = false -> T <> 0 -> m = TIMER_TASK_ALWAYS \/ 1 <= m ->
  scene_task_timer_create f arg T m s = Fault OutOfBounds.
Proof.
  intros [Hl Hn] Hfull HT Hm. unfold TIMER_TASK_ALWAYS in Hm.
  pose proof (find_free_spec l [] s Hl) as Hff. apply wp_run in Hff as (i & s' & Hrun & -> & Hi).
  assert (list_find is_free l = None) as Hnone.
  { apply list_find_None, Forall_forall. intros t Hin Ht%Is_true_true.
    apply not_true_iff_false in Hfull. apply Hfull, existsb_exists. exists t.
    split; [by apply list_elem_of_In|done]. }
  rewrite Hnone in Hi. simpl in Hi. subst i.
  unfold scene_task_timer_create.
  destruct (Z.eqb_spec 0 T); [lia|]. destruct (Z.eqb_spec 0 m); [lia|].
  destruct (Z.ltb_spec m (-1)); [lia|]. cbn [orb].
  unfold mbind at 1, M_bind at 1, getS. rewrite Hn, Nat2Z.id.
  change (Z.of_nat (length [])) with 0 in Hrun.
  unfold mbind at 1, M_bind at 1. rewrite Hrun.
  destruct (Z.ltb_spec (Z.of_nat (length l)) (Z.of_nat (length l))); [lia|].
  assert (Hslot : forall t, set_slot (Z.of_nat (length l)) t s = Fault OutOfBounds).
  { intros t. unfold set_slot, slot, table, mbind, M_bind, getS, get_or. rewrite Hl.
    destruct (Z.ltb_spec (Z.of_nat (length l)) 0); [lia|].
    unfold mret, M_ret. rewrite Nat2Z.id, (lookup_ge_None_2 l) by lia. done. }
  unfold mbind at 1, M_bind at 1. by rewrite Hslot.
Qed.
End schedule.

(** Two slots, the first running a task every five seconds. *)
Definition demo_timers : timers nat nat :=
  Timers (Some [Timer (Some 7%nat) (Some 1%nat) (-1) 5 5 1; zero_timer]) 2 [] [].

Lemma scene_timer_schedule_witness :
  wp (i ← scene_task_timer_create (Some 8%nat) (Some 2%nat) 3 TIMER_TASK_ONCE; clock 10 ;; mret i)
    demo_timers (fun i s' =>
      (exists t, list_find is_free [Timer (Some 7%nat) (Some 1%nat) (-1) 5 5 1; zero_timer]
                 = Some (Z.to_nat i, t)) /\
      pool s' ≡ₚ pool demo_timers ++
        concat (jobs 10 <$> [Timer (Some 7%nat) (Some 1%nat) (-1) 5 5 1; zero_timer]) ++
        replicate (Z.to_nat (if TIMER_TASK_ONCE =? TIMER_TASK_ALWAYS then Z.of_nat 10 / 3
                             else Z.min TIMER_TASK_ONCE (Z.of_nat 10 / 3))) (Some 8%nat, Some 2%nat)).
Proof.
  apply (scene_timer_schedule demo_timers).
  - split; reflexivity.
  - reflexivity.
  - intros H. inversion H.
  - lia.
  - right. vm_compute. split; congruence.
Defined.

Lemma scene_timer_full_overruns_witness :
  let s := Timers (Some (replicate 16 (Timer (Some 7%nat) (@None nat) (-1) 5 5 1))) 16 [] [] in
  scene_task_timer_create (Some 8%nat) None 3 TIMER_TASK_ONCE s = Fault OutOfBounds.
Proof.
  apply (scene_timer_full_overruns _ (replicate 16 (Timer (Some 7%nat) None (-1) 5 5 1)));
    [split; reflexivity|reflexivity|lia|right; vm_compute; congruence].
Defined.
