(* ===== verification/SceneSync.v ===== *)
(** State synchronisation, src/hylink/src/local_scene/scene_sync.c: the requests
    that bring the devices of a "StateSync" scene to the same value, and the
    recognition of the devices' answers.  The nodes of the linked list are used
    through its contract (ListRefine.v): the sequence of its nodes. *)
From stdpp Require Import strings pretty.
From S2P Require Import Prelude CString.

Definition EVENT_MAX_NUM : Z := 32.
Definition SYNC_EVENT_LOSE_TIME : Z := 30.
Definition SYNC_EVENT_SAFE_TIME : Z := 2.
Definition SYNC_EVENT_DELAY_TIME : Z := 1.
Definition SYNC_EVENT_SAFE_NUM : Z := 4.
Definition DEV_ID_MAX_LEN : nat := 64.
Definition KEY_MAX_LEN : nat := 128.

(** [scene_sync_node_t]; of the time stamp only the seconds are used. *)
Record sync_node : Type := SyncNode {
  snDevId : string;          (* acDevId *)
  snKey : string;            (* acKey *)
  iValueTotal : Z;
  aiValue : list Z;          (* 32 values *)
  uiSendFlag : Z;
  iProtect : Z;
  snCount : Z;               (* iCount *)
  stActiveTime : Z           (* tv_sec *)
}.

(** The module's list, what was dispatched (device, key, value), the results of
    the next dispatches (0 once used up) and allocations (true = NULL). *)
Record sync_state : Type := SyncState {
  g_pstSceneSyncEventList : option (list sync_node);
  dispatched : list (string * string * string);
  dispatch_results : list Z;
  sync_oom : list bool
}.
Abbreviation SY A := (M sync_state A).

Definition set_list (l : option (list sync_node)) (s : sync_state) : sync_state :=
  SyncState l (dispatched s) (dispatch_results s) (sync_oom s).
Definition sync_alloc : SY bool := fun s =>
  Val (negb (hd false (sync_oom s)),
       SyncState (g_pstSceneSyncEventList s) (dispatched s) (dispatch_results s) (tl (sync_oom s))).

(** The list, created when it does not exist: its object and its sentinel.
    [None]: an allocation failed; the flag: the list is new. *)
Definition sync_list : SY (option (list sync_node) * bool) :=
  g ← gets g_pstSceneSyncEventList;
  match g with
  | Some l => mret (Some l, false)
  | None =>
      ok1 ← sync_alloc;
      if negb ok1 then mret (None, true) else
      ok2 ← sync_alloc;
      if negb ok2 then mret (None, true) else
      modify (set_list (Some [])) ;;
      mret (Some [], true)
  end.

(** * The flags *)

Definition _scene_sync_event_send_flag_get (uiSendFlag iEventId : Z) : SY Z :=
  if (0 <=? iEventId) && (iEventId <? 32) then mret (Z.land (Z.shiftr uiSendFlag iEventId) 1)
  else fail ShiftRange.
Definition _scene_sync_event_send_flag_set (uiSendFlag iEventId : Z) : SY Z :=
  m ← shl1 iEventId; mret (Z.lor uiSendFlag m).
(** [uiSendFlag & (!(0x1 << iEventId))] *)
Definition _scene_sync_event_send_flag_clean (uiSendFlag iEventId : Z) : SY Z :=
  m ← shl1 iEventId; mret (Z.land uiSendFlag (of_bool (m =? 0))).

(** [aiValueTmp], [iValueTotalTmp] and [uiSendFlagTmp]. *)
Record tmp_queue : Type := Tmp { tqTotal : Z; tqValue : list Z; tqFlag : Z }.
Definition tmp0 : tmp_queue := Tmp 0 (replicate 32 0) 0.
Definition tmp_sent (v : Z) (q : tmp_queue) : SY tmp_queue :=
  vs ← arr_set (tqValue q) (tqTotal q) v;
  f ← _scene_sync_event_send_flag_set (tqFlag q) (tqTotal q);
  mret (Tmp (tqTotal q + 1) vs f).
Definition tmp_unsent (v : Z) (q : tmp_queue) : SY tmp_queue :=
  vs ← arr_set (tqValue q) (tqTotal q) v;
  f ← _scene_sync_event_send_flag_clean (tqFlag q) (tqTotal q);
  mret (Tmp (tqTotal q + 1) vs f).
(** The three copies back into the node. *)
Definition put_queue (p : sync_node) (q : tmp_queue) : sync_node :=
  SyncNode (snDevId p) (snKey p) (tqTotal q) (tqValue q) (tqFlag q)
    (iProtect p) (snCount p) (stActiveTime p).
Definition get_queue (p : sync_node) : tmp_queue := Tmp (iValueTotal p) (aiValue p) (uiSendFlag p).

(** * Requests *)

(** The deletion of the requests that are not sent. *)
Definition keep_sent (p : sync_node) : SY sync_node :=
  q ← for_up (Z.to_nat (iValueTotal p)) 0 (fun i q =>
        b ← _scene_sync_event_send_flag_get (uiSendFlag p) i;
        if 1 =? b then v ← arr_get (aiValue p) i; tmp_sent v q else mret q) tmp0;
  mret (put_queue p q).

Definition node_matches (pcDevId pcKey : string) (p : sync_node) : bool :=
  strn_eq DEV_ID_MAX_LEN (snDevId p) pcDevId && strn_eq KEY_MAX_LEN (snKey p) pcKey.

Definition with_protect (pr cnt : Z) (p : sync_node) : sync_node :=
  SyncNode (snDevId p) (snKey p) (iValueTotal p) (aiValue p) (uiSendFlag p) pr cnt (stActiveTime p).
Definition with_active (t : Z) (p : sync_node) : sync_node :=
  SyncNode (snDevId p) (snKey p) (iValueTotal p) (aiValue p) (uiSendFlag p)
    (iProtect p) (snCount p) t.

(** The protection mode: requests that follow each other within the safe time
    are counted, the fourth one switches it on. *)
Definition protect_step (stNow : Z) (p : sync_node) : sync_node :=
  let cnt := if stNow - stActiveTime p <? SYNC_EVENT_SAFE_TIME then snCount p + 1 else 0 in
  let pr := if (0 =? iProtect p) && (SYNC_EVENT_SAFE_NUM <=? cnt) then 1 else iProtect p in
  with_protect pr cnt p.

(** A request for a node that exists. *)
Definition req_node (stNow : Z) (pcValue : string) (p : sync_node) : SY sync_node :=
  let p := protect_step stNow p in
  p ← (if 1 =? iProtect p then keep_sent p else mret p);
  q ← tmp_unsent (atoi pcValue) (get_queue p);
  mret (with_active stNow (put_queue p q)).

(** The walk over the list; the flag is [ucFoundFlag]. *)
Fixpoint walk {A} (matches : sync_node -> bool) (f : A -> sync_node -> SY (A * sync_node))
    (a : A) (l : list sync_node) : SY (A * list sync_node) :=
  match l with
  | [] => mret (a, [])
  | p :: l =>
      '(a, p) ← (if matches p then f a p else mret (a, p));
      '(a, l) ← walk matches f a l;
      mret (a, p :: l)
  end.

Definition new_sync_node (stNow : Z) (pcDevId pcKey pcValue : string) : sync_node :=
  SyncNode (str_take DEV_ID_MAX_LEN pcDevId) (str_take KEY_MAX_LEN pcKey) 1
    (atoi pcValue :: replicate 31 0) 0 0 1 stNow.

(** [stNow] is what [gettimeofday] gives. *)
Definition scene_sync_event_req_add (stNow : Z) (pcDevId pcKey pcValue : string) : SY Z :=
  '(g, _) ← sync_list;
  match g with
  | None => mret (-1)
  | Some l =>
      '(ucFoundFlag, l) ← walk (node_matches pcDevId pcKey)
         (fun _ p => p ← req_node stNow pcValue p; mret (true, p)) false l;
      modify (set_list (Some l)) ;;
      (if negb ucFoundFlag then
         ok ← sync_alloc;
         if negb ok then mret tt
         else modify (set_list (Some (l ++ [new_sync_node stNow pcDevId pcKey pcValue])))
       else mret tt) ;;
      mret 0
  end.

(** * Dispatch *)

(** The command as [hylink_scene_send] receives it, and its result. *)
Definition _scene_sync_ctrl_dispatch (pcDevId pcKey pcValue : string) : SY Z := fun s =>
  Val (hd 0 (dispatch_results s),
       SyncState (g_pstSceneSyncEventList s) (dispatched s ++ [(pcDevId, pcKey, pcValue)])
         (tl (dispatch_results s)) (sync_oom s)).

(** The values that are not sent, one after the other; the last result. *)
Definition dispatch_node (p : sync_node) (iRet : Z) : SY (sync_node * Z) :=
  '(f, r) ← for_up (Z.to_nat (iValueTotal p)) 0 (fun i fr =>
       b ← _scene_sync_event_send_flag_get fr.1 i;
       if 0 =? b then
         v ← arr_get (aiValue p) i;
         iRet ← _scene_sync_ctrl_dispatch (snDevId p) (snKey p) (pretty v);
         if 0 =? iRet then f ← _scene_sync_event_send_flag_set fr.1 i; mret (f, iRet)
         else mret (fr.1, iRet)
       else mret fr) (uiSendFlag p, iRet);
  mret (put_queue p (Tmp (iValueTotal p) (aiValue p) f), r).

(** A node with no value, or not active any more, is deleted. *)
Fixpoint exec_nodes (stNow : Z) (l : list sync_node) (iRet : Z) : SY (list sync_node * Z) :=
  match l with
  | [] => mret ([], iRet)
  | p :: l =>
      if 0 =? iValueTotal p then exec_nodes stNow l iRet
      else if SYNC_EVENT_LOSE_TIME <=? stNow - stActiveTime p then exec_nodes stNow l iRet
      else
        let protect := 1 =? iProtect p in
        let p1 := if protect && (SYNC_EVENT_SAFE_TIME <=? stNow - stActiveTime p)
                  then with_protect 0 0 p else p in
        if protect && (stNow - stActiveTime p <? SYNC_EVENT_DELAY_TIME) then
          '(l, r) ← exec_nodes stNow l iRet; mret (p1 :: l, r)
        else
          '(p2, r) ← dispatch_node p1 iRet;
          '(l, r) ← exec_nodes stNow l r; mret (p2 :: l, r)
  end.

Definition scene_sync_event_req_exec (stNow : Z) : SY Z :=
  '(g, new) ← sync_list;
  match g with
  | None => mret (-1)
  | Some l =>
      if (new : bool) then mret 0 else
      '(l, iRet) ← exec_nodes stNow l 0;
      modify (set_list (Some l)) ;;
      mret iRet
  end.

(** * Answers *)

(** A report of a value: the first sent request of that value is answered. *)
Definition answer_node (stNow : Z) (pcValue : string) (ucFoundFlag : bool) (p : sync_node)
    : SY (bool * sync_node) :=
  let p := with_active stNow p in
  '(found, q) ← for_up (Z.to_nat (iValueTotal p)) 0 (fun i fq =>
      b ← _scene_sync_event_send_flag_get (uiSendFlag p) i;
      v ← arr_get (aiValue p) i;
      if 1 =? b then
        if negb fq.1 && (v =? atoi pcValue) then mret (true, fq.2)
        else q ← tmp_sent v fq.2; mret (fq.1, q)
      else q ← tmp_unsent v fq.2; mret (fq.1, q)) (ucFoundFlag, tmp0);
  mret (found, put_queue p q).

Definition scene_sync_event (stNow : Z) (pcDevId pcKey pcValue : string) : SY Z :=
  '(g, _) ← sync_list;
  match g with
  | None => mret (-1)
  | Some l =>
      '(ucFoundFlag, l) ← walk (node_matches pcDevId pcKey) (answer_node stNow pcValue) false l;
      modify (set_list (Some l)) ;;
      mret (of_bool ucFoundFlag)
  end.
