(* ===== verification/SyncRefine.v ===== *)
(** The contract of scene_sync.c: per device and key a queue of requests, each
    sent or not, and what the module's operations do to it; the properties of
    the module follow from the contract. *)
From stdpp Require Import strings pretty.
From S2P Require Import Prelude CString SceneSync.

(** * Queues *)

(** A request: its value, and whether it is marked as sent. *)
Abbreviation request := (Z * bool)%type.
Definition unsend (l : list request) : list request := (fun x => (x.1, false)) <$> l.
Definition sent_only (l : list request) : list request := filter (fun x => x.2 = true) l.

(** The arrays and the flags of [q] hold the requests [l]. *)
Record is_queue (q : tmp_queue) (l : list request) : Prop := {
  iq_total : tqTotal q = Z.of_nat (length l);
  iq_len : length (tqValue q) = 32%nat;
  iq_fit : (length l <= 32)%nat;
  iq_req : forall i v b, l !! i = Some (v, b) ->
    tqValue q !! i = Some v /\ Z.testbit (tqFlag q) (Z.of_nat i) = b
}.

Lemma is_queue_tmp0 : is_queue tmp0 [].
Proof. split; simpl; [done|done|lia|done]. Qed.

Lemma flag_get_spec u i s (Q : Z -> sync_state -> Prop) :
  0 <= i < 32 -> Q (of_bool (Z.testbit u i)) s ->
  wp (_scene_sync_event_send_flag_get u i) s Q.
Proof.
  intros Hi HQ. unfold _scene_sync_event_send_flag_get.
  destruct (Z.leb_spec 0 i), (Z.ltb_spec i 32); try lia. cbn [andb]. apply wp_ret.
  assert (Z.land (Z.shiftr u i) 1 = of_bool (Z.testbit u i)) as ->; [|done].
  change 1 with (Z.ones 1) at 1. rewrite Z.land_ones by lia. change (2 ^ 1) with 2.
  rewrite <- Z.bit0_mod, Z.shiftr_spec, Z.add_0_l by lia.
  by destruct (Z.testbit u i).
Qed.

Lemma flag_set_spec u i s (Q : Z -> sync_state -> Prop) :
  0 <= i < 32 ->
  (forall u', (forall j, 0 <= j -> Z.testbit u' j = (j =? i) || Z.testbit u j) -> Q u' s) ->
  wp (_scene_sync_event_send_flag_set u i) s Q.
Proof.
  intros Hi HQ. unfold _scene_sync_event_send_flag_set. wp_step. apply wp_shl1; [lia|].
  wp_step. apply HQ. intros j Hj. rewrite shl1_pow by lia.
  by rewrite Z.lor_spec, Z.pow2_bits_eqb, (Z.eqb_sym i j), orb_comm by lia.
Qed.

(** [!] instead of [~]: every flag is cleared. *)
Lemma flag_clean_spec u i s (Q : Z -> sync_state -> Prop) :
  0 <= i < 32 -> Q 0 s -> wp (_scene_sync_event_send_flag_clean u i) s Q.
Proof.
  intros Hi HQ. unfold _scene_sync_event_send_flag_clean. wp_step. apply wp_shl1; [lia|].
  wp_step. rewrite shl1_pow by lia. destruct (Z.eqb_spec (2 ^ i) 0) as [H0|_].
  - pose proof (Z.pow_pos_nonneg 2 i). lia.
  - by rewrite Z.land_0_r.
Qed.

Lemma is_queue_snoc q l v vs f b :
  is_queue q l -> (length l < 32)%nat -> vs = <[length l := v]> (tqValue q) ->
  (forall i v' b', l !! i = Some (v', b') -> Z.testbit f (Z.of_nat i) = b') ->
  Z.testbit f (Z.of_nat (length l)) = b ->
  is_queue (Tmp (tqTotal q + 1) vs f) (l ++ [(v, b)]).
Proof.
  intros [Ht Hl Hf Hr] Hlt -> Hold Hnew.
  split; rewrite ?length_app, ?length_insert; simpl; [lia|by rewrite length_insert|lia|].
  intros i v' b' [Hi|[Hge Hi]]%lookup_app_Some.
  - split; [|by eapply Hold]. apply lookup_lt_Some in Hi as Hlt'.
    rewrite list_lookup_insert_ne by lia. by eapply Hr.
  - assert (i = length l) as -> by (apply lookup_lt_Some in Hi; simpl in Hi; lia).
    rewrite Nat.sub_diag in Hi. injection Hi as <- <-. split; [|done].
    apply list_lookup_insert_eq. lia.
Qed.

Lemma is_queue_unsend q l vs : tqTotal q = Z.of_nat (length l) -> is_queue (Tmp (tqTotal q) vs (tqFlag q)) l ->
  is_queue (Tmp (tqTotal q) vs 0) (unsend l).
Proof.
  unfold unsend. intros _ [Ht Hl Hf Hr]. simpl in *. split; simpl; rewrite ?length_fmap; [done..|].
  intros i v b Hi. rewrite list_lookup_fmap in Hi.
  destruct (l !! i) as [[v0 b0]|] eqn:Hx; [|done]. injection Hi as <- <-.
  destruct (Hr _ _ _ Hx) as [Hv _]. split; [done|apply Z.testbit_0_l].
Qed.
Lemma is_queue_unsend' q l : is_queue q l -> is_queue (Tmp (tqTotal q) (tqValue q) 0) (unsend l).
Proof. intros Hq. destruct q. eapply (is_queue_unsend (Tmp _ _ _)); [apply Hq|exact Hq]. Qed.

Lemma tmp_sent_spec q l v s (Q : tmp_queue -> sync_state -> Prop) :
  is_queue q l -> (length l < 32)%nat ->
  (forall q', is_queue q' (l ++ [(v, true)]) -> Q q' s) -> wp (tmp_sent v q) s Q.
Proof.
  intros Hq Hlt HQ. pose proof Hq as [Ht Hl _ Hr]. unfold tmp_sent. rewrite Ht.
  wp_step. apply wp_arr_set; [lia|]. wp_step. apply flag_set_spec; [lia|]. intros f Hfl.
  wp_step. apply HQ. rewrite <- Ht. eapply is_queue_snoc; [done..|by rewrite Ht, Nat2Z.id| |].
  - intros i v' b Hi. rewrite Hfl by lia. apply lookup_lt_Some in Hi as Hi'.
    destruct (Z.eqb_spec (Z.of_nat i) (Z.of_nat (length l))); [lia|]. by eapply Hr.
  - by rewrite Hfl, Z.eqb_refl by lia.
Qed.

Lemma tmp_unsent_spec q l v s (Q : tmp_queue -> sync_state -> Prop) :
  is_queue q l -> (length l < 32)%nat ->
  (forall q', is_queue q' (unsend l ++ [(v, false)]) -> Q q' s) -> wp (tmp_unsent v q) s Q.
Proof.
  intros Hq Hlt HQ. pose proof Hq as [Ht Hl _ Hr]. unfold tmp_unsent. rewrite Ht.
  wp_step. apply wp_arr_set; [lia|]. wp_step. apply flag_clean_spec; [lia|].
  wp_step. apply HQ. rewrite <- Ht.
  replace (tqTotal q) with (tqTotal (Tmp (tqTotal q) (tqValue q) 0)) by done.
  assert (length (unsend l) = length l) as Hu by (unfold unsend; by rewrite length_fmap).
  eapply is_queue_snoc; [by apply is_queue_unsend'|lia| | |by apply Z.testbit_0_l].
  - cbn [tqTotal tqValue]. by rewrite Hu, Ht, Nat2Z.id.
  - intros i v' b Hi. unfold unsend in Hi. rewrite list_lookup_fmap in Hi.
    destruct (l !! i) as [[v0 b0]|]; [|done]. injection Hi as <- <-. apply Z.testbit_0_l.
Qed.

(** The write past the array: a full queue and one more request. *)
Lemma tmp_unsent_full q l v s :
  is_queue q l -> length l = 32%nat -> tmp_unsent v q s = Fault OutOfBounds.
Proof.
  intros [Ht Hl _ _] H32. unfold tmp_unsent, arr_set. rewrite Ht, Hl, H32. done.
Qed.

(** * Nodes *)

(** A node of the list: its requests, and the fields of the protection mode. *)
Record anode : Type := ANode {
  anDev : string; anKey : string; pending : list request;
  protect : Z; cnt : Z; active : Z
}.

Definition is_node (p : sync_node) (a : anode) : Prop :=
  snDevId p = anDev a /\ snKey p = anKey a /\ is_queue (get_queue p) (pending a) /\
  iProtect p = protect a /\ snCount p = cnt a /\ stActiveTime p = active a.

Definition an_matches (dev key : string) (a : anode) : bool :=
  strn_eq DEV_ID_MAX_LEN (anDev a) dev && strn_eq KEY_MAX_LEN (anKey a) key.
Definition an_set (l : list request) (a : anode) : anode :=
  ANode (anDev a) (anKey a) l (protect a) (cnt a) (active a).

(** ** What a request does *)

Definition an_protect (now : Z) (a : anode) : anode :=
  let c := if now - active a <? 2 then cnt a + 1 else 0 in
  ANode (anDev a) (anKey a) (pending a)
    (if (0 =? protect a) && (4 <=? c) then 1 else protect a) c (active a).
Definition an_kept (a : anode) : list request :=
  if 1 =? protect a then sent_only (pending a) else pending a.
(** [None]: the array is full. *)
Definition an_req (now v : Z) (a : anode) : option anode :=
  let a := an_protect now a in
  if decide (length (an_kept a) < 32)%nat
  then Some (ANode (anDev a) (anKey a) (unsend (an_kept a) ++ [(v, false)]) (protect a) (cnt a) now)
  else None.

Lemma sent_only_length l : (length (sent_only l) <= length l)%nat.
Proof. apply length_filter. Qed.

Lemma is_node_protect now p a : is_node p a -> is_node (protect_step now p) (an_protect now a).
Proof.
  intros (Hd & Hk & Hq & Hp & Hc & Ht). unfold protect_step, an_protect, SYNC_EVENT_SAFE_TIME, SYNC_EVENT_SAFE_NUM.
  rewrite Hp, Hc, Ht. unfold with_protect. split_and!; simpl; try done.
Qed.

Lemma for_queue {A} (q : tmp_queue) l (body : Z -> A -> SY A) (I : list request -> A -> sync_state -> Prop) a s Q :
  is_queue q l -> I [] a s ->
  (forall l1 v b l2 a s, l = l1 ++ (v, b) :: l2 -> I l1 a s ->
     tqValue q !! length l1 = Some v -> (length l1 < 32)%nat ->
     Z.testbit (tqFlag q) (Z.of_nat (length l1)) = b ->
     wp (body (Z.of_nat (length l1)) a) s (I (l1 ++ [(v, b)]))) ->
  (forall a s, I l a s -> Q a s) ->
  wp (for_up (Z.to_nat (tqTotal q)) 0 body a) s Q.
Proof.
  intros [Ht Hl Hf Hr] HI Hb HQ. rewrite Ht, Nat2Z.id.
  apply (wp_for_up (fun i a s => I (take (Z.to_nat i) l) a s)); [by rewrite take_0| |].
  - intros j a' s' Hj HIj. destruct (lookup_lt_is_Some_2 l (Z.to_nat j)) as [[v b] Hx]; [lia|].
    destruct (Hr _ _ _ Hx) as [Hv Hbit]. pose proof (take_drop_middle _ _ _ Hx) as Hsplit.
    assert (length (take (Z.to_nat j) l) = Z.to_nat j) as Hlen by (rewrite length_take; lia).
    specialize (Hb (take (Z.to_nat j) l) v b (drop (S (Z.to_nat j)) l) a' s').
    rewrite Hlen, Z2Nat.id in Hb by lia. rewrite Z2Nat.id in Hbit by lia.
    eapply wp_mono; [apply Hb; [done|done|done|lia|done]|]. intros a2 s2 HI2.
    rewrite Z.add_1_r, Z2Nat.inj_succ by lia. by erewrite take_S_r.
  - intros a' s' HI'. apply HQ. by rewrite Z.add_0_l, Nat2Z.id, firstn_all in HI'.
Qed.

Lemma keep_sent_spec p a s :
  is_node p a ->
  wp (keep_sent p) s (fun p' s' => s' = s /\ is_node p' (an_set (sent_only (pending a)) a)).
Proof.
  intros (Hd & Hk & Hq & Hrest). unfold keep_sent. wp_step.
  apply (for_queue (get_queue p) (pending a) _
    (fun l q s' => s' = s /\ is_queue q (sent_only l))); [done| | |].
  - split; [done|apply is_queue_tmp0].
  - intros l1 v b l2 q s1 Hl [-> Hq1] Hv Hlt Hb. wp_step.
    apply flag_get_spec; [lia|]. simpl in Hb. rewrite Hb.
    assert (sent_only (l1 ++ [(v, b)]) = sent_only l1 ++ (if b then [(v, b)] else [])) as Hfilter.
    { unfold sent_only. rewrite filter_app. by destruct b. }
    pose proof (sent_only_length l1).
    destruct b; c_red; cbn [of_bool]; c_red.
    + wp_step. eapply wp_arr_get; [lia|rewrite Nat2Z.id; exact Hv|].
      eapply tmp_sent_spec; [exact Hq1|lia|]. intros q' Hq'. by rewrite Hfilter.
    + wp_step. by rewrite Hfilter, app_nil_r.
  - intros q s1 [-> Hq1]. wp_step. split; [done|]. unfold put_queue. split_and!; simpl; try done; try tauto.
    by destruct q.
Qed.

(** * Runs against an abstract outcome *)

(** [o] foretells the run of [m]: a write past an array for [None]. *)
Definition sim {A B} (m : SY A) (s : sync_state) (o : option B) (Q : B -> A -> sync_state -> Prop) : Prop :=
  match o with Some b => wp m s (Q b) | None => m s = Fault OutOfBounds end.

Lemma sim_bind {A A' B B'} (m : SY A) (f : A -> SY A') s (o : option B) (g : B -> option B') Q R :
  sim m s o Q -> (forall b a s', Q b a s' -> sim (f a) s' (g b) R) -> sim (m ≫= f) s (o ≫= g) R.
Proof.
  unfold sim. destruct o as [b|]; simpl.
  - intros (a & s' & Hm & HQ)%wp_run Hf. specialize (Hf b a s' HQ).
    destruct (g b); unfold wp, mbind, M_bind; by rewrite Hm.
  - intros Hm _. unfold mbind, M_bind. by rewrite Hm.
Qed.

Lemma sim_wp {A A' B'} (m : SY A) (f : A -> SY A') s (o : option B') P R :
  wp m s P -> (forall a s', P a s' -> sim (f a) s' o R) -> sim (m ≫= f) s o R.
Proof.
  intros (a & s' & Hm & HP)%wp_run Hf. specialize (Hf a s' HP). unfold sim in *.
  destruct o; unfold wp, mbind, M_bind; by rewrite Hm.
Qed.

Lemma sim_ret {A B} (a : A) (b : B) s (Q : B -> A -> sync_state -> Prop) :
  Q b a s -> sim (mret a) s (Some b) Q.
Proof. done. Qed.

Lemma sim_mono {A B} (m : SY A) s (o : option B) (Q R : B -> A -> sync_state -> Prop) :
  sim m s o Q -> (forall b a s', Q b a s' -> R b a s') -> sim m s o R.
Proof. unfold sim. destruct o; [|done]. intros H HR. eapply wp_mono; [exact H|]. apply HR. Qed.

Lemma req_node_sim now value p a s :
  is_node p a ->
  sim (req_node now value p) s (an_req now (atoi value) a) (fun a' p' s' => s' = s /\ is_node p' a').
Proof.
  intros Hn. unfold req_node, an_req. pose proof (is_node_protect now p a Hn) as Hp.
  set (p1 := protect_step now p) in *. set (a1 := an_protect now a) in *.
  assert (Hkept : wp (if 1 =? iProtect p1 then keep_sent p1 else mret p1) s
    (fun p' s' => s' = s /\ is_node p' (an_set (an_kept a1) a1))).
  { pose proof Hp as (_ & _ & _ & Hpr & _). unfold an_kept. rewrite Hpr.
    destruct (1 =? protect a1); [by apply keep_sent_spec|]. by apply wp_ret. }
  eapply sim_wp; [exact Hkept|]. intros p2 s2 [-> (Hd & Hk & Hq & Hpr & Hc & Ha)].
  cbn [an_set pending anDev anKey protect cnt active] in *. case_decide as Hlt.
  - unfold sim. wp_step. eapply tmp_unsent_spec; [exact Hq|done|]. intros q Hq'.
    wp_step. split; [done|]. split_and!; cbn; try done. by destruct q.
  - unfold sim, mbind, M_bind. erewrite tmp_unsent_full; [done|exact Hq|].
    pose proof (iq_fit _ _ Hq). lia.
Qed.

Fixpoint awalk {A} (mt : anode -> bool) (f : A -> anode -> option (A * anode)) (a : A) (l : list anode)
    : option (A * list anode) :=
  match l with
  | [] => Some (a, [])
  | p :: l =>
      '(a, p) ← (if mt p then f a p else Some (a, p));
      '(a, l) ← awalk mt f a l;
      Some (a, p :: l)
  end.

Lemma node_matches_spec dev key p a : is_node p a -> node_matches dev key p = an_matches dev key a.
Proof. intros (Hd & Hk & _). unfold node_matches, an_matches. by rewrite Hd, Hk. Qed.

Lemma walk_sim {A} dev key (f : A -> sync_node -> SY (A * sync_node)) g s :
  (forall a p x, is_node p x -> sim (f a p) s (g a x)
     (fun r r' s' => s' = s /\ r'.1 = r.1 /\ is_node r'.2 r.2)) ->
  forall l xs a, Forall2 is_node l xs ->
  sim (walk (node_matches dev key) f a l) s (awalk (an_matches dev key) g a xs)
    (fun r r' s' => s' = s /\ r'.1 = r.1 /\ Forall2 is_node r'.2 r.2).
Proof.
  intros Hf l xs a HF. revert a. induction HF as [|p x l xs Hp HF IH]; intros a; cbn [walk awalk].
  { by apply sim_ret. }
  rewrite (node_matches_spec _ _ _ _ Hp).
  eapply (sim_bind _ _ _ _ _ (fun r r' s' => s' = s /\ r'.1 = r.1 /\ is_node r'.2 r.2)).
  { destruct (an_matches dev key x); [by apply Hf|]. by apply sim_ret. }
  intros [a1 x1] [a2 p2] s1 (-> & Ha & Hp2). cbn [fst snd] in *. subst a2.
  eapply sim_bind; [apply IH|]. intros [a3 xs3] [a4 l4] s1 (-> & Ha & HF4). cbn [fst snd] in *. subst a4.
  apply sim_ret. split_and!; [done|done|]. by constructor.
Qed.

(** ** What a dispatch does *)

(** The requests so far, the log, the results to come, the last result. *)
Definition disp : Type := (list request * list (string * string * string) * list Z * Z)%type.
Definition disp_step (dev key : string) (d : disp) (x : request) : disp :=
  let '(l, log, rs, ret) := d in
  if x.2 then (l ++ [x], log, rs, ret)
  else (l ++ [(x.1, 0 =? hd 0 rs)], log ++ [(dev, key, pretty x.1)], tl rs, hd 0 rs).
Definition an_dispatch (a : anode) (log : list (string * string * string)) (rs : list Z) (ret : Z) : disp :=
  foldl (disp_step (anDev a) (anKey a)) ([], log, rs, ret) (pending a).

Definition sync_with (log : list (string * string * string)) (rs : list Z) (s : sync_state) : sync_state :=
  SyncState (g_pstSceneSyncEventList s) log rs (sync_oom s).

Lemma disp_step_length dev key d x : length (disp_step dev key d x).1.1.1 = S (length d.1.1.1).
Proof.
  destruct d as [[[l log] rs] ret]. unfold disp_step. destruct x.2; cbn; rewrite length_app; simpl; lia.
Qed.
Lemma disp_length dev key d l :
  length (foldl (disp_step dev key) d l).1.1.1 = (length d.1.1.1 + length l)%nat.
Proof.
  revert d. induction l as [|x l IH]; intros d; cbn [foldl length]; [lia|].
  rewrite IH, disp_step_length. lia.
Qed.

Lemma is_queue_set_flag n vs f f' l1 v b b' l2 :
  is_queue (Tmp n vs f) (l1 ++ (v, b) :: l2) ->
  (forall j, 0 <= j -> Z.testbit f' j = if j =? Z.of_nat (length l1) then b' else Z.testbit f j) ->
  is_queue (Tmp n vs f') (l1 ++ (v, b') :: l2).
Proof.
  intros [Ht Hl Hf Hr] Hbits. cbn [tqTotal tqValue tqFlag] in *.
  split; cbn [tqTotal tqValue tqFlag]; rewrite ?length_app in *; [done..|].
  intros i v0 b0 Hi. rewrite Hbits by lia. destruct (decide (i = length l1)) as [->|Hne].
  - rewrite lookup_app_r, Nat.sub_diag in Hi by lia. injection Hi as <- <-. rewrite Z.eqb_refl.
    split; [|done]. eapply Hr. by rewrite lookup_app_r, Nat.sub_diag by lia.
  - destruct (Z.eqb_spec (Z.of_nat i) (Z.of_nat (length l1))); [lia|]. eapply Hr.
    apply lookup_app_Some in Hi as [Hi|[Hge Hi]]; [by apply lookup_app_l_Some|].
    rewrite lookup_app_r by lia. destruct (i - length l1)%nat eqn:Hd; [lia|]. exact Hi.
Qed.

Lemma dispatch_node_spec p a s ret :
  is_node p a ->
  wp (dispatch_node p ret) s (fun r s' =>
    let d := an_dispatch a (dispatched s) (dispatch_results s) ret in
    is_node r.1 (an_set d.1.1.1 a) /\ r.2 = d.2 /\ s' = sync_with d.1.1.2 d.1.2 s).
Proof.
  intros (Hd & Hk & Hq & Hrest). unfold dispatch_node. wp_step. rewrite Hd, Hk.
  apply (for_queue (get_queue p) (pending a) _ (fun l1 fr s' =>
    let d := foldl (disp_step (anDev a) (anKey a)) ([], dispatched s, dispatch_results s, ret) l1 in
    is_queue (Tmp (iValueTotal p) (aiValue p) fr.1) (d.1.1.1 ++ drop (length l1) (pending a)) /\
    fr.2 = d.2 /\ s' = sync_with d.1.1.2 d.1.2 s)); [done| | |].
  - cbn [foldl fst snd app length]. rewrite drop_0. split_and!; [done|done|by destruct s].
  - intros l1 v b l2 [f r] s1 Hl. cbv zeta. cbn [fst snd]. rewrite foldl_app.
    pose proof (disp_length (anDev a) (anKey a) ([], dispatched s, dispatch_results s, ret) l1) as Hlen.
    cbn [foldl]. destruct (foldl _ _ l1) as [[[ld log] rs] rt]. cbn [fst snd length] in *.
    rewrite Hl, drop_app_length, length_app. intros (Hq1 & -> & ->) Hv Hlt _.
    replace (length l1 + length [(v, b)])%nat with (S (length l1)) by (simpl; lia).
    rewrite (drop_app_ge l1) by lia. replace (S (length l1) - length l1)%nat with 1%nat by lia.
    cbn [drop]. rewrite Nat.add_0_l in Hlen.
    destruct (iq_req _ _ Hq1 (length l1) v b) as [_ Hbit].
    { by rewrite lookup_app_r, Hlen, Nat.sub_diag by lia. }
    cbn [tqFlag] in Hbit. wp_step. apply flag_get_spec; [lia|]. rewrite Hbit.
    unfold disp_step. cbn [fst snd]. destruct b; cbn [of_bool];
      [change (0 =? 1) with false|change (0 =? 0) with true]; cbv iota.
    { wp_step. cbn [fst snd]. rewrite <- app_assoc. by split_and!. }
    wp_step. eapply wp_arr_get; [lia|rewrite Nat2Z.id; exact Hv|]. wp_step.
    apply wp_run. eexists _, _. split; [reflexivity|]. cbn [dispatch_results sync_with dispatched].
    cbn [fst snd]. rewrite <- app_assoc. cbn [app]. destruct (Z.eqb_spec 0 (hd 0 rs)) as [Hr|Hr].
    + wp_step. apply flag_set_spec; [lia|]. intros f' Hf'. wp_step.
      split_and!; [|done|done]. eapply is_queue_set_flag; [exact Hq1|]. intros j Hj.
      rewrite Hlen, Hf' by lia. by destruct (j =? Z.of_nat (length l1)).
    + wp_step. by split_and!.
  - intros [f r] s1. cbv zeta. fold (an_dispatch a (dispatched s) (dispatch_results s) ret).
    rewrite drop_all, app_nil_r. cbn [fst snd]. intros (Hq1 & -> & ->). wp_step. cbn [fst snd].
    split_and!; [|done|done]. split_and!; cbn; try done; tauto.
Qed.

Definition an_calm (a : anode) : anode := ANode (anDev a) (anKey a) (pending a) 0 0 (active a).

(** A node without requests, or without activity for 30 seconds, is dropped; a
    protected one is left alone for a second and protected for two. *)
Fixpoint an_exec (now : Z) (l : list anode) (log : list (string * string * string)) (rs : list Z) (ret : Z)
    : list anode * list (string * string * string) * list Z * Z :=
  match l with
  | [] => ([], log, rs, ret)
  | a :: l =>
      if decide (pending a = []) then an_exec now l log rs ret
      else if 30 <=? now - active a then an_exec now l log rs ret
      else
        let a1 := if (1 =? protect a) && (2 <=? now - active a) then an_calm a else a in
        if (1 =? protect a) && (now - active a <? 1)
        then let '(l, log, rs, ret) := an_exec now l log rs ret in (a1 :: l, log, rs, ret)
        else
          let '(q, log, rs, ret) := an_dispatch a1 log rs ret in
          let '(l, log, rs, ret) := an_exec now l log rs ret in (an_set q a1 :: l, log, rs, ret)
  end.

Lemma exec_nodes_spec now l xs : forall s ret,
  Forall2 is_node l xs ->
  wp (exec_nodes now l ret) s (fun r s' =>
    let d := an_exec now xs (dispatched s) (dispatch_results s) ret in
    Forall2 is_node r.1 d.1.1.1 /\ r.2 = d.2 /\ s' = sync_with d.1.1.2 d.1.2 s).
Proof.
  revert xs. induction l as [|p l IH]; intros xs s ret HF; inversion HF as [|? a ? xs' Hp HF']; subst;
    cbn [exec_nodes an_exec].
  { wp_step. by destruct s. }
  pose proof Hp as (Hd & Hk & Hq & Hpr & Hc & Ha).
  assert ((0 =? iValueTotal p) = bool_decide (pending a = [])) as ->.
  { pose proof (iq_total _ _ Hq) as Ht. cbn in Ht. rewrite Ht.
    destruct (pending a); [done|]. rewrite bool_decide_false by done. apply Z.eqb_neq. simpl. lia. }
  rewrite Ha, Hpr. unfold SYNC_EVENT_LOSE_TIME, SYNC_EVENT_SAFE_TIME, SYNC_EVENT_DELAY_TIME.
  case_bool_decide as Hnil; [rewrite decide_True by done; by apply IH|]. rewrite decide_False by done.
  destruct (30 <=? now - active a); [by apply IH|].
  set (p1 := if _ && _ then with_protect 0 0 p else p).
  set (a1 := if _ && _ then an_calm a else a). cbv zeta.
  assert (is_node p1 a1) as Hp1.
  { unfold p1, a1. destruct ((1 =? protect a) && (2 <=? now - active a)); [|done]. by split_and!. }
  destruct ((1 =? protect a) && (now - active a <? 1)).
  - wp_step. eapply wp_mono; [by apply IH|]. intros [l' r'] s'. cbv zeta. cbn [fst snd].
    destruct (an_exec now xs' _ _ ret) as [[[xs2 log] rs] rt]. cbn [fst snd].
    intros (HF2 & -> & ->). wp_step. split_and!; [by constructor|done|done].
  - wp_step. eapply wp_mono; [by apply dispatch_node_spec|]. intros [p2 r2] s2. cbv zeta. cbn [fst snd].
    destruct (an_dispatch a1 _ _ ret) as [[[q log] rs] rt]. cbn [fst snd]. intros (Hp2 & -> & ->).
    wp_step. eapply wp_mono; [by apply IH|]. intros [l' r'] s'. cbv zeta. cbn [fst snd dispatched dispatch_results sync_with].
    destruct (an_exec now xs' log rs rt) as [[[xs2 log2] rs2] rt2]. cbn [fst snd].
    intros (HF2 & -> & ->). wp_step. split_and!; [by constructor|done|done].
Qed.

(** ** What an answer does *)

(** The first sent request of the value is removed, unless one was found before;
    a request that is not sent makes the ones before it unsent again. *)
Definition ans_step (v : Z) (fl : bool * list request) (x : request) : bool * list request :=
  let '(found, l) := fl in
  if x.2 then if negb found && (x.1 =? v) then (true, l) else (found, l ++ [x])
  else (found, unsend l ++ [x]).
Definition an_answer (now v : Z) (found : bool) (a : anode) : bool * anode :=
  let r := foldl (ans_step v) (found, []) (pending a) in
  (r.1, ANode (anDev a) (anKey a) r.2 (protect a) (cnt a) now).

Lemma ans_step_length v fl x : (length (ans_step v fl x).2 <= S (length fl.2))%nat.
Proof.
  destruct fl as [found l]. unfold ans_step, unsend.
  destruct x.2, (negb found && (x.1 =? v)); cbn; rewrite ?length_app, ?length_fmap; simpl; lia.
Qed.
Lemma ans_length v fl l : (length (foldl (ans_step v) fl l).2 <= length fl.2 + length l)%nat.
Proof.
  revert fl. induction l as [|x l IH]; intros fl; cbn [foldl length]; [lia|].
  pose proof (ans_step_length v fl x). specialize (IH (ans_step v fl x)). lia.
Qed.

Lemma answer_node_spec now value found p a s :
  is_node p a ->
  wp (answer_node now value found p) s (fun r s' =>
    s' = s /\ r.1 = (an_answer now (atoi value) found a).1 /\
    is_node r.2 (an_answer now (atoi value) found a).2).
Proof.
  intros (Hd & Hk & Hq & Hpr & Hc & _). unfold answer_node. cbv zeta. wp_step.
  apply (for_queue (get_queue p) (pending a) _ (fun l1 fq s' =>
    s' = s /\ fq.1 = (foldl (ans_step (atoi value)) (found, []) l1).1 /\
    is_queue fq.2 (foldl (ans_step (atoi value)) (found, []) l1).2)); [done| | |].
  - split_and!; [done..|apply is_queue_tmp0].
  - intros l1 v b l2 [f q] s1 _. rewrite foldl_app. cbn [fst snd foldl].
    pose proof (ans_length (atoi value) (found, []) l1) as Hlen.
    destruct (foldl _ _ l1) as [f1 lq]. cbn [fst snd length] in *. intros (-> & -> & Hq1) Hv Hlt Hb.
    wp_step. apply flag_get_spec; [lia|]. cbn [get_queue tqFlag with_active uiSendFlag] in *. rewrite Hb.
    wp_step. eapply wp_arr_get; [lia|rewrite Nat2Z.id; exact Hv|]. unfold ans_step. cbn [fst snd].
    destruct b; cbn [of_bool]; [change (1 =? 1) with true|change (1 =? 0) with false]; cbv iota.
    + destruct (negb f1 && (v =? atoi value)); [by wp_step|].
      wp_step. eapply tmp_sent_spec; [exact Hq1|lia|]. intros q' Hq'. by wp_step.
    + wp_step. eapply tmp_unsent_spec; [exact Hq1|lia|]. intros q' Hq'. by wp_step.
  - intros [f q] s1. cbn [fst snd]. intros (-> & -> & Hq1). wp_step. cbn [fst snd].
    split_and!; [done|done|]. unfold an_answer. split_and!; cbn; try done. by destruct q.
Qed.

(** * The module *)

Record astate : Type := AState {
  as_list : option (list anode);
  as_log : list (string * string * string);
  as_results : list Z;
  as_oom : list bool
}.

Definition sync_implements (s : sync_state) (st : astate) : Prop :=
  dispatched s = as_log st /\ dispatch_results s = as_results st /\ sync_oom s = as_oom st /\
  match g_pstSceneSyncEventList s, as_list st with
  | Some l, Some xs => Forall2 is_node l xs
  | None, None => True
  | _, _ => False
  end.

Inductive sync_op : Type :=
| SReq (now : Z) (dev key value : string)      (* scene_sync_event_req_add *)
| SExec (now : Z)                              (* scene_sync_event_req_exec *)
| SReport (now : Z) (dev key value : string).  (* scene_sync_event *)

Definition sync_run (o : sync_op) : SY Z :=
  match o with
  | SReq now d k v => scene_sync_event_req_add now d k v
  | SExec now => scene_sync_event_req_exec now
  | SReport now d k v => scene_sync_event now d k v
  end.

Definition an_new (now : Z) (dev key value : string) : anode :=
  ANode (str_take DEV_ID_MAX_LEN dev) (str_take KEY_MAX_LEN key) [(atoi value, false)] 0 1 now.

(** The list, which the first operation creates: two allocations. *)
Definition as_open (st : astate) : option (list anode) * bool * astate :=
  match as_list st with
  | Some l => (Some l, false, st)
  | None =>
      let st1 := AState None (as_log st) (as_results st) (tl (as_oom st)) in
      if hd false (as_oom st) then (None, true, st1)
      else
        let st2 := AState None (as_log st) (as_results st) (tl (tl (as_oom st))) in
        if hd false (tl (as_oom st)) then (None, true, st2)
        else (Some [], true, AState (Some []) (as_log st) (as_results st) (tl (tl (as_oom st))))
  end.
Definition as_set (l : list anode) (st : astate) : astate :=
  AState (Some l) (as_log st) (as_results st) (as_oom st).

(** [None]: a request does not fit its queue. *)
Definition sync_spec (o : sync_op) (st : astate) : option (Z * astate) :=
  let '(g, new, st) := as_open st in
  match g with
  | None => Some (-1, st)
  | Some l =>
      match o with
      | SReq now d k v =>
          '(found, l) ← awalk (an_matches d k)
              (fun _ a => a ← an_req now (atoi v) a; Some (true, a)) false l;
          if (found : bool) then Some (0, as_set l st)
          else Some (0, AState
            (Some (if hd false (as_oom st) then l else l ++ [an_new now d k v]))
            (as_log st) (as_results st) (tl (as_oom st)))
      | SExec now =>
          if (new : bool) then Some (0, st) else
          let '(l, log, rs, ret) := an_exec now l (as_log st) (as_results st) 0 in
          Some (ret, AState (Some l) log rs (as_oom st))
      | SReport now d k v =>
          '(found, l) ← awalk (an_matches d k)
              (fun f a => Some (an_answer now (atoi v) f a)) false l;
          Some (of_bool found, as_set l st)
      end
  end.

Lemma sync_list_spec s st :
  sync_implements s st ->
  wp sync_list s (fun r s' =>
    let o := as_open st in
    r.2 = o.1.2 /\ sync_implements s' o.2 /\
    match r.1, o.1.1 with
    | Some l, Some xs => Forall2 is_node l xs
    | None, None => True
    | _, _ => False
    end).
Proof.
  intros (Hl & Hr & Ho & Hg). unfold sync_list, as_open. wp_step. wp_step.
  destruct (g_pstSceneSyncEventList s) as [l|] eqn:Hs, (as_list st) as [xs|] eqn:Hx; [|done..|].
  { wp_step. cbn [fst snd]. split_and!; [done| |done]. unfold sync_implements. by rewrite Hs, Hx. }
  wp_step. apply wp_run. eexists _, _. split; [reflexivity|]. rewrite Ho.
  destruct (hd false (as_oom st)); cbn [negb].
  { wp_step. cbn [fst snd]. split_and!; [done| |done]. split_and!; cbn; rewrite ?Ho, ?Hs; done. }
  wp_step. apply wp_run. eexists _, _. split; [reflexivity|]. cbn [sync_oom].
  destruct (hd false (tl (as_oom st))); cbn [negb].
  { wp_step. cbn [fst snd]. split_and!; [done| |done]. split_and!; cbn; rewrite ?Ho, ?Hs; done. }
  wp_steps. cbn [fst snd]. split_and!; [done| |done]. split_and!; cbn; rewrite ?Ho; done.
Qed.

Lemma sync_implements_set s st l xs :
  sync_implements s st -> Forall2 is_node l xs ->
  sync_implements (set_list (Some l) s) (as_set xs st).
Proof. intros (Hl & Hr & Ho & _) HF. by split_and!. Qed.

Lemma sync_run_sim o s st :
  sync_implements s st ->
  sim (sync_run o) s (sync_spec o st) (fun r z s' => z = r.1 /\ sync_implements s' r.2).
Proof.
  intros Hi. unfold sync_spec. pose proof (sync_list_spec s st Hi) as Hopen.
  destruct (as_open st) as [[g new] st1]. cbn [fst snd] in Hopen.
  destruct o as [now d k v|now|now d k v]; cbn [sync_run];
    (eapply sim_wp; [exact Hopen|]); intros [[l|] new'] s1; cbn [fst snd]; intros (-> & Hi1 & Hg);
    destruct g as [xs|]; try done; try (by apply sim_ret).
  - eapply sim_bind.
    { apply (walk_sim d k _ (fun _ a => a ← an_req now (atoi v) a; Some (true, a))); [|exact Hg].
      intros _ p x Hp. eapply sim_bind; [by apply req_node_sim|].
      intros x' p' s2 [-> Hp']. by apply sim_ret. }
    intros [found xs'] [f l'] s2 (-> & Hf & HF). cbn [fst snd] in *. subst f.
    pose proof (sync_implements_set _ _ _ _ Hi1 HF) as Hi2. destruct found; cbn [negb].
    { unfold sim. wp_steps. by split. }
    unfold sim. wp_steps. apply wp_run. eexists _, _. split; [reflexivity|]. cbn [set_list sync_oom].
    destruct Hi2 as (Hl2 & Hr2 & Ho2 & _). cbn [set_list sync_oom as_set as_oom] in Ho2. rewrite Ho2.
    destruct (hd false (as_oom st1)); cbn [negb]; wp_steps; split; try done;
      split_and!; cbn; rewrite ?Ho2; try done.
    apply Forall2_app; [done|]. constructor; [|done]. split_and!; try done.
    split; cbn; [done|done|lia|].
    intros [|i] v0 b0; simpl; [|done]. intros [= <- <-]. done.
  - destruct new; [by apply sim_ret|]. pose proof Hi1 as (Hl1 & Hr1 & Ho1 & _).
    pose proof (exec_nodes_spec now l xs s1 0 Hg) as He. rewrite Hl1, Hr1 in He. cbv zeta in He.
    destruct (an_exec now xs _ _ 0) as [[[xs2 log] rs] ret]. cbn [fst snd] in He.
    unfold sim. wp_step. eapply wp_mono; [exact He|]. intros [l2 r2] s2. cbn [fst snd].
    intros (HF2 & -> & ->). wp_steps. split; [done|]. by split_and!.
  - eapply sim_bind.
    { apply (walk_sim d k _ (fun f a => Some (an_answer now (atoi v) f a))); [|exact Hg].
      intros f p x Hp. unfold sim. eapply wp_mono; [by apply answer_node_spec|]. done. }
    intros [found xs'] [f l'] s2 (-> & Hf & HF). cbn [fst snd] in *. subst f.
    unfold sim. wp_steps. split; [done|]. by apply sync_implements_set.
Qed.

Fixpoint sync_runs (os : list sync_op) : SY (list Z) :=
  match os with
  | [] => mret []
  | o :: os => r ← sync_run o; rs ← sync_runs os; mret (r :: rs)
  end.
Fixpoint sync_specs (os : list sync_op) (st : astate) : option (list Z * astate) :=
  match os with
  | [] => Some ([], st)
  | o :: os =>
      '(r, st) ← sync_spec o st; '(rs, st) ← sync_specs os st; Some (r :: rs, st)
  end.

Lemma sync_runs_sim os : forall s st,
  sync_implements s st ->
  sim (sync_runs os) s (sync_specs os st) (fun r zs s' => zs = r.1 /\ sync_implements s' r.2).
Proof.
  induction os as [|o os IH]; intros s st Hi; cbn [sync_runs sync_specs].
  { by apply sim_ret. }
  eapply sim_bind; [by apply sync_run_sim|]. intros [r st1] z s1 [-> Hi1]. cbn [fst snd] in *.
  eapply sim_bind; [by apply IH|]. intros [rs st2] zs s2 [-> Hi2]. by apply sim_ret.
Qed.

(** * The refinement *)

(** C39: every sequence of requests, dispatches and reports does to the queues
    what [sync_spec] says, with the same results and the same commands
    dispatched, for every outcome of dispatches and allocations; where the
    specification says that a request does not fit, and only there, the run
    writes past [aiValue]. *)
Theorem scene_sync_refines_queues os s st :
  sync_implements s st ->
  match sync_specs os st with
  | Some (rs, st') => wp (sync_runs os) s (fun zs s' => zs = rs /\ sync_implements s' st')
  | None => sync_runs os s = Fault OutOfBounds
  end.
Proof.
  intros Hi. pose proof (sync_runs_sim os s st Hi) as Hs. unfold sim in Hs.
  by destruct (sync_specs os st) as [[rs st']|].
Qed.

Definition sync_init : sync_state := SyncState None [] [] [].
Definition sync_demo : list sync_op :=
  [SReq 100 "lamp1" "Switch" "1"; SReq 100 "lamp2" "Switch" "1"; SExec 100;
   SReport 101 "lamp2" "Switch" "1"; SReport 101 "lamp2" "Switch" "1"; SReport 102 "lamp3" "Switch" "1"].

Lemma sync_init_implements : sync_implements sync_init (AState None [] [] []).
Proof. by split_and!. Qed.

Lemma scene_sync_refines_queues_witness :
  wp (sync_runs sync_demo) sync_init (fun zs s' => zs = [0; 0; 0; 1; 0; 0] /\
    sync_implements s' (AState
      (Some [ANode "lamp1" "Switch" [(1, true)] 0 1 100; ANode "lamp2" "Switch" [] 0 1 101])
      [("lamp1", "Switch", "1"); ("lamp2", "Switch", "1")] [] [])).
Proof. exact (scene_sync_refines_queues sync_demo sync_init (AState None [] [] []) sync_init_implements). Defined.
