(* ===== verification/SyncProps.v ===== *)
(** What the state synchronisation does: requests are dispatched and answered,
    and where the flags and the array of scene_sync.c go wrong. *)
From stdpp Require Import strings pretty.
From S2P Require Import Prelude CString SceneSync SyncRefine.

(** * Walks *)

Lemma awalk_none {A} mt (g : A -> anode -> option (A * anode)) a l :
  Forall (fun x => mt x = false) l -> awalk mt g a l = Some (a, l).
Proof.
  induction 1 as [|x l Hx Hl IH]; cbn [awalk]; [done|]. rewrite Hx. simpl. by rewrite IH.
Qed.

Lemma awalk_one {A} mt (g : A -> anode -> option (A * anode)) a x l1 l2 :
  Forall (fun x => mt x = false) l1 -> Forall (fun x => mt x = false) l2 -> mt x = true ->
  awalk mt g a (l1 ++ x :: l2) = ('(a, x) ← g a x; Some (a, l1 ++ x :: l2)).
Proof.
  intros H1 H2 Hx. induction H1 as [|y l Hy Hl IH]; cbn [awalk app].
  - rewrite Hx. destruct (g a x) as [[a1 x1]|]; simpl; [|done]. by rewrite awalk_none.
  - rewrite Hy. simpl. rewrite IH. by destruct (g a x) as [[a1 x1]|].
Qed.

Lemma awalk_single {A} mt (g : A -> anode -> option (A * anode)) a x :
  mt x = true -> awalk mt g a [x] = ('(a, x) ← g a x; Some (a, [x])).
Proof. by apply (awalk_one _ _ _ _ [] []). Qed.

Lemma sync_specs_app os1 os2 st :
  sync_specs (os1 ++ os2) st =
    ('(rs1, st) ← sync_specs os1 st; '(rs2, st) ← sync_specs os2 st; Some (rs1 ++ rs2, st)).
Proof.
  revert st. induction os1 as [|o os1 IH]; intros st; cbn [sync_specs app]; simpl.
  { by destruct (sync_specs os2 st) as [[rs2 st2]|]. }
  destruct (sync_spec o st) as [[r st1]|]; simpl; [|done]. rewrite IH.
  destruct (sync_specs os1 st1) as [[rs1 st2]|]; simpl; [|done].
  by destruct (sync_specs os2 st2) as [[rs2 st3]|].
Qed.

(** The operations on an existing list. *)
Lemma spec_req now d k v xs log rs oom :
  sync_spec (SReq now d k v) (AState (Some xs) log rs oom) =
    ('(found, l) ← awalk (an_matches d k) (fun _ a => a ← an_req now (atoi v) a; Some (true, a)) false xs;
     if (found : bool) then Some (0, AState (Some l) log rs oom)
     else Some (0, AState (Some (if hd false oom then l else l ++ [an_new now d k v])) log rs (tl oom))).
Proof. done. Qed.
Lemma spec_exec now xs log rs oom :
  sync_spec (SExec now) (AState (Some xs) log rs oom) =
    (let '(l, log, rs, ret) := an_exec now xs log rs 0 in Some (ret, AState (Some l) log rs oom)).
Proof. done. Qed.

(** * Requests and their answers *)

(** A request: device, key, value; strings that fit their buffers. *)
Abbreviation sreq := (string * string * string)%type.
Definition sr_fits (r : sreq) : Prop :=
  (String.length r.1.1 <= DEV_ID_MAX_LEN)%nat /\ (String.length r.1.2 <= KEY_MAX_LEN)%nat.
Definition req_at (t : Z) (r : sreq) : sync_op := SReq t r.1.1 r.1.2 r.2.
Definition report_at (t : Z) (r : sreq) : sync_op := SReport t r.1.1 r.1.2 r.2.
Definition command (r : sreq) : sreq := (r.1.1, r.1.2, pretty (atoi r.2)).

(** The node of [r], with its requests. *)
Definition node_of (t : Z) (r : sreq) (l : list request) : anode := ANode r.1.1 r.1.2 l 0 1 t.
Definition waiting (t : Z) (r : sreq) : anode := node_of t r [(atoi r.2, false)].
Definition awaited (t : Z) (r : sreq) : anode := node_of t r [(atoi r.2, true)].
Definition answered (t : Z) (r : sreq) : anode := node_of t r [].

Lemma matches_iff r t l r' : sr_fits r -> sr_fits r' ->
  an_matches r.1.1 r.1.2 (node_of t r' l) = bool_decide (r.1 = r'.1).
Proof.
  intros [Hd Hk] [Hd' Hk']. destruct r as [[d k] v], r' as [[d' k'] v']. cbn [fst snd] in *.
  unfold an_matches, strn_eq. cbn [node_of anDev anKey fst snd]. rewrite !str_take_short by done.
  repeat case_bool_decide; naive_solver.
Qed.

Lemma none_match r t l (f : sreq -> list request) :
  sr_fits r -> Forall sr_fits l -> r.1 ∉ fst <$> l ->
  Forall (fun x => an_matches r.1.1 r.1.2 x = false) ((fun r' => node_of t r' (f r')) <$> l).
Proof.
  intros Hr Hl Hnin. apply Forall_fmap, Forall_forall. intros r' Hin. simpl.
  rewrite Forall_forall in Hl. rewrite matches_iff by auto. apply bool_decide_eq_false.
  intros Heq. apply Hnin. rewrite Heq. by apply list_elem_of_fmap_2.
Qed.

Lemma an_new_fits t r : sr_fits r -> an_new t r.1.1 r.1.2 r.2 = waiting t r.
Proof. intros [Hd Hk]. unfold an_new, waiting, node_of. by rewrite !str_take_short. Qed.

Lemma reqs_spec t reqs : forall done log,
  NoDup (fst <$> done ++ reqs) -> Forall sr_fits (done ++ reqs) ->
  sync_specs (req_at t <$> reqs) (AState (Some (waiting t <$> done)) log [] []) =
    Some (replicate (length reqs) 0, AState (Some (waiting t <$> done ++ reqs)) log [] []).
Proof.
  induction reqs as [|r reqs IH]; intros ds log Hnd Hfit; cbn [fmap list_fmap sync_specs length replicate].
  { by rewrite app_nil_r. }
  specialize (IH (ds ++ [r]) log). rewrite <- app_assoc in IH. cbn [app] in IH.
  assert (r.1 ∉ fst <$> ds) as Hnin.
  { rewrite fmap_app in Hnd. apply NoDup_app in Hnd as (_ & Hnd & _). intros Hin. eapply Hnd; [exact Hin|by left]. }
  apply Forall_app in Hfit as Hf. destruct Hf as [Hfd Hfr]. inversion Hfr as [|? ? Hr Hfr']; subst.
  cbn [sync_spec req_at as_open as_list].
  rewrite awalk_none by (by apply (none_match r t ds (fun r => [(atoi r.2, false)]))).
  simpl. rewrite an_new_fits by done. rewrite (fmap_app _ ds [r]) in IH. cbn [fmap list_fmap] in IH.
  rewrite IH by done. done.
Qed.

Lemma exec_waiting t t' reqs log :
  t' - t < 30 ->
  an_exec t' (waiting t <$> reqs) log [] 0 = (awaited t <$> reqs, log ++ (command <$> reqs), [], 0).
Proof.
  intros Ht. revert log. induction reqs as [|r reqs IH]; intros log; cbn [fmap list_fmap an_exec].
  { by rewrite app_nil_r. }
  rewrite decide_False by done. cbn [active waiting node_of protect].
  destruct (Z.leb_spec 30 (t' - t)); [lia|]. simpl. rewrite IH, <- app_assoc. done.
Qed.

(** One report after the other: every node answers [b] and is left empty. *)
Lemma reports_spec t t' (b : bool) (F : sreq -> list request) log reqs : forall ds,
  (forall r, an_answer t' (atoi r.2) false (node_of t r (F r)) = (b, answered t' r)) ->
  NoDup (fst <$> ds ++ reqs) -> Forall sr_fits (ds ++ reqs) ->
  sync_specs (report_at t' <$> reqs)
    (AState (Some ((answered t' <$> ds) ++ ((fun r => node_of t r (F r)) <$> reqs))) log [] []) =
    Some (replicate (length reqs) (of_bool b), AState (Some (answered t' <$> ds ++ reqs)) log [] []).
Proof.
  induction reqs as [|r reqs IH]; intros ds HF Hnd Hfit; cbn [fmap list_fmap sync_specs length replicate].
  { by rewrite !app_nil_r. }
  specialize (IH (ds ++ [r])). rewrite <- app_assoc in IH. cbn [app] in IH.
  rewrite fmap_app in Hnd. cbn [fmap list_fmap] in Hnd.
  apply NoDup_middle in Hnd as Hn. destruct Hn as [_ Hn]. rewrite not_elem_of_app in Hn. destruct Hn as [Hn1 Hn2].
  apply Forall_app in Hfit as Hf. destruct Hf as [Hfd Hfr]. inversion Hfr as [|? ? Hr Hfr']; subst.
  cbn [sync_spec report_at as_open as_list].
  rewrite awalk_one; [|by apply (none_match r t' ds (fun _ => []))
    |by apply (none_match r t reqs F)|rewrite matches_iff by done; by apply bool_decide_true].
  rewrite HF. simpl. unfold as_set. cbn [as_log as_results as_oom].
  rewrite (fmap_app _ ds [r]), <- app_assoc in IH. cbn [fmap list_fmap app] in IH.
  rewrite IH; [done|done| |done]. by rewrite fmap_app.
Qed.

(** A run the specification foretells. *)
Lemma sync_runs_ok os s st rs st' :
  sync_implements s st -> sync_specs os st = Some (rs, st') ->
  wp (sync_runs os) s (fun zs s' => zs = rs /\ sync_implements s' st').
Proof. intros Hi Hs. pose proof (sync_runs_sim os s st Hi) as H. by rewrite Hs in H. Qed.

(** * Properties *)

(** No request waits, every allocation and dispatch succeeds. *)
Definition idle (s : sync_state) : Prop :=
  g_pstSceneSyncEventList s = Some [] /\ dispatch_results s = [] /\ sync_oom s = [].

Lemma idle_implements s : idle s -> sync_implements s (AState (Some []) (dispatched s) [] []).
Proof. intros (Hg & Hr & Ho). split_and!; [done|done|done|]. rewrite Hg. constructor. Qed.

(** The requests of one scene are dispatched once each, in order; the
    first report of the requested value by each device is recognised as the
    answer (result 1), every further one is not (result 0) and starts the
    synchronisation anew. *)
Theorem scene_sync_answered_once s reqs t t' t'' :
  idle s -> NoDup (fst <$> reqs) -> Forall sr_fits reqs -> t' - t < 30 ->
  wp (sync_runs ((req_at t <$> reqs) ++ SExec t' :: (report_at t'' <$> reqs) ++ (report_at t'' <$> reqs))) s
    (fun zs s' =>
       zs = replicate (length reqs) 0 ++ 0 :: replicate (length reqs) 1 ++ replicate (length reqs) 0 /\
       dispatched s' = dispatched s ++ (command <$> reqs)).
Proof.
  intros Hi Hnd Hfit Ht. pose proof (reqs_spec t reqs [] (dispatched s) Hnd Hfit) as H1.
  pose proof (exec_waiting t t' reqs (dispatched s) Ht) as H2.
  set (log := dispatched s ++ (command <$> reqs)) in *.
  pose proof (reports_spec t t'' true (fun r => [(atoi r.2, true)]) log reqs []) as H3.
  pose proof (reports_spec t'' t'' false (fun _ => []) log reqs []) as H4.
  cbn [fmap list_fmap app] in H1, H3, H4.
  change (fun r => node_of t r [(atoi r.2, true)]) with (awaited t) in H3.
  change (fun r => node_of t'' r []) with (answered t'') in H4.
  eapply wp_mono; [eapply sync_runs_ok; [by apply idle_implements|]|].
  - rewrite sync_specs_app, H1. simpl. rewrite spec_exec, H2. simpl. rewrite sync_specs_app, H3; [|intros r|done|done].
    + simpl. rewrite H4 by done. reflexivity.
    + unfold an_answer, node_of. simpl. by rewrite Z.eqb_refl.
  - intros zs s' [-> (Hl & _)]. done.
Qed.

(** ** Requests after dispatched ones *)

Lemma an_exec_app now l1 l2 : forall log rs ret,
  an_exec now (l1 ++ l2) log rs ret =
    (let '(x1, log1, rs1, ret1) := an_exec now l1 log rs ret in
     let '(x2, log2, rs2, ret2) := an_exec now l2 log1 rs1 ret1 in (x1 ++ x2, log2, rs2, ret2)).
Proof.
  induction l1 as [|a l1 IH]; intros log rs ret; cbn [an_exec app].
  { by destruct (an_exec now l2 log rs ret) as [[[x2 log2] rs2] ret2]. }
  case_decide; [by apply IH|]. destruct (30 <=? now - active a); [by apply IH|]. cbv zeta.
  set (a1 := if _ && _ then an_calm a else a). destruct (_ && (now - active a <? 1)).
  - rewrite IH. destruct (an_exec now l1 log rs ret) as [[[x1 log1] rs1] ret1].
    by destruct (an_exec now l2 log1 rs1 ret1) as [[[x2 log2] rs2] ret2].
  - destruct (an_dispatch a1 log rs ret) as [[[q log0] rs0] ret0]. rewrite IH.
    destruct (an_exec now l1 log0 rs0 ret0) as [[[x1 log1] rs1] ret1].
    by destruct (an_exec now l2 log1 rs1 ret1) as [[[x2 log2] rs2] ret2].
Qed.

(** Every request of the node is sent. *)
Definition all_sent (a : anode) : Prop := Forall (fun x : request => x.2 = true) (pending a).

Lemma dispatch_sent dev key l acc log rs ret :
  Forall (fun x : request => x.2 = true) l ->
  foldl (disp_step dev key) (acc, log, rs, ret) l = (acc ++ l, log, rs, ret).
Proof.
  intros Hl. revert acc. induction Hl as [|[v b] l Hb Hl IH]; intros acc; cbn [foldl].
  { by rewrite app_nil_r. }
  simpl in Hb. subst b. unfold disp_step at 2. cbn [fst snd]. rewrite IH, <- app_assoc. done.
Qed.

Lemma dispatch_unsent dev key l acc log ret :
  foldl (disp_step dev key) (acc, log, [], ret) (unsend l) =
    (acc ++ ((fun x => (x.1, true)) <$> l), log ++ ((fun x => (dev, key, pretty x.1)) <$> l), [],
     if decide (l = []) then ret else 0).
Proof.
  revert acc log ret. induction l as [|[v b] l IH]; intros acc log ret; cbn [unsend fmap list_fmap foldl].
  { by rewrite !app_nil_r. }
  fold (unsend l). unfold disp_step at 2. cbn [fst snd hd tl]. rewrite IH, <- !app_assoc. cbn [app fst].
  rewrite (decide_False (P := (v, b) :: l = [])) by done. by destruct (decide (l = [])).
Qed.

Lemma exec_all_sent now l log rs ret :
  Forall all_sent l -> exists l', an_exec now l log rs ret = (l', log, rs, ret).
Proof.
  intros Hl. revert log rs ret. induction Hl as [|a l Ha Hl IH]; intros log rs ret; cbn [an_exec].
  { by eexists. }
  destruct (IH log rs ret) as [l' IH']. case_decide; [by eexists|].
  destruct (30 <=? now - active a); [by eexists|]. cbv zeta.
  set (a1 := if _ && _ then an_calm a else a).
  assert (all_sent a1) as Ha1 by (unfold a1; by destruct (_ && _)).
  destruct (_ && (now - active a <? 1)); [rewrite IH'; by eexists|].
  unfold an_dispatch. rewrite dispatch_sent by done. rewrite IH'. by eexists.
Qed.

(** After a request for a node whose requests are dispatched but not yet
    answered, outside the protection mode, the next dispatch sends every one of
    them a second time before the new one: [send_flag_clean] clears all flags of
    the queue instead of one. *)
Theorem scene_sync_request_resends s l1 a l2 log dev key v now now' :
  sync_implements s (AState (Some (l1 ++ a :: l2)) log [] []) ->
  Forall (fun x => an_matches dev key x = false) l1 ->
  Forall (fun x => an_matches dev key x = false) l2 ->
  an_matches dev key a = true -> Forall all_sent (l1 ++ a :: l2) ->
  protect (an_protect now a) = 0 -> (length (pending a) < 32)%nat -> now' - now < 30 ->
  wp (sync_runs [SReq now dev key v; SExec now']) s (fun zs s' =>
    zs = [0; 0] /\
    dispatched s' = log ++ ((fun x => (anDev a, anKey a, pretty x.1)) <$> pending a)
                        ++ [(anDev a, anKey a, pretty (atoi v))]).
Proof.
  intros Hi H1 H2 Hm Hsent Hpr Hlen Ht. apply Forall_app in Hsent as [Hs1 Hs2].
  inversion Hs2 as [|? ? Hsa Hs2']; subst.
  assert (an_kept (an_protect now a) = pending a) as Hkept by (unfold an_kept; by rewrite Hpr).
  set (a' := ANode (anDev a) (anKey a) (unsend (pending a) ++ [(atoi v, false)]) 0 (cnt (an_protect now a)) now).
  assert (an_req now (atoi v) a = Some a') as Hreq.
  { unfold an_req. rewrite Hkept, decide_True by done. by rewrite Hpr. }
  assert (exists x, an_exec now' (l1 ++ a' :: l2) log [] 0 =
    (x, log ++ ((fun x => (anDev a, anKey a, pretty x.1)) <$> pending a)
            ++ [(anDev a, anKey a, pretty (atoi v))], [], 0)) as [x Hx].
  { destruct (exec_all_sent now' l1 log [] 0 Hs1) as [x1 Hx1]. rewrite an_exec_app, Hx1. cbn [an_exec].
    rewrite decide_False by (unfold a'; cbn [pending]; by destruct (unsend (pending a))).
    cbn [active protect a']. destruct (Z.leb_spec 30 (now' - now)); [lia|].
    change (1 =? 0) with false. cbn [andb]. cbv zeta. unfold an_dispatch. cbn [pending anDev anKey a'].
    change [(atoi v, false)] with (unsend [(atoi v, true)]). unfold unsend. rewrite <- fmap_app.
    fold (unsend (pending a ++ [(atoi v, true)])). rewrite dispatch_unsent.
    rewrite fmap_app. cbn [fmap list_fmap fst].
    set (log' := log ++ _). set (ret' := if decide _ then _ else _).
    assert (ret' = 0) as -> by (unfold ret'; by case_decide).
    destruct (exec_all_sent now' l2 log' [] 0 Hs2') as [x2 Hx2]. rewrite Hx2. by eexists. }
  eapply wp_mono; [eapply sync_runs_ok; [exact Hi|]|].
  - cbn [sync_specs]. rewrite spec_req, awalk_one by done. rewrite Hreq. simpl.
    rewrite spec_exec, Hx. reflexivity.
  - intros zs s' [-> (Hl & _)]. done.
Qed.

(** ** Requests that are not answered *)

(** [n] requests to one device, one every two seconds, each dispatched at once. *)
Fixpoint flood (t : Z) (dev key v : string) (n : nat) : list sync_op :=
  match n with
  | O => []
  | S n => flood t dev key v n ++
             [SReq (t + 2 * Z.of_nat n) dev key v; SExec (t + 2 * Z.of_nat n)]
  end.

Definition flooded (t : Z) (dev key : string) (l : list request) (c : Z) : anode :=
  ANode (str_take DEV_ID_MAX_LEN dev) (str_take KEY_MAX_LEN key) l 0 c t.

Lemma flooded_matches t dev key l c : an_matches dev key (flooded t dev key l c) = true.
Proof.
  unfold an_matches, flooded, strn_eq. cbn [anDev anKey].
  by rewrite !str_take_take, !bool_decide_true.
Qed.

(** A dispatch keeps the queue of an active node outside the protection mode. *)
Lemma exec_flooded t dev key l c log rs :
  l <> [] -> exists l' log' rs' ret,
    an_exec t [flooded t dev key l c] log rs 0 = ([flooded t dev key l' c], log', rs', ret) /\
    length l' = length l.
Proof.
  intros Hl. cbn [an_exec]. rewrite decide_False by done. cbn [active protect flooded].
  rewrite Z.sub_diag. change (30 <=? 0) with false. change (1 =? 0) with false. cbn [andb]. cbv zeta.
  unfold an_dispatch. cbn [pending anDev anKey flooded].
  pose proof (disp_length (str_take DEV_ID_MAX_LEN dev) (str_take KEY_MAX_LEN key) ([], log, rs, 0) l) as Hlen.
  destruct (foldl _ _ l) as [[[l' log'] rs'] ret]. cbn [fst snd length] in Hlen.
  by eexists l', log', rs', ret.
Qed.

(** A request two seconds after the last one. *)
Lemma req_flooded t v dev key l c :
  (length l < 32)%nat ->
  an_req (t + 2) v (flooded t dev key l c) = Some (flooded (t + 2) dev key (unsend l ++ [(v, false)]) 0).
Proof.
  intros Hl. unfold an_req, an_protect. cbn [active protect cnt pending anDev anKey flooded].
  replace (t + 2 - t) with 2 by lia. change (2 <? 2) with false. cbv iota.
  change ((0 =? 0) && (4 <=? 0)) with false. cbv iota. cbn [an_kept protect pending].
  unfold an_kept. cbn [protect pending]. change (1 =? 0) with false. cbv iota. by rewrite decide_True.
Qed.
Lemma req_flooded_full t v dev key l c :
  length l = 32%nat -> an_req (t + 2) v (flooded t dev key l c) = None.
Proof.
  intros Hl. unfold an_req, an_protect. cbn [active protect cnt pending anDev anKey flooded].
  replace (t + 2 - t) with 2 by lia. change (2 <? 2) with false. cbv iota.
  change ((0 =? 0) && (4 <=? 0)) with false. cbv iota.
  unfold an_kept. cbn [protect pending]. change (1 =? 0) with false. cbv iota. rewrite decide_False by lia. done.
Qed.

Lemma flood_spec t dev key v log rs n :
  (n < 32)%nat ->
  exists zs l c log' rs',
    sync_specs (flood t dev key v (S n)) (AState (Some []) log rs []) =
      Some (zs, AState (Some [flooded (t + 2 * Z.of_nat n) dev key l c]) log' rs' []) /\
    length l = S n.
Proof.
  induction n as [|n IH]; intros Hn.
  - cbn [flood app sync_specs Z.of_nat]. rewrite Z.add_0_r, spec_req. simpl.
    rewrite spec_exec. change (an_new t dev key v) with (flooded t dev key [(atoi v, false)] 1).
    destruct (exec_flooded t dev key [(atoi v, false)] 1 log rs) as (l & log' & rs' & ret & He & Hl); [done|].
    rewrite He. simpl. by eexists _, l, 1, log', rs'.
  - destruct IH as (zs & l & c & log' & rs' & Hs & Hl); [lia|].
    cbn [flood] in *. rewrite sync_specs_app, Hs. cbn [sync_specs mbind option_bind].
    replace (t + 2 * Z.of_nat (S n)) with (t + 2 * Z.of_nat n + 2) by lia.
    rewrite spec_req, awalk_single by apply flooded_matches.
    rewrite req_flooded by lia. simpl. rewrite spec_exec.
    destruct (exec_flooded (t + 2 * Z.of_nat n + 2) dev key (unsend l ++ [(atoi v, false)]) 0 log' rs')
      as (l' & log2 & rs2 & ret & He & Hl'); [by destruct (unsend l)|].
    rewrite He. simpl. eexists _, l', 0, log2, rs2. split; [done|].
    rewrite Hl', length_app. unfold unsend. rewrite length_fmap. simpl. lia.
Qed.

(** The queue of a device has room for 32 requests and no check: 32
    requests that the device does not answer, two seconds apart - too far for the
    protection mode, too close for the node to expire -, are handled; the next
    one is written past [aiValue], whatever its value and whatever the results
    of the dispatches. *)
Theorem scene_sync_flood_overflows s t dev key v :
  g_pstSceneSyncEventList s = Some [] -> sync_oom s = [] ->
  wp (sync_runs (flood t dev key v 32)) s (fun _ _ => True) /\
  sync_runs (flood t dev key v 32 ++ [SReq (t + 64) dev key v]) s = Fault OutOfBounds.
Proof.
  intros Hg Ho.
  assert (Hi : sync_implements s (AState (Some []) (dispatched s) (dispatch_results s) [])).
  { split_and!; [done|done|done|]. rewrite Hg. constructor. }
  destruct (flood_spec t dev key v (dispatched s) (dispatch_results s) 31) as (zs & l & c & log & rs & Hs & Hl);
    [lia|]. split.
  - eapply wp_mono; [by eapply sync_runs_ok|done].
  - pose proof (sync_runs_sim (flood t dev key v 32 ++ [SReq (t + 64) dev key v]) _ _ Hi) as H.
    rewrite sync_specs_app, Hs in H. cbn [mbind option_bind sync_specs] in H.
    replace (t + 64) with (t + 2 * Z.of_nat 31 + 2) in H by lia.
    rewrite spec_req, awalk_single in H by apply flooded_matches.
    rewrite req_flooded_full in H by done. replace (t + 64) with (t + 2 * Z.of_nat 31 + 2) by lia. exact H.
Qed.

(** ** Witnesses *)

Definition sync_idle : sync_state := SyncState (Some []) [] [] [].

Lemma scene_sync_answered_once_witness :
  wp (sync_runs ((req_at 100 <$> [("a", "Switch", "1"); ("b", "Switch", "1")]) ++ SExec 101 ::
        (report_at 102 <$> [("a", "Switch", "1"); ("b", "Switch", "1")]) ++
        (report_at 102 <$> [("a", "Switch", "1"); ("b", "Switch", "1")]))) sync_idle
    (fun zs s' => zs = [0; 0; 0; 1; 1; 0; 0] /\
       dispatched s' = [("a", "Switch", "1"); ("b", "Switch", "1")]).
Proof.
  apply (scene_sync_answered_once sync_idle [("a", "Switch", "1"); ("b", "Switch", "1")]%string 100 101 102).
  - by split_and!.
  - apply (bool_decide_unpack _). vm_compute. exact I.
  - repeat constructor; vm_compute; lia.
  - lia.
Defined.

(** Two requests to a lamp that does not answer the first one. *)
Definition lamp_node : anode := ANode "lamp" "Switch" [(1, true)] 0 1 100.
Definition sync_pending : sync_state :=
  SyncState (Some [SyncNode "lamp" "Switch" 1 (1 :: replicate 31 0) 1 0 1 100]) [("lamp", "Switch", "1")]%string [] [].

Lemma sync_pending_implements :
  sync_implements sync_pending (AState (Some [lamp_node]) [("lamp", "Switch", "1")]%string [] []).
Proof.
  split_and!; [done|done|done|]. constructor; [|constructor]. split_and!; try done.
  split; cbn; [done|done|lia|]. intros [|i] v b Hi; [|done]. injection Hi as <- <-. done.
Qed.

Lemma scene_sync_request_resends_witness :
  wp (sync_runs [SReq 105 "lamp" "Switch" "0"; SExec 105]) sync_pending (fun zs s' =>
    zs = [0; 0] /\
    dispatched s' = [("lamp", "Switch", "1"); ("lamp", "Switch", "1"); ("lamp", "Switch", "0")]%string).
Proof.
  apply (scene_sync_request_resends sync_pending [] lamp_node [] [("lamp", "Switch", "1")]%string
           "lamp" "Switch" "0" 105 105).
  - exact sync_pending_implements.
  - constructor.
  - constructor.
  - reflexivity.
  - repeat constructor.
  - reflexivity.
  - simpl. lia.
  - lia.
Defined.

Lemma scene_sync_flood_overflows_witness :
  wp (sync_runs (flood 0 "lamp" "Switch" "1" 32)) sync_idle (fun _ _ => True) /\
  sync_runs (flood 0 "lamp" "Switch" "1" 32 ++ [SReq (0 + 64) "lamp" "Switch" "1"]) sync_idle = Fault OutOfBounds.
Proof. apply (scene_sync_flood_overflows sync_idle 0 "lamp" "Switch" "1"); reflexivity. Defined.
