(* ===== verification/SceneData.v ===== *)
(** The objects of the scene engine (condition_list.h, scene_list.h,
    ptr_hash.h) and the heap they live in. *)
From stdpp Require Import gmap strings.
From S2P Require Import Prelude Heap CString HashTable SceneTimer SceneCond SceneSync.

(** * Condition lists *)

Definition INDEX_MAX_LEN : nat := 64.
Definition COND_TIME : string := "Time".
Definition COND_EVENT : string := "Event".
Definition LOGIC_AND : string := "And".
Definition LOGIC_OR : string := "Or".

(** What a condition node holds; the two kinds are different structs. *)
Inductive cond : Type := CTime (c : time_cond) | CEvent (c : event_cond).

(** [time_cond_node_t] and [event_cond_node_t], with their address. *)
Record cond_node : Type := CondNode { cnAddr : positive; iCondIndex : Z; stCond : cond }.

(** [cond_list_node_t] with its [cond_set_t]; [pstCond] is the chain of its
    condition nodes. *)
Record cond_set : Type := CondSet {
  csAddr : positive;
  iCondSetIndex : Z;
  uiCondTrue : Z;
  ucCondCount : Z;
  pstCond : list cond_node
}.

(** [cond_list_class_t]; [sets] are the nodes of the inherited linked list. *)
Record cond_list : Type := CondList {
  sets : list cond_set;
  uiCondSetTrue : Z;
  iCount : Z;
  clId : string;          (* stCondInfo.acId *)
  acLogic : string;
  acCondType : string;
  ucInitFlag : Z
}.

(** * Scenes *)

Record cond_logic : Type := CondLogic {
  ucCondListTrue : Z;
  pstTimeCondList : ptr;
  pstEventCondList : ptr
}.

Record scene_info : Type := SceneInfo {
  acSceneId : string;
  acSceneName : string;
  cManualTriggerFlag : Z;
  acSceneEnable : string;
  acExecDelayed : string;
  acUpdateTime : string;
  acNote : string;
  ucSceneCondTrue : Z;
  pstPanel : ptr;
  stOrCond : cond_logic;
  stAndCond : cond_logic;
  pstAction : ptr
}.

(** [ptr_info_t], [ptr_node_t]: where a condition is. *)
Record ptr_info : Type := PtrInfo {
  piId : string;          (* acId *)
  pstScene : ptr;
  pstCondList : ptr;
  pCondSetNode : ptr;
  pCondNode : ptr;
  pScenePanelNode : ptr
}.
Record ptr_node : Type := PtrNode { stCondPtr : ptr_info; pnNext : ptr; pnPrev : ptr }.

(** [scene_panel_t], [scene_panel_node_t]: a panel key bound to a scene. *)
Record scene_panel : Type := ScenePanel {
  spDevId : string;       (* acDevId *)
  spKey : string;         (* acKey *)
  spValue : string;       (* acValue *)
  acEnable : string
}.
Record panel_node : Type := PanelNode { stPanel : scene_panel; plNext : ptr; plPrev : ptr }.

(** [action_info_t], [action_list_class_t] with the nodes of its linked list. *)
Record action_info : Type := ActionInfo {
  acActionId : string;
  atDevId : string;       (* acDevId *)
  atKey : string;         (* acKey *)
  acValueCoding : string;
  atValue : string;       (* acValue *)
  acResult : string
}.
Record action_list : Type := ActionList {
  actions : list (positive * action_info);
  alId : string;          (* acId *)
  alInitFlag : Z          (* ucInitFlag *)
}.

(** [scene_list_class_t]: the scenes, in the order of the list, and the table of
    pointer nodes among its private parameters. *)
Record scene_list : Type := SceneList {
  scenes : list positive;
  pHashTable : ptr;
  slInitFlag : Z;         (* ucInitFlag *)
  pSceneReportHandler : ptr
}.

(** [link_queue_node_t]: a scene waiting for execution. *)
Record queue_node : Type := QueueNode { iExecDelayed : Z; iTime : Z; stSceneInfo : scene_info }.

(** * What actions do outside the engine

    A command is a JSON object, its ["Type"] and the members of the one object
    of its ["Data"]; [CustomData] the bytes for a ZigBee device; [SceneReport]
    the report that a scene has been executed. *)
Inductive effect : Type :=
| Command (acType : string) (data : list (string * string))
| CustomData (data : list Z)
| Usleep (us : Z)
| CallBack (pFun pUserData : ptr) (acParam : string)
| SceneReport (acSceneId : string).

(** [action_cb_t]. *)
Record action_cb : Type := ActionCb { iCbId : Z; pFun : ptr; pUserData : ptr }.

(** The table of callbacks, the results of the next commands (0 once they are
    used up), and what has been done. *)
Record act_state : Type := ActState {
  g_astActionCBList : list action_cb;
  command_results : list Z;
  effects : list effect
}.
Definition acts0 : act_state := ActState (replicate 64 (ActionCb 0 NULL NULL)) [] [].

(** * The heap of the scene engine *)

Inductive obj : Type :=
| OHash (h : hash_table)
| OPtrNode (n : ptr_node)
| OList (l : cond_list)
| OScene (s : scene_info)
| OPanel (n : panel_node)
| OActions (l : action_list)
| OSceneList (l : scene_list).

#[export] Instance obj_hash : HashHeap obj := {|
  of_hash := OHash;
  to_hash o := match o with OHash h => Some h | _ => None end;
  to_of_hash h := eq_refl
|}.

Definition to_node (o : obj) : option ptr_node := match o with OPtrNode n => Some n | _ => None end.
Definition to_list (o : obj) : option cond_list := match o with OList l => Some l | _ => None end.
Definition to_panel (o : obj) : option panel_node := match o with OPanel n => Some n | _ => None end.
Definition to_actions (o : obj) : option action_list := match o with OActions l => Some l | _ => None end.
Definition to_scenes (o : obj) : option scene_list := match o with OSceneList l => Some l | _ => None end.
Definition to_scene (o : obj) : option scene_info := match o with OScene s => Some s | _ => None end.

(** What the engine shares: the results of the next database requests (NoErr
    once they are used up), the clock, the execution queue, the timers started
    for "Continue" conditions with their delay in seconds, the state
    synchronisation, the callbacks and effects of actions. *)
Record env : Type := Env {
  db_results : list Z;
  local_time : tm;
  unix_time : Z;
  exec_queue : list queue_node;
  continue_timers : list (ptr * Z);
  sync : sync_state;
  acts : act_state
}.

Abbreviation mem := (heap obj env).
Abbreviation L A := (M mem A).

Definition set_db (l : list Z) (g : env) : env :=
  Env l (local_time g) (unix_time g) (exec_queue g) (continue_timers g) (sync g) (acts g).
Definition set_queue (q : list queue_node) (g : env) : env :=
  Env (db_results g) (local_time g) (unix_time g) q (continue_timers g) (sync g) (acts g).
Definition set_timers (l : list (ptr * Z)) (g : env) : env :=
  Env (db_results g) (local_time g) (unix_time g) (exec_queue g) l (sync g) (acts g).
Definition set_sync (y : sync_state) (g : env) : env :=
  Env (db_results g) (local_time g) (unix_time g) (exec_queue g) (continue_timers g) y (acts g).
Definition set_acts (a : act_state) (g : env) : env :=
  Env (db_results g) (local_time g) (unix_time g) (exec_queue g) (continue_timers g) (sync g) a.

(** The synchronisation before its first use. *)
Definition sync_unused : sync_state := SyncState None [] [] [].

Definition db_request : L Z := fun s =>
  Val (hd NoErr (db_results (glob s)), with_glob (fun g => set_db (tl (db_results g)) g) s).

(** A call of scene_sync.c. *)
Definition sync_call {A} (m : SY A) : L A := fun s =>
  match m (sync (glob s)) with
  | Val (a, y) => Val (a, with_glob (set_sync y) s)
  | Fault e => Fault e
  end.

(** * Field updates *)

Definition set_truths (u : Z) (l : cond_list) : cond_list :=
  CondList (sets l) u (iCount l) (clId l) (acLogic l) (acCondType l) (ucInitFlag l).
Definition set_sets (ss : list cond_set) (l : cond_list) : cond_list :=
  CondList ss (uiCondSetTrue l) (iCount l) (clId l) (acLogic l) (acCondType l) (ucInitFlag l).
Definition set_count (n : Z) (l : cond_list) : cond_list :=
  CondList (sets l) (uiCondSetTrue l) n (clId l) (acLogic l) (acCondType l) (ucInitFlag l).
Definition set_cond_true (u : Z) (c : cond_set) : cond_set :=
  CondSet (csAddr c) (iCondSetIndex c) u (ucCondCount c) (pstCond c).
Definition set_node_cond (c : cond) (n : cond_node) : cond_node :=
  CondNode (cnAddr n) (iCondIndex n) c.

(** * Nodes by address *)

(** The sets before the one at [a], the one, the sets after it. *)
Fixpoint split_set (a : positive) (l : list cond_set) : option (list cond_set * cond_set * list cond_set) :=
  match l with
  | [] => None
  | c :: l =>
      if decide (csAddr c = a) then Some ([], c, l)
      else '(l1, c', l2) ← split_set a l; Some (c :: l1, c', l2)
  end.
Fixpoint split_node (a : positive) (l : list cond_node) : option (list cond_node * cond_node * list cond_node) :=
  match l with
  | [] => None
  | n :: l =>
      if decide (cnAddr n = a) then Some ([], n, l)
      else '(l1, n', l2) ← split_node a l; Some (n :: l1, n', l2)
  end.

(** Members through pointers to a set node or to a condition node: [Dangling]
    when the node is not, or no longer, in its list. *)
Definition the_set (p : ptr) (l : cond_list) : L (list cond_set * cond_set * list cond_set) :=
  match p with None => fail NullDeref | Some a => get_or Dangling (split_set a (sets l)) end.
Definition the_node (p : ptr) (c : cond_set) : L (list cond_node * cond_node * list cond_node) :=
  match p with None => fail NullDeref | Some a => get_or Dangling (split_node a (pstCond c)) end.

Definition as_time (c : cond) : L time_cond :=
  match c with CTime t => mret t | CEvent _ => fail BadCast end.
Definition as_event (c : cond) : L event_cond :=
  match c with CEvent e => mret e | CTime _ => fail BadCast end.

Lemma split_set_Some a l l1 c l2 :
  split_set a l = Some (l1, c, l2) -> l = l1 ++ c :: l2 /\ csAddr c = a.
Proof.
  revert l1. induction l as [|d l IH]; intros l1; simpl; [done|].
  case_decide as Hd; [by intros [= <- <- <-]|].
  destruct (split_set a l) as [[[l1' c'] l2']|]; simpl; [|done].
  intros [= <- <- <-]. destruct (IH l1' eq_refl) as [-> ?]. done.
Qed.

Lemma split_set_in l1 c l2 :
  csAddr c ∉ csAddr <$> l1 -> split_set (csAddr c) (l1 ++ c :: l2) = Some (l1, c, l2).
Proof.
  induction l1 as [|d l1 IH]; simpl; [by rewrite decide_True|].
  rewrite not_elem_of_cons. intros [Hd Hl]. rewrite decide_False by done. by rewrite IH.
Qed.

Lemma split_node_Some a l l1 n l2 :
  split_node a l = Some (l1, n, l2) -> l = l1 ++ n :: l2 /\ cnAddr n = a.
Proof.
  revert l1. induction l as [|d l IH]; intros l1; simpl; [done|].
  case_decide as Hd; [by intros [= <- <- <-]|].
  destruct (split_node a l) as [[[l1' c'] l2']|]; simpl; [|done].
  intros [= <- <- <-]. destruct (IH l1' eq_refl) as [-> ?]. done.
Qed.

Lemma split_node_in l1 n l2 :
  cnAddr n ∉ cnAddr <$> l1 -> split_node (cnAddr n) (l1 ++ n :: l2) = Some (l1, n, l2).
Proof.
  induction l1 as [|d l1 IH]; simpl; [by rewrite decide_True|].
  rewrite not_elem_of_cons. intros [Hd Hl]. rewrite decide_False by done. by rewrite IH.
Qed.
