(* ===== verification/PtrHash.v ===== *)
(** The table of pointer nodes, src/hylink/src/local_scene/ptr_hash.c: under a key
    a doubly linked list of nodes behind a head node, one per scene, in a hash
    table that frees the list with the key. *)
From stdpp Require Import gmap strings.
From S2P Require Import Prelude Heap CString HashTable SceneData.

Definition set_next (p q : ptr) : L unit :=
  n ← load to_node p; store p (OPtrNode (PtrNode (stCondPtr n) q (pnPrev n))).
Definition set_prev (p q : ptr) : L unit :=
  n ← load to_node p; store p (OPtrNode (PtrNode (stCondPtr n) (pnNext n) q)).

(** What [calloc] gives. *)
Definition ptr_info0 : ptr_info := PtrInfo "" NULL NULL NULL NULL NULL.
Definition ptr_node0 : ptr_node := PtrNode ptr_info0 NULL NULL.

Definition free_hash_value (pHashValue : ptr) : L Z :=
  k ← fuel;
  loop k (fun head =>
    if is_null head then mret (inr NoErr) else
    n ← load to_node head;
    free head ;;
    mret (inl (pnNext n))) pHashValue.

(** The node behind the head. *)
Definition link_after (head pValue : ptr) : L unit :=
  set_prev pValue head ;;
  h ← load to_node head;
  set_next pValue (pnNext h) ;;
  (if is_null (pnNext h) then mret tt else set_prev (pnNext h) pValue) ;;
  set_next head pValue.

Definition unlink_node (node : ptr) : L unit :=
  n ← load to_node node;
  set_next (pnPrev n) (pnNext n) ;;
  (if is_null (pnNext n) then mret tt else set_prev (pnNext n) (pnPrev n)) ;;
  free node.

Section ops.
Context (char_signed : bool).

Definition stHash_find := hash_find (T := obj) (G := env) char_signed.
Definition stHash_inst := hash_inst (T := obj) (G := env) char_signed.
Definition stHash_del := hash_del (T := obj) (G := env) char_signed (Some free_hash_value).

Definition ptr_hash_inst (this : ptr) (pcKey : option string) (pValue : ptr) : L Z :=
  if is_null this || is_null pcKey || is_null pValue then mret ParaErr else
  hashValueList ← stHash_find this pcKey;
  if is_null hashValueList then
    head ← alloc (OPtrNode ptr_node0);
    if is_null head then mret HeapReqErr else
    set_next head pValue ;;
    set_prev pValue head ;;
    _ ← stHash_inst this pcKey head;
    mret NoErr
  else
    link_after hashValueList pValue ;;
    mret NoErr.

Definition ptr_hash_del_all (this : ptr) (pcKey : option string) : L Z :=
  if is_null this || is_null pcKey then mret ParaErr else stHash_del this pcKey.

(** The loop of [ptr_hash_find] and [ptr_hash_del]: the first node of id [paId]. *)
Definition search (hashValueList : ptr) (paId : string) : L ptr :=
  h ← load to_node hashValueList;
  k ← fuel;
  loop k (fun node =>
    if is_null node then mret (inr NULL) else
    n ← load to_node node;
    if strn_eq INDEX_MAX_LEN (piId (stCondPtr n)) paId then mret (inr node)
    else mret (inl (pnNext n))) (pnNext h).

Definition ptr_hash_del (this : ptr) (pcKey : option string) (paId : option string) : L Z :=
  match paId with
  | None => mret ParaErr
  | Some id =>
      if is_null this || is_null pcKey then mret ParaErr else
      hashValueList ← stHash_find this pcKey;
      if is_null hashValueList then mret NoErr else
      node ← search hashValueList id;
      if is_null node then mret NoErr else
      unlink_node node ;;
      h ← load to_node hashValueList;
      (if is_null (pnNext h) then _ ← stHash_del this pcKey; mret tt else mret tt) ;;
      mret NoErr
  end.

Definition ptr_hash_find_all (this : ptr) (pcKey : option string) : L ptr :=
  if is_null this || is_null pcKey then mret NULL else stHash_find this pcKey.

Definition ptr_hash_find (this : ptr) (pcKey : option string) (paId : option string) : L ptr :=
  match paId with
  | None => mret NULL
  | Some id =>
      if is_null this || is_null pcKey then mret NULL else
      hashValueList ← stHash_find this pcKey;
      if is_null hashValueList then mret NULL else search hashValueList id
  end.

Definition new_ptr_hash_table : L ptr :=
  pNew ← alloc (OHash (HashTable 0 false 0 0 []));
  if is_null pNew then mret NULL else
  pstHash ← new_hash_table 0 1;
  if is_null pstHash then free pNew ;; mret NULL else
  h ← HashTable.this_ pstHash;
  HashTable.set_this pNew h ;;
  free pstHash ;;
  mret pNew.

Definition destroy_ptr_hash_table (this : ptr) : L Z :=
  if is_null this then mret ParaErr else destroy_hash_table (Some free_hash_value) this.
End ops.

(** * Chains *)

(** A node's address and what it points to. *)
Abbreviation pnode := (positive * ptr_info)%type.

Definition first_or (ns : list pnode) (q : ptr) : ptr :=
  match ns with [] => q | (a, _) :: _ => Some a end.

(** The nodes [ns], linked in both directions, [pv] before the first and [q]
    after the last. *)
Fixpoint seg (s : mem) (pv : ptr) (ns : list pnode) (q : ptr) : Prop :=
  match ns with
  | [] => True
  | (a, i) :: ns => cells s !! a = Some (OPtrNode (PtrNode i (first_or ns q) pv)) /\ seg s (Some a) ns q
  end.

Fixpoint last_or (ns : list pnode) (p : ptr) : ptr :=
  match ns with [] => p | (a, _) :: ns => last_or ns (Some a) end.

Lemma first_or_app ns1 ns2 q : first_or (ns1 ++ ns2) q = first_or ns1 (first_or ns2 q).
Proof. by destruct ns1 as [|[a i] ns1]. Qed.
Lemma last_or_snoc ns a i p : last_or (ns ++ [(a, i)]) p = Some a.
Proof. revert p. induction ns as [|[b j] ns IH]; intros p; [done|]. apply IH. Qed.

Lemma seg_app s pv ns1 ns2 q :
  seg s pv (ns1 ++ ns2) q <-> seg s pv ns1 (first_or ns2 q) /\ seg s (last_or ns1 pv) ns2 q.
Proof.
  revert pv. induction ns1 as [|[a i] ns1 IH]; intros pv; cbn [app seg].
  - simpl. tauto.
  - rewrite first_or_app, IH. simpl. tauto.
Qed.

Lemma seg_frame s s' pv ns q :
  (forall a, a ∈ ns.*1 -> cells s' !! a = cells s !! a) -> seg s pv ns q -> seg s' pv ns q.
Proof.
  revert pv. induction ns as [|[a i] ns IH]; intros pv Hf; cbn [seg fmap list_fmap fst] in *; [done|].
  intros [Ha Hs]. split; [rewrite Hf by (by left); done|]. apply IH; [|done].
  intros b Hb. apply Hf. by right.
Qed.

Lemma seg_cells s pv ns q a : seg s pv ns q -> a ∈ ns.*1 -> exists n, cells s !! a = Some (OPtrNode n).
Proof.
  revert pv. induction ns as [|[b i] ns IH]; intros pv; cbn [seg fmap list_fmap fst]; [by intros _ []%elem_of_nil|].
  intros [Hb Hs] [->|Ha]%elem_of_cons; [by eexists|]. by eapply IH.
Qed.

(** The node before a chain changes its [next], the node after it its [prev]. *)
Lemma seg_snoc_next s pv ns a i q q' :
  seg s pv (ns ++ [(a, i)]) q -> NoDup (ns ++ [(a, i)]).*1 ->
  seg (upd a (OPtrNode (PtrNode i q' (last_or ns pv))) s) pv (ns ++ [(a, i)]) q'.
Proof.
  rewrite !seg_app. cbn [seg first_or]. rewrite fmap_app. intros [H1 [H2 _]] (_ & Hd & _)%NoDup_app.
  split_and!; [|by simpl; rewrite lookup_insert_eq|done].
  eapply seg_frame; [|exact H1]. intros b Hb. simpl. rewrite lookup_insert_ne; [done|].
  intros <-. by apply (Hd a); [|left].
Qed.

Lemma seg_prev s pv pv' a i ns q :
  seg s pv ((a, i) :: ns) q -> NoDup ((a, i) :: ns).*1 ->
  seg (upd a (OPtrNode (PtrNode i (first_or ns q) pv')) s) pv' ((a, i) :: ns) q.
Proof.
  cbn [seg fmap list_fmap fst]. intros [_ H2] [Ha _]%NoDup_cons.
  split; [by simpl; rewrite lookup_insert_eq|].
  eapply seg_frame; [|exact H2]. intros b Hb. simpl. rewrite lookup_insert_ne; [done|]. by intros <-.
Qed.

(** ** Runs on nodes *)

Lemma wp_set_next s a n q (Q : unit -> mem -> Prop) :
  cells s !! a = Some (OPtrNode n) ->
  Q tt (upd a (OPtrNode (PtrNode (stCondPtr n) q (pnPrev n))) s) -> wp (set_next (Some a) q) s Q.
Proof.
  intros Ha HQ. unfold set_next. wp_step. eapply wp_load; [exact Ha|reflexivity|].
  eapply wp_store; [exact Ha|done].
Qed.
Lemma wp_set_prev s a n q (Q : unit -> mem -> Prop) :
  cells s !! a = Some (OPtrNode n) ->
  Q tt (upd a (OPtrNode (PtrNode (stCondPtr n) (pnNext n) q)) s) -> wp (set_prev (Some a) q) s Q.
Proof.
  intros Ha HQ. unfold set_prev. wp_step. eapply wp_load; [exact Ha|reflexivity|].
  eapply wp_store; [exact Ha|done].
Qed.

Lemma seg_size s pv ns q : seg s pv ns q -> NoDup ns.*1 -> (length ns <= size (cells s))%nat.
Proof.
  intros Hs Hnd. rewrite <- (length_fmap fst). apply NoDup_size; [done|].
  intros a Ha. destruct (seg_cells _ _ _ _ _ Hs Ha) as [n ->]. done.
Qed.

Lemma free_hash_value_spec s pv ns :
  seg s pv ns NULL -> NoDup ns.*1 ->
  wp (free_hash_value (first_or ns NULL)) s (fun r s' =>
    r = NoErr /\ (forall a, cells s' !! a = if decide (a ∈ ns.*1) then None else cells s !! a) /\
    brk s' = brk s /\ oom s' = oom s /\ glob s' = glob s).
Proof.
  intros Hs Hnd. unfold free_hash_value. wp_step. unfold fuel. wp_step.
  apply (wp_loop_n _ (fun n p s' => exists pv ns1 ns2, ns = ns1 ++ ns2 /\ length ns2 = n /\
    p = first_or ns2 NULL /\ seg s' pv ns2 NULL /\
    (forall a, cells s' !! a = if decide (a ∈ ns1.*1) then None else cells s !! a) /\
    brk s' = brk s /\ oom s' = oom s /\ glob s' = glob s)) with (n := length ns).
  - intros n p s1 (pv1 & ns1 & ns2 & -> & <- & -> & Hs1 & Hc & Hb & Ho & Hg).
    destruct ns2 as [|[a i] ns2]; cbn [first_or]; c_red.
    { wp_step. rewrite app_nil_r. by split_and!. }
    cbn [seg] in Hs1. destruct Hs1 as [Ha Hs1]. wp_step. eapply wp_load; [exact Ha|reflexivity|].
    wp_step. eapply wp_free; [exact Ha|]. wp_step. cbn [pnNext].
    exists (length ns2). split; [simpl; lia|].
    exists (Some a), (ns1 ++ [(a, i)]), ns2. rewrite <- app_assoc. split_and!; try done.
    + eapply seg_frame; [|exact Hs1]. intros b Hb'. simpl. rewrite lookup_delete_ne; [done|].
      intros <-. rewrite fmap_app in Hnd. apply NoDup_app in Hnd as (_ & _ & Hnd).
      simpl in Hnd. by apply NoDup_cons in Hnd as [? _].
    + intros b. simpl. rewrite fmap_app. cbn [fmap list_fmap fst]. destruct (decide (b = a)) as [->|Hne].
      * rewrite lookup_delete_eq, decide_True by in_list. done.
      * rewrite lookup_delete_ne, Hc by done. destruct (decide (b ∈ ns1.*1)) as [H|H];
          [rewrite decide_True by in_list; done|]. rewrite decide_False; [done|].
        rewrite elem_of_app, list_elem_of_singleton. tauto.
  - exists pv, [], ns. split_and!; try done.
  - pose proof (seg_size _ _ _ _ Hs Hnd). lia.
Qed.

(** The head [h] and the nodes behind it. *)
Definition chain (s : mem) (h : positive) (ns : list pnode) : Prop :=
  exists hi hp, seg s hp ((h, hi) :: ns) NULL.

Lemma chain_frame s s' h ns :
  (forall a, a ∈ h :: ns.*1 -> cells s' !! a = cells s !! a) -> chain s h ns -> chain s' h ns.
Proof. intros Hf (hi & hp & Hs). exists hi, hp. by eapply seg_frame. Qed.

Lemma chain_cells s h ns a : chain s h ns -> a ∈ h :: ns.*1 -> exists n, cells s !! a = Some (OPtrNode n).
Proof. intros (hi & hp & Hs). apply (seg_cells _ _ _ _ _ Hs). Qed.

Fixpoint find_id (id : string) (ns : list pnode) : option pnode :=
  match ns with
  | [] => None
  | (a, i) :: ns => if strn_eq INDEX_MAX_LEN (piId i) id then Some (a, i) else find_id id ns
  end.

Lemma search_spec s h ns id :
  chain s h ns -> NoDup (h :: ns.*1) ->
  wp (search (Some h) id) s (fun r s' => s' = s /\ r = fst <$> find_id id ns).
Proof.
  intros (hi & hp & Hs) Hnd. pose proof (seg_size _ _ _ _ Hs Hnd) as Hsz.
  cbn [seg] in Hs. destruct Hs as [Hh Hs]. unfold search. wp_step.
  eapply wp_load; [exact Hh|reflexivity|]. wp_step. unfold fuel. wp_step. cbn [pnNext].
  apply (wp_loop_n _ (fun n p s' => s' = s /\ exists pv ns2, length ns2 = n /\
    p = first_or ns2 NULL /\ seg s pv ns2 NULL /\ find_id id ns2 = find_id id ns))
    with (n := length ns); [| |simpl in Hsz; lia].
  - intros n p s1 (-> & pv & ns2 & <- & -> & Hs2 & Hf).
    destruct ns2 as [|[a i] ns2]; cbn [first_or]; c_red.
    { wp_step. by rewrite <- Hf. }
    cbn [seg find_id] in *. destruct Hs2 as [Ha Hs2]. wp_step. eapply wp_load; [exact Ha|reflexivity|].
    cbn [stCondPtr pnNext]. destruct (strn_eq _ _ _); wp_step; [by rewrite <- Hf|].
    exists (length ns2). split; [simpl; lia|]. split; [done|]. by exists (Some a), ns2.
  - split; [done|]. by exists (Some h), ns.
Qed.

Lemma link_after_spec s h ns p i pn pv :
  chain s h ns -> NoDup (h :: ns.*1) -> p ∉ h :: ns.*1 ->
  cells s !! p = Some (OPtrNode (PtrNode i pn pv)) ->
  wp (link_after (Some h) (Some p)) s (fun _ s' =>
    chain s' h ((p, i) :: ns) /\ (forall a, a ∉ h :: p :: ns.*1 -> cells s' !! a = cells s !! a) /\
    brk s' = brk s /\ oom s' = oom s /\ glob s' = glob s).
Proof.
  intros (hi & hp & Hs) Hnd Hp Hcp. cbn [seg] in Hs. destruct Hs as [Hh Hs].
  apply NoDup_cons in Hnd as [Hhn Hnd]. apply not_elem_of_cons in Hp as [Hph Hpn].
  unfold link_after. wp_step. eapply wp_set_prev; [exact Hcp|]. wp_step.
  eapply wp_load; [simpl; rewrite lookup_insert_ne by done; exact Hh|reflexivity|].
  wp_step. eapply wp_set_next; [simpl; by rewrite lookup_insert_eq|]. cbn [stCondPtr pnPrev pnNext].
  wp_step. destruct ns as [|[b j] ns]; cbn [first_or]; c_red.
  - wp_step. eapply wp_set_next; [simpl; rewrite !lookup_insert_ne by done; exact Hh|].
    cbn [stCondPtr pnPrev]. split_and!; try done.
    + exists hi, hp. cbn [seg first_or]. simpl. rewrite lookup_insert_eq, lookup_insert_ne, lookup_insert_eq by done. done.
    + intros a. rewrite !not_elem_of_cons. intros (? & ? & _). simpl. by rewrite !lookup_insert_ne.
  - cbn [seg] in Hs. destruct Hs as [Hb Hs].
    cbn [fmap list_fmap fst] in *. apply not_elem_of_cons in Hpn as [Hpb Hpn].
    apply not_elem_of_cons in Hhn as [Hhb Hhn]. apply NoDup_cons in Hnd as [Hbn Hnd].
    eapply wp_set_prev; [simpl; rewrite !lookup_insert_ne by done; exact Hb|]. cbn [stCondPtr pnNext].
    eapply wp_set_next; [simpl; rewrite !lookup_insert_ne by done; exact Hh|]. cbn [stCondPtr pnPrev].
    split_and!; try done.
    + exists hi, hp. cbn [seg first_or]. simpl.
      rewrite lookup_insert_eq, (lookup_insert_ne _ h p), (lookup_insert_ne _ b p), lookup_insert_eq,
        (lookup_insert_ne _ h b), lookup_insert_eq by done. split_and!; try done.
      eapply seg_frame; [|exact Hs]. intros a Ha. simpl.
      rewrite !lookup_insert_ne; [done|by intros <-..].
    + intros a. rewrite !not_elem_of_cons. intros (? & ? & ? & _). simpl. by rewrite !lookup_insert_ne.
Qed.

(** A node that is not the first one of its segment. *)
Lemma unlink_seg_spec s hp pre p pi a i l2 :
  seg s hp (pre ++ (p, pi) :: (a, i) :: l2) NULL -> NoDup (pre ++ (p, pi) :: (a, i) :: l2).*1 ->
  wp (unlink_node (Some a)) s (fun _ s' =>
    seg s' hp (pre ++ (p, pi) :: l2) NULL /\ cells s' !! a = None /\
    (forall b, b ∉ (pre ++ (p, pi) :: (a, i) :: l2).*1 -> cells s' !! b = cells s !! b) /\
    brk s' = brk s /\ oom s' = oom s /\ glob s' = glob s).
Proof.
  rewrite seg_app. cbn [seg first_or]. intros (Hpre & Hp & Ha & Hl2).
  rewrite fmap_app. cbn [fmap list_fmap fst]. intros Hnd.
  apply NoDup_app in Hnd as (_ & Hd & Hnd). apply NoDup_cons in Hnd as [Hpn Hnd].
  apply NoDup_cons in Hnd as [Han Hnd]. apply not_elem_of_cons in Hpn as [Hpa Hpn].
  unfold unlink_node. wp_step. eapply wp_load; [exact Ha|reflexivity|]. cbn [pnPrev pnNext].
  wp_step. eapply wp_set_next; [exact Hp|]. cbn [stCondPtr pnPrev]. wp_step.
  assert (Hout : forall b, b ∈ pre.*1 -> b <> p /\ b <> a /\ b ∉ l2.*1).
  { intros b Hb. specialize (Hd b Hb). rewrite !not_elem_of_cons in Hd. tauto. }
  destruct l2 as [|[c j] l2]; cbn [first_or]; c_red.
  - wp_step. eapply wp_free; [simpl; rewrite lookup_insert_ne by done; exact Ha|].
    split_and!; try done; [|by simpl; rewrite lookup_delete_eq|].
    + rewrite seg_app. cbn [seg first_or]. split_and!; [|simpl|done].
      * eapply seg_frame; [|exact Hpre]. intros b (? & ? & _)%Hout. simpl.
        by rewrite lookup_delete_ne, lookup_insert_ne.
      * by rewrite lookup_delete_ne, lookup_insert_eq.
    + intros b. rewrite elem_of_app, !elem_of_cons. intros Hb. simpl.
      rewrite lookup_delete_ne, lookup_insert_ne; [done|intros <-; tauto..].
  - cbn [seg fmap list_fmap fst first_or] in *. destruct Hl2 as [Hc Hl2].
    apply not_elem_of_cons in Hpn as [Hpc Hpn]. apply not_elem_of_cons in Han as [Hac Han].
    apply NoDup_cons in Hnd as [Hcn Hnd].
    eapply wp_set_prev; [simpl; rewrite lookup_insert_ne by done; exact Hc|]. cbn [stCondPtr pnNext].
    eapply wp_free; [simpl; rewrite !lookup_insert_ne by done; exact Ha|].
    split_and!; try done; [|by simpl; rewrite lookup_delete_eq|].
    + rewrite seg_app. cbn [seg first_or]. simpl. split_and!.
      * eapply seg_frame; [|exact Hpre]. intros b (? & ? & Hb)%Hout. simpl.
        apply not_elem_of_cons in Hb as [? _]. by rewrite lookup_delete_ne, !lookup_insert_ne.
      * by rewrite lookup_delete_ne, lookup_insert_ne, lookup_insert_eq.
      * by rewrite lookup_delete_ne, lookup_insert_eq.
      * eapply seg_frame; [|exact Hl2]. intros b Hb. simpl.
        rewrite lookup_delete_ne, !lookup_insert_ne; [done|by intros <-..].
    + intros b. rewrite elem_of_app, !elem_of_cons. intros Hb. simpl.
      rewrite lookup_delete_ne, !lookup_insert_ne; [done|intros <-; tauto..].
Qed.

Lemma unlink_node_spec s h l1 a i l2 :
  chain s h (l1 ++ (a, i) :: l2) -> NoDup (h :: (l1 ++ (a, i) :: l2).*1) ->
  wp (unlink_node (Some a)) s (fun _ s' =>
    chain s' h (l1 ++ l2) /\ cells s' !! a = None /\
    (forall b, b ∉ h :: (l1 ++ (a, i) :: l2).*1 -> cells s' !! b = cells s !! b) /\
    brk s' = brk s /\ oom s' = oom s /\ glob s' = glob s).
Proof.
  intros (hi & hp & Hs) Hnd.
  assert (exists pre p pi, (h, hi) :: l1 = pre ++ [(p, pi)]) as (pre & p & pi & Heq).
  { destruct (exists_last (l := (h, hi) :: l1)) as (pre & [p pi] & Heq); [done|]. by exists pre, p, pi. }
  assert (forall l, (h, hi) :: l1 ++ l = pre ++ (p, pi) :: l) as Hl.
  { intros l. by rewrite app_comm_cons, Heq, <- app_assoc. }
  rewrite (Hl ((a, i) :: l2)) in Hs. change (h :: (l1 ++ (a, i) :: l2).*1) with ((h, hi) :: l1 ++ (a, i) :: l2).*1 in *.
  rewrite (Hl ((a, i) :: l2)) in *.
  eapply wp_mono; [by apply unlink_seg_spec|]. intros _ s' (Hs' & Ha & Hf & Hr). split_and!; try done; try tauto.
  exists hi, hp. by rewrite Hl.
Qed.
