(* ===== verification/PtrRefine.v ===== *)
(** The contract of ptr_hash.c: a registry that lists, under each key, the nodes
    registered there, the latest first. *)
From stdpp Require Import gmap strings.
From S2P Require Import Prelude Heap CString HashTable SceneData PtrHash.

(** The value of a key in the hash table: the head of its chain. *)
Definition heads (hds : string -> ptr) : string -> list ptr :=
  fun k => match hds k with Some h => [Some h] | None => [] end.
(** The objects of a key. *)
Definition fp (hds : string -> ptr) (m : string -> list pnode) (k : string) : list positive :=
  option_list (hds k) ++ (m k).*1.
Definition upd_key {A} (m : string -> A) (key : string) (x : A) : string -> A :=
  fun k => if decide (k = key) then x else m k.

Lemma upd_key_eq {A} (m : string -> A) key x : upd_key m key x key = x.
Proof. unfold upd_key. by rewrite decide_True. Qed.
Lemma upd_key_ne {A} (m : string -> A) key x k : k <> key -> upd_key m key x k = m k.
Proof. intros Hk. unfold upd_key. by rewrite decide_False. Qed.

Section registry.
Context (char_signed : bool).
Implicit Types (s : mem) (m : string -> list pnode) (hds : string -> ptr).
Abbreviation is_hash := (is_hash (T := obj) (G := env) char_signed).

(** The table at [this] has, under the keys of [hds], the heads of the chains
    [m]; no object belongs to two chains.  [n]: the number of keys. *)
Record reg s (this : positive) hds m (n : Z) : Prop := {
  rg_hash : is_hash s this (heads hds) n;
  rg_chain : forall k, match hds k with None => m k = [] | Some h => chain s h (m k) end;
  rg_nodup : forall k, NoDup (fp hds m k);
  rg_disj : forall k1 k2 a, a ∈ fp hds m k1 -> a ∈ fp hds m k2 -> k1 = k2
}.

(** The registry between operations: no chain is empty. *)
Definition is_registry s this m n : Prop :=
  exists hds, reg s this hds m n /\ forall k, is_Some (hds k) -> m k <> [].

Lemma is_hash_cell s s' this mm n :
  cells s' !! this = cells s !! this -> is_hash s this mm n -> is_hash s' this mm n.
Proof. intros Hc (h & Hh & H). exists h. split; [|done]. unfold hash_at in *. by rewrite Hc. Qed.

Lemma is_hash_ext s this mm mm' n : (forall k, mm' k = mm k) -> is_hash s this mm n -> is_hash s this mm' n.
Proof. intros He (h & Hh & W & Hn & Hm). exists h. split_and!; try done. intros k. by rewrite He. Qed.

Lemma reg_cells s this hds m n k a :
  reg s this hds m n -> a ∈ fp hds m k -> exists nd, cells s !! a = Some (OPtrNode nd).
Proof.
  intros R Ha. pose proof (rg_chain _ _ _ _ _ R k) as Hc. unfold fp in Ha.
  destruct (hds k) as [h|]; [|by rewrite Hc in Ha; apply elem_of_nil in Ha].
  by eapply chain_cells.
Qed.

Lemma is_hash_obj s this mm n : is_hash s this mm n -> exists h, cells s !! this = Some (OHash h).
Proof.
  intros (h & Hh & _). unfold hash_at in Hh. destruct (cells s !! this) as [o|]; [|done].
  destruct o; try done. by eexists.
Qed.

Lemma reg_this s this hds m n k : reg s this hds m n -> this ∉ fp hds m k.
Proof.
  intros R Ha. destruct (reg_cells _ _ _ _ _ _ _ R Ha) as [nd Hnd].
  destruct (is_hash_obj _ _ _ _ (rg_hash _ _ _ _ _ R)) as [h Hh]. congruence.
Qed.

Lemma reg_frame_hash s s' this hds m n n' :
  reg s this hds m n -> is_hash s' this (heads hds) n' ->
  (forall k a, a ∈ fp hds m k -> cells s' !! a = cells s !! a) -> reg s' this hds m n'.
Proof.
  intros R Hi Hf. split; [done| |apply R|apply R].
  intros k. pose proof (rg_chain _ _ _ _ _ R k) as Hc. specialize (Hf k). unfold fp in Hf.
  destruct (hds k) as [h|]; [|done]. by eapply chain_frame.
Qed.

Lemma reg_frame s s' this hds m n :
  reg s this hds m n -> cells s' !! this = cells s !! this ->
  (forall k a, a ∈ fp hds m k -> cells s' !! a = cells s !! a) -> reg s' this hds m n.
Proof. intros R Ht Hf. eapply reg_frame_hash; [done| |done]. by eapply is_hash_cell, R. Qed.

(** One key's chain changes. *)
Lemma reg_change s s' this hds m n key o l' n' :
  reg s this hds m n ->
  is_hash s' this (heads (upd_key hds key o)) n' ->
  match o with None => l' = [] | Some h => chain s' h l' end ->
  NoDup (option_list o ++ l'.*1) ->
  (forall k a, k <> key -> a ∈ fp hds m k -> a ∉ option_list o ++ l'.*1) ->
  (forall k a, k <> key -> a ∈ fp hds m k -> cells s' !! a = cells s !! a) ->
  reg s' this (upd_key hds key o) (upd_key m key l') n'.
Proof.
  intros R Hh Hc Hnd Hnew Hf.
  assert (Hkey : fp (upd_key hds key o) (upd_key m key l') key = option_list o ++ l'.*1).
  { unfold fp. by rewrite !upd_key_eq. }
  assert (Hne : forall k, k <> key -> fp (upd_key hds key o) (upd_key m key l') k = fp hds m k).
  { intros k Hk. unfold fp. by rewrite !upd_key_ne. }
  split; [done| | |].
  - intros k. destruct (decide (k = key)) as [->|Hk]; [by rewrite !upd_key_eq|].
    rewrite !upd_key_ne by done. pose proof (rg_chain _ _ _ _ _ R k) as Hck.
    specialize (Hf k). unfold fp in Hf. destruct (hds k) as [h|]; [|done].
    eapply chain_frame; [|exact Hck]. intros a Ha. by apply Hf.
  - intros k. destruct (decide (k = key)) as [->|Hk]; [by rewrite Hkey|]. rewrite Hne by done. apply R.
  - intros k1 k2 a H1 H2.
    destruct (decide (k1 = key)) as [->|Hk1], (decide (k2 = key)) as [->|Hk2]; try done.
    + rewrite Hkey in H1. rewrite Hne in H2 by done. by destruct (Hnew k2 a).
    + rewrite Hkey in H2. rewrite Hne in H1 by done. by destruct (Hnew k1 a).
    + rewrite !Hne in * by done. by eapply R.
Qed.

Lemma other_key s this hds m n k key a :
  reg s this hds m n -> k <> key -> a ∈ fp hds m k -> a ∉ fp hds m key.
Proof. intros R Hk Ha Hb. by eapply Hk, (rg_disj _ _ _ _ _ R). Qed.

(** ** Lookups *)

Lemma stHash_find_spec s this hds m n key :
  reg s this hds m n ->
  wp (stHash_find char_signed (Some this) (Some key)) s (fun r s' => r = hds key /\ s' = s).
Proof.
  intros R. eapply wp_mono; [eapply hash_find_spec, R|]. intros r s' [-> ->]. split; [|done].
  unfold heads. by destruct (hds key).
Qed.

Lemma ptr_hash_find_all_spec s this hds m n key :
  reg s this hds m n ->
  wp (ptr_hash_find_all char_signed (Some this) (Some key)) s (fun r s' => r = hds key /\ s' = s).
Proof. intros R. unfold ptr_hash_find_all; c_red. by eapply stHash_find_spec. Qed.

Lemma ptr_hash_find_spec s this hds m n key id :
  reg s this hds m n ->
  wp (ptr_hash_find char_signed (Some this) (Some key) (Some id)) s (fun r s' =>
    r = fst <$> find_id id (m key) /\ s' = s).
Proof.
  intros R. unfold ptr_hash_find; c_red. wp_step. eapply wp_mono; [by eapply stHash_find_spec|].
  intros r s' [-> ->]. pose proof (rg_chain _ _ _ _ _ R key) as Hc. pose proof (rg_nodup _ _ _ _ _ R key) as Hnd.
  unfold fp in Hnd. destruct (hds key) as [h|]; c_red; [|wp_step; by rewrite Hc].
  eapply wp_mono; [by apply search_spec|]. by intros r s' [-> ->].
Qed.

(** ** The deletion of a key *)

Lemma wp_free_chain s o l (Q : unit -> mem -> Prop) :
  match o with None => l = [] | Some h => chain s h l end -> NoDup (option_list o ++ l.*1) ->
  (forall s', (forall a, cells s' !! a = if decide (a ∈ option_list o ++ l.*1) then None else cells s !! a) ->
     brk s' = brk s -> oom s' = oom s -> glob s' = glob s -> Q tt s') ->
  wp (call_free (Some free_hash_value) o) s Q.
Proof.
  intros Hc Hnd HQ. unfold call_free. wp_step. destruct o as [h|].
  - destruct Hc as (hi & hp & Hs). eapply wp_mono; [eapply (free_hash_value_spec _ _ _ Hs Hnd)|].
    intros r s' (_ & Hcells & Hb & Ho & Hg). wp_step. by apply HQ.
  - subst l. eapply wp_mono; [apply (free_hash_value_spec s NULL []); [done|constructor]|].
    intros r s' (_ & Hcells & Hb & Ho & Hg). wp_step. by apply HQ.
Qed.

Lemma stHash_del_spec s this hds m n key :
  reg s this hds m n -> n < 2 ^ 31 ->
  wp (stHash_del char_signed (Some this) (Some key)) s (fun r s' =>
    r = NoErr /\ reg s' this (upd_key hds key NULL) (upd_key m key []) (n - Z.of_nat (length (option_list (hds key)))) /\
    (forall a, a <> this -> cells s' !! a = if decide (a ∈ fp hds m key) then None else cells s !! a) /\
    brk s' = brk s /\ oom s' = oom s /\ glob s' = glob s).
Proof.
  intros R Hn. eapply hash_del_spec; [apply R|done|]. intros s1 (C1 & G1 & B1) Ho1 Hi1.
  assert (default NULL (head (heads hds key)) = hds key) as -> by (unfold heads; by destruct (hds key)).
  assert (length (take 1 (heads hds key)) = length (option_list (hds key))) as Hlen
    by (unfold heads; by destruct (hds key)). rewrite Hlen in Hi1.
  assert (Hthis : forall k, this ∉ fp hds m k) by (intros k; by eapply reg_this).
  eapply wp_free_chain; [|apply (rg_nodup _ _ _ _ _ R key)|].
  { pose proof (rg_chain _ _ _ _ _ R key) as Hc. specialize (Hthis key). unfold fp in Hthis.
    destruct (hds key) as [h|]; [|done]. eapply chain_frame; [|exact Hc].
    intros a Ha. apply C1. intros ->. by apply Hthis. }
  fold (fp hds m key). intros s2 C2 B2 O2 G2. split_and!; [done| | |congruence..].
  - eapply reg_change; [exact R| |done|constructor|intros k a _ _; apply not_elem_of_nil|].
    + eapply is_hash_cell; [|eapply is_hash_ext; [|exact Hi1]].
      * rewrite C2, decide_False by done. done.
      * intros k. unfold heads, mm_del, upd_key. case_decide as Hk; [|done]. subst k. by destruct (hds key).
    + intros k a Hk Ha. rewrite C2, decide_False by (by eapply other_key).
      apply C1. intros ->. by eapply Hthis.
  - intros a Ha. rewrite C2. case_decide; [done|]. by apply C1.
Qed.

(** What the registry's operations keep: everything but its own objects and
    nodes. *)
Definition frame s s' (this : positive) : Prop :=
  glob s' = glob s /\ oom s' ⊆ oom s /\
  forall a o, a <> this -> cells s !! a = Some o -> to_node o = None -> cells s' !! a = Some o.

Lemma frame_refl s this : frame s s this.
Proof. done. Qed.
Lemma frame_trans s1 s2 s3 this : frame s1 s2 this -> frame s2 s3 this -> frame s1 s3 this.
Proof.
  intros (G1 & O1 & F1) (G2 & O2 & F2). split_and!; [congruence|by etrans|]. eauto.
Qed.

Lemma ptr_hash_del_all_spec s this m n key :
  is_registry s this m n -> n < 2 ^ 31 -> heap_wf s ->
  wp (ptr_hash_del_all char_signed (Some this) (Some key)) s (fun r s' =>
    r = NoErr /\ heap_wf s' /\ frame s s' this /\ exists n', n' <= n /\ is_registry s' this (upd_key m key []) n').
Proof.
  intros (hds & R & Hne) Hn Hwf. unfold ptr_hash_del_all; c_red.
  eapply wp_mono; [by eapply stHash_del_spec|]. intros r s' (-> & R' & Hc & Hb & Ho & Hg).
  split_and!; [done| | |].
  - intros a Ha. rewrite Hb in Ha. destruct (decide (a = this)) as [->|Hat].
    + destruct (is_hash_obj _ _ _ _ (rg_hash _ _ _ _ _ R)) as [h Hh].
      rewrite Hwf in Hh by done. done.
    + rewrite Hc by done. case_decide; [done|]. by apply Hwf.
  - split_and!; [done|by rewrite Ho|]. intros a o Hat Ha Ho'. rewrite Hc by done.
    rewrite decide_False; [done|]. intros Hin. destruct (reg_cells _ _ _ _ _ _ _ R Hin) as [nd Hnd].
    rewrite Hnd in Ha. by injection Ha as <-.
  - exists (n - Z.of_nat (length (option_list (hds key)))). split; [lia|].
    exists (upd_key hds key NULL). split; [done|]. intros k. unfold upd_key. case_decide; [by intros []|]. apply Hne.
Qed.

(** ** The deletion of a node *)

Fixpoint del_id (id : string) (ns : list pnode) : list pnode :=
  match ns with
  | [] => []
  | (a, i) :: ns => if strn_eq INDEX_MAX_LEN (piId i) id then ns else (a, i) :: del_id id ns
  end.

Lemma find_del_id id ns :
  match find_id id ns with
  | None => del_id id ns = ns
  | Some (a, i) => exists l1 l2, ns = l1 ++ (a, i) :: l2 /\ del_id id ns = l1 ++ l2
  end.
Proof.
  induction ns as [|[a i] ns IH]; simpl; [done|]. destruct (strn_eq _ _ _).
  { by exists [], ns. }
  destruct (find_id id ns) as [[b j]|]; [|by rewrite IH].
  destruct IH as (l1 & l2 & -> & ->). by exists ((a, i) :: l1), l2.
Qed.

Lemma reg_ext s this hds hds' m m' n :
  (forall k, hds' k = hds k) -> (forall k, m' k = m k) -> reg s this hds m n -> reg s this hds' m' n.
Proof.
  intros Hh Hm R. assert (Hfp : forall k, fp hds' m' k = fp hds m k) by (intros k; unfold fp; by rewrite Hh, Hm).
  split.
  - eapply is_hash_ext; [|apply R]. intros k. unfold heads. by rewrite Hh.
  - intros k. rewrite Hh, Hm. apply R.
  - intros k. rewrite Hfp. apply R.
  - intros k1 k2 a. rewrite !Hfp. apply R.
Qed.

Lemma upd_key_same {A} (m : string -> A) key k : upd_key m key (m key) k = m k.
Proof. unfold upd_key. case_decide; by subst. Qed.
Lemma upd_key_twice {A} (m : string -> A) key x y k : upd_key (upd_key m key x) key y k = upd_key m key y k.
Proof. unfold upd_key. by case_decide. Qed.

Lemma ptr_hash_del_found s this hds m n key h l1 a i l2 id :
  reg s this hds m n -> (forall k, is_Some (hds k) -> m k <> []) -> n < 2 ^ 31 -> hds key = Some h ->
  m key = l1 ++ (a, i) :: l2 -> find_id id (m key) = Some (a, i) ->
  wp (ptr_hash_del char_signed (Some this) (Some key) (Some id)) s (fun r s' =>
    r = NoErr /\ (exists n', n' <= n /\ is_registry s' this (upd_key m key (l1 ++ l2)) n') /\
    cells s' !! a = None /\
    (forall b, b <> this -> b ∉ fp hds m key -> cells s' !! b = cells s !! b) /\
    (forall b, cells s !! b = None -> cells s' !! b = None) /\
    brk s' = brk s /\ oom s' = oom s /\ glob s' = glob s).
Proof.
  intros R Hne Hn Hh Hm Hf. pose proof (rg_chain _ _ _ _ _ R key) as Hc. rewrite Hh in Hc.
  pose proof (rg_nodup _ _ _ _ _ R key) as Hnd. unfold fp in Hnd. rewrite Hh, Hm in Hnd.
  rewrite Hm in Hc. cbn [option_list option_rect app] in Hnd.
  assert (Hfp : fp hds m key = h :: (l1 ++ (a, i) :: l2).*1) by (unfold fp; by rewrite Hh, Hm).
  assert (Hthis : forall k, this ∉ fp hds m k) by (intros k; by eapply reg_this).
  assert (Hnd' : NoDup (h :: (l1 ++ l2).*1) /\ a ∉ h :: (l1 ++ l2).*1).
  { rewrite fmap_app in *. apply (NoDup_middle (h :: l1.*1)) in Hnd as [? ?]. done. }
  destruct Hnd' as [Hnd' Ha'].
  unfold ptr_hash_del; c_red. wp_step. eapply wp_mono; [by eapply stHash_find_spec|].
  intros r s0 [-> ->]. rewrite Hh. c_red. wp_step.
  eapply wp_mono; [apply (search_spec s h (l1 ++ (a, i) :: l2) id Hc Hnd)|].
  intros r s0 [-> ->]. rewrite <- Hm, Hf. cbn [fmap option_fmap option_map fst]. c_red. wp_step.
  eapply wp_mono; [by eapply unlink_node_spec|]. intros _ s1 (Hc1 & Ha1 & Hf1 & Hb1 & Ho1 & Hg1).
  assert (Hthis1 : cells s1 !! this = cells s !! this) by (apply Hf1; rewrite <- Hfp; apply Hthis).
  assert (Hsub : forall b, b ∈ h :: (l1 ++ l2).*1 -> b ∈ fp hds m key).
  { intros b. rewrite Hfp, !fmap_app, fmap_cons, !elem_of_cons, !elem_of_app, elem_of_cons. tauto. }
  assert (R1 : reg s1 this hds (upd_key m key (l1 ++ l2)) n).
  { eapply reg_ext; [|done|eapply (reg_change s s1 this hds m n key (Some h) (l1 ++ l2) n R)].
    - intros k. by rewrite <- Hh, upd_key_same.
    - eapply is_hash_cell; [exact Hthis1|]. eapply is_hash_ext; [|apply R].
      intros k. unfold heads. by rewrite <- Hh, upd_key_same.
    - done.
    - done.
    - intros k b Hk Hb Hin. eapply other_key; [exact R|exact Hk|exact Hb|by apply Hsub].
    - intros k b Hk Hb. apply Hf1. rewrite <- Hfp. by eapply other_key. }
  assert (Hin1 : forall b, b ∉ fp hds m key -> cells s1 !! b = cells s !! b).
  { intros b Hb. apply Hf1. by rewrite <- Hfp. }
  assert (Hnone1 : forall b, cells s !! b = None -> cells s1 !! b = None).
  { intros b Hb. destruct (decide (b ∈ fp hds m key)) as [Hin|Hin]; [|by rewrite Hin1].
    destruct (reg_cells _ _ _ _ _ _ _ R Hin) as [nd Hx]. congruence. }
  destruct Hc1 as (hi & hp & Hs1). cbn [seg] in Hs1. destruct Hs1 as [Hh1 Hs1].
  wp_step. eapply wp_load; [exact Hh1|reflexivity|]. cbn [pnNext].
  destruct (l1 ++ l2) as [|[b j] l'] eqn:Hl; cbn [first_or]; c_red.
  - wp_step. wp_step. eapply wp_mono; [by eapply stHash_del_spec|].
    intros r s2 (_ & R2 & Hc2 & Hb2 & Ho2 & Hg2). wp_steps.
    assert (Hfp2 : fp hds (upd_key m key []) key = [h]) by (unfold fp; by rewrite Hh, upd_key_eq).
    rewrite Hfp2 in Hc2. assert (Hhin : h ∈ fp hds m key) by (rewrite Hfp; by left).
    split_and!; [done| | | | |congruence..].
    + exists (n - Z.of_nat (length (option_list (hds key)))). split; [lia|].
      exists (upd_key hds key NULL). split.
      * eapply reg_ext; [done| |exact R2]. intros k. by rewrite upd_key_twice.
      * intros k. unfold upd_key. case_decide; [by intros []|]. apply Hne.
    + destruct (decide (a = this)) as [->|Hat].
      * exfalso. apply (Hthis key). rewrite Hfp, fmap_app. cbn [fmap list_fmap fst]. in_list.
      * rewrite Hc2 by done. case_decide; [done|]. exact Ha1.
    + intros b Hb Hbin. rewrite Hc2, decide_False by (try done; intros ->%list_elem_of_singleton; done).
      by apply Hin1.
    + intros b Hb. destruct (decide (b = this)) as [->|Hbt].
      * destruct (is_hash_obj _ _ _ _ (rg_hash _ _ _ _ _ R)) as [x Hx]. congruence.
      * rewrite Hc2 by done. case_decide; [done|]. by apply Hnone1.
  - wp_steps. split_and!; [done| |done| |done|congruence..].
    + exists n. split; [lia|]. exists hds. split; [done|]. intros k Hk. unfold upd_key.
      case_decide; [done|by apply Hne].
    + intros c _ Hc0. by apply Hin1.
Qed.

Lemma ptr_hash_del_spec s this m n key id :
  is_registry s this m n -> n < 2 ^ 31 -> heap_wf s ->
  wp (ptr_hash_del char_signed (Some this) (Some key) (Some id)) s (fun r s' =>
    r = NoErr /\ heap_wf s' /\ frame s s' this /\
    ((forall a i, find_id id (m key) = Some (a, i) -> cells s' !! a = None) /\
     (forall b, cells s !! b = None -> cells s' !! b = None)) /\
    exists n', n' <= n /\ is_registry s' this (upd_key m key (del_id id (m key))) n').
Proof.
  intros (hds & R & Hne) Hn Hwf. pose proof (find_del_id id (m key)) as Hfd.
  destruct (find_id id (m key)) as [[a i]|] eqn:Hf.
  - destruct Hfd as (l1 & l2 & Hm & Hd). rewrite Hd.
    pose proof (rg_chain _ _ _ _ _ R key) as Hc. destruct (hds key) as [h|] eqn:Hh.
    2:{ rewrite Hc in Hm. by destruct l1. }
    eapply wp_mono; [by eapply ptr_hash_del_found|].
    intros r s' (-> & Hreg & Ha & Hc' & Hnone & Hb & Ho & Hg). split_and!; [done| | | |done|done].
    + intros b Hb'. rewrite Hb in Hb'. by apply Hnone, Hwf.
    + split_and!; [done|by rewrite Ho|]. intros b o Hb' Ho' Hnode. rewrite Hc'; [done|done|].
      intros Hin. destruct (reg_cells _ _ _ _ _ _ _ R Hin) as [nd Hnd]. rewrite Hnd in Ho'.
      by injection Ho' as <-.
    + by intros b j [= <- <-].
  - rewrite Hfd. unfold ptr_hash_del; c_red. wp_step. eapply wp_mono; [by eapply stHash_find_spec|].
    intros r s0 [-> ->]. assert (Hi : is_registry s this (upd_key m key (m key)) n).
    { exists hds. split; [eapply reg_ext; [done|apply upd_key_same|done]|].
      intros k. rewrite upd_key_same. apply Hne. }
    pose proof (rg_chain _ _ _ _ _ R key) as Hc. pose proof (rg_nodup _ _ _ _ _ R key) as Hnd. unfold fp in Hnd.
    destruct (hds key) as [h|]; c_red.
    + wp_step. eapply wp_mono; [by apply search_spec|]. intros r s0 [-> ->]. rewrite Hf. simpl. c_red.
      wp_steps. split_and!; [done..|]. by exists n.
    + wp_steps. split_and!; [done..|]. by exists n.
Qed.
(** ** Insertion *)

(** A registry and an address that is none of its objects. *)
Definition registry_but s this m n (p : positive) : Prop :=
  exists hds, reg s this hds m n /\ (forall k, is_Some (hds k) -> m k <> []) /\ forall k, p ∉ fp hds m k.

Lemma registry_but_is s this m n p : registry_but s this m n p -> is_registry s this m n.
Proof. intros (hds & R & Hne & _). by exists hds. Qed.

(** Changes that leave the table and the nodes alone. *)
Lemma registry_but_frame s s' this m n p :
  registry_but s this m n p -> cells s' !! this = cells s !! this ->
  (forall a nd, a <> p -> cells s !! a = Some (OPtrNode nd) -> cells s' !! a = cells s !! a) ->
  registry_but s' this m n p.
Proof.
  intros (hds & R & Hne & Hp) Ht Hf. exists hds. split_and!; [|done|done].
  eapply reg_frame; [done|done|]. intros k a Ha.
  destruct (reg_cells _ _ _ _ _ _ _ R Ha) as [nd Hnd]. eapply Hf; [|exact Hnd].
  intros ->. by eapply Hp.
Qed.

Lemma is_registry_frame s s' this m n :
  is_registry s this m n -> cells s' !! this = cells s !! this ->
  (forall a nd, cells s !! a = Some (OPtrNode nd) -> cells s' !! a = cells s !! a) ->
  is_registry s' this m n.
Proof.
  intros (hds & R & Hne) Ht Hf. exists hds. split; [|done].
  eapply reg_frame; [done|done|]. intros k a Ha.
  destruct (reg_cells _ _ _ _ _ _ _ R Ha) as [nd Hnd]. by eapply Hf.
Qed.

Lemma registry_fresh s this m n p :
  is_registry s this m n -> cells s !! p = None -> registry_but s this m n p.
Proof.
  intros (hds & R & Hne) Hp. exists hds. split_and!; [done|done|]. intros k Hin.
  destruct (reg_cells _ _ _ _ _ _ _ R Hin) as [nd Hnd]. congruence.
Qed.

Lemma outside_wf s s' this : outside s s' this -> heap_wf s -> is_Some (cells s !! this) -> heap_wf s'.
Proof.
  intros (C & _ & B) Hwf [o Ho] a Ha. rewrite B in Ha. rewrite C; [by apply Hwf|].
  intros ->. rewrite Hwf in Ho by done. done.
Qed.

(** The insertion under a key that has nodes. *)
Lemma ptr_hash_inst_more s this hds m n key p i pv h :
  reg s this hds m n -> (forall k, is_Some (hds k) -> m k <> []) -> (forall k, p ∉ fp hds m k) ->
  hds key = Some h -> cells s !! p = Some (OPtrNode (PtrNode i NULL pv)) -> heap_wf s ->
  wp (ptr_hash_inst char_signed (Some this) (Some key) (Some p)) s (fun r s' =>
    r = NoErr /\ heap_wf s' /\ frame s s' this /\ is_registry s' this (upd_key m key ((p, i) :: m key)) n).
Proof.
  intros R Hne Hp Hh Hcp Hwf. pose proof (rg_chain _ _ _ _ _ R key) as Hc. rewrite Hh in Hc.
  pose proof (rg_nodup _ _ _ _ _ R key) as Hnd. pose proof (Hp key) as Hpk. unfold fp in Hnd, Hpk.
  rewrite Hh in Hnd, Hpk. cbn [option_list option_rect app] in Hnd, Hpk.
  assert (Hthis : forall k, this ∉ fp hds m k) by (intros k; by eapply reg_this).
  destruct (is_hash_obj _ _ _ _ (rg_hash _ _ _ _ _ R)) as [ht Hht].
  unfold ptr_hash_inst; c_red. wp_step. eapply wp_mono; [by eapply stHash_find_spec|].
  intros r s0 [-> ->]. rewrite Hh. c_red. wp_step.
  eapply wp_mono; [by eapply link_after_spec|]. intros _ s1 (Hc1 & Hf1 & Hb1 & Ho1 & Hg1). wp_steps.
  assert (Hnode : forall a, a ∈ h :: p :: (m key).*1 -> exists nd, cells s !! a = Some (OPtrNode nd)).
  { intros a. rewrite !elem_of_cons. intros [->|[->|Ha]]; [|by eexists|].
    - apply (reg_cells _ _ _ _ _ key _ R). unfold fp. rewrite Hh. by left.
    - apply (reg_cells _ _ _ _ _ key _ R). unfold fp. rewrite Hh. by right. }
  assert (Hkeep : forall a o, cells s !! a = Some o -> to_node o = None -> cells s1 !! a = Some o).
  { intros a o Ha Ho. rewrite Hf1; [done|]. intros [nd Hx]%Hnode. rewrite Ha in Hx. by injection Hx as ->. }
  split_and!; [done| | |].
  - intros a Ha. rewrite Hb1 in Ha. rewrite Hf1; [by apply Hwf|]. intros [nd Hx]%Hnode.
    rewrite Hwf in Hx by done. done.
  - split_and!; [done|by rewrite Ho1|]. intros a o _. apply Hkeep.
  - exists hds. split.
    + eapply (reg_ext s1 this (upd_key hds key (Some h)) hds);
        [intros k; by rewrite <- Hh, upd_key_same|done|].
      eapply (reg_change s s1 this hds m n key (Some h) ((p, i) :: m key) n R);
        [|done| | |].
      * eapply is_hash_cell; [rewrite Hht; by apply Hkeep|]. eapply is_hash_ext; [|apply R].
        intros k. unfold heads. by rewrite <- Hh, upd_key_same.
      * cbn [option_list option_rect app fmap list_fmap fst]. apply NoDup_cons in Hnd as [H1 H2].
        apply not_elem_of_cons in Hpk as [H3 H4].
        apply NoDup_cons. split; [rewrite not_elem_of_cons; done|]. by apply NoDup_cons.
      * intros k a Hk Ha. cbn [option_list option_rect app fmap list_fmap fst].
        pose proof (other_key _ _ _ _ _ _ _ _ R Hk Ha) as Hka. unfold fp in Hka. rewrite Hh in Hka.
        cbn [option_list option_rect app] in Hka. rewrite ?not_elem_of_cons in Hka. rewrite !not_elem_of_cons.
        split_and!; [tauto| |tauto]. intros ->. by eapply Hp.
      * intros k a Hk Ha. apply Hf1.
        pose proof (other_key _ _ _ _ _ _ _ _ R Hk Ha) as Hka. unfold fp in Hka. rewrite Hh in Hka.
        cbn [option_list option_rect app] in Hka. rewrite ?not_elem_of_cons in Hka. rewrite !not_elem_of_cons.
        split_and!; [tauto| |tauto]. intros ->. by eapply Hp.
    + intros k Hk. unfold upd_key. case_decide; [done|by apply Hne].
Qed.
(** The insertion under an absent key: a head is allocated and inserted into the
    hash table; the result of that insertion is dropped. *)
Lemma ptr_hash_inst_first s this hds m n key p i pv :
  reg s this hds m n -> (forall k, is_Some (hds k) -> m k <> []) -> (forall k, p ∉ fp hds m k) ->
  hds key = NULL -> cells s !! p = Some (OPtrNode (PtrNode i NULL pv)) -> heap_wf s ->
  (String.length key < HASH_KEY_MAX_LEN)%nat -> n + 1 < 2 ^ 31 ->
  wp (ptr_hash_inst char_signed (Some this) (Some key) (Some p)) s (fun r s' =>
    heap_wf s' /\ frame s s' this /\
    (r = NoErr /\ is_registry s' this (upd_key m key [(p, i)]) (n + 1) \/
     true ∈ oom s /\ (r = NoErr \/ r = HeapReqErr) /\ is_registry s' this m n)).
Proof.
  intros R Hne Hp Hh Hcp Hwf Hk Hn.
  assert (Hthis : forall k, this ∉ fp hds m k) by (intros k; by eapply reg_this).
  destruct (is_hash_obj _ _ _ _ (rg_hash _ _ _ _ _ R)) as [ht Hht].
  assert (Hpt : p <> this) by (intros ->; congruence).
  pose proof (heap_wf_brk _ _ _ Hwf Hcp) as Hpb. pose proof (heap_wf_brk _ _ _ Hwf Hht) as Htb.
  assert (Hfpb : forall k a, a ∈ fp hds m k -> a <> brk s).
  { intros k a Ha. destruct (reg_cells _ _ _ _ _ _ _ R Ha) as [nd Hx]. by eapply heap_wf_brk. }
  unfold ptr_hash_inst; c_red. wp_step. eapply wp_mono; [by eapply stHash_find_spec|].
  intros r s0 [-> ->]. rewrite Hh. c_red. wp_step. apply wp_alloc.
  { intros o Ho. c_red. wp_step. split_and!; [done|split_and!; [done| |done]|right].
    - rewrite Ho. intros x Hx. by right.
    - split_and!; [rewrite Ho; by left|by right|]. exists hds. split; [|done].
      by eapply reg_frame. }
  intros Hhd. c_red. set (s1 := Heap _ _ _ _). wp_step.
  eapply wp_set_next; [simpl; by rewrite lookup_insert_eq|]. wp_step.
  eapply wp_set_prev; [simpl; rewrite !lookup_insert_ne by done; exact Hcp|].
  cbn [stCondPtr pnNext pnPrev ptr_node0]. set (s2 := upd p _ _).
  assert (Hc2 : forall a, a <> brk s -> a <> p -> cells s2 !! a = cells s !! a).
  { intros a H1 H2. simpl. by rewrite !lookup_insert_ne. }
  assert (Hwf2 : heap_wf s2).
  { apply heap_wf_upd; [apply heap_wf_upd; [by apply heap_wf_alloc|simpl; rewrite lookup_insert_eq; by eexists]|].
    simpl. rewrite !lookup_insert_ne by done. by eexists. }
  assert (Ho2 : oom s2 ⊆ oom s).
  { simpl. destruct (oom s); [done|]. intros x Hx. by right. }
  assert (R2 : reg s2 this hds m n).
  { eapply reg_frame; [done|by apply Hc2|]. intros k a Ha. apply Hc2; [by eapply Hfpb|].
    intros ->. by eapply Hp. }
  wp_step. eapply wp_mono; [eapply hash_inst_spec; [apply R2|done|exact Hk|done]|].
  intros r s3 (O3 & Ho3 & Hr). wp_step. pose proof O3 as (C3 & G3 & B3).
  assert (Hc3 : forall a, a <> this -> a <> brk s -> a <> p -> cells s3 !! a = cells s !! a).
  { intros a H1 H2 H3. rewrite C3 by done. by apply Hc2. }
  assert (Ht2 : cells s2 !! this = Some (OHash ht)) by (by rewrite Hc2).
  split_and!; [eapply outside_wf; [exact O3|done|by eexists]|split_and!|].
  - by rewrite G3.
  - by etrans.
  - intros a o Ha Hao Hno. rewrite Hc3; [done|done|by eapply heap_wf_brk|].
    intros ->. rewrite Hcp in Hao. by injection Hao as <-.
  - assert (Hf3 : forall k a, a ∈ fp hds m k -> cells s3 !! a = cells s !! a).
    { intros k a Ha. apply Hc3; [intros ->; by eapply Hthis|by eapply Hfpb|intros ->; by eapply Hp]. }
    destruct Hr as [[-> Hi3]|(-> & Hi3 & Hoom)].
    + left. split; [done|]. exists (upd_key hds key (Some (brk s))). split.
      * eapply (reg_change s s3 this hds m n); [exact R| | | | |by intros k a _ Ha; eapply Hf3].
        -- eapply is_hash_ext; [|exact Hi3]. intros k. unfold heads, mm_add, upd_key.
           case_decide as Hx; [subst k; by rewrite Hh|by rewrite app_nil_r].
        -- exists ptr_info0, NULL. cbn [seg first_or].
           rewrite !C3 by done. simpl. rewrite lookup_insert_ne, !lookup_insert_eq by done. done.
        -- cbn [option_list option_rect app fmap list_fmap fst]. apply NoDup_cons.
           rewrite list_elem_of_singleton. split; [done|]. apply NoDup_singleton.
        -- intros k a Hkk Ha. cbn [option_list option_rect app fmap list_fmap fst].
           rewrite !not_elem_of_cons. split_and!; [by eapply Hfpb|intros ->; by eapply Hp|apply not_elem_of_nil].
      * intros k Hkk. unfold upd_key in *. case_decide; [done|by apply Hne].
    + right. split_and!; [|by left|].
      * by apply Ho2.
      * exists hds. split; [|done]. eapply (reg_frame_hash s); [exact R|exact Hi3|exact Hf3].
Qed.

(** A node whose id and content is [i], linked nowhere, is registered; only when
    an allocation fails is it not - which the result may not tell. *)
Lemma ptr_hash_inst_spec s this m n key p i pv :
  registry_but s this m n p -> cells s !! p = Some (OPtrNode (PtrNode i NULL pv)) -> heap_wf s ->
  (String.length key < HASH_KEY_MAX_LEN)%nat -> n + 1 < 2 ^ 31 ->
  wp (ptr_hash_inst char_signed (Some this) (Some key) (Some p)) s (fun r s' =>
    heap_wf s' /\ frame s s' this /\
    (r = NoErr /\ (exists n', n' <= n + 1 /\ is_registry s' this (upd_key m key ((p, i) :: m key)) n') \/
     true ∈ oom s /\ (r = NoErr \/ r = HeapReqErr) /\ is_registry s' this m n /\ m key = [])).
Proof.
  intros (hds & R & Hne & Hp) Hcp Hwf Hk Hn. pose proof (rg_chain _ _ _ _ _ R key) as Hc.
  destruct (hds key) as [h|] eqn:Hh.
  - eapply wp_mono; [by eapply ptr_hash_inst_more|]. intros r s' (-> & Hwf' & Hf & Hi).
    split_and!; [done|done|left]. split; [done|]. exists n. split; [lia|done].
  - eapply wp_mono; [by eapply ptr_hash_inst_first|]. intros r s' (Hwf' & Hf & Hr).
    split_and!; [done|done|]. rewrite Hc. destruct Hr as [[-> Hi]|(Ho & Hr & Hi)]; [left|by right].
    split; [done|]. exists (n + 1). split; [lia|done].
Qed.
End registry.
