(* ===== verification/PtrProps.v ===== *)
(** The properties of ptr_hash.c: the refinement of the registry, destruction,
    and the failure that an insertion does not report. *)
From stdpp Require Import gmap strings.
From S2P Require Import Prelude Heap CString HashTable SceneCond SceneData PtrHash PtrRefine.

(** * The abstract registry *)

Inductive reg_op : Type :=
| RInst (key : string) (i : ptr_info)
| RDel (key id : string)
| RDelAll (key : string)
| RFind (key id : string)
| RFindAll (key : string).

Inductive reg_out : Type := RInt (r : Z) | RInfo (i : option ptr_info) | RInfos (l : list ptr_info).

Definition id_is (id : string) (i : ptr_info) : bool := strn_eq INDEX_MAX_LEN (piId i) id.
Fixpoint find_info (id : string) (l : list ptr_info) : option ptr_info :=
  match l with [] => None | i :: l => if id_is id i then Some i else find_info id l end.
Fixpoint del_info (id : string) (l : list ptr_info) : list ptr_info :=
  match l with [] => [] | i :: l => if id_is id i then l else i :: del_info id l end.

(** Under each key what is registered there, the latest first. *)
Abbreviation registry := (string -> list ptr_info).
Definition reg_spec_op (o : reg_op) (m : registry) : reg_out * registry :=
  match o with
  | RInst k i => (RInt NoErr, upd_key m k (i :: m k))
  | RDel k id => (RInt NoErr, upd_key m k (del_info id (m k)))
  | RDelAll k => (RInt NoErr, upd_key m k [])
  | RFind k id => (RInfo (find_info id (m k)), m)
  | RFindAll k => (RInfos (m k), m)
  end.
Fixpoint reg_spec_ops (os : list reg_op) (m : registry) : list reg_out * registry :=
  match os with
  | [] => ([], m)
  | o :: os =>
      let '(r, m) := reg_spec_op o m in let '(rs, m) := reg_spec_ops os m in (r :: rs, m)
  end.

Section exec.
Context (char_signed : bool).

(** The nodes behind a head, as the clients walk over them. *)
Definition infos (head : ptr) : L (list ptr_info) :=
  if is_null head then mret [] else
  h ← load to_node head;
  k ← fuel;
  loop k (fun '(p, acc) =>
    if is_null p then mret (inr acc) else
    n ← load to_node p;
    mret (inl (pnNext n, acc ++ [stCondPtr n]))) (pnNext h, []).

(** An insertion brings a node of its own. *)
Definition reg_exec_op (this : ptr) (o : reg_op) : L reg_out :=
  match o with
  | RInst k i =>
      p ← alloc (OPtrNode (PtrNode i NULL NULL));
      r ← ptr_hash_inst char_signed this (Some k) p; mret (RInt r)
  | RDel k id => r ← ptr_hash_del char_signed this (Some k) (Some id); mret (RInt r)
  | RDelAll k => r ← ptr_hash_del_all char_signed this (Some k); mret (RInt r)
  | RFind k id =>
      p ← ptr_hash_find char_signed this (Some k) (Some id);
      if is_null p then mret (RInfo None)
      else n ← load to_node p; mret (RInfo (Some (stCondPtr n)))
  | RFindAll k =>
      p ← ptr_hash_find_all char_signed this (Some k);
      l ← infos p; mret (RInfos l)
  end.
Fixpoint reg_exec_ops (this : ptr) (os : list reg_op) : L (list reg_out) :=
  match os with
  | [] => mret []
  | o :: os => r ← reg_exec_op this o; rs ← reg_exec_ops this os; mret (r :: rs)
  end.

Definition reg_implements (s : mem) (this : positive) (am : registry) (cnt : Z) : Prop :=
  exists m n, is_registry char_signed s this m n /\ n <= cnt /\ (forall k, am k = (m k).*2) /\
    heap_wf s /\ true ∉ oom s.

Definition key_short (o : reg_op) : Prop :=
  match o with RInst k _ => (String.length k < HASH_KEY_MAX_LEN)%nat | _ => True end.

Lemma find_info_id id ns : find_info id ns.*2 = snd <$> find_id id ns.
Proof. induction ns as [|[a i] ns IH]; simpl; [done|]. unfold id_is. by destruct (strn_eq _ _ _). Qed.
Lemma del_info_id id ns : del_info id ns.*2 = (del_id id ns).*2.
Proof.
  induction ns as [|[a i] ns IH]; simpl; [done|]. unfold id_is.
  destruct (strn_eq _ _ _); [done|]. simpl. f_equal. exact IH.
Qed.
Lemma upd_key_snd m key l (am : registry) :
  (forall k, am k = (m k).*2) -> forall k, upd_key am key l.*2 k = (upd_key m key l k : list pnode).*2.
Proof. intros H k. unfold upd_key. by case_decide. Qed.

Lemma infos_spec s h ns :
  chain s h ns -> NoDup (h :: ns.*1) -> wp (infos (Some h)) s (fun r s' => s' = s /\ r = ns.*2).
Proof.
  intros (hi & hp & Hs) Hnd. pose proof (seg_size _ _ _ _ Hs Hnd) as Hsz.
  cbn [seg] in Hs. destruct Hs as [Hh Hs]. unfold infos; c_red. wp_step.
  eapply wp_load; [exact Hh|reflexivity|]. wp_step. unfold fuel. wp_step. cbn [pnNext].
  apply (wp_loop_n _ (fun n '(p, acc) s' => s' = s /\ exists pv ns2, length ns2 = n /\
    p = first_or ns2 NULL /\ seg s pv ns2 NULL /\ acc ++ ns2.*2 = ns.*2))
    with (n := length ns); [| |simpl in Hsz; lia].
  - intros n [p acc] s1 (-> & pv & ns2 & <- & -> & Hs2 & Hacc).
    destruct ns2 as [|[a i] ns2]; cbn [first_or]; c_red.
    { wp_step. simpl in Hacc. by rewrite app_nil_r in Hacc. }
    cbn [seg] in *. destruct Hs2 as [Ha Hs2]. wp_step. eapply wp_load; [exact Ha|reflexivity|].
    wp_step. exists (length ns2). split; [simpl; lia|]. split; [done|]. exists (Some a), ns2.
    split_and!; [done|done|done|]. rewrite <- app_assoc. exact Hacc.
  - split; [done|]. by exists (Some h), ns.
Qed.

Lemma find_id_in id ns a i : find_id id ns = Some (a, i) -> (a, i) ∈ ns.
Proof.
  pose proof (find_del_id id ns) as Hf. intros Heq. rewrite Heq in Hf.
  destruct Hf as (l1 & l2 & -> & _). in_list.
Qed.

Lemma seg_in s pv ns q a i : seg s pv ns q -> (a, i) ∈ ns ->
  exists nx px, cells s !! a = Some (OPtrNode (PtrNode i nx px)).
Proof.
  revert pv. induction ns as [|[b j] ns IH]; intros pv; cbn [seg]; [by intros _ []%elem_of_nil|].
  intros [Hb Hs] [[= -> ->]|Hin]%elem_of_cons; [by eexists _, _|by eapply IH].
Qed.

(** A registered node's content. *)
Lemma registered_node s this m n k a i :
  is_registry char_signed s this m n -> (a, i) ∈ m k ->
  exists nx px, cells s !! a = Some (OPtrNode (PtrNode i nx px)).
Proof.
  intros (hds & R & _) Hin. pose proof (rg_chain _ _ _ _ _ _ R k) as Hc.
  destruct (hds k) as [h|]; [|by rewrite Hc in Hin; apply elem_of_nil in Hin].
  destruct Hc as (hi & hp & _ & Hs). by eapply seg_in.
Qed.

Lemma reg_exec_op_spec s this am cnt o :
  reg_implements s this am cnt -> key_short o -> cnt + 1 < 2 ^ 31 ->
  wp (reg_exec_op (Some this) o) s (fun r s' =>
    r = (reg_spec_op o am).1 /\ reg_implements s' this (reg_spec_op o am).2 (cnt + 1)).
Proof.
  intros (m & n & Hi & Hn & Ham & Hwf & Hoom) Hk Hlt.
  assert (Hkeep : reg_implements s this am (cnt + 1)).
  { exists m, n. split_and!; try done. lia. }
  assert (Hmk : forall s' m' n' am', frame s s' this -> n' <= cnt + 1 -> heap_wf s' ->
    is_registry char_signed s' this m' n' -> (forall k, am' k = (m' k).*2) -> reg_implements s' this am' (cnt + 1)).
  { intros s' m' n' am' (_ & Ho & _) Hn' Hwf' Hi' Hm'. exists m', n'. split_and!; try done.
    intros Hin. by apply Hoom, Ho. }
  destruct o as [k i|k id|k|k id|k]; cbn [reg_exec_op reg_spec_op fst snd key_short] in *.
  - wp_step. apply wp_alloc; [intros o Ho; destruct Hoom; rewrite Ho; by left|]. intros Hhd.
    assert (Hb : cells s !! brk s = None) by (apply Hwf; lia).
    set (s1 := Heap _ _ _ _). assert (Hb1 : registry_but char_signed s1 this m n (brk s)).
    { destruct (registry_fresh _ _ _ _ _ _ Hi Hb) as (hds & R & Hne & Hp).
      destruct (is_hash_obj _ _ _ _ _ (rg_hash _ _ _ _ _ _ R)) as [ht Hht].
      eapply registry_but_frame; [by exists hds| |].
      - simpl. rewrite lookup_insert_ne; [done|]. intros Heq. congruence.
      - intros a nd Ha _. simpl. by rewrite lookup_insert_ne. }
    assert (Hoom1 : true ∉ oom s1).
    { simpl. intros Hin. apply Hoom. destruct (oom s); [done|by right]. }
    wp_step. eapply wp_mono; [eapply ptr_hash_inst_spec; [exact Hb1|simpl; by rewrite lookup_insert_eq
      |by apply heap_wf_alloc|exact Hk|lia]|].
    intros r s2 (Hwf2 & (G2 & O2 & F2) & Hr). wp_step.
    destruct Hr as [(-> & n' & Hn' & Hi2)|(Hin & _)]; [|done]. split; [done|].
    exists (upd_key m k ((brk s, i) :: m k)), n'. split_and!; [done|lia| |done|].
    + rewrite Ham. by apply (upd_key_snd m k ((brk s, i) :: m k)).
    + intros Hin. by apply Hoom1, O2.
  - wp_step. eapply wp_mono; [eapply ptr_hash_del_spec; [done|lia|done]|].
    intros r s2 (-> & Hwf2 & Hf & _ & n' & Hn' & Hi2). wp_step. split; [done|].
    eapply Hmk; [done| |done|exact Hi2|]; [lia|]. rewrite Ham, del_info_id. by apply upd_key_snd.
  - wp_step. eapply wp_mono; [eapply ptr_hash_del_all_spec; [done|lia|done]|].
    intros r s2 (-> & Hwf2 & Hf & n' & Hn' & Hi2). wp_step. split; [done|].
    eapply Hmk; [done| |done|exact Hi2|]; [lia|]. by apply (upd_key_snd m k []).
  - wp_step. destruct Hi as (hds & R & Hne). eapply wp_mono; [by eapply ptr_hash_find_spec|].
    intros r s' [-> ->]. rewrite Ham, find_info_id.
    destruct (find_id id (m k)) as [[a i]|] eqn:Hf; simpl; c_red; [|by wp_step].
    destruct (registered_node s this m n k a i) as (nx & px & Ha); [by exists hds|by eapply find_id_in|].
    wp_step. eapply wp_load; [exact Ha|reflexivity|]. by wp_step.
  - wp_step. destruct Hi as (hds & R & Hne). eapply wp_mono; [by eapply ptr_hash_find_all_spec|].
    intros r s' [-> ->]. pose proof (rg_chain _ _ _ _ _ _ R k) as Hc.
    pose proof (rg_nodup _ _ _ _ _ _ R k) as Hnd. unfold fp in Hnd. wp_step. rewrite Ham.
    destruct (hds k) as [h|].
    + eapply wp_mono; [by apply infos_spec|]. intros r s' [-> ->]. by wp_step.
    + unfold infos; c_red. wp_steps. by rewrite Hc.
Qed.
End exec.

(** * Destruction *)

Section destroy.
Context (char_signed : bool).
Abbreviation reg := (reg char_signed).

(** The elements of the table name each key once. *)
Definition lists_heads (hds : string -> ptr) (es : list hash_elem) : Prop :=
  NoDup (acKey <$> es) /\ (forall e, e ∈ es -> hds (acKey e) = pValue e /\ is_Some (pValue e)) /\
  forall k, is_Some (hds k) -> k ∈ acKey <$> es.

Lemma of_key_elem e es : e ∈ es -> pValue e ∈ of_key (acKey e) es.
Proof.
  induction es as [|e' es IH]; [by intros []%elem_of_nil|]. simpl.
  intros [->|Hin]%elem_of_cons; [rewrite decide_True by done; by left|].
  case_decide; [right|]; by apply IH.
Qed.

Lemma of_key_NoDup es :
  (forall k, (length (of_key k es) <= 1)%nat) -> NoDup (acKey <$> es).
Proof.
  induction es as [|e es IH]; intros Hl; [constructor|]. cbn [fmap list_fmap].
  apply NoDup_cons. split.
  - intros (e' & He & Hin)%list_elem_of_fmap_1. specialize (Hl (acKey e)). simpl in Hl.
    rewrite decide_True in Hl by done. apply of_key_elem in Hin. rewrite <- He in Hin.
    destruct (of_key (acKey e) es); [by apply elem_of_nil in Hin|]. simpl in Hl. lia.
  - apply IH. intros k. specialize (Hl k). simpl in Hl. case_decide; simpl in Hl; lia.
Qed.

Lemma reg_lists s this hds m n h :
  reg s this hds m n -> hash_at s this = Some h -> lists_heads hds (concat (pstHashTable h)).
Proof.
  intros R Hh. destruct (rg_hash _ _ _ _ _ _ R) as (h' & Hh' & W & _ & Hm).
  rewrite Hh in Hh'. injection Hh' as <-.
  assert (Hof : forall k, of_key k (concat (pstHashTable h)) = heads hds k).
  { intros k. by rewrite (vals_concat char_signed _ _ _ _ k W), Hm. }
  split_and!.
  - apply of_key_NoDup. intros k. rewrite Hof. unfold heads. destruct (hds k); simpl; lia.
  - intros e He%of_key_elem. rewrite Hof in He. unfold heads in He.
    destruct (hds (acKey e)); [|by apply elem_of_nil in He].
    apply list_elem_of_singleton in He. rewrite He. split; [done|by eexists].
  - intros k [x Hx]. assert (Some x ∈ of_key k (concat (pstHashTable h))) as Hin.
    { rewrite Hof. unfold heads. rewrite Hx. by left. }
    apply of_key_in in Hin as (e & He & <- & _). by apply list_elem_of_fmap_2.
Qed.

Lemma lists_heads_perm hds es es' : es ≡ₚ es' -> lists_heads hds es -> lists_heads hds es'.
Proof.
  intros Hp (H1 & H2 & H3). split_and!.
  - by rewrite <- Hp.
  - intros e. rewrite <- Hp. apply H2.
  - intros k. rewrite <- Hp. apply H3.
Qed.

(** The chains of the keys in [es] are freed. *)
Lemma free_chains s0 this hds m n es : forall s,
  reg s0 this hds m n -> NoDup (acKey <$> es) ->
  (forall e, e ∈ es -> hds (acKey e) = pValue e /\ is_Some (pValue e)) ->
  (forall e a, e ∈ es -> a ∈ fp hds m (acKey e) -> cells s !! a = cells s0 !! a) ->
  wp (free_values (Some free_hash_value) (pValue <$> es)) s (fun _ s' =>
    (forall a, (exists e, e ∈ es /\ a ∈ fp hds m (acKey e)) -> cells s' !! a = None) /\
    (forall a, (forall e, e ∈ es -> a ∉ fp hds m (acKey e)) -> cells s' !! a = cells s !! a)).
Proof.
  induction es as [|e es IH]; intros s R Hnd He Hs; cbn [fmap list_fmap free_values].
  { wp_step. split; [|done]. intros a (e & []%elem_of_nil & _). }
  cbn [fmap list_fmap] in Hnd. apply NoDup_cons in Hnd as [Hk Hnd].
  destruct (He e ltac:(by left)) as [Hv _]. wp_step.
  eapply wp_free_chain with (l := m (acKey e)).
  - pose proof (rg_chain _ _ _ _ _ _ R (acKey e)) as Hc. specialize (Hs e). unfold fp in Hs.
    rewrite Hv in Hc, Hs. destruct (pValue e) as [h|]; [|done].
    eapply chain_frame; [|exact Hc]. intros a Ha. apply Hs; [by left|done].
  - pose proof (rg_nodup _ _ _ _ _ _ R (acKey e)) as Hn. unfold fp in Hn. by rewrite Hv in Hn.
  - intros s1 C1 _ _ _. rewrite <- Hv in C1. fold (fp hds m (acKey e)) in C1.
    eapply wp_mono; [apply IH; [done|done|by intros e' Hin; apply He; right|]|].
    + intros e' a Hin Ha. rewrite C1, decide_False; [by eapply Hs; [right|]|].
      intros Ha'. apply Hk. rewrite (rg_disj _ _ _ _ _ _ R _ _ _ Ha' Ha). by apply list_elem_of_fmap_2.
    + intros _ s2 [Hf2 Hc2]. split.
      * intros a (e' & [->|Hin]%elem_of_cons & Ha); [|by apply Hf2; exists e'].
        rewrite Hc2, C1, decide_True; [done|done|]. intros e' Hin Ha'. apply Hk.
        rewrite (rg_disj _ _ _ _ _ _ R _ _ _ Ha Ha'). by apply list_elem_of_fmap_2.
      * intros a Ha. rewrite Hc2, C1, decide_False; [done| |]; [apply Ha; by left|].
        intros e' Hin. apply Ha. by right.
Qed.

(** The table's objects: itself, the heads and the nodes. *)
Lemma clear_chains s this hds m n :
  reg s this hds m n ->
  wp (hash_clear (Some free_hash_value) (Some this)) s (fun _ s' =>
    is_Some (cells s' !! this) /\
    (forall k a, a ∈ fp hds m k -> cells s' !! a = None) /\
    (forall a, a <> this -> (forall k, a ∉ fp hds m k) -> cells s' !! a = cells s !! a)).
Proof.
  intros R. assert (Hthis : forall k, this ∉ fp hds m k) by (intros k; by eapply reg_this).
  eapply wp_mono; [eapply (hash_clear_spec char_signed s this _ n (Some free_hash_value) (fun s' =>
    (forall k a, a ∈ fp hds m k -> cells s' !! a = None) /\
    (forall a, (forall k, a ∉ fp hds m k) -> cells s' !! a = cells s !! a))); [apply R|]|].
  - intros h vs Hh Hvs. pose proof (reg_lists _ _ _ _ _ _ R Hh) as Hl.
    apply Permutation_map_inv in Hvs as (es & -> & Hes).
    apply (lists_heads_perm _ _ _ Hes) in Hl as (Hnd & He & Hall).
    eapply wp_mono; [apply (free_chains s this hds m n es s); auto|].
    intros _ s1 [Hf Hc].
    assert (Hother : forall a, (forall k, a ∉ fp hds m k) -> cells s1 !! a = cells s !! a).
    { intros a Ha. apply Hc. intros e _. apply Ha. }
    split_and!; [|intros k a Ha|done].
    + unfold hash_at. by rewrite Hother.
    + apply Hf. assert (is_Some (hds k)) as Hk.
      { pose proof (rg_chain _ _ _ _ _ _ R k) as Hck. unfold fp in Ha.
        destruct (hds k); [by eexists|]. rewrite Hck in Ha. by apply elem_of_nil in Ha. }
      apply Hall, list_elem_of_fmap_1 in Hk as (e & -> & Hin). by exists e.
  - intros r s2 (_ & Hi2 & s1 & [Hf Hc] & (C & _ & _)). split_and!.
    + destruct (is_hash_obj _ _ _ _ _ Hi2) as [h ->]. by eexists.
    + intros k a Ha. rewrite C; [by eapply Hf|]. intros ->. by eapply Hthis.
    + intros a Ha Hk. rewrite C by done. by apply Hc.
Qed.

(** The destructor frees the table, every head and every registered node,
    once each, and touches nothing else. *)
Theorem ptr_hash_destroy_frees_all s this hds m n :
  reg s this hds m n -> n < 2 ^ 31 ->
  wp (destroy_ptr_hash_table (Some this)) s (fun r s' =>
    r = NoErr /\ cells s' !! this = None /\
    (forall k a, a ∈ fp hds m k -> cells s' !! a = None) /\
    (forall a, a <> this -> (forall k, a ∉ fp hds m k) -> cells s' !! a = cells s !! a)).
Proof.
  intros R Hn. unfold destroy_ptr_hash_table, destroy_hash_table; c_red.
  wp_step. eapply wp_mono; [eapply hash_size_spec; [apply R|done]|]. intros r s0 [-> ->].
  assert (Hthis : forall k, this ∉ fp hds m k) by (intros k; by eapply reg_this).
  assert (Hlast : forall s1 : mem, is_Some (cells s1 !! this) ->
    (forall k a, a ∈ fp hds m k -> cells s1 !! a = None) ->
    (forall a, a <> this -> (forall k, a ∉ fp hds m k) -> cells s1 !! a = cells s !! a) ->
    wp (free (Some this) ;; mret NoErr) s1 (fun r s' => r = NoErr /\ cells s' !! this = None /\
      (forall k a, a ∈ fp hds m k -> cells s' !! a = None) /\
      (forall a, a <> this -> (forall k, a ∉ fp hds m k) -> cells s' !! a = cells s !! a))).
  { intros s1 [o Ho] Hf Hc. wp_step. eapply wp_free; [exact Ho|]. wp_step. split_and!; [done|..].
    - simpl. by rewrite lookup_delete_eq.
    - intros k a Ha. simpl. apply lookup_delete_None. right. by eapply Hf.
    - intros a Ha Hk. simpl. rewrite lookup_delete_ne by done. by apply Hc. }
  wp_step. unfold truth. destruct (Z.eqb_spec n 0) as [->|Hn0]; cbn [negb].
  - wp_step. apply Hlast; [|intros k a Ha|done].
    + destruct (is_hash_obj _ _ _ _ _ (rg_hash _ _ _ _ _ _ R)) as [h ->]. by eexists.
    + exfalso. destruct (rg_hash _ _ _ _ _ _ R) as (h & Hh & W & Hz & Hm).
      destruct (reg_lists _ _ _ _ _ _ R Hh) as (_ & _ & Hall). rewrite n_elems_concat in Hz.
      destruct (concat (pstHashTable h)) as [|e es]; [|simpl in Hz; lia].
      pose proof (rg_chain _ _ _ _ _ _ R k) as Hck. unfold fp in Ha.
      destruct (hds k) as [x|] eqn:Hx; [|rewrite Hck in Ha; by apply elem_of_nil in Ha].
      specialize (Hall k ltac:(rewrite Hx; by eexists)). by apply elem_of_nil in Hall.
  - eapply wp_mono; [by eapply clear_chains|]. intros _ s1 (Ho & Hf & Hc). by apply Hlast.
Qed.
End destroy.

(** * Properties *)

Section properties.
Context (char_signed : bool).

(** C37: sequences of insertions, deletions and lookups implement the registry:
    under a key the nodes appear latest first, a deletion removes the latest node
    of the id, lookups return the node's content, and no run faults, whatever the
    load of the hash table underneath. *)
Theorem ptr_hash_refines_registry os s this am cnt :
  reg_implements char_signed s this am cnt -> Forall key_short os ->
  cnt + Z.of_nat (length os) < 2 ^ 31 ->
  wp (reg_exec_ops char_signed (Some this) os) s (fun rs s' =>
    rs = (reg_spec_ops os am).1 /\
    reg_implements char_signed s' this (reg_spec_ops os am).2 (cnt + Z.of_nat (length os))).
Proof.
  revert s am cnt. induction os as [|o os IH]; intros s am cnt Hi Hk Hn; cbn [reg_exec_ops reg_spec_ops].
  { wp_step. by rewrite Z.add_0_r. }
  inversion Hk as [|? ? Ho Hos]; subst. cbn [length] in *. wp_step.
  eapply wp_mono; [eapply reg_exec_op_spec; [done|done|lia]|]. intros r s1 [-> Hi1].
  destruct (reg_spec_op o am) as [r am1]. cbn [fst snd] in *. wp_step.
  eapply wp_mono; [apply IH; [exact Hi1|done|lia]|]. intros rs s2 [-> Hi2].
  destruct (reg_spec_ops os am1) as [rs am2]. wp_step. split; [done|].
  replace (cnt + Z.of_nat (S (length os))) with (cnt + 1 + Z.of_nat (length os)) by lia. done.
Qed.

(** When the head of a new key is allocated but the hash table cannot take
    it, the insertion returns NoErr all the same: the node is not registered, and
    the head is lost. *)
Theorem ptr_hash_inst_failure_is_silent s this m n p i pv key h b o id :
  registry_but char_signed s this m n p -> heap_wf s ->
  cells s !! p = Some (OPtrNode (PtrNode i NULL pv)) -> m key = [] ->
  cells s !! this = Some (OHash h) -> ucDilatationEnable h && (threshold (uiHashTableSize h) <? uiConflict h) = false ->
  pstHashTable h !! Z.to_nat (hash char_signed key (uiHashTableSize h)) = Some b -> b <> [] ->
  oom s = false :: true :: o ->
  wp (ptr_hash_inst char_signed (Some this) (Some key) (Some p)) s (fun r s' =>
    r = NoErr /\ is_registry char_signed s' this m n /\
    cells s' !! brk s = Some (OPtrNode (PtrNode ptr_info0 (Some p) NULL)) /\
    ptr_hash_find char_signed (Some this) (Some key) (Some id) s' = Val (NULL, s')).
Proof.
  intros (hds & R & Hne & Hp) Hwf Hcp Hm Hh Hg Hb Hbn Ho.
  pose proof (rg_chain _ _ _ _ _ _ R key) as Hc. destruct (hds key) as [hd|] eqn:Hhd.
  { by destruct (Hne key ltac:(rewrite Hhd; by eexists)). }
  pose proof (heap_wf_brk _ _ _ Hwf Hcp) as Hpb. pose proof (heap_wf_brk _ _ _ Hwf Hh) as Htb.
  assert (Hpt : p <> this) by (intros ->; congruence).
  unfold ptr_hash_inst; c_red. wp_step. eapply wp_mono; [by eapply stHash_find_spec|].
  intros r s0 [-> ->]. rewrite Hhd. c_red. wp_step. apply wp_alloc; [intros o' Ho'; by rewrite Ho in Ho'|].
  intros _. c_red. rewrite Ho. cbn [tl]. set (s1 := Heap _ _ _ _). wp_step.
  eapply wp_set_next; [simpl; by rewrite lookup_insert_eq|]. wp_step.
  eapply wp_set_prev; [simpl; rewrite !lookup_insert_ne by done; exact Hcp|].
  cbn [stCondPtr pnNext pnPrev ptr_node0]. set (s2 := upd p _ _).
  assert (Hh2 : hash_at s2 this = Some h).
  { unfold hash_at. simpl. rewrite !lookup_insert_ne by done. by rewrite Hh. }
  wp_step. unfold stHash_inst, hash_inst; c_red. wp_step. eapply wp_htable; [exact Hh2|]. cbv beta.
  rewrite Hg. wp_steps. c_red. wp_step. eapply wp_htable; [exact Hh2|]. unfold hash_put. cbv beta.
  wp_step. wp_step. eapply wp_get_or; [exact Hb|]. destruct b as [|e b]; [done|]. cbv beta zeta.
  wp_step. apply wp_reserve. intros ok ->. cbn [oom s2 upd with_cells s1 hd negb]. wp_steps.
  set (s3 := Heap _ _ _ _).
  assert (Hc3 : forall a, a <> brk s -> a <> p -> cells s3 !! a = cells s !! a).
  { intros a H1 H2. simpl. by rewrite !lookup_insert_ne. }
  assert (R3 : reg char_signed s3 this hds m n).
  { eapply reg_frame; [done|by apply Hc3|]. intros k a Ha. apply Hc3; [|intros ->; by eapply Hp].
    destruct (reg_cells _ _ _ _ _ _ _ _ R Ha) as [nd Hx]. by eapply heap_wf_brk. }
  split_and!; [done|by exists hds| |].
  - simpl. rewrite lookup_insert_ne, !lookup_insert_eq by done. done.
  - pose proof (ptr_hash_find_spec char_signed s3 this hds m n key id R3) as (r & s4 & Hf & -> & ->)%wp_run.
    by rewrite Hf, Hm.
Qed.
End properties.

(** * Construction *)

Lemma new_ptr_hash_table_spec char_signed s :
  heap_wf s -> true ∉ oom s ->
  wp new_ptr_hash_table s (fun r s' => exists this, r = Some this /\ cells s !! this = None /\
    reg_implements char_signed s' this (fun _ => []) 0 /\
    forall a, a <> this -> cells s' !! a = cells s !! a).
Proof.
  intros Hwf Ho. pose proof (Hwf (brk s) ltac:(lia)) as Hb. unfold new_ptr_hash_table. wp_step.
  apply wp_alloc; [intros o Hoo; destruct Ho; rewrite Hoo; by left|]. intros _. c_red.
  set (s1 := Heap _ _ _ _). assert (Hwf1 : heap_wf s1) by (by apply heap_wf_alloc).
  assert (Ho1 : oom s1 ⊆ oom s).
  { simpl. destruct (oom s); [done|]. intros x Hx. by right. }
  wp_step. eapply wp_mono; [by apply (new_hash_table_spec (T := obj) char_signed)|].
  intros r s2 (Hwf2 & Hg2 & Ho2 & [(_ & _ & Hin)|(-> & Hi2 & C2)]); [by destruct Ho; apply Ho1|]. c_red.
  destruct Hi2 as (h & Hh & Hrest). pose proof Hh as Hh'. unfold hash_at in Hh'.
  wp_step. eapply wp_htable; [exact Hh|]. assert (Hne : brk s <> brk s1) by (simpl; lia).
  assert (Hs2 : hash_at s2 (brk s) = Some (HashTable 0 false 0 0 [])).
  { unfold hash_at. rewrite C2 by done. simpl. by rewrite lookup_insert_eq. }
  wp_step. eapply wp_set_htable; [exact Hs2|]. intros s3 Hh3 (C3 & G3 & B3) Ho3.
  destruct (cells s2 !! brk s1) as [ob|] eqn:Hob; [|done].
  wp_step. eapply wp_free; [rewrite C3 by done; exact Hob|]. wp_step. exists (brk s).
  assert (Hnone : forall a, a <> brk s -> cells (del (brk s1) s3) !! a = cells s !! a).
  { intros a Ha. simpl. destruct (decide (a = brk s1)) as [->|Hab].
    - rewrite lookup_delete_eq. symmetry. apply Hwf. simpl. lia.
    - rewrite lookup_delete_ne, C3, C2 by done. simpl. by rewrite lookup_insert_ne. }
  split_and!; [done|done| |done]. exists (fun _ => []), 0. split_and!; [|done|done| |].
  - exists (fun _ => NULL). split; [|by intros k []]. split; [|done|constructor|by intros k1 k2 a []%elem_of_nil].
    exists h. split; [|exact Hrest]. unfold hash_at in *. simpl. by rewrite lookup_delete_ne.
  - intros a Ha. simpl in Ha. rewrite B3 in Ha. simpl. apply lookup_delete_None. right.
    rewrite C3; [by apply Hwf2|]. intros ->. unfold hash_at in Hs2. by rewrite Hwf2 in Hs2.
  - simpl. rewrite Ho3. intros Hin. by apply Ho, Ho1, Ho2.
Qed.

(** ** Witnesses *)

Definition reg_env : env := Env [] (Tm 1 9 0) 0 [] [] sync_unused acts0.
Definition reg_table (bs : list bucket) (used conflict : Z) : obj := OHash (HashTable 53 true used conflict bs).
Definition info_of (id : string) : ptr_info := PtrInfo id NULL NULL NULL NULL NULL.

Definition reg_empty : mem := Heap {[1%positive := reg_table (replicate 53 []) 0 0]} 2 [] reg_env.

Lemma reg_empty_implements : reg_implements true reg_empty 1 (fun _ => []) 0.
Proof.
  exists (fun _ => []), 0. split_and!; [|done|done| |by intros []%elem_of_nil].
  - exists (fun _ => NULL). split; [|by intros k []]. split; [|done|constructor|by intros k1 k2 a []%elem_of_nil].
    destruct (empty_table true 53 ltac:(lia)) as (W & He & Hv).
    eexists. split_and!; [reflexivity|exact W|exact He|]. intros k. by rewrite Hv.
  - intros a Ha. simpl in Ha. simpl. apply lookup_singleton_ne. lia.
Qed.

Definition reg_demo : list reg_op :=
  [RInst "d1Switchcond" (info_of "scene1"); RInst "d1Switchcond" (info_of "scene2");
   RFind "d1Switchcond" "scene1"; RDel "d1Switchcond" "scene2"; RFindAll "d1Switchcond";
   RDel "d1Switchcond" "scene1"; RFindAll "d1Switchcond"].

Lemma ptr_hash_refines_registry_witness :
  wp (reg_exec_ops true (Some 1%positive) reg_demo) reg_empty (fun rs s' =>
    rs = [RInt 0; RInt 0; RInfo (Some (info_of "scene1")); RInt 0; RInfos [info_of "scene1"]; RInt 0; RInfos []] /\
    reg_implements true s' 1 (reg_spec_ops reg_demo (fun _ => [])).2 (0 + 7)).
Proof.
  apply (ptr_hash_refines_registry true reg_demo reg_empty 1 (fun _ => []) 0).
  - exact reg_empty_implements.
  - repeat constructor; cbn [key_short]; vm_compute; lia.
  - vm_compute. reflexivity.
Defined.

(** One key with one node. *)
Definition key1 : string := "d1Switchcond".
Definition slot1 : nat := Z.to_nat (hash true key1 53).
Definition reg_one (o : list bool) : mem :=
  Heap (<[1%positive := reg_table (<[slot1 := [HashElem key1 (Some 2%positive)]]> (replicate 53 [])) 1 0]>
       (<[2%positive := OPtrNode (PtrNode ptr_info0 (Some 3%positive) NULL)]>
       (<[3%positive := OPtrNode (PtrNode (info_of "scene1") NULL (Some 2%positive))]>
       (<[4%positive := OPtrNode (PtrNode (info_of "scene2") NULL NULL)]> ∅)))) 5 o reg_env.
Definition hds_one : string -> ptr := upd_key (fun _ => NULL) key1 (Some 2%positive).
Definition m_one : string -> list pnode := upd_key (fun _ => []) key1 [(3%positive, info_of "scene1")].

(** A table with the chain [ns] under one key. *)
Definition one_bucket (key : string) (h : positive) : list bucket :=
  <[Z.to_nat (hash true key 53) := [HashElem key (Some h)]]> (replicate 53 []).
Definition one_head (key : string) (h : positive) : string -> ptr := upd_key (fun _ => NULL) key (Some h).
Definition one_chain (key : string) (ns : list pnode) : string -> list pnode := upd_key (fun _ => []) key ns.

Lemma one_key_reg s tbl key h ns :
  (String.length key < HASH_KEY_MAX_LEN)%nat -> replicate 53 (@nil hash_elem) !! Z.to_nat (hash true key 53) = Some [] ->
  cells s !! tbl = Some (reg_table (one_bucket key h) 1 0) -> chain s h ns -> NoDup (h :: ns.*1) ->
  reg true s tbl (one_head key h) (one_chain key ns) 1.
Proof.
  intros Hk Hs Ht Hc Hnd.
  assert (Hfp : forall k, fp (one_head key h) (one_chain key ns) k = if decide (k = key) then h :: ns.*1 else []).
  { intros k. unfold fp, one_head, one_chain, upd_key. by case_decide. }
  destruct (empty_table true 53 ltac:(lia)) as (W & He & Hv).
  destruct (table_wf_put true _ _ _ _ key (Some h) [] W Hk Hs) as (W' & Hu & He' & Hv').
  split.
  - eexists. split_and!; [unfold hash_at; rewrite Ht; reflexivity|eapply table_wf_eq; [exact W'|exact Hu|rewrite He', He, Hu; reflexivity]
      |cbn [app] in He'; etransitivity; [exact He'|]; rewrite He; lia|].
    intros k. cbn [pstHashTable uiHashTableSize]. unfold one_bucket. rewrite Hv', Hv.
    unfold heads, one_head, upd_key. by case_decide.
  - intros k. unfold one_head, one_chain, upd_key. by case_decide.
  - intros k. rewrite Hfp. case_decide; [done|constructor].
  - intros k1 k2 a. rewrite !Hfp. repeat case_decide; subst; [done|by intros _ []%elem_of_nil|by intros []%elem_of_nil|by intros []%elem_of_nil].
Qed.

Lemma reg_one_reg o : reg true (reg_one o) 1 hds_one m_one 1.
Proof.
  apply (one_key_reg (reg_one o) 1 key1 2 [(3%positive, info_of "scene1")]).
  - vm_compute. lia.
  - vm_compute. reflexivity.
  - reflexivity.
  - exists ptr_info0, NULL. split; [reflexivity|]. cbn [seg]. split; [reflexivity|exact I].
  - repeat constructor; set_solver.
Qed.

Lemma ptr_hash_destroy_frees_all_witness :
  1 < 2 ^ 31 /\ wp (destroy_ptr_hash_table (Some 1%positive)) (reg_one []) (fun r s' =>
    r = NoErr /\ cells s' !! 1%positive = None /\
    (forall k a, a ∈ fp hds_one m_one k -> cells s' !! a = None) /\
    (forall a, a <> 1%positive -> (forall k, a ∉ fp hds_one m_one k) -> cells s' !! a = cells (reg_one []) !! a)).
Proof.
  split; [lia|]. apply (ptr_hash_destroy_frees_all true (reg_one []) 1 hds_one m_one 1);
    [apply reg_one_reg|lia].
Defined.

Lemma reg_one_but o : registry_but true (reg_one o) 1 m_one 1 4.
Proof.
  exists hds_one. split_and!; [apply reg_one_reg| |].
  - intros k. unfold hds_one, m_one, upd_key. case_decide; [done|by intros []].
  - intros k. unfold fp, hds_one, m_one, upd_key. case_decide; set_solver.
Qed.

(** A key in the slot of [key1]. *)
Definition key2 : string := "d22Switchcond".

Lemma ptr_hash_inst_failure_is_silent_witness :
  wp (ptr_hash_inst true (Some 1%positive) (Some key2) (Some 4%positive)) (reg_one [false; true]) (fun r s' =>
    r = NoErr /\ is_registry true s' 1 m_one 1 /\
    cells s' !! 5%positive = Some (OPtrNode (PtrNode ptr_info0 (Some 4%positive) NULL)) /\
    ptr_hash_find true (Some 1%positive) (Some key2) (Some "scene2"%string) s' = Val (NULL, s')).
Proof.
  apply (ptr_hash_inst_failure_is_silent true (reg_one [false; true]) 1 m_one 1 4 (info_of "scene2") NULL key2
    (HashTable 53 true 1 0 (<[slot1 := [HashElem key1 (Some 2%positive)]]> (replicate 53 [])))
    [HashElem key1 (Some 2%positive)] [] "scene2"%string).
  - apply reg_one_but.
  - intros a Ha. change (5 <= a)%positive in Ha. unfold reg_one. cbn [cells].
    rewrite !lookup_insert_ne by lia. apply lookup_empty.
  - vm_compute. reflexivity.
  - unfold m_one, upd_key. rewrite decide_False; [reflexivity|]. intros H. vm_compute in H. discriminate H.
  - vm_compute. reflexivity.
  - vm_compute. reflexivity.
  - vm_compute. reflexivity.
  - discriminate.
  - vm_compute. reflexivity.
Defined.
