(* ===== verification/ActionList.v ===== *)
(** The actions of a scene, src/hylink/src/local_scene/action_list.c: the list
    kept for each scene and what executing an action does.  The nodes of the
    linked list are used through its contract (ListRefine.v): the sequence of
    its nodes.  SQL requests appear as their outcome. *)
From stdpp Require Import gmap strings pretty.
From S2P Require Import Prelude Heap CString Base64 HashTable SceneTimer SceneCond SceneSync SceneData.

Definition ACTION_ID_MAX_LEN : nat := 128.
Definition VALUE_CODING_MAX_LEN : nat := 32.
Definition VALUE_MAX_LEN : nat := 128.
Definition TYPE_MAX_LEN : nat := 16.
Definition ACTION_MAX_NUM : nat := 128.
Definition ACTION_CALLBACK_LIST_MAX_NUM : nat := 64.

Definition this_ (p : ptr) : L action_list := load to_actions p.
Definition set_this (p : ptr) (l : action_list) : L unit := store p (OActions l).
Definition set_actions (xs : list (positive * action_info)) (l : action_list) : action_list :=
  ActionList xs (alId l) (alInitFlag l).
Definition set_flag (f : Z) (l : action_list) : action_list := ActionList (actions l) (alId l) f.

(** [action_compare(...) == 0] *)
Definition same_action (p1 p2 : action_info) : bool :=
  strn_eq ACTION_ID_MAX_LEN (acActionId p1) (acActionId p2) && strcase_eq (atDevId p1) (atDevId p2) &&
  strn_eq KEY_MAX_LEN (atKey p1) (atKey p2).

(** * The database requests *)

Definition request (this : ptr) (err : Z) : L Z :=
  l ← this_ this;
  if 1 =? alInitFlag l then mret NoErr else
  iRet ← db_request;
  if negb (iRet =? NoErr) then mret err else mret NoErr.
Definition action_list_add_db (this : ptr) : L Z := request this SceneAddErr.
Definition action_list_del_db (this : ptr) : L Z := request this SceneDelErr.
Definition action_list_set_db (this : ptr) : L Z := request this SceneAddErr.

(** The rows of the list's id, or the failure of [db_get]; [None]: no memory. *)
Definition row_info (r : action_info) : action_info :=
  ActionInfo (str_take ACTION_ID_MAX_LEN (acActionId r)) (str_take DEV_ID_MAX_LEN (atDevId r))
    (str_take KEY_MAX_LEN (atKey r)) (str_take VALUE_CODING_MAX_LEN (acValueCoding r))
    (str_take VALUE_MAX_LEN (atValue r)) "".
Definition action_list_get_list_db (rows : option (list action_info)) (iInfoMax : nat)
    : L (option (list action_info)) :=
  ok ← reserve;
  if negb ok then mret None else
  match rows with
  | None => mret (Some [])
  | Some rows => mret (Some (row_info <$> take iInfoMax
      (filter (fun r => acActionId r <> "") (take ACTION_MAX_NUM rows))))
  end.

(** * Nodes *)

(** The first action that compares equal, with what is before and after it. *)
Fixpoint split_action (k : action_info) (xs : list (positive * action_info))
    : option (list (positive * action_info) * positive * action_info * list (positive * action_info)) :=
  match xs with
  | [] => None
  | (a, i) :: xs =>
      if same_action i k then Some ([], a, i, xs)
      else '(l1, b, j, l2) ← split_action k xs; Some ((a, i) :: l1, b, j, l2)
  end.
Fixpoint split_at (p : positive) (xs : list (positive * action_info))
    : option (list (positive * action_info) * action_info * list (positive * action_info)) :=
  match xs with
  | [] => None
  | (a, i) :: xs =>
      if decide (a = p) then Some ([], i, xs)
      else '(l1, j, l2) ← split_at p xs; Some ((a, i) :: l1, j, l2)
  end.

(** The node made for the search; without memory for it nothing is found. *)
Definition search_node (this : ptr) (k : action_info)
    : L (option (list (positive * action_info) * positive * action_info * list (positive * action_info))) :=
  l ← this_ this;
  ok ← reserve;
  mret (if negb ok then None else split_action k (actions l)).

(** The members of the node at [p], a pointer into the list. *)
Definition action_at (this p : ptr)
    : L (list (positive * action_info) * action_info * list (positive * action_info)) :=
  l ← this_ this;
  match p with None => fail NullDeref | Some a => get_or Dangling (split_at a (actions l)) end.
Definition action_next (this p : ptr) : L ptr :=
  n ← action_at this p; mret (fst <$> head n.2).
Definition action_first (this : ptr) : L ptr :=
  l ← this_ this; mret (fst <$> head (actions l)).

(** * Operations *)

Definition action_list_get (this : ptr) (pstActionInfo : option action_info) : L (Z * option action_info) :=
  match pstActionInfo with
  | None => mret (ParaErr, None)
  | Some k =>
      if is_null this then mret (ParaErr, Some k) else
      n ← search_node this k;
      match n with
      | None => mret (ParaErr, Some k)
      | Some (_, _, i, _) => mret (NoErr, Some i)
      end
  end.

Definition action_list_set (this : ptr) (pstActionInfo : option action_info) : L Z :=
  match pstActionInfo with
  | None => mret ParaErr
  | Some k =>
      if is_null this then mret ParaErr else
      n ← search_node this k;
      match n with
      | None => mret NotFoundErr
      | Some (l1, a, _, l2) =>
          l ← this_ this;
          set_this this (set_actions (l1 ++ (a, k) :: l2) l) ;;
          iRet ← action_list_set_db this;
          if negb (iRet =? NoErr) then mret SceneSetErr else mret NoErr
      end
  end.

(** A change goes to the database twice: in [action_set], and again here. *)
Definition action_list_add (this : ptr) (pstActionInfo : option action_info) : L Z :=
  match pstActionInfo with
  | None => mret ParaErr
  | Some k =>
      if is_null this then mret ParaErr else
      let stInfo := ActionInfo (str_take ACTION_ID_MAX_LEN (acActionId k)) (str_take DEV_ID_MAX_LEN (atDevId k))
                      (str_take KEY_MAX_LEN (atKey k)) (str_take VALUE_CODING_MAX_LEN (acValueCoding k)) "" "" in
      '(iRet, _) ← action_list_get this (Some stInfo);
      if NoErr =? iRet then
        iRet ← action_list_set this (Some k);
        if negb (iRet =? NoErr) then mret SceneAddErr else
        action_list_set_db this
      else
        pNew ← fresh;
        match pNew with
        | None => mret SceneAddErr
        | Some a =>
            l ← this_ this;
            set_this this (set_actions (actions l ++ [(a, k)]) l) ;;
            action_list_add_db this
        end
  end.

Definition action_list_del (this : ptr) (pstActionInfo : option action_info) : L Z :=
  match pstActionInfo with
  | None => mret ParaErr
  | Some k =>
      if is_null this then mret ParaErr else
      n ← search_node this k;
      match n with
      | None => mret SceneDelErr
      | Some (l1, _, _, l2) =>
          l ← this_ this;
          set_this this (set_actions (l1 ++ l2) l) ;;
          iRet ← action_list_del_db this;
          if negb (iRet =? NoErr) then mret SceneDelErr else mret NoErr
      end
  end.

(** The number of actions comes back through [piCount]. *)
Definition action_list_get_list (this : ptr) (iDevMaxNum : Z) : L (Z * list action_info) :=
  if is_null this then mret (ParaErr, []) else
  l ← this_ this;
  mret (NoErr, take (Z.to_nat iDevMaxNum) (snd <$> actions l)).

Definition action_list_clear (this : ptr) : L Z :=
  if is_null this then mret ParaErr else
  l ← this_ this;
  set_this this (set_actions [] l) ;;
  mret NoErr.

(** * Synchronising with an array, of which [iCount] entries are in use *)

Fixpoint find_action (n : nat) (i : Z) (c : action_info) (pastActionInfo : list action_info) : L (Z * bool) :=
  match n with
  | O => mret (i, false)
  | S n =>
      e ← arr_get pastActionInfo i;
      if same_action c e then mret (i, true) else find_action n (i + 1) c pastActionInfo
  end.
Definition action_differs (c e : action_info) : bool :=
  negb (strn_eq VALUE_CODING_MAX_LEN (acValueCoding c) (acValueCoding e) &&
        strn_eq VALUE_MAX_LEN (atValue c) (atValue e)).

(** One action of the list; the flags say which entries were found. *)
Definition action_sync_node (this : ptr) (pastActionInfo : list action_info) (iCount : Z) (pstNode : ptr)
    (pacFoundFlag : list Z) : L (list Z) :=
  '(_, c, _) ← action_at this pstNode;
  '(i, iFlag) ← find_action (Z.to_nat iCount) 0 c pastActionInfo;
  e ← arr_get pastActionInfo i;
  if (iFlag : bool) then
    (if action_differs c e then _ ← action_list_set this (Some e); mret tt else mret tt) ;;
    arr_set pacFoundFlag i 1
  else
    _ ← action_list_del this (Some e);
    mret pacFoundFlag.

Definition action_list_sync (this : ptr) (pastActionInfo : list action_info) (iCount : Z) : L Z :=
  if is_null this then mret ParaErr else
  if iCount <? 0 then mret ParaErr else
  l ← this_ this;
  match actions l with
  | [] =>
      for_up (Z.to_nat iCount) 0 (fun i _ =>
        e ← arr_get pastActionInfo i; _ ← action_list_add this (Some e); mret tt) tt ;;
      mret NoErr
  | (a, _) :: _ =>
      if NoErr =? iCount then _ ← action_list_clear this; mret NoErr else
      ok ← reserve;
      if negb ok then mret HeapReqErr else
      flags ← loop (S (length (actions l))) (fun '(p, flags) =>
        if is_null p then mret (inr flags) else
        flags ← action_sync_node this pastActionInfo iCount p flags;
        p ← action_next this p;
        mret (inl (p, flags))) (Some a, replicate (Z.to_nat iCount) 0);
      for_up (Z.to_nat iCount) 0 (fun i _ =>
        f ← arr_get flags i;
        if 0 =? f then e ← arr_get pastActionInfo i; _ ← action_list_add this (Some e); mret tt else mret tt) tt ;;
      mret NoErr
  end.

(** Without memory for the rows, [iCount] keeps the size of the array. *)
Definition blank_action : action_info := ActionInfo "" "" "" "" "" "".
Definition action_list_init (this : ptr) (rows : option (list action_info)) : L Z :=
  if is_null this then mret ParaErr else
  ok ← reserve;
  if negb ok then mret HeapReqErr else
  l ← this_ this;
  set_this this (set_flag 1 l) ;;
  r ← action_list_get_list_db rows ACTION_MAX_NUM;
  let '(xs, iCount) := match r with Some xs => (xs, length xs) | None => ([], ACTION_MAX_NUM) end in
  iRet ← action_list_sync this (xs ++ replicate (ACTION_MAX_NUM - length xs) blank_action) (Z.of_nat iCount);
  l ← this_ this;
  set_this this (set_flag 0 l) ;;
  mret iRet.

(** [new_link_list] allocates the parent object and the sentinel. *)
Definition new_action_list (pcId : string) : L ptr :=
  pNew ← alloc (OActions (ActionList [] (str_take INDEX_MAX_LEN pcId) 0));
  if is_null pNew then mret NULL else
  ok1 ← reserve;
  if negb ok1 then free pNew ;; mret NULL else
  ok2 ← reserve;
  if negb ok2 then free pNew ;; mret NULL else
  mret pNew.

Definition destroy_action_list (this : ptr) : L Z :=
  if is_null this then mret ParaErr else
  _ ← this_ this;
  free this ;;
  mret NoErr.

(** * Callbacks *)

Definition get_acts : L act_state := g ← getg; mret (acts g).
Definition put_acts (f : act_state -> act_state) : L unit := setg (fun g => set_acts (f (acts g)) g).
Definition push_effect (e : effect) (a : act_state) : act_state :=
  ActState (g_astActionCBList a) (command_results a) (effects a ++ [e]).
Definition emit (e : effect) : L unit := put_acts (push_effect e).

Fixpoint first_index {A} (P : A -> bool) (i : nat) (xs : list A) : nat :=
  match xs with [] => i | x :: xs => if P x then i else first_index P (S i) xs end.

Definition action_callback_reg (iCbid : Z) (fn pUser : ptr) : L Z :=
  if iCbid <=? 0 then mret ParaErr else
  if is_null fn then mret ParaErr else
  a ← get_acts;
  let i := first_index (fun c => iCbId c <=? 0) 0 (g_astActionCBList a) in
  if (ACTION_CALLBACK_LIST_MAX_NUM <=? i)%nat then mret HeapReqErr else
  put_acts (fun a => ActState (<[i := ActionCb iCbid fn pUser]> (g_astActionCBList a))
                       (command_results a) (effects a)) ;;
  mret NoErr.

Definition action_callback_get (iCbid : Z) : L (option action_cb) :=
  if iCbid <=? 0 then mret None else
  a ← get_acts;
  let i := first_index (fun c => iCbId c =? iCbid) 0 (g_astActionCBList a) in
  if (ACTION_CALLBACK_LIST_MAX_NUM <=? i)%nat then mret None else
  mret (g_astActionCBList a !! i).

(** * Execution

    [handleHyCommandByScene], registered from outside, gets the command; it and
    the callbacks do not change the scenes.  The JSON library is a parameter:
    [cJSON_Parse], and [JSON_value_get] of a key, at most [n] bytes. *)

Definition handleHyCommandByScene (e : effect) : L Z :=
  emit e ;;
  a ← get_acts;
  put_acts (fun a => ActState (g_astActionCBList a) (tl (command_results a)) (effects a)) ;;
  mret (hd 0 (command_results a)).

Section exec.
Context {json : Type} (cJSON_Parse : string -> option json).
Context (JSON_value_get : string -> nat -> json -> option string).

Definition with_result (r : Z) (i : action_info) : action_info :=
  ActionInfo (acActionId i) (atDevId i) (atKey i) (acValueCoding i) (atValue i) (str_take 7 (pretty r)).

Definition exec_scene (i : action_info) : L Z :=
  match cJSON_Parse (atValue i) with
  | None => mret JsonFormatErr
  | Some j =>
      match JSON_value_get "SceneId" INDEX_MAX_LEN j with
      | None => mret JsonFormatErr
      | Some acSceneId =>
          let acSceneEnable := default "" (JSON_value_get "Enable" STATE_MAX_LEN j) in
          handleHyCommandByScene (Command "LocalScene"
            (("Op", "ExecScene") :: ("Id", acSceneId) ::
             if str_eq acSceneEnable "" then [] else [("Enable", acSceneEnable)]))
      end
  end.

(** The device id is not part of what is sent. *)
Definition exec_zigbee (i : action_info) : L Z :=
  data ← (if strn_eq VALUE_CODING_MAX_LEN (acValueCoding i) "Original" then mret (codes (atValue i))
          else if strn_eq VALUE_CODING_MAX_LEN (acValueCoding i) "Base64" then
            base64_decode (codes (atValue i) ++ replicate (VALUE_MAX_LEN - String.length (atValue i)) 0)
          else mret []);
  handleHyCommandByScene (CustomData data).

Definition exec_group (i : action_info) : L Z :=
  match cJSON_Parse (atValue i) with
  | None => mret JsonFormatErr
  | Some j =>
      match JSON_value_get "GroupId" INDEX_MAX_LEN j, JSON_value_get "Type" TYPE_MAX_LEN j,
            JSON_value_get "Key" KEY_MAX_LEN j, JSON_value_get "Value" VALUE_MAX_LEN j with
      | Some acGroupId, Some acType, Some acKey, Some acValue =>
          handleHyCommandByScene (Command "Multicast"
            [("GroupId", acGroupId); ("Key", acKey); ("Type", acType); ("Value", acValue)])
      | _, _, _, _ => mret JsonFormatErr
      end
  end.

Definition exec_callback (i : action_info) : L Z :=
  match cJSON_Parse (atValue i) with
  | None => mret JsonFormatErr
  | Some j =>
      match JSON_value_get "CbId" INDEX_MAX_LEN j, JSON_value_get "Param" KEY_MAX_LEN j with
      | Some acCbId, Some acParam =>
          pCbInfo ← action_callback_get (atoi acCbId);
          match pCbInfo with
          | None => mret NotFoundErr
          | Some cb =>
              if is_null (pFun cb) then fail NullDeref else
              emit (CallBack (pFun cb) (pUserData cb) acParam) ;; mret 0
          end
      | _, _ => mret JsonFormatErr
      end
  end.

(** The result, and the action as it is afterwards. *)
Definition action_list_exec (i : action_info) : L (Z * action_info) :=
  if strn_eq KEY_MAX_LEN (atKey i) "SceneId" then r ← exec_scene i; mret (r, i)
  else if strn_eq KEY_MAX_LEN (atKey i) "PushZigbee" then r ← exec_zigbee i; mret (r, i)
  else if strn_eq KEY_MAX_LEN (atKey i) "Sleep" then
    emit (Usleep (u32 (atoi (atValue i) * 1000))) ;; mret (0, i)
  else if strn_eq KEY_MAX_LEN (atKey i) "Group" then r ← exec_group i; mret (r, i)
  else if strn_eq KEY_MAX_LEN (atKey i) "CallBack" then r ← exec_callback i; mret (r, i)
  else
    r ← handleHyCommandByScene (Command "Ctrl"
          [("DeviceId", atDevId i); ("Key", atKey i); ("Value", atValue i)]);
    mret (r, with_result r i).

Definition action_list_exec_all (this : ptr) : L Z :=
  if is_null this then mret ParaErr else
  l ← this_ this;
  p ← action_first this;
  loop (S (length (actions l))) (fun p : ptr =>
    if is_null p then mret (inr NoErr) else
    '(_, i, _) ← action_at this p;
    '(_, i) ← action_list_exec i;
    '(l1, _, l2) ← action_at this p;
    l ← this_ this;
    set_this this (set_actions (l1 ++ (default 1%positive p, i) :: l2) l) ;;
    p ← action_next this p;
    mret (inl p)) p.
End exec.
