(* ===== verification/ActionRefine.v ===== *)
(** The action list implements a sequence of actions, at most one per action
    id, device and key. *)
From stdpp Require Import gmap strings pretty.
From S2P Require Import Prelude Heap CString Base64 HashTable SceneTimer SceneCond SceneSync SceneData ActionList.

(** * Keys *)

Definition action_key (i : action_info) : string * string * string :=
  (str_take ACTION_ID_MAX_LEN (acActionId i), lower (atDevId i), str_take KEY_MAX_LEN (atKey i)).

Lemma same_action_key i j : same_action i j = bool_decide (action_key i = action_key j).
Proof.
  unfold same_action, strn_eq, strcase_eq, action_key. repeat case_bool_decide; simpl; try done; congruence.
Qed.

(** * The abstract list *)

Definition has_key (k : action_info) (i : action_info) : Prop := action_key i = action_key k.
#[export] Instance has_key_dec k i : Decision (has_key k i).
Proof. unfold has_key. apply _. Defined.

(** The place of the action with the key of [k]. *)
Definition place_of (k : action_info) (xs : list action_info) : option nat := fst <$> list_find (has_key k) xs.
Definition absent (k : action_info) (xs : list action_info) : Prop := action_key k ∉ action_key <$> xs.

Inductive al_op : Type :=
| AAdd (i : action_info) | ASet (i : action_info) | ADel (k : action_info)
| AGet (k : action_info) | AGetList (n : Z) | AClear.
Inductive al_res : Type := RInt (r : Z) | RInfo (r : Z) (i : option action_info) | RInfos (r : Z) (is_ : list action_info).

Definition answer (r err : Z) : Z := if r =? NoErr then NoErr else err.

(** One operation on the sequence and on the results of the database, of which
    it uses none, one or two. *)
Definition al_spec (o : al_op) (xs : list action_info) (db : list Z) : al_res * list action_info * list Z :=
  let d1 := hd NoErr db in
  match o with
  | AAdd i =>
      match place_of i xs with
      | Some n =>
          if d1 =? NoErr then (RInt (answer (hd NoErr (tl db)) SceneAddErr), <[n := i]> xs, tl (tl db))
          else (RInt SceneAddErr, <[n := i]> xs, tl db)
      | None => (RInt (answer d1 SceneAddErr), xs ++ [i], tl db)
      end
  | ASet i =>
      match place_of i xs with
      | Some n => (RInt (answer d1 SceneSetErr), <[n := i]> xs, tl db)
      | None => (RInt NotFoundErr, xs, db)
      end
  | ADel k =>
      match place_of k xs with
      | Some n => (RInt (answer d1 SceneDelErr), delete n xs, tl db)
      | None => (RInt SceneDelErr, xs, db)
      end
  | AGet k =>
      match snd <$> list_find (has_key k) xs with
      | Some i => (RInfo NoErr (Some i), xs, db)
      | None => (RInfo ParaErr (Some k), xs, db)
      end
  | AGetList n => (RInfos NoErr (take (Z.to_nat n) xs), xs, db)
  | AClear => (RInt NoErr, [], db)
  end.
Fixpoint al_specs (os : list al_op) (xs : list action_info) (db : list Z) : list al_res * list action_info * list Z :=
  match os with
  | [] => ([], xs, db)
  | o :: os =>
      let '(r, xs, db) := al_spec o xs db in
      let '(rs, xs, db) := al_specs os xs db in (r :: rs, xs, db)
  end.

Definition al_run (this : ptr) (o : al_op) : L al_res :=
  match o with
  | AAdd i => r ← action_list_add this (Some i); mret (RInt r)
  | ASet i => r ← action_list_set this (Some i); mret (RInt r)
  | ADel k => r ← action_list_del this (Some k); mret (RInt r)
  | AGet k => '(r, i) ← action_list_get this (Some k); mret (RInfo r i)
  | AGetList n => '(r, xs) ← action_list_get_list this n; mret (RInfos r xs)
  | AClear => r ← action_list_clear this; mret (RInt r)
  end.
Fixpoint al_exec (this : ptr) (os : list al_op) : L (list al_res) :=
  match os with
  | [] => mret []
  | o :: os => r ← al_run this o; rs ← al_exec this os; mret (r :: rs)
  end.

(** The object at [this] holds the sequence [xs]. *)
Record al_at (s : mem) (this : positive) (xs : list action_info) : Prop := {
  aa_list : exists l, cells s !! this = Some (OActions l) /\ snd <$> actions l = xs /\ alInitFlag l = 0 /\
    NoDup (fst <$> actions l) /\ Forall (fun a => (a < brk s)%positive) (fst <$> actions l);
  aa_keys : NoDup (action_key <$> xs);
  aa_oom : oom s = []
}.

(** The field [acDevId] has a terminating zero within its 64 bytes. *)
Definition fits (i : action_info) : Prop := (String.length (atDevId i) <= DEV_ID_MAX_LEN)%nat.
Definition op_fits (o : al_op) : Prop := match o with AAdd i => fits i | _ => True end.

(** * Searching *)

Lemma split_action_spec k xs :
  match split_action k xs with
  | Some (l1, a, i, l2) =>
      xs = l1 ++ (a, i) :: l2 /\ action_key i = action_key k /\
      list_find (has_key k) (snd <$> xs) = Some (length l1, i)
  | None => list_find (has_key k) (snd <$> xs) = None
  end.
Proof.
  induction xs as [|[a i] xs IH]; [done|]. cbn [split_action fmap list_fmap list_find snd].
  rewrite same_action_key. unfold has_key at 1. case_bool_decide as Hk.
  - by rewrite decide_True.
  - destruct (split_action k xs) as [[[[l1 b] j] l2]|]; cbn [mbind option_bind].
    + destruct IH as (Heq & Hj & Hp). split_and!; [by rewrite Heq|done|].
      rewrite decide_False by done. by rewrite Hp.
    + rewrite decide_False by done. by rewrite IH.
Qed.

Lemma place_find k xs : place_of k xs = fst <$> list_find (has_key k) xs.
Proof. done. Qed.
Lemma place_absent k xs : place_of k xs = None -> absent k xs.
Proof.
  unfold place_of, absent. intros H. destruct (list_find (has_key k) xs) as [[n x]|] eqn:Hf; [done|].
  apply list_find_None in Hf. intros (i & Hi & Hin)%list_elem_of_fmap_1.
  rewrite Forall_forall in Hf. by apply (Hf i Hin).
Qed.

(** The list after its node [l1 ++ (a, i) :: l2] got the content [k]. *)
Lemma replaced l1 (a : positive) (i k : action_info) l2 :
  snd <$> (l1 ++ (a, k) :: l2) = <[length l1 := k]> (snd <$> (l1 ++ (a, i) :: l2)).
Proof.
  rewrite !fmap_app, !fmap_cons. cbn [snd]. rewrite <- (length_fmap snd l1).
  by rewrite insert_app_r_alt, Nat.sub_diag by done.
Qed.
Lemma replaced_addr l1 (a : positive) (i k : action_info) l2 :
  fst <$> (l1 ++ (a, k) :: l2) = fst <$> (l1 ++ (a, i) :: l2).
Proof. by rewrite !fmap_app, !fmap_cons. Qed.
Lemma removed l1 (a : positive) (i : action_info) l2 :
  snd <$> (l1 ++ l2) = delete (length l1) (snd <$> (l1 ++ (a, i) :: l2)).
Proof.
  rewrite !fmap_app, !fmap_cons. rewrite <- (length_fmap snd l1). by rewrite delete_middle.
Qed.

Lemma wp_actions a l s (Q : action_list -> mem -> Prop) :
  cells s !! a = Some (OActions l) -> Q l s -> wp (this_ (Some a)) s Q.
Proof. intros Ha HQ. unfold this_. by eapply wp_load. Qed.
Lemma wp_set_actions a l0 l s (Q : unit -> mem -> Prop) :
  cells s !! a = Some (OActions l0) -> Q tt (upd a (OActions l) s) -> wp (set_this (Some a) l) s Q.
Proof. intros Ha HQ. unfold set_this. by eapply wp_store. Qed.

Lemma oom_id (s : mem) : oom s = [] -> Heap (cells s) (brk s) (tl (oom s)) (glob s) = s.
Proof. destruct s. cbn. by intros ->. Qed.

Lemma action_search_spec s this l k :
  cells s !! this = Some (OActions l) -> oom s = [] ->
  wp (search_node (Some this) k) s (fun r s' => r = split_action k (actions l) /\ s' = s).
Proof.
  intros Hl Ho. unfold search_node. wp_step. eapply wp_actions; [exact Hl|].
  wp_step. apply wp_reserve. intros b ->. rewrite Ho. cbn [hd negb]. wp_steps. split; [done|].
  rewrite <- Ho. by rewrite oom_id.
Qed.

(** A request to the database. *)
Lemma request_spec s this l err :
  cells s !! this = Some (OActions l) -> alInitFlag l = 0 ->
  wp (request (Some this) err) s (fun r s' => r = answer (hd NoErr (db_results (glob s))) err /\
    s' = with_glob (fun g => set_db (tl (db_results g)) g) s).
Proof.
  intros Hl Hf. unfold request. wp_step. eapply wp_actions; [exact Hl|]. rewrite Hf.
  change (1 =? 0) with false. cbv iota. wp_step. unfold wp at 1, db_request. unfold answer.
  destruct (_ =? NoErr); by wp_steps.
Qed.

Section run.
Context (s : mem) (this : positive) (l : action_list).
Context (Hl : cells s !! this = Some (OActions l)) (Hf : alInitFlag l = 0) (Ho : oom s = []).
Context (Hnd : NoDup (fst <$> actions l)) (Hb : Forall (fun a => (a < brk s)%positive) (fst <$> actions l)).
Context (Hk : NoDup (action_key <$> (snd <$> actions l))).

(** The heap after the object has been written and the database asked. *)
Definition wrote (n : nat) (b : positive) (xs : list (positive * action_info)) : mem :=
  Heap (<[this := OActions (set_actions xs l)]> (cells s)) b (oom s)
    (Nat.iter n (fun g => set_db (tl (db_results g)) g) (glob s)).

Lemma al_at_wrote n b xs :
  NoDup (fst <$> xs) -> Forall (fun a => (a < b)%positive) (fst <$> xs) -> NoDup (action_key <$> (snd <$> xs)) ->
  al_at (wrote n b xs) this (snd <$> xs).
Proof.
  intros H1 H2 H3. split; [|done|done]. exists (set_actions xs l). split_and!; try done. apply lookup_insert_eq.
Qed.

Lemma wrote_cells n b xs a : a <> this -> cells (wrote n b xs) !! a = cells s !! a.
Proof. intros Ha. cbn. by rewrite lookup_insert_ne. Qed.
Lemma wrote_this n b xs : cells (wrote n b xs) !! this = Some (OActions (set_actions xs l)).
Proof. apply lookup_insert_eq. Qed.

Lemma action_get_spec k :
  wp (action_list_get (Some this) (Some k)) s (fun r s' => s' = s /\
    r = match split_action k (actions l) with Some (_, _, i, _) => (NoErr, Some i) | None => (ParaErr, Some k) end).
Proof.
  unfold action_list_get. cbn [is_null]. wp_step. eapply wp_mono; [by eapply action_search_spec|].
  intros r s' [-> ->]. destruct (split_action k (actions l)) as [[[[l1 a] i] l2]|]; by wp_steps.
Qed.

Lemma action_set_spec k :
  wp (action_list_set (Some this) (Some k)) s (fun r s' =>
    match split_action k (actions l) with
    | Some (l1, a, _, l2) => r = answer (hd NoErr (db_results (glob s))) SceneSetErr /\
        s' = wrote 1 (brk s) (l1 ++ (a, k) :: l2)
    | None => r = NotFoundErr /\ s' = s
    end).
Proof.
  unfold action_list_set. cbn [is_null]. wp_step. eapply wp_mono; [by eapply action_search_spec|].
  intros r s' [-> ->]. destruct (split_action k (actions l)) as [[[[l1 a] i] l2]|]; [|by wp_steps].
  wp_step. eapply wp_actions; [exact Hl|]. wp_step. eapply wp_set_actions; [exact Hl|]. wp_step.
  eapply wp_mono; [eapply request_spec; [apply lookup_insert_eq|done]|]. intros r s' [-> ->].
  unfold answer. cbn [glob upd with_cells]. destruct (Z.eqb_spec (hd NoErr (db_results (glob s))) NoErr); by wp_steps.
Qed.

Lemma action_del_spec k :
  wp (action_list_del (Some this) (Some k)) s (fun r s' =>
    match split_action k (actions l) with
    | Some (l1, _, _, l2) => r = answer (hd NoErr (db_results (glob s))) SceneDelErr /\
        s' = wrote 1 (brk s) (l1 ++ l2)
    | None => r = SceneDelErr /\ s' = s
    end).
Proof.
  unfold action_list_del. cbn [is_null]. wp_step. eapply wp_mono; [by eapply action_search_spec|].
  intros r s' [-> ->]. destruct (split_action k (actions l)) as [[[[l1 a] i] l2]|]; [|by wp_steps].
  wp_step. eapply wp_actions; [exact Hl|]. wp_step. eapply wp_set_actions; [exact Hl|]. wp_step.
  eapply wp_mono; [eapply request_spec; [apply lookup_insert_eq|done]|]. intros r s' [-> ->].
  unfold answer. cbn [glob upd with_cells]. destruct (Z.eqb_spec (hd NoErr (db_results (glob s))) NoErr); by wp_steps.
Qed.
End run.

(** The search with the truncated copy finds what the search with the action
    itself does. *)
Definition trunc (k : action_info) : action_info :=
  ActionInfo (str_take ACTION_ID_MAX_LEN (acActionId k)) (str_take DEV_ID_MAX_LEN (atDevId k))
    (str_take KEY_MAX_LEN (atKey k)) (str_take VALUE_CODING_MAX_LEN (acValueCoding k)) "" "".
Lemma split_trunc k xs : fits k -> split_action (trunc k) xs = split_action k xs.
Proof.
  intros Hfit. assert (action_key (trunc k) = action_key k) as Hkey.
  { unfold action_key, trunc. cbn [acActionId atDevId atKey]. rewrite !str_take_take. by rewrite (str_take_short DEV_ID_MAX_LEN). }
  induction xs as [|[a i] xs IH]; [done|]. cbn [split_action]. rewrite !same_action_key, Hkey, IH. done.
Qed.

Lemma add_spec s this l k :
  cells s !! this = Some (OActions l) -> alInitFlag l = 0 -> oom s = [] -> fits k ->
  let d := db_results (glob s) in
  wp (action_list_add (Some this) (Some k)) s (fun r s' =>
    match split_action k (actions l) with
    | Some (l1, a, _, l2) =>
        if hd NoErr d =? NoErr
        then r = answer (hd NoErr (tl d)) SceneAddErr /\ s' = wrote s this l 2 (brk s) (l1 ++ (a, k) :: l2)
        else r = SceneAddErr /\ s' = wrote s this l 1 (brk s) (l1 ++ (a, k) :: l2)
    | None => r = answer (hd NoErr d) SceneAddErr /\
        s' = wrote s this l 1 (Pos.succ (brk s)) (actions l ++ [(brk s, k)])
    end).
Proof.
  intros Hl Hf Ho Hfit d. unfold action_list_add. cbn [is_null]. cbv zeta. fold (trunc k). wp_step.
  eapply wp_mono; [eapply (action_get_spec s this l Hl Ho (trunc k))|]. intros r s' [-> ->].
  rewrite split_trunc by done. pose proof (action_set_spec s this l Hl Hf Ho k) as Hset.
  destruct (split_action k (actions l)) as [[[[l1 a] i] l2]|].
  - change (NoErr =? NoErr) with true. cbv iota. wp_step. eapply wp_mono; [exact Hset|].
    intros r s' [-> ->]. unfold answer at 1. fold d.
    destruct (Z.eqb_spec (hd NoErr d) NoErr); [|by wp_steps].
    change (negb (NoErr =? NoErr)) with false. cbv iota.
    eapply wp_mono; [eapply request_spec; [apply wrote_this|done]|]. by intros r s' [-> ->].
  - change (NoErr =? ParaErr) with false. cbv iota. wp_step. apply wp_fresh; rewrite Ho; [done|].
    intros _. cbn [tl]. wp_step. eapply wp_actions; [exact Hl|]. wp_step. eapply wp_set_actions; [exact Hl|].
    eapply wp_mono; [eapply request_spec; [apply lookup_insert_eq|done]|]. intros r s' [-> ->].
    split; [done|]. unfold wrote. by rewrite Ho.
Qed.

(** * Refinement *)

Lemma keys_insert xs n k : place_of k xs = Some n -> action_key <$> <[n := k]> xs = action_key <$> xs.
Proof.
  unfold place_of. intros Hp. destruct (list_find (has_key k) xs) as [[m x]|] eqn:Hf; [|done].
  injection Hp as ->. apply list_find_Some in Hf as (Hx & Hkx & _).
  rewrite list_fmap_insert. apply list_insert_id. by rewrite list_lookup_fmap, Hx, <- Hkx.
Qed.
Lemma place_lookup k xs n : place_of k xs = Some n -> exists i, xs !! n = Some i.
Proof.
  unfold place_of. intros Hp. destruct (list_find (has_key k) xs) as [[m x]|] eqn:Hf; [|done].
  injection Hp as ->. apply list_find_Some in Hf as (Hx & _). by exists x.
Qed.

Definition al_post (s : mem) (this : positive) (xs : list action_info) (db : list Z) (s' : mem) : Prop :=
  al_at s' this xs /\ db_results (glob s') = db /\ (forall a, a <> this -> cells s' !! a = cells s !! a).

Lemma al_step s this xs o :
  al_at s this xs -> op_fits o ->
  wp (al_run (Some this) o) s (fun r s' =>
    let '(r', xs', db') := al_spec o xs (db_results (glob s)) in r = r' /\ al_post s this xs' db' s').
Proof.
  intros [(l & Hl & <- & Hf & Hnd & Hb) Hk Ho] Hfit.
  assert (Hsame : al_at s this (snd <$> actions l)) by (split; [by exists l|done|done]).
  assert (Hput : forall k l1 a i l2 n, split_action k (actions l) = Some (l1, a, i, l2) ->
    al_at (wrote s this l n (brk s) (l1 ++ (a, k) :: l2)) this (<[length l1 := k]> (snd <$> actions l))).
  { intros k l1 a i l2 n He. pose proof (split_action_spec k (actions l)) as Hs. rewrite He in Hs.
    destruct Hs as (Heq & _ & Hp). pose proof (replaced l1 a i k l2) as Hr. rewrite <- Heq in Hr. rewrite <- Hr.
    pose proof (replaced_addr l1 a i k l2) as Hra. rewrite <- Heq in Hra.
    apply al_at_wrote; rewrite ?Hra; try done. rewrite Hr, keys_insert; [done|]. by rewrite place_find, Hp. }
  destruct o as [k|k|k|k|n|]; cbn [al_run al_spec]; wp_step.
  - eapply wp_mono; [by eapply add_spec|]. cbv zeta. intros r s' Hr.
    pose proof (split_action_spec k (actions l)) as Hs. pose proof (Hput k) as Hput.
    destruct (split_action k (actions l)) as [[[[l1 a] i] l2]|].
    + destruct Hs as (_ & _ & Hp). rewrite place_find, Hp. cbn [fmap option_fmap option_map fst]. destruct (_ =? NoErr); destruct Hr as [-> ->]; wp_step; (split; [done|]);
        (split_and!; [by eapply Hput|done|]); intros; by apply wrote_cells.
    + rewrite place_find, Hs. destruct Hr as [-> ->]. wp_step. split; [done|]. split_and!; [|done|intros; by apply wrote_cells].
      replace ((snd <$> actions l) ++ [k]) with (snd <$> (actions l ++ [(brk s, k)])) by by rewrite fmap_app.
      apply al_at_wrote; [done|done| | |].
      * rewrite fmap_app. apply NoDup_app. split_and!; [done| |apply NoDup_singleton].
        intros x Hx ->%list_elem_of_singleton. rewrite Forall_forall in Hb. specialize (Hb _ Hx). simpl in Hb. lia.
      * rewrite fmap_app. apply Forall_app. split; [|repeat constructor; simpl; lia].
        eapply Forall_impl; [exact Hb|]. simpl. lia.
      * rewrite !fmap_app. apply NoDup_app. split_and!; [done| |apply NoDup_singleton].
        intros x Hx ->%list_elem_of_singleton. apply (place_absent k (snd <$> actions l)); [by rewrite place_find, Hs|done].
  - eapply wp_mono; [by eapply action_set_spec|]. intros r s' Hr.
    pose proof (split_action_spec k (actions l)) as Hs. pose proof (Hput k) as Hput.
    destruct (split_action k (actions l)) as [[[[l1 a] i] l2]|].
    + destruct Hs as (_ & _ & Hp). rewrite place_find, Hp. destruct Hr as [-> ->]. wp_step. split; [done|].
      split_and!; [by eapply Hput|done|]. intros; by apply wrote_cells.
    + rewrite place_find, Hs. destruct Hr as [-> ->]. by wp_step.
  - eapply wp_mono; [by eapply action_del_spec|]. intros r s' Hr.
    pose proof (split_action_spec k (actions l)) as Hs.
    destruct (split_action k (actions l)) as [[[[l1 a] i] l2]|].
    + destruct Hs as (Heq & _ & Hp). rewrite place_find, Hp. cbn [fmap option_fmap option_map fst]. destruct Hr as [-> ->]. wp_step. split; [done|].
      pose proof (removed l1 a i l2) as Hrm. rewrite <- Heq in Hrm. rewrite <- Hrm.
      split_and!; [|done|intros; by apply wrote_cells]. rewrite Heq in *. rewrite !fmap_app, !fmap_cons in *.
      apply NoDup_middle in Hk as [Hk _]. apply NoDup_middle in Hnd as [Hnd _].
      apply Forall_app in Hb as [Hb1 [_ Hb2]%Forall_cons].
      rewrite <- fmap_app. apply al_at_wrote; rewrite ?fmap_app; try done. by apply Forall_app.
    + rewrite place_find, Hs. destruct Hr as [-> ->]. by wp_step.
  - eapply wp_mono; [by eapply action_get_spec|]. intros r s' [-> ->].
    pose proof (split_action_spec k (actions l)) as Hs.
    destruct (split_action k (actions l)) as [[[[l1 a] i] l2]|].
    + destruct Hs as (_ & _ & ->). by wp_step.
    + rewrite Hs. by wp_step.
  - unfold action_list_get_list. cbn [is_null]. wp_step. eapply wp_actions; [exact Hl|]. wp_step. by wp_step.
  - unfold action_list_clear. cbn [is_null]. wp_step. eapply wp_actions; [exact Hl|]. wp_step.
    eapply wp_set_actions; [exact Hl|]. wp_step. wp_step. split; [done|]. split_and!; [|done|].
    + split; [|apply NoDup_nil_2|done]. exists (set_actions [] l). split_and!; [apply lookup_insert_eq|done|done|apply NoDup_nil_2|done].
    + intros a Ha. cbn. by rewrite lookup_insert_ne.
Qed.

(** C34: every sequence of operations on an action list gives the results of
    the same operations on a sequence of actions with one action per action id,
    device (whatever its case) and key: adding replaces in place or appends, a
    failing request of the database is reported and changes the list all the
    same; nothing else is written. *)
Theorem action_list_refines_sequence os : forall s this xs,
  al_at s this xs -> Forall op_fits os ->
  wp (al_exec (Some this) os) s (fun rs s' =>
    let '(rs', xs', db') := al_specs os xs (db_results (glob s)) in rs = rs' /\ al_post s this xs' db' s').
Proof.
  induction os as [|o os IH]; intros s this xs R Hfit; cbn [al_exec al_specs].
  - apply wp_ret. split; [done|]. by split_and!.
  - apply Forall_cons in Hfit as [Ho Hfit]. wp_step. eapply wp_mono; [by apply al_step|].
    intros r s1 H1. destruct (al_spec o xs _) as [[r' xs1] db1]. destruct H1 as (-> & R1 & Hdb1 & Hf1).
    wp_step. eapply wp_mono; [by eapply IH|]. intros rs s2 H2. rewrite Hdb1 in H2.
    destruct (al_specs os xs1 db1) as [[rs' xs2] db2]. destruct H2 as (-> & R2 & Hdb2 & Hf2). wp_step.
    split; [done|]. split_and!; [done|done|]. intros a Ha. rewrite Hf2, Hf1; done.
Qed.

(** * A list with a lamp, whose second request to the database fails *)

Definition switch (dev v : string) : action_info := ActionInfo "1" dev "Switch" "Original" v "".
Definition demo_actions (xs : list action_info) (db : list Z) : mem :=
  Heap (<[1%positive := OActions (ActionList (zip [2; 3; 4; 5]%positive xs) "s1" 0)]> ∅) 9 []
    (Env db (Tm 1 9 0) 0 [] [] sync_unused acts0).

Lemma action_list_refines_sequence_witness :
  wp (al_exec (Some 1%positive) [AAdd (switch "LAMP" "0"); AAdd (switch "door" "1"); AGet (switch "Lamp" "");
        ADel (switch "lamp" ""); AGetList 5]) (demo_actions [switch "lamp" "1"] [0; 7]) (fun rs s' =>
    rs = [RInt SceneAddErr; RInt 0; RInfo 0 (Some (switch "LAMP" "0")); RInt 0; RInfos 0 [switch "door" "1"]] /\
    al_post (demo_actions [switch "lamp" "1"] [0; 7]) 1 [switch "door" "1"] [] s').
Proof.
  apply (action_list_refines_sequence [AAdd (switch "LAMP" "0"); AAdd (switch "door" "1"); AGet (switch "Lamp" "");
        ADel (switch "lamp" ""); AGetList 5] (demo_actions [switch "lamp" "1"] [0; 7]) 1 [switch "lamp" "1"]).
  - split; [|apply NoDup_singleton|reflexivity]. eexists. split_and!; [reflexivity|reflexivity|reflexivity| |].
    + apply NoDup_singleton.
    + repeat constructor; lia.
  - repeat constructor; unfold fits; simpl; unfold DEV_ID_MAX_LEN; lia.
Defined.
