(* ===== verification/CondList.v ===== *)
(** The condition lists of src/hylink/src/local_scene/condition_list.c: at most
    32 sets of at most 32 conditions.  The sets are the nodes of a linked list,
    used here through its contract (ListRefine.v): the sequence of its nodes.
    SQL requests appear as their outcome. *)
From stdpp Require Import gmap strings.
From S2P Require Import Prelude Heap CString SceneTimer SceneCond SceneData.

Definition COND_TYPE_MAX_LEN : nat := 64.
Definition LOGIC_MAX_LEN : nat := 8.

Definition this_ (p : ptr) : L cond_list := load to_list p.
Definition set_this (p : ptr) (l : cond_list) : L unit := store p (OList l).
Definition is_time (l : cond_list) : bool := strn_eq COND_TYPE_MAX_LEN (acCondType l) COND_TIME.

(** * The database requests *)

Definition request (this : ptr) (err : Z) : L Z :=
  l ← this_ this;
  if 1 =? ucInitFlag l then mret NoErr else
  iRet ← db_request;
  if negb (iRet =? NoErr) then mret err else mret NoErr.
Definition cond_add_db (this : ptr) : L Z := request this SceneAddErr.
Definition cond_del_db (this : ptr) : L Z := request this SceneDelErr.
Definition cond_set_db (this : ptr) : L Z := request this SceneAddErr.
Definition time_cond_time_lose_set_db (this : ptr) : L Z := request this SceneSetErr.

(** * Operations *)

Fixpoint index_from (i : Z) (ss : list cond_set) : list cond_set :=
  match ss with
  | [] => []
  | c :: ss => CondSet (csAddr c) i (uiCondTrue c) (ucCondCount c) (pstCond c)
               :: index_from (i + 1) ss
  end.

Definition cond_list_update_index (this : ptr) : L Z :=
  if is_null this then mret ParaErr else
  l ← this_ this;
  set_this this (set_sets (index_from 0 (sets l)) l) ;;
  mret NoErr.

Definition cond_size (this : ptr) : L Z :=
  if is_null this then mret ParaErr else
  l ← this_ this; mret (iCount l).

(** The first set with a free place. *)
Fixpoint find_room (ss : list cond_set) : ptr :=
  match ss with
  | [] => NULL
  | c :: ss => if ucCondCount c <? 32 then Some (csAddr c) else find_room ss
  end.

Definition new_set (a : positive) : cond_set := CondSet a 0 0 0 [].

(** The chain of [pstCond] with one more node at its end. *)
Definition append_cond (a : positive) (c : cond) (ns : list cond_node) : list cond_node :=
  match last ns with
  | None => [CondNode a 0 c]
  | Some p => ns ++ [CondNode a (iCondIndex p + 1) c]
  end.

(** The second half of the two additions: the condition into the set at
    [pstNode], the counts, the handle, the database. *)
Definition add_to_set (this pstNode : ptr) (c : cond) (pstCondPtr : ptr) : L Z :=
  pNew ← fresh;
  match pNew with
  | None => fail NullDeref
  | Some new =>
      l ← this_ this;
      '(l1, k, l2) ← the_set pstNode l;
      let k' := CondSet (csAddr k) (iCondSetIndex k) (uiCondTrue k) (u8 (ucCondCount k + 1))
                  (append_cond new c (pstCond k)) in
      let n := s32 (iCount l + 1) in
      let l' := set_count n (set_sets (l1 ++ k' :: l2) l) in
      set_this this (if 1 =? n then set_truths 0 l' else l') ;;
      h ← load to_node pstCondPtr;
      let i := stCondPtr h in
      store pstCondPtr (OPtrNode (PtrNode
        (PtrInfo (piId i) (pstScene i) this pstNode pNew (pScenePanelNode i))
        (pnNext h) (pnPrev h))) ;;
      cond_add_db this
  end.

(** A set node that cannot be allocated is not inserted, and the code goes on
    with the list's last node: the last full set, or the sentinel, where the
    model stops. *)
Definition time_cond_add (this : ptr) (pstCondInfo : option time_cond) (pstCondPtr : ptr) : L Z :=
  match pstCondInfo with
  | None => mret ParaErr
  | Some info =>
      if is_null this || is_null pstCondPtr then mret ParaErr else
      l ← this_ this;
      match find_room (sets l) with
      | Some a => add_to_set this (Some a) (CTime info) pstCondPtr
      | None =>
          if 32 <=? Z.of_nat (length (sets l)) then mret SceneAddErr else
          p ← fresh;
          match p with
          | Some a => set_this this (set_sets (sets l ++ [new_set a]) l)
          | None => mret tt
          end ;;
          l ← this_ this;
          k ← get_or Dangling (last (sets l));
          cond_list_update_index this ;;
          add_to_set this (Some (csAddr k)) (CTime info) pstCondPtr
      end
  end.

Definition event_cond_add (this : ptr) (pstCondInfo : option event_cond) (pstCondPtr : ptr) : L Z :=
  match pstCondInfo with
  | None => mret ParaErr
  | Some info =>
      if is_null this || is_null pstCondPtr then mret ParaErr else
      l ← this_ this;
      match find_room (sets l) with
      | Some a => add_to_set this (Some a) (CEvent info) pstCondPtr
      | None =>
          if 32 <=? Z.of_nat (length (sets l)) then mret SceneAddErr else
          p ← fresh;
          match p with
          | Some a => set_this this (set_sets (new_set a :: sets l) l)
          | None => mret tt
          end ;;
          l ← this_ this;
          k ← get_or NullDeref (head (sets l));
          cond_list_update_index this ;;
          add_to_set this (Some (csAddr k)) (CEvent info) pstCondPtr
      end
  end.

(** [void *]: what is added is cast to the type the list declares. *)
Definition cond_add (this : ptr) (pstCondInfo : option cond) (pstCondPtr : ptr) : L Z :=
  if is_null this then mret ParaErr else
  l ← this_ this;
  match pstCondInfo with
  | None => mret ParaErr
  | Some c =>
      if is_time l
      then t ← as_time c; time_cond_add this (Some t) pstCondPtr
      else e ← as_event c; event_cond_add this (Some e) pstCondPtr
  end.

Definition dec_index (n : cond_node) : cond_node :=
  CondNode (cnAddr n) (iCondIndex n - 1) (stCond n).

(** The chain [n1], node, [n2] without the node: the first, the last or another
    one of the set. *)
Definition unlink (n1 n2 : list cond_node) : list cond_node :=
  match n1 with
  | [] => dec_index <$> n2
  | _ =>
      match n2 with
      | [] => n1
      | _ => n1 ++ (dec_index <$> n2)
      end
  end.

(** [time_cond_del] and [event_cond_del] differ in the type of the node only.
    The last condition of a set takes the set with it; otherwise the nodes
    after the deleted one move down, [uiCondTrue] stays.  The node and its set
    come from the handle, the count and the database from [this].  A whole set
    that belongs to another list is not modelled: the run stops. *)
Definition kind_cond_del {C} (as_kind : cond -> L C) (this pstCondPtr : ptr) : L Z :=
  if is_null this || is_null pstCondPtr then mret ParaErr else
  h ← load to_node pstCondPtr;
  let owner := pstCondList (stCondPtr h) in
  l ← this_ owner;
  '(l1, k, l2) ← the_set (pCondSetNode (stCondPtr h)) l;
  '(n1, n, n2) ← the_node (pCondNode (stCondPtr h)) k;
  _ ← as_kind (stCond n);
  iRet ← cond_del_db this;
  if negb (iRet =? NoErr) then mret SceneDelErr else
  if 1 =? ucCondCount k then
    if negb (bool_decide (owner = this)) then fail Dangling else
    let m := s32 (iCount l - 1) in
    let l' := set_count m (set_sets (l1 ++ l2) l) in
    set_this this
      (if 0 =? m
       then set_truths (if strn_eq LOGIC_MAX_LEN (acLogic l) LOGIC_AND then 1 else 0) l'
       else l') ;;
    cond_list_update_index this ;;
    mret NoErr
  else
    let k' := CondSet (csAddr k) (iCondSetIndex k) (uiCondTrue k) (u8 (ucCondCount k - 1))
                (unlink n1 n2) in
    set_this owner (set_sets (l1 ++ k' :: l2) l) ;;
    l ← this_ this;
    set_this this (set_count (s32 (iCount l - 1)) l) ;;
    mret iRet.

Definition time_cond_del : ptr -> ptr -> L Z := kind_cond_del as_time.
Definition event_cond_del : ptr -> ptr -> L Z := kind_cond_del as_event.

Definition cond_del (this pstCondPtr : ptr) : L Z :=
  if is_null this then mret ParaErr else
  l ← this_ this;
  if is_time l then time_cond_del this pstCondPtr else event_cond_del this pstCondPtr.

(** The node a handle points to, in the list it was added to, rewritten by
    [f]. *)
Definition upd_node (pstCondPtr : ptr) (f : cond -> L cond) : L unit :=
  h ← load to_node pstCondPtr;
  let owner := pstCondList (stCondPtr h) in
  l ← this_ owner;
  '(l1, k, l2) ← the_set (pCondSetNode (stCondPtr h)) l;
  '(n1, n, n2) ← the_node (pCondNode (stCondPtr h)) k;
  c ← f (stCond n);
  set_this owner (set_sets
    (l1 ++ CondSet (csAddr k) (iCondSetIndex k) (uiCondTrue k) (ucCondCount k)
             (n1 ++ set_node_cond c n :: n2) :: l2) l).

(** The fields a set copies from [i]; a changed time condition is valid again. *)
Definition set_time (t i : time_cond) : time_cond :=
  TimeCond (acTimeKey t) (str_take 32 (tcTriggerType i))
    (str_take 8 (acTriggerInterval i)) (iTriggerInterval t)
    (str_take 8 (acStartHour i)) (str_take 8 (acStartMinu i))
    (str_take 8 (acEndHour i)) (str_take 8 (acEndMinu i))
    (str_take WEEK_MAX_LEN (acWeek i)) (str_take STATE_MAX_LEN (acRepeat i))
    (str_take STATE_MAX_LEN "0").
Definition set_event (e i : event_cond) : event_cond :=
  EventCond (ecDevId e) (ecKey e) (str_take 32 (ecTriggerType i))
    (str_take 8 (acContinueTime i)) (str_take 128 (ecValue i))
    (str_take ACTIVE_MAX_LEN (acActive i)) (str_take 128 (acLastValue i)).

Definition time_cond_set (this : ptr) (pstCondInfo : option time_cond) (pstCondPtr : ptr) : L Z :=
  match pstCondInfo with
  | None => mret ParaErr
  | Some i =>
      if is_null this || is_null pstCondPtr then mret ParaErr else
      upd_node pstCondPtr (fun c => t ← as_time c; mret (CTime (set_time t i))) ;;
      cond_set_db this
  end.

Definition event_cond_set (this : ptr) (pstCondInfo : option event_cond) (pstCondPtr : ptr) : L Z :=
  match pstCondInfo with
  | None => mret ParaErr
  | Some i =>
      if is_null this || is_null pstCondPtr then mret ParaErr else
      upd_node pstCondPtr (fun c => e ← as_event c; mret (CEvent (set_event e i))) ;;
      cond_set_db this
  end.

Definition cond_set_ (this : ptr) (pstCondInfo : option cond) (pstCondPtr : ptr) : L Z :=
  if is_null this then mret ParaErr else
  l ← this_ this;
  match pstCondInfo with
  | None => mret ParaErr
  | Some c =>
      if is_time l
      then t ← as_time c; time_cond_set this (Some t) pstCondPtr
      else e ← as_event c; event_cond_set this (Some e) pstCondPtr
  end.

(** [cond_get]: the result is copied to the caller's struct. *)
Definition cond_get (this pstCondPtr : ptr) : L (Z * option cond) :=
  if is_null this || is_null pstCondPtr then mret (ParaErr, None) else
  h ← load to_node pstCondPtr;
  l ← this_ (pstCondList (stCondPtr h));
  '(l1, k, l2) ← the_set (pCondSetNode (stCondPtr h)) l;
  '(n1, n, n2) ← the_node (pCondNode (stCondPtr h)) k;
  mret (NoErr, Some (stCond n)).

(** [cond_get_list]: the first [*piCount] conditions, their number through
    [piCount]. *)
Definition cond_get_list (this : ptr) (iMax : Z) : L (Z * list cond) :=
  if is_null this then mret (ParaErr, []) else
  l ← this_ this;
  mret (NoErr, take (Z.to_nat iMax) (stCond <$> concat (pstCond <$> sets l))).

Definition cond_clear (this : ptr) : L Z :=
  if is_null this then mret ParaErr else
  l ← this_ this;
  set_this this (set_count 0 (set_sets [] l)) ;;
  mret NoErr.

(** [new_link_list] allocates the parent object and the sentinel. *)
Definition new_cond_list (acId acLogic acCondType : string) : L ptr :=
  pNew ← alloc (OList (CondList [] 0 0 acId acLogic acCondType 0));
  if is_null pNew then mret NULL else
  ok1 ← reserve;
  if negb ok1 then free pNew ;; mret NULL else
  ok2 ← reserve;
  if negb ok2 then free pNew ;; mret NULL else
  l ← this_ pNew;
  set_this pNew (set_truths (if strn_eq LOGIC_MAX_LEN acLogic LOGIC_OR then 0 else 1) l) ;;
  mret pNew.

Definition destroy_cond_list (this : ptr) : L Z :=
  if is_null this then mret ParaErr else
  l ← this_ this;
  (if truth (Z.of_nat (length (sets l))) then cond_clear this else mret 0) ;;
  free this ;;
  mret 0.

(** * Well-formed lists *)

(** [indexed f i xs]: the [j]th element of [xs] has index [i + j]. *)
Fixpoint indexed {A} (f : A -> Z) (i : Z) (xs : list A) : Prop :=
  match xs with [] => True | x :: xs => f x = i /\ indexed f (i + 1) xs end.

Record set_wf (k : cond_set) : Prop := {
  sw_addr : NoDup (cnAddr <$> pstCond k);
  sw_index : indexed iCondIndex 0 (pstCond k);
  sw_len : (1 <= length (pstCond k) <= 32)%nat;
  sw_count : ucCondCount k = Z.of_nat (length (pstCond k))
}.

Definition n_conds (ss : list cond_set) : nat := length (concat (pstCond <$> ss)).

Record sets_wf (ss : list cond_set) : Prop := {
  lw_addr : NoDup (csAddr <$> ss);
  lw_set : Forall set_wf ss;
  lw_len : (length ss <= 32)%nat
}.

Definition list_wf (l : cond_list) : Prop :=
  sets_wf (sets l) /\ indexed iCondSetIndex 0 (sets l) /\
  iCount l = Z.of_nat (n_conds (sets l)).

(** The addresses in use are below [b]. *)
Definition below (b : positive) (ss : list cond_set) : Prop :=
  Forall (fun k => (csAddr k < b)%positive /\ Forall (fun n => (cnAddr n < b)%positive) (pstCond k)) ss.

(** The set at [a] has a node at [b] with condition [c]. *)
Definition holds (ss : list cond_set) (a b : positive) (c : cond) : Prop :=
  exists k n, k ∈ ss /\ csAddr k = a /\ n ∈ pstCond k /\ cnAddr n = b /\ stCond n = c.

Lemma indexed_app {A} (f : A -> Z) i xs ys :
  indexed f i (xs ++ ys) <-> indexed f i xs /\ indexed f (i + Z.of_nat (length xs)) ys.
Proof.
  revert i. induction xs as [|x xs IH]; intros i; simpl.
  - rewrite Z.add_0_r. tauto.
  - rewrite IH. replace (i + 1 + Z.of_nat (length xs)) with (i + Z.of_nat (S (length xs))) by lia.
    tauto.
Qed.

Lemma indexed_lookup {A} (f : A -> Z) xs : forall i j x,
  indexed f i xs -> xs !! j = Some x -> f x = i + Z.of_nat j.
Proof.
  induction xs as [|y xs IH]; intros i j x; [done|]. intros [Hy Hxs].
  destruct j as [|j]; simpl; intros H.
  - injection H as <-. lia.
  - rewrite (IH _ _ _ Hxs H). lia.
Qed.

Lemma indexed_dec i ns : indexed iCondIndex (i + 1) ns -> indexed iCondIndex i (dec_index <$> ns).
Proof.
  revert i. induction ns as [|n ns IH]; intros i; simpl; [done|]. intros [Hn Hns].
  split; [lia|]. by apply IH.
Qed.

Lemma indexed_from ss : forall i, indexed iCondSetIndex i (index_from i ss).
Proof. induction ss as [|k ss IH]; intros i; simpl; [done|]. split; [done|apply IH]. Qed.

Lemma index_from_id ss : forall i, indexed iCondSetIndex i ss -> index_from i ss = ss.
Proof.
  induction ss as [|k ss IH]; intros i; simpl; [done|]. intros [Hk Hss].
  rewrite IH by done. f_equal. destruct k; simpl in *. by subst.
Qed.

Lemma index_from_addr ss : forall i, csAddr <$> index_from i ss = csAddr <$> ss.
Proof. induction ss as [|k ss IH]; intros i; simpl; [done|]. by rewrite IH. Qed.
Lemma index_from_conds ss : forall i, pstCond <$> index_from i ss = pstCond <$> ss.
Proof. induction ss as [|k ss IH]; intros i; simpl; [done|]. by rewrite IH. Qed.
Lemma index_from_length ss i : length (index_from i ss) = length ss.
Proof. revert i. induction ss as [|k ss IH]; intros i; simpl; [done|]. by rewrite IH. Qed.

Lemma index_from_wf ss : forall i, Forall set_wf ss -> Forall set_wf (index_from i ss).
Proof.
  induction ss as [|k ss IH]; intros i; simpl; [done|].
  intros [[? ? ? ?] Hss]%Forall_cons. apply Forall_cons. split; [by split|by apply IH].
Qed.

Lemma index_from_sets_wf i ss : sets_wf ss -> sets_wf (index_from i ss).
Proof.
  intros [Ha Hs Hl]. split; [by rewrite index_from_addr|by apply index_from_wf|].
  by rewrite index_from_length.
Qed.

Lemma index_from_holds ss a b c : forall i, holds (index_from i ss) a b c <-> holds ss a b c.
Proof.
  induction ss as [|k ss IH]; intros i; simpl; [done|].
  unfold holds. setoid_rewrite elem_of_cons. split.
  - intros (k' & n & [->|Hk] & Ha & Hn & Hb & Hc); [exists k, n; naive_solver|].
    destruct (proj1 (IH (i + 1))) as (k2 & n2 & Hk2 & Hr); [by exists k', n|].
    exists k2, n2. tauto.
  - intros (k' & n & [->|Hk] & Ha & Hn & Hb & Hc).
    + eexists _, n. split; [by left|done].
    + destruct (proj2 (IH (i + 1))) as (k2 & n2 & Hk2 & Hr); [by exists k', n|].
      exists k2, n2. tauto.
Qed.

Lemma index_from_below b ss : forall i, below b ss -> below b (index_from i ss).
Proof.
  induction ss as [|k ss IH]; intros i; simpl; [done|]. intros [Hk Hss]%Forall_cons.
  apply Forall_cons. split; [done|by apply IH].
Qed.

Lemma n_conds_app l1 l2 : n_conds (l1 ++ l2) = (n_conds l1 + n_conds l2)%nat.
Proof. unfold n_conds. by rewrite fmap_app, concat_app, length_app. Qed.
Lemma n_conds_cons k l : n_conds (k :: l) = (length (pstCond k) + n_conds l)%nat.
Proof. unfold n_conds. simpl. by rewrite length_app. Qed.
Lemma n_conds_index i ss : n_conds (index_from i ss) = n_conds ss.
Proof. unfold n_conds. by rewrite index_from_conds. Qed.

Lemma holds_app l1 l2 a b c : holds (l1 ++ l2) a b c <-> holds l1 a b c \/ holds l2 a b c.
Proof. unfold holds. setoid_rewrite elem_of_app. naive_solver. Qed.
Lemma holds_cons k l a b c :
  holds (k :: l) a b c <->
  (csAddr k = a /\ exists n, n ∈ pstCond k /\ cnAddr n = b /\ stCond n = c) \/ holds l a b c.
Proof. unfold holds. setoid_rewrite elem_of_cons. naive_solver. Qed.
Lemma holds_addr ss a b c : holds ss a b c -> a ∈ csAddr <$> ss.
Proof. intros (k & n & Hk & <- & _). by apply list_elem_of_fmap_2. Qed.

(** A handle reaches one set and one node. *)
Lemma holds_split ss a b c :
  sets_wf ss -> holds ss a b c ->
  exists l1 k l2 n1 n n2,
    ss = l1 ++ k :: l2 /\ csAddr k = a /\ pstCond k = n1 ++ n :: n2 /\ cnAddr n = b /\ stCond n = c /\
    split_set a ss = Some (l1, k, l2) /\ split_node b (pstCond k) = Some (n1, n, n2).
Proof.
  intros W (k & n & Hk & Ha & Hn & Hb & Hc).
  apply list_elem_of_split in Hk as (l1 & l2 & ->). pose proof Hn as Hn'.
  apply list_elem_of_split in Hn' as (n1 & n2 & Hns).
  exists l1, k, l2, n1, n, n2. split_and!; try done.
  - subst a. apply split_set_in. pose proof (lw_addr _ W) as Hnd.
    rewrite fmap_app in Hnd. apply NoDup_app in Hnd as (_ & Hd & _). intros Hin.
    apply (Hd _ Hin). by left.
  - rewrite Hns. subst b. apply split_node_in.
    pose proof (lw_set _ W) as Hs. apply Forall_app in Hs as [_ [Hw _]%Forall_cons].
    pose proof (sw_addr _ Hw) as Hnd. rewrite Hns, fmap_app in Hnd.
    apply NoDup_app in Hnd as (_ & Hd & _). intros Hin. apply (Hd _ Hin). by left.
Qed.

(** ** One more condition *)

(** A set with a free place: a well-formed one that is not full, or a new one. *)
Record set_room (k : cond_set) : Prop := {
  sr_addr : NoDup (cnAddr <$> pstCond k);
  sr_index : indexed iCondIndex 0 (pstCond k);
  sr_len : (length (pstCond k) < 32)%nat;
  sr_count : ucCondCount k = Z.of_nat (length (pstCond k))
}.

Definition grown (k : cond_set) (new : positive) (c : cond) : cond_set :=
  CondSet (csAddr k) (iCondSetIndex k) (uiCondTrue k) (u8 (ucCondCount k + 1))
    (append_cond new c (pstCond k)).

Lemma append_cond_indexed new c ns :
  indexed iCondIndex 0 ns ->
  append_cond new c ns = ns ++ [CondNode new (Z.of_nat (length ns)) c] .
Proof.
  intros Hi. unfold append_cond. destruct (last ns) as [p|] eqn:Hp.
  - rewrite last_lookup in Hp. rewrite (indexed_lookup _ _ _ _ _ Hi Hp).
    assert (length ns <> 0)%nat by (destruct ns; simpl in *; [done|lia]).
    do 3 f_equal. lia.
  - by apply last_None in Hp as ->.
Qed.

Lemma grown_wf k new c :
  set_room k -> Forall (fun n => cnAddr n <> new) (pstCond k) -> set_wf (grown k new c).
Proof.
  intros [Hnd Hi Hl Hc] Hnew. unfold grown. rewrite append_cond_indexed by done.
  split; cbn [pstCond ucCondCount].
  - rewrite fmap_app. apply NoDup_app. split_and!; [done| |apply NoDup_singleton].
    intros x (n & -> & Hn)%list_elem_of_fmap_1. cbn. rewrite list_elem_of_singleton.
    rewrite Forall_forall in Hnew. by apply Hnew.
  - apply indexed_app. simpl. done.
  - rewrite length_app. simpl. lia.
  - rewrite length_app, Hc. simpl. unfold u8. rewrite Z.mod_small; lia.
Qed.

Lemma grown_holds l1 k l2 new c a b c' :
  set_room k ->
  holds (l1 ++ grown k new c :: l2) a b c' <->
  holds (l1 ++ k :: l2) a b c' \/ (a = csAddr k /\ b = new /\ c' = c).
Proof.
  intros [_ Hi _ _]. rewrite !holds_app, !holds_cons.
  unfold grown. rewrite append_cond_indexed by done. cbn [csAddr pstCond].
  setoid_rewrite elem_of_app. setoid_rewrite list_elem_of_singleton.
  split.
  - intros [?|[(? & n & [?| ->] & ? & ?)|?]]; [tauto|eauto 10|simpl in *; by right|tauto].
  - intros [[?|[(? & n & ? & ?)|?]]|(-> & -> & ->)]; [tauto|eauto 10|tauto|].
    right. left. split; [done|]. eexists. split; [by right|done].
Qed.

Lemma Forall_middle {A} (P : A -> Prop) l1 x l2 :
  Forall P (l1 ++ x :: l2) <-> Forall P (l1 ++ l2) /\ P x.
Proof. rewrite !Forall_app, Forall_cons. tauto. Qed.

Lemma grown_sets l1 k l2 new c :
  NoDup (csAddr <$> l1 ++ k :: l2) -> Forall set_wf (l1 ++ l2) ->
  (length (l1 ++ k :: l2) <= 32)%nat -> set_room k -> below new (l1 ++ k :: l2) ->
  sets_wf (l1 ++ grown k new c :: l2) /\
  n_conds (l1 ++ grown k new c :: l2) = S (n_conds (l1 ++ k :: l2)) /\
  below (Pos.succ new) (l1 ++ grown k new c :: l2).
Proof.
  intros Hnd Hw Hl Hr Hb. pose proof Hb as [Hb' [Hk Hkn]]%Forall_middle.
  assert (Forall (fun n => cnAddr n <> new) (pstCond k)).
  { eapply Forall_impl; [exact Hkn|]. simpl. lia. }
  split_and!.
  - split.
    + rewrite fmap_app in *. exact Hnd.
    + apply Forall_middle. split; [done|by apply grown_wf].
    + rewrite length_app in *. exact Hl.
  - rewrite !n_conds_app, !n_conds_cons. unfold grown. cbn [pstCond].
    rewrite append_cond_indexed, length_app by apply Hr. simpl. lia.
  - apply Forall_middle. split.
    + eapply Forall_impl; [exact Hb'|]. intros k' [? Hn]. split; [lia|].
      eapply Forall_impl; [exact Hn|]. simpl. lia.
    + unfold grown. cbn [csAddr pstCond]. rewrite append_cond_indexed by apply Hr.
      split; [lia|]. apply Forall_app. split; [|by repeat constructor; simpl; lia].
      eapply Forall_impl; [exact Hkn|]. simpl. lia.
Qed.

(** ** One condition less *)

Definition shrunk (k : cond_set) (ns : list cond_node) : cond_set :=
  CondSet (csAddr k) (iCondSetIndex k) (uiCondTrue k) (u8 (ucCondCount k - 1)) ns.

Lemma unlink_app n1 n2 : unlink n1 n2 = n1 ++ (dec_index <$> n2).
Proof. destruct n1, n2; simpl; by rewrite ?app_nil_r. Qed.

Lemma dec_index_addr (ns : list cond_node) : cnAddr <$> (dec_index <$> ns) = cnAddr <$> ns.
Proof. by rewrite <- list_fmap_compose. Qed.

Lemma shrunk_wf k n1 n n2 :
  set_wf k -> pstCond k = n1 ++ n :: n2 -> ucCondCount k <> 1 -> set_wf (shrunk k (unlink n1 n2)).
Proof.
  intros [Hnd Hi Hl Hc] Hns Hne. rewrite Hns, ?length_app in *. simpl in *.
  rewrite fmap_app in Hnd. simpl in Hnd. apply indexed_app in Hi as [Hi1 [_ Hi2]].
  rewrite unlink_app. split; cbn [pstCond ucCondCount shrunk].
  - rewrite fmap_app, dec_index_addr. by apply NoDup_middle in Hnd as [? _].
  - apply indexed_app. split; [done|]. by apply indexed_dec.
  - rewrite length_app, length_fmap. lia.
  - rewrite length_app, length_fmap, Hc. unfold u8. rewrite Z.mod_small; lia.
Qed.

Lemma dec_index_in (ns : list cond_node) b c :
  (exists n, n ∈ dec_index <$> ns /\ cnAddr n = b /\ stCond n = c) <->
  (exists n, n ∈ ns /\ cnAddr n = b /\ stCond n = c).
Proof.
  split.
  - intros (n & (m & -> & Hm)%list_elem_of_fmap_1 & Hb & Hc). by exists m.
  - intros (n & Hn & Hb & Hc). exists (dec_index n). split; [by apply list_elem_of_fmap_2|done].
Qed.

Lemma node_unlink n1 n n2 b c :
  NoDup (cnAddr <$> n1 ++ n :: n2) ->
  (exists m, m ∈ unlink n1 n2 /\ cnAddr m = b /\ stCond m = c) <->
  (exists m, m ∈ n1 ++ n :: n2 /\ cnAddr m = b /\ stCond m = c) /\ b <> cnAddr n.
Proof.
  rewrite fmap_app. intros Hnd. apply NoDup_middle in Hnd as [_ Hn].
  rewrite elem_of_app in Hn. rewrite unlink_app. split.
  - intros (m & Hm & Hb & Hc). apply elem_of_app in Hm as [Hm|Hm].
    + split; [exists m; rewrite elem_of_app; tauto|]. intros ->. apply Hn. left.
      rewrite <- Hb. by apply list_elem_of_fmap_2.
    + destruct (proj1 (dec_index_in n2 b c)) as (m' & Hm' & Hb' & Hc'); [by exists m|].
      split; [exists m'; rewrite elem_of_app, elem_of_cons; tauto|]. intros ->. apply Hn. right.
      rewrite <- Hb'. by apply list_elem_of_fmap_2.
  - intros [(m & Hm & Hb & Hc) Hne]. apply elem_of_app in Hm as [Hm|[->|Hm]%elem_of_cons].
    + exists m. rewrite elem_of_app. tauto.
    + done.
    + destruct (proj2 (dec_index_in n2 b c)) as (m' & Hm' & Hr); [by exists m|].
      exists m'. rewrite elem_of_app. tauto.
Qed.

Lemma sets_addr_unique l1 k l2 a b c :
  NoDup (csAddr <$> l1 ++ k :: l2) -> holds (l1 ++ l2) a b c -> a <> csAddr k.
Proof.
  rewrite fmap_app. intros Hnd (m & ? & Hm & <- & _) Heq.
  apply NoDup_middle in Hnd as [_ Hk]. apply Hk.
  apply (list_elem_of_fmap_2 csAddr) in Hm. by rewrite fmap_app, Heq in Hm.
Qed.

(** A set replaced by one with the same address. *)
Lemma holds_middle l1 k l2 a b c :
  holds (l1 ++ k :: l2) a b c <->
  holds (l1 ++ l2) a b c \/
  (a = csAddr k /\ exists n, n ∈ pstCond k /\ cnAddr n = b /\ stCond n = c).
Proof. rewrite !holds_app, holds_cons. intuition congruence. Qed.

Lemma shrunk_holds l1 k l2 n1 n n2 a b c :
  NoDup (csAddr <$> l1 ++ k :: l2) -> set_wf k -> pstCond k = n1 ++ n :: n2 ->
  holds (l1 ++ shrunk k (unlink n1 n2) :: l2) a b c <->
  holds (l1 ++ k :: l2) a b c /\ (a, b) <> (csAddr k, cnAddr n).
Proof.
  intros Hnd Hw Hns. rewrite !holds_middle. cbn [csAddr pstCond shrunk].
  pose proof (sets_addr_unique l1 k l2 a b c Hnd) as Hne.
  pose proof (sw_addr _ Hw) as Hnn. rewrite Hns in Hnn.
  rewrite (node_unlink n1 n n2 b c Hnn), Hns. split.
  - intros [Hh|(-> & Hx & Hb)]; [split; [tauto|intros [= ]; by apply Hne]|].
    split; [tauto|]. intros [= ?]; done.
  - intros [[Hh|(-> & Hx)] Hp]; [tauto|]. right. split_and!; [done..|]. intros ->. by apply Hp.
Qed.

Lemma removed_holds l1 k l2 n a b c :
  NoDup (csAddr <$> l1 ++ k :: l2) -> pstCond k = [n] ->
  holds (l1 ++ l2) a b c <->
  holds (l1 ++ k :: l2) a b c /\ (a, b) <> (csAddr k, cnAddr n).
Proof.
  intros Hnd Hns. rewrite (holds_middle l1 k l2).
  pose proof (sets_addr_unique l1 k l2 a b c Hnd) as Hne. rewrite Hns. split.
  - intros Hh. split; [tauto|]. intros [= ]; by apply Hne.
  - intros [[Hh|(-> & m & ->%list_elem_of_singleton & <- & _)] Hp]; [done|done].
Qed.

(** * Runs of the operations *)

Definition drop_db (g : env) : env :=
  set_db (tl (db_results g)) g.
Definition db_answer (g : env) (err : Z) : Z :=
  if hd NoErr (db_results g) =? NoErr then NoErr else err.

Lemma wp_clist s a l (Q : cond_list -> mem -> Prop) :
  cells s !! a = Some (OList l) -> Q l s -> wp (this_ (Some a)) s Q.
Proof. intros Ha HQ. unfold this_. eapply wp_load; [exact Ha|reflexivity|exact HQ]. Qed.
Lemma wp_set_clist s a o l (Q : unit -> mem -> Prop) :
  cells s !! a = Some o -> Q tt (upd a (OList l) s) -> wp (set_this (Some a) l) s Q.
Proof. intros Ha HQ. unfold set_this. by eapply wp_store. Qed.

Lemma wp_request s a l err (Q : Z -> mem -> Prop) :
  cells s !! a = Some (OList l) -> ucInitFlag l = 0 ->
  Q (db_answer (glob s) err) (with_glob drop_db s) -> wp (request (Some a) err) s Q.
Proof.
  intros Ha Hf HQ. unfold request. wp_step. eapply wp_clist; [exact Ha|]. rewrite Hf.
  change (1 =? 0) with false. cbv iota. wp_step. unfold wp at 1, db_request.
  unfold db_answer in HQ. destruct (hd NoErr (db_results (glob s)) =? NoErr) eqn:He;
    cbn [negb]; wp_steps; exact HQ.
Qed.

Lemma wp_the_set s l l1 k l2 (Q : _ -> mem -> Prop) :
  sets l = l1 ++ k :: l2 -> csAddr k ∉ csAddr <$> l1 ->
  Q (l1, k, l2) s -> wp (the_set (Some (csAddr k)) l) s Q.
Proof.
  intros Hl Hk HQ. unfold the_set. eapply wp_get_or; [|exact HQ].
  rewrite Hl. by apply split_set_in.
Qed.

Definition with_place (h : ptr_node) (this a b : positive) : ptr_node :=
  PtrNode (PtrInfo (piId (stCondPtr h)) (pstScene (stCondPtr h)) (Some this) (Some a) (Some b)
             (pScenePanelNode (stCondPtr h))) (pnNext h) (pnPrev h).

(** What the addition leaves in the list. *)
Definition added (l : cond_list) (ss : list cond_set) : cond_list :=
  let n := s32 (iCount l + 1) in
  if 1 =? n then set_truths 0 (set_count n (set_sets ss l)) else set_count n (set_sets ss l).

Lemma added_sets l ss : sets (added l ss) = ss.
Proof. unfold added. by destruct (1 =? _). Qed.
Lemma added_count l ss : iCount (added l ss) = s32 (iCount l + 1).
Proof. unfold added. by destruct (1 =? _). Qed.
Lemma added_flag l ss : ucInitFlag (added l ss) = ucInitFlag l.
Proof. unfold added. by destruct (1 =? _). Qed.
Lemma added_kind l ss : acCondType (added l ss) = acCondType l.
Proof. unfold added. by destruct (1 =? _). Qed.

Lemma add_to_set_spec s this l l1 k l2 c p h :
  cells s !! this = Some (OList l) -> ucInitFlag l = 0 ->
  cells s !! p = Some (OPtrNode h) -> oom s = [] ->
  sets l = l1 ++ k :: l2 -> csAddr k ∉ csAddr <$> l1 ->
  wp (add_to_set (Some this) (Some (csAddr k)) c (Some p)) s (fun r s' =>
    r = db_answer (glob s) SceneAddErr /\
    s' = Heap (<[p := OPtrNode (with_place h this (csAddr k) (brk s))]>
                 (<[this := OList (added l (l1 ++ grown k (brk s) c :: l2))]> (cells s)))
              (Pos.succ (brk s)) [] (drop_db (glob s))).
Proof.
  intros Ht Hf Hp Ho Hl Hk. assert (this <> p) as Hne by congruence.
  unfold add_to_set. wp_step. apply wp_fresh; rewrite Ho; [done|]. intros _. cbn [tl].
  wp_step. eapply wp_clist; [exact Ht|]. wp_step. eapply wp_the_set; [exact Hl|exact Hk|].
  cbv beta iota zeta. wp_step. eapply wp_set_clist; [exact Ht|].
  wp_step. eapply wp_load; [by (simpl; rewrite lookup_insert_ne)|reflexivity|].
  wp_step. eapply wp_store; [by (simpl; rewrite lookup_insert_ne)|].
  eapply wp_request; [simpl; rewrite lookup_insert_ne by done; apply lookup_insert_eq| |].
  { change (ucInitFlag (added l (l1 ++ grown k (brk s) c :: l2)) = 0). by rewrite added_flag. }
  split; reflexivity.
Qed.

(** The list's declared type is the type of its conditions. *)
Definition kind_of (l : cond_list) (c : cond) : Prop :=
  match c with CTime _ => is_time l = true | CEvent _ => is_time l = false end.

(** ** Additions *)

Lemma find_room_None ss : Forall set_wf ss -> find_room ss = NULL -> n_conds ss = (32 * length ss)%nat.
Proof.
  induction ss as [|k ss IH]; [done|]. intros [Hw Hss]%Forall_cons. cbn [find_room].
  destruct (Z.ltb_spec (ucCondCount k) 32) as [|Hge]; [done|]. intros Hr.
  rewrite n_conds_cons, (IH Hss Hr). destruct Hw as [_ _ Hl Hc]. simpl. lia.
Qed.

Lemma find_room_Some ss a :
  Forall set_wf ss -> find_room ss = Some a ->
  exists l1 k l2, ss = l1 ++ k :: l2 /\ csAddr k = a /\ (length (pstCond k) < 32)%nat.
Proof.
  induction ss as [|k ss IH]; [done|]. intros [Hw Hss]%Forall_cons. cbn [find_room].
  destruct (Z.ltb_spec (ucCondCount k) 32) as [Hlt|].
  - intros [= <-]. exists [], k, ss. split_and!; [done..|]. rewrite (sw_count _ Hw) in Hlt. lia.
  - intros Hr. destruct (IH Hss Hr) as (l1 & k' & l2 & -> & ? & ?). by exists (k :: l1), k', l2.
Qed.

Lemma n_conds_bound ss : Forall set_wf ss -> (n_conds ss <= 32 * length ss)%nat.
Proof.
  induction ss as [|k ss IH]; [done|]. intros [Hw Hss]%Forall_cons. rewrite n_conds_cons.
  pose proof (IH Hss). destruct Hw as [_ _ Hl _]. simpl. lia.
Qed.

Lemma set_wf_room k : set_wf k -> (length (pstCond k) < 32)%nat -> set_room k.
Proof. intros [? ? ? ?] ?. by split. Qed.

Lemma new_set_room a : set_room (new_set a).
Proof. split; simpl; [apply NoDup_nil_2|done|lia|done]. Qed.

(** What an addition of [c] through the handle [p] does. *)
Record add_effect (s s' : mem) (this p : positive) (l : cond_list) (c : cond) : Prop := {
  ae_handle : exists a h l',
    cells s' = <[p := OPtrNode (with_place h this a (Pos.pred (brk s')))]>
                 (<[this := OList l']> (cells s)) /\
    list_wf l' /\ below (brk s') (sets l') /\ iCount l' = iCount l + 1 /\
    acCondType l' = acCondType l /\ ucInitFlag l' = ucInitFlag l /\
    (forall a0 b0 c0, holds (sets l') a0 b0 c0 <->
       holds (sets l) a0 b0 c0 \/ (a0 = a /\ b0 = Pos.pred (brk s') /\ c0 = c)) /\
    (forall a0 b0 c0, holds (sets l) a0 b0 c0 -> b0 <> Pos.pred (brk s'));
  ae_oom : oom s' = [];
  ae_brk : (brk s < brk s')%positive;
  ae_glob : glob s' = drop_db (glob s)
}.

Lemma below_holds b ss a0 b0 c0 : below b ss -> holds ss a0 b0 c0 -> (b0 < b)%positive.
Proof.
  intros Hb (k & n & Hk & _ & Hn & <- & _). unfold below in Hb. rewrite Forall_forall in Hb.
  destruct (Hb k Hk) as [_ Hns]. rewrite Forall_forall in Hns. by apply Hns.
Qed.

Lemma below_mono b b' ss : (b <= b')%positive -> below b ss -> below b' ss.
Proof.
  intros Hle Hb. eapply Forall_impl; [exact Hb|]. intros k [? Hn]. split; [lia|].
  eapply Forall_impl; [exact Hn|]. simpl. lia.
Qed.

(** The state in which a set with a free place has been found or made. *)
Lemma add_to_set_effect s0 s1 this p h l m1 k m2 c :
  list_wf l -> ucInitFlag l = 0 -> (n_conds (sets l) < 1024)%nat ->
  cells s1 = <[this := OList (set_sets (m1 ++ k :: m2) l)]> (cells s0) ->
  cells s0 !! p = Some (OPtrNode h) -> this <> p ->
  oom s1 = [] -> (brk s0 <= brk s1)%positive -> glob s1 = glob s0 ->
  indexed iCondSetIndex 0 (m1 ++ k :: m2) -> NoDup (csAddr <$> m1 ++ k :: m2) ->
  Forall set_wf (m1 ++ m2) -> (length (m1 ++ k :: m2) <= 32)%nat -> set_room k ->
  below (brk s1) (m1 ++ k :: m2) -> n_conds (m1 ++ k :: m2) = n_conds (sets l) ->
  (forall a b c, holds (m1 ++ k :: m2) a b c <-> holds (sets l) a b c) ->
  wp (add_to_set (Some this) (Some (csAddr k)) c (Some p)) s1 (fun r s' =>
    r = db_answer (glob s0) SceneAddErr /\ add_effect s0 s' this p l c).
Proof.
  intros (W & Hx & Hc) Hf Hn Hcells Hp Hne Ho Hbrk Hg Hi Hnd Hw Hl Hr Hb Hnc Hh.
  eapply wp_mono.
  { eapply (add_to_set_spec s1 this (set_sets (m1 ++ k :: m2) l) m1 k m2 c p h).
    - rewrite Hcells. apply lookup_insert_eq.
    - done.
    - rewrite Hcells. by rewrite lookup_insert_ne.
    - done.
    - done.
    - pose proof Hnd as Hnd'. rewrite fmap_app in Hnd'.
      apply NoDup_middle in Hnd' as [_ Hk]. rewrite elem_of_app in Hk. tauto. }
  intros r s' [-> ->]. split; [by rewrite Hg|].
  destruct (grown_sets m1 k m2 (brk s1) c Hnd Hw Hl Hr Hb) as (W' & Hn' & Hb').
  split; cbn [cells brk oom glob]; [|done|lia|by rewrite Hg].
  exists (csAddr k), h. eexists. rewrite Hcells, insert_insert_eq, Pos.pred_succ, added_sets, added_count.
  cbn [set_sets iCount].
  assert (s32 (iCount l + 1) = iCount l + 1) as Hs.
  { rewrite s32_small; [done|]. unfold INT_MIN, INT_MAX. lia. }
  split_and!; [done| |exact Hb'|exact Hs|by rewrite added_kind|by rewrite added_flag| |].
  - unfold list_wf. rewrite added_sets, added_count. split_and!; [done| |].
    + apply indexed_app in Hi as [Hi1 [Hi2 Hi3]]. apply indexed_app. done.
    + cbn [set_sets iCount]. lia.
  - intros a0 b0 c0. rewrite grown_holds, Hh by done. done.
  - intros a0 b0 c0 Hh0. apply Hh in Hh0. pose proof (below_holds _ _ _ _ _ Hb Hh0). lia.
Qed.

Lemma set_sets_id l : set_sets (sets l) l = l.
Proof. by destruct l. Qed.

(** Adding the set [new], at the end or at the front. *)
Lemma new_set_effect s this p h l b m1 m2 c :
  list_wf l -> ucInitFlag l = 0 -> (n_conds (sets l) < 1024)%nat -> below (brk s) (sets l) ->
  cells s !! this = Some (OList l) -> cells s !! p = Some (OPtrNode h) -> oom s = [] ->
  (length (sets l) < 32)%nat -> (m1 ++ m2 = sets l) -> b = brk s ->
  wp (cond_list_update_index (Some this) ;;
      add_to_set (Some this) (Some (csAddr (new_set b))) c (Some p))
    (Heap (<[this := OList (set_sets (m1 ++ new_set b :: m2) l)]> (cells s)) (Pos.succ (brk s)) [] (glob s))
    (fun r s' => r = db_answer (glob s) SceneAddErr /\ add_effect s s' this p l c).
Proof.
  intros Hlw Hf Hn Hbl Ht Hp Ho Hlen Hm ->. assert (this <> p) as Hne by congruence.
  unfold cond_list_update_index. c_red. wp_step. wp_step. eapply wp_clist; [apply lookup_insert_eq|].
  wp_step. eapply wp_set_clist; [apply lookup_insert_eq|]. wp_step. cbn [set_sets sets].
  pose proof (indexed_from (m1 ++ new_set (brk s) :: m2) 0) as Hix.
  pose proof Hlw as ([Hnd Hw Hl] & _ & _).
  assert (Hsplit : index_from 0 (m1 ++ new_set (brk s) :: m2) =
    index_from 0 m1 ++ CondSet (brk s) (Z.of_nat (length m1)) 0 0 [] ::
    index_from (Z.of_nat (length m1) + 1) m2).
  { assert (forall i, index_from i (m1 ++ new_set (brk s) :: m2) =
      index_from i m1 ++ CondSet (brk s) (i + Z.of_nat (length m1)) 0 0 [] ::
      index_from (i + Z.of_nat (length m1) + 1) m2) as H; [|by rewrite H].
    clear. induction m1 as [|k m1 IH]; intros i; simpl; [by rewrite Z.add_0_r|].
    rewrite IH. do 3 f_equal; f_equal; lia. }
  assert (Hfresh : brk s ∉ csAddr <$> sets l).
  { intros (k & Hk1 & Hk)%list_elem_of_fmap_1. unfold below in Hbl. rewrite Forall_forall in Hbl.
    destruct (Hbl k Hk). lia. }
  rewrite Hsplit in Hix |- *.
  eapply (add_to_set_effect s _ this p h l _ (CondSet (brk s) (Z.of_nat (length m1)) 0 0 []));
    try done; cbn [cells brk upd with_cells].
  - by rewrite insert_insert_eq.
  - lia.
  - rewrite <- Hsplit, index_from_addr, fmap_app. simpl. apply NoDup_middle.
    rewrite <- fmap_app, Hm. done.
  - apply Forall_app. rewrite <- Hm in Hw. apply Forall_app in Hw as [? ?].
    split; by apply index_from_wf.
  - rewrite <- Hsplit, index_from_length, length_app. simpl. rewrite <- Hm, length_app in Hlen. lia.
  - split; simpl; [apply NoDup_nil_2|done|lia|done].
  - rewrite <- Hsplit. apply index_from_below, Forall_middle. rewrite Hm. split; [|simpl; split; [lia|done]].
    eapply below_mono; [|exact Hbl]. lia.
  - rewrite <- Hsplit, n_conds_index, n_conds_app, n_conds_cons, <- Hm, n_conds_app. simpl. done.
  - intros a b c'. rewrite <- Hsplit, index_from_holds, holds_middle, Hm. cbn [new_set pstCond].
    split; [|by left]. intros [?|(_ & n & Hn0%elem_of_nil & _)]; done.
Qed.

Lemma cond_add_spec s this p h l c :
  list_wf l -> ucInitFlag l = 0 -> kind_of l c -> below (brk s) (sets l) ->
  cells s !! this = Some (OList l) -> cells s !! p = Some (OPtrNode h) -> oom s = [] ->
  wp (cond_add (Some this) (Some c) (Some p)) s (fun r s' =>
    (iCount l = 1024 /\ r = SceneAddErr /\ s' = s) \/
    (iCount l < 1024 /\ r = db_answer (glob s) SceneAddErr /\ add_effect s s' this p l c)).
Proof.
  intros Hlw Hf Hk Hb Ht Hp Ho. assert (this <> p) as Hne by congruence.
  pose proof Hlw as ([Hnd Hw Hl] & Hi & Hc). pose proof (n_conds_bound _ Hw).
  assert (Hroom : forall a, find_room (sets l) = Some a ->
    wp (add_to_set (Some this) (Some a) c (Some p)) s (fun r s' =>
      (iCount l = 1024 /\ r = SceneAddErr /\ s' = s) \/
      (iCount l < 1024 /\ r = db_answer (glob s) SceneAddErr /\ add_effect s s' this p l c))).
  { intros a Ha. destruct (find_room_Some _ _ Hw Ha) as (l1 & k & l2 & Hs & <- & Hlt).
    pose proof Hw as Hw'. rewrite Hs in Hw'. apply Forall_middle in Hw' as [Hw' Hwk].
    assert (n_conds (sets l) < 1024)%nat as Hn.
    { rewrite Hs in Hl |- *. rewrite n_conds_app, n_conds_cons, length_app in *. simpl in Hl.
      apply Forall_app in Hw' as [Hw1 Hw2].
      pose proof (n_conds_bound _ Hw1). pose proof (n_conds_bound _ Hw2). lia. }
    eapply wp_mono; [eapply (add_to_set_effect s s this p h l l1 k l2 c); try done;
      rewrite <- ?Hs; try done|].
    - rewrite set_sets_id, insert_id; done.
    - by apply set_wf_room.
    - intros r s' Hr. right. split; [lia|exact Hr]. }
  assert (Hfull : find_room (sets l) = NULL -> (32 <=? Z.of_nat (length (sets l))) = true ->
    iCount l = 1024).
  { intros Hr H32%Z.leb_le. rewrite Hc, (find_room_None _ Hw Hr). lia. }
  assert (Hlt : find_room (sets l) = NULL -> (32 <=? Z.of_nat (length (sets l))) = false ->
    (length (sets l) < 32 /\ n_conds (sets l) < 1024)%nat).
  { intros Hr H32%Z.leb_gt. rewrite (find_room_None _ Hw Hr). lia. }
  unfold cond_add. c_red. wp_step. eapply wp_clist; [exact Ht|].
  unfold kind_of in Hk. unfold as_time, as_event. destruct c as [c|c]; rewrite Hk; wp_steps.
  - unfold time_cond_add. c_red. wp_step. eapply wp_clist; [exact Ht|].
    destruct (find_room (sets l)) as [a|] eqn:Hr; [by apply Hroom|].
    destruct (32 <=? Z.of_nat (length (sets l))) eqn:H32; [wp_steps; left; auto|].
    destruct (Hlt eq_refl eq_refl) as [Hlen Hn].
    wp_step. apply wp_fresh; rewrite Ho; [done|]. intros _. cbn [tl].
    wp_step. eapply wp_set_clist; [exact Ht|]. wp_step. eapply wp_clist; [apply lookup_insert_eq|].
    cbn [set_sets sets]. rewrite last_snoc. wp_step. eapply wp_get_or; [done|].
    eapply wp_mono; [eapply (new_set_effect s this p h l (brk s) (sets l) []); try done; by rewrite app_nil_r|].
    intros r s' Hr'. right. split; [lia|exact Hr'].
  - unfold event_cond_add. c_red. wp_step. eapply wp_clist; [exact Ht|].
    destruct (find_room (sets l)) as [a|] eqn:Hr; [by apply Hroom|].
    destruct (32 <=? Z.of_nat (length (sets l))) eqn:H32; [wp_steps; left; auto|].
    destruct (Hlt eq_refl eq_refl) as [Hlen Hn].
    wp_step. apply wp_fresh; rewrite Ho; [done|]. intros _. cbn [tl].
    wp_step. eapply wp_set_clist; [exact Ht|]. wp_step. eapply wp_clist; [apply lookup_insert_eq|].
    cbn [set_sets sets head]. wp_step. eapply wp_get_or; [done|].
    eapply wp_mono; [eapply (new_set_effect s this p h l (brk s) [] (sets l)); done|].
    intros r s' Hr'. right. split; [lia|exact Hr'].
Qed.

(** ** Removals *)

Record del_effect (s s' : mem) (this : positive) (l : cond_list) (a b : positive) : Prop := {
  de_list : exists l',
    s' = Heap (<[this := OList l']> (cells s)) (brk s) (oom s) (drop_db (glob s)) /\
    list_wf l' /\ below (brk s) (sets l') /\ iCount l' = iCount l - 1 /\
    acCondType l' = acCondType l /\ ucInitFlag l' = ucInitFlag l /\
    (forall a0 b0 c0, holds (sets l') a0 b0 c0 <->
       holds (sets l) a0 b0 c0 /\ (a0, b0) <> (a, b))
}.

(** The set with one condition, and the set that keeps some. *)
Lemma removed_wf l l1 k l2 n :
  list_wf l -> sets l = l1 ++ k :: l2 -> pstCond k = [n] ->
  sets_wf (l1 ++ l2) /\ S (n_conds (l1 ++ l2)) = n_conds (sets l) /\
  n_conds (sets l) = Z.to_nat (iCount l).
Proof.
  intros ([Hnd Hw Hl] & _ & Hc) Hs Hk. rewrite Hs in *. split_and!.
  - split.
    + rewrite fmap_app in *. simpl in Hnd. by apply NoDup_middle in Hnd as [? _].
    + by apply Forall_middle in Hw as [? _].
    + rewrite length_app in *. simpl in Hl. lia.
  - rewrite !n_conds_app, n_conds_cons, Hk. simpl. lia.
  - lia.
Qed.

Lemma shrunk_list_wf l l1 k l2 n1 n n2 :
  list_wf l -> sets l = l1 ++ k :: l2 -> pstCond k = n1 ++ n :: n2 -> ucCondCount k <> 1 ->
  sets_wf (l1 ++ shrunk k (unlink n1 n2) :: l2) /\
  indexed iCondSetIndex 0 (l1 ++ shrunk k (unlink n1 n2) :: l2) /\
  S (n_conds (l1 ++ shrunk k (unlink n1 n2) :: l2)) = n_conds (sets l).
Proof.
  intros ([Hnd Hw Hl] & Hi & Hc) Hs Hk Hne. rewrite Hs in *. split_and!.
  - split.
    + rewrite fmap_app in *. exact Hnd.
    + apply Forall_middle in Hw as [Hw Hwk]. apply Forall_middle. split; [done|].
      by eapply shrunk_wf.
    + rewrite length_app in *. exact Hl.
  - apply indexed_app in Hi as [Hi1 [Hi2 Hi3]]. apply indexed_app. done.
  - rewrite !n_conds_app, !n_conds_cons, Hk. rewrite unlink_app. cbn [pstCond shrunk].
    rewrite !length_app, length_fmap. simpl. lia.
Qed.

Lemma shrunk_below b l1 k l2 n1 n n2 :
  pstCond k = n1 ++ n :: n2 -> below b (l1 ++ k :: l2) ->
  below b (l1 ++ shrunk k (unlink n1 n2) :: l2).
Proof.
  intros Hk [Hb [Ha Hn]]%Forall_middle. apply Forall_middle. split; [done|]. split; [done|].
  rewrite Hk in Hn. apply Forall_middle in Hn as [[Hn1 Hn2]%Forall_app _].
  cbn [pstCond shrunk]. rewrite unlink_app. apply Forall_app. split; [done|]. by apply Forall_fmap.
Qed.

Lemma del_one s this l c a b p h {C} (as_kind : cond -> L C) :
  list_wf l -> ucInitFlag l = 0 -> below (brk s) (sets l) ->
  cells s !! this = Some (OList l) -> cells s !! p = Some (OPtrNode h) ->
  pstCondList (stCondPtr h) = Some this ->
  pCondSetNode (stCondPtr h) = Some a -> pCondNode (stCondPtr h) = Some b ->
  holds (sets l) a b c -> (exists x, as_kind c = mret x) ->
  wp (kind_cond_del as_kind (Some this) (Some p)) s (fun r s' =>
    (hd NoErr (db_results (glob s)) <> NoErr /\ r = SceneDelErr /\ s' = with_glob drop_db s) \/
    (hd NoErr (db_results (glob s)) = NoErr /\ r = NoErr /\ del_effect s s' this l a b)).
Proof.
  intros Hlw Hf Hb Ht Hp Hown Ha Hbn Hh [x Hx]. pose proof Hlw as (W & Hi & Hc).
  destruct (holds_split _ _ _ _ W Hh) as (l1 & k & l2 & n1 & n & n2 & Hs & Hka & Hns & Hnb & Hnc & Hss & Hsn).
  unfold kind_cond_del. cbn [is_null orb]. wp_step. eapply wp_load; [exact Hp|reflexivity|].
  cbv zeta. rewrite Hown. wp_step. eapply wp_clist; [exact Ht|]. rewrite Ha, Hbn. unfold the_set, the_node.
  wp_step. eapply wp_get_or; [exact Hss|]. cbv beta iota.
  wp_step. eapply wp_get_or; [exact Hsn|]. cbv beta iota. rewrite Hnc, Hx. wp_steps.
  eapply wp_request; [exact Ht|exact Hf|]. unfold db_answer. cbv beta.
  destruct (Z.eqb_spec (hd NoErr (db_results (glob s))) NoErr) as [He|He].
  2:{ change (negb (SceneDelErr =? NoErr)) with true. wp_steps. left. auto. }
  change (negb (NoErr =? NoErr)) with false. cbv iota.
  pose proof (lw_set _ W) as Hw. rewrite Hs in Hw. apply Forall_middle in Hw as [Hw Hwk].
  assert (iCount l <= 1024) as Hmax. { pose proof (n_conds_bound _ (lw_set _ W)). pose proof (lw_len _ W). lia. }
  assert (1 <= iCount l) as Hmin. { rewrite Hc, Hs, n_conds_app, n_conds_cons, Hns, length_app. simpl. lia. }
  assert (s32 (iCount l - 1) = iCount l - 1) as Hs32.
  { apply s32_small. unfold INT_MIN, INT_MAX. lia. }
  destruct (Z.eqb_spec 1 (ucCondCount k)) as [H1|H1].
  - assert (pstCond k = [n]) as Hone.
    { pose proof (sw_count _ Hwk) as Hcnt. rewrite Hns, length_app in Hcnt. simpl in Hcnt.
      destruct n1, n2; simpl in Hcnt; try lia. done. }
    destruct (removed_wf l l1 k l2 n Hlw Hs Hone) as (W' & Hn' & Hn).
    rewrite bool_decide_true by done. cbv beta iota zeta delta [negb].
    wp_step. eapply wp_set_clist; [exact Ht|]. unfold cond_list_update_index. cbn [is_null].
    wp_step. wp_step. eapply wp_clist; [apply lookup_insert_eq|].
    wp_step. eapply wp_set_clist; [apply lookup_insert_eq|]. wp_steps.
    right. split_and!; [done|done|]. split. eexists. split_and!.
    + unfold upd, with_cells, with_glob. cbn [cells brk oom glob]. by rewrite insert_insert_eq.
    + unfold list_wf. destruct (0 =? s32 (iCount l - 1)); cbn [set_sets set_truths set_count sets iCount];
        (split_and!; [by apply index_from_sets_wf|apply indexed_from|rewrite n_conds_index, Hs32; lia]).
    + destruct (0 =? s32 (iCount l - 1)); cbn [set_sets set_truths set_count sets];
        apply index_from_below; rewrite Hs in Hb; by apply Forall_middle in Hb as [? _].
    + by destruct (0 =? s32 (iCount l - 1)).
    + by destruct (0 =? s32 (iCount l - 1)).
    + by destruct (0 =? s32 (iCount l - 1)).
    + intros a0 b0 c0. pose proof (removed_holds l1 k l2 n a0 b0 c0) as Hr.
      rewrite Hs, <- Hka, <- Hnb. pose proof (lw_addr _ W) as Hnd. rewrite Hs in Hnd.
      rewrite <- (Hr Hnd Hone).
      destruct (0 =? s32 (iCount l - 1)); cbn [set_sets set_truths set_count sets];
        apply index_from_holds.
  - cbv zeta. fold (shrunk k (unlink n1 n2)). wp_step. eapply wp_set_clist; [exact Ht|]. wp_step.
    eapply wp_clist; [apply lookup_insert_eq|]. wp_step. eapply wp_set_clist; [apply lookup_insert_eq|]. wp_steps.
    rewrite upd_upd. assert (ucCondCount k <> 1) as H1' by lia.
    destruct (shrunk_list_wf l l1 k l2 n1 n n2 Hlw Hs Hns H1') as (W' & Hi' & Hn').
    right. split_and!; [done|done|]. split. eexists. split_and!; [reflexivity| | | |done|done|];
      cbn [set_sets set_count sets iCount].
    + unfold list_wf. cbn [set_sets set_count sets iCount]. split_and!; [exact W'|exact Hi'|].
      rewrite Hs32. lia.
    + rewrite Hs in Hb. by eapply shrunk_below.
    + exact Hs32.
    + intros a0 b0 c0. rewrite Hs, <- Hka, <- Hnb. apply shrunk_holds; [|done|done].
      pose proof (lw_addr _ W) as Hnd. by rewrite Hs in Hnd.
Qed.

Lemma cond_del_spec s this l c a b p h :
  list_wf l -> ucInitFlag l = 0 -> kind_of l c -> below (brk s) (sets l) ->
  cells s !! this = Some (OList l) -> cells s !! p = Some (OPtrNode h) ->
  pstCondList (stCondPtr h) = Some this ->
  pCondSetNode (stCondPtr h) = Some a -> pCondNode (stCondPtr h) = Some b ->
  holds (sets l) a b c ->
  wp (cond_del (Some this) (Some p)) s (fun r s' =>
    (hd NoErr (db_results (glob s)) <> NoErr /\ r = SceneDelErr /\ s' = with_glob drop_db s) \/
    (hd NoErr (db_results (glob s)) = NoErr /\ r = NoErr /\ del_effect s s' this l a b)).
Proof.
  intros Hlw Hf Hk Hb Ht Hp Hown Ha Hbn Hh. unfold cond_del. c_red.
  wp_step. eapply wp_clist; [exact Ht|]. unfold kind_of in Hk. unfold time_cond_del, event_cond_del.
  destruct c as [c|c]; rewrite Hk; (eapply del_one; try done; by eexists).
Qed.
