(* ===== verification/CondRefine.v ===== *)
(** The contract of a condition list, a finite map from handles to conditions
    with room for 1024, and the theorem that condition_list.c implements it. *)
From stdpp Require Import gmap strings.
From S2P Require Import Prelude Heap CString SceneTimer SceneCond SceneData CondList.

(** * A condition rewritten in place *)

Definition set_cond (c i : cond) : cond :=
  match c, i with
  | CTime t, CTime i => CTime (set_time t i)
  | CEvent e, CEvent i => CEvent (set_event e i)
  | _, _ => c
  end.

Definition rewritten (k : cond_set) (n1 : list cond_node) (n : cond_node) (c : cond) (n2 : list cond_node) : cond_set :=
  CondSet (csAddr k) (iCondSetIndex k) (uiCondTrue k) (ucCondCount k) (n1 ++ set_node_cond c n :: n2).

Lemma rewritten_wf k n1 n n2 c :
  set_wf k -> pstCond k = n1 ++ n :: n2 -> set_wf (rewritten k n1 n c n2).
Proof.
  intros [Hnd Hi Hl Hc] Hns. rewrite Hns in *. split; cbn [pstCond ucCondCount rewritten].
  - rewrite fmap_app in *. exact Hnd.
  - apply indexed_app in Hi as [? [? ?]]. apply indexed_app. done.
  - rewrite length_app in *. exact Hl.
  - rewrite length_app in *. exact Hc.
Qed.

Lemma rewritten_nodes n1 n n2 c b c0 :
  NoDup (cnAddr <$> n1 ++ n :: n2) ->
  (exists m, m ∈ n1 ++ set_node_cond c n :: n2 /\ cnAddr m = b /\ stCond m = c0) <->
  ((exists m, m ∈ n1 ++ n :: n2 /\ cnAddr m = b /\ stCond m = c0) /\ b <> cnAddr n) \/
  (b = cnAddr n /\ c0 = c).
Proof.
  rewrite fmap_app. intros [_ Hn]%NoDup_middle. rewrite elem_of_app in Hn.
  setoid_rewrite elem_of_app. setoid_rewrite elem_of_cons. split.
  - intros (m & [Hm|[->|Hm]] & Hb & Hc); [|right; auto|];
      left; (split; [exists m; tauto|]; intros ->; apply Hn; rewrite <- Hb);
      [left|right]; by apply list_elem_of_fmap_2.
  - intros [[(m & [Hm|[->|Hm]] & Hb & Hc) Hne]|[-> ->]]; [exists m; tauto|done|exists m; tauto|].
    exists (set_node_cond c n). split; [tauto|done].
Qed.

Lemma rewritten_holds l1 k l2 n1 n n2 c a b c0 :
  NoDup (csAddr <$> l1 ++ k :: l2) -> set_wf k -> pstCond k = n1 ++ n :: n2 ->
  holds (l1 ++ rewritten k n1 n c n2 :: l2) a b c0 <->
  (holds (l1 ++ k :: l2) a b c0 /\ (a, b) <> (csAddr k, cnAddr n)) \/
  (a = csAddr k /\ b = cnAddr n /\ c0 = c).
Proof.
  intros Hnd Hw Hns. rewrite !holds_middle. cbn [csAddr pstCond rewritten].
  pose proof (sets_addr_unique l1 k l2 a b c0 Hnd) as Hne.
  pose proof (sw_addr _ Hw) as Hnn. rewrite Hns in Hnn.
  rewrite (rewritten_nodes n1 n n2 c b c0 Hnn), Hns. split.
  - intros [Hh|(-> & [[Hx Hb]|[-> ->]])].
    + left. split; [tauto|]. intros [= ]. by apply Hne.
    + left. split; [tauto|]. intros [= ]. done.
    + right. auto.
  - intros [[[Hh|(-> & Hx)] Hp]|(-> & -> & ->)]; [tauto| |tauto].
    right. split; [done|]. left. split; [done|]. intros ->. by apply Hp.
Qed.

Lemma upd_node_spec s this l c c' a b p h (f : cond -> L cond) :
  list_wf l -> below (brk s) (sets l) ->
  cells s !! this = Some (OList l) -> cells s !! p = Some (OPtrNode h) ->
  pstCondList (stCondPtr h) = Some this ->
  pCondSetNode (stCondPtr h) = Some a -> pCondNode (stCondPtr h) = Some b ->
  holds (sets l) a b c -> f c = mret c' ->
  wp (upd_node (Some p) f) s (fun _ s' => exists l',
    s' = upd this (OList l') s /\ list_wf l' /\ below (brk s) (sets l') /\
    iCount l' = iCount l /\ acCondType l' = acCondType l /\ ucInitFlag l' = ucInitFlag l /\
    (forall a0 b0 c0, holds (sets l') a0 b0 c0 <->
       (holds (sets l) a0 b0 c0 /\ (a0, b0) <> (a, b)) \/ (a0 = a /\ b0 = b /\ c0 = c'))).
Proof.
  intros Hlw Hb Ht Hp Hown Ha Hbn Hh Hfc. pose proof Hlw as ([Hnd Hw Hl] & Hi & Hc).
  destruct (holds_split _ _ _ _ (proj1 Hlw) Hh)
    as (l1 & k & l2 & n1 & n & n2 & Hs & Hka & Hns & Hnb & Hnc & Hss & Hsn).
  unfold upd_node. wp_step. eapply wp_load; [exact Hp|reflexivity|].
  cbv zeta. rewrite Hown. wp_step. eapply wp_clist; [exact Ht|]. rewrite Ha, Hbn. unfold the_set, the_node.
  wp_step. eapply wp_get_or; [exact Hss|]. cbv beta iota.
  wp_step. eapply wp_get_or; [exact Hsn|]. cbv beta iota. rewrite Hnc, Hfc. wp_steps.
  eapply wp_set_clist; [exact Ht|]. fold (rewritten k n1 n c' n2).
  rewrite Hs in Hnd, Hw, Hl, Hi, Hb, Hc. apply Forall_middle in Hw as [Hw Hwk].
  eexists. split; [reflexivity|]. cbn [set_sets sets iCount acCondType ucInitFlag].
  split_and!; [|..|done|done|done|].
  - unfold list_wf. cbn [set_sets sets iCount]. split_and!.
    + split.
      * rewrite fmap_app in *. exact Hnd.
      * apply Forall_middle. split; [done|]. by apply rewritten_wf.
      * rewrite length_app in *. exact Hl.
    + apply indexed_app in Hi as [Hi1 [Hi2 Hi3]]. apply indexed_app. done.
    + rewrite Hc, !n_conds_app, !n_conds_cons. cbn [pstCond rewritten].
      rewrite Hns, !length_app. done.
  - apply Forall_middle in Hb as [Hb [Hka' Hkn]]. apply Forall_middle. split; [done|].
    split; [done|]. cbn [pstCond rewritten]. rewrite Hns in Hkn.
    apply Forall_middle in Hkn as [? ?]. by apply Forall_middle.
  - intros a0 b0 c0. rewrite Hs, <- Hka, <- Hnb. by apply rewritten_holds.
Qed.

(** * The contract *)

Inductive cl_op : Type :=
| CAdd (p : positive) (c : cond) | CDel (p : positive) | CSet (p : positive) (c : cond)
| CGet (p : positive) | CSize.

Inductive cl_out : Type := CInt (z : Z) | CCond (z : Z) (c : option cond).

(** The conditions by handle, the handles that are free, and the answers the
    database will give. *)
Record cl_state : Type := ClState {
  conds : gmap positive cond; spare : gset positive; answers : list Z
}.

Definition answer (st : cl_state) : Z := hd NoErr (answers st).
Definition outcome (st : cl_state) (err : Z) : Z := if answer st =? NoErr then NoErr else err.

(** [None]: a use the contract excludes. *)
Definition cl_step (o : cl_op) (st : cl_state) : option (cl_out * cl_state) :=
  match o with
  | CAdd p c =>
      if decide (p ∈ spare st) then
        if decide (size (conds st) = 1024%nat) then Some (CInt SceneAddErr, st)
        else Some (CInt (outcome st SceneAddErr),
                   ClState (<[p := c]> (conds st)) (spare st ∖ {[p]}) (tl (answers st)))
      else None
  | CDel p =>
      match conds st !! p with
      | Some _ =>
          if answer st =? NoErr
          then Some (CInt NoErr, ClState (delete p (conds st)) ({[p]} ∪ spare st) (tl (answers st)))
          else Some (CInt SceneDelErr, ClState (conds st) (spare st) (tl (answers st)))
      | None => None
      end
  | CSet p i =>
      match conds st !! p with
      | Some c => Some (CInt (outcome st SceneAddErr),
                        ClState (<[p := set_cond c i]> (conds st)) (spare st) (tl (answers st)))
      | None => None
      end
  | CGet p =>
      match conds st !! p with Some c => Some (CCond NoErr (Some c), st) | None => None end
  | CSize => Some (CInt (Z.of_nat (size (conds st))), st)
  end.

Fixpoint cl_run (os : list cl_op) (st : cl_state) : option (list cl_out * cl_state) :=
  match os with
  | [] => Some ([], st)
  | o :: os => '(r, st1) ← cl_step o st; '(rs, st2) ← cl_run os st1; Some (r :: rs, st2)
  end.

Definition cl_exec_step (this : ptr) (o : cl_op) : L cl_out :=
  match o with
  | CAdd p c => r ← cond_add this (Some c) (Some p); mret (CInt r)
  | CDel p => r ← cond_del this (Some p); mret (CInt r)
  | CSet p c => r ← cond_set_ this (Some c) (Some p); mret (CInt r)
  | CGet p => '(r, c) ← cond_get this (Some p); mret (CCond r c)
  | CSize => r ← cond_size this; mret (CInt r)
  end.

Fixpoint cl_exec (this : ptr) (os : list cl_op) : L (list cl_out) :=
  match os with
  | [] => mret []
  | o :: os => r ← cl_exec_step this o; rs ← cl_exec this os; mret (r :: rs)
  end.

(** The conditions an operation passes have the list's kind. *)
Definition op_kind (time : bool) (o : cl_op) : Prop :=
  match o with
  | CAdd _ (CTime _) | CSet _ (CTime _) => time = true
  | CAdd _ (CEvent _) | CSet _ (CEvent _) => time = false
  | _ => True
  end.

(** ** The representation *)

(** Where in the list [this] a handle points to. *)
Definition place (this : positive) (s : mem) (p : positive) : option (positive * positive) :=
  match cells s !! p with
  | Some (OPtrNode h) =>
      match pCondSetNode (stCondPtr h), pCondNode (stCondPtr h) with
      | Some a, Some b => if decide (pstCondList (stCondPtr h) = Some this) then Some (a, b) else None
      | _, _ => None
      end
  | _ => None
  end.

Record cl_list (time : bool) (s : mem) (this : positive) (l : cond_list) (n : nat) : Prop := {
  cr_cell : cells s !! this = Some (OList l);
  cr_wf : list_wf l;
  cr_below : below (brk s) (sets l);
  cr_flag : ucInitFlag l = 0;
  cr_time : is_time l = time;
  cr_kinds : forall a b c, holds (sets l) a b c -> kind_of l c;
  cr_count : iCount l = Z.of_nat n;
  cr_oom : oom s = []
}.

Record cl_handles (this : positive) (s : mem) (l : cond_list) (m : gmap positive cond) (sp : gset positive) : Prop := {
  ch_place : forall p c, m !! p = Some c -> exists a b, place this s p = Some (a, b) /\ holds (sets l) a b c;
  ch_inj : forall p q, is_Some (m !! p) -> is_Some (m !! q) -> place this s p = place this s q -> p = q;
  ch_spare : forall p, p ∈ sp -> m !! p = None /\ exists h, cells s !! p = Some (OPtrNode h)
}.

Definition cl_implements (time : bool) (s : mem) (this : positive) (st : cl_state) : Prop :=
  exists l, cl_list time s this l (size (conds st)) /\ cl_handles this s l (conds st) (spare st) /\
            db_results (glob s) = answers st.

Lemma place_node this s p a b :
  place this s p = Some (a, b) -> exists h, cells s !! p = Some (OPtrNode h) /\
    pstCondList (stCondPtr h) = Some this /\
    pCondSetNode (stCondPtr h) = Some a /\ pCondNode (stCondPtr h) = Some b.
Proof.
  unfold place. destruct (cells s !! p) as [[| h | | | | |]|]; try done.
  destruct (pCondSetNode (stCondPtr h)) eqn:Ha, (pCondNode (stCondPtr h)) eqn:Hb; try done.
  case_decide; [|done]. intros [= -> ->]. by exists h.
Qed.

Lemma place_eq this (s s' : mem) p : cells s' !! p = cells s !! p -> place this s' p = place this s p.
Proof. unfold place. by intros ->. Qed.

Lemma place_this s this l n p time :
  cl_list time s this l n -> is_Some (place this s p) -> p <> this.
Proof. intros R Hp ->. unfold place in Hp. rewrite (cr_cell _ _ _ _ _ R) in Hp. by destruct Hp. Qed.

Lemma spare_this s this l n p time m sp :
  cl_list time s this l n -> cl_handles this s l m sp -> p ∈ sp -> p <> this.
Proof.
  intros R H Hp ->. destruct (ch_spare _ _ _ _ _ H _ Hp) as [_ [h Hh]].
  rewrite (cr_cell _ _ _ _ _ R) in Hh. done.
Qed.

Lemma answer_db (s : mem) (st : cl_state) err :
  db_results (glob s) = answers st -> db_answer (glob s) err = outcome st err.
Proof. intros Hd. unfold db_answer, outcome, answer. by rewrite Hd. Qed.

Lemma holds_fun ss a b c c' : sets_wf ss -> holds ss a b c -> holds ss a b c' -> c = c'.
Proof.
  intros W H H'. destruct (holds_split _ _ _ _ W H) as (? & k & ? & ? & n & ? & _ & _ & _ & _ & <- & E1 & E2).
  destruct (holds_split _ _ _ _ W H') as (? & k' & ? & ? & n' & ? & _ & _ & _ & _ & <- & E1' & E2').
  rewrite E1 in E1'. injection E1' as <- <- <-. rewrite E2 in E2'. by injection E2' as <- <- <-.
Qed.

(** ** The operations *)

Lemma add_implements time s s' this p c l st :
  cl_list time s this l (size (conds st)) -> cl_handles this s l (conds st) (spare st) ->
  db_results (glob s) = answers st -> kind_of l c -> p ∈ spare st ->
  add_effect s s' this p l c ->
  cl_implements time s' this
    (ClState (<[p := c]> (conds st)) (spare st ∖ {[p]}) (tl (answers st))).
Proof.
  intros R H Hd Hk Hp [(a & h & l' & Hc & Hw & Hb & Hn & Hkind & Hf & Hh & Hfr) Ho Hbr Hg].
  pose proof (spare_this _ _ _ _ _ _ _ _ R H Hp) as Hne.
  destruct (ch_spare _ _ _ _ _ H _ Hp) as [Hmp _].
  assert (Hpl : place this s' p = Some (a, Pos.pred (brk s'))).
  { unfold place. rewrite Hc, lookup_insert_eq. cbn. by rewrite decide_True. }
  assert (Hpq : forall q, q <> p -> q <> this -> cells s' !! q = cells s !! q).
  { intros q Hq Hqt. rewrite Hc, !lookup_insert_ne by done. done. }
  assert (Hold : forall q cq, conds st !! q = Some cq -> q <> p /\ exists a0 b0,
    place this s' q = Some (a0, b0) /\ place this s q = Some (a0, b0) /\ holds (sets l) a0 b0 cq).
  { intros q cq Hq. assert (q <> p) as Hqp by congruence. split; [done|].
    destruct (ch_place _ _ _ _ _ H _ _ Hq) as (a0 & b0 & Hq0 & Hh0). exists a0, b0.
    split_and!; [|done|done]. rewrite (place_eq _ s); [done|]. apply Hpq; [done|].
    eapply place_this; [exact R|by eexists]. }
  exists l'. cbn [conds spare answers]. split_and!.
  - split.
    + rewrite Hc, lookup_insert_ne by done. apply lookup_insert_eq.
    + done.
    + done.
    + rewrite Hf. apply R.
    + unfold is_time. rewrite Hkind. apply R.
    + intros a0 b0 c0 [Hh0|(_ & _ & ->)]%Hh; unfold kind_of, is_time in *; rewrite Hkind.
      * by eapply (cr_kinds _ _ _ _ _ R).
      * exact Hk.
    + rewrite Hn, (cr_count _ _ _ _ _ R), map_size_insert_None by done. lia.
    + done.
  - split.
    + intros q cq. destruct (decide (q = p)) as [->|Hq].
      * rewrite lookup_insert_eq. intros [= <-]. do 2 eexists. split; [exact Hpl|]. apply Hh. auto.
      * rewrite lookup_insert_ne by done. intros Hq0.
        destruct (Hold _ _ Hq0) as (_ & a0 & b0 & ? & _ & ?). exists a0, b0. split; [done|].
        apply Hh. by left.
    + assert (Hnew : forall q cq, conds st !! q = Some cq -> place this s' q <> place this s' p).
      { intros q cq Hq Heq. destruct (Hold _ _ Hq) as (_ & a0 & b0 & Hq0 & _ & Hh0).
        rewrite Hpl, Hq0 in Heq. injection Heq as -> ->. by apply (Hfr _ _ _ Hh0). }
      intros q1 q2 Hq1 Hq2 Heq. destruct (decide (q1 = p)) as [->|N1], (decide (q2 = p)) as [->|N2];
        rewrite ?lookup_insert_eq, ?lookup_insert_ne in * by done; [done| | |].
      * destruct Hq2 as [c2 Hq2]. by destruct (Hnew _ _ Hq2).
      * destruct Hq1 as [c1 Hq1]. by destruct (Hnew _ _ Hq1).
      * apply (ch_inj _ _ _ _ _ H); [done|done|].
        destruct Hq1 as [c1 Hq1], Hq2 as [c2 Hq2].
        destruct (Hold _ _ Hq1) as (_ & a1 & b1 & E1 & -> & _).
        destruct (Hold _ _ Hq2) as (_ & a2 & b2 & E2 & -> & _). congruence.
    + intros q [Hq Hqp%not_elem_of_singleton]%elem_of_difference.
      destruct (ch_spare _ _ _ _ _ H _ Hq) as [Hm [hq Hh0]]. split; [by rewrite lookup_insert_ne|].
      exists hq. rewrite Hpq; [done|done|by eapply spare_this].
  - by rewrite Hg, <- Hd.
Qed.

(** An operation that only rewrites the list: the handles stay where they
    point. *)
Lemma rewrite_implements time s s' this l l' st m' sp' ans :
  cl_list time s this l (size (conds st)) -> cl_handles this s l (conds st) (spare st) ->
  cells s' = <[this := OList l']> (cells s) -> brk s' = brk s -> oom s' = oom s ->
  db_results (glob s') = ans -> list_wf l' -> below (brk s) (sets l') ->
  acCondType l' = acCondType l -> ucInitFlag l' = ucInitFlag l ->
  iCount l' = Z.of_nat (size m') ->
  (forall a b c, holds (sets l') a b c -> exists c0, holds (sets l) a b c0 /\ (kind_of l c0 -> kind_of l c)) ->
  (forall p c, m' !! p = Some c -> exists c0 a b, conds st !! p = Some c0 /\
     place this s p = Some (a, b) /\ holds (sets l') a b c) ->
  (forall p, p ∈ sp' -> m' !! p = None /\ (p ∈ spare st \/ is_Some (conds st !! p))) ->
  cl_implements time s' this (ClState m' sp' ans).
Proof.
  intros R H Hc Hb Ho Hd Hw Hbl Hk Hf Hn Hkinds Hm Hsp.
  assert (Hcells : forall q, q <> this -> cells s' !! q = cells s !! q).
  { intros q Hq. by rewrite Hc, lookup_insert_ne. }
  assert (Hpl : forall p, is_Some (conds st !! p) -> place this s' p = place this s p /\ p <> this).
  { intros p [c Hp]. destruct (ch_place _ _ _ _ _ H _ _ Hp) as (a & b & Hpp & _).
    assert (p <> this) by (eapply place_this; [exact R|by eexists]).
    split; [by apply place_eq, Hcells|done]. }
  exists l'. split_and!; [split|split|done]; cbn [conds spare answers].
  - by rewrite Hc, lookup_insert_eq.
  - done.
  - by rewrite Hb.
  - rewrite Hf. apply R.
  - unfold is_time. rewrite Hk. apply R.
  - intros a b c Hh. destruct (Hkinds _ _ _ Hh) as (c0 & Hc0 & Hkc).
    apply (cr_kinds _ _ _ _ _ R) in Hc0. unfold kind_of, is_time in *. rewrite Hk. by apply Hkc.
  - done.
  - rewrite Ho. apply R.
  - intros p c Hp. destruct (Hm _ _ Hp) as (c0 & a & b & Hp0 & Hpp & Hh).
    exists a, b. destruct (Hpl p) as [-> _]; [by eexists|done].
  - intros p q [cp Hp] [cq Hq] Heq. destruct (Hm _ _ Hp) as (c1 & _ & _ & Hp1 & _ & _).
    destruct (Hm _ _ Hq) as (c2 & _ & _ & Hq1 & _ & _).
    apply (ch_inj _ _ _ _ _ H); [by eexists|by eexists|].
    destruct (Hpl p) as [<- _]; [by eexists|]. by destruct (Hpl q) as [<- _]; [eexists|].
  - intros p Hp. destruct (Hsp _ Hp) as [Hn' [Hps|Hpm]]; split; [done| |done|].
    + destruct (ch_spare _ _ _ _ _ H _ Hps) as [_ [h Hh]]. exists h. rewrite Hcells; [done|].
      by eapply spare_this.
    + destruct (Hpl p Hpm) as [_ Hpt]. destruct Hpm as [c Hpm].
      destruct (ch_place _ _ _ _ _ H _ _ Hpm) as (a & b & (h & Hh & _)%place_node & _).
      exists h. by rewrite Hcells.
Qed.

Lemma cl_del_spec time s this p st r st' :
  cl_implements time s this st -> cl_step (CDel p) st = Some (r, st') ->
  wp (cl_exec_step (Some this) (CDel p)) s (fun r' s' => r' = r /\ cl_implements time s' this st').
Proof.
  intros Hi Hs. pose proof Hi as (l & R & H & Hd). pose proof R as [Ht Hw Hb Hf Hti Hks Hn Ho].
  cbn [cl_step cl_exec_step op_kind] in *.
  destruct (conds st !! p) as [c|] eqn:Hp; [|done].
  destruct (ch_place _ _ _ _ _ H _ _ Hp) as (a & b & (h & Hh & Hown & Ha & Hbn)%place_node & Hho).
  wp_step. wp_apply cond_del_spec; [exact Hw|exact Hf|by eapply Hks|exact Hb|exact Ht|exact Hh|exact Hown|exact Ha|exact Hbn|exact Hho|].
  intros r1 s1 Hr. wp_steps. unfold answer in Hs. rewrite <- Hd in Hs.
  destruct Hr as [(He & -> & ->)|(He & -> & [(l' & -> & Hw' & Hb' & Hn' & Hk' & Hf' & Hho')])].
  + apply Z.eqb_neq in He. rewrite He in Hs. injection Hs as <- <-. split; [done|].
    eapply (rewrite_implements time s _ this l l); try done.
    * cbn. by rewrite insert_id.
    * intros a0 b0 c0 Hx. by exists c0.
    * intros q cq Hq. destruct (ch_place _ _ _ _ _ H _ _ Hq) as (a0 & b0 & ? & ?). by exists cq, a0, b0.
    * intros q Hq. split; [by apply H|by left].
  + rewrite He in Hs. injection Hs as <- <-. split; [done|].
    eapply (rewrite_implements time s _ this l l'); try done.
    * rewrite Hn', Hn, map_size_delete_Some by (by eexists).
      assert (size (conds st) <> 0)%nat; [|lia].
      intros Hz%map_size_empty_inv. by rewrite Hz, lookup_empty in Hp.
    * intros a0 b0 c0 [Hx _]%Hho'. by exists c0.
    * intros q cq [Hqp Hq]%lookup_delete_Some.
      destruct (ch_place _ _ _ _ _ H _ _ Hq) as (a0 & b0 & Hpq & Hhq).
      exists cq, a0, b0. split_and!; [done..|]. apply Hho'. split; [done|].
      intros [= -> ->]. apply Hqp. apply (ch_inj _ _ _ _ _ H); [by eexists..|].
      rewrite Hpq. unfold place. by rewrite Hh, Ha, Hbn, decide_True.
    * intros q [->%elem_of_singleton|Hq]%elem_of_union.
      -- split; [apply lookup_delete_eq|]. right. by eexists.
      -- split; [|by left]. apply lookup_delete_None. right. by apply H.
Qed.

Lemma cl_set_spec time s this p i st r st' :
  cl_implements time s this st -> op_kind time (CSet p i) -> cl_step (CSet p i) st = Some (r, st') ->
  wp (cl_exec_step (Some this) (CSet p i)) s (fun r' s' => r' = r /\ cl_implements time s' this st').
Proof.
  intros Hi Hk Hs. pose proof Hi as (l & R & H & Hd). pose proof R as [Ht Hw Hb Hf Hti Hks Hn Ho].
  cbn [cl_step cl_exec_step op_kind] in *.
  destruct (conds st !! p) as [c|] eqn:Hp; [|done]. injection Hs as <- <-.
  destruct (ch_place _ _ _ _ _ H _ _ Hp) as (a & b & Hpl & Hho).
  pose proof Hpl as (h & Hh & Hown & Ha & Hbn)%place_node. pose proof (Hks _ _ _ Hho) as Hkc.
  assert (Hgo : forall f, f c = mret (set_cond c i) ->
    wp (upd_node (Some p) f ;; cond_set_db (Some this)) s (fun r s' =>
      r = outcome st SceneAddErr /\ cl_implements time s' this
        (ClState (<[p := set_cond c i]> (conds st)) (spare st) (tl (answers st))))).
  { intros f Hfc. wp_step. wp_apply upd_node_spec; [exact Hw|exact Hb|exact Ht|exact Hh|exact Hown|exact Ha|exact Hbn|exact Hho|exact Hfc|].
    intros [] s1 (l' & -> & Hw' & Hb' & Hn' & Hk' & Hf' & Hho').
    unfold cond_set_db. eapply wp_request; [apply lookup_insert_eq|congruence|].
    split; [by apply answer_db|]. eapply (rewrite_implements time s _ this l l'); try done.
    * cbn. by rewrite Hd.
    * rewrite Hn', Hn, map_size_insert_Some by (by eexists). done.
    * intros a0 b0 c0 [[Hx _]|(-> & -> & ->)]%Hho'; [by exists c0|]. exists c. split; [done|].
      unfold kind_of. by destruct c, i.
    * intros q cq [[<- <-]|[Hqp Hq]]%lookup_insert_Some.
      -- exists c, a, b. split_and!; [done..|]. apply Hho'. by right.
      -- destruct (ch_place _ _ _ _ _ H _ _ Hq) as (a0 & b0 & Hpq & Hhq).
         exists cq, a0, b0. split_and!; [done..|]. apply Hho'. left. split; [done|].
         intros [= -> ->]. apply Hqp. symmetry. apply (ch_inj _ _ _ _ _ H); [by eexists..|]. congruence.
    * intros q Hq. split; [|by left]. apply lookup_insert_None. split; [by apply H|].
      intros ->. destruct (ch_spare _ _ _ _ _ H _ Hq). congruence. }
  wp_step. unfold cond_set_. cbn [is_null]. wp_step. eapply wp_clist; [exact Ht|].
  unfold kind_of in Hkc. rewrite Hti in Hkc |- *. destruct i as [i|i], time; try done; cbn [as_time as_event];
    wp_step; wp_step; destruct c as [c|c]; try done.
  + unfold time_cond_set. cbn [is_null orb]. eapply wp_mono; [by apply Hgo|].
    intros r1 s1 [-> ?]. by wp_steps.
  + unfold event_cond_set. cbn [is_null orb]. eapply wp_mono; [by apply Hgo|].
    intros r1 s1 [-> ?]. by wp_steps.
Qed.

Lemma cl_step_spec time s this o st r st' :
  cl_implements time s this st -> op_kind time o -> cl_step o st = Some (r, st') ->
  wp (cl_exec_step (Some this) o) s (fun r' s' =>
    r' = r /\ cl_implements time s' this st').
Proof.
  intros Hi Hk Hs. pose proof Hi as (l & R & H & Hd). pose proof R as [Ht Hw Hb Hf Hti Hks Hn Ho].
  destruct o as [p c|p|p i|p|]; cbn [cl_step cl_exec_step op_kind] in *.
  - destruct (decide (p ∈ spare st)) as [Hp|]; [|done].
    assert (kind_of l c) as Hkc by (unfold kind_of; rewrite Hti; by destruct c).
    destruct (ch_spare _ _ _ _ _ H _ Hp) as [Hmp [h Hh]].
    wp_step. wp_apply cond_add_spec; [exact Hw|exact Hf|exact Hkc|exact Hb|exact Ht|exact Hh|exact Ho|].
    intros r1 s1 [(Hfull & -> & ->)|(Hlt & -> & Hae)]; wp_steps.
    + rewrite decide_True in Hs by lia. by injection Hs as <- <-.
    + rewrite decide_False in Hs by lia. injection Hs as <- <-.
      split; [by rewrite (answer_db _ st)|]. by eapply add_implements.
  - by eapply cl_del_spec.
  - by eapply cl_set_spec.
  - destruct (conds st !! p) as [c|] eqn:Hp; [|done]. injection Hs as <- <-.
    destruct (ch_place _ _ _ _ _ H _ _ Hp) as (a & b & (h & Hh & Hown & Ha & Hbn)%place_node & Hho).
    destruct (holds_split _ _ _ _ (proj1 Hw) Hho) as (l1 & k & l2 & n1 & n & n2 & _ & _ & _ & _ & Hnc & E1 & E2).
    wp_step. unfold cond_get. cbn [is_null orb]. wp_step. eapply wp_load; [exact Hh|reflexivity|].
    wp_step. rewrite Hown. eapply wp_clist; [exact Ht|]. rewrite Ha, Hbn. unfold the_set, the_node.
    wp_step. eapply wp_get_or; [exact E1|]. cbv beta iota. wp_step. eapply wp_get_or; [exact E2|].
    cbv beta iota. wp_steps. by rewrite Hnc.
  - injection Hs as <- <-. wp_step. unfold cond_size. cbn [is_null]. wp_step.
    eapply wp_clist; [exact Ht|]. wp_steps. by rewrite Hn.
Qed.

(** C33: a condition list implements the finite map: every sequence of
    additions, deletions, changes and lookups that respects the handles runs
    without a fault and gives the map's results; an addition is refused exactly
    when the map holds 1024 conditions. *)
Theorem cond_list_refines_map time s this st os rs st' :
  cl_implements time s this st -> Forall (op_kind time) os -> cl_run os st = Some (rs, st') ->
  wp (cl_exec (Some this) os) s (fun rs' s' => rs' = rs /\ cl_implements time s' this st').
Proof.
  revert s st rs. induction os as [|o os IH]; intros s st rs Hi Hk Hr; cbn [cl_run cl_exec] in *.
  { injection Hr as <- <-. by wp_steps. }
  apply Forall_cons in Hk as [Hk Hks].
  destruct (cl_step o st) as [[r st1]|] eqn:Hs; [|done]. simpl in Hr.
  destruct (cl_run os st1) as [[rs1 st2]|] eqn:Hrs; [|done]. simpl in Hr. injection Hr as <- <-.
  wp_step. wp_apply cl_step_spec; [exact Hi|exact Hk|exact Hs|].
  intros r' s1 [-> Hi1]. wp_step. wp_apply IH; [exact Hi1|exact Hks|exact Hrs|].
  intros rs' s2 [-> Hi2]. by wp_steps.
Qed.

(** An empty list implements the empty map. *)
Lemma empty_implements time s this l sp ans :
  cells s !! this = Some (OList l) -> sets l = [] -> iCount l = 0 -> ucInitFlag l = 0 ->
  is_time l = time -> oom s = [] -> db_results (glob s) = ans ->
  (forall p, p ∈ sp -> exists h, cells s !! p = Some (OPtrNode h)) ->
  cl_implements time s this (ClState ∅ sp ans).
Proof.
  intros Ht Hs Hn Hf Hti Ho Hd Hsp. exists l. split_and!; [split|split|done]; cbn [conds spare].
  - done.
  - unfold list_wf. rewrite Hs, Hn. split_and!; [|done|done].
    split; simpl; [apply NoDup_nil_2|by apply Forall_nil|lia].
  - rewrite Hs. by apply Forall_nil.
  - done.
  - done.
  - intros a b c. rewrite Hs. intros (k & n & Hk%elem_of_nil & _). done.
  - by rewrite map_size_empty.
  - done.
  - intros p c Hp. by rewrite lookup_empty in Hp.
  - intros p q [x Hx]. by rewrite lookup_empty in Hx.
  - intros p Hp. split; [apply lookup_empty|by apply Hsp].
Qed.

Definition blank : ptr_node := PtrNode (PtrInfo "" NULL NULL NULL NULL NULL) NULL NULL.
Definition demo_env (answers : list Z) : env := Env answers (Tm 1 9 0) 0 [] [] sync_unused acts0.
Definition demo_clist : mem :=
  Heap (<[1%positive := OList (CondList [] 0 0 "s1" "Or" "Event" 0)]>
         (<[2%positive := OPtrNode blank]> (<[3%positive := OPtrNode blank]> ∅))) 4 [] (demo_env []).
Definition demo_event (dev : string) : event_cond := EventCond dev "Switch" "Instant" "0" "1" "Equ" "".

(** Two conditions in, the first one out, the second one read. *)
Lemma cond_list_refines_map_witness :
  let os := [CAdd 2 (CEvent (demo_event "a")); CAdd 3 (CEvent (demo_event "b")); CDel 2; CGet 3; CSize] in
  exists rs st',
    cl_run os (ClState ∅ {[2%positive; 3%positive]} []) = Some (rs, st') /\
    wp (cl_exec (Some 1%positive) os) demo_clist
      (fun rs' s' => rs' = rs /\ cl_implements false s' 1 st').
Proof.
  intros os. eexists _, _. split; [vm_compute; reflexivity|].
  apply (cond_list_refines_map false demo_clist 1 (ClState ∅ {[2%positive; 3%positive]} []) os).
  - apply (empty_implements _ _ _ (CondList [] 0 0 "s1" "Or" "Event" 0)); try reflexivity.
    intros p Hp. exists blank. apply elem_of_union in Hp as [->%elem_of_singleton| ->%elem_of_singleton];
      reflexivity.
  - repeat constructor.
  - vm_compute. reflexivity.
Defined.
