(* ===== verification/SceneTruth.v ===== *)
(** The truth of a scene's conditions (scene_list.c): one bit per condition,
    per set and per list, and the functions that keep them up to date. *)
From stdpp Require Import gmap strings.
From S2P Require Import Prelude Heap CString SceneTimer SceneCond SceneData CondList.

(** * Bit masks *)

(** [0xFFFFFFFF >> (32 - n)] *)
Definition low_mask (n : Z) : L Z :=
  if (0 <=? 32 - n) && (32 - n <? 32) then mret (Z.shiftr 4294967295 (32 - n)) else fail ShiftRange.
(** [u |= m] or [u &= ~m]. *)
Definition put_bit (u m : Z) (b : bool) : Z := if b then Z.lor u m else Z.land u (Z.lnot m).
Definition any_bit (u m : Z) : bool := truth (Z.land u m).
Definition all_bits (u m : Z) : bool := Z.land u m =? m.

Definition is_or (l : cond_list) : bool := strn_eq LOGIC_MAX_LEN (acLogic l) LOGIC_OR.
Definition is_and (l : cond_list) : bool := strn_eq LOGIC_MAX_LEN (acLogic l) LOGIC_AND.
Definition truth_of (l : cond_list) (u m : Z) : bool :=
  if is_or l then any_bit u m else all_bits u m.

(** * Levels

    The functions below work on a condition (through the handle [i]), its set,
    its list and its scene.  [bit] is the list's bit in [ucCondListTrue]: 0 for
    time lists, 1 for event lists. *)

Definition load_scene (i : ptr_info) : L scene_info := load to_scene (pstScene i).

(** [pCondSet->uiCondTrue & (0x1 << pstCondNode->iCondIndex) ? 1 : 0] *)
Definition cond_bit (i : ptr_info) : L bool :=
  l ← this_ (pstCondList i);
  '(_, k, _) ← the_set (pCondSetNode i) l;
  '(_, n, _) ← the_node (pCondNode i) k;
  m ← shl1 (iCondIndex n);
  mret (any_bit (uiCondTrue k) m).

(** The condition's bit becomes [v]; the new truth of its set. *)
Definition put_cond (i : ptr_info) (v : bool) : L bool :=
  l ← this_ (pstCondList i);
  '(l1, k, l2) ← the_set (pCondSetNode i) l;
  '(_, n, _) ← the_node (pCondNode i) k;
  m ← shl1 (iCondIndex n);
  let u := put_bit (uiCondTrue k) m v in
  set_this (pstCondList i) (set_sets (l1 ++ set_cond_true u k :: l2) l) ;;
  w ← low_mask (ucCondCount k);
  mret (truth_of l u w).

Definition set_bit (i : ptr_info) : L bool :=
  l ← this_ (pstCondList i);
  '(_, k, _) ← the_set (pCondSetNode i) l;
  m ← shl1 (iCondSetIndex k);
  mret (any_bit (uiCondSetTrue l) m).

(** The set's bit becomes [v]; the new truth of its list. *)
Definition put_set (i : ptr_info) (v : bool) : L bool :=
  l ← this_ (pstCondList i);
  '(_, k, _) ← the_set (pCondSetNode i) l;
  m ← shl1 (iCondSetIndex k);
  let u := put_bit (uiCondSetTrue l) m v in
  set_this (pstCondList i) (set_truths u l) ;;
  w ← low_mask (Z.of_nat (length (sets l)));
  mret (truth_of l u w).

(** [pCondLogic]: the part of the scene the list belongs to. *)
Definition logic_of (l : cond_list) (sc : scene_info) : cond_logic :=
  if is_and l then stAndCond sc else stOrCond sc.
Definition with_logic (l : cond_list) (u : Z) (sc : scene_info) : scene_info :=
  let up c := CondLogic u (pstTimeCondList c) (pstEventCondList c) in
  SceneInfo (acSceneId sc) (acSceneName sc) (cManualTriggerFlag sc) (acSceneEnable sc)
    (acExecDelayed sc) (acUpdateTime sc) (acNote sc) (ucSceneCondTrue sc) (pstPanel sc)
    (if is_and l then stOrCond sc else up (stOrCond sc))
    (if is_and l then up (stAndCond sc) else stAndCond sc) (pstAction sc).
Definition with_truth (v : Z) (sc : scene_info) : scene_info :=
  SceneInfo (acSceneId sc) (acSceneName sc) (cManualTriggerFlag sc) (acSceneEnable sc)
    (acExecDelayed sc) (acUpdateTime sc) (acNote sc) v (pstPanel sc)
    (stOrCond sc) (stAndCond sc) (pstAction sc).

Definition list_bit (bit : Z) (i : ptr_info) : L bool :=
  l ← this_ (pstCondList i);
  sc ← load_scene i;
  mret (any_bit (ucCondListTrue (logic_of l sc)) (Z.shiftl 1 bit)).

(** The four cases of the scene's truth. *)
Definition scene_cases (nOr nAnd or_bits and_bits : Z) : bool :=
  let uiTmp := Z.shiftr 4294967295 30 in
  if (0 =? nOr) && (0 =? nAnd) then false
  else if negb (0 =? nOr) && (0 =? nAnd) then any_bit or_bits uiTmp
  else if (0 =? nOr) && negb (0 =? nAnd) then all_bits and_bits uiTmp
  else any_bit or_bits uiTmp && all_bits and_bits uiTmp.

Definition scene_truth (sc : scene_info) : L bool :=
  ot ← this_ (pstTimeCondList (stOrCond sc));
  oe ← this_ (pstEventCondList (stOrCond sc));
  at_ ← this_ (pstTimeCondList (stAndCond sc));
  ae ← this_ (pstEventCondList (stAndCond sc));
  mret (scene_cases (iCount ot + iCount oe) (iCount at_ + iCount ae)
          (ucCondListTrue (stOrCond sc)) (ucCondListTrue (stAndCond sc))).

(** The list's bit becomes [v]; the new truth of the scene. *)
Definition put_list (bit : Z) (i : ptr_info) (v : bool) : L bool :=
  l ← this_ (pstCondList i);
  sc ← load_scene i;
  let sc' := with_logic l (u8 (put_bit (ucCondListTrue (logic_of l sc)) (Z.shiftl 1 bit) v)) sc in
  store (pstScene i) (OScene sc') ;;
  scene_truth sc'.

Definition scene_bit (i : ptr_info) : L bool :=
  sc ← load_scene i; mret (truth (ucSceneCondTrue sc)).
Definition put_scene (i : ptr_info) (v : bool) : L unit :=
  sc ← load_scene i; store (pstScene i) (OScene (with_truth (of_bool v) sc)).

(** * The six functions *)

(** The [_init] functions recompute every level above the condition. *)
Definition init_from_set (bit : Z) (i : ptr_info) (iNewCondSetTrue : bool) : L Z :=
  iNewCondListTrue ← put_set i iNewCondSetTrue;
  iNewSceneTrue ← put_list bit i iNewCondListTrue;
  put_scene i iNewSceneTrue ;;
  mret NoErr.
Definition cond_true_init (bit iCondTrue : Z) (i : ptr_info) : L Z :=
  iNewCondSetTrue ← put_cond i (truth iCondTrue);
  init_from_set bit i iNewCondSetTrue.

Definition handle (p : ptr) : L ptr_info := h ← load to_node p; mret (stCondPtr h).

Definition scene_event_cond_true_init (iCondTrue : Z) (pstCondPtr : ptr) : L Z :=
  i ← handle pstCondPtr; cond_true_init 1 iCondTrue i.
Definition scene_time_cond_true_init (iCondTrue : Z) (pstCondPtr : ptr) : L Z :=
  i ← handle pstCondPtr; cond_true_init 0 iCondTrue i.
Definition scene_event_cond_set_true_init (iCondSetTrue : Z) (pstCondPtr : ptr) : L Z :=
  i ← handle pstCondPtr; init_from_set 1 i (truth iCondSetTrue).
Definition scene_time_cond_set_true_init (iCondSetTrue : Z) (pstCondPtr : ptr) : L Z :=
  i ← handle pstCondPtr; init_from_set 0 i (truth iCondSetTrue).

(** The [_update] functions stop at the first level that does not change. *)
Definition update_levels (bit iNewCondTrue : Z) (i : ptr_info) : L unit :=
  iNewCondSetTrue ← put_cond i (truth iNewCondTrue);
  iOldCondSetTrue ← set_bit i;
  if eqb iNewCondSetTrue iOldCondSetTrue then mret tt else
  iNewCondListTrue ← put_set i iNewCondSetTrue;
  iOldCondListTrue ← list_bit bit i;
  if eqb iNewCondListTrue iOldCondListTrue then mret tt else
  iNewSceneTrue ← put_list bit i iNewCondListTrue;
  iOldSceneTrue ← scene_bit i;
  if eqb iNewSceneTrue iOldSceneTrue then mret tt else
  put_scene i iNewSceneTrue.

(** The condition a handle points to. *)
Definition cond_at (i : ptr_info) : L cond :=
  l ← this_ (pstCondList i);
  '(_, k, _) ← the_set (pCondSetNode i) l;
  '(_, n, _) ← the_node (pCondNode i) k;
  mret (stCond n).

(** [scene_list_exec]: a copy of the scene at the end of the execution queue. *)
Definition scene_list_exec (pstInfo : ptr) : L Z :=
  if is_null pstInfo then mret ParaErr else
  ok ← reserve;
  if negb ok then mret HeapReqErr else
  sc ← load to_scene pstInfo;
  setg (fun g => set_queue
          (exec_queue g ++ [QueueNode (atoi (acExecDelayed sc)) (unix_time g) sc]) g) ;;
  mret NoErr.

(** [scene_task_timer_create] with the handle as the task's argument
    (SceneTimer.v): here, the handle and the delay. *)
Definition start_timer (pstCondPtr : ptr) (secs : Z) : L unit :=
  setg (fun g => set_timers (continue_timers g ++ [(pstCondPtr, secs)]) g).

(** [scene_event_cond_true_update] without its call to itself: whether it makes
    that call. *)
Definition event_update_once (iNewCondTrue : Z) (pstCondPtr : ptr) : L bool :=
  i ← handle pstCondPtr;
  iOldCondTrue ← cond_bit i;
  c ← cond_at i; e ← as_event c;
  let iEveryTrigger := strstr (ecTriggerType e) "Every" in
  (if negb (iNewCondTrue =? of_bool iOldCondTrue) then
     update_levels 1 iNewCondTrue i ;;
     sc ← load_scene i;
     if truth iNewCondTrue && negb iOldCondTrue && truth (ucSceneCondTrue sc) then
       if strstr (ecTriggerType e) "Continue" then
         if 0 <? atoi (acContinueTime e) then start_timer pstCondPtr (atoi (acContinueTime e))
         else _ ← scene_list_exec (pstScene i); mret tt
       else if strstr (ecTriggerType e) "Instant" then _ ← scene_list_exec (pstScene i); mret tt
       else mret tt
     else mret tt
   else mret tt) ;;
  mret (iEveryTrigger && (1 =? iNewCondTrue)).

(** The recursion, with fuel. *)
Fixpoint event_update (fuel : nat) (iNewCondTrue : Z) (pstCondPtr : ptr) : L Z :=
  match fuel with
  | O => fail OutOfFuel
  | S fuel =>
      again ← event_update_once iNewCondTrue pstCondPtr;
      (if (again : bool) then _ ← event_update fuel 0 pstCondPtr; mret tt else mret tt) ;;
      mret NoErr
  end.
Definition scene_event_cond_true_update (iCondTrue : Z) (pstCondPtr : ptr) : L Z :=
  event_update 2 iCondTrue pstCondPtr.

(** The write of [iTriggerInterval] into the node. *)
Definition put_interval (i : ptr_info) (n : Z) : L unit :=
  l ← this_ (pstCondList i);
  '(l1, k, l2) ← the_set (pCondSetNode i) l;
  '(n1, nd, n2) ← the_node (pCondNode i) k;
  t ← as_time (stCond nd);
  set_this (pstCondList i) (set_sets (l1 ++
    CondSet (csAddr k) (iCondSetIndex k) (uiCondTrue k) (ucCondCount k)
      (n1 ++ set_node_cond (CTime (TimeCond (acTimeKey t) (tcTriggerType t) (acTriggerInterval t)
         n (acStartHour t) (acStartMinu t) (acEndHour t) (acEndMinu t) (acWeek t) (acRepeat t)
         (acLose t))) nd :: n2) :: l2) l).

(** Here the handle is a struct of the caller. *)
Definition scene_time_cond_true_update (iNewCondTrue : Z) (i : ptr_info) : L Z :=
  iOldCondTrue ← cond_bit i;
  c ← cond_at i; t ← as_time c;
  let iEveryTrigger := strstr (tcTriggerType t) "Every" in
  (if negb (iNewCondTrue =? of_bool iOldCondTrue) then
     update_levels 0 iNewCondTrue i ;;
     sc ← load_scene i;
     if truth iNewCondTrue && negb iOldCondTrue && truth (ucSceneCondTrue sc) then
       scene_list_exec (pstScene i) ;;
       put_interval i (s32 (atoi (acTriggerInterval t) - 1))
     else mret tt
   else
     sc ← load_scene i;
     if iEveryTrigger && truth iNewCondTrue && truth (ucSceneCondTrue sc) then
       if iTriggerInterval t <=? 0 then
         scene_list_exec (pstScene i) ;;
         put_interval i (s32 (atoi (acTriggerInterval t) - 1))
       else put_interval i (iTriggerInterval t - 1)
     else mret tt) ;;
  mret NoErr.

(** * Masks as sets of bits *)

Lemma any_bit_pow u j : 0 <= j -> any_bit u (Z.shiftl 1 j) = Z.testbit u j.
Proof.
  intros Hj. rewrite shl1_pow by done. unfold any_bit, truth.
  destruct (Z.testbit u j) eqn:Hb.
  - destruct (Z.eqb_spec (Z.land u (2 ^ j)) 0) as [H0|]; [|done].
    assert (Z.testbit (Z.land u (2 ^ j)) j = true) as H.
    { by rewrite Z.land_spec, Hb, Z.pow2_bits_true. }
    by rewrite H0, Z.testbit_0_l in H.
  - destruct (Z.eqb_spec (Z.land u (2 ^ j)) 0) as [|H0]; [done|]. destruct H0.
    apply Z.bits_inj'. intros m Hm. rewrite Z.land_spec, Z.testbit_0_l, Z.pow2_bits_eqb by done.
    destruct (Z.eqb_spec j m) as [->|]; [by rewrite Hb|by rewrite andb_false_r].
Qed.

Lemma put_bit_spec u j v m :
  0 <= j -> 0 <= m ->
  Z.testbit (put_bit u (Z.shiftl 1 j) v) m = if m =? j then v else Z.testbit u m.
Proof.
  intros Hj Hm. rewrite shl1_pow by done. unfold put_bit.
  destruct v; rewrite ?Z.lor_spec, ?Z.land_spec, ?Z.lnot_spec, ?Z.pow2_bits_eqb by done;
    rewrite (Z.eqb_sym j m); destruct (m =? j); rewrite ?orb_true_r, ?orb_false_r, ?andb_true_r, ?andb_false_r; done.
Qed.

(** The truth of the first [n] bits together. *)
Definition bits (u : Z) (n : nat) : list bool := (fun j => Z.testbit u (Z.of_nat j)) <$> seq 0 n.
Definition all_true (bs : list bool) : bool := forallb id bs.
Definition some_true (bs : list bool) : bool := existsb id bs.

Lemma bits_lookup u n j b : bits u n !! j = Some b <-> (j < n)%nat /\ b = Z.testbit u (Z.of_nat j).
Proof.
  unfold bits. rewrite list_lookup_fmap. split.
  - destruct (seq 0 n !! j) as [i|] eqn:Hi; [|done]. apply lookup_seq in Hi as [-> Hlt].
    simpl. intros [= <-]. done.
  - intros [Hlt ->]. rewrite lookup_seq_lt by done. done.
Qed.

Lemma some_true_iff bs : some_true bs = true <-> true ∈ bs.
Proof.
  unfold some_true. rewrite existsb_exists. setoid_rewrite <- list_elem_of_In. split.
  - intros ([] & Hb & Ht); [done|discriminate Ht].
  - intros Hb. by exists true.
Qed.
Lemma all_true_iff bs : all_true bs = true <-> false ∉ bs.
Proof.
  unfold all_true. rewrite forallb_forall. setoid_rewrite <- list_elem_of_In. split.
  - intros Hb Hf. by specialize (Hb _ Hf).
  - intros Hf [] Hb; done.
Qed.

Lemma bits_in u n b : b ∈ bits u n <-> exists j, 0 <= j < Z.of_nat n /\ b = Z.testbit u j.
Proof.
  rewrite list_elem_of_lookup. setoid_rewrite bits_lookup. split.
  - intros (j & Hj & ->). exists (Z.of_nat j). split; [lia|done].
  - intros (j & Hj & ->). exists (Z.to_nat j). rewrite Z2Nat.id by lia. split; [lia|done].
Qed.

Lemma any_bit_ones u n : any_bit u (Z.ones (Z.of_nat n)) = some_true (bits u n).
Proof.
  apply eq_true_iff_eq. rewrite some_true_iff, bits_in. unfold any_bit, truth.
  rewrite Z.land_ones by lia. split.
  - intros Hne%negb_true_iff%Z.eqb_neq.
    assert (exists j, 0 <= j < Z.of_nat n /\ true = Z.testbit u j \/ u mod 2 ^ Z.of_nat n = 0) as [j Hj].
    { destruct (decide (Exists (fun j => Z.testbit u j = true) (Z.of_nat <$> seq 0 n))) as [He|He].
      - apply Exists_exists in He as (j & (i & -> & Hi)%list_elem_of_fmap_1 & Hb).
        apply elem_of_seq in Hi. exists (Z.of_nat i). left. split; [lia|done].
      - exists 0. right. apply Z.bits_inj'. intros m Hm. rewrite Z.testbit_0_l.
        destruct (Z.ltb_spec m (Z.of_nat n)).
        + rewrite Z.mod_pow2_bits_low by lia. apply not_true_iff_false. intros Hb. apply He.
          apply Exists_exists. exists m. split; [|done].
          apply list_elem_of_fmap. exists (Z.to_nat m). split; [lia|]. apply elem_of_seq. lia.
        + apply Z.mod_pow2_bits_high. lia. }
    destruct Hj as [Hj|Hj]; [by exists j|done].
  - intros (j & Hj & Hb). apply negb_true_iff, Z.eqb_neq. intros H0.
    pose proof (Z.mod_pow2_bits_low u (Z.of_nat n) j) as H. rewrite H0, Z.testbit_0_l in H.
    rewrite <- Hb in H. by specialize (H ltac:(lia)).
Qed.

Lemma all_bits_ones u n : all_bits u (Z.ones (Z.of_nat n)) = all_true (bits u n).
Proof.
  apply eq_true_iff_eq. rewrite all_true_iff, bits_in. unfold all_bits. rewrite Z.eqb_eq. split.
  - intros Heq (j & Hj & Hb). assert (Z.testbit (Z.ones (Z.of_nat n)) j = true) as H
      by (apply Z.ones_spec_low; lia).
    rewrite <- Heq, Z.land_spec, <- Hb in H. done.
  - intros Hf. apply Z.bits_inj'. intros m Hm. rewrite Z.land_spec.
    destruct (Z.ltb_spec m (Z.of_nat n)).
    + rewrite Z.ones_spec_low, andb_true_r by lia. apply not_false_iff_true. intros Hb.
      apply Hf. by exists m.
    + by rewrite Z.ones_spec_high, andb_false_r by lia.
Qed.

Lemma low_mask_ones n : (1 <= n <= 32)%nat -> Z.shiftr 4294967295 (32 - Z.of_nat n) = Z.ones (Z.of_nat n).
Proof.
  intros Hn. change 4294967295 with (Z.ones 32). rewrite Z.shiftr_div_pow2 by lia.
  rewrite Z.ones_div_pow2 by lia. f_equal. lia.
Qed.

Lemma wp_low_mask n s (Q : Z -> mem -> Prop) :
  (1 <= n <= 32)%nat -> Q (Z.ones (Z.of_nat n)) s -> wp (low_mask (Z.of_nat n)) s Q.
Proof.
  intros Hn HQ. unfold low_mask. destruct (Z.leb_spec 0 (32 - Z.of_nat n)), (Z.ltb_spec (32 - Z.of_nat n) 32); try lia.
  cbn [andb]. apply wp_ret. by rewrite low_mask_ones.
Qed.
