(* ===== verification/SceneRefine.v ===== *)
(** What the truth bits mean: the invariant that the bits of sets, lists and
    scene agree with those of the conditions, the functions of SceneTruth.v
    that establish and keep it, and when a scene is executed. *)
From stdpp Require Import gmap strings.
From S2P Require Import Prelude Heap CString SceneTimer SceneCond SceneData CondList SceneTruth.

(** * A scene and its four lists

    [x]: the And part (else Or); [t]: the time list (else events). *)

Definition part (sc : scene_info) (x : bool) : cond_logic := if x then stAndCond sc else stOrCond sc.
Definition list_ptr (sc : scene_info) (x t : bool) : ptr :=
  if t then pstTimeCondList (part sc x) else pstEventCondList (part sc x).
Definition list_bits (sc : scene_info) (x : bool) : Z := ucCondListTrue (part sc x).
Definition bit_no (t : bool) : Z := if t then 0 else 1.

Abbreviation lists := (bool -> bool -> cond_list).
Definition upd_pos (Ls : lists) (x t : bool) (l : cond_list) : lists :=
  fun x' t' => if eqb x' x && eqb t' t then l else Ls x' t'.

Record scene_at (s : mem) (a : positive) (sc : scene_info) (Ls : lists) : Prop := {
  sa_scene : cells s !! a = Some (OScene sc);
  sa_lists : forall x t, exists b, list_ptr sc x t = Some b /\ cells s !! b = Some (OList (Ls x t));
  sa_distinct : forall x t x' t', list_ptr sc x t = list_ptr sc x' t' -> x = x' /\ t = t'
}.

Record list_ok (x t : bool) (l : cond_list) : Prop := {
  lo_wf : list_wf l;
  lo_logic : acLogic l = if x then LOGIC_AND else LOGIC_OR;
  lo_type : acCondType l = if t then COND_TIME else COND_EVENT
}.

(** * What the bits mean *)

(** And and Or of truth values. *)
Definition comb (x : bool) (bs : list bool) : bool := if x then all_true bs else some_true bs.
Definition cond_bits (k : cond_set) : list bool := bits (uiCondTrue k) (length (pstCond k)).
Definition cond_truths (l : cond_list) : list bool := concat (cond_bits <$> sets l).

(** The meaning of a scene's condition: the Or part, when it has conditions,
    asks for one of them, the And part for all of its own; without conditions
    the scene is false. *)
Definition n_part (Ls : lists) (x : bool) : nat := n_conds (sets (Ls x true)) + n_conds (sets (Ls x false)).
Definition some_or (Ls : lists) : bool :=
  some_true (cond_truths (Ls false true) ++ cond_truths (Ls false false)).
Definition all_and (Ls : lists) : bool :=
  all_true (cond_truths (Ls true true) ++ cond_truths (Ls true false)).
Definition scene_formula (Ls : lists) : bool :=
  if (n_part Ls false =? 0)%nat then negb (n_part Ls true =? 0)%nat && all_and Ls
  else some_or Ls && all_and Ls.

(** The bits agree with the conditions', but for the set at [ka] of the list
    [x], [t] and the levels above it. *)
Record agree_but (sc : scene_info) (Ls : lists) (x t : bool) (ka : positive) : Prop := {
  ab_list : forall x' t', list_ok x' t' (Ls x' t');
  ab_sets : forall x' t' k, k ∈ sets (Ls x' t') -> (x', t', csAddr k) <> (x, t, ka) ->
    Z.testbit (uiCondSetTrue (Ls x' t')) (iCondSetIndex k) = comb x' (cond_bits k);
  ab_lists : forall x' t', (x', t') <> (x, t) ->
    Z.testbit (list_bits sc x') (bit_no t') = comb x' (cond_truths (Ls x' t'));
  ab_range : forall x', 0 <= list_bits sc x' < 256
}.

Record consistent (sc : scene_info) (Ls : lists) : Prop := {
  co_list : forall x t, list_ok x t (Ls x t);
  co_sets : forall x t k, k ∈ sets (Ls x t) ->
    Z.testbit (uiCondSetTrue (Ls x t)) (iCondSetIndex k) = comb x (cond_bits k);
  co_lists : forall x t, Z.testbit (list_bits sc x) (bit_no t) = comb x (cond_truths (Ls x t));
  co_range : forall x, 0 <= list_bits sc x < 256;
  co_scene : ucSceneCondTrue sc = of_bool (scene_formula Ls)
}.

Lemma consistent_but sc Ls x t ka : consistent sc Ls -> agree_but sc Ls x t ka.
Proof. intros [H1 H2 H3 H4 _]. split; [done| | |done]; intros; [by apply H2|by apply H3]. Qed.

(** The handle [i] points to node [n] of set [k] of the list [x], [t]. *)
Record reaches (sc : scene_info) (a : positive) (Ls : lists) (x t : bool) (i : ptr_info)
    (l1 : list cond_set) (k : cond_set) (l2 : list cond_set)
    (n1 : list cond_node) (n : cond_node) (n2 : list cond_node) : Prop := {
  re_scene : pstScene i = Some a;
  re_list : pstCondList i = list_ptr sc x t;
  re_set : pCondSetNode i = Some (csAddr k);
  re_node : pCondNode i = Some (cnAddr n);
  re_sets : sets (Ls x t) = l1 ++ k :: l2;
  re_nodes : pstCond k = n1 ++ n :: n2
}.

(** ** Combinations *)

Lemma comb_cons x b bs : comb x (b :: bs) = if x then b && comb x bs else b || comb x bs.
Proof. by destruct x. Qed.
Lemma comb_app x b1 b2 : comb x (b1 ++ b2) = if x then comb x b1 && comb x b2 else comb x b1 || comb x b2.
Proof. destruct x; unfold comb, all_true, some_true; [apply forallb_app|apply existsb_app]. Qed.
Lemma comb_concat x bss : comb x (comb x <$> bss) = comb x (concat bss).
Proof.
  induction bss as [|bs bss IH]; [by destruct x|]. rewrite fmap_cons, comb_cons, IH.
  simpl. by rewrite comb_app.
Qed.

Lemma bits_indexed {A} (f : A -> Z) (g : A -> bool) u xs :
  indexed f 0 xs -> (forall k, k ∈ xs -> Z.testbit u (f k) = g k) -> bits u (length xs) = g <$> xs.
Proof.
  intros Hi Hg. apply list_eq. intros j. rewrite list_lookup_fmap.
  destruct (xs !! j) as [k|] eqn:Hk; simpl.
  - apply bits_lookup. split; [by eapply lookup_lt_Some|].
    rewrite <- (Hg k) by (by eapply list_elem_of_lookup_2).
    by rewrite (indexed_lookup _ _ _ _ _ Hi Hk), Z.add_0_l.
  - apply lookup_ge_None. unfold bits. rewrite length_fmap, length_seq. by apply lookup_ge_None.
Qed.

Lemma is_or_ok x t l : list_ok x t l -> is_or l = negb x.
Proof. intros [_ H _]. unfold is_or. rewrite H. by destruct x. Qed.
Lemma is_and_ok x t l : list_ok x t l -> is_and l = x.
Proof. intros [_ H _]. unfold is_and. rewrite H. by destruct x. Qed.

Lemma truth_of_comb x t l u n : list_ok x t l -> truth_of l u (Z.ones (Z.of_nat n)) = comb x (bits u n).
Proof.
  intros Ho. unfold truth_of. rewrite (is_or_ok _ _ _ Ho).
  destruct x; [apply all_bits_ones|apply any_bit_ones].
Qed.

Lemma upd_pos_same Ls x t l : upd_pos Ls x t l x t = l.
Proof. unfold upd_pos. by rewrite !eqb_reflx. Qed.
Lemma upd_pos_other Ls x t l x' t' : (x', t') <> (x, t) -> upd_pos Ls x t l x' t' = Ls x' t'.
Proof. unfold upd_pos. destruct x, t, x', t'; simpl; congruence. Qed.

(** * The levels *)

(** The list after the condition's bit, and after its set's bit, is [v]. *)
Definition with_cond (l1 : list cond_set) (k : cond_set) (l2 : list cond_set) (n : cond_node) (v : bool)
    (l : cond_list) : cond_list :=
  set_sets (l1 ++ set_cond_true (put_bit (uiCondTrue k) (Z.shiftl 1 (iCondIndex n)) v) k :: l2) l.
Definition with_set (k : cond_set) (v : bool) (l : cond_list) : cond_list :=
  set_truths (put_bit (uiCondSetTrue l) (Z.shiftl 1 (iCondSetIndex k)) v) l.

(** [l'] is [l] with other bits and conditions: same sets, chains of the same
    length, same indices. *)
Definition same_shape (l l' : cond_list) : Prop :=
  (csAddr <$> sets l') = (csAddr <$> sets l) /\ iCount l' = iCount l /\
  acLogic l' = acLogic l /\ acCondType l' = acCondType l.

Lemma set_lookup l l1 k l2 :
  list_wf l -> sets l = l1 ++ k :: l2 ->
  csAddr k ∉ (csAddr <$> l1 ++ l2) /\ set_wf k /\ iCondSetIndex k = Z.of_nat (length l1) /\
  (length l1 < 32)%nat /\ (1 <= length (sets l) <= 32)%nat.
Proof.
  intros ([Hnd Hw Hl] & Hi & _) Hs. rewrite Hs in *.
  rewrite fmap_app in Hnd. cbn in Hnd. apply NoDup_middle in Hnd as [_ Hnd].
  apply Forall_middle in Hw as [_ Hw]. apply indexed_app in Hi as [_ [Hi _]].
  rewrite length_app in *. cbn [length] in *. rewrite fmap_app. split_and!; [done|done|lia|lia|lia|lia].
Qed.

Lemma node_lookup k n1 n n2 :
  set_wf k -> pstCond k = n1 ++ n :: n2 ->
  cnAddr n ∉ (cnAddr <$> n1) /\ iCondIndex n = Z.of_nat (length n1) /\ (length n1 < 32)%nat /\
  (1 <= length (pstCond k) <= 32)%nat /\ ucCondCount k = Z.of_nat (length (pstCond k)).
Proof.
  intros [Hnd Hi Hl Hc] Hs. rewrite Hs in *. rewrite fmap_app in Hnd.
  apply NoDup_middle in Hnd as [_ Hnd]. rewrite elem_of_app in Hnd.
  apply indexed_app in Hi as [_ [Hi _]]. rewrite length_app in *. cbn [length] in *.
  split_and!; [tauto|lia|lia|lia|lia|done].
Qed.

Lemma wp_set_at s l l1 k l2 (Q : _ -> mem -> Prop) :
  list_wf l -> sets l = l1 ++ k :: l2 -> Q (l1, k, l2) s -> wp (the_set (Some (csAddr k)) l) s Q.
Proof.
  intros Hw Hs HQ. destruct (set_lookup _ _ _ _ Hw Hs) as [Hk _]. eapply wp_the_set; [exact Hs| |exact HQ].
  rewrite fmap_app, elem_of_app in Hk. tauto.
Qed.
Lemma wp_node_at s k n1 n n2 (Q : _ -> mem -> Prop) :
  set_wf k -> pstCond k = n1 ++ n :: n2 -> Q (n1, n, n2) s -> wp (the_node (Some (cnAddr n)) k) s Q.
Proof.
  intros Hw Hs HQ. destruct (node_lookup _ _ _ _ Hw Hs) as [Hk _]. unfold the_node.
  eapply wp_get_or; [|exact HQ]. rewrite Hs. by apply split_node_in.
Qed.

Section levels.
Context (x t : bool) (i : ptr_info) (b : positive).
Context (l1 : list cond_set) (k : cond_set) (l2 : list cond_set).
Context (Hb : pstCondList i = Some b) (Hset : pCondSetNode i = Some (csAddr k)).

Lemma put_cond_spec s l n1 n n2 v :
  cells s !! b = Some (OList l) -> list_ok x t l -> sets l = l1 ++ k :: l2 ->
  pCondNode i = Some (cnAddr n) -> pstCond k = n1 ++ n :: n2 ->
  wp (put_cond i v) s (fun r s' =>
    s' = upd b (OList (with_cond l1 k l2 n v l)) s /\
    r = comb x (bits (put_bit (uiCondTrue k) (Z.shiftl 1 (iCondIndex n)) v) (length (pstCond k)))).
Proof.
  intros Hl Ho Hs Hn Hns. pose proof (lo_wf _ _ _ Ho) as Hw.
  destruct (set_lookup _ _ _ _ Hw Hs) as (_ & Hwk & _).
  destruct (node_lookup _ _ _ _ Hwk Hns) as (_ & Hi & Hlt & Hlen & Hc).
  unfold put_cond. rewrite Hb, Hset, Hn. wp_step. eapply wp_clist; [exact Hl|].
  wp_step. eapply wp_set_at; [exact Hw|exact Hs|]. cbv beta iota.
  wp_step. eapply wp_node_at; [exact Hwk|exact Hns|]. cbv beta iota.
  wp_step. apply wp_shl1; [lia|]. cbv zeta. wp_step. eapply wp_set_clist; [exact Hl|].
  wp_step. rewrite Hc. apply wp_low_mask; [lia|]. wp_step. split; [done|].
  by eapply truth_of_comb.
Qed.

Lemma cond_bit_spec s l n1 n n2 :
  cells s !! b = Some (OList l) -> list_ok x t l -> sets l = l1 ++ k :: l2 ->
  pCondNode i = Some (cnAddr n) -> pstCond k = n1 ++ n :: n2 ->
  wp (cond_bit i) s (fun r s' => s' = s /\ r = Z.testbit (uiCondTrue k) (iCondIndex n)).
Proof.
  intros Hl Ho Hs Hn Hns. pose proof (lo_wf _ _ _ Ho) as Hw.
  destruct (set_lookup _ _ _ _ Hw Hs) as (_ & Hwk & _).
  destruct (node_lookup _ _ _ _ Hwk Hns) as (_ & Hi & Hlt & Hlen & Hc).
  unfold cond_bit. rewrite Hb, Hset, Hn. wp_step. eapply wp_clist; [exact Hl|].
  wp_step. eapply wp_set_at; [exact Hw|exact Hs|]. cbv beta iota.
  wp_step. eapply wp_node_at; [exact Hwk|exact Hns|]. cbv beta iota.
  wp_step. apply wp_shl1; [lia|]. wp_step. split; [done|]. apply any_bit_pow. lia.
Qed.

Lemma cond_at_spec s l n1 n n2 :
  cells s !! b = Some (OList l) -> list_wf l -> sets l = l1 ++ k :: l2 ->
  pCondNode i = Some (cnAddr n) -> pstCond k = n1 ++ n :: n2 ->
  wp (cond_at i) s (fun r s' => s' = s /\ r = stCond n).
Proof.
  intros Hl Hw Hs Hn Hns. destruct (set_lookup _ _ _ _ Hw Hs) as (_ & Hwk & _).
  unfold cond_at. rewrite Hb, Hset, Hn. wp_step. eapply wp_clist; [exact Hl|].
  wp_step. eapply wp_set_at; [exact Hw|exact Hs|]. cbv beta iota.
  wp_step. eapply wp_node_at; [exact Hwk|exact Hns|]. cbv beta iota. by wp_steps.
Qed.

Lemma set_bit_spec s l :
  cells s !! b = Some (OList l) -> list_ok x t l -> sets l = l1 ++ k :: l2 ->
  wp (set_bit i) s (fun r s' => s' = s /\ r = Z.testbit (uiCondSetTrue l) (iCondSetIndex k)).
Proof.
  intros Hl Ho Hs. pose proof (lo_wf _ _ _ Ho) as Hw.
  destruct (set_lookup _ _ _ _ Hw Hs) as (_ & _ & Hi & Hlt & _).
  unfold set_bit. rewrite Hb, Hset. wp_step. eapply wp_clist; [exact Hl|].
  wp_step. eapply wp_set_at; [exact Hw|exact Hs|]. cbv beta iota.
  wp_step. apply wp_shl1; [lia|]. wp_step. split; [done|]. apply any_bit_pow. lia.
Qed.

Lemma put_set_spec s l v :
  cells s !! b = Some (OList l) -> list_ok x t l -> sets l = l1 ++ k :: l2 ->
  wp (put_set i v) s (fun r s' =>
    s' = upd b (OList (with_set k v l)) s /\
    r = comb x (bits (uiCondSetTrue (with_set k v l)) (length (sets l)))).
Proof.
  intros Hl Ho Hs. pose proof (lo_wf _ _ _ Ho) as Hw.
  destruct (set_lookup _ _ _ _ Hw Hs) as (_ & _ & Hi & Hlt & Hlen).
  unfold put_set. rewrite Hb, Hset. wp_step. eapply wp_clist; [exact Hl|].
  wp_step. eapply wp_set_at; [exact Hw|exact Hs|]. cbv beta iota.
  wp_step. apply wp_shl1; [lia|]. cbv zeta. wp_step. eapply wp_set_clist; [exact Hl|].
  wp_step. apply wp_low_mask; [lia|]. wp_step. split; [done|]. by eapply truth_of_comb.
Qed.
End levels.

(** ** The scene *)

(** The scene with [v] in the bit of the list [x], [t]. *)
Definition with_list (x t v : bool) (l : cond_list) (sc : scene_info) : scene_info :=
  with_logic l (u8 (put_bit (list_bits sc x) (Z.shiftl 1 (bit_no t)) v)) sc.

Lemma logic_of_part x t l sc : list_ok x t l -> logic_of l sc = part sc x.
Proof. intros Ho. unfold logic_of. rewrite (is_and_ok _ _ _ Ho). by destruct x. Qed.

Lemma with_list_ptr x t v l sc x' t' : list_ptr (with_list x t v l sc) x' t' = list_ptr sc x' t'.
Proof. unfold list_ptr, part, with_list, with_logic. cbn. by destruct (is_and l), x', t'. Qed.

Lemma bit_no_range t : 0 <= bit_no t < 2.
Proof. destruct t; simpl; lia. Qed.

Lemma with_list_bits x t v l sc x' t' :
  list_ok x t l ->
  Z.testbit (list_bits (with_list x t v l sc) x') (bit_no t') =
    if eqb x' x && eqb t' t then v else Z.testbit (list_bits sc x') (bit_no t').
Proof.
  intros Ho. unfold list_bits at 1, part, with_list, with_logic. cbn.
  rewrite (is_and_ok _ _ _ Ho). pose proof (bit_no_range t). pose proof (bit_no_range t').
  assert (Hu : Z.testbit (u8 (put_bit (list_bits sc x) (Z.shiftl 1 (bit_no t)) v)) (bit_no t') =
    if eqb t' t then v else Z.testbit (list_bits sc x) (bit_no t')).
  { unfold u8. rewrite Z.mod_pow2_bits_low by lia. rewrite put_bit_spec by lia.
    by destruct t, t'. }
  destruct x, x'; cbn [eqb andb ucCondListTrue]; solve [exact Hu|done].
Qed.

Lemma with_list_range x t v l sc :
  (forall x', 0 <= list_bits sc x' < 256) -> forall x', 0 <= list_bits (with_list x t v l sc) x' < 256.
Proof.
  intros Hr x'. unfold list_bits, part, with_list, with_logic. cbn.
  destruct (is_and l), x'; cbn; try apply Z.mod_pos_bound; try lia.
  - apply (Hr false).
  - apply (Hr true).
Qed.

(** Writing the bit that is there already. *)
Lemma put_bit_id u j v : 0 <= j -> Z.testbit u j = v -> put_bit u (Z.shiftl 1 j) v = u.
Proof.
  intros Hj <-. apply Z.bits_inj'. intros m Hm. rewrite put_bit_spec by done.
  by destruct (Z.eqb_spec m j) as [->|].
Qed.

Lemma with_list_id x t v l sc :
  list_ok x t l -> Z.testbit (list_bits sc x) (bit_no t) = v ->
  0 <= list_bits sc x < 256 -> with_list x t v l sc = sc.
Proof.
  intros Ho Hv Hr. unfold with_list, with_logic. pose proof (bit_no_range t).
  rewrite put_bit_id by (done || lia). unfold u8. rewrite Z.mod_small by done.
  rewrite (is_and_ok _ _ _ Ho). unfold list_bits, part. destruct sc as [? ? ? ? ? ? ? ? ? co ca ?].
  destruct x; cbn; f_equal; [by destruct ca|by destruct co].
Qed.

Lemma with_truth_id v sc : ucSceneCondTrue sc = v -> with_truth v sc = sc.
Proof. intros <-. by destruct sc. Qed.

Lemma with_list_truth x t v l sc : ucSceneCondTrue (with_list x t v l sc) = ucSceneCondTrue sc.
Proof. done. Qed.

Lemma with_truth_ptr v sc x t : list_ptr (with_truth v sc) x t = list_ptr sc x t.
Proof. by destruct x, t. Qed.
Lemma with_truth_bits v sc x : list_bits (with_truth v sc) x = list_bits sc x.
Proof. by destruct x. Qed.

Lemma two_bits (c : bool) u : comb c (bits u 2) = if c then Z.testbit u 0 && Z.testbit u 1 else Z.testbit u 0 || Z.testbit u 1.
Proof. by destruct c; cbn; unfold id; rewrite ?andb_true_r, ?orb_false_r. Qed.

Lemma no_truths l : n_conds (sets l) = 0%nat -> cond_truths l = [].
Proof.
  unfold cond_truths. induction (sets l) as [|k ss IH]; [done|]. rewrite n_conds_cons. intros Hn.
  cbn. rewrite IH by lia. unfold cond_bits. by destruct (pstCond k); [|simpl in Hn; lia].
Qed.

Lemma scene_cases_formula sc Ls :
  (forall x t, list_ok x t (Ls x t)) ->
  (forall x t, Z.testbit (list_bits sc x) (bit_no t) = comb x (cond_truths (Ls x t))) ->
  scene_cases (iCount (Ls false true) + iCount (Ls false false))
    (iCount (Ls true true) + iCount (Ls true false)) (list_bits sc false) (list_bits sc true)
  = scene_formula Ls.
Proof.
  intros Ho Hb.
  assert (Hn : forall x t, iCount (Ls x t) = Z.of_nat (n_conds (sets (Ls x t)))).
  { intros x t. apply (lo_wf _ _ _ (Ho x t)). }
  rewrite !Hn. unfold scene_cases, scene_formula, n_part.
  change (Z.shiftr 4294967295 30) with (Z.ones (Z.of_nat 2)).
  rewrite any_bit_ones, all_bits_ones.
  change (some_true (bits (list_bits sc false) 2)) with (comb false (bits (list_bits sc false) 2)).
  change (all_true (bits (list_bits sc true) 2)) with (comb true (bits (list_bits sc true) 2)).
  rewrite !two_bits.
  assert (Hz : forall n m, (0 =? Z.of_nat n + Z.of_nat m) = (n + m =? 0)%nat).
  { intros n m. destruct (Z.eqb_spec 0 (Z.of_nat n + Z.of_nat m)), (Nat.eqb_spec (n + m) 0); lia || done. }
  rewrite !Hz.
  assert (Hor : Z.testbit (list_bits sc false) (bit_no true) || Z.testbit (list_bits sc false) (bit_no false) = some_or Ls).
  { rewrite !Hb. unfold some_or. by rewrite (comb_app false). }
  assert (Hand : Z.testbit (list_bits sc true) (bit_no true) && Z.testbit (list_bits sc true) (bit_no false) = all_and Ls).
  { rewrite !Hb. unfold all_and. by rewrite (comb_app true). }
  change (bit_no true) with 0 in *. change (bit_no false) with 1 in *. rewrite Hor, Hand.
  destruct ((n_conds (sets (Ls false true)) + n_conds (sets (Ls false false)) =? 0)%nat);
    destruct (Nat.eqb_spec (n_conds (sets (Ls true true)) + n_conds (sets (Ls true false))) 0) as [H0|];
    cbn [andb negb]; try done.
  unfold all_and. rewrite !no_truths by lia. by rewrite andb_true_r.
Qed.

Lemma scene_at_list s a sc Ls x t b l :
  scene_at s a sc Ls -> list_ptr sc x t = Some b -> scene_at (upd b (OList l) s) a sc (upd_pos Ls x t l).
Proof.
  intros [H1 H2 H3] Hb. split; [| |done].
  - cbn. rewrite lookup_insert_ne; [done|]. intros ->.
    destruct (H2 x t) as (b' & Hb' & Hc). congruence.
  - intros x' t'. destruct (H2 x' t') as (b' & Hb' & Hc). exists b'. split; [done|]. cbn.
    destruct (decide ((x', t') = (x, t))) as [[= -> ->]|Hne].
    + rewrite upd_pos_same. assert (b' = b) as -> by congruence. apply lookup_insert_eq.
    + rewrite upd_pos_other by done. rewrite lookup_insert_ne; [done|]. intros ->.
      apply Hne. destruct (H3 x' t' x t) as [-> ->]; congruence.
Qed.

Lemma scene_at_scene s a sc sc' Ls :
  scene_at s a sc Ls -> (forall x t, list_ptr sc' x t = list_ptr sc x t) ->
  scene_at (upd a (OScene sc') s) a sc' Ls.
Proof.
  intros [H1 H2 H3] Hp. split.
  - apply lookup_insert_eq.
  - intros x t. rewrite Hp. destruct (H2 x t) as (b & Hb & Hc). exists b. split; [done|]. cbn.
    rewrite lookup_insert_ne; [done|]. congruence.
  - intros x t x' t'. rewrite !Hp. apply H3.
Qed.

Lemma scene_truth_spec s a sc Ls :
  scene_at s a sc Ls ->
  wp (scene_truth sc) s (fun r s' => s' = s /\
    r = scene_cases (iCount (Ls false true) + iCount (Ls false false))
          (iCount (Ls true true) + iCount (Ls true false)) (list_bits sc false) (list_bits sc true)).
Proof.
  intros [_ H _]. unfold scene_truth.
  destruct (H false true) as (b1 & E1 & C1), (H false false) as (b2 & E2 & C2),
    (H true true) as (b3 & E3 & C3), (H true false) as (b4 & E4 & C4).
  unfold list_ptr, part in *. rewrite E1, E2, E3, E4.
  do 4 (wp_step; eapply wp_clist; [eassumption|]). by wp_steps.
Qed.

Section scene_levels.
Context (a : positive) (x t : bool) (i : ptr_info).
Context (Ha : pstScene i = Some a).

Lemma put_list_spec s sc Ls v :
  scene_at s a sc Ls -> pstCondList i = list_ptr sc x t -> list_ok x t (Ls x t) ->
  wp (put_list (bit_no t) i v) s (fun r s' =>
    let sc' := with_list x t v (Ls x t) sc in
    s' = upd a (OScene sc') s /\
    r = scene_cases (iCount (Ls false true) + iCount (Ls false false))
          (iCount (Ls true true) + iCount (Ls true false)) (list_bits sc' false) (list_bits sc' true)).
Proof.
  intros R Hl Ho. destruct (sa_lists _ _ _ _ R x t) as (b & Hb & Hc).
  unfold put_list, load_scene. rewrite Hl, Hb, Ha. wp_step. eapply wp_clist; [exact Hc|].
  wp_step. eapply wp_load; [apply R|reflexivity|]. cbv zeta.
  rewrite (logic_of_part x t) by done. fold (list_bits sc x). fold (with_list x t v (Ls x t) sc).
  wp_step. eapply wp_store; [apply R|].
  eapply wp_mono; [eapply scene_truth_spec, scene_at_scene; [exact R|]|].
  - intros x' t'. apply with_list_ptr.
  - by intros r s' [-> ->].
Qed.

Lemma list_bit_spec s sc Ls :
  scene_at s a sc Ls -> pstCondList i = list_ptr sc x t -> list_ok x t (Ls x t) ->
  wp (list_bit (bit_no t) i) s (fun r s' => s' = s /\ r = Z.testbit (list_bits sc x) (bit_no t)).
Proof.
  intros R Hl Ho. destruct (sa_lists _ _ _ _ R x t) as (b & Hb & Hc).
  unfold list_bit, load_scene. rewrite Hl, Hb, Ha. wp_step. eapply wp_clist; [exact Hc|].
  wp_step. eapply wp_load; [apply R|reflexivity|]. wp_step. split; [done|].
  rewrite (logic_of_part x t) by done. apply any_bit_pow. apply bit_no_range.
Qed.

Lemma put_scene_spec s sc v :
  cells s !! a = Some (OScene sc) ->
  wp (put_scene i v) s (fun _ s' => s' = upd a (OScene (with_truth (of_bool v) sc)) s).
Proof.
  intros Hs. unfold put_scene, load_scene. rewrite Ha. wp_step.
  eapply wp_load; [exact Hs|reflexivity|]. by eapply wp_store.
Qed.

Lemma scene_bit_spec s sc :
  cells s !! a = Some (OScene sc) ->
  wp (scene_bit i) s (fun r s' => s' = s /\ r = truth (ucSceneCondTrue sc)).
Proof.
  intros Hs. unfold scene_bit, load_scene. rewrite Ha. wp_step.
  eapply wp_load; [exact Hs|reflexivity|]. by wp_steps.
Qed.
End scene_levels.

(** * Agreement, level by level *)

Lemma with_cond_ok x t l l1 k l2 n v :
  list_ok x t l -> sets l = l1 ++ k :: l2 -> list_ok x t (with_cond l1 k l2 n v l).
Proof.
  intros [([Hnd Hw Hl] & Hi & Hc) Hlo Hty] Hs. split; [|done|done].
  unfold list_wf, with_cond. cbn [sets set_sets iCount]. rewrite Hs in *. split_and!.
  - split.
    + rewrite fmap_app in *. exact Hnd.
    + apply Forall_middle in Hw as [Hw [? ? ? ?]]. apply Forall_middle. split; [done|by split].
    + rewrite length_app in *. exact Hl.
  - apply indexed_app in Hi as [? [? ?]]. apply indexed_app. done.
  - rewrite Hc, !n_conds_app, !n_conds_cons. done.
Qed.

Lemma with_set_ok x t l k v : list_ok x t l -> list_ok x t (with_set k v l).
Proof. intros [Hw Hl Ht]. by split. Qed.

(** Addresses tell the sets of a list apart, and indices too. *)
Lemma other_set l l1 k l2 k' :
  list_wf l -> sets l = l1 ++ k :: l2 -> k' ∈ sets l ->
  (csAddr k' <> csAddr k -> k' ∈ l1 ++ l2 /\ iCondSetIndex k' <> iCondSetIndex k) /\
  (csAddr k' = csAddr k -> k' = k).
Proof.
  intros Hw Hs Hk'. destruct (set_lookup _ _ _ _ Hw Hs) as (Hnin & _ & Hik & _).
  rewrite Hs in Hk'. assert (k' = k \/ k' ∈ l1 ++ l2) as Hcase.
  { apply elem_of_app in Hk' as [?|[?|?]%elem_of_cons]; rewrite ?elem_of_app; tauto. }
  split.
  - intros Hne. destruct Hcase as [->|Hin]; [done|]. split; [done|]. intros Heq.
    destruct Hw as (_ & Hi & _). rewrite <- Hs in Hk'.
    apply list_elem_of_lookup in Hk' as [j Hj].
    pose proof (indexed_lookup _ _ _ _ _ Hi Hj) as Hj'. rewrite Hs in Hj.
    assert (j = length l1) by lia. subst j. rewrite list_lookup_middle in Hj by done. congruence.
  - intros Heq. destruct Hcase as [|Hin]; [done|]. destruct Hnin. rewrite <- Heq.
    by apply list_elem_of_fmap_2.
Qed.

Lemma agree_cond sc Ls x t l1 k l2 n v :
  agree_but sc Ls x t (csAddr k) -> sets (Ls x t) = l1 ++ k :: l2 ->
  agree_but sc (upd_pos Ls x t (with_cond l1 k l2 n v (Ls x t))) x t (csAddr k).
Proof.
  intros [H1 H2 H3 H4] Hs. split; [| | |exact H4].
  - intros x' t'. destruct (decide ((x', t') = (x, t))) as [[= -> ->]|Hne].
    + rewrite upd_pos_same. by apply with_cond_ok.
    + by rewrite upd_pos_other.
  - intros x' t' k' Hk' Hne. destruct (decide ((x', t') = (x, t))) as [[= -> ->]|Hne'].
    + rewrite upd_pos_same in *. cbn [with_cond set_sets sets uiCondSetTrue] in *.
      apply H2; [|done]. rewrite Hs.
      apply elem_of_app in Hk' as [?|[->|?]%elem_of_cons]; [set_solver| |set_solver].
      by destruct Hne.
    + rewrite upd_pos_other in * by done. by apply H2.
  - intros x' t' Hne. rewrite upd_pos_other by done. by apply H3.
Qed.

(** All sets agree, the list [x], [t] and the scene may not. *)
Record agree_sets (sc : scene_info) (Ls : lists) (x t : bool) : Prop := {
  as_list : forall x' t', list_ok x' t' (Ls x' t');
  as_sets : forall x' t' k, k ∈ sets (Ls x' t') ->
    Z.testbit (uiCondSetTrue (Ls x' t')) (iCondSetIndex k) = comb x' (cond_bits k);
  as_lists : forall x' t', (x', t') <> (x, t) ->
    Z.testbit (list_bits sc x') (bit_no t') = comb x' (cond_truths (Ls x' t'));
  as_range : forall x', 0 <= list_bits sc x' < 256
}.

Lemma agree_set sc Ls x t l1 k l2 :
  agree_but sc Ls x t (csAddr k) -> sets (Ls x t) = l1 ++ k :: l2 ->
  agree_sets sc (upd_pos Ls x t (with_set k (comb x (cond_bits k)) (Ls x t))) x t.
Proof.
  intros [H1 H2 H3 H4] Hs. pose proof (lo_wf _ _ _ (H1 x t)) as Hw.
  destruct (set_lookup _ _ _ _ Hw Hs) as (_ & _ & Hik & _). split; [| | |exact H4].
  - intros x' t'. destruct (decide ((x', t') = (x, t))) as [[= -> ->]|Hne].
    + rewrite upd_pos_same. by apply with_set_ok.
    + by rewrite upd_pos_other.
  - intros x' t' k' Hk'. destruct (decide ((x', t') = (x, t))) as [[= -> ->]|Hne'].
    + rewrite upd_pos_same in *. change (k' ∈ sets (Ls x t)) in Hk'.
      destruct (other_set _ _ _ _ _ Hw Hs Hk') as [Ho He].
      assert (0 <= iCondSetIndex k') as Hik'.
      { destruct Hw as (_ & Hi & _). apply list_elem_of_lookup in Hk' as [j Hj].
        rewrite (indexed_lookup _ _ _ _ _ Hi Hj). lia. }
      cbn [with_set set_truths uiCondSetTrue]. rewrite put_bit_spec by lia.
      destruct (decide (csAddr k' = csAddr k)) as [Hk|Hk].
      * rewrite (He Hk), Z.eqb_refl. done.
      * destruct (Ho Hk) as [_ Hix]. apply Z.eqb_neq in Hix. rewrite Hix.
        apply H2; [done|]. congruence.
    + rewrite upd_pos_other in * by done. apply H2; [done|]. congruence.
  - intros x' t' Hne. rewrite upd_pos_other by done. by apply H3.
Qed.

(** The truth of a list, from the bits of its sets. *)
Lemma list_truth_bits sc Ls x t :
  agree_sets sc Ls x t ->
  comb x (bits (uiCondSetTrue (Ls x t)) (length (sets (Ls x t)))) = comb x (cond_truths (Ls x t)).
Proof.
  intros [H1 H2 _ _]. destruct (lo_wf _ _ _ (H1 x t)) as (_ & Hi & _).
  rewrite (bits_indexed iCondSetIndex (fun k => comb x (cond_bits k)) _ _ Hi (H2 x t)).
  change (fun k => comb x (cond_bits k)) with (comb x ∘ cond_bits).
  rewrite list_fmap_compose. apply comb_concat.
Qed.

Lemma agree_lists sc Ls x t :
  agree_sets sc Ls x t ->
  let sc' := with_list x t (comb x (cond_truths (Ls x t))) (Ls x t) sc in
  scene_cases (iCount (Ls false true) + iCount (Ls false false))
    (iCount (Ls true true) + iCount (Ls true false)) (list_bits sc' false) (list_bits sc' true)
  = scene_formula Ls /\
  consistent (with_truth (of_bool (scene_formula Ls)) sc') Ls.
Proof.
  intros [H1 H2 H3 H4] sc'.
  assert (Hb : forall x' t', Z.testbit (list_bits sc' x') (bit_no t') = comb x' (cond_truths (Ls x' t'))).
  { intros x' t'. unfold sc'. rewrite with_list_bits by apply H1.
    destruct (eqb x' x) eqn:Hx, (eqb t' t) eqn:Ht; cbn [andb];
      try (apply H3; intros [= -> ->]; rewrite eqb_reflx in *; done).
    apply eqb_prop in Hx as ->, Ht as ->. done. }
  split; [by apply scene_cases_formula|]. split; [done|done| | |done].
  - intros x' t'. rewrite with_truth_bits. apply Hb.
  - intros x'. rewrite with_truth_bits. unfold sc'. apply with_list_range, H4.
Qed.

(** * The functions *)

Lemma upd_same (c : positive) (o : obj) (s : mem) : cells s !! c = Some o -> upd c o s = s.
Proof. intros Hc. unfold upd, with_cells. rewrite insert_id by done. by destruct s. Qed.

(** The list and the scene after every level above the set [k] has been
    recomputed. *)
Definition settled_list (x t : bool) (k : cond_set) (Ls : lists) : cond_list :=
  with_set k (comb x (cond_bits k)) (Ls x t).
Definition settled_scene (x t : bool) (k : cond_set) (sc : scene_info) (Ls : lists) : scene_info :=
  let l := settled_list x t k Ls in
  with_truth (of_bool (scene_formula (upd_pos Ls x t l)))
    (with_list x t (comb x (cond_truths l)) l sc).

Section functions.
Context (a : positive) (x t : bool) (i : ptr_info) (b : positive).
Context (Ha : pstScene i = Some a) (Hb : pstCondList i = Some b).

Lemma settled_consistent sc Ls l1 k l2 :
  agree_but sc Ls x t (csAddr k) -> sets (Ls x t) = l1 ++ k :: l2 ->
  consistent (settled_scene x t k sc Ls) (upd_pos Ls x t (settled_list x t k Ls)).
Proof.
  intros Hag Hs. pose proof (agree_set _ _ _ _ _ _ _ Hag Hs) as Has.
  destruct (agree_lists _ _ _ _ Has) as [_ Hco].
  unfold settled_scene. fold (settled_list x t k Ls) in Hco. by rewrite upd_pos_same in Hco.
Qed.

Lemma settled_at s sc Ls k :
  scene_at s a sc Ls -> list_ptr sc x t = Some b ->
  scene_at (upd a (OScene (settled_scene x t k sc Ls)) (upd b (OList (settled_list x t k Ls)) s)) a
    (settled_scene x t k sc Ls) (upd_pos Ls x t (settled_list x t k Ls)).
Proof.
  intros R Hp. eapply scene_at_scene; [by apply scene_at_list|].
  intros x' t'. unfold settled_scene. by rewrite with_truth_ptr, with_list_ptr.
Qed.

Lemma init_from_set_spec s sc Ls l1 k l2 :
  scene_at s a sc Ls -> agree_but sc Ls x t (csAddr k) -> list_ptr sc x t = Some b ->
  pCondSetNode i = Some (csAddr k) -> sets (Ls x t) = l1 ++ k :: l2 ->
  wp (init_from_set (bit_no t) i (comb x (cond_bits k))) s (fun r s' => r = NoErr /\
    s' = upd a (OScene (settled_scene x t k sc Ls)) (upd b (OList (settled_list x t k Ls)) s)).
Proof.
  intros R Hag Hp Hk Hs. pose proof (agree_set _ _ _ _ _ _ _ Hag Hs) as Has.
  destruct (agree_lists _ _ _ _ Has) as [Hcases _]. rewrite upd_pos_same in Hcases.
  destruct (sa_lists _ _ _ _ R x t) as (b' & Hb' & Hc). assert (b' = b) as -> by congruence.
  unfold init_from_set. wp_step.
  eapply wp_mono; [eapply (put_set_spec x t i b l1 k l2 Hb Hk); [exact Hc|apply Hag|exact Hs]|].
  intros r s1 [-> ->]. fold (settled_list x t k Ls).
  pose proof (list_truth_bits _ _ _ _ Has) as Ht. rewrite upd_pos_same in Ht.
  change (length (sets (Ls x t))) with (length (sets (settled_list x t k Ls))).
  fold (settled_list x t k Ls) in Ht. rewrite Ht.
  pose proof (scene_at_list _ _ _ _ x t b (settled_list x t k Ls) R Hp) as R1.
  wp_step. eapply wp_mono; [eapply (put_list_spec a x t i Ha); [exact R1|congruence|apply Has]|].
  cbv zeta. rewrite upd_pos_same. intros r s2 [-> ->]. fold (settled_list x t k Ls) in Hcases.
  rewrite Hcases. wp_step.
  eapply wp_mono; [eapply (put_scene_spec a i Ha); apply lookup_insert_eq|].
  intros [] s3 ->. wp_steps. split; [done|]. by rewrite upd_upd.
Qed.

(** The list with the condition's bit, and the handle's set in it. *)
Definition bit_set (k : cond_set) (n : cond_node) (v : bool) : cond_set :=
  set_cond_true (put_bit (uiCondTrue k) (Z.shiftl 1 (iCondIndex n)) v) k.

Lemma cond_true_init_spec s sc Ls l1 k l2 n1 n n2 v :
  scene_at s a sc Ls -> agree_but sc Ls x t (csAddr k) -> list_ptr sc x t = Some b ->
  reaches sc a Ls x t i l1 k l2 n1 n n2 ->
  let k' := bit_set k n (truth v) in
  let Ls1 := upd_pos Ls x t (with_cond l1 k l2 n (truth v) (Ls x t)) in
  wp (cond_true_init (bit_no t) v i) s (fun r s' => r = NoErr /\
    s' = upd a (OScene (settled_scene x t k' sc Ls1)) (upd b (OList (settled_list x t k' Ls1)) s)).
Proof.
  intros R Hag Hp [_ _ Hk Hn Hs Hns] k' Ls1.
  destruct (sa_lists _ _ _ _ R x t) as (b' & Hb' & Hc). assert (b' = b) as -> by congruence.
  unfold cond_true_init. wp_step.
  eapply wp_mono; [eapply (put_cond_spec x t i b l1 k l2 Hb Hk); [exact Hc|apply Hag|exact Hs|exact Hn|exact Hns]|].
  intros r s1 [-> ->].
  change (comb x (bits _ _)) with (comb x (cond_bits k')).
  pose proof (scene_at_list _ _ _ _ x t b (with_cond l1 k l2 n (truth v) (Ls x t)) R Hp) as R1.
  eapply wp_mono; [eapply (init_from_set_spec _ sc Ls1 l1 k' l2); [exact R1| |exact Hp|exact Hk|]|].
  - exact (agree_cond sc Ls x t l1 k l2 n (truth v) Hag Hs).
  - unfold Ls1. by rewrite upd_pos_same.
  - intros r s' [-> ->]. split; [done|]. by rewrite upd_upd.
Qed.
End functions.

(** * The levels that do not change *)

Lemma formula_ext Ls Ls' :
  (forall x t, comb x (cond_truths (Ls x t)) = comb x (cond_truths (Ls' x t))) ->
  (forall x t, n_conds (sets (Ls x t)) = n_conds (sets (Ls' x t))) ->
  scene_formula Ls = scene_formula Ls'.
Proof.
  intros Ht Hn. unfold scene_formula, n_part. rewrite !Hn.
  assert (some_or Ls = some_or Ls') as ->.
  { unfold some_or. rewrite !(comb_app false _ _ : some_true _ = _). by rewrite !Ht. }
  assert (all_and Ls = all_and Ls') as ->.
  { unfold all_and. rewrite !(comb_app true _ _ : all_true _ = _). by rewrite !Ht. }
  done.
Qed.

Section update.
Context (a : positive) (x t : bool) (i : ptr_info) (b : positive).
Context (Ha : pstScene i = Some a) (Hb : pstCondList i = Some b).

(** From bits that agree everywhere but above one condition, the levels that
    are not reached would be rewritten with the values they have. *)
Lemma settled_list_id sc Ls l1 k l2 n1 n n2 v :
  consistent sc Ls -> reaches sc a Ls x t i l1 k l2 n1 n n2 ->
  comb x (cond_bits (bit_set k n v)) = comb x (cond_bits k) ->
  let Ls1 := upd_pos Ls x t (with_cond l1 k l2 n v (Ls x t)) in
  settled_list x t (bit_set k n v) Ls1 = Ls1 x t.
Proof.
  intros C Re Heq Ls1. pose proof (re_sets _ _ _ _ _ _ _ _ _ _ _ _ Re) as Hs.
  destruct (set_lookup _ _ _ _ (lo_wf _ _ _ (co_list _ _ C x t)) Hs) as (_ & _ & Hi & _).
  unfold settled_list, with_set, Ls1. rewrite upd_pos_same, put_bit_id; [done|cbn; lia|].
  rewrite Heq. cbn. apply C. rewrite Hs. rewrite elem_of_app, elem_of_cons. tauto.
Qed.

Lemma settled_scene_id sc Ls k' Ls1 l' :
  consistent sc Ls -> l' = settled_list x t k' Ls1 -> list_ok x t l' ->
  (forall x' t', (x', t') <> (x, t) -> Ls1 x' t' = Ls x' t') ->
  n_conds (sets l') = n_conds (sets (Ls x t)) ->
  comb x (cond_truths l') = comb x (cond_truths (Ls x t)) ->
  settled_scene x t k' sc Ls1 = sc.
Proof.
  intros C -> Ho Hoth Hn Heq. unfold settled_scene.
  rewrite with_list_id; [|done|rewrite Heq; apply C|apply C]. apply with_truth_id.
  rewrite (co_scene _ _ C). f_equal. apply formula_ext; intros x' t';
    (destruct (decide ((x', t') = (x, t))) as [[= -> ->]|Hne];
     [by rewrite upd_pos_same|by rewrite upd_pos_other, Hoth]).
Qed.

Lemma update_levels_spec s sc Ls l1 k l2 n1 n n2 v :
  scene_at s a sc Ls -> consistent sc Ls -> list_ptr sc x t = Some b ->
  reaches sc a Ls x t i l1 k l2 n1 n n2 ->
  let k' := bit_set k n (truth v) in
  let Ls1 := upd_pos Ls x t (with_cond l1 k l2 n (truth v) (Ls x t)) in
  wp (update_levels (bit_no t) v i) s (fun _ s' =>
    s' = upd a (OScene (settled_scene x t k' sc Ls1)) (upd b (OList (settled_list x t k' Ls1)) s)).
Proof.
  intros R C Hp Re k' Ls1. pose proof Re as [_ _ Hk Hn Hs Hns].
  pose proof (consistent_but _ _ x t (csAddr k) C) as Hag.
  pose proof (agree_cond sc Ls x t l1 k l2 n (truth v) Hag Hs) as Hag1. fold Ls1 in Hag1.
  destruct (sa_lists _ _ _ _ R x t) as (b' & Hb' & Hc). assert (b' = b) as -> by congruence.
  assert (Hs1 : sets (Ls1 x t) = l1 ++ k' :: l2) by (unfold Ls1; by rewrite upd_pos_same).
  assert (Has : agree_sets sc (upd_pos Ls1 x t (settled_list x t k' Ls1)) x t)
    by exact (agree_set sc Ls1 x t l1 k' l2 Hag1 Hs1).
  assert (Hls : list_ok x t (settled_list x t k' Ls1)).
  { pose proof (as_list _ _ _ _ Has x t) as H. by rewrite upd_pos_same in H. }
  assert (Hnc : n_conds (sets (settled_list x t k' Ls1)) = n_conds (sets (Ls x t))).
  { change (sets (settled_list x t k' Ls1)) with (sets (Ls1 x t)). rewrite Hs1, Hs.
    by rewrite !n_conds_app, !n_conds_cons. }
  assert (Hoth : forall x' t', (x', t') <> (x, t) -> Ls1 x' t' = Ls x' t').
  { intros x' t' Hne. unfold Ls1. by apply upd_pos_other. }
  unfold update_levels. wp_step.
  eapply wp_mono; [eapply (put_cond_spec x t i b l1 k l2 Hb Hk); [exact Hc|apply C|exact Hs|exact Hn|exact Hns]|].
  intros r s1 [-> ->]. change (comb x (bits _ _)) with (comb x (cond_bits k')).
  set (l := with_cond l1 k l2 n (truth v) (Ls x t)).
  assert (Hl1 : Ls1 x t = l) by apply upd_pos_same.
  assert (Hlo : list_ok x t l) by (rewrite <- Hl1; apply Hag1).
  wp_step. eapply wp_mono; [eapply (set_bit_spec x t i b l1 k' l2 Hb Hk); [apply lookup_insert_eq|exact Hlo|by rewrite <- Hl1]|].
  intros r s1 [-> ->].
  assert (Z.testbit (uiCondSetTrue l) (iCondSetIndex k') = comb x (cond_bits k)) as Hold.
  { apply (co_sets _ _ C x t k). rewrite Hs, elem_of_app, elem_of_cons. tauto. }
  rewrite Hold. destruct (eqb (comb x (cond_bits k')) (comb x (cond_bits k))) eqn:He1.
  { apply eqb_prop in He1. pose proof (settled_list_id _ _ _ _ _ _ _ _ _ C Re He1) as Hid.
    fold Ls1 in Hid. fold k' in Hid. wp_steps.
    rewrite (settled_scene_id sc Ls k' Ls1 _ C eq_refl Hls Hoth Hnc), Hid, Hl1; [|].
    - rewrite (upd_same a); [done|]. cbn. rewrite lookup_insert_ne; [apply R|].
      intros ->. pose proof (sa_scene _ _ _ _ R). congruence.
    - rewrite Hid, Hl1. unfold cond_truths. rewrite <- !comb_concat. unfold l, with_cond. cbn [sets set_sets].
      rewrite Hs, !fmap_app, !fmap_cons, !comb_app, !comb_cons. fold (bit_set k n (truth v)). fold k'.
      by rewrite He1. }
  wp_step. eapply wp_mono; [eapply (put_set_spec x t i b l1 k' l2 Hb Hk); [apply lookup_insert_eq|exact Hlo|by rewrite <- Hl1]|].
  intros r s1 [-> ->]. rewrite upd_upd.
  assert (with_set k' (comb x (cond_bits k')) l = settled_list x t k' Ls1) as -> by (unfold settled_list; by rewrite Hl1).
  change (length (sets l)) with (length (sets (with_set k' (comb x (cond_bits k')) l))).
  assert (with_set k' (comb x (cond_bits k')) l = settled_list x t k' Ls1) as -> by (unfold settled_list; by rewrite Hl1).
  pose proof (list_truth_bits _ _ _ _ Has) as Ht. rewrite upd_pos_same in Ht. rewrite Ht.
  set (l' := settled_list x t k' Ls1) in *.
  pose proof (scene_at_list _ _ _ _ x t b l' R Hp) as R1.
  wp_step. eapply wp_mono; [eapply (list_bit_spec a x t i Ha); [exact R1|congruence|by rewrite upd_pos_same]|].
  intros r s1 [-> ->]. rewrite (co_lists _ _ C x t).
  destruct (eqb (comb x (cond_truths l')) (comb x (cond_truths (Ls x t)))) eqn:He2.
  { apply eqb_prop in He2. wp_steps.
    rewrite (settled_scene_id sc Ls k' Ls1 l' C eq_refl Hls Hoth Hnc He2).
    rewrite (upd_same a); [done|]. apply R1. }
  wp_step. eapply wp_mono; [eapply (put_list_spec a x t i Ha); [exact R1|congruence|by rewrite upd_pos_same]|].
  cbv zeta. rewrite upd_pos_same. intros r s2 [-> ->].
  destruct (agree_lists _ _ _ _ Has) as [Hcases _]. rewrite upd_pos_same in Hcases.
  fold l' in Hcases.
  assert (Hls1 : forall x' t', iCount (upd_pos Ls x t l' x' t') = iCount (upd_pos Ls1 x t l' x' t')).
  { intros x' t'. unfold upd_pos. destruct (eqb x' x && eqb t' t) eqn:He; [done|].
    unfold Ls1, upd_pos. by rewrite He. }
  rewrite !Hls1, Hcases. wp_step.
  eapply wp_mono; [eapply (scene_bit_spec a i Ha); apply lookup_insert_eq|].
  intros r s2 [-> ->]. rewrite with_list_truth.
  unfold settled_scene. fold l'.
  destruct (eqb (scene_formula (upd_pos Ls1 x t l')) (truth (ucSceneCondTrue sc))) eqn:He3.
  { apply eqb_prop in He3. wp_steps. rewrite with_truth_id; [done|]. rewrite with_list_truth, He3.
    rewrite (co_scene _ _ C). by destruct (scene_formula Ls). }
  eapply wp_mono; [eapply (put_scene_spec a i Ha); apply lookup_insert_eq|].
  intros [] s3 ->. by rewrite upd_upd.
Qed.
End update.
