(* ===== verification/SceneFire.v ===== *)
(** When a scene is executed: the properties of the [_init] and [_update]
    functions of scene_list.c. *)
From stdpp Require Import gmap strings.
From S2P Require Import Prelude Heap CString SceneTimer SceneCond SceneData CondList SceneTruth SceneRefine.

(** The lists with the bit of node [n] of set [k] set to [v], and the truth
    values of the list's conditions then. *)
Definition with_bit (Ls : lists) (x t : bool) (l1 : list cond_set) (k : cond_set) (l2 : list cond_set)
    (n : cond_node) (v : bool) : lists :=
  upd_pos Ls x t (with_cond l1 k l2 n v (Ls x t)).

Lemma cond_bits_set k n1 n n2 v :
  set_wf k -> pstCond k = n1 ++ n :: n2 ->
  cond_bits (bit_set k n v) = <[length n1 := v]> (cond_bits k).
Proof.
  intros Hw Hns. destruct (node_lookup _ _ _ _ Hw Hns) as (_ & Hi & Hlt & _).
  apply list_eq. intros j. unfold cond_bits, bit_set. cbn [set_cond_true uiCondTrue pstCond].
  assert (length n1 < length (pstCond k))%nat by (rewrite Hns, length_app; simpl; lia).
  destruct (decide (j < length (pstCond k))%nat) as [Hj|Hj].
  - rewrite (proj2 (bits_lookup _ _ j _) (conj Hj eq_refl)), put_bit_spec by lia.
    destruct (decide (j = length n1)) as [->|Hne].
    + rewrite list_lookup_insert_eq; [|unfold bits; by rewrite length_fmap, length_seq].
      by rewrite Hi, Z.eqb_refl.
    + rewrite list_lookup_insert_ne by done.
      rewrite (proj2 (bits_lookup _ _ j _) (conj Hj eq_refl)).
      destruct (Z.eqb_spec (Z.of_nat j) (iCondIndex n)); [lia|done].
  - rewrite !lookup_ge_None_2; [done| |]; rewrite ?length_insert; unfold bits;
      rewrite length_fmap, length_seq; lia.
Qed.

(** What the scene means depends on the conditions' bits only. *)
Lemma formula_sets Ls Ls' :
  (forall x t, sets (Ls x t) = sets (Ls' x t)) -> scene_formula Ls = scene_formula Ls'.
Proof.
  intros Hs. apply formula_ext; intros x t; unfold cond_truths; by rewrite Hs.
Qed.

(** The state of the scene and of the lists once every level agrees with the
    condition's new bit. *)
Definition new_list (Ls : lists) (x t : bool) l1 k l2 n v : cond_list :=
  settled_list x t (bit_set k n v) (with_bit Ls x t l1 k l2 n v).
Definition new_scene (sc : scene_info) (Ls : lists) (x t : bool) l1 k l2 n v : scene_info :=
  settled_scene x t (bit_set k n v) sc (with_bit Ls x t l1 k l2 n v).
Definition new_lists (Ls : lists) (x t : bool) l1 k l2 n v : lists :=
  upd_pos (with_bit Ls x t l1 k l2 n v) x t (new_list Ls x t l1 k l2 n v).

Lemma new_lists_sets Ls x t l1 k l2 n v x' t' :
  sets (new_lists Ls x t l1 k l2 n v x' t') = sets (with_bit Ls x t l1 k l2 n v x' t').
Proof.
  unfold new_lists. destruct (decide ((x', t') = (x, t))) as [[= -> ->]|Hne].
  - by rewrite upd_pos_same.
  - by rewrite upd_pos_other.
Qed.

Lemma with_bit_sets Ls x t l1 k l2 n v :
  sets (with_bit Ls x t l1 k l2 n v x t) = l1 ++ bit_set k n v :: l2.
Proof. unfold with_bit. by rewrite upd_pos_same. Qed.

Lemma new_formula Ls x t l1 k l2 n v :
  scene_formula (new_lists Ls x t l1 k l2 n v) = scene_formula (with_bit Ls x t l1 k l2 n v).
Proof. apply formula_sets. intros. apply new_lists_sets. Qed.

Section fire.
Context (a : positive) (x t : bool) (i : ptr_info) (b : positive).

Lemma new_consistent sc Ls l1 k l2 n1 n n2 v :
  agree_but sc Ls x t (csAddr k) -> reaches sc a Ls x t i l1 k l2 n1 n n2 ->
  consistent (new_scene sc Ls x t l1 k l2 n v) (new_lists Ls x t l1 k l2 n v).
Proof.
  intros Hag [_ _ _ _ Hs _].
  exact (settled_consistent x t sc _ l1 (bit_set k n v) l2
           (agree_cond sc Ls x t l1 k l2 n v Hag Hs) (with_bit_sets _ _ _ _ _ _ _ _)).
Qed.

(** The heap after the bit and the levels above it have been written. *)
Definition new_heap (s : mem) sc Ls l1 k l2 n v : mem :=
  upd a (OScene (new_scene sc Ls x t l1 k l2 n v)) (upd b (OList (new_list Ls x t l1 k l2 n v)) s).

Lemma new_at s sc Ls l1 k l2 n v :
  scene_at s a sc Ls -> list_ptr sc x t = Some b ->
  scene_at (new_heap s sc Ls l1 k l2 n v) a (new_scene sc Ls x t l1 k l2 n v) (new_lists Ls x t l1 k l2 n v).
Proof.
  intros R Hp. unfold new_heap.
  pose proof (scene_at_list _ _ _ _ x t b (with_cond l1 k l2 n v (Ls x t)) R Hp) as R1.
  pose proof (settled_at a x t b _ _ _ (bit_set k n v) R1 Hp) as R2.
  by rewrite upd_upd in R2.
Qed.

(** Writing the bit the condition has changes nothing. *)
Lemma new_heap_id s sc Ls l1 k l2 n1 n n2 v :
  scene_at s a sc Ls -> consistent sc Ls -> list_ptr sc x t = Some b ->
  reaches sc a Ls x t i l1 k l2 n1 n n2 -> Z.testbit (uiCondTrue k) (iCondIndex n) = v ->
  new_heap s sc Ls l1 k l2 n v = s /\ new_scene sc Ls x t l1 k l2 n v = sc /\
  scene_formula (with_bit Ls x t l1 k l2 n v) = scene_formula Ls.
Proof.
  intros R C Hp Re Hv. pose proof Re as [_ _ _ _ Hs Hns].
  pose proof (lo_wf _ _ _ (co_list _ _ C x t)) as Hw.
  destruct (set_lookup _ _ _ _ Hw Hs) as (_ & Hwk & _).
  destruct (node_lookup _ _ _ _ Hwk Hns) as (_ & Hi & _).
  assert (Hk : bit_set k n v = k).
  { unfold bit_set. rewrite put_bit_id by (done || lia). by destruct k. }
  assert (Hl : with_cond l1 k l2 n v (Ls x t) = Ls x t).
  { unfold with_cond. fold (bit_set k n v). rewrite Hk, <- Hs. by destruct (Ls x t). }
  assert (Hbit : forall x' t', with_bit Ls x t l1 k l2 n v x' t' = Ls x' t').
  { intros x' t'. unfold with_bit. rewrite Hl. destruct (decide ((x', t') = (x, t))) as [[= -> ->]|Hne].
    - by rewrite upd_pos_same.
    - by rewrite upd_pos_other. }
  assert (Hlist : new_list Ls x t l1 k l2 n v = Ls x t).
  { unfold new_list. unfold with_bit. rewrite (settled_list_id a x t i sc Ls l1 k l2 n1 n n2 v C Re).
    - by rewrite upd_pos_same.
    - by rewrite Hk. }
  assert (Hscene : new_scene sc Ls x t l1 k l2 n v = sc).
  { unfold new_scene. eapply (settled_scene_id x t sc Ls _ _ (new_list Ls x t l1 k l2 n v) C); [done| | | |].
    - rewrite Hlist. apply C.
    - intros x' t' _. apply Hbit.
    - by rewrite Hlist.
    - by rewrite Hlist. }
  split_and!; [|done|by apply formula_sets; intros; rewrite Hbit].
  destruct (sa_lists _ _ _ _ R x t) as (b' & Hb' & Hc). assert (b' = b) as -> by congruence.
  unfold new_heap. rewrite Hlist, Hscene, (upd_same b) by done. apply upd_same, R.
Qed.
End fire.

Definition init_fun (t : bool) : Z -> ptr -> L Z :=
  if t then scene_time_cond_true_init else scene_event_cond_true_init.
Definition set_init_fun (t : bool) : Z -> ptr -> L Z :=
  if t then scene_time_cond_set_true_init else scene_event_cond_set_true_init.

Lemma list_ptr_at s a sc Ls x t : scene_at s a sc Ls -> exists b, list_ptr sc x t = Some b.
Proof. intros R. destruct (sa_lists _ _ _ _ R x t) as (b & Hb & _). by exists b. Qed.

(** The condition a handle reaches. *)
Lemma reaches_cond_at s a sc Ls x t i l1 k l2 n1 n n2 :
  scene_at s a sc Ls -> list_wf (Ls x t) -> reaches sc a Ls x t i l1 k l2 n1 n n2 ->
  cond_at i s = Val (stCond n, s).
Proof.
  intros R Hw [Ha Hl Hk Hn Hs Hns]. destruct (sa_lists _ _ _ _ R x t) as (b & Hb & Hc).
  assert (wp (cond_at i) s (fun r s' => s' = s /\ r = stCond n)) as Hat
    by (eapply (cond_at_spec i b l1 k l2); [congruence|done|exact Hc|done|done|done|done]).
  by apply wp_run in Hat as (r & s' & Hrun & -> & ->).
Qed.

Lemma length_truths ss : length (concat (cond_bits <$> ss)) = n_conds ss.
Proof.
  induction ss as [|k' ss IH]; [done|]. cbn. rewrite length_app. unfold n_conds in *.
  cbn. rewrite length_app. unfold cond_bits at 1, bits. rewrite length_fmap, length_seq. lia.
Qed.

(** The truth values of the list's conditions with one of them changed. *)
Lemma with_bit_truths Ls x t l1 k l2 n1 n n2 v :
  list_wf (Ls x t) -> sets (Ls x t) = l1 ++ k :: l2 -> pstCond k = n1 ++ n :: n2 ->
  cond_truths (with_bit Ls x t l1 k l2 n v x t) =
    <[n_conds l1 + length n1 := v]>%nat (cond_truths (Ls x t)).
Proof.
  intros Hw Hs Hns. destruct (set_lookup _ _ _ _ Hw Hs) as (_ & Hwk & _).
  unfold cond_truths. rewrite with_bit_sets, Hs, !fmap_app, !fmap_cons, !concat_app. cbn [concat].
  rewrite (cond_bits_set k n1 n n2 v Hwk Hns).
  pose proof length_truths as Hlen.
  rewrite insert_app_r_alt by (rewrite Hlen; lia). rewrite Hlen.
  replace (n_conds l1 + length n1 - n_conds l1)%nat with (length n1) by lia.
  rewrite insert_app_l; [done|]. unfold cond_bits, bits. rewrite length_fmap, length_seq, Hns, length_app.
  simpl. lia.
Qed.

Lemma new_scene_truth sc Ls x t l1 k l2 n v :
  truth (ucSceneCondTrue (new_scene sc Ls x t l1 k l2 n v)) = scene_formula (new_lists Ls x t l1 k l2 n v).
Proof.
  unfold new_scene, settled_scene. cbn [ucSceneCondTrue with_truth].
  change (upd_pos _ x t (settled_list _ _ _ _)) with (new_lists Ls x t l1 k l2 n v).
  by destruct (scene_formula _).
Qed.

Lemma init_fun_spec s a sc Ls x t b p h l1 k l2 n1 n n2 v :
  scene_at s a sc Ls -> agree_but sc Ls x t (csAddr k) -> list_ptr sc x t = Some b ->
  cells s !! p = Some (OPtrNode h) -> reaches sc a Ls x t (stCondPtr h) l1 k l2 n1 n n2 ->
  wp (init_fun t v (Some p)) s (fun r s' => r = NoErr /\ s' = new_heap a x t b s sc Ls l1 k l2 n (truth v)).
Proof.
  intros R Hag Hb Hp Re. pose proof Re as [Ha Hl _ _ _ _].
  assert (wp (cond_true_init (bit_no t) v (stCondPtr h)) s (fun r s' =>
    r = NoErr /\ s' = new_heap a x t b s sc Ls l1 k l2 n (truth v))) as Hrun.
  { eapply (cond_true_init_spec a x t (stCondPtr h) b); try done. congruence. }
  unfold init_fun, scene_time_cond_true_init, scene_event_cond_true_init, handle.
  destruct t; (wp_step; wp_step; eapply wp_load; [exact Hp|reflexivity|]; wp_step; exact Hrun).
Qed.

(** C1: after a condition has been added or changed, [scene_*_cond_true_init]
    makes every bit agree with the conditions': the scene's flag is true exactly
    when its Or part, if it has conditions, has a true one, and all conditions
    of its And part are true.  Only this condition's truth changes, and only the
    scene and the list are written. *)
Theorem scene_cond_true_init_consistent s a sc Ls x t p h l1 k l2 n1 n n2 v :
  scene_at s a sc Ls -> agree_but sc Ls x t (csAddr k) ->
  cells s !! p = Some (OPtrNode h) -> reaches sc a Ls x t (stCondPtr h) l1 k l2 n1 n n2 ->
  wp (init_fun t v (Some p)) s (fun r s' => r = NoErr /\
    exists sc' Ls', scene_at s' a sc' Ls' /\ consistent sc' Ls' /\
      truth (ucSceneCondTrue sc') = scene_formula Ls' /\
      cond_truths (Ls' x t) = <[n_conds l1 + length n1 := truth v]>%nat (cond_truths (Ls x t)) /\
      (forall x' t', (x', t') <> (x, t) -> Ls' x' t' = Ls x' t') /\
      glob s' = glob s /\
      forall c, c <> a -> Some c <> list_ptr sc x t -> cells s' !! c = cells s !! c).
Proof.
  intros R Hag Hp Re. destruct (list_ptr_at _ _ _ _ x t R) as [b Hb]. pose proof Re as [_ _ _ _ Hs Hns].
  assert (Hw : list_wf (Ls x t)) by apply (lo_wf _ _ _ (ab_list _ _ _ _ _ Hag x t)).
  eapply wp_mono; [by eapply (init_fun_spec s a sc Ls x t b)|]. intros r s' [-> ->]. split; [done|].
  eexists _, _; split_and!.
  - by apply (new_at a x t b).
  - by eapply new_consistent.
  - by apply new_scene_truth.
  - unfold cond_truths at 1. rewrite new_lists_sets. by apply with_bit_truths with (n2 := n2).
  - intros x' t' Hne. unfold new_lists. rewrite upd_pos_other by done. by apply upd_pos_other.
  - done.
  - intros c Hca Hcb. cbn. rewrite !lookup_insert_ne; [done|congruence|congruence].
Qed.

(** C11: from bits that agree, the short cuts of the [_update] functions are
    exact: stopping at the first level that does not change leaves the state
    that recomputing every level leaves. *)
Theorem scene_update_is_init s a sc Ls x t i l1 k l2 n1 n n2 v :
  scene_at s a sc Ls -> consistent sc Ls -> reaches sc a Ls x t i l1 k l2 n1 n n2 ->
  exists s', cond_true_init (bit_no t) v i s = Val (NoErr, s') /\
             update_levels (bit_no t) v i s = Val (tt, s').
Proof.
  intros R C Re. destruct (list_ptr_at _ _ _ _ x t R) as [b Hb].
  pose proof Re as [Ha Hl _ _ _ _]. assert (Hpl : pstCondList i = Some b) by congruence.
  pose proof (cond_true_init_spec a x t i b Ha Hpl s sc Ls l1 k l2 n1 n n2 v R
    (consistent_but _ _ x t (csAddr k) C) Hb Re) as H1.
  pose proof (update_levels_spec a x t i b Ha Hpl s sc Ls l1 k l2 n1 n n2 v R C Hb Re) as H2.
  apply wp_run in H1 as (r & s1 & Hr1 & -> & ->). apply wp_run in H2 as ([] & s2 & Hr2 & ->).
  by eexists.
Qed.

(** * Event conditions *)

(** What a condition that has become true does: nothing, execute the scene at
    once, or start a timer of some seconds. *)
Inductive reaction : Type := Nothing | Execute | Delay (secs : Z).
Definition reaction_of (e : event_cond) : reaction :=
  if strstr (ecTriggerType e) "Continue"
  then if 0 <? atoi (acContinueTime e) then Delay (atoi (acContinueTime e)) else Execute
  else if strstr (ecTriggerType e) "Instant" then Execute else Nothing.

Definition push_exec (sc : scene_info) (g : env) : env :=
  set_queue (exec_queue g ++ [QueueNode (atoi (acExecDelayed sc)) (unix_time g) sc]) g.
Definition push_timer (p : ptr) (secs : Z) (g : env) : env :=
  set_timers (continue_timers g ++ [(p, secs)]) g.

Definition react (r : reaction) (p : ptr) (sc : scene_info) (g : env) : env :=
  match r with
  | Nothing => g
  | Execute => push_exec sc g
  | Delay secs => push_timer p secs g
  end.

(** The condition becomes true in a scene that is then true. *)
Definition fires (v : Z) (old : bool) (Ls : lists) : bool := truth v && negb old && scene_formula Ls.

Lemma scene_list_exec_spec s a sc :
  cells s !! a = Some (OScene sc) -> oom s = [] ->
  wp (scene_list_exec (Some a)) s (fun r s' => r = NoErr /\ s' = with_glob (push_exec sc) s).
Proof.
  intros Hs Ho. unfold scene_list_exec. cbn [is_null]. wp_step. apply wp_reserve. intros ok ->.
  rewrite Ho. cbn [hd negb tl]. wp_step. eapply wp_load; [exact Hs|reflexivity|].
  wp_step. apply wp_setg. wp_steps. split; [done|]. unfold with_glob. cbn. by rewrite Ho.
Qed.

Lemma with_glob_id (s : mem) : with_glob (fun g => g) s = s.
Proof. by destruct s. Qed.

Section event.
Context (a : positive) (x : bool) (i : ptr_info) (b : positive) (p : positive) (h : ptr_node).
Context (Hi : stCondPtr h = i).

Lemma event_once_spec s sc Ls l1 k l2 n1 n n2 e v :
  scene_at s a sc Ls -> consistent sc Ls -> list_ptr sc x false = Some b ->
  reaches sc a Ls x false i l1 k l2 n1 n n2 -> cells s !! p = Some (OPtrNode h) ->
  stCond n = CEvent e -> oom s = [] -> v = 0 \/ v = 1 ->
  let old := Z.testbit (uiCondTrue k) (iCondIndex n) in
  let Ls1 := with_bit Ls x false l1 k l2 n (truth v) in
  wp (event_update_once v (Some p)) s (fun r s' =>
    r = strstr (ecTriggerType e) "Every" && (1 =? v) /\
    s' = with_glob (if fires v old Ls1
                    then react (reaction_of e) (Some p) (new_scene sc Ls x false l1 k l2 n (truth v))
                    else fun g => g) (new_heap a x false b s sc Ls l1 k l2 n (truth v))).
Proof.
  intros R C Hb Re Hp He Ho Hv old Ls1. pose proof Re as [Ha Hl Hk Hn Hs Hns].
  assert (Hpl : pstCondList i = Some b) by congruence.
  destruct (sa_lists _ _ _ _ R x false) as (b' & Hb' & Hc). assert (b' = b) as -> by congruence.
  pose proof (co_list _ _ C x false) as Hlo.
  unfold event_update_once, handle. wp_step. wp_step. eapply wp_load; [exact Hp|reflexivity|].
  wp_step. rewrite Hi. wp_step.
  eapply wp_mono; [eapply (cond_bit_spec x false i b l1 k l2 Hpl Hk); [exact Hc|exact Hlo|exact Hs|exact Hn|exact Hns]|].
  intros r s1 [-> ->]. fold old. wp_step.
  eapply wp_mono; [eapply (cond_at_spec i b l1 k l2 Hpl Hk); [exact Hc|apply Hlo|exact Hs|exact Hn|exact Hns]|].
  intros r s1 [-> ->]. rewrite He. cbn [as_event]. wp_step. wp_step. cbv zeta. wp_step.
  destruct (negb (v =? of_bool old)) eqn:Hch.
  - wp_step. eapply wp_mono; [eapply (update_levels_spec a x false i b Ha Hpl); [exact R|exact C|exact Hb|exact Re]|].
    intros [] s1 ->. fold (with_bit Ls x false l1 k l2 n (truth v)). fold (bit_set k n (truth v)).
    fold (new_list Ls x false l1 k l2 n (truth v)) (new_scene sc Ls x false l1 k l2 n (truth v)).
    fold (new_heap a x false b s sc Ls l1 k l2 n (truth v)).
    assert (Hsc1 : cells (new_heap a x false b s sc Ls l1 k l2 n (truth v)) !! a =
      Some (OScene (new_scene sc Ls x false l1 k l2 n (truth v)))) by apply lookup_insert_eq.
    unfold load_scene. rewrite Ha. wp_step. eapply wp_load; [exact Hsc1|reflexivity|].
    assert (truth (ucSceneCondTrue (new_scene sc Ls x false l1 k l2 n (truth v))) = scene_formula Ls1) as ->.
    { rewrite (co_scene _ _ (new_consistent a x false i sc Ls l1 k l2 n1 n n2 (truth v)
        (consistent_but _ _ _ _ _ C) Re)), new_formula. by destruct (scene_formula _). }
    fold (fires v old Ls1). unfold reaction_of. destruct (fires v old Ls1).
    + destruct (strstr (ecTriggerType e) "Continue"); [|destruct (strstr (ecTriggerType e) "Instant")].
      * destruct (0 <? atoi (acContinueTime e)).
        -- unfold start_timer. apply wp_setg. by wp_steps.
        -- wp_step. eapply wp_mono; [eapply scene_list_exec_spec; [exact Hsc1|exact Ho]|].
           intros r s1 [-> ->]. by wp_steps.
      * wp_step. eapply wp_mono; [eapply scene_list_exec_spec; [exact Hsc1|exact Ho]|].
        intros r s1 [-> ->]. by wp_steps.
      * wp_steps. split; [done|]. by rewrite with_glob_id.
    + wp_steps. split; [done|]. by rewrite with_glob_id.
  - wp_steps. split; [done|]. apply negb_false_iff, Z.eqb_eq in Hch.
    assert (truth v = old) as Htv by (rewrite Hch; by destruct old).
    unfold fires. rewrite Htv, andb_negb_r. cbn [andb]. rewrite with_glob_id.
    symmetry. by apply (new_heap_id a x false i b s sc Ls l1 k l2 n1 n n2).
Qed.
End event.

Lemma new_scene_ptr sc Ls x t l1 k l2 n v x' t' :
  list_ptr (new_scene sc Ls x t l1 k l2 n v) x' t' = list_ptr sc x' t'.
Proof. unfold new_scene, settled_scene. by rewrite with_truth_ptr, with_list_ptr. Qed.

Lemma new_reaches sc a Ls x t i l1 k l2 n1 n n2 v :
  reaches sc a Ls x t i l1 k l2 n1 n n2 ->
  reaches (new_scene sc Ls x t l1 k l2 n v) a (new_lists Ls x t l1 k l2 n v) x t i
    l1 (bit_set k n v) l2 n1 n n2.
Proof.
  intros [Ha Hl Hk Hn Hs Hns]. split; try done.
  - by rewrite new_scene_ptr.
  - by rewrite new_lists_sets, with_bit_sets.
Qed.

Lemma scene_at_glob f s a sc Ls : scene_at s a sc Ls -> scene_at (with_glob f s) a sc Ls.
Proof. intros [? ? ?]. by split. Qed.

Lemma new_lists_other Ls x t l1 k l2 n v x' t' :
  (x', t') <> (x, t) -> new_lists Ls x t l1 k l2 n v x' t' = Ls x' t'.
Proof. intros Hne. unfold new_lists, with_bit. by rewrite !upd_pos_other. Qed.

Lemma new_truths Ls x t l1 k l2 n1 n n2 v :
  list_wf (Ls x t) -> sets (Ls x t) = l1 ++ k :: l2 -> pstCond k = n1 ++ n :: n2 ->
  cond_truths (new_lists Ls x t l1 k l2 n v x t) =
    <[n_conds l1 + length n1 := v]>%nat (cond_truths (Ls x t)).
Proof.
  intros Hw Hs Hns. unfold cond_truths at 1. rewrite new_lists_sets.
  by apply with_bit_truths with (n2 := n2).
Qed.

(** The parts of a scene that its execution uses. *)
Definition same_scene (sc sc1 : scene_info) : Prop :=
  acSceneId sc1 = acSceneId sc /\ acExecDelayed sc1 = acExecDelayed sc /\ pstAction sc1 = pstAction sc /\
  acSceneEnable sc1 = acSceneEnable sc.
Lemma new_same_scene sc Ls x t l1 k l2 n v : same_scene sc (new_scene sc Ls x t l1 k l2 n v).
Proof. done. Qed.

(** What an update leaves: the scene and the list, everything else as before. *)
Record updated (s s' : mem) (a b : positive) (sc : scene_info) (Ls : lists) (x : bool) (i : ptr_info)
    (l1 : list cond_set) (l2 : list cond_set) (n1 : list cond_node) (n : cond_node) (n2 : list cond_node)
    (final : bool) (sc' : scene_info) (Ls' : lists) (k' : cond_set) : Prop := {
  up_at : scene_at s' a sc' Ls';
  up_consistent : consistent sc' Ls';
  up_reaches : reaches sc' a Ls' x false i l1 k' l2 n1 n n2;
  up_truths : cond_truths (Ls' x false) = <[n_conds l1 + length n1 := final]>%nat (cond_truths (Ls x false));
  up_other : forall x' t', (x', t') <> (x, false) -> Ls' x' t' = Ls x' t';
  up_scene : same_scene sc sc';
  up_ptr : forall x' t', list_ptr sc' x' t' = list_ptr sc x' t';
  up_flag : ucInitFlag (Ls' x false) = ucInitFlag (Ls x false);
  up_oom : oom s' = oom s;
  up_frame : forall c, c <> a -> c <> b -> cells s' !! c = cells s !! c
}.

Lemma new_updated s a b sc Ls x i l1 k l2 n1 n n2 v :
  scene_at s a sc Ls -> consistent sc Ls -> list_ptr sc x false = Some b ->
  reaches sc a Ls x false i l1 k l2 n1 n n2 ->
  updated s (new_heap a x false b s sc Ls l1 k l2 n v) a b sc Ls x i l1 l2 n1 n n2 v
    (new_scene sc Ls x false l1 k l2 n v) (new_lists Ls x false l1 k l2 n v) (bit_set k n v).
Proof.
  intros R C Hb Re. pose proof Re as [_ _ _ _ Hs Hns]. split.
  - by apply (new_at a x false b).
  - eapply new_consistent; [by apply consistent_but|exact Re].
  - by apply new_reaches.
  - by apply new_truths with (n2 := n2); [apply C| |].
  - intros x' t' Hne. by apply new_lists_other.
  - apply new_same_scene.
  - intros. apply new_scene_ptr.
  - unfold new_lists. rewrite upd_pos_same. unfold new_list, settled_list, with_bit. by rewrite upd_pos_same.
  - done.
  - intros c Ha Hcb. cbn. by rewrite !lookup_insert_ne by congruence.
Qed.

Lemma updated_trans s s1 s2 a b sc Ls x i l1 l2 n1 n n2 v1 v2 sc1 Ls1 k1 sc2 Ls2 k2 :
  updated s s1 a b sc Ls x i l1 l2 n1 n n2 v1 sc1 Ls1 k1 ->
  updated s1 s2 a b sc1 Ls1 x i l1 l2 n1 n n2 v2 sc2 Ls2 k2 ->
  updated s s2 a b sc Ls x i l1 l2 n1 n n2 v2 sc2 Ls2 k2.
Proof.
  intros [R1 C1 Re1 T1 O1 S1 P1 G1 M1 F1] [R2 C2 Re2 T2 O2 S2 P2 G2 M2 F2]. split; try done.
  - by rewrite T2, T1, list_insert_insert_eq.
  - intros x' t' Hne. by rewrite O2, O1.
  - destruct S1 as (? & ? & ? & ?), S2 as (? & ? & ? & ?). split_and!; congruence.
  - intros. by rewrite P2, P1.
  - by rewrite G2.
  - by rewrite M2.
  - intros c Ha Hcb. by rewrite F2, F1.
Qed.

Lemma updated_glob f s s' a b sc Ls x i l1 l2 n1 n n2 v sc' Ls' k' :
  updated s s' a b sc Ls x i l1 l2 n1 n n2 v sc' Ls' k' ->
  updated s (with_glob f s') a b sc Ls x i l1 l2 n1 n n2 v sc' Ls' k'.
Proof. intros [? ? ? ? ? ? ? ? ? ?]. split; try done. by apply scene_at_glob. Qed.

(** The value an update leaves the condition with. *)
Definition final_value (v : Z) (e : event_cond) : bool := truth v && negb (strstr (ecTriggerType e) "Every").

Lemma event_update_effect s a sc Ls x b p h l1 k l2 n1 n n2 e v :
  scene_at s a sc Ls -> consistent sc Ls -> list_ptr sc x false = Some b ->
  cells s !! p = Some (OPtrNode h) -> reaches sc a Ls x false (stCondPtr h) l1 k l2 n1 n n2 ->
  stCond n = CEvent e -> oom s = [] -> v = 0 \/ v = 1 ->
  let old := Z.testbit (uiCondTrue k) (iCondIndex n) in
  wp (scene_event_cond_true_update v (Some p)) s (fun r s' => r = NoErr /\
    exists sc' Ls' k' sc1, updated s s' a b sc Ls x (stCondPtr h) l1 l2 n1 n n2 (final_value v e) sc' Ls' k' /\
      same_scene sc sc1 /\
      glob s' = (if fires v old (with_bit Ls x false l1 k l2 n (truth v))
                 then react (reaction_of e) (Some p) sc1 else fun g => g) (glob s)).
Proof.
  intros R C Hb Hp Re He Ho Hv old. pose proof Re as [Ha Hl Hk Hn Hs Hns].
  unfold scene_event_cond_true_update. cbn [event_update]. wp_step.
  eapply wp_mono; [eapply (event_once_spec a x _ b p h eq_refl); [exact R|exact C|exact Hb|exact Re|exact Hp|exact He|exact Ho|exact Hv]|].
  cbv zeta. fold old. intros again s1 [-> ->].
  set (F := if fires _ _ _ then react _ _ _ else _).
  pose proof (new_updated s a b sc Ls x _ l1 k l2 n1 n n2 (truth v) R C Hb Re) as U1.
  set (sc1 := new_scene sc Ls x false l1 k l2 n (truth v)) in *.
  destruct (strstr (ecTriggerType e) "Every" && (1 =? v)) eqn:Hagain.
  - apply andb_true_iff in Hagain as [Hev Hv1%Z.eqb_eq].
    assert (Hb1 : list_ptr sc1 x false = Some b) by (by rewrite (up_ptr _ _ _ _ _ _ _ _ _ _ _ _ _ _ _ _ _ U1)).
    apply (updated_glob F) in U1. destruct (sa_lists _ _ _ _ R x false) as (b' & Hb' & Hbc).
    assert (b' = b) as -> by congruence. pose proof (sa_scene _ _ _ _ R) as Hac.
    assert (Hp1 : cells (with_glob F (new_heap a x false b s sc Ls l1 k l2 n (truth v))) !! p = Some (OPtrNode h)).
    { rewrite (up_frame _ _ _ _ _ _ _ _ _ _ _ _ _ _ _ _ _ U1); congruence. }
    wp_step. wp_step. wp_step.
    eapply wp_mono; [eapply (event_once_spec a x _ b p h eq_refl);
      [apply U1|apply U1|exact Hb1|apply U1|exact Hp1|exact He|exact Ho|by left]|].
    cbv zeta. intros again s2 [-> ->]. rewrite Hev. change (true && (1 =? 0)) with false.
    unfold fires. change (truth 0) with false. cbn [andb]. wp_steps. rewrite with_glob_id.
    split; [done|]. eexists _, _, _, sc1. split_and!; [|apply new_same_scene|done].
    unfold final_value. rewrite Hev, andb_false_r. eapply updated_trans; [exact U1|].
    eapply new_updated; [apply U1|apply U1|exact Hb1|apply U1].
  - wp_steps. split; [done|]. eexists _, _, _, sc1. split_and!; [|apply new_same_scene|done].
    unfold final_value. apply (updated_glob F) in U1.
    destruct Hv as [-> | ->]; [exact U1|]. change (1 =? 1) with true in Hagain.
    rewrite andb_true_r in Hagain. by rewrite Hagain.
Qed.

(** C2: a report that makes the condition [v] keeps all bits in agreement and
    fires exactly on the edge: when the condition was false, becomes true and
    the scene is true with it; then the scene is queued at once, or a timer is
    started, as the condition's type says.  An "Every" condition is false again
    afterwards, so that the next report is an edge. *)
Theorem scene_event_update_fires s a sc Ls x b p h l1 k l2 n1 n n2 e v :
  scene_at s a sc Ls -> consistent sc Ls -> list_ptr sc x false = Some b ->
  cells s !! p = Some (OPtrNode h) -> reaches sc a Ls x false (stCondPtr h) l1 k l2 n1 n n2 ->
  stCond n = CEvent e -> oom s = [] -> v = 0 \/ v = 1 ->
  let old := Z.testbit (uiCondTrue k) (iCondIndex n) in
  let final := truth v && negb (strstr (ecTriggerType e) "Every") in
  wp (scene_event_cond_true_update v (Some p)) s (fun r s' => r = NoErr /\
    exists sc' Ls' sc1, scene_at s' a sc' Ls' /\ consistent sc' Ls' /\
      cond_truths (Ls' x false) = <[n_conds l1 + length n1 := final]>%nat (cond_truths (Ls x false)) /\
      (forall x' t', (x', t') <> (x, false) -> Ls' x' t' = Ls x' t') /\
      same_scene sc sc1 /\
      glob s' = (if fires v old (with_bit Ls x false l1 k l2 n (truth v))
                 then react (reaction_of e) (Some p) sc1 else fun g => g) (glob s)).
Proof.
  intros R C Hb Hp Re He Ho Hv old final. eapply wp_mono; [by eapply event_update_effect|].
  intros r s' (-> & sc' & Ls' & k' & sc1 & U & Hs1 & Hg). split; [done|].
  exists sc', Ls', sc1. split_and!; [apply U..|done|done].
Qed.

(** * A scene with one condition, a time ([t0]) or an event condition *)

Definition demo_ev : event_cond := EventCond "lamp" "Switch" "Instant" "0" "1" "Equ" "".
Definition demo_tc : time_cond :=
  TimeCond "t1" "Every" "3" 0 "8" "00" "10" "00" "Mon" "1" "0".
Definition demo_node (t0 : bool) : cond_node := CondNode 31 0 (if t0 then CTime demo_tc else CEvent demo_ev).
Definition demo_set (t0 : bool) : cond_set := CondSet 30 0 0 1 [demo_node t0].
Definition demo_lists (t0 : bool) : lists := fun x t =>
  CondList (if x || xorb t t0 then [] else [demo_set t0]) (if x then 1 else 0)
    (if x || xorb t t0 then 0 else 1) "s1"
    (if x then LOGIC_AND else LOGIC_OR) (if t then COND_TIME else COND_EVENT) 0.
Definition demo_scene : scene_info :=
  SceneInfo "s1" "evening" 0 "1" "0" "" "" 0 NULL
    (CondLogic 0 (Some 1%positive) (Some 2%positive)) (CondLogic 3 (Some 3%positive) (Some 4%positive)) NULL.
Definition demo_info (t0 : bool) : ptr_info :=
  PtrInfo "s1" (Some 10%positive) (Some (if t0 then 1 else 2)%positive) (Some 30%positive) (Some 31%positive) NULL.
Definition demo_handle (t0 : bool) : ptr_node := PtrNode (demo_info t0) NULL NULL.
Definition demo_mem (t0 : bool) : mem :=
  Heap (<[10%positive := OScene demo_scene]>
       (<[20%positive := OPtrNode (demo_handle t0)]>
       (<[1%positive := OList (demo_lists t0 false true)]>
       (<[2%positive := OList (demo_lists t0 false false)]>
       (<[3%positive := OList (demo_lists t0 true true)]>
       (<[4%positive := OList (demo_lists t0 true false)]> ∅)))))) 40 []
    (Env [] (Tm 1 9 0) 1000 [] [] sync_unused acts0).

Lemma demo_at t0 : scene_at (demo_mem t0) 10 demo_scene (demo_lists t0).
Proof.
  split; [reflexivity| |].
  - intros [] []; eexists; (split; [reflexivity|]); by destruct t0.
  - intros [] [] [] []; vm_compute; intros H; try discriminate H; done.
Qed.

Lemma demo_set_wf t0 : set_wf (demo_set t0).
Proof. split; simpl; [apply NoDup_singleton|done|lia|done]. Qed.

Lemma demo_consistent t0 : consistent demo_scene (demo_lists t0).
Proof.
  split.
  - intros x t. split; [|done|done]. destruct x, t, t0; (split_and!; [split|done|done]);
      try apply NoDup_nil_2; try apply Forall_nil; try done; simpl; try lia.
    + apply NoDup_singleton.
    + apply Forall_cons. split; [apply (demo_set_wf true)|by apply Forall_nil].
    + apply NoDup_singleton.
    + apply Forall_cons. split; [apply (demo_set_wf false)|by apply Forall_nil].
  - intros [] [] k Hk; destruct t0; try (by apply elem_of_nil in Hk);
      apply list_elem_of_singleton in Hk as ->; vm_compute; reflexivity.
  - intros [] []; destruct t0; vm_compute; reflexivity.
  - intros []; vm_compute; split; congruence.
  - destruct t0; vm_compute; reflexivity.
Qed.

Lemma demo_reaches t0 : reaches demo_scene 10 (demo_lists t0) false t0 (demo_info t0) [] (demo_set t0) [] [] (demo_node t0) [].
Proof. split; by destruct t0. Qed.

Lemma scene_cond_true_init_consistent_witness :
  wp (init_fun false 0 (Some 20%positive)) (demo_mem false) (fun r s' => r = NoErr /\
    exists sc' Ls', scene_at s' 10 sc' Ls' /\ consistent sc' Ls' /\
      truth (ucSceneCondTrue sc') = scene_formula Ls' /\
      cond_truths (Ls' false false) = <[n_conds [] + length (@nil cond_node) := truth 0]>%nat (cond_truths (demo_lists false false false)) /\
      (forall x' t', (x', t') <> (false, false) -> Ls' x' t' = (demo_lists false) x' t') /\
      glob s' = glob (demo_mem false) /\
      forall c, c <> 10%positive -> Some c <> list_ptr demo_scene false false -> cells s' !! c = cells (demo_mem false) !! c).
Proof.
  apply (scene_cond_true_init_consistent (demo_mem false) 10 demo_scene (demo_lists false) false false 20 (demo_handle false)
           [] (demo_set false) [] [] (demo_node false) []).
  - exact (demo_at false).
  - apply consistent_but, (demo_consistent false).
  - reflexivity.
  - exact (demo_reaches false).
Defined.

Lemma scene_update_is_init_witness :
  exists s', cond_true_init (bit_no false) 1 (demo_info false) (demo_mem false) = Val (NoErr, s') /\
             update_levels (bit_no false) 1 (demo_info false) (demo_mem false) = Val (tt, s').
Proof.
  apply (scene_update_is_init (demo_mem false) 10 demo_scene (demo_lists false) false false (demo_info false) [] (demo_set false) [] [] (demo_node false) []).
  - exact (demo_at false).
  - exact (demo_consistent false).
  - exact (demo_reaches false).
Defined.

Lemma scene_event_update_fires_witness :
  fires 1 false (with_bit (demo_lists false) false false [] (demo_set false) [] (demo_node false) (truth 1)) = true /\
  wp (scene_event_cond_true_update 1 (Some 20%positive)) (demo_mem false) (fun r s' => r = NoErr /\
    exists sc' Ls' sc1, scene_at s' 10 sc' Ls' /\ consistent sc' Ls' /\
      cond_truths (Ls' false false) =
        <[n_conds [] + length (@nil cond_node) := truth 1 && negb (strstr (ecTriggerType demo_ev) "Every")]>%nat
          (cond_truths (demo_lists false false false)) /\
      (forall x' t', (x', t') <> (false, false) -> Ls' x' t' = (demo_lists false) x' t') /\
      same_scene demo_scene sc1 /\
      glob s' = (if fires 1 (Z.testbit (uiCondTrue (demo_set false)) (iCondIndex (demo_node false)))
                      (with_bit (demo_lists false) false false [] (demo_set false) [] (demo_node false) (truth 1))
                 then react (reaction_of demo_ev) (Some 20%positive) sc1 else fun g => g) (glob (demo_mem false))).
Proof.
  split; [vm_compute; reflexivity|].
  apply (scene_event_update_fires (demo_mem false) 10 demo_scene (demo_lists false) false 2 20 (demo_handle false)
           [] (demo_set false) [] [] (demo_node false) [] demo_ev 1).
  - exact (demo_at false).
  - exact (demo_consistent false).
  - reflexivity.
  - reflexivity.
  - exact (demo_reaches false).
  - reflexivity.
  - reflexivity.
  - right; reflexivity.
Defined.
