(* ===== verification/SceneTimeFire.v ===== *)
(** When a time condition executes its scene: [scene_time_cond_true_update], and
    the interval of the conditions that trigger again and again. *)
From stdpp Require Import gmap strings.
From S2P Require Import Prelude Heap CString SceneTimer SceneCond SceneData CondList CondRefine.
From S2P Require Import SceneTruth SceneRefine SceneFire.

Definition set_interval (t : time_cond) (m : Z) : time_cond :=
  TimeCond (acTimeKey t) (tcTriggerType t) (acTriggerInterval t) m (acStartHour t) (acStartMinu t)
    (acEndHour t) (acEndMinu t) (acWeek t) (acRepeat t) (acLose t).

(** The list with another condition in node [n] of set [k]; all bits stay. *)
Definition with_node (l1 : list cond_set) (k : cond_set) (l2 : list cond_set)
    (n1 : list cond_node) (n : cond_node) (n2 : list cond_node) (c : cond) (l : cond_list) : cond_list :=
  set_sets (l1 ++ rewritten k n1 n c n2 :: l2) l.

Lemma rewritten_bits k n1 n n2 c : pstCond k = n1 ++ n :: n2 -> cond_bits (rewritten k n1 n c n2) = cond_bits k.
Proof. intros Hns. unfold cond_bits. cbn. by rewrite Hns, !length_app. Qed.

Lemma with_node_truths l1 k l2 n1 n n2 c l :
  sets l = l1 ++ k :: l2 -> pstCond k = n1 ++ n :: n2 ->
  cond_truths (with_node l1 k l2 n1 n n2 c l) = cond_truths l.
Proof.
  intros Hs Hns. unfold cond_truths, with_node. cbn [sets set_sets].
  by rewrite Hs, !fmap_app, !fmap_cons, rewritten_bits.
Qed.

Lemma with_node_ok x t l l1 k l2 n1 n n2 c :
  list_ok x t l -> sets l = l1 ++ k :: l2 -> pstCond k = n1 ++ n :: n2 ->
  list_ok x t (with_node l1 k l2 n1 n n2 c l).
Proof.
  intros [([Hnd Hw Hl] & Hi & Hc) Hlo Hty] Hs Hns. split; [|done|done].
  unfold list_wf, with_node. cbn [sets set_sets iCount]. rewrite Hs in *. split_and!.
  - split.
    + rewrite fmap_app in *. exact Hnd.
    + apply Forall_middle in Hw as [Hw Hwk]. apply Forall_middle. split; [done|by apply rewritten_wf].
    + rewrite length_app in *. exact Hl.
  - apply indexed_app in Hi as [? [? ?]]. apply indexed_app. done.
  - rewrite Hc, !n_conds_app, !n_conds_cons. cbn [pstCond rewritten]. by rewrite Hns, !length_app.
Qed.

Lemma with_node_consistent sc Ls x t l1 k l2 n1 n n2 c :
  consistent sc Ls -> sets (Ls x t) = l1 ++ k :: l2 -> pstCond k = n1 ++ n :: n2 ->
  consistent sc (upd_pos Ls x t (with_node l1 k l2 n1 n n2 c (Ls x t))).
Proof.
  intros C Hs Hns. assert (Hn : n_conds (l1 ++ rewritten k n1 n c n2 :: l2) = n_conds (l1 ++ k :: l2)).
  { rewrite !n_conds_app, !n_conds_cons. cbn [pstCond rewritten]. by rewrite Hns, !length_app. }
  split.
  - intros x' t'. destruct (decide ((x', t') = (x, t))) as [[= -> ->]|Hne].
    + rewrite upd_pos_same. apply with_node_ok; [apply C|done|done].
    + rewrite upd_pos_other by done. apply C.
  - intros x' t' k' Hk'. destruct (decide ((x', t') = (x, t))) as [[= -> ->]|Hne].
    + rewrite upd_pos_same in *. cbn [with_node set_sets sets uiCondSetTrue] in *.
      apply elem_of_app in Hk' as [Hk'|[->|Hk']%elem_of_cons].
      * apply C. rewrite Hs, elem_of_app. by left.
      * rewrite rewritten_bits by done. apply (co_sets _ _ C x t k).
        rewrite Hs, elem_of_app, elem_of_cons. tauto.
      * apply C. rewrite Hs, elem_of_app, elem_of_cons. tauto.
    + rewrite upd_pos_other in * by done. by apply C.
  - intros x' t'. rewrite (co_lists _ _ C). f_equal.
    destruct (decide ((x', t') = (x, t))) as [[= -> ->]|Hne].
    + by rewrite upd_pos_same, with_node_truths.
    + by rewrite upd_pos_other.
  - apply C.
  - rewrite (co_scene _ _ C). f_equal. apply formula_ext; intros x' t';
      (destruct (decide ((x', t') = (x, t))) as [[= -> ->]|Hne]; [|by rewrite upd_pos_other]);
      rewrite upd_pos_same.
    + by rewrite with_node_truths.
    + cbn [with_node set_sets sets]. by rewrite Hn, Hs.
Qed.

Section time.
Context (a : positive) (x : bool) (i : ptr_info) (b : positive).
Context (Hpl : pstCondList i = Some b).

Lemma put_interval_spec s l l1 k l2 n1 n n2 t m :
  cells s !! b = Some (OList l) -> list_wf l -> sets l = l1 ++ k :: l2 ->
  pCondSetNode i = Some (csAddr k) -> pCondNode i = Some (cnAddr n) ->
  pstCond k = n1 ++ n :: n2 -> stCond n = CTime t ->
  wp (put_interval i m) s (fun _ s' =>
    s' = upd b (OList (with_node l1 k l2 n1 n n2 (CTime (set_interval t m)) l)) s).
Proof.
  intros Hc Hw Hs Hk Hn Hns Ht. destruct (set_lookup _ _ _ _ Hw Hs) as (_ & Hwk & _).
  unfold put_interval. rewrite Hpl, Hk, Hn. wp_step. eapply wp_clist; [exact Hc|].
  wp_step. eapply wp_set_at; [exact Hw|exact Hs|]. cbv beta iota.
  wp_step. eapply wp_node_at; [exact Hwk|exact Hns|]. cbv beta iota. rewrite Ht. cbn [as_time].
  wp_step. wp_step. eapply wp_set_clist; [exact Hc|]. done.
Qed.

(** Execution, and the countdown's start again. *)
Lemma exec_interval_spec s sc Ls l1 k l2 n1 n n2 t m :
  pstScene i = Some a -> scene_at s a sc Ls -> consistent sc Ls -> list_ptr sc x true = Some b ->
  reaches sc a Ls x true i l1 k l2 n1 n n2 -> stCond n = CTime t -> oom s = [] ->
  wp (scene_list_exec (pstScene i) ;; put_interval i m) s (fun _ s' => exists Ls',
    scene_at s' a sc Ls' /\ consistent sc Ls' /\ glob s' = push_exec sc (glob s) /\
    (forall x' t', (x', t') <> (x, true) -> Ls' x' t' = Ls x' t') /\
    Ls' x true = with_node l1 k l2 n1 n n2 (CTime (set_interval t m)) (Ls x true)).
Proof.
  intros Ha R C Hb [_ _ Hk Hn Hs Hns] Ht Ho. rewrite Ha. wp_step.
  eapply wp_mono; [eapply scene_list_exec_spec; [apply R|exact Ho]|]. intros r s1 [-> ->].
  destruct (sa_lists _ _ _ _ R x true) as (b' & Hb' & Hc). assert (b' = b) as -> by congruence.
  eapply wp_mono; [eapply put_interval_spec; [exact Hc|apply C|exact Hs|exact Hk|exact Hn|exact Hns|exact Ht]|].
  intros [] s1 ->. eexists. split_and!.
  - eapply scene_at_list; [by apply scene_at_glob|exact Hb].
  - by apply with_node_consistent.
  - done.
  - intros x' t' Hne. by apply upd_pos_other.
  - apply upd_pos_same.
Qed.
End time.

(** The check [v] of a condition that was [old], in a scene that is [on] once
    the check is recorded: whether the scene is executed, and the interval the
    node is left with. *)
Definition every (t : time_cond) : bool := strstr (tcTriggerType t) "Every".
Definition time_fires (v : Z) (old on : bool) (t : time_cond) : bool :=
  truth v && on && (negb old || every t && (iTriggerInterval t <=? 0)).
Definition next_interval (v : Z) (old on : bool) (t : time_cond) : Z :=
  if time_fires v old on t then s32 (atoi (acTriggerInterval t) - 1)
  else if truth v && on && old && every t then iTriggerInterval t - 1
  else iTriggerInterval t.

Lemma set_interval_id t : set_interval t (iTriggerInterval t) = t.
Proof. by destruct t. Qed.

Lemma reaches_holds sc a Ls x t i l1 k l2 n1 n n2 c :
  reaches sc a Ls x t i l1 k l2 n1 n n2 -> stCond n = c ->
  holds (sets (Ls x t)) (csAddr k) (cnAddr n) c.
Proof.
  intros [_ _ _ _ Hs Hns] Hc. exists k, n. rewrite Hs, Hns, !elem_of_app, !elem_of_cons. tauto.
Qed.

Lemma with_node_holds l1 k l2 n1 n n2 c l :
  holds (sets (with_node l1 k l2 n1 n n2 c l)) (csAddr k) (cnAddr n) c.
Proof.
  exists (rewritten k n1 n c n2), (set_node_cond c n). cbn.
  rewrite !elem_of_app, !elem_of_cons. tauto.
Qed.

(** The outcome of a check, from the state [s1] in which the bits are up to date. *)
Definition checked (s1 : mem) (a : positive) (sc : scene_info) (Ls : lists) (x : bool)
    (k : cond_set) (n : cond_node) (fire : bool) (t' : time_cond) (s' : mem) : Prop :=
  exists Ls', scene_at s' a sc Ls' /\ consistent sc Ls' /\
    cond_truths (Ls' x true) = cond_truths (Ls x true) /\
    (forall x' u, (x', u) <> (x, true) -> Ls' x' u = Ls x' u) /\
    glob s' = (if fire then push_exec sc else fun g => g) (glob s1) /\
    holds (sets (Ls' x true)) (csAddr k) (cnAddr n) (CTime t').

Lemma checked_fire a x i b s sc Ls l1 k l2 n1 n n2 t m :
  pstCondList i = Some b -> scene_at s a sc Ls -> consistent sc Ls -> list_ptr sc x true = Some b ->
  reaches sc a Ls x true i l1 k l2 n1 n n2 -> stCond n = CTime t -> oom s = [] ->
  wp (scene_list_exec (pstScene i) ;; put_interval i m) s (fun _ s' =>
    checked s a sc Ls x k n true (set_interval t m) s').
Proof.
  intros Hpl R C Hb Re Ht Ho. pose proof Re as [Ha _ _ _ Hs Hns].
  eapply wp_mono; [by eapply (exec_interval_spec a x i b Hpl)|].
  intros [] s' (Ls' & R' & C' & Hg & Hoth & Hl). exists Ls'. split_and!; [done|done| |done|done|].
  - rewrite Hl. by apply with_node_truths.
  - rewrite Hl. apply with_node_holds.
Qed.

Lemma checked_put a x i b s sc Ls l1 k l2 n1 n n2 t m :
  pstCondList i = Some b -> scene_at s a sc Ls -> consistent sc Ls -> list_ptr sc x true = Some b ->
  reaches sc a Ls x true i l1 k l2 n1 n n2 -> stCond n = CTime t ->
  wp (put_interval i m) s (fun _ s' => checked s a sc Ls x k n false (set_interval t m) s').
Proof.
  intros Hpl R C Hb [_ _ Hk Hn Hs Hns] Ht.
  destruct (sa_lists _ _ _ _ R x true) as (b' & Hb' & Hc). assert (b' = b) as -> by congruence.
  eapply wp_mono; [eapply (put_interval_spec i b Hpl); [exact Hc|apply C|exact Hs|exact Hk|exact Hn|exact Hns|exact Ht]|].
  intros [] s' ->. exists (upd_pos Ls x true (with_node l1 k l2 n1 n n2 (CTime (set_interval t m)) (Ls x true))).
  split_and!; [by apply scene_at_list|by apply with_node_consistent| | |done|].
  - rewrite upd_pos_same. by apply with_node_truths.
  - intros x' u Hne. by apply upd_pos_other.
  - rewrite upd_pos_same. apply with_node_holds.
Qed.

Lemma checked_none a x i s sc Ls l1 k l2 n1 n n2 t :
  scene_at s a sc Ls -> consistent sc Ls -> reaches sc a Ls x true i l1 k l2 n1 n n2 ->
  stCond n = CTime t -> checked s a sc Ls x k n false t s.
Proof. intros R C Re Ht. exists Ls. split_and!; try done. by eapply reaches_holds. Qed.

Lemma time_update_checked a x i b s sc Ls l1 k l2 n1 n n2 t v :
  scene_at s a sc Ls -> consistent sc Ls -> list_ptr sc x true = Some b ->
  reaches sc a Ls x true i l1 k l2 n1 n n2 -> stCond n = CTime t -> oom s = [] -> v = 0 \/ v = 1 ->
  let old := Z.testbit (uiCondTrue k) (iCondIndex n) in
  let on := scene_formula (with_bit Ls x true l1 k l2 n (truth v)) in
  let s1 := new_heap a x true b s sc Ls l1 k l2 n (truth v) in
  wp (scene_time_cond_true_update v i) s (fun r s' => r = NoErr /\
    checked s1 a (new_scene sc Ls x true l1 k l2 n (truth v)) (new_lists Ls x true l1 k l2 n (truth v))
      x (bit_set k n (truth v)) n (time_fires v old on t) (set_interval t (next_interval v old on t)) s').
Proof.
  intros R C Hb Re Ht Ho Hv old on s1. pose proof Re as [Ha Hl Hk Hn Hs Hns].
  assert (Hpl : pstCondList i = Some b) by congruence.
  destruct (sa_lists _ _ _ _ R x true) as (b' & Hb' & Hc). assert (b' = b) as -> by congruence.
  pose proof (co_list _ _ C x true) as Hlo.
  pose proof (new_consistent a x true i sc Ls l1 k l2 n1 n n2 (truth v) (consistent_but _ _ _ _ _ C) Re) as C1.
  pose proof (new_at a x true b s sc Ls l1 k l2 n (truth v) R Hb) as R1. fold s1 in R1.
  pose proof (new_reaches _ _ _ _ _ _ _ _ _ _ _ _ (truth v) Re) as Re1.
  assert (Hb1 : list_ptr (new_scene sc Ls x true l1 k l2 n (truth v)) x true = Some b) by (by rewrite new_scene_ptr).
  assert (Hon : truth (ucSceneCondTrue (new_scene sc Ls x true l1 k l2 n (truth v))) = on).
  { rewrite (co_scene _ _ C1), new_formula. unfold on. by destruct (scene_formula _). }
  unfold scene_time_cond_true_update. wp_step.
  eapply wp_mono; [eapply (cond_bit_spec x true i b l1 k l2 Hpl Hk); [exact Hc|exact Hlo|exact Hs|exact Hn|exact Hns]|].
  intros r s0 [-> ->]. fold old. wp_step.
  eapply wp_mono; [eapply (cond_at_spec i b l1 k l2 Hpl Hk); [exact Hc|apply Hlo|exact Hs|exact Hn|exact Hns]|].
  intros r s0 [-> ->]. rewrite Ht. cbn [as_time]. wp_step. wp_step. cbv zeta. fold (every t). wp_step.
  unfold time_fires, next_interval, time_fires. unfold load_scene. rewrite Ha.
  destruct (negb (v =? of_bool old)) eqn:Hch.
  - wp_step. eapply wp_mono; [eapply (update_levels_spec a x true i b Ha Hpl); [exact R|exact C|exact Hb|exact Re]|].
    intros [] s0 Hs0. change (s0 = s1) in Hs0. subst s0.
    wp_step. eapply wp_load; [apply R1|reflexivity|]. rewrite Hon.
    assert (Hno : truth v && old = false).
    { destruct Hv as [-> | ->]; [done|]. by destruct old. }
    destruct (truth v), old, on; cbn [andb orb negb] in *; try done;
      try (wp_steps; split; [done|]; rewrite set_interval_id; by eapply checked_none).
    rewrite <- Ha. eapply wp_mono; [by eapply (checked_fire a x i b s1)|].
    intros [] s' Hck. by wp_steps.
  - apply negb_false_iff, Z.eqb_eq in Hch.
    assert (truth v = old) as Htv by (rewrite Hch; by destruct old).
    destruct (new_heap_id a x true i b s sc Ls l1 k l2 n1 n n2 (truth v) R C Hb Re (eq_sym Htv)) as (Hid & _ & _).
    rewrite <- Hid. fold s1. assert (Ho1 : oom s1 = []) by (unfold s1; by rewrite Hid).
    wp_step. eapply wp_load; [apply R1|reflexivity|]. rewrite Hon, <- Htv.
    destruct (truth v), on, (every t); cbn [andb orb negb];
      try (wp_steps; split; [done|]; rewrite set_interval_id; by eapply checked_none).
    destruct (iTriggerInterval t <=? 0).
    + rewrite <- Ha. eapply wp_mono; [by eapply (checked_fire a x i b s1)|].
      intros [] s' Hck. by wp_steps.
    + eapply wp_mono; [by eapply (checked_put a x i b s1)|]. intros [] s' Hck. by wp_steps.
Qed.

(** C3: the check of a time condition keeps all bits in agreement.  It queues
    the scene on the edge, when the condition becomes true in a scene that is
    true with it, and, for an "Every" condition that stays true in such a scene,
    each time its countdown has run out; the countdown restarts at the interval
    minus one whenever the scene is queued and goes down by one otherwise. *)
Theorem scene_time_update_fires s a sc Ls x i b l1 k l2 n1 n n2 t v :
  scene_at s a sc Ls -> consistent sc Ls -> list_ptr sc x true = Some b ->
  reaches sc a Ls x true i l1 k l2 n1 n n2 -> stCond n = CTime t -> oom s = [] -> v = 0 \/ v = 1 ->
  let old := Z.testbit (uiCondTrue k) (iCondIndex n) in
  let on := scene_formula (with_bit Ls x true l1 k l2 n (truth v)) in
  wp (scene_time_cond_true_update v i) s (fun r s' => r = NoErr /\
    exists sc' Ls', same_scene sc sc' /\ scene_at s' a sc' Ls' /\ consistent sc' Ls' /\
      cond_truths (Ls' x true) = <[n_conds l1 + length n1 := truth v]>%nat (cond_truths (Ls x true)) /\
      (forall x' u, (x', u) <> (x, true) -> Ls' x' u = Ls x' u) /\
      glob s' = (if time_fires v old on t then push_exec sc' else fun g => g) (glob s) /\
      holds (sets (Ls' x true)) (csAddr k) (cnAddr n)
        (CTime (set_interval t (next_interval v old on t)))).
Proof.
  intros R C Hb Re Ht Ho Hv old on. pose proof Re as [_ _ _ _ Hs Hns].
  eapply wp_mono; [by eapply (time_update_checked a x i b)|].
  cbv zeta. fold old on. intros r s' [-> (Ls' & R' & C' & Htr & Hoth & Hg & Hh)]. split; [done|].
  exists (new_scene sc Ls x true l1 k l2 n (truth v)), Ls'. split_and!; [done|done|done| | |done|done].
  - rewrite Htr. eapply new_truths; [apply C|done|done].
  - intros x' u Hne. rewrite Hoth by done. by apply new_lists_other.
Qed.

Lemma scene_time_update_fires_witness :
  let on := scene_formula (with_bit (demo_lists true) false true [] (demo_set true) [] (demo_node true) (truth 1)) in
  time_fires 1 false on demo_tc = true /\
  wp (scene_time_cond_true_update 1 (demo_info true)) (demo_mem true) (fun r s' => r = NoErr /\
    exists sc' Ls', same_scene demo_scene sc' /\ scene_at s' 10 sc' Ls' /\ consistent sc' Ls' /\
      cond_truths (Ls' false true) =
        <[n_conds [] + length (@nil cond_node) := truth 1]>%nat (cond_truths (demo_lists true false true)) /\
      (forall x' u, (x', u) <> (false, true) -> Ls' x' u = demo_lists true x' u) /\
      glob s' = (if time_fires 1 (Z.testbit (uiCondTrue (demo_set true)) (iCondIndex (demo_node true))) on demo_tc
                 then push_exec sc' else fun g => g) (glob (demo_mem true)) /\
      holds (sets (Ls' false true)) 30 31
        (CTime (set_interval demo_tc (next_interval 1
           (Z.testbit (uiCondTrue (demo_set true)) (iCondIndex (demo_node true))) on demo_tc)))).
Proof.
  intros on. split; [vm_compute; reflexivity|].
  apply (scene_time_update_fires (demo_mem true) 10 demo_scene (demo_lists true) false (demo_info true) 1
           [] (demo_set true) [] [] (demo_node true) [] demo_tc 1).
  - exact (demo_at true).
  - exact (demo_consistent true).
  - reflexivity.
  - exact (demo_reaches true).
  - reflexivity.
  - reflexivity.
  - right; reflexivity.
Defined.

(** * Deletion *)

(** Deleting one of several conditions of a set leaves the set's word of
    truth bits alone while the conditions after the deleted one move down by
    one: the truth values that are kept are those of the first positions, not
    those of the conditions that remain. *)
Theorem cond_del_keeps_positions s this l l1 k l2 n1 n n2 p h :
  list_wf l -> ucInitFlag l = 0 -> kind_of l (stCond n) ->
  cells s !! this = Some (OList l) -> cells s !! p = Some (OPtrNode h) ->
  pstCondList (stCondPtr h) = Some this ->
  pCondSetNode (stCondPtr h) = Some (csAddr k) -> pCondNode (stCondPtr h) = Some (cnAddr n) ->
  sets l = l1 ++ k :: l2 -> pstCond k = n1 ++ n :: n2 -> (1 < length (pstCond k))%nat ->
  hd NoErr (db_results (glob s)) = NoErr ->
  wp (cond_del (Some this) (Some p)) s (fun r s' => r = NoErr /\ exists l' k',
    cells s' !! this = Some (OList l') /\ sets l' = l1 ++ k' :: l2 /\
    stCond <$> pstCond k' = (stCond <$> n1) ++ (stCond <$> n2) /\
    cond_bits k' = take (length n1 + length n2) (cond_bits k)).
Proof.
  intros Hw Hf Hkind Hc Hp Hown Ha Hb Hs Hns Hlen Hdb.
  destruct (set_lookup _ _ _ _ Hw Hs) as (_ & Hwk & _).
  assert (Hrun : forall {C} (as_kind : cond -> L C), (exists c, as_kind (stCond n) = mret c) ->
    wp (kind_cond_del as_kind (Some this) (Some p)) s (fun r s' => r = NoErr /\ exists l' k',
      cells s' !! this = Some (OList l') /\ sets l' = l1 ++ k' :: l2 /\
      stCond <$> pstCond k' = (stCond <$> n1) ++ (stCond <$> n2) /\
      cond_bits k' = take (length n1 + length n2) (cond_bits k))).
  { intros C as_kind [c Hk]. unfold kind_cond_del. cbn [is_null orb].
    wp_step. eapply wp_load; [exact Hp|reflexivity|]. cbv zeta. rewrite Hown.
    wp_step. eapply wp_clist; [exact Hc|].
    rewrite Ha, Hb. wp_step. eapply wp_set_at; [exact Hw|exact Hs|]. cbv beta iota.
    wp_step. eapply wp_node_at; [exact Hwk|exact Hns|]. cbv beta iota. rewrite Hk. wp_steps.
    eapply wp_request; [exact Hc|exact Hf|]. unfold db_answer. rewrite Hdb.
    change (NoErr =? NoErr) with true. cbv beta iota. change (NoErr =? NoErr) with true.
    cbn [negb]. destruct (Z.eqb_spec 1 (ucCondCount k)) as [H1|_].
    { rewrite (sw_count _ Hwk) in H1. lia. }
    cbv zeta. wp_step. eapply wp_set_clist; [exact Hc|]. wp_step.
    eapply wp_clist; [apply lookup_insert_eq|]. wp_step. eapply wp_set_clist; [apply lookup_insert_eq|].
    wp_steps. split; [done|].
    eexists _, (shrunk k (unlink n1 n2)). split_and!; [apply lookup_insert_eq|done| |].
    - cbn [pstCond shrunk]. rewrite unlink_app, fmap_app, <- list_fmap_compose. done.
    - unfold cond_bits. cbn [pstCond shrunk uiCondTrue]. rewrite unlink_app, Hns, !length_app, length_fmap.
      apply list_eq. intros j. unfold bits. rewrite <- fmap_take, !list_lookup_fmap. f_equal.
      rewrite take_seq, Nat.min_l by (simpl; lia). done. }
  unfold cond_del. cbn [is_null]. wp_step. eapply wp_clist; [exact Hc|].
  unfold kind_of in Hkind. unfold time_cond_del, event_cond_del.
  destruct (stCond n) as [c|c]; rewrite Hkind; apply Hrun; by eexists.
Qed.

(** Of two conditions, false and true, the first one is deleted: the one that
    remains is the true one, its bit says false. *)
Definition del_demo_set : cond_set :=
  CondSet 30 0 2 2 [CondNode 31 0 (CEvent demo_ev); CondNode 32 1 (CEvent demo_ev)].
Definition del_demo : mem :=
  Heap (<[2%positive := OList (CondList [del_demo_set] 1 2 "s1" LOGIC_OR COND_EVENT 0)]>
       (<[20%positive := OPtrNode (demo_handle false)]> ∅)) 40 [] (Env [] (Tm 1 9 0) 1000 [] [] sync_unused acts0).

Lemma cond_del_keeps_positions_witness :
  cond_bits del_demo_set = [false; true] /\
  wp (cond_del (Some 2%positive) (Some 20%positive)) del_demo (fun r s' => r = NoErr /\ exists l' k',
    cells s' !! 2%positive = Some (OList l') /\ sets l' = [] ++ k' :: [] /\
    stCond <$> pstCond k' =
      (stCond <$> []) ++ (stCond <$> [CondNode 32 1 (CEvent demo_ev)]) /\
    cond_bits k' = take (0 + 1) (cond_bits del_demo_set)).
Proof.
  split; [vm_compute; reflexivity|].
  apply (cond_del_keeps_positions del_demo 2 (CondList [del_demo_set] 1 2 "s1" LOGIC_OR COND_EVENT 0)
           [] del_demo_set [] [] (CondNode 31 0 (CEvent demo_ev)) [CondNode 32 1 (CEvent demo_ev)] 20
           (demo_handle false)); try reflexivity; try (simpl; lia).
  split_and!; [split| |]; simpl.
  - apply NoDup_singleton.
  - apply Forall_cons. split; [|by apply Forall_nil].
    split; simpl; [|split_and!; done|lia|done].
    apply NoDup_cons_2; [|apply NoDup_singleton]. intros H%list_elem_of_singleton. discriminate H.
  - lia.
  - split; [reflexivity|exact I].
  - reflexivity.
Defined.
