(* ===== verification/SceneOps.v ===== *)
(** The conditions of a scene in scene_list.c: each of the four condition lists
    with the table of pointer nodes that finds a condition by its key and its
    scene.  [x] is the And part (else Or). *)
From stdpp Require Import gmap strings.
From S2P Require Import Prelude Heap CString HashTable SceneTimer SceneCond SceneSync SceneData PtrHash CondList SceneTruth SceneRefine.

Definition PRT_HASH_TYPE_COND : string := "cond".
Definition JSON_VALUE_KEY_MANUAL : string := "Manual".
Definition COND_MAX_NUM : nat := 128.

(** [snprintf(acHashKey, KEY_MAX_LEN, ...)] *)
Definition hash_key (s : string) : string := str_take (KEY_MAX_LEN - 1) s.
Definition time_hash_key (c : time_cond) : string := hash_key (acTimeKey c +:+ PRT_HASH_TYPE_COND).
Definition event_hash_key (dev key : string) : string := hash_key (dev +:+ key +:+ PRT_HASH_TYPE_COND).

(** A method call through an object: the pointer is dereferenced first. *)
Definition via (p : ptr) {A} (m : L A) : L A := _ ← this_ p; m.

(** The fields of a scene that the operations write. *)
Definition set_list_bits (x : bool) (f : Z -> Z) (sc : scene_info) : scene_info :=
  let up c := CondLogic (u8 (f (ucCondListTrue c))) (pstTimeCondList c) (pstEventCondList c) in
  SceneInfo (acSceneId sc) (acSceneName sc) (cManualTriggerFlag sc) (acSceneEnable sc)
    (acExecDelayed sc) (acUpdateTime sc) (acNote sc) (ucSceneCondTrue sc) (pstPanel sc)
    (if x then stOrCond sc else up (stOrCond sc))
    (if x then up (stAndCond sc) else stAndCond sc) (pstAction sc).
Definition set_manual (f : Z) (sc : scene_info) : scene_info :=
  SceneInfo (acSceneId sc) (acSceneName sc) f (acSceneEnable sc)
    (acExecDelayed sc) (acUpdateTime sc) (acNote sc) (ucSceneCondTrue sc) (pstPanel sc)
    (stOrCond sc) (stAndCond sc) (pstAction sc).
Definition set_init_flag (f : Z) (l : cond_list) : cond_list :=
  CondList (sets l) (uiCondSetTrue l) (iCount l) (clId l) (acLogic l) (acCondType l) f.
Definition set_owner (id : string) (scene : ptr) (h : ptr_node) : ptr_node :=
  let i := stCondPtr h in
  PtrNode (PtrInfo (str_take INDEX_MAX_LEN id) scene (pstCondList i) (pCondSetNode i) (pCondNode i)
    (pScenePanelNode i)) (pnNext h) (pnPrev h).

Definition upd_scene (p : ptr) (f : scene_info -> scene_info) : L unit :=
  sc ← load to_scene p; store p (OScene (f sc)).
Definition upd_list (p : ptr) (f : cond_list -> cond_list) : L unit :=
  l ← this_ p; set_this p (f l).

Section ops.
Context (char_signed : bool).

(** * The table of pointer nodes, among the private parameters of the class *)

Definition the_table (this : ptr) : L ptr :=
  c ← load to_scenes this;
  _ ← HashTable.this_ (pHashTable c);
  mret (pHashTable c).
Definition tab_find (this : ptr) (key id : string) : L ptr :=
  t ← the_table this; ptr_hash_find char_signed t (Some key) (Some id).
Definition tab_find_all (this : ptr) (key : string) : L ptr :=
  t ← the_table this; ptr_hash_find_all char_signed t (Some key).
Definition tab_inst (this : ptr) (key : string) (node : ptr) : L Z :=
  t ← the_table this; ptr_hash_inst char_signed t (Some key) node.
Definition tab_del (this : ptr) (key id : string) : L Z :=
  t ← the_table this; ptr_hash_del char_signed t (Some key) (Some id).

(** * Adding and changing

    The body the four additions share: the condition's node if the scene has
    one, else a new one; [init] runs on it when the list and the table took
    it. *)
Definition scene_cond_add (this pstCurrScene : ptr) (x t : bool) (acHashKey : string) (c : cond)
    (init : ptr -> L unit) : L Z :=
  sc ← load to_scene pstCurrScene;
  pHashValue ← tab_find this acHashKey (acSceneId sc);
  let plist := list_ptr sc x t in
  if negb (is_null pHashValue) then
    iRet ← via plist (cond_set_ plist (Some c) pHashValue);
    (if iRet =? NoErr then init pHashValue else mret tt) ;;
    mret iRet
  else
    pNew ← alloc (OPtrNode ptr_node0);
    if is_null pNew then mret HeapReqErr else
    iRet ← via plist (cond_add plist (Some c) pNew);
    h ← load to_node pNew;
    store pNew (OPtrNode (set_owner (acSceneId sc) pstCurrScene h)) ;;
    r ← tab_inst this acHashKey pNew;
    (if iRet + r =? NoErr then init pNew else mret tt) ;;
    mret (iRet + r).

Definition scene_time_cond_add (x : bool) (this pstCurrScene : ptr) (pstCondInfo : option time_cond) : L Z :=
  match pstCondInfo with
  | None => mret ParaErr
  | Some c =>
      if is_null this || is_null pstCurrScene then mret ParaErr else
      scene_cond_add this pstCurrScene x true (time_hash_key c) (CTime c)
        (fun pHashValue => _ ← scene_time_cond_true_init 0 pHashValue; mret tt)
  end.
Definition scene_time_or_cond_add := scene_time_cond_add false.
Definition scene_time_and_cond_add := scene_time_cond_add true.

(** The truth a new event condition starts with. *)
Definition first_truth (c : event_cond) : Z :=
  if (String.length (acLastValue c) =? 0)%nat then 0
  else _scene_event_cond_is_true c
         (Event (str_take DEV_ID_MAX_LEN (ecDevId c)) (str_take KEY_MAX_LEN (ecKey c))
            (str_take 128 (acLastValue c))).

Definition scene_event_or_cond_add (this pstCurrScene : ptr) (pstCondInfo : option event_cond) : L Z :=
  match pstCondInfo with
  | None => mret ParaErr
  | Some c =>
      if is_null this || is_null pstCurrScene then mret ParaErr else
      if strn_eq KEY_MAX_LEN (ecKey c) JSON_VALUE_KEY_MANUAL then
        sc ← load to_scene pstCurrScene;
        if 0 =? cManualTriggerFlag sc then
          iRet ← cond_add_db (list_ptr sc false false);
          if negb (iRet =? NoErr) then mret iRet else
          upd_scene pstCurrScene (set_manual 1) ;;
          mret NoErr
        else mret NoErr
      else
        scene_cond_add this pstCurrScene false false (event_hash_key (ecDevId c) (ecKey c)) (CEvent c)
          (fun pHashValue => _ ← scene_event_cond_true_init (first_truth c) pHashValue; mret tt)
  end.

(** The first condition of the And list only clears the list's bit. *)
Definition scene_event_and_cond_add (this pstCurrScene : ptr) (pstCondInfo : option event_cond) : L Z :=
  match pstCondInfo with
  | None => mret ParaErr
  | Some c =>
      if is_null this || is_null pstCurrScene then mret ParaErr else
      scene_cond_add this pstCurrScene true false (event_hash_key (ecDevId c) (ecKey c)) (CEvent c)
        (fun pHashValue =>
           sc ← load to_scene pstCurrScene;
           n ← via (list_ptr sc true false) (cond_size (list_ptr sc true false));
           if 1 =? n then upd_scene pstCurrScene (set_list_bits true (fun u => put_bit u (Z.shiftl 1 1) false))
           else _ ← scene_event_cond_true_init (first_truth c) pHashValue; mret tt)
  end.

(** * Deleting *)

(** The truth of the set a handle points to, as the And or Or of its bits. *)
Definition set_truth (x : bool) (pstCondPtr : ptr) : L Z :=
  i ← handle pstCondPtr;
  l ← this_ (pstCondList i);
  '(_, k, _) ← the_set (pCondSetNode i) l;
  w ← low_mask (ucCondCount k);
  mret (of_bool (if x then all_bits (uiCondTrue k) w else any_bit (uiCondTrue k) w)).

(** [emptied] runs when the list has no condition left, [settle] otherwise;
    [res] is what the function makes of the sum of the results. *)
Definition scene_cond_del (this pstCurrScene : ptr) (x t : bool) (acHashKey : string)
    (emptied : L unit) (settle : ptr -> L unit) (res : Z -> Z) : L Z :=
  sc ← load to_scene pstCurrScene;
  pHashValue ← tab_find this acHashKey (acSceneId sc);
  if is_null pHashValue then mret NotFoundErr else
  let plist := list_ptr sc x t in
  iRet ← via plist (cond_del plist pHashValue);
  (if iRet =? NoErr then
     n ← cond_size plist;
     if 0 =? n then upd_list plist (set_truths 0) ;; emptied
     else settle pHashValue
   else mret tt) ;;
  r ← tab_del this acHashKey (acSceneId sc);
  mret (res (iRet + r)).

Definition scene_time_cond_del (x : bool) (this pstCurrScene : ptr) (pstCondInfo : option time_cond) : L Z :=
  match pstCondInfo with
  | None => mret ParaErr
  | Some c =>
      if is_null this || is_null pstCurrScene then mret ParaErr else
      scene_cond_del this pstCurrScene x true (time_hash_key c)
        (upd_scene pstCurrScene (set_list_bits x (fun u => put_bit u (Z.shiftl 1 0) x)))
        (fun p => iTrue ← set_truth x p; _ ← scene_time_cond_set_true_init iTrue p; mret tt) id
  end.
Definition scene_time_or_cond_del := scene_time_cond_del false.
Definition scene_time_and_cond_del := scene_time_cond_del true.

(** Whatever the deletion of an Or condition from list and table returns, the
    function returns NoErr. *)
Definition scene_event_or_cond_del (this pstCurrScene : ptr) (pstCondInfo : option event_cond) : L Z :=
  match pstCondInfo with
  | None => mret ParaErr
  | Some c =>
      if is_null this || is_null pstCurrScene then mret ParaErr else
      if strn_eq KEY_MAX_LEN (ecKey c) JSON_VALUE_KEY_MANUAL then
        sc ← load to_scene pstCurrScene;
        if 1 =? cManualTriggerFlag sc then
          iRet ← cond_del_db (list_ptr sc false false);
          if negb (iRet =? NoErr) then mret iRet else
          upd_scene pstCurrScene (set_manual 0) ;;
          mret NoErr
        else mret NoErr
      else
        scene_cond_del this pstCurrScene false false (event_hash_key (ecDevId c) (ecKey c))
          (upd_scene pstCurrScene (set_list_bits false (fun u => put_bit u (Z.shiftl 1 1) false)))
          (fun p => iTrue ← set_truth false p; _ ← scene_event_cond_set_true_init iTrue p; mret tt)
          (fun _ => NoErr)
  end.

(** The bit that is set when the list becomes empty is bit 0, that of the time
    list. *)
Definition scene_event_and_cond_del (this pstCurrScene : ptr) (pstCondInfo : option event_cond) : L Z :=
  match pstCondInfo with
  | None => mret ParaErr
  | Some c =>
      if is_null this || is_null pstCurrScene then mret ParaErr else
      scene_cond_del this pstCurrScene true false (event_hash_key (ecDevId c) (ecKey c))
        (upd_scene pstCurrScene (set_list_bits true (fun u => put_bit u (Z.shiftl 1 0) true)))
        (fun p => iTrue ← set_truth true p; _ ← scene_event_cond_set_true_init iTrue p; mret tt) id
  end.

(** * Reading *)

Definition scene_event_cond_get (this pstCurrScene : ptr) (pstCondInfo : option event_cond)
    : L (Z * option event_cond) :=
  match pstCondInfo with
  | None => mret (ParaErr, None)
  | Some c =>
      if is_null this || is_null pstCurrScene then mret (ParaErr, None) else
      sc ← load to_scene pstCurrScene;
      pHashValue ← tab_find this (event_hash_key (ecDevId c) (ecKey c)) (acSceneId sc);
      if is_null pHashValue then mret (-1, Some c) else
      i ← handle pHashValue;
      n ← cond_at i; e ← as_event n;
      mret (0, Some e)
  end.
Definition scene_event_or_cond_get := scene_event_cond_get.
Definition scene_event_and_cond_get := scene_event_cond_get.

(** The result and the conditions copied to the caller's array. *)
Definition scene_cond_get_list (x t : bool) (this pstCurrScene : ptr) (iMax : Z) : L (Z * list cond) :=
  if is_null this || is_null pstCurrScene then mret (ParaErr, []) else
  sc ← load to_scene pstCurrScene;
  via (list_ptr sc x t) (cond_get_list (list_ptr sc x t) iMax).
Definition scene_time_or_cond_get_list := scene_cond_get_list false true.
Definition scene_time_and_cond_get_list := scene_cond_get_list true true.
Definition scene_event_or_cond_get_list := scene_cond_get_list false false.
Definition scene_event_and_cond_get_list := scene_cond_get_list true false.

(** * Clearing *)

Definition key_of_cond (t : bool) (c : cond) : L string :=
  if t then c ← as_time c; mret (time_hash_key c)
  else e ← as_event c; mret (event_hash_key (ecDevId e) (ecKey e)).

(** The walk over the conditions frees them; the list of sets is cleared at
    the end.  [db_first]: whether the row goes before the table entry. *)
Definition clear_walk (db_first : bool) (t : bool) (this plist : ptr) (id : string) (iClearDbFlag : Z)
    (cs : list cond) : L unit :=
  each (fun c =>
    key ← key_of_cond t c;
    let db : L unit := if 1 =? iClearDbFlag then _ ← via plist (cond_del_db plist); mret tt else mret tt in
    (if db_first then db else mret tt) ;;
    _ ← tab_del this key id;
    if db_first then mret tt else db) cs.

Definition clear_list (plist : ptr) : L unit :=
  upd_list plist (fun l => set_truths 0 (set_count 0 (set_sets [] l))).

Definition scene_cond_clear (x t : bool) (this pstCurrScene : ptr) (iClearDbFlag : Z) : L Z :=
  if is_null this || is_null pstCurrScene then mret ParaErr else
  sc ← load to_scene pstCurrScene;
  let plist := list_ptr sc x t in
  l ← this_ plist;
  clear_walk false t this plist (acSceneId sc) iClearDbFlag (stCond <$> concat (pstCond <$> sets l)) ;;
  clear_list plist ;;
  mret NoErr.
Definition scene_time_or_cond_clear := scene_cond_clear false true.
Definition scene_time_and_cond_clear := scene_cond_clear true true.
Definition scene_event_and_cond_clear := scene_cond_clear true false.
Definition scene_event_or_cond_clear (this pstCurrScene : ptr) (iClearDbFlag : Z) : L Z :=
  if is_null this || is_null pstCurrScene then mret ParaErr else
  sc ← load to_scene pstCurrScene;
  let plist := list_ptr sc false false in
  l ← this_ plist;
  clear_walk true false this plist (acSceneId sc) iClearDbFlag (stCond <$> concat (pstCond <$> sets l)) ;;
  (if (1 =? cManualTriggerFlag sc) && (1 =? iClearDbFlag) then _ ← via plist (cond_del_db plist); mret tt
   else mret tt) ;;
  clear_list plist ;;
  mret NoErr.

(** * Synchronising a list with an array

    The conditions of the array that the list lacks are added, those that
    differ changed, those of the list that the array lacks deleted.  The array
    [pastCondInfo] has [iCount] entries in use. *)

(** [p->next] and [next] of the list of sets, by address. *)
Definition next_node (plist pset pnode : ptr) : L ptr :=
  l ← this_ plist;
  '(_, k, _) ← the_set pset l;
  '(_, _, n2) ← the_node pnode k;
  mret (cnAddr <$> head n2).
Definition next_set (plist pset : ptr) : L ptr :=
  l ← this_ plist;
  '(_, _, l2) ← the_set pset l;
  mret (csAddr <$> head l2).
Definition first_node (plist pset : ptr) : L ptr :=
  l ← this_ plist;
  '(_, k, _) ← the_set pset l;
  mret (cnAddr <$> head (pstCond k)).
Definition node_cond (plist pset pnode : ptr) : L cond :=
  l ← this_ plist;
  '(_, k, _) ← the_set pset l;
  '(_, n, _) ← the_node pnode k;
  mret (stCond n).

Section sync.
Context {C : Type} (as_kind : cond -> L C) (same differs : C -> C -> bool).
Context (add del : C -> L Z) (clear : L Z) (flag : C -> Z -> L Z).
Context (pastCondInfo : list C).

(** The entry of the condition: its index and true, or [iCount] and false. *)
Fixpoint find_entry (n : nat) (i : Z) (c : C) : L (Z * bool) :=
  match n with
  | O => mret (i, false)
  | S n =>
      e ← arr_get pastCondInfo i;
      if same c e then mret (i, true) else find_entry n (i + 1) c
  end.

(** One condition of the list; the flags say which entries were found. *)
Definition cond_sync_node (iCount : Z) (plist pset pnode : ptr) (pacFoundFlag : list Z) : L (list Z) :=
  n ← node_cond plist pset pnode;
  c ← as_kind n;
  '(i, iFlag) ← find_entry (Z.to_nat iCount) 0 c;
  e ← arr_get pastCondInfo i;
  if (iFlag : bool) then
    (if differs c e then _ ← add e; mret tt else mret tt) ;;
    arr_set pacFoundFlag i 1
  else
    _ ← del e;
    mret pacFoundFlag.

(** The walks; a set has at most 32 conditions, a list at most 32 sets. *)
Definition cond_sync_set (iCount : Z) (plist pset : ptr) (pacFoundFlag : list Z) : L (list Z) :=
  p ← first_node plist pset;
  loop 33 (fun '(p, flags) =>
    if is_null p then mret (inr flags) else
    flags ← cond_sync_node iCount plist pset p flags;
    p ← next_node plist pset p;
    mret (inl (p, flags))) (p, pacFoundFlag).

Definition cond_sync_sets (iCount : Z) (plist : ptr) (pstNode : ptr) (pacFoundFlag : list Z) : L (list Z) :=
  loop 33 (fun '(pset, flags) =>
    if is_null pset then mret (inr flags) else
    flags ← cond_sync_set iCount plist pset flags;
    pset ← next_set plist pset;
    mret (inl (pset, flags))) (pstNode, pacFoundFlag).

Definition cond_sync (plist : ptr) (iCount : Z) : L Z :=
  if iCount <? 0 then mret ParaErr else
  l ← this_ plist;
  match sets l with
  | [] =>
      for_up (Z.to_nat iCount) 0 (fun i _ => e ← arr_get pastCondInfo i; _ ← add e; mret tt) tt ;;
      mret NoErr
  | k :: _ =>
      if 0 =? iCount then _ ← clear; mret NoErr else
      ok ← reserve;
      if negb ok then mret HeapReqErr else
      flags ← cond_sync_sets iCount plist (Some (csAddr k)) (replicate (Z.to_nat iCount) 0);
      for_up (Z.to_nat iCount) 0 (fun i _ =>
        e ← arr_get pastCondInfo i;
        f ← arr_get flags i;
        f ← flag e f;
        if 0 =? f then _ ← add e; mret tt else mret tt) tt ;;
      mret NoErr
  end.
End sync.

Definition same_time (c e : time_cond) : bool := strn_eq KEY_MAX_LEN (acTimeKey c) (acTimeKey e).
Definition time_differs (c e : time_cond) : bool :=
  negb (strn_eq 8 (tcTriggerType c) (tcTriggerType e) &&
        strn_eq 8 (acTriggerInterval c) (acTriggerInterval e) &&
        strn_eq 8 (acStartHour c) (acStartHour e) && strn_eq 8 (acStartMinu c) (acStartMinu e) &&
        strn_eq 8 (acEndHour c) (acEndHour e) && strn_eq 8 (acEndMinu c) (acEndMinu e) &&
        strn_eq WEEK_MAX_LEN (acWeek c) (acWeek e) && strn_eq STATE_MAX_LEN (acRepeat c) (acRepeat e) &&
        strn_eq STATE_MAX_LEN (acLose c) (acLose e)).
Definition same_event (c e : event_cond) : bool :=
  strn_eq DEV_ID_MAX_LEN (ecDevId c) (ecDevId e) && strn_eq KEY_MAX_LEN (ecKey c) (ecKey e).
Definition event_differs (c e : event_cond) : bool :=
  negb (strn_eq 128 (ecTriggerType c) (ecTriggerType e) && strn_eq 128 (acContinueTime c) (acContinueTime e) &&
        strn_eq 128 (ecValue c) (ecValue e) && strn_eq ACTIVE_MAX_LEN (acActive c) (acActive e) &&
        strn_eq ACTIVE_MAX_LEN (acLastValue c) (acLastValue e)).

Definition scene_time_cond_sync (x : bool) (this pstCurrScene : ptr) (pastCondInfo : list time_cond) (iCount : Z) : L Z :=
  if is_null this || is_null pstCurrScene then mret ParaErr else
  sc ← load to_scene pstCurrScene;
  cond_sync as_time same_time time_differs
    (fun e => scene_time_cond_add x this pstCurrScene (Some e))
    (fun e => scene_time_cond_del x this pstCurrScene (Some e))
    (scene_cond_clear x true this pstCurrScene 1)
    (fun _ f => mret f) pastCondInfo (list_ptr sc x true) iCount.
Definition scene_time_or_cond_sync := scene_time_cond_sync false.
Definition scene_time_and_cond_sync := scene_time_cond_sync true.

(** The manual condition is not in the list: its flag stands for it. *)
Definition scene_event_or_cond_sync (this pstCurrScene : ptr) (pastCondInfo : list event_cond) (iCount : Z) : L Z :=
  if is_null this || is_null pstCurrScene then mret ParaErr else
  sc ← load to_scene pstCurrScene;
  cond_sync as_event same_event event_differs
    (fun e => scene_event_or_cond_add this pstCurrScene (Some e))
    (fun e => scene_event_or_cond_del this pstCurrScene (Some e))
    (scene_event_or_cond_clear this pstCurrScene 1)
    (fun e f => if strn_eq KEY_MAX_LEN (ecKey e) JSON_VALUE_KEY_MANUAL
                then sc ← load to_scene pstCurrScene; mret (cManualTriggerFlag sc) else mret f)
    pastCondInfo (list_ptr sc false false) iCount.
Definition scene_event_and_cond_sync (this pstCurrScene : ptr) (pastCondInfo : list event_cond) (iCount : Z) : L Z :=
  if is_null this || is_null pstCurrScene then mret ParaErr else
  sc ← load to_scene pstCurrScene;
  cond_sync as_event same_event event_differs
    (fun e => scene_event_and_cond_add this pstCurrScene (Some e))
    (fun e => scene_event_and_cond_del this pstCurrScene (Some e))
    (scene_event_and_cond_clear this pstCurrScene 1)
    (fun _ f => mret f) pastCondInfo (list_ptr sc true false) iCount.

(** * Initialising from the database

    [rows] is what [cond_get_list_db] reads; the rest of the array of
    COND_MAX_NUM entries is zeroed. *)
Definition cond_init {C} (blank : C) (x t : bool) (sync : list C -> Z -> L Z) (this pstCurrScene : ptr)
    (rows : list C) : L Z :=
  if is_null this then mret ParaErr else
  sc ← load to_scene pstCurrScene;
  ok ← reserve;
  if negb ok then mret HeapReqErr else
  upd_list (list_ptr sc x t) (set_init_flag 1) ;;
  let rows := take COND_MAX_NUM rows in
  iRet ← sync (rows ++ replicate (COND_MAX_NUM - length rows) blank) (Z.of_nat (length rows));
  upd_list (list_ptr sc x t) (set_init_flag 0) ;;
  mret iRet.

Definition blank_time : time_cond := TimeCond "" "" "" 0 "" "" "" "" "" "" "".
Definition blank_event : event_cond := EventCond "" "" "" "" "" "" "".

Definition scene_time_or_cond_init (this pstCurrScene : ptr) : list time_cond -> L Z :=
  cond_init blank_time false true (scene_time_or_cond_sync this pstCurrScene) this pstCurrScene.
Definition scene_time_and_cond_init (this pstCurrScene : ptr) : list time_cond -> L Z :=
  cond_init blank_time true true (scene_time_and_cond_sync this pstCurrScene) this pstCurrScene.
Definition scene_event_or_cond_init (this pstCurrScene : ptr) : list event_cond -> L Z :=
  cond_init blank_event false false (scene_event_or_cond_sync this pstCurrScene) this pstCurrScene.
Definition scene_event_and_cond_init (this pstCurrScene : ptr) : list event_cond -> L Z :=
  cond_init blank_event true false (scene_event_and_cond_sync this pstCurrScene) this pstCurrScene.
End ops.
