(* ===== verification/SceneEvent.v ===== *)
(** What the reports of devices, the clock and the execution thread do
    (scene_list.c): [scene_event], [scene_active], [scene_time_true_all] and the
    loop bodies of the two threads. *)
From stdpp Require Import gmap strings.
From S2P Require Import Prelude Heap CString HashTable SceneTimer SceneCond SceneSync SceneData PtrHash ActionList CondList SceneTruth SceneRefine SceneOps.

Definition PRT_HASH_TYPE_SCENE_BIND : string := "scene_bind".

Definition set_last_value (v : string) (e : event_cond) : event_cond :=
  EventCond (ecDevId e) (ecKey e) (ecTriggerType e) (acContinueTime e) (ecValue e) (acActive e)
    (str_take VALUE_MAX_LEN v).

(** A walk over the nodes behind the head of a key, [body] on each; a result of
    [body] ends it. *)
Definition walk_nodes (pHashValue : ptr) (body : ptr -> L (option Z)) : L Z :=
  h ← load to_node pHashValue;
  k ← fuel;
  loop k (fun p : ptr =>
    if is_null p then mret (inr NoErr) else
    r ← body p;
    match r with
    | Some iRet => mret (inr iRet)
    | None => n ← load to_node p; mret (inl (pnNext n))
    end) (pnNext h).

(** * Events *)

(** The new value, in the condition and in the database; a failure is what the
    event returns. *)
Definition update_last_value (p : ptr) (v : string) : L (option Z) :=
  i ← handle p;
  upd_node p (fun c => e ← as_event c; mret (CEvent (set_last_value v e))) ;;
  iRet ← via (pstCondList i) (cond_set_db (pstCondList i));
  mret (if negb (iRet =? NoErr) then Some iRet else None).

Section event.
Context (char_signed : bool).

(** A report that is no answer is passed on to the other devices of the scene's
    Or event list. *)
Definition sync_others (this : ptr) (pstEventInfo : event_t) (pstScene : ptr) : L unit :=
  '(_, astCondInfo) ← scene_event_or_cond_get_list this pstScene (Z.of_nat COND_MAX_NUM);
  each (fun c =>
    e ← as_event c;
    if strn_eq DEV_ID_MAX_LEN (evDevId pstEventInfo) (ecDevId e) && strn_eq KEY_MAX_LEN (evKey pstEventInfo) (ecKey e)
    then mret tt
    else g ← getg;
         _ ← sync_call (scene_sync_event_req_add (unix_time g) (ecDevId e) (ecKey e) (evValue pstEventInfo));
         mret tt) astCondInfo.

(** One condition on the event's device and key. *)
Definition scene_event_node (this : ptr) (pstEventInfo : event_t) (p : ptr) : L (option Z) :=
  i ← handle p;
  sc ← load_scene i;
  if strn_eq STATE_MAX_LEN (acSceneEnable sc) "0" then mret None else
  c ← cond_at i; e ← as_event c;
  let changed := negb (strn_eq VALUE_MAX_LEN (acLastValue e) (evValue pstEventInfo)) in
  if str_eq (ecTriggerType e) "StateSync" then
    if changed then
      g ← getg;
      r ← sync_call (scene_sync_event (unix_time g) (evDevId pstEventInfo) (evKey pstEventInfo) (evValue pstEventInfo));
      (if 1 =? r then mret tt else sync_others this pstEventInfo (pstScene i)) ;;
      update_last_value p (evValue pstEventInfo)
    else mret None
  else
    let iTrue := _scene_event_cond_is_true e pstEventInfo in
    r ← (if changed then update_last_value p (evValue pstEventInfo) else mret None);
    match r with
    | Some iRet => mret (Some iRet)
    | None => _ ← scene_event_cond_true_update iTrue p; mret None
    end.

(** A scene without conditions, or with the manual one, is executed on demand. *)
Definition scene_list_active (this pstInfo : ptr) : L Z :=
  if is_null this || is_null pstInfo then mret ParaErr else
  sc ← load to_scene pstInfo;
  if 1 =? cManualTriggerFlag sc then
    if strn_eq STATE_MAX_LEN (acSceneEnable sc) "1" then scene_list_exec pstInfo else mret NoErr
  else if strn_eq STATE_MAX_LEN (acSceneEnable sc) "1" then
    let size x t := via (list_ptr sc x t) (cond_size (list_ptr sc x t)) in
    n1 ← size false true; n2 ← size false false; n3 ← size true true; n4 ← size true false;
    if 0 =? n1 + n2 + n3 + n4 then scene_list_exec pstInfo else mret NoErr
  else mret NoErr.

Definition panel_hash_key (ev : event_t) : string :=
  hash_key (evDevId ev +:+ evKey ev +:+ evValue ev +:+ PRT_HASH_TYPE_SCENE_BIND).

Definition scene_panel_node (this p : ptr) : L (option Z) :=
  i ← handle p;
  n ← load to_panel (pScenePanelNode i);
  (if strn_eq STATE_MAX_LEN (acEnable (stPanel n)) "1"
   then _ ← scene_list_active this (pstScene i); mret tt else mret tt) ;;
  mret None.

(** Conditions on the key go first; panels count when there is none. *)
Definition scene_list_event (this : ptr) (pstEventInfo : option event_t) : L Z :=
  match pstEventInfo with
  | None => mret ParaErr
  | Some ev =>
      if is_null this then mret ParaErr else
      pHashValue ← tab_find_all char_signed this (event_hash_key (evDevId ev) (evKey ev));
      if negb (is_null pHashValue) then walk_nodes pHashValue (scene_event_node this ev) else
      pHashValue ← tab_find_all char_signed this (panel_hash_key ev);
      if negb (is_null pHashValue) then walk_nodes pHashValue (scene_panel_node this) else
      mret NoErr
  end.
End event.

(** The function of a "Continue" timer. *)
Definition _scene_continue_trigger_timer_fun (pstCondPtr : ptr) : L unit :=
  i ← handle pstCondPtr;
  sc ← load_scene i;
  if truth (ucSceneCondTrue sc) then _ ← scene_list_exec (pstScene i); mret tt else mret tt.

(** * The clock *)

(** The condition node at [i] becomes [c]. *)
Definition put_cond_node (i : ptr_info) (c : cond) : L unit :=
  l ← this_ (pstCondList i);
  '(l1, k, l2) ← the_set (pCondSetNode i) l;
  '(n1, n, n2) ← the_node (pCondNode i) k;
  set_this (pstCondList i) (set_sets
    (l1 ++ CondSet (csAddr k) (iCondSetIndex k) (uiCondTrue k) (ucCondCount k)
             (n1 ++ set_node_cond c n :: n2) :: l2) l).

(** One time condition: evaluated (which may mark it as lost) and updated. *)
Definition time_true_node (pstScene plist pset p : ptr) : L unit :=
  sc ← load to_scene pstScene;
  let i := PtrInfo (str_take INDEX_MAX_LEN (acSceneId sc)) pstScene plist pset p NULL in
  c ← cond_at i; t ← as_time c;
  g ← getg;
  let '(iNewTrue, t') := _scene_time_cond_is_true (local_time g) t in
  put_cond_node i (CTime t') ;;
  _ ← scene_time_cond_true_update iNewTrue i;
  mret tt.

(** The conditions of a set, the sets of a list: at most 32 of either. *)
Definition time_true_set (pstScene plist pset : ptr) : L unit :=
  p ← first_node plist pset;
  loop 33 (fun p : ptr =>
    if is_null p then mret (inr tt) else
    time_true_node pstScene plist pset p ;;
    p ← next_node plist pset p;
    mret (inl p)) p.
Definition time_true_list (pstScene plist : ptr) : L unit :=
  l ← this_ plist;
  loop 33 (fun pset : ptr =>
    if is_null pset then mret (inr tt) else
    time_true_set pstScene plist pset ;;
    pset ← next_set plist pset;
    mret (inl pset)) (csAddr <$> head (sets l)).

(** Every scene, whether it is enabled or not. *)
Definition scene_list_time_true_all (this : ptr) : L Z :=
  if is_null this then mret ParaErr else
  c ← load to_scenes this;
  each (fun a =>
    sc ← load to_scene (Some a);
    time_true_list (Some a) (list_ptr sc false true) ;;
    sc ← load to_scene (Some a);
    time_true_list (Some a) (list_ptr sc true true)) (scenes c) ;;
  mret NoErr.

(** One round of the thread [scene_cond]; the result is [iTimeCondCheck]. *)
Definition scene_cond (this : ptr) (iTimeCondCheck : Z) : L Z :=
  g ← getg;
  let iNow := unix_time g in
  if 60 <=? iNow - iTimeCondCheck then
    _ ← scene_list_time_true_all this;
    mret (s32 iNow)
  else mret iTimeCondCheck.

(** * Execution *)

Section exec.
Context {json : Type} (cJSON_Parse : string -> option json).
Context (JSON_value_get : string -> nat -> json -> option string).

Definition scene_report_scene_exec (this : ptr) (pcSceneId : string) : L Z :=
  c ← load to_scenes this;
  (if is_null (pSceneReportHandler c) then mret tt else emit (SceneReport pcSceneId)) ;;
  mret NoErr.
Definition scene_report_reg (this pSceneReportFun : ptr) : L Z :=
  if is_null this || is_null pSceneReportFun then mret ParaErr else
  c ← load to_scenes this;
  store this (OSceneList (SceneList (scenes c) (pHashTable c) (slInitFlag c) pSceneReportFun)) ;;
  mret NoErr.

(** A scene is due at once, or [iExecDelayed] seconds after it was queued. *)
Definition due (now : Z) (q : queue_node) : bool :=
  (0 =? iExecDelayed q) || (iExecDelayed q <=? now - iTime q).

(** The queue node at index [n]: executed and deleted, or left.  The result is
    the index to go on with. *)
Definition exec_node (this : ptr) (n : nat) : L (nat + unit) :=
  g ← getg;
  match exec_queue g !! n with
  | None => mret (inr tt)
  | Some q =>
      if due (unix_time g) q then
        let pScene := stSceneInfo q in
        _ ← ActionList.this_ (pstAction pScene);
        _ ← action_list_exec_all cJSON_Parse JSON_value_get (pstAction pScene);
        _ ← scene_report_scene_exec this (acSceneId pScene);
        setg (fun g => set_queue (delete n (exec_queue g)) g) ;;
        mret (inl n)
      else mret (inl (S n))
  end.

(** One round of the thread [scene_exec]. *)
Definition scene_exec (this : ptr) : L unit :=
  g ← getg;
  _ ← sync_call (scene_sync_event_req_exec (unix_time g));
  g ← getg;
  loop (S (length (exec_queue g))) (exec_node this) 0%nat.
End exec.
