(* ===== verification/OpsRefine.v ===== *)
(** Runs of the operations of SceneOps.v: the table of pointer nodes behind the
    class, where an addition puts a condition, and the state in which the truth
    bits are initialised. *)
From stdpp Require Import gmap strings.
From S2P Require Import Prelude Heap CString HashTable SceneTimer SceneCond SceneSync SceneData PtrHash PtrRefine CondList SceneTruth SceneRefine SceneFire SceneOps.

(** * Where an addition puts a condition *)

(** The first set with a free place, or a new one: at the end of a time list,
    at the front of an event list, here only when that is empty.  The condition
    gets the address [b']. *)
Inductive add_place (t : bool) (l : cond_list) (b : positive) :
    list cond_set -> cond_set -> list cond_set -> positive -> Prop :=
| place_room l1 k l2 :
    sets l = l1 ++ k :: l2 -> find_room (sets l) = Some (csAddr k) -> (length (pstCond k) < 32)%nat ->
    add_place t l b l1 k l2 b
| place_new :
    find_room (sets l) = NULL -> (length (sets l) < 32)%nat -> t = true \/ sets l = [] ->
    add_place t l b (sets l) (CondSet b (Z.of_nat (length (sets l))) 0 0 []) [] (Pos.succ b).

(** A new set of an event list goes to the front, which moves the others. *)
Definition addable (t : bool) (l : cond_list) : Prop :=
  iCount l < 1024 /\ (t = true \/ sets l = [] \/ find_room (sets l) <> NULL).

Lemma addable_place t l b :
  list_wf l -> addable t l -> exists l1 k l2 b', add_place t l b l1 k l2 b'.
Proof.
  intros ([Hnd Hw Hl] & _ & Hc) [Hn Ht]. destruct (find_room (sets l)) as [a|] eqn:Hr.
  - destruct (find_room_Some _ _ Hw Hr) as (l1 & k & l2 & Hs & <- & Hlt).
    exists l1, k, l2, b. by eapply place_room.
  - exists (sets l), (CondSet b (Z.of_nat (length (sets l))) 0 0 []), [], (Pos.succ b).
    pose proof (find_room_None _ Hw Hr) as Hfull.
    apply place_new; [done|lia|]. destruct Ht as [?|[?|?]]; [by left|by right|done].
Qed.

Lemma index_snoc ss k : forall i, indexed iCondSetIndex i ss ->
  index_from i (ss ++ [k]) = ss ++ [CondSet (csAddr k) (i + Z.of_nat (length ss)) (uiCondTrue k) (ucCondCount k) (pstCond k)].
Proof.
  induction ss as [|k' ss IH]; intros i; simpl; [intros _; by rewrite Z.add_0_r|].
  intros [Hk Hss]. rewrite (IH _ Hss). f_equal; [destruct k'; simpl in *; by subst|].
  do 3 f_equal. lia.
Qed.

Definition placed (l : cond_list) l1 k l2 (b : positive) (c : cond) : cond_list :=
  added l (l1 ++ grown k b c :: l2).

Lemma cond_add_run t s this p l h c l1 k l2 b' :
  list_wf l -> ucInitFlag l = 0 -> is_time l = t -> kind_of l c -> below (brk s) (sets l) ->
  cells s !! this = Some (OList l) -> cells s !! p = Some (OPtrNode h) -> oom s = [] ->
  add_place t l (brk s) l1 k l2 b' ->
  wp (cond_add (Some this) (Some c) (Some p)) s (fun r s' =>
    r = db_answer (glob s) SceneAddErr /\
    s' = Heap (<[p := OPtrNode (with_place h this (csAddr k) b')]>
                 (<[this := OList (placed l l1 k l2 b' c)]> (cells s)))
              (Pos.succ b') [] (drop_db (glob s))).
Proof.
  intros Hw Hf Hti Hk Hb Ht Hp Ho Hpl. assert (Hne : this <> p) by congruence.
  pose proof Hw as ([Hnd Hws Hl] & Hi & Hc).
  assert (Hgo : forall s1 l', cells s1 = <[this := OList l']> (cells s) -> oom s1 = [] -> glob s1 = glob s ->
    brk s1 = b' -> sets l' = l1 ++ k :: l2 -> csAddr k ∉ csAddr <$> l1 -> ucInitFlag l' = 0 ->
    added l' (l1 ++ grown k b' c :: l2) = placed l l1 k l2 b' c ->
    wp (add_to_set (Some this) (Some (csAddr k)) c (Some p)) s1 (fun r s' =>
      r = db_answer (glob s) SceneAddErr /\
      s' = Heap (<[p := OPtrNode (with_place h this (csAddr k) b')]>
                   (<[this := OList (placed l l1 k l2 b' c)]> (cells s)))
                (Pos.succ b') [] (drop_db (glob s)))).
  { intros s1 l' Hcs Ho1 Hg1 Hb1 Hs1 Hk1 Hf1 Hpe. eapply wp_mono.
    { eapply (add_to_set_spec s1 this l' l1 k l2 c p h); [rewrite Hcs; apply lookup_insert_eq|done| |done|done|done].
      rewrite Hcs. by rewrite lookup_insert_ne. }
    intros r s' [-> ->]. rewrite Hcs, Hg1, Hb1, Hpe, insert_insert_eq. done. }
  unfold cond_add. cbn [is_null]. wp_step. eapply wp_clist; [exact Ht|].
  unfold kind_of in Hk. rewrite Hti in *. destruct c as [c|c]; rewrite Hk; cbn [as_time as_event]; wp_steps;
    unfold time_cond_add, event_cond_add; cbn [is_null orb]; wp_step; (eapply wp_clist; [exact Ht|]);
    destruct Hpl as [l1 k l2 Hs Hr Hlen|Hr Hlen Htn]; rewrite Hr.
  - apply (Hgo s l); try done; [by rewrite insert_id|].
    rewrite Hs, fmap_app in Hnd. apply NoDup_middle in Hnd as [_ Hk1]. rewrite elem_of_app in Hk1. tauto.
  - destruct (Z.leb_spec 32 (Z.of_nat (length (sets l)))); [lia|]. wp_step. apply wp_fresh; rewrite Ho; [done|].
    intros _. cbn [tl]. wp_step. eapply wp_set_clist; [exact Ht|]. wp_step.
    eapply wp_clist; [apply lookup_insert_eq|]. cbn [set_sets sets]. rewrite last_snoc. wp_step.
    eapply wp_get_or; [done|]. unfold cond_list_update_index. cbn [is_null]. wp_step. wp_step.
    eapply wp_clist; [apply lookup_insert_eq|]. wp_step. eapply wp_set_clist; [apply lookup_insert_eq|]. wp_step.
    cbn [set_sets sets]. rewrite (index_snoc _ _ _ Hi).
    change (csAddr (new_set (brk s))) with (csAddr (CondSet (brk s) (0 + Z.of_nat (length (sets l))) 0 0 [])).
    cbn [new_set csAddr uiCondTrue ucCondCount pstCond]. rewrite Z.add_0_l.
    eapply (Hgo _ (set_sets (sets l ++ [CondSet (brk s) (Z.of_nat (length (sets l))) 0 0 []]) l)); try done.
    + cbn. by rewrite insert_insert_eq.
    + cbn [csAddr]. intros (k1 & Hk1 & Hk2)%list_elem_of_fmap_1. unfold below in Hb.
      rewrite Forall_forall in Hb. destruct (Hb _ Hk2). lia.
  - apply (Hgo s l); try done; [by rewrite insert_id|].
    rewrite Hs, fmap_app in Hnd. apply NoDup_middle in Hnd as [_ Hk1]. rewrite elem_of_app in Hk1. tauto.
  - destruct Htn as [Htn|Htn]; [congruence|]. rewrite Htn in *. cbn [length] in *.
    change (32 <=? Z.of_nat 0) with false. cbv iota. wp_step. apply wp_fresh; rewrite Ho; [done|].
    intros _. cbn [tl]. wp_step. eapply wp_set_clist; [exact Ht|]. wp_step.
    eapply wp_clist; [apply lookup_insert_eq|]. cbn [set_sets sets head]. wp_step.
    eapply wp_get_or; [done|]. unfold cond_list_update_index. cbn [is_null]. wp_step. wp_step.
    eapply wp_clist; [apply lookup_insert_eq|]. wp_step. eapply wp_set_clist; [apply lookup_insert_eq|]. wp_step.
    cbn [set_sets sets index_from new_set csAddr uiCondTrue ucCondCount pstCond].
    eapply (Hgo _ (set_sets [CondSet (brk s) 0 0 0 []] l)); try done.
    + cbn. by rewrite insert_insert_eq.
    + apply not_elem_of_nil.
Qed.

(** What is known of the place: a set with room, among well-formed ones. *)
Lemma place_room_set t l b l1 k l2 b' :
  list_wf l -> below b (sets l) -> iCount l < 1024 -> add_place t l b l1 k l2 b' ->
  set_room k /\ Forall set_wf (l1 ++ l2) /\ NoDup (csAddr <$> l1 ++ k :: l2) /\
  (length (l1 ++ k :: l2) <= 32)%nat /\ indexed iCondSetIndex 0 (l1 ++ k :: l2) /\
  n_conds (l1 ++ k :: l2) = n_conds (sets l) /\ below b' (l1 ++ k :: l2) /\ (b <= b')%positive.
Proof.
  intros ([Hnd Hw Hl] & Hi & Hc) Hb Hn [l1' k' l2' Hs Hr Hlen|Hr Hlen Ht].
  - rewrite Hs in *. apply Forall_middle in Hw as [Hw Hk].
    split_and!; try done. by apply set_wf_room.
  - assert (Hfresh : b ∉ csAddr <$> sets l).
    { intros (k1 & Hk1 & Hk2)%list_elem_of_fmap_1. unfold below in Hb.
      rewrite Forall_forall in Hb. destruct (Hb _ Hk2). lia. }
    split_and!.
    + split; simpl; [constructor|done|lia|done].
    + by rewrite app_nil_r.
    + rewrite fmap_app. apply NoDup_app. split_and!; [done| |apply NoDup_singleton].
      cbn. intros y Hy ->%list_elem_of_singleton. done.
    + rewrite length_app. simpl. lia.
    + apply indexed_app. simpl. split_and!; [done|lia|done].
    + rewrite n_conds_app, n_conds_cons. simpl. change (n_conds []) with 0%nat. lia.
    + apply Forall_app. split; [eapply below_mono; [|exact Hb]; lia|].
      repeat constructor. simpl. lia.
    + lia.
Qed.

Lemma placed_ok x t l b l1 k l2 b' c :
  list_ok x t l -> below b (sets l) -> iCount l < 1024 -> add_place t l b l1 k l2 b' ->
  list_ok x t (placed l l1 k l2 b' c) /\ below (Pos.succ b') (sets (placed l l1 k l2 b' c)) /\
  iCount (placed l l1 k l2 b' c) = iCount l + 1 /\ ucInitFlag (placed l l1 k l2 b' c) = ucInitFlag l.
Proof.
  intros [Hw Hlo Hty] Hb Hn Hpl.
  destruct (place_room_set _ _ _ _ _ _ _ Hw Hb Hn Hpl) as (Hr & Hws & Hnd & Hl & Hi & Hnc & Hb' & _).
  destruct (grown_sets l1 k l2 b' c Hnd Hws Hl Hr Hb') as (W & Hnc' & Hb2). destruct Hw as (W0 & Hi0 & Hc).
  assert (Hs : s32 (iCount l + 1) = iCount l + 1) by (rewrite s32_small; [done|unfold INT_MIN, INT_MAX; lia]).
  unfold placed. rewrite added_sets, added_count, added_flag, Hs. split_and!; [split|done..].
  - unfold list_wf. rewrite added_sets, added_count, Hs. split_and!; [done| |lia].
    apply indexed_app in Hi as [? [? ?]]. by apply indexed_app.
  - unfold added. by destruct (1 =? _).
  - by rewrite added_kind.
Qed.

Lemma placed_other t l b l1 k l2 b' c k1 :
  list_wf l -> add_place t l b l1 k l2 b' -> k1 ∈ sets (placed l l1 k l2 b' c) -> csAddr k1 <> csAddr k ->
  k1 ∈ sets l /\ uiCondSetTrue (placed l l1 k l2 b' c) = uiCondSetTrue l.
Proof.
  intros ([Hnd Hw Hl] & Hi & Hc) Hpl Hk1 Hne. unfold placed in *. rewrite added_sets in Hk1.
  assert (Hin : k1 ∈ sets l).
  { apply elem_of_app in Hk1 as [Hk1|[->|Hk1]%elem_of_cons]; [|done|];
      destruct Hpl as [l1 k l2 Hs _ _|_ _ _]; try (rewrite Hs; set_solver); [done|by apply elem_of_nil in Hk1]. }
  split; [done|]. unfold added. destruct (Z.eqb_spec 1 (s32 (iCount l + 1))) as [H1|]; [|done]. exfalso.
  apply list_elem_of_split in Hin as (m1 & m2 & Hs). rewrite Hs in *.
  apply Forall_middle in Hw as [Hws Hwk]. pose proof (sw_len _ Hwk). pose proof (n_conds_bound _ Hws).
  rewrite n_conds_app, n_conds_cons in *. rewrite length_app in Hl. simpl in Hl.
  rewrite length_app in H0. rewrite s32_small in H1 by (unfold INT_MIN, INT_MAX; lia). lia.
Qed.

Lemma placed_agree sc Ls x t b l1 k l2 b' c :
  consistent sc Ls -> below b (sets (Ls x t)) -> iCount (Ls x t) < 1024 -> add_place t (Ls x t) b l1 k l2 b' ->
  agree_but sc (upd_pos Ls x t (placed (Ls x t) l1 k l2 b' c)) x t (csAddr k).
Proof.
  intros C Hb Hn Hpl. destruct (placed_ok x t _ _ _ _ _ _ c (co_list _ _ C x t) Hb Hn Hpl) as (Hok & _).
  split.
  - intros x' t'. destruct (decide ((x', t') = (x, t))) as [[= -> ->]|Hne].
    + by rewrite upd_pos_same.
    + rewrite upd_pos_other by done. apply C.
  - intros x' t' k1 Hk1 Hne. destruct (decide ((x', t') = (x, t))) as [[= -> ->]|Hne'].
    + rewrite upd_pos_same in *. assert (csAddr k1 <> csAddr k) as Hka by congruence.
      destruct (placed_other _ _ _ _ _ _ _ _ _ (lo_wf _ _ _ (co_list _ _ C x t)) Hpl Hk1 Hka) as [Hin ->].
      by apply (co_sets _ _ C).
    + rewrite upd_pos_other in * by done. by apply (co_sets _ _ C).
  - intros x' t' Hne. rewrite upd_pos_other by done. apply C.
  - apply C.
Qed.

Definition placed_node (k : cond_set) (b' : positive) (c : cond) : cond_node :=
  CondNode b' (Z.of_nat (length (pstCond k))) c.

Lemma placed_reaches sc a Ls x t i l1 k l2 b' c :
  pstScene i = Some a -> pstCondList i = list_ptr sc x t -> pCondSetNode i = Some (csAddr k) ->
  pCondNode i = Some b' -> set_room k ->
  reaches sc a (upd_pos Ls x t (placed (Ls x t) l1 k l2 b' c)) x t i l1 (grown k b' c) l2
    (pstCond k) (placed_node k b' c) [].
Proof.
  intros Ha Hl Hk Hn Hr. split; try done.
  - by rewrite upd_pos_same; unfold placed; rewrite added_sets.
  - unfold grown. cbn [pstCond]. by rewrite append_cond_indexed by apply Hr.
Qed.

(** The truth values after the new condition, in its place, got the value [v]. *)
Lemma placed_truths Ls x t b l1 k l2 b' c v :
  list_ok x t (Ls x t) -> below b (sets (Ls x t)) -> iCount (Ls x t) < 1024 -> add_place t (Ls x t) b l1 k l2 b' ->
  let pos := (n_conds l1 + length (pstCond k))%nat in
  let T := cond_truths (Ls x t) in
  cond_truths (new_lists (upd_pos Ls x t (placed (Ls x t) l1 k l2 b' c)) x t l1 (grown k b' c) l2
                 (placed_node k b' c) v x t) = take pos T ++ v :: drop pos T.
Proof.
  intros Hok Hb Hn Hpl pos T. set (P := placed (Ls x t) l1 k l2 b' c).
  destruct (placed_ok x t _ _ _ _ _ _ c Hok Hb Hn Hpl) as (Hok' & _).
  destruct (place_room_set _ _ _ _ _ _ _ (lo_wf _ _ _ Hok) Hb Hn Hpl) as (Hr & _).
  assert (Hsets : sets P = l1 ++ grown k b' c :: l2) by (unfold P, placed; apply added_sets).
  assert (Hns : pstCond (grown k b' c) = pstCond k ++ placed_node k b' c :: [])
    by (unfold grown; cbn [pstCond]; by rewrite append_cond_indexed by apply Hr).
  rewrite (new_truths _ x t l1 (grown k b' c) l2 (pstCond k) (placed_node k b' c) [] v);
    [|rewrite upd_pos_same; apply Hok'|by rewrite upd_pos_same|exact Hns].
  rewrite upd_pos_same. fold P.
  pose proof length_truths as Hlen.
  assert (HT : T = concat (cond_bits <$> l1) ++ cond_bits k ++ concat (cond_bits <$> l2)).
  { unfold T, cond_truths. destruct Hpl as [l1 k l2 Hs _ _|_ _ _].
    - by rewrite Hs, fmap_app, fmap_cons, concat_app.
    - cbn. by rewrite app_nil_r. }
  unfold cond_truths at 1. rewrite Hsets, fmap_app, fmap_cons, concat_app. cbn [concat].
  assert (Hg : cond_bits (grown k b' c) = cond_bits k ++ [Z.testbit (uiCondTrue k) (Z.of_nat (length (pstCond k)))]).
  { unfold cond_bits, bits. rewrite Hns, length_app. cbn [grown uiCondTrue length].
    rewrite Nat.add_1_r, seq_S, fmap_app. done. }
  assert (Hk : length (cond_bits k) = length (pstCond k)) by (unfold cond_bits, bits; by rewrite length_fmap, length_seq).
  rewrite Hg, HT. unfold pos. rewrite <- !app_assoc. cbn [app].
  rewrite insert_app_r_alt by (rewrite Hlen; lia). rewrite Hlen.
  rewrite insert_app_r_alt by (rewrite Hk; lia). rewrite Hk.
  replace (n_conds l1 + length (pstCond k) - n_conds l1 - length (pstCond k))%nat with 0%nat by lia. cbn [list_insert].
  assert (Hpos : (n_conds l1 + length (pstCond k))%nat = length (concat (cond_bits <$> l1) ++ cond_bits k))
    by (by rewrite length_app, Hlen, Hk).
  rewrite (app_assoc _ (cond_bits k) (concat _)), Hpos, take_app_length, drop_app_length.
  by rewrite <- app_assoc.
Qed.

(** * The table behind the class *)

Section table.
Context (char_signed : bool).

Record table_at (s : mem) (this tbl : positive) (m : string -> list pnode) (n : Z) : Prop := {
  ta_class : exists c, cells s !! this = Some (OSceneList c) /\ pHashTable c = Some tbl;
  ta_reg : is_registry char_signed s tbl m n;
  ta_wf : heap_wf s
}.

(** Objects that belong to scenes, not to the table. *)
Definition scene_obj (o : obj) : Prop :=
  match o with OHash _ | OPtrNode _ | OSceneList _ => False | _ => True end.

Lemma table_hash s this tbl m n : table_at s this tbl m n -> exists h, cells s !! tbl = Some (OHash h).
Proof. intros [_ (hds & R & _) _]. eapply is_hash_obj, R. Qed.

Lemma table_frame s s' this tbl m n :
  table_at s this tbl m n -> heap_wf s' ->
  (forall a o, cells s !! a = Some o -> ~ scene_obj o -> cells s' !! a = Some o) ->
  table_at s' this tbl m n.
Proof.
  intros T Hwf Hf. destruct (table_hash _ _ _ _ _ T) as [ht Hh]. destruct T as [(c & Hc & Ht) Hr _].
  split; [|eapply is_registry_frame; [exact Hr| |]|done].
  - exists c. split; [|done]. eapply Hf; [exact Hc|]. by intros [].
  - rewrite Hh. eapply Hf; [exact Hh|]. by intros [].
  - intros a nd Ha. rewrite Ha. eapply Hf; [exact Ha|]. by intros [].
Qed.

Lemma table_upd s this tbl m n a o o' :
  table_at s this tbl m n -> cells s !! a = Some o -> scene_obj o -> table_at (upd a o' s) this tbl m n.
Proof.
  intros T Ha Ho. eapply table_frame; [exact T|apply heap_wf_upd; [apply T|by eexists]|].
  intros b o1 Hb Hn. simpl. rewrite lookup_insert_ne; [done|]. intros ->. congruence.
Qed.

Lemma table_glob s this tbl m n f : table_at s this tbl m n -> table_at (with_glob f s) this tbl m n.
Proof. intros T. eapply table_frame; [exact T|apply T|done]. Qed.

Lemma wp_the_table s this tbl m n (Q : ptr -> mem -> Prop) :
  table_at s this tbl m n -> Q (Some tbl) s -> wp (the_table (Some this)) s Q.
Proof.
  intros T HQ. destruct (table_hash _ _ _ _ _ T) as [h Hh]. destruct T as [(c & Hc & Ht) _ _].
  unfold the_table. wp_step. eapply wp_load; [exact Hc|reflexivity|]. rewrite Ht.
  wp_step. unfold HashTable.this_. eapply wp_load; [exact Hh|reflexivity|]. by wp_steps.
Qed.

Lemma tab_find_spec s this tbl m n key id :
  table_at s this tbl m n ->
  wp (tab_find char_signed (Some this) key id) s (fun r s' => r = fst <$> find_id id (m key) /\ s' = s).
Proof.
  intros T. unfold tab_find. wp_step. eapply wp_the_table; [exact T|].
  destruct T as [_ (hds & R & _) _]. by eapply ptr_hash_find_spec.
Qed.

Lemma tab_inst_spec s this tbl m n key p i pv :
  table_at s this tbl m n -> registry_but char_signed s tbl m n p ->
  cells s !! p = Some (OPtrNode (PtrNode i NULL pv)) -> oom s = [] ->
  (String.length key < HASH_KEY_MAX_LEN)%nat -> n + 1 < 2 ^ 31 ->
  wp (tab_inst char_signed (Some this) key (Some p)) s (fun r s' => r = NoErr /\ frame s s' tbl /\
    exists n', n' <= n + 1 /\ table_at s' this tbl (upd_key m key ((p, i) :: m key)) n').
Proof.
  intros T Hb Hp Ho Hk Hn. unfold tab_inst. wp_step. eapply wp_the_table; [exact T|].
  eapply wp_mono; [eapply ptr_hash_inst_spec; [exact Hb|exact Hp|apply T|exact Hk|exact Hn]|].
  intros r s' (Hwf & Hf & [(-> & n' & Hn' & Hr)|(Ho' & _)]); [|rewrite Ho in Ho'; by apply elem_of_nil in Ho'].
  split_and!; [done|done|]. exists n'. split; [done|]. split; [|done|done].
  destruct (table_hash _ _ _ _ _ T) as [h Hh]. destruct (ta_class _ _ _ _ _ T) as (c & Hc & Ht).
  exists c. split; [|done]. apply Hf; [congruence|done|done].
Qed.

Lemma tab_del_spec s this tbl m n key id :
  table_at s this tbl m n -> n < 2 ^ 31 ->
  wp (tab_del char_signed (Some this) key id) s (fun r s' => r = NoErr /\ frame s s' tbl /\
    exists n', n' <= n /\ table_at s' this tbl (upd_key m key (del_id id (m key))) n').
Proof.
  intros T Hn. unfold tab_del. wp_step. eapply wp_the_table; [exact T|].
  eapply wp_mono; [eapply ptr_hash_del_spec; [apply T|exact Hn|apply T]|].
  intros r s' (-> & Hwf & Hf & _ & n' & Hn' & Hr). split_and!; [done|done|]. exists n'. split; [done|].
  split; [|done|done]. destruct (table_hash _ _ _ _ _ T) as [h Hh].
  destruct (ta_class _ _ _ _ _ T) as (c & Hc & Ht). exists c. split; [|done]. apply Hf; [congruence|done|done].
Qed.

(** The node of a registered content. *)
Lemma table_node s this tbl m n key p i :
  table_at s this tbl m n -> (p, i) ∈ m key -> exists h, cells s !! p = Some (OPtrNode h) /\ stCondPtr h = i.
Proof.
  intros [_ (hds & R & _) _] Hin. pose proof (rg_chain _ _ _ _ _ _ R key) as Hc.
  destruct (hds key) as [h|]; [|rewrite Hc in Hin; by apply elem_of_nil in Hin].
  destruct Hc as (hi & hp & Hs). cbn [seg] in Hs. destruct Hs as [_ Hs].
  revert Hs Hin. generalize (Some h). induction (m key) as [|[a j] ns IH]; intros pv Hs Hin.
  - by apply elem_of_nil in Hin.
  - cbn [seg] in Hs. destruct Hs as [Ha Hs]. apply elem_of_cons in Hin as [[= <- <-]|Hin].
    + by eexists.
    + by eapply IH.
Qed.

Lemma hash_key_short k : (String.length (hash_key k) < HASH_KEY_MAX_LEN)%nat.
Proof. unfold hash_key. pose proof (str_take_length (KEY_MAX_LEN - 1) k). unfold KEY_MAX_LEN, HASH_KEY_MAX_LEN in *. lia. Qed.
(** What an addition needs: memory, the database, the list outside its
    initialisation and with a place. *)
Record ready (s : mem) (x t : bool) (Ls : lists) : Prop := {
  rd_oom : oom s = [];
  rd_db : hd NoErr (db_results (glob s)) = NoErr;
  rd_flag : ucInitFlag (Ls x t) = 0;
  rd_below : below (brk s) (sets (Ls x t));
  rd_room : addable t (Ls x t)
}.

Definition kind_is (t : bool) (c : cond) : Prop :=
  match c with CTime _ => t = true | CEvent _ => t = false end.

Lemma list_ok_time x t l : list_ok x t l -> is_time l = t.
Proof. intros [_ _ H]. unfold is_time. rewrite H. by destruct t. Qed.
Lemma kind_is_of x t l c : list_ok x t l -> kind_is t c -> kind_of l c.
Proof. intros Ho Hk. unfold kind_of. rewrite (list_ok_time _ _ _ Ho). by destruct c. Qed.

Lemma scene_at_frame s s' a sc Ls :
  scene_at s a sc Ls -> cells s' !! a = cells s !! a ->
  (forall x t b, list_ptr sc x t = Some b -> cells s' !! b = cells s !! b) -> scene_at s' a sc Ls.
Proof.
  intros [Hs Hl Hd] Ha Hb. split; [by rewrite Ha| |done]. intros x t.
  destruct (Hl x t) as (b & Hp & Hc). exists b. split; [done|]. by rewrite (Hb _ _ _ Hp).
Qed.

(** The state in which a new condition is registered and its bits are to be
    initialised. *)
Record registered (s s1 : mem) (this a tbl p : positive) (h : ptr_node) (m : string -> list pnode) (n : Z)
    (key : string) (x t : bool) (sc : scene_info) (Ls : lists) (c : cond)
    (l1 : list cond_set) (k : cond_set) (l2 : list cond_set) (b' : positive) : Prop := {
  rr_place : add_place t (Ls x t) (Pos.succ (brk s)) l1 k l2 b';
  rr_table : exists n', n' <= n + 1 /\
    table_at s1 this tbl (upd_key m key ((p, stCondPtr h) :: m key)) n';
  rr_node : cells s1 !! p = Some (OPtrNode h);
  rr_new : cells s !! p = None;
  rr_id : piId (stCondPtr h) = str_take INDEX_MAX_LEN (acSceneId sc);
  rr_scene : scene_at s1 a sc (upd_pos Ls x t (placed (Ls x t) l1 k l2 b' c));
  rr_reach : reaches sc a (upd_pos Ls x t (placed (Ls x t) l1 k l2 b' c)) x t (stCondPtr h) l1 (grown k b' c) l2
    (pstCond k) (placed_node k b' c) [];
  rr_oom : oom s1 = [];
  rr_glob : glob s1 = drop_db (glob s);
  rr_frame : forall b o, Some b <> list_ptr sc x t -> cells s !! b = Some o -> scene_obj o -> cells s1 !! b = Some o
}.

Lemma scene_cond_add_new x t key c init s this a tbl m n sc Ls (Q : Z -> mem -> Prop) :
  table_at s this tbl m n -> n + 1 < 2 ^ 31 -> (String.length key < HASH_KEY_MAX_LEN)%nat ->
  scene_at s a sc Ls -> (forall x t, list_ok x t (Ls x t)) -> ready s x t Ls -> kind_is t c ->
  find_id (acSceneId sc) (m key) = None ->
  (forall s1 p h l1 k l2 b', registered s s1 this a tbl p h m n key x t sc Ls c l1 k l2 b' ->
     wp (init (Some p)) s1 (fun _ s2 => Q NoErr s2)) ->
  wp (scene_cond_add char_signed (Some this) (Some a) x t key c init) s Q.
Proof.
  intros T Hn Hk R Hok [Ho Hdb Hf Hb Hadd] Hc Hfind HQ.
  destruct (list_ptr_at _ _ _ _ x t R) as [b Hbp]. destruct (sa_lists _ _ _ _ R x t) as (b0 & Hb0 & Hbl).
  assert (b0 = b) as -> by congruence. pose proof (ta_wf _ _ _ _ _ T) as Hwf.
  assert (Hfresh : cells s !! brk s = None) by (apply Hwf; lia).
  destruct (addable_place t (Ls x t) (Pos.succ (brk s)) (lo_wf _ _ _ (Hok x t)) Hadd) as (l1 & k & l2 & b' & Hpl).
  unfold scene_cond_add. wp_step. eapply wp_load; [apply R|reflexivity|].
  wp_step. eapply wp_mono; [by eapply tab_find_spec|]. intros r s0 [-> ->]. rewrite Hfind.
  cbn [fmap option_fmap option_map is_null negb]. rewrite Hbp. cbv zeta iota.
  wp_step. apply wp_alloc; rewrite Ho; [done|]. intros _. cbn [tl is_null]. set (p := brk s).
  assert (Hpb : p <> b) by (intros Heq; unfold p in Heq; congruence).
  assert (Hpn : forall a0 o, cells s !! a0 = Some o -> a0 <> p) by (intros a0 o Ha0 Heq; unfold p in Heq; congruence).
  set (s1 := Heap _ _ _ _).
  assert (Hl1 : cells s1 !! b = Some (OList (Ls x t))) by (simpl; by rewrite lookup_insert_ne).
  unfold via. wp_step. wp_step. eapply wp_clist; [exact Hl1|].
  eapply wp_mono; [eapply (cond_add_run t s1 b p (Ls x t) ptr_node0 c l1 k l2 b');
    [apply (Hok x t)|exact Hf|by apply (list_ok_time x), Hok|by eapply kind_is_of|
     eapply below_mono; [|exact Hb]; simpl; lia|exact Hl1|apply lookup_insert_eq|done|exact Hpl]|].
  intros r s2 [-> ->]. unfold db_answer. cbn [glob s1]. rewrite Hdb. change (NoErr =? NoErr) with true. cbv iota.
  wp_step. eapply wp_load; [apply lookup_insert_eq|reflexivity|]. wp_step.
  eapply wp_store; [apply lookup_insert_eq|]. set (s3 := upd p _ _).
  set (i := PtrInfo (str_take INDEX_MAX_LEN (acSceneId sc)) (Some a) (Some b) (Some (csAddr k)) (Some b') NULL).
  assert (Hp3 : cells s3 !! p = Some (OPtrNode (PtrNode i NULL NULL))) by (simpl; by rewrite lookup_insert_eq).
  assert (Hc3 : forall a, a <> p -> a <> b -> cells s3 !! a = cells s !! a).
  { intros a0 H1 H2. simpl. by rewrite !lookup_insert_ne. }
  assert (Hb3 : cells s3 !! b = Some (OList (placed (Ls x t) l1 k l2 b' c))).
  { simpl. rewrite !(lookup_insert_ne _ p b) by done. apply lookup_insert_eq. }
  destruct (place_room_set _ _ _ _ _ _ _ (lo_wf _ _ _ (Hok x t)) (below_mono (brk s) (Pos.succ (brk s)) _ ltac:(lia) Hb) (proj1 Hadd) Hpl)
    as (Hroom & _ & _ & _ & _ & _ & _ & Hbb).
  assert (T3 : table_at s3 this tbl m n).
  { eapply table_frame; [exact T| |].
    - intros a0 Ha0. simpl in Ha0. rewrite Hc3.
      + apply Hwf. unfold p in *. lia.
      + unfold p. lia.
      + intros ->. rewrite Hwf in Hbl by lia. done.
    - intros a0 o Ha0 Hno. rewrite Hc3; [done|by eapply Hpn|]. intros ->. rewrite Hbl in Ha0.
      injection Ha0 as <-. by apply Hno. }
  assert (B3 : registry_but char_signed s3 tbl m n p).
  { eapply registry_but_frame; [eapply registry_fresh; [apply T|exact Hfresh]| |].
    - destruct (table_hash _ _ _ _ _ T) as [ht Hh]. apply Hc3; [by eapply Hpn|congruence].
    - intros a0 nd Hap Ha0. apply Hc3; [done|congruence]. }
  wp_step. eapply wp_mono; [eapply tab_inst_spec; [exact T3|exact B3|exact Hp3|done|exact Hk|exact Hn]|].
  intros r s4 (-> & (G4 & O4 & F4) & n' & Hn' & T4). rewrite Z.add_0_r.
  change (NoErr =? NoErr) with true. cbv iota. wp_step.
  destruct (table_node _ _ _ _ _ key p i T4) as (h & Hh & Hi); [rewrite upd_key_eq; by left|].
  destruct (table_hash _ _ _ _ _ T) as [ht Hht].
  assert (Hfr : forall a0 o, cells s3 !! a0 = Some o -> scene_obj o -> cells s4 !! a0 = Some o).
  { intros a0 o Ha0 Hso. apply F4; [|done|by destruct o; cbn in Hso]. intros ->.
    rewrite Hc3, Hht in Ha0; [|by eapply Hpn|congruence]. injection Ha0 as <-. by cbn in Hso. }
  eapply wp_mono; [eapply (HQ s4 p h l1 k l2 b')|intros u5 s5 H5; by wp_steps].
  assert (Hsc3 : cells s3 !! a = Some (OScene sc)).
  { pose proof (sa_scene _ _ _ _ R). rewrite Hc3; [done|by eapply Hpn|congruence]. }
  split.
  - exact Hpl.
  - exists n'. split; [done|]. by rewrite Hi.
  - done.
  - done.
  - by rewrite Hi.
  - split.
    + apply Hfr; [exact Hsc3|by cbn].
    + intros x' t'. destruct (decide ((x', t') = (x, t))) as [[= -> ->]|Hne].
      * exists b. split; [done|]. rewrite upd_pos_same. apply Hfr; [exact Hb3|by cbn].
      * destruct (sa_lists _ _ _ _ R x' t') as (b2 & Hb2 & Hc2). exists b2. split; [done|].
        rewrite upd_pos_other by done. apply Hfr; [|by cbn]. rewrite Hc3; [done|by eapply Hpn|].
        intros ->. apply Hne. destruct (sa_distinct _ _ _ _ R x' t' x t); congruence.
    + apply R.
  - rewrite Hi. by apply placed_reaches.
  - apply list_eq. intros j. destruct (oom s4) as [|y ys]; [done|]. exfalso.
    specialize (O4 y). simpl in O4. by apply elem_of_nil in O4; [|left].
  - by rewrite G4.
  - intros b0 o Hb0' Hc0 Hso. apply Hfr; [|done]. rewrite Hc3; [done|by eapply Hpn|congruence].
Qed.
End table.
