(* ===== verification/OpsProps.v ===== *)
(** What the additions, deletions and lookups of a scene's conditions do: the
    truth bits stay in agreement, the table of pointer nodes finds the
    condition again; and where they do not. *)
From stdpp Require Import gmap strings.
From S2P Require Import Prelude Heap CString HashTable SceneTimer SceneCond SceneSync SceneData PtrHash PtrRefine PtrProps CondList SceneTruth SceneRefine SceneFire SceneOps OpsRefine.

Section props.
Context (char_signed : bool).

(** * Additions *)

(** After the addition of [c], with truth [v], to the list [x], [t]. *)
Definition add_done (s s' : mem) (this a tbl : positive) (m : string -> list pnode) (n : Z) (key : string)
    (x t : bool) (sc : scene_info) (Ls : lists) (c : cond) (v : bool) : Prop :=
  exists p h n' pos sc' Ls',
    n' <= n + 1 /\ table_at char_signed s' this tbl (upd_key m key ((p, stCondPtr h) :: m key)) n' /\
    piId (stCondPtr h) = str_take INDEX_MAX_LEN (acSceneId sc) /\
    scene_at s' a sc' Ls' /\ consistent sc' Ls' /\ same_scene sc sc' /\
    cond_truths (Ls' x t) = take pos (cond_truths (Ls x t)) ++ v :: drop pos (cond_truths (Ls x t)) /\
    (forall x' t', (x', t') <> (x, t) -> Ls' x' t' = Ls x' t') /\
    cells s' !! p = Some (OPtrNode h) /\ cond_at (stCondPtr h) s' = Val (c, s') /\
    oom s' = [] /\ glob s' = drop_db (glob s) /\
    (forall b o, b <> a -> Some b <> list_ptr sc x t -> cells s !! b = Some o -> scene_obj o ->
       cells s' !! b = Some o).

(** [init], run on the new node of a scene whose list [x], [t] has become one
    longer, does what the initialisation does. *)
Definition settles (init : ptr -> L unit) (a : positive) (x t : bool) (sc : scene_info) (Ls : lists) (v : Z) : Prop :=
  forall s1 p Ls1 Q, scene_at s1 a sc Ls1 -> iCount (Ls1 x t) = iCount (Ls x t) + 1 ->
    wp (init_fun t v p) s1 (fun _ s2 => Q tt s2) -> wp (init p) s1 Q.

Lemma scene_cond_add_settled x t key c v init s this a tbl m n sc Ls :
  table_at char_signed s this tbl m n -> n + 1 < 2 ^ 31 -> (String.length key < HASH_KEY_MAX_LEN)%nat ->
  scene_at s a sc Ls -> consistent sc Ls -> ready s x t Ls -> kind_is t c ->
  find_id (acSceneId sc) (m key) = None -> settles init a x t sc Ls v ->
  wp (scene_cond_add char_signed (Some this) (Some a) x t key c init) s
    (fun r s' => r = NoErr /\ add_done s s' this a tbl m n key x t sc Ls c (truth v)).
Proof.
  intros T Hn Hk R C Hrd Hc Hf Hin. destruct (list_ptr_at _ _ _ _ x t R) as [b Hb].
  eapply scene_cond_add_new; [exact T|exact Hn|exact Hk|exact R|apply C|exact Hrd|exact Hc|exact Hf|].
  intros s1 p h l1 k l2 b' [Hpl (n' & Hn' & T1) Hp1 Hnew Hid R1 Re1 Ho1 Hg1 Hfr].
  assert (Hlt : iCount (Ls x t) < 1024) by apply Hrd.
  assert (Hbl : below (Pos.succ (brk s)) (sets (Ls x t))) by (eapply below_mono; [|apply Hrd]; lia).
  pose proof (placed_agree sc Ls x t _ _ _ _ _ c C Hbl Hlt Hpl) as Hag.
  change (csAddr k) with (csAddr (grown k b' c)) in Hag.
  set (Ls1 := upd_pos Ls x t (placed (Ls x t) l1 k l2 b' c)) in *.
  apply (Hin s1 (Some p) Ls1); [exact R1| |].
  { unfold Ls1, placed. rewrite upd_pos_same, added_count. destruct (lo_wf _ _ _ (co_list _ _ C x t)) as (_ & _ & Hi).
    apply s32_small. unfold INT_MIN, INT_MAX. lia. }
  eapply wp_mono; [eapply (init_fun_spec s1 a sc Ls1 x t b p h l1 (grown k b' c) l2); [exact R1|exact Hag|exact Hb|exact Hp1|exact Re1]|].
  intros r s2 [-> ->]. split; [done|].
  pose proof (new_consistent a x t _ sc Ls1 _ _ _ _ _ _ (truth v) Hag Re1) as C2.
  pose proof (new_at a x t b s1 sc Ls1 l1 (grown k b' c) l2 (placed_node k b' c) (truth v) R1 Hb) as R2.
  pose proof (new_reaches _ _ _ _ _ _ _ _ _ _ _ _ (truth v) Re1) as Re2.
  destruct (sa_lists _ _ _ _ R1 x t) as (b1 & Hb1 & Hbc). assert (b1 = b) as -> by congruence.
  pose proof (sa_scene _ _ _ _ R1) as Ha1.
  exists p, h, n', (n_conds l1 + length (pstCond k))%nat. eexists _, _. split_and!.
  - done.
  - eapply (table_upd _ _ _ _ _ _ a (OScene sc)); [eapply (table_upd _ _ _ _ _ _ b (OList (Ls1 x t))); [exact T1|exact Hbc|exact I]| |exact I].
    cbn. rewrite lookup_insert_ne by congruence. exact Ha1.
  - done.
  - exact R2.
  - exact C2.
  - apply new_same_scene.
  - by eapply placed_truths; [apply C| | |].
  - intros x' t' Hne. rewrite new_lists_other by done. unfold Ls1. by apply upd_pos_other.
  - cbn. rewrite !lookup_insert_ne by congruence. done.
  - exact (reaches_cond_at _ _ _ _ _ _ _ _ _ _ _ _ _ R2 (lo_wf _ _ _ (co_list _ _ C2 x t)) Re2).
  - done.
  - done.
  - intros b0 o Hba Hbx Ho Hso. cbn. rewrite !lookup_insert_ne by congruence. by apply Hfr.
Qed.
(** The addition to the part [x] of the scene, by the condition's type. *)
Definition add_cond (x : bool) (c : cond) : ptr -> ptr -> L Z := fun this sc =>
  match c with
  | CTime t => scene_time_cond_add char_signed x this sc (Some t)
  | CEvent e =>
      if x then scene_event_and_cond_add char_signed this sc (Some e)
      else scene_event_or_cond_add char_signed this sc (Some e)
  end.
Definition cond_key (c : cond) : string :=
  match c with CTime t => time_hash_key t | CEvent e => event_hash_key (ecDevId e) (ecKey e) end.
Definition time_kind (c : cond) : bool := match c with CTime _ => true | CEvent _ => false end.
Definition first_value (c : cond) : Z := match c with CTime _ => 0 | CEvent e => first_truth e end.
(** Any condition but an event condition of the Or part with the key of the
    manual one, and the first event condition of the And part, after which the
    truth of the scene is not computed. *)
Definition plain (x : bool) (c : cond) (Ls : lists) : Prop :=
  match c with
  | CTime _ => True
  | CEvent e => if x then 0 < iCount (Ls true false) else strn_eq KEY_MAX_LEN (ecKey e) JSON_VALUE_KEY_MANUAL = false
  end.

Lemma cond_key_short c : (String.length (cond_key c) < HASH_KEY_MAX_LEN)%nat.
Proof. destruct c; apply hash_key_short. Qed.
Lemma kind_is_time c : kind_is (time_kind c) c.
Proof. by destruct c. Qed.

(** A further event condition of the And part is initialised as the others are. *)
Lemma and_event_settles a sc Ls v : 0 < iCount (Ls true false) ->
  settles (fun pHashValue => sc ← load to_scene (Some a);
      n ← via (list_ptr sc true false) (cond_size (list_ptr sc true false));
      if 1 =? n then upd_scene (Some a) (set_list_bits true (fun u => put_bit u (Z.shiftl 1 1) false))
      else _ ← scene_event_cond_true_init v pHashValue; mret tt) a true false sc Ls v.
Proof.
  intros Hn s1 p Ls1 Q R Hc Hi. destruct (sa_lists _ _ _ _ R true false) as (b & Hb & Hbc).
  wp_step. eapply wp_load; [apply R|reflexivity|]. rewrite Hb. wp_step. unfold via. wp_step. eapply wp_clist; [exact Hbc|].
  unfold cond_size. cbn [is_null]. wp_step. eapply wp_clist; [exact Hbc|]. wp_step. rewrite Hc.
  destruct (Z.eqb_spec 1 (iCount (Ls true false) + 1)); [lia|]. wp_step. exact Hi.
Qed.

Lemma add_cond_settled x c s this a tbl m n sc Ls :
  table_at char_signed s this tbl m n -> n + 1 < 2 ^ 31 -> scene_at s a sc Ls -> consistent sc Ls ->
  ready s x (time_kind c) Ls -> plain x c Ls -> find_id (acSceneId sc) (m (cond_key c)) = None ->
  wp (add_cond x c (Some this) (Some a)) s (fun r s' => r = NoErr /\
    add_done s s' this a tbl m n (cond_key c) x (time_kind c) sc Ls c (truth (first_value c))).
Proof.
  intros T Hn R C Hrd Hp Hf.
  assert (Hgo : forall init, settles init a x (time_kind c) sc Ls (first_value c) ->
      wp (scene_cond_add char_signed (Some this) (Some a) x (time_kind c) (cond_key c) c init) s (fun r s' => r = NoErr /\
      add_done s s' this a tbl m n (cond_key c) x (time_kind c) sc Ls c (truth (first_value c)))).
  { intros init Hin. eapply scene_cond_add_settled; try done; [apply cond_key_short|apply kind_is_time]. }
  assert (Hplain : settles (fun p => _ ← init_fun (time_kind c) (first_value c) p; mret tt) a x (time_kind c) sc Ls (first_value c)).
  { intros s1 p Ls1 Q _ _ Hi. wp_step. exact Hi. }
  destruct c as [c|e]; [by apply Hgo|]. cbn [plain time_kind first_value cond_key] in *.
  destruct x.
  - unfold add_cond, scene_event_and_cond_add. cbn [is_null orb]. apply Hgo. by apply and_event_settles.
  - unfold add_cond, scene_event_or_cond_add. cbn [is_null orb]. rewrite Hp. by apply Hgo.
Qed.

(** C4: adding a condition whose key the scene does not have - to any of its
    four lists: to a time list as a new set at the end, to an event list while a
    set has room; but not the manual condition, and to the And event list not
    the first one - while there is memory and the database takes it, registers a
    node that reaches it, gives it its first truth value in its place among the
    others, whose values stay, and leaves every bit of the scene in agreement;
    other scenes and lists are not touched. *)
Theorem scene_cond_add_keeps_agreement x c s this a tbl m n sc Ls :
  table_at char_signed s this tbl m n -> n + 1 < 2 ^ 31 -> scene_at s a sc Ls -> consistent sc Ls ->
  ready s x (time_kind c) Ls -> plain x c Ls -> find_id (acSceneId sc) (m (cond_key c)) = None ->
  wp (add_cond x c (Some this) (Some a)) s (fun r s' => r = NoErr /\
    add_done s s' this a tbl m n (cond_key c) x (time_kind c) sc Ls c (truth (first_value c))).
Proof. apply add_cond_settled. Qed.

Lemma strn_eq_take n a : strn_eq n (str_take n a) a = true.
Proof. unfold strn_eq. rewrite str_take_take. by apply bool_decide_true. Qed.

(** What has been added is what [event_or_cond_get] gives for the device
    and the key, field by field. *)
Theorem scene_event_cond_add_get e q s this a tbl m n sc Ls :
  table_at char_signed s this tbl m n -> n + 1 < 2 ^ 31 -> scene_at s a sc Ls -> consistent sc Ls ->
  ready s false false Ls -> strn_eq KEY_MAX_LEN (ecKey e) JSON_VALUE_KEY_MANUAL = false ->
  find_id (acSceneId sc) (m (event_hash_key (ecDevId e) (ecKey e))) = None ->
  ecDevId q = ecDevId e -> ecKey q = ecKey e ->
  wp (r ← scene_event_or_cond_add char_signed (Some this) (Some a) (Some e);
      g ← scene_event_or_cond_get char_signed (Some this) (Some a) (Some q);
      mret (r, g)) s (fun rg _ => rg = (NoErr, (0, Some e))).
Proof.
  intros T Hn R C Hrd Hm Hf Hd Hk. wp_step.
  eapply wp_mono; [exact (add_cond_settled false (CEvent e) s this a tbl m n sc Ls T Hn R C Hrd Hm Hf)|].
  intros r s1 (-> & p & h & n' & pos & sc' & Ls' & _ & T1 & Hid & R1 & _ & (Hsid & _) & _ & _ & Hp & Hat & _).
  unfold scene_event_or_cond_get, scene_event_cond_get. cbn [is_null orb]. wp_step. wp_step.
  eapply wp_load; [apply R1|reflexivity|]. wp_step. rewrite Hd, Hk.
  eapply wp_mono; [eapply tab_find_spec; exact T1|]. intros r s2 [-> ->].
  cbn [cond_key]. rewrite upd_key_eq, Hsid. cbn [find_id]. rewrite Hid, strn_eq_take.
  cbn [fmap option_fmap option_map fst is_null]. wp_step. unfold handle. wp_step.
  eapply wp_load; [exact Hp|reflexivity|]. wp_step. wp_step.
  unfold wp at 1. rewrite Hat. cbn [as_event]. by wp_steps.
Qed.
End props.

(** * The scene of SceneFire.v with an empty table, at 51 *)

Definition demo_ops (t0 : bool) : mem :=
  Heap (<[50%positive := OSceneList (SceneList [10%positive] (Some 51%positive) 0 NULL)]>
       (<[51%positive := reg_table (replicate 53 []) 0 0]> (cells (demo_mem t0)))) 60 [] (glob (demo_mem t0)).

Lemma demo_table_at t0 : table_at true (demo_ops t0) 50 51 (fun _ => []) 0.
Proof.
  split.
  - eexists. split; reflexivity.
  - exists (fun _ => NULL). split; [|by intros k []]. split; [|done|constructor|by intros k1 k2 a []%elem_of_nil].
    destruct (empty_table true 53 ltac:(lia)) as (W & He & Hv).
    eexists. split_and!; [reflexivity|exact W|exact He|]. intros k. by rewrite Hv.
  - intros a Ha. cbn [demo_ops brk] in Ha. unfold demo_ops, demo_mem. cbn [cells].
    rewrite !lookup_insert_ne by lia. done.
Qed.

Lemma demo_ops_at t0 : scene_at (demo_ops t0) 10 demo_scene (demo_lists t0).
Proof.
  eapply scene_at_frame; [apply (demo_at t0)|reflexivity|]. intros [] [] b [= <-]; reflexivity.
Qed.

Lemma demo_ready : ready (demo_ops false) false false (demo_lists false).
Proof.
  split; [done|done|done| |].
  - apply Forall_cons. split; [|by apply Forall_nil]. split; [simpl; lia|].
    apply Forall_cons. split; [simpl; lia|by apply Forall_nil].
  - split; [simpl; lia|]. right. right. done.
Qed.

Definition demo_new : event_cond := EventCond "door" "Open" "Instant" "0" "1" "Equ" "1".

Lemma scene_cond_add_keeps_agreement_witness :
  wp (add_cond true false (CEvent demo_new) (Some 50%positive) (Some 10%positive)) (demo_ops false) (fun r s' => r = NoErr /\
    add_done true (demo_ops false) s' 50 10 51 (fun _ => []) 0 "doorOpencond" false false demo_scene (demo_lists false)
      (CEvent demo_new) true).
Proof.
  apply (scene_cond_add_keeps_agreement true false (CEvent demo_new) (demo_ops false) 50 10 51 (fun _ => []) 0
           demo_scene (demo_lists false)).
  - exact (demo_table_at false).
  - lia.
  - exact (demo_ops_at false).
  - exact (demo_consistent false).
  - exact demo_ready.
  - reflexivity.
  - reflexivity.
Defined.

Lemma scene_event_cond_add_get_witness :
  wp (r ← scene_event_or_cond_add true (Some 50%positive) (Some 10%positive) (Some demo_new);
      g ← scene_event_or_cond_get true (Some 50%positive) (Some 10%positive)
            (Some (EventCond "door" "Open" "" "" "" "" ""));
      mret (r, g)) (demo_ops false) (fun rg _ => rg = (NoErr, (0, Some demo_new))).
Proof.
  apply (scene_event_cond_add_get true demo_new (EventCond "door" "Open" "" "" "" "" "") (demo_ops false) 50 10 51
           (fun _ => []) 0 demo_scene (demo_lists false)).
  - exact (demo_table_at false).
  - lia.
  - exact (demo_ops_at false).
  - exact (demo_consistent false).
  - exact demo_ready.
  - reflexivity.
  - reflexivity.
  - reflexivity.
  - reflexivity.
Defined.
