(* ===== verification/DelProps.v ===== *)
(** What the deletion of a condition does: to the truth bits when its set keeps
    others, and to the memory when it does not. *)
From stdpp Require Import gmap strings.
From S2P Require Import Prelude Heap CString HashTable SceneTimer SceneCond SceneSync SceneData PtrHash PtrRefine PtrProps CondList CondRefine SceneTruth SceneRefine SceneFire SceneOps OpsRefine OpsProps.

(** The conditions of a list, in order. *)
Definition conds_of (l : cond_list) : list cond := stCond <$> concat (pstCond <$> sets l).

Definition without (l : cond_list) l1 k l2 n1 n2 : cond_list :=
  set_count (s32 (iCount l - 1)) (set_sets (l1 ++ shrunk k (unlink n1 n2) :: l2) l).

Section del.
Context (x t : bool) (l : cond_list) (l1 : list cond_set) (k : cond_set) (l2 : list cond_set).
Context (n1 : list cond_node) (n : cond_node) (n2 : list cond_node).
Context (Hok : list_ok x t l) (Hs : sets l = l1 ++ k :: l2) (Hns : pstCond k = n1 ++ n :: n2).

Lemma set_k_wf : set_wf k /\ iCount l = Z.of_nat (n_conds (sets l)) /\ iCount l <= 1024 /\
  ucCondCount k = Z.of_nat (length (pstCond k)) /\ (n_conds l1 + length (pstCond k) <= n_conds (sets l))%nat.
Proof.
  destruct (lo_wf _ _ _ Hok) as (W & _ & Hc). pose proof (lw_set _ W) as Hw.
  pose proof (n_conds_bound _ Hw). pose proof (lw_len _ W). rewrite Hs in Hw.
  apply Forall_middle in Hw as [_ Hwk]. split_and!; [done|done|lia|apply Hwk|].
  rewrite Hs, n_conds_app, n_conds_cons. lia.
Qed.

Lemma without_ok : (2 <= length (pstCond k))%nat -> list_ok x t (without l l1 k l2 n1 n2).
Proof.
  intros H2. destruct set_k_wf as (Hwk & Hc & Hmax & Hck & _).
  assert (Hne : ucCondCount k <> 1) by lia.
  destruct (shrunk_list_wf l l1 k l2 n1 n n2 (lo_wf _ _ _ Hok) Hs Hns Hne) as (W' & Hi' & Hn').
  split; [|apply Hok|apply Hok]. unfold list_wf, without. cbn [sets set_count set_sets iCount].
  split_and!; [done|done|]. rewrite s32_small by (unfold INT_MIN, INT_MAX; lia). lia.
Qed.

Lemma without_count : (2 <= length (pstCond k))%nat -> (0 =? iCount (without l l1 k l2 n1 n2)) = false.
Proof.
  intros H2. destruct set_k_wf as (_ & Hc & Hmax & _ & Hle). apply Z.eqb_neq.
  cbn [without iCount set_count set_sets]. rewrite s32_small by (unfold INT_MIN, INT_MAX; lia). lia.
Qed.

(** The conditions after the deleted one move down, *)
Lemma without_conds :
  conds_of (without l l1 k l2 n1 n2) = delete (n_conds l1 + length n1)%nat (conds_of l).
Proof.
  unfold conds_of, without. cbn [sets set_count set_sets]. rewrite Hs, !fmap_app, !fmap_cons, !concat_app.
  cbn [concat shrunk pstCond]. rewrite unlink_app, Hns, !fmap_app, fmap_cons.
  assert (Hdec : stCond <$> (dec_index <$> n2) = stCond <$> n2).
  { rewrite <- list_fmap_compose. by apply list_fmap_ext. }
  rewrite Hdec. replace (n_conds l1 + length n1)%nat with (length (stCond <$> concat (pstCond <$> l1)) + length (stCond <$> n1))%nat
    by (by rewrite !length_fmap).
  rewrite <- !app_assoc, <- app_comm_cons. rewrite app_assoc, <- length_app.
  rewrite (app_assoc _ (stCond <$> n1) (stCond n :: _)), delete_middle. by rewrite <- app_assoc.
Qed.

(** but their truth bits stay: the last bit of the set goes. *)
Lemma without_truths :
  cond_truths (without l l1 k l2 n1 n2) = delete (n_conds l1 + (length (pstCond k) - 1))%nat (cond_truths l).
Proof.
  unfold cond_truths, without. cbn [sets set_count set_sets]. rewrite Hs, !fmap_app, !fmap_cons, !concat_app. cbn [concat].
  assert (Hlen : length (pstCond k) = S (length (unlink n1 n2))).
  { rewrite unlink_app, Hns, !length_app, length_fmap. simpl. lia. }
  assert (Hk : cond_bits k = cond_bits (shrunk k (unlink n1 n2)) ++ [Z.testbit (uiCondTrue k) (Z.of_nat (length (unlink n1 n2)))]).
  { unfold cond_bits, bits. cbn [shrunk uiCondTrue pstCond]. by rewrite Hlen, seq_S, fmap_app. }
  rewrite Hk, <- !app_assoc. cbn [app].
  replace (n_conds l1 + (length (pstCond k) - 1))%nat
    with (length (concat (cond_bits <$> l1)) + length (cond_bits (shrunk k (unlink n1 n2))))%nat.
  2:{ rewrite length_truths, Hlen. unfold cond_bits, bits. rewrite length_fmap, length_seq. cbn [shrunk pstCond]. lia. }
  rewrite <- length_app, (app_assoc _ (cond_bits (shrunk _ _)) (_ :: _)), delete_middle. by rewrite <- app_assoc.
Qed.

Lemma without_agree sc Ls :
  Ls x t = l -> consistent sc Ls -> (2 <= length (pstCond k))%nat ->
  agree_but sc (upd_pos Ls x t (without l l1 k l2 n1 n2)) x t (csAddr k).
Proof.
  intros Hl C H2. split.
  - intros x' t'. destruct (decide ((x', t') = (x, t))) as [[= -> ->]|Hne].
    + rewrite upd_pos_same. by apply without_ok.
    + rewrite upd_pos_other by done. apply C.
  - intros x' t' k1 Hk1 Hne. destruct (decide ((x', t') = (x, t))) as [[= -> ->]|Hne'].
    + rewrite upd_pos_same in *. assert (csAddr k1 <> csAddr k) as Hka by congruence.
      cbn [without set_count set_sets sets uiCondSetTrue] in *. rewrite <- Hl. apply C. rewrite Hl, Hs.
      apply elem_of_app in Hk1 as [Hk1|[->|Hk1]%elem_of_cons]; [|done|]; set_solver.
    + rewrite upd_pos_other in * by done. by apply (co_sets _ _ C).
  - intros x' t' Hne. rewrite upd_pos_other by done. apply C.
  - apply C.
Qed.
End del.

(** * The deletion from the list *)

(** A condition the handle at [p] reaches, in the list at [b]. *)
Record deletes (s : mem) (a p b : positive) (h : ptr_node) sc Ls (x t : bool) l1 k l2 n1 n n2 : Prop := {
  dl_scene : scene_at s a sc Ls;
  dl_bits : consistent sc Ls;
  dl_node : cells s !! p = Some (OPtrNode h);
  dl_list : list_ptr sc x t = Some b;
  dl_reaches : reaches sc a Ls x t (stCondPtr h) l1 k l2 n1 n n2;
  dl_kind : kind_is t (stCond n);
  dl_flag : ucInitFlag (Ls x t) = 0;
  dl_db : hd NoErr (db_results (glob s)) = NoErr
}.

Section run.
Context (s : mem) (a p b : positive) (h : ptr_node) (sc : scene_info) (Ls : lists) (x t : bool).
Context (l1 : list cond_set) (k : cond_set) (l2 : list cond_set).
Context (n1 : list cond_node) (n : cond_node) (n2 : list cond_node).
Context (D : deletes s a p b h sc Ls x t l1 k l2 n1 n n2).

Lemma del_list : cells s !! b = Some (OList (Ls x t)).
Proof.
  destruct (sa_lists _ _ _ _ (dl_scene _ _ _ _ _ _ _ _ _ _ _ _ _ _ _ D) x t) as (b' & Hb & Hc).
  pose proof (dl_list _ _ _ _ _ _ _ _ _ _ _ _ _ _ _ D). congruence.
Qed.

(** The start of the deletion: up to the case of the set's count. *)
Lemma cond_del_start Q :
  (let l := Ls x t in
   wp (if 1 =? ucCondCount k then
         let m := s32 (iCount l - 1) in
         let l' := set_count m (set_sets (l1 ++ l2) l) in
         set_this (Some b)
           (if 0 =? m then set_truths (if strn_eq LOGIC_MAX_LEN (acLogic l) LOGIC_AND then 1 else 0) l' else l') ;;
         cond_list_update_index (Some b) ;;
         mret NoErr
       else
         let k' := CondSet (csAddr k) (iCondSetIndex k) (uiCondTrue k) (u8 (ucCondCount k - 1)) (unlink n1 n2) in
         set_this (Some b) (set_sets (l1 ++ k' :: l2) l) ;;
         l ← this_ (Some b);
         set_this (Some b) (set_count (s32 (iCount l - 1)) l) ;;
         mret NoErr) (with_glob drop_db s) Q) ->
  wp (cond_del (Some b) (Some p)) s Q.
Proof.
  intros HQ. pose proof del_list as Hb. destruct D as [R C Hp Hl Re Hk Hf Hd]. pose proof Re as [Ha Hlp Hkp Hnp Hs Hns].
  pose proof (co_list _ _ C x t) as Hok. pose proof (lo_wf _ _ _ Hok) as Hw.
  destruct (set_lookup _ _ _ _ Hw Hs) as (_ & Hwk & _).
  unfold cond_del. cbn [is_null]. wp_step. eapply wp_clist; [exact Hb|]. rewrite (list_ok_time _ _ _ Hok).
  assert (Hgo : forall {C} (as_kind : cond -> L C), (exists y, as_kind (stCond n) = mret y) ->
    wp (kind_cond_del as_kind (Some b) (Some p)) s Q).
  { intros T as_kind [y Hy]. unfold kind_cond_del. cbn [is_null orb]. wp_step. eapply wp_load; [exact Hp|reflexivity|].
    cbv zeta. rewrite Hlp, Hl. wp_step. eapply wp_clist; [exact Hb|]. rewrite Hkp, Hnp.
    wp_step. eapply wp_set_at; [exact Hw|exact Hs|]. cbv beta iota.
    wp_step. eapply wp_node_at; [exact Hwk|exact Hns|]. cbv beta iota. rewrite Hy. wp_steps.
    eapply wp_request; [exact Hb|exact Hf|]. unfold db_answer. rewrite Hd.
    change (NoErr =? NoErr) with true. cbv iota. change (negb (NoErr =? NoErr)) with false. cbv iota.
    rewrite bool_decide_true by done. exact HQ. }
  unfold time_cond_del, event_cond_del, kind_is in *. destruct t, (stCond n); try done; (apply Hgo; by eexists).
Qed.

Lemma cond_del_some :
  (2 <= length (pstCond k))%nat ->
  wp (cond_del (Some b) (Some p)) s (fun r s' => r = NoErr /\
    s' = upd b (OList (without (Ls x t) l1 k l2 n1 n2)) (with_glob drop_db s)).
Proof.
  intros H2. apply cond_del_start. pose proof del_list as Hb. cbv zeta.
  pose proof (set_k_wf x t _ _ _ _ (co_list _ _ (dl_bits _ _ _ _ _ _ _ _ _ _ _ _ _ _ _ D) x t)
    (re_sets _ _ _ _ _ _ _ _ _ _ _ _ (dl_reaches _ _ _ _ _ _ _ _ _ _ _ _ _ _ _ D))) as (_ & _ & _ & Hck & _).
  destruct (Z.eqb_spec 1 (ucCondCount k)); [lia|]. wp_step. eapply wp_set_clist; [exact Hb|]. wp_step.
  eapply wp_clist; [apply lookup_insert_eq|]. wp_step. eapply wp_set_clist; [apply lookup_insert_eq|]. wp_steps.
  split; [done|]. by rewrite upd_upd.
Qed.

(** The whole set goes when it has one condition. *)
Lemma cond_del_set :
  length (pstCond k) = 1%nat ->
  wp (cond_del (Some b) (Some p)) s (fun r s' => r = NoErr /\
    (forall c, c <> b -> cells s' !! c = cells s !! c) /\
    exists l', cells s' !! b = Some (OList l') /\ iCount l' = s32 (iCount (Ls x t) - 1) /\
      csAddr <$> sets l' = csAddr <$> (l1 ++ l2)).
Proof.
  intros H1. apply cond_del_start. pose proof del_list as Hb. cbv zeta.
  pose proof (set_k_wf x t _ _ _ _ (co_list _ _ (dl_bits _ _ _ _ _ _ _ _ _ _ _ _ _ _ _ D) x t)
    (re_sets _ _ _ _ _ _ _ _ _ _ _ _ (dl_reaches _ _ _ _ _ _ _ _ _ _ _ _ _ _ _ D))) as (_ & _ & _ & Hck & _).
  destruct (Z.eqb_spec 1 (ucCondCount k)); [|lia]. wp_step. eapply wp_set_clist; [exact Hb|].
  wp_step. unfold cond_list_update_index. cbn [is_null]. wp_step. eapply wp_clist; [apply lookup_insert_eq|].
  wp_step. eapply wp_set_clist; [apply lookup_insert_eq|]. wp_steps. rewrite upd_upd. split_and!; [done| |].
  - intros c Hc. cbn. by rewrite lookup_insert_ne.
  - eexists. split_and!; [apply lookup_insert_eq| |];
      destruct (0 =? s32 (iCount (Ls x t) - 1)); cbn [set_sets set_truths set_count sets iCount]; try done;
      apply index_from_addr.
Qed.
End run.

(** * The truth bits after a deletion *)

Lemma set_truth_spec s p h b l x t l1 k l2 :
  cells s !! p = Some (OPtrNode h) -> pstCondList (stCondPtr h) = Some b -> cells s !! b = Some (OList l) ->
  pCondSetNode (stCondPtr h) = Some (csAddr k) -> list_ok x t l -> sets l = l1 ++ k :: l2 ->
  wp (set_truth x (Some p)) s (fun r s' => r = of_bool (comb x (cond_bits k)) /\ s' = s).
Proof.
  intros Hp Hl Hb Hk Hok Hs. pose proof (lo_wf _ _ _ Hok) as Hw. destruct (set_lookup _ _ _ _ Hw Hs) as (_ & Hwk & _).
  unfold set_truth, handle. wp_step. wp_step. eapply wp_load; [exact Hp|reflexivity|]. wp_step. rewrite Hl, Hk.
  wp_step. eapply wp_clist; [exact Hb|]. wp_step. eapply wp_set_at; [exact Hw|exact Hs|]. cbv beta iota.
  wp_step. rewrite (sw_count _ Hwk). apply wp_low_mask; [apply Hwk|]. wp_step. split; [|done]. f_equal.
  unfold cond_bits, comb. destruct x; [apply all_bits_ones|apply any_bit_ones].
Qed.

Definition settle_with (x t : bool) (p : ptr) : L unit :=
  iTrue ← set_truth x p; _ ← set_init_fun t iTrue p; mret tt.

Lemma wp_set_init t v p h s Q :
  cells s !! p = Some (OPtrNode h) -> wp (init_from_set (bit_no t) (stCondPtr h) (truth v)) s Q ->
  wp (set_init_fun t v (Some p)) s Q.
Proof.
  intros Hp HQ. unfold set_init_fun, scene_time_cond_set_true_init, scene_event_cond_set_true_init, handle.
  destruct t; (wp_step; wp_step; eapply wp_load; [exact Hp|reflexivity|]; wp_step; exact HQ).
Qed.

Section theorem.
Context (char_signed : bool).

(** After the deletion of the condition of a set with others. *)
Definition del_done (s s' : mem) (this a tbl : positive) (m : string -> list pnode) (n : Z) (key : string)
    (x t : bool) (sc : scene_info) (Ls : lists) (at_cond at_bit : nat) : Prop :=
  exists sc' Ls' n', n' <= n /\
    scene_at s' a sc' Ls' /\ consistent sc' Ls' /\ same_scene sc sc' /\
    conds_of (Ls' x t) = delete at_cond (conds_of (Ls x t)) /\
    cond_truths (Ls' x t) = delete at_bit (cond_truths (Ls x t)) /\
    (forall x' t', (x', t') <> (x, t) -> Ls' x' t' = Ls x' t') /\
    table_at char_signed s' this tbl (upd_key m key (del_id (acSceneId sc) (m key))) n' /\
    glob s' = drop_db (glob s).

Lemma del_settled s this a tbl m n key p i b sc Ls x t l1 k l2 n1 nd n2 emptied res h :
  table_at char_signed s this tbl m n -> n < 2 ^ 31 -> find_id (acSceneId sc) (m key) = Some (p, i) ->
  stCondPtr h = i -> deletes s a p b h sc Ls x t l1 k l2 n1 nd n2 -> (2 <= length (pstCond k))%nat ->
  wp (scene_cond_del char_signed (Some this) (Some a) x t key emptied (settle_with x t) res) s (fun r s' =>
    r = res NoErr /\ del_done s s' this a tbl m n key x t sc Ls
      (n_conds l1 + length n1) (n_conds l1 + (length (pstCond k) - 1))).
Proof.
  intros T Hn Hf Hi D H2. pose proof D as [R C Hp Hl Re Hk Hfl Hd]. pose proof Re as [Ha Hlp Hkp Hnp Hs Hns].
  pose proof (del_list _ _ _ _ _ _ _ _ _ _ _ _ _ _ _ D) as Hb. pose proof (sa_scene _ _ _ _ R) as Hac.
  pose proof (co_list _ _ C x t) as Hok. pose proof (without_ok x t _ _ _ _ _ _ _ Hok Hs Hns H2) as Hok'.
  set (l' := without (Ls x t) l1 k l2 n1 n2) in *. set (k' := shrunk k (unlink n1 n2)).
  unfold scene_cond_del. wp_step. eapply wp_load; [exact Hac|reflexivity|]. wp_step.
  eapply wp_mono; [by eapply tab_find_spec|]. intros r s0 [-> ->]. rewrite Hf.
  cbn [fmap option_fmap option_map fst is_null]. cbv zeta. rewrite Hl. unfold via. wp_step. wp_step.
  eapply wp_clist; [exact Hb|]. eapply wp_mono; [by apply (cond_del_some s a p b h sc Ls x t l1 k l2 n1 nd n2 D)|].
  intros r s1 [-> ->]. fold l'. change (NoErr =? NoErr) with true. cbv iota.
  set (s1 := upd b (OList l') (with_glob drop_db s)).
  assert (Hb1 : cells s1 !! b = Some (OList l')) by apply lookup_insert_eq.
  assert (Hpb : p <> b) by congruence.
  assert (Hp1 : cells s1 !! p = Some (OPtrNode h)) by (cbn; by rewrite lookup_insert_ne).
  wp_step. unfold cond_size. cbn [is_null]. wp_step. wp_step. eapply wp_clist; [exact Hb1|]. wp_step.
  unfold l' at 1. rewrite (without_count x t _ _ _ _ _ _ Hok Hs H2). cbv iota. unfold settle_with at 1. wp_step.
  eapply wp_mono; [eapply (set_truth_spec s1 p h b l' x t l1 k' l2); [exact Hp1|congruence|exact Hb1|exact Hkp|exact Hok'|done]|].
  intros r s0 [-> ->]. wp_step. eapply (wp_set_init t _ p h); [exact Hp1|].
  replace (truth (of_bool (comb x (cond_bits k')))) with (comb x (cond_bits k')) by (by destruct (comb _ _)).
  pose proof (scene_at_list _ _ _ _ x t b l' (scene_at_glob drop_db _ _ _ _ R) Hl) as R1. fold s1 in R1.
  pose proof (without_agree x t _ _ _ _ _ _ _ Hok Hs Hns sc Ls eq_refl C H2) as Hag. fold l' in Hag.
  set (Ls1 := upd_pos Ls x t l') in *.
  assert (Hs1 : sets (Ls1 x t) = l1 ++ k' :: l2) by (unfold Ls1; by rewrite upd_pos_same).
  pose proof (init_from_set_spec a x t (stCondPtr h) b Ha ltac:(congruence) s1 sc Ls1 l1 k' l2 R1 Hag Hl Hkp Hs1) as Hini.
  eapply wp_mono; [exact Hini|]. intros r s2 [-> ->]. wp_step.
  pose proof (settled_consistent x t sc Ls1 l1 k' l2 Hag Hs1) as C2.
  pose proof (settled_at a x t b s1 sc Ls1 k' R1 Hl) as R2.
  set (s2 := upd a _ _) in *. set (sc2 := settled_scene x t k' sc Ls1) in *. set (Ls2 := upd_pos Ls1 x t _) in *.
  assert (T2 : table_at char_signed s2 this tbl m n).
  { destruct (sa_lists _ _ _ _ R1 x t) as (b' & Hb' & Hbc). assert (b' = b) as -> by congruence.
    eapply (table_upd _ _ _ _ _ _ a (OScene sc)); [eapply (table_upd _ _ _ _ _ _ b (OList (Ls1 x t)));
      [eapply (table_upd _ _ _ _ _ _ b (OList (Ls x t))); [apply table_glob, T|exact Hb|exact I]|exact Hbc|exact I]| |exact I].
    cbn. rewrite lookup_insert_ne by congruence. apply R1. }
  wp_step. eapply wp_mono; [by eapply tab_del_spec|]. intros r s3 (-> & (G3 & O3 & F3) & n' & Hn' & T3). wp_steps.
  split; [done|]. exists sc2, Ls2, n'. split_and!; [done| |done|done| | | |done|by rewrite G3].
  - destruct (table_hash _ _ _ _ _ _ T2) as [ht Hht].
    assert (Hfr : forall c o, cells s2 !! c = Some o -> scene_obj o -> cells s3 !! c = Some o).
    { intros c o Hc Hso. apply F3; [|done|by destruct o; cbn in Hso]. intros ->. rewrite Hht in Hc.
      injection Hc as <-. by cbn in Hso. }
    eapply scene_at_frame; [exact R2| |].
    + pose proof (sa_scene _ _ _ _ R2) as H. rewrite H. by apply Hfr.
    + intros x' t' c Hc. destruct (sa_lists _ _ _ _ R2 x' t') as (c' & Hc' & Hcc).
      assert (c' = c) as -> by congruence. rewrite Hcc. by apply Hfr.
  - unfold Ls2. rewrite upd_pos_same. unfold conds_of at 1.
    change (sets (settled_list x t k' Ls1)) with (sets (Ls1 x t)). unfold Ls1. rewrite upd_pos_same.
    by apply (without_conds (Ls x t) l1 k l2 n1 nd n2).
  - unfold Ls2. rewrite upd_pos_same. unfold cond_truths at 1.
    change (sets (settled_list x t k' Ls1)) with (sets (Ls1 x t)). unfold Ls1. rewrite upd_pos_same.
    by apply (without_truths (Ls x t) l1 k l2 n1 nd n2).
  - intros x' t' Hne. unfold Ls2, Ls1. by rewrite !upd_pos_other.
Qed.

(** The deletion from the part [x] of the scene, by the condition's type. *)
Definition del_cond (x : bool) (c : cond) : ptr -> ptr -> L Z := fun this sc =>
  match c with
  | CTime t => scene_time_cond_del char_signed x this sc (Some t)
  | CEvent e =>
      if x then scene_event_and_cond_del char_signed this sc (Some e)
      else scene_event_or_cond_del char_signed this sc (Some e)
  end.

(** The manual condition is no condition of the list. *)
Definition listed (x : bool) (c : cond) : Prop :=
  match c with CTime _ => True | CEvent e => x = true \/ strn_eq KEY_MAX_LEN (ecKey e) JSON_VALUE_KEY_MANUAL = false end.

(** The shape the four deletions share. *)
Lemma del_cond_shape x c this a : listed x c -> exists emptied res, res NoErr = NoErr /\
  del_cond x c (Some this) (Some a) =
    scene_cond_del char_signed (Some this) (Some a) x (time_kind c) (cond_key c) emptied (settle_with x (time_kind c)) res.
Proof.
  intros Hc. unfold del_cond. destruct c as [c|e].
  - eexists _, _. split; [|reflexivity]. done.
  - destruct x.
    + eexists _, _. split; [|reflexivity]. done.
    + destruct Hc as [?|Hm]; [done|]. unfold scene_event_or_cond_del. cbn [is_null orb]. rewrite Hm.
      eexists _, _. split; [|reflexivity]. done.
Qed.

(** C40: deleting a condition whose set has others takes it from the list and
    from the table, and brings every level above the conditions into agreement;
    but the truth values of the conditions after it in the set do not move with
    them: it is the last value of the set that goes, so each of these
    conditions gets the value of the one before. *)
Theorem scene_cond_del_shifts_truths s this a tbl m n q p i b sc Ls x l1 k l2 n1 nd n2 h :
  let t := time_kind q in
  table_at char_signed s this tbl m n -> n < 2 ^ 31 -> find_id (acSceneId sc) (m (cond_key q)) = Some (p, i) ->
  stCondPtr h = i -> listed x q -> deletes s a p b h sc Ls x t l1 k l2 n1 nd n2 -> (2 <= length (pstCond k))%nat ->
  wp (del_cond x q (Some this) (Some a)) s (fun r s' =>
    r = NoErr /\ del_done s s' this a tbl m n (cond_key q) x t sc Ls
      (n_conds l1 + length n1) (n_conds l1 + (length (pstCond k) - 1))).
Proof.
  intros t T Hn Hf Hi Hq D H2. destruct (del_cond_shape x q this a Hq) as (emptied & res & Hres & ->).
  eapply wp_mono; [by eapply del_settled|]. by intros r s' [-> ?].
Qed.

Lemma set_truth_gone s p h b l x :
  cells s !! p = Some (OPtrNode h) -> pstCondList (stCondPtr h) = Some b -> cells s !! b = Some (OList l) ->
  (forall c, pCondSetNode (stCondPtr h) = Some c -> c ∉ csAddr <$> sets l) -> is_Some (pCondSetNode (stCondPtr h)) ->
  set_truth x (Some p) s = Fault Dangling.
Proof.
  intros Hp Hl Hb Hk [c Hc]. unfold set_truth, handle. apply fault_after. wp_step. eapply wp_load; [exact Hp|reflexivity|].
  wp_step. apply fault_after. rewrite Hl. eapply wp_clist; [exact Hb|]. apply fault_bind. rewrite Hc. cbn [the_set].
  destruct (split_set c (sets l)) as [[[l1 k] l2]|] eqn:Hsp; [|done].
  apply split_set_Some in Hsp as [Hs Ha]. exfalso. apply (Hk c Hc). rewrite Hs, fmap_app, fmap_cons, Ha, elem_of_app.
  right. by left.
Qed.

(** Deleting the only condition of a set frees the set; when the list has
    other sets, each of the four functions then reads the truth of the freed
    set through the handle. *)
Theorem scene_cond_del_uses_freed_set s this a tbl m n q p i b sc Ls x l1 k l2 n1 nd n2 h :
  let t := time_kind q in
  table_at char_signed s this tbl m n -> find_id (acSceneId sc) (m (cond_key q)) = Some (p, i) ->
  stCondPtr h = i -> listed x q -> deletes s a p b h sc Ls x t l1 k l2 n1 nd n2 ->
  length (pstCond k) = 1%nat -> l1 ++ l2 <> [] ->
  del_cond x q (Some this) (Some a) s = Fault Dangling.
Proof.
  intros t T Hf Hi Hq D H1 Hne. destruct (del_cond_shape x q this a Hq) as (emptied & res & Hres & ->).
  fold t. clearbody t. pose proof D as [R C Hp Hl Re Hk Hfl Hd]. pose proof Re as [Ha Hlp Hkp Hnp Hs Hns].
  pose proof (del_list _ _ _ _ _ _ _ _ _ _ _ _ _ _ _ D) as Hb.
  pose proof (co_list _ _ C x t) as Hok. destruct (lo_wf _ _ _ Hok) as (W & _ & Hcount).
  unfold scene_cond_del. apply fault_after. eapply wp_load; [apply R|reflexivity|]. apply fault_after.
  eapply wp_mono; [by eapply tab_find_spec|]. intros r s0 [-> ->]. rewrite Hf.
  cbn [fmap option_fmap option_map fst is_null]. cbv zeta. rewrite Hl. unfold via. apply fault_after. wp_step.
  eapply wp_clist; [exact Hb|]. eapply wp_mono; [by apply (cond_del_set s a p b h sc Ls x t l1 k l2 n1 nd n2 D)|].
  intros r s1 (-> & Hfr & l' & Hb1 & Hc1 & Hs1). change (NoErr =? NoErr) with true. cbv iota.
  assert (Hpb : p <> b) by congruence. pose proof (lw_addr _ W) as Hnd. rewrite Hs, fmap_app, fmap_cons in Hnd.
  assert (Hpos : 0 =? iCount l' = false).
  { apply Z.eqb_neq. pose proof (lw_set _ W) as Hw. pose proof (n_conds_bound _ Hw). pose proof (lw_len _ W).
    rewrite Hc1, s32_small by (unfold INT_MIN, INT_MAX; lia). rewrite Hcount, Hs, n_conds_app, n_conds_cons, H1.
    rewrite Hs in Hw. apply Forall_middle in Hw as [Hw _]. destruct (l1 ++ l2) as [|k0 ks] eqn:Hll; [done|].
    pose proof (n_conds_app l1 l2) as Hn. rewrite Hll, n_conds_cons in Hn. apply Forall_cons in Hw as [[_ _ Hlen _] _]. lia. }
  apply fault_bind. apply fault_after. unfold cond_size. cbn [is_null]. wp_step. eapply wp_clist; [exact Hb1|]. wp_step.
  rewrite Hpos. unfold settle_with. apply fault_bind.
  eapply (set_truth_gone s1 p h b l'); [by rewrite Hfr|congruence|exact Hb1| |by eexists].
  intros c Hc. assert (c = csAddr k) as -> by congruence. rewrite Hs1, fmap_app. by apply NoDup_middle in Hnd as [_ ?].
Qed.
End theorem.

(** * A scene with two Or event conditions, in one set or in two *)

Definition lamp_ev : event_cond := EventCond "lamp" "Switch" "Instant" "0" "1" "Equ" "0".
Definition fan_ev : event_cond := EventCond "fan" "Switch" "Instant" "0" "1" "Equ" "1".
Definition pair_sets (together : bool) : list cond_set :=
  if together then [CondSet 30 0 2 2 [CondNode 31 0 (CEvent lamp_ev); CondNode 32 1 (CEvent fan_ev)]]
  else [CondSet 30 0 0 1 [CondNode 31 0 (CEvent lamp_ev)]; CondSet 33 1 1 1 [CondNode 34 0 (CEvent fan_ev)]].
(** The fan's condition is true. *)
Definition pair_lists (together : bool) : lists := fun x t =>
  CondList (if x || t then [] else pair_sets together)
    (if x then 1 else if t then 0 else if together then 1 else 2) (if x || t then 0 else 2) "s1"
    (if x then LOGIC_AND else LOGIC_OR) (if t then COND_TIME else COND_EVENT) 0.
Definition pair_scene : scene_info :=
  SceneInfo "s1" "evening" 0 "1" "0" "" "" 1 NULL
    (CondLogic 2 (Some 1%positive) (Some 2%positive)) (CondLogic 3 (Some 3%positive) (Some 4%positive)) NULL.
Definition lamp_info : ptr_info :=
  PtrInfo "s1" (Some 10%positive) (Some 2%positive) (Some 30%positive) (Some 31%positive) NULL.
Definition lamp_node : ptr_node := PtrNode lamp_info NULL (Some 60%positive).
Definition lamp_key : string := "lampSwitchcond".
Definition pair_mem (together : bool) : mem :=
  Heap (<[50%positive := OSceneList (SceneList [10%positive] (Some 51%positive) 0 NULL)]>
       (<[51%positive := reg_table (one_bucket lamp_key 60) 1 0]>
       (<[60%positive := OPtrNode (PtrNode ptr_info0 (Some 20%positive) NULL)]>
       (<[20%positive := OPtrNode lamp_node]>
       (<[10%positive := OScene pair_scene]>
       (<[1%positive := OList (pair_lists together false true)]>
       (<[2%positive := OList (pair_lists together false false)]>
       (<[3%positive := OList (pair_lists together true true)]>
       (<[4%positive := OList (pair_lists together true false)]> ∅))))))))) 70 []
    (Env [] (Tm 1 9 0) 1000 [] [] sync_unused acts0).
Definition pair_chain : string -> list pnode := one_chain lamp_key [(20%positive, lamp_info)].

Lemma pair_table together : table_at true (pair_mem together) 50 51 pair_chain 1.
Proof.
  split.
  - eexists. split; reflexivity.
  - exists (one_head lamp_key 60). split.
    + apply one_key_reg; [vm_compute; lia|vm_compute; reflexivity|reflexivity| |].
      * exists ptr_info0, NULL. split; [reflexivity|]. cbn [seg]. split; [reflexivity|exact I].
      * repeat constructor; set_solver.
    + intros k. unfold one_head, pair_chain, one_chain, upd_key. case_decide; [done|by intros []].
  - intros a Ha. cbn [pair_mem brk] in Ha. unfold pair_mem. cbn [cells].
    rewrite !lookup_insert_ne by lia. done.
Qed.

Lemma pair_consistent together : consistent pair_scene (pair_lists together).
Proof.
  split.
  - intros x t. split; [|done|done]. destruct x, t, together; (split_and!; [split|done|done]); cbn;
      try lia; repeat (constructor; cbn); try set_solver; try lia; try done.
  - intros x t. apply Forall_forall. destruct x, t, together; repeat constructor; vm_compute; reflexivity.
  - intros [] []; destruct together; vm_compute; reflexivity.
  - intros []; vm_compute; split; congruence.
  - destruct together; vm_compute; reflexivity.
Qed.

Lemma pair_deletes together : exists k l2 n2, pair_sets together = [] ++ k :: l2 /\
  csAddr k = 30%positive /\ length l2 = (if together then 0 else 1)%nat /\
  length (pstCond k) = (if together then 2 else 1)%nat /\
  deletes (pair_mem together) 10 20 2 lamp_node pair_scene (pair_lists together) false false
    [] k l2 [] (CondNode 31 0 (CEvent lamp_ev)) n2.
Proof.
  eexists (hd (new_set 30) (pair_sets together)), (tl (pair_sets together)), (tl (pstCond (hd (new_set 30) (pair_sets together)))).
  split; [by destruct together|]. split; [by destruct together|]. split; [by destruct together|].
  split; [by destruct together|]. split; try reflexivity.
  - split; [reflexivity| |].
    + intros [] []; eexists; split; reflexivity.
    + by intros [] [] [] [].
  - apply pair_consistent.
  - split; try reflexivity; by destruct together.
Qed.

Lemma scene_cond_del_shifts_truths_witness : exists k n2,
  deletes (pair_mem true) 10 20 2 lamp_node pair_scene (pair_lists true) false false
    [] k [] [] (CondNode 31 0 (CEvent lamp_ev)) n2 /\
  conds_of (pair_lists true false false) = [CEvent lamp_ev; CEvent fan_ev] /\
  cond_truths (pair_lists true false false) = [false; true] /\
  wp (del_cond true false (CEvent lamp_ev) (Some 50%positive) (Some 10%positive)) (pair_mem true) (fun r s' =>
    r = NoErr /\ exists sc' Ls', scene_at s' 10 sc' Ls' /\ consistent sc' Ls' /\
      conds_of (Ls' false false) = [CEvent fan_ev] /\ cond_truths (Ls' false false) = [false]).
Proof.
  destruct (pair_deletes true) as (k & l2 & n2 & Hs & Hk & Hl2 & Hn & D). destruct l2; [|done].
  exists k, n2. split; [exact D|]. split; [reflexivity|]. split; [reflexivity|].
  eapply wp_mono.
  - apply (scene_cond_del_shifts_truths true (pair_mem true) 50 10 51 pair_chain 1 (CEvent lamp_ev) 20 lamp_info 2
      pair_scene (pair_lists true) false [] k [] [] (CondNode 31 0 (CEvent lamp_ev)) n2 lamp_node).
    + apply pair_table.
    + lia.
    + vm_compute. reflexivity.
    + reflexivity.
    + right. reflexivity.
    + exact D.
    + rewrite Hn. lia.
  - intros r s' [-> (sc' & Ls' & n' & _ & R & C & _ & Hc & Ht & _)]. split; [done|]. exists sc', Ls'.
    change (time_kind (CEvent lamp_ev)) with false in Hc, Ht. rewrite Hn in Ht.
    split; [exact R|]. split; [exact C|]. split; [rewrite Hc|rewrite Ht]; reflexivity.
Defined.

Lemma scene_cond_del_uses_freed_set_witness : exists k l2 n2,
  deletes (pair_mem false) 10 20 2 lamp_node pair_scene (pair_lists false) false false
    [] k l2 [] (CondNode 31 0 (CEvent lamp_ev)) n2 /\
  del_cond true false (CEvent lamp_ev) (Some 50%positive) (Some 10%positive) (pair_mem false) = Fault Dangling.
Proof.
  destruct (pair_deletes false) as (k & l2 & n2 & Hs & Hk & Hl2 & Hn & D).
  exists k, l2, n2. split; [exact D|].
  apply (scene_cond_del_uses_freed_set true (pair_mem false) 50 10 51 pair_chain 1 (CEvent lamp_ev) 20 lamp_info 2
    pair_scene (pair_lists false) false [] k l2 [] (CondNode 31 0 (CEvent lamp_ev)) n2 lamp_node).
  - apply pair_table.
  - vm_compute. reflexivity.
  - reflexivity.
  - right. reflexivity.
  - exact D.
  - exact Hn.
  - destruct l2; done.
Defined.
