(* ===== verification/EventProps.v ===== *)
(** What an event does to the scenes that watch its device and key. *)
From stdpp Require Import gmap strings.
From S2P Require Import Prelude Heap CString HashTable SceneTimer SceneCond SceneSync SceneData PtrHash PtrRefine PtrProps CondList CondRefine SceneTruth SceneRefine SceneFire SceneTimeFire SceneOps SceneEvent OpsRefine.

Lemma event_truth_bool c ev : _scene_event_cond_is_true c ev = 0 \/ _scene_event_cond_is_true c ev = 1.
Proof.
  unfold _scene_event_cond_is_true, of_bool.
  repeat (match goal with |- context [if ?b then _ else _] => destruct b end); auto.
Qed.

(** * A condition that watches a key *)

(** The condition [wNode] of a scene, in its And or Or event list, and where the
    nodes around it are. *)
Record watch : Type := Watch {
  wScene : positive; wInfo : scene_info; wLists : lists;
  wAnd : bool; wList : positive;
  wBefore : list cond_set; wSet : cond_set; wAfter : list cond_set;
  wLeft : list cond_node; wNode : cond_node; wRight : list cond_node;
  wCond : event_cond
}.

Record watch_at (s : mem) (p : positive) (i : ptr_info) (w : watch) : Prop := {
  wa_scene : scene_at s (wScene w) (wInfo w) (wLists w);
  wa_bits : consistent (wInfo w) (wLists w);
  wa_list : list_ptr (wInfo w) (wAnd w) false = Some (wList w);
  wa_reaches : reaches (wInfo w) (wScene w) (wLists w) (wAnd w) false i
    (wBefore w) (wSet w) (wAfter w) (wLeft w) (wNode w) (wRight w);
  wa_cond : stCond (wNode w) = CEvent (wCond w);
  wa_flag : ucInitFlag (wLists w (wAnd w) false) = 0;
  wa_node : exists h, cells s !! p = Some (OPtrNode h) /\ stCondPtr h = i
}.

(** The objects of the scene that it can change. *)
Definition owns (w : watch) (c : positive) : Prop :=
  c = wScene w \/ exists x t, list_ptr (wInfo w) x t = Some c.
Definition apart (w w' : watch) : Prop := forall c, owns w c -> owns w' c -> False.
Fixpoint separate (ws : list watch) : Prop :=
  match ws with [] => True | w :: ws => Forall (apart w) ws /\ separate ws end.

Lemma watch_frame s s' p i w :
  watch_at s p i w -> (forall c, owns w c -> cells s' !! c = cells s !! c) ->
  cells s' !! p = cells s !! p -> watch_at s' p i w.
Proof.
  intros [R C L Re E F N] Hf Hp. split; try done; [|by rewrite Hp].
  eapply scene_at_frame; [exact R|apply Hf; by left|]. intros x t b Hb. apply Hf. right. by exists x, t.
Qed.

(** ** The pieces of what the event means for it *)

Definition place (w : watch) : nat := (n_conds (wBefore w) + length (wLeft w))%nat.
Definition was (w : watch) : bool := Z.testbit (uiCondTrue (wSet w)) (iCondIndex (wNode w)).
Definition enabled (w : watch) : bool := negb (strn_eq STATE_MAX_LEN (acSceneEnable (wInfo w)) "0").
Definition changed (ev : event_t) (w : watch) : bool :=
  negb (strn_eq ActionList.VALUE_MAX_LEN (acLastValue (wCond w)) (evValue ev)).
Definition verdict (ev : event_t) (w : watch) : Z := _scene_event_cond_is_true (wCond w) ev.
Definition cond_after (ev : event_t) (w : watch) : event_cond :=
  if changed ev w then set_last_value (evValue ev) (wCond w) else wCond w.

(** Whether the scene is executed: the edge of the condition in a scene that is
    true with it. *)
Definition triggers (ev : event_t) (w : watch) : bool :=
  fires (verdict ev w) (was w)
    (with_bit (wLists w) (wAnd w) false (wBefore w) (wSet w) (wAfter w) (wNode w) (truth (verdict ev w))).

(** The same scene, list and place. *)
Definition same_place (w w' : watch) : Prop :=
  wScene w' = wScene w /\ wAnd w' = wAnd w /\ place w' = place w /\
  (forall x t, list_ptr (wInfo w') x t = list_ptr (wInfo w) x t) /\ same_scene (wInfo w) (wInfo w').

(** The event, handled for one condition, whose node is at [p]. *)
Record handled (ev : event_t) (p : positive) (w w' : watch) (g g' : env) : Prop := {
  ha_place : same_place w w';
  ha_cond : wCond w' = cond_after ev w;
  ha_truths : cond_truths (wLists w' (wAnd w) false) =
    <[place w := final_value (verdict ev w) (wCond w)]> (cond_truths (wLists w (wAnd w) false));
  ha_other : forall x t, (x, t) <> (wAnd w, false) -> wLists w' x t = wLists w x t;
  ha_effect : exists sc1, same_scene (wInfo w) sc1 /\
    g' = (if triggers ev w then react (reaction_of (wCond w)) (Some p) sc1 else fun g => g) g
}.

(** A condition of a disabled scene is skipped. *)
Definition step (ev : event_t) (p : positive) (w w' : watch) (g g' : env) : Prop :=
  if enabled w then handled ev p w w' g g' else w' = w /\ g' = g.

(** All the conditions on the key, one after the other. *)
Inductive steps (ev : event_t) : list positive -> list watch -> list watch -> env -> env -> Prop :=
| steps_nil g : steps ev [] [] [] g g
| steps_cons p ps w ws w' ws' g g1 g' :
    step ev p w w' g g1 -> steps ev ps ws ws' g1 g' -> steps ev (p :: ps) (w :: ws) (w' :: ws') g g'.

Lemma owns_same w w' c : same_place w w' -> owns w' c <-> owns w c.
Proof. intros (Hs & _ & _ & Hp & _). unfold owns. rewrite Hs. setoid_rewrite Hp. done. Qed.

(** * The new value *)

Lemma with_node_reaches sc a Ls x t i l1 k l2 n1 n n2 c :
  reaches sc a Ls x t i l1 k l2 n1 n n2 ->
  reaches sc a (upd_pos Ls x t (with_node l1 k l2 n1 n n2 c (Ls x t))) x t i
    l1 (rewritten k n1 n c n2) l2 n1 (set_node_cond c n) n2.
Proof. intros [Ha Hl Hk Hn Hs Hns]. split; try done. by rewrite upd_pos_same. Qed.

Lemma scene_at_put s a sc Ls x t b l :
  scene_at s a sc Ls -> list_ptr sc x t = Some b -> scene_at (upd b (OList l) s) a sc (upd_pos Ls x t l).
Proof. apply scene_at_list. Qed.

Lemma update_last_spec s p i w v :
  watch_at s p i w ->
  let d := hd NoErr (db_results (glob s)) in
  wp (update_last_value (Some p) v) s (fun r s' =>
    r = (if d =? NoErr then None else Some SceneAddErr) /\
    s' = with_glob drop_db (upd (wList w) (OList (with_node (wBefore w) (wSet w) (wAfter w) (wLeft w) (wNode w)
           (wRight w) (CEvent (set_last_value v (wCond w))) (wLists w (wAnd w) false))) s)).
Proof.
  intros [R C L [Ha Hl Hk Hn Hs Hns] E F (h & Hh & <-)] d.
  destruct (sa_lists _ _ _ _ R (wAnd w) false) as (b & Hb & Hc). assert (b = wList w) as -> by congruence.
  assert (Hpl : pstCondList (stCondPtr h) = Some (wList w)) by congruence.
  pose proof (lo_wf _ _ _ (co_list _ _ C (wAnd w) false)) as Hw.
  destruct (set_lookup _ _ _ _ Hw Hs) as (_ & Hwk & _).
  unfold update_last_value, handle. wp_step. wp_step. eapply wp_load; [exact Hh|reflexivity|]. wp_step.
  unfold upd_node. wp_step. wp_step. eapply wp_load; [exact Hh|reflexivity|]. cbv zeta. rewrite Hpl, Hk, Hn.
  wp_step. eapply wp_clist; [exact Hc|]. wp_step. eapply wp_set_at; [exact Hw|exact Hs|]. cbv beta iota.
  wp_step. eapply wp_node_at; [exact Hwk|exact Hns|]. cbv beta iota. rewrite E. cbn [as_event]. wp_steps.
  eapply wp_set_clist; [exact Hc|]. wp_step. unfold via. wp_step. eapply wp_clist; [apply lookup_insert_eq|].
  unfold cond_set_db. eapply wp_request; [apply lookup_insert_eq|exact F|]. wp_step.
  unfold db_answer. cbn [glob upd with_cells]. fold d. by destruct (d =? NoErr).
Qed.

(** The watch after its condition got another content. *)
Definition rewatch (w : watch) (e : event_cond) : watch :=
  Watch (wScene w) (wInfo w)
    (upd_pos (wLists w) (wAnd w) false
      (with_node (wBefore w) (wSet w) (wAfter w) (wLeft w) (wNode w) (wRight w) (CEvent e) (wLists w (wAnd w) false)))
    (wAnd w) (wList w) (wBefore w) (rewritten (wSet w) (wLeft w) (wNode w) (CEvent e) (wRight w)) (wAfter w)
    (wLeft w) (set_node_cond (CEvent e) (wNode w)) (wRight w) e.

Lemma rewatch_at s p i w e :
  watch_at s p i w ->
  watch_at (with_glob drop_db (upd (wList w) (OList (wLists (rewatch w e) (wAnd w) false)) s)) p i (rewatch w e).
Proof.
  intros [R C L Re E F (h & Hh & Hi)]. pose proof Re as [_ _ _ _ Hs Hns].
  destruct (sa_lists _ _ _ _ R (wAnd w) false) as (b & Hb & Hc). assert (b = wList w) as -> by congruence.
  assert (Hne : p <> wList w) by congruence.
  cbn [rewatch wLists]. rewrite upd_pos_same. split; cbn [rewatch wScene wInfo wLists wAnd wList wBefore wSet wAfter wLeft wNode wRight wCond].
  - apply scene_at_glob, scene_at_put; [exact R|exact L].
  - by apply with_node_consistent.
  - done.
  - by apply with_node_reaches.
  - done.
  - rewrite upd_pos_same. exact F.
  - exists h. split; [|done]. cbn. by rewrite lookup_insert_ne.
Qed.

Lemma rewatch_triggers ev s p i w e :
  watch_at s p i w -> verdict ev w = verdict ev (rewatch w e) -> triggers ev (rewatch w e) = triggers ev w.
Proof.
  intros [R C L Re E F _] Hv. pose proof Re as [_ _ _ _ Hs Hns]. unfold triggers, fires. rewrite <- Hv.
  f_equal. pose proof (co_list _ _ C (wAnd w) false) as Hok. pose proof (lo_wf _ _ _ Hok) as Hw.
  pose proof (with_node_ok _ _ _ _ _ _ _ _ _ (CEvent e) Hok Hs Hns) as Hok'.
  apply formula_ext; intros x t; (destruct (decide ((x, t) = (wAnd w, false))) as [[= -> ->]|Hne];
    [|unfold with_bit; cbn [rewatch wLists wAnd wBefore wSet wAfter wNode]; by rewrite !upd_pos_other]).
  - f_equal. cbn [rewatch wLists wAnd wBefore wSet wAfter wNode].
    rewrite (with_bit_truths _ _ _ _ _ _ (wLeft w) (wNode w) (wRight w) _ Hw Hs Hns).
    rewrite (with_bit_truths _ _ _ _ _ _ (wLeft w) (set_node_cond (CEvent e) (wNode w)) (wRight w));
      [|rewrite upd_pos_same; apply Hok'|by rewrite upd_pos_same|done].
    by rewrite upd_pos_same, with_node_truths.
  - cbn [rewatch wLists wAnd wBefore wSet wAfter wNode]. rewrite !with_bit_sets.
    rewrite !n_conds_app, !n_conds_cons. cbn. by rewrite Hns, !length_app.
Qed.

(** The update of the bits. *)
Lemma bits_spec ev s p i w :
  watch_at s p i w -> oom s = [] ->
  wp (scene_event_cond_true_update (verdict ev w) (Some p)) s (fun r s' => r = NoErr /\ oom s' = [] /\
    (forall c, ~ owns w c -> cells s' !! c = cells s !! c) /\
    exists w', watch_at s' p i w' /\ same_place w w' /\ wCond w' = wCond w /\
      cond_truths (wLists w' (wAnd w) false) =
        <[place w := final_value (verdict ev w) (wCond w)]> (cond_truths (wLists w (wAnd w) false)) /\
      (forall x t, (x, t) <> (wAnd w, false) -> wLists w' x t = wLists w x t) /\
      exists sc1, same_scene (wInfo w) sc1 /\
        glob s' = (if triggers ev w then react (reaction_of (wCond w)) (Some p) sc1 else fun g => g) (glob s)).
Proof.
  intros [R C L Re E F (h & Hh & <-)] Ho.
  eapply wp_mono; [eapply (event_update_effect s (wScene w) _ _ (wAnd w) (wList w));
    [exact R|exact C|exact L|exact Hh|exact Re|exact E|exact Ho|apply event_truth_bool]|].
  cbv zeta. intros r s' (-> & sc' & Ls' & k' & sc1 & U & Hs1 & Hg). split_and!; [done| | |].
  - by rewrite (up_oom _ _ _ _ _ _ _ _ _ _ _ _ _ _ _ _ _ U).
  - intros c Hno. apply (up_frame _ _ _ _ _ _ _ _ _ _ _ _ _ _ _ _ _ U); intros ->; apply Hno; [by left|].
    right. by eexists _, _.
  - exists (Watch (wScene w) sc' Ls' (wAnd w) (wList w) (wBefore w) k' (wAfter w) (wLeft w) (wNode w) (wRight w) (wCond w)).
    assert (Hn : cells s' !! p = Some (OPtrNode h)).
    { rewrite (up_frame _ _ _ _ _ _ _ _ _ _ _ _ _ _ _ _ _ U); [done| |].
      - intros ->. pose proof (sa_scene _ _ _ _ R). congruence.
      - intros ->. destruct (sa_lists _ _ _ _ R (wAnd w) false) as (b & Hb & Hc). congruence. }
    destruct U as [R' C' Re' T' O' S' P' G' M' F'].
    split_and!; [|done|done|exact T'|exact O'|by exists sc1].
    split; cbn [wScene wInfo wLists wAnd wList wBefore wSet wAfter wLeft wNode wRight wCond];
      [done|done|by rewrite P'|done|done|congruence|by exists h].
Qed.

Lemma db_ok g : db_results g = [] -> drop_db g = g.
Proof. destruct g. cbn. by intros ->. Qed.

Lemma react_db c r p sc g :
  db_results g = [] -> db_results ((if c : bool then react r p sc else fun g => g) g) = [].
Proof. by destruct c, r. Qed.

Lemma same_place_rewatch w e w' : same_place (rewatch w e) w' -> same_place w w'.
Proof. done. Qed.
Lemma handled_frame w e (s s2 : mem) p i :
  watch_at s p i w ->
  (forall c, ~ owns (rewatch w e) c -> cells s2 !! c =
     cells (with_glob drop_db (upd (wList w) (OList (with_node (wBefore w) (wSet w) (wAfter w) (wLeft w) (wNode w)
              (wRight w) (CEvent e) (wLists w (wAnd w) false))) s)) !! c) ->
  forall c, ~ owns w c -> cells s2 !! c = cells s !! c.
Proof.
  intros W Hf c Hc. rewrite Hf by done. cbn. rewrite lookup_insert_ne; [done|].
  intros <-. apply Hc. right. exists (wAnd w), false. apply W.
Qed.

(** * One condition *)

Section event.
Context (this : ptr) (ev : event_t).

(** The start of the function: a disabled scene, or the condition. *)
Lemma event_node_start s p i w Q :
  watch_at s p i w -> ecTriggerType (wCond w) <> "StateSync"%string ->
  (if enabled w then
     wp (r ← (if changed ev w then update_last_value (Some p) (evValue ev) else mret None);
         match r with
         | Some iRet => mret (Some iRet)
         | None => _ ← scene_event_cond_true_update (verdict ev w) (Some p); mret None
         end) s Q
   else Q None s) ->
  wp (scene_event_node this ev (Some p)) s Q.
Proof.
  intros [R C L Re E F (h & Hh & <-)] Hst HQ. unfold scene_event_node, handle. wp_step. wp_step.
  eapply wp_load; [exact Hh|reflexivity|]. wp_step. unfold load_scene. wp_step.
  rewrite (re_scene _ _ _ _ _ _ _ _ _ _ _ _ Re). eapply wp_load; [apply R|reflexivity|].
  unfold enabled in HQ. destruct (strn_eq STATE_MAX_LEN (acSceneEnable (wInfo w)) "0"); cbn [negb] in HQ; [by wp_step|].
  wp_step. unfold wp at 1. rewrite (reaches_cond_at _ _ _ _ _ _ _ _ _ _ _ _ _ R (lo_wf _ _ _ (co_list _ _ C _ _)) Re), E.
  cbn [as_event]. wp_step. wp_step. cbv zeta. unfold str_eq. rewrite bool_decide_false by done. exact HQ.
Qed.

Lemma event_node_spec s p i w :
  watch_at s p i w -> ecTriggerType (wCond w) <> "StateSync"%string -> oom s = [] -> db_results (glob s) = [] ->
  wp (scene_event_node this ev (Some p)) s (fun r s' => r = None /\ oom s' = [] /\ db_results (glob s') = [] /\
    (forall c, ~ owns w c -> cells s' !! c = cells s !! c) /\
    exists w', watch_at s' p i w' /\ same_place w w' /\ step ev p w w' (glob s) (glob s')).
Proof.
  intros W Hst Ho Hdb. eapply event_node_start; [exact W|exact Hst|]. unfold step.
  destruct (enabled w); [|by split_and!; [..|exists w]].
  destruct (changed ev w) eqn:Hch; wp_step.
  - set (e := set_last_value (evValue ev) (wCond w)). pose proof (rewatch_at s p i w e W) as W1.
    eapply wp_mono; [by apply (update_last_spec s p i w)|]. cbv zeta. rewrite Hdb. cbn [hd].
    change (NoErr =? NoErr) with true. intros r s1 [-> ->]. fold e.
    assert (Heq : wLists (rewatch w e) (wAnd w) false =
      with_node (wBefore w) (wSet w) (wAfter w) (wLeft w) (wNode w) (wRight w) (CEvent e) (wLists w (wAnd w) false))
      by (cbn [rewatch wLists]; apply upd_pos_same).
    rewrite Heq in W1. wp_step. change (verdict ev w) with (verdict ev (rewatch w e)).
    eapply wp_mono; [eapply (bits_spec ev _ p i (rewatch w e)); [exact W1|exact Ho]|].
    intros r s2 (-> & Ho2 & Hf & w' & W' & P' & E' & T' & O' & sc1 & S1 & G1). wp_step.
    rewrite (rewatch_triggers ev s p i w e W eq_refl) in G1. cbn [glob with_glob upd with_cells] in G1.
    rewrite db_ok in G1 by done. split_and!; [done|done| |exact (handled_frame w e s s2 p i W Hf)|].
    + rewrite G1. by apply react_db.
    + exists w'. split_and!; [done|by eapply same_place_rewatch|]. split; [by eapply same_place_rewatch| | | |].
      * rewrite E'. unfold cond_after. by rewrite Hch.
      * cbn [rewatch wAnd] in T'. destruct (wa_reaches _ _ _ _ W) as [_ _ _ _ Hs Hns]. by rewrite T', Heq, (with_node_truths _ _ _ _ _ _ _ _ Hs Hns).
      * intros x t Hne. rewrite O' by done. cbn [rewatch wLists]. by rewrite upd_pos_other.
      * by exists sc1.
  - wp_step. wp_step. eapply wp_mono; [eapply (bits_spec ev _ p i w W Ho)|].
    intros r s2 (-> & Ho2 & Hf & w' & W' & P' & E' & T' & O' & sc1 & S1 & G1). wp_step.
    split_and!; [done|done| |done|].
    + rewrite G1. by apply react_db.
    + exists w'. split_and!; [done|done|]. split; [done| |done|done|by exists sc1].
      rewrite E'. unfold cond_after. by rewrite Hch.
Qed.

(** * All the conditions on the key *)

(** The chain from [p] on: the nodes [ns], which watch as [ws] say. *)
Fixpoint watches (s : mem) (ns : list pnode) (ws : list watch) : Prop :=
  match ns, ws with
  | [], [] => True
  | (p, i) :: ns, w :: ws => watch_at s p i w /\ watches s ns ws
  | _, _ => False
  end.
(** No scene owns a pointer node. *)
Definition is_node (s : mem) (c : positive) : Prop := exists h, cells s !! c = Some (OPtrNode h).
Lemma owns_not_node s p i w c : watch_at s p i w -> is_node s c -> ~ owns w c.
Proof.
  intros W [h Hh] [->|(x & t & Hc)].
  - pose proof (sa_scene _ _ _ _ (wa_scene _ _ _ _ W)). congruence.
  - destruct (sa_lists _ _ _ _ (wa_scene _ _ _ _ W) x t) as (b & Hb & Hbc). congruence.
Qed.

Lemma watches_frame s s' ns : forall ws,
  watches s ns ws -> (forall w c, w ∈ ws -> owns w c -> cells s' !! c = cells s !! c) ->
  (forall c, c ∈ ns.*1 -> cells s' !! c = cells s !! c) -> watches s' ns ws.
Proof.
  induction ns as [|[p i] ns IH]; intros [|w ws] H Hw Hn; try done. destruct H as [W H]. split.
  - eapply watch_frame; [exact W|intros c; apply Hw; by left|apply Hn; by left].
  - apply IH; [done| |]; intros; [eapply Hw; [by right|done]|apply Hn; by right].
Qed.

Lemma watches_in s ns : forall ws w, watches s ns ws -> w ∈ ws -> exists p i, watch_at s p i w.
Proof.
  induction ns as [|[p i] ns IH]; intros [|w0 ws] w H Hw; try done; [by apply elem_of_nil in Hw|].
  destruct H as [W H]. apply elem_of_cons in Hw as [->|Hw]; [by exists p, i|by apply (IH ws)].
Qed.
Lemma walk_cells s pv ns q a : seg s pv ns q -> a ∈ ns.*1 -> is_node s a.
Proof.
  revert pv. induction ns as [|[b i] ns IH]; intros pv; cbn; [by intros _ ?%elem_of_nil|].
  intros [Hb Hs] [->|Ha]%elem_of_cons; [by eexists|by eapply IH].
Qed.

Lemma walk_spec ns : forall ws s pv k,
  seg s pv ns NULL -> watches s ns ws -> separate ws -> (length ns < k)%nat ->
  Forall (fun w => ecTriggerType (wCond w) <> "StateSync"%string) ws -> oom s = [] -> db_results (glob s) = [] ->
  wp (loop k (fun p : ptr =>
    if is_null p then mret (inr NoErr) else
    r ← scene_event_node this ev p;
    match r with
    | Some iRet => mret (inr iRet)
    | None => n ← load to_node p; mret (inl (pnNext n))
    end) (first_or ns NULL)) s (fun r s' => r = NoErr /\ oom s' = [] /\ db_results (glob s') = [] /\
    (forall c, (forall w, w ∈ ws -> ~ owns w c) -> cells s' !! c = cells s !! c) /\
    exists ws', watches s' ns ws' /\ Forall2 same_place ws ws' /\ steps ev ns.*1 ws ws' (glob s) (glob s')).
Proof.
  induction ns as [|[p i] ns IH]; intros ws s pv k Hseg Hws Hsep Hk Hst Ho Hdb;
    (destruct k as [|k]; [simpl in Hk; lia|]); destruct ws as [|w ws]; try done; rewrite loop_S; wp_step.
  - wp_steps. split_and!; try done. exists []. split_and!; [done|constructor|constructor].
  - destruct Hws as [W Hws], Hsep as [Hap Hsep], Hseg as [Hp Hseg]. apply Forall_cons in Hst as [Hst1 Hst].
    cbn [first_or is_null]. wp_step. eapply wp_mono; [by apply (event_node_spec s p i w)|].
    intros r s1 (-> & Ho1 & Hdb1 & Hf & w' & W' & P' & S'). rewrite Forall_forall in Hap.
    assert (Hnode : forall c, is_node s c -> cells s1 !! c = cells s !! c).
    { intros c Hc. apply Hf. by eapply owns_not_node. }
    assert (Hns : forall a, a ∈ ns.*1 -> cells s1 !! a = cells s !! a).
    { intros a Ha. apply Hnode. by eapply walk_cells. }
    wp_step. eapply wp_load; [rewrite Hnode by (by eexists); exact Hp|reflexivity|]. cbn [pnNext].
    wp_step. eapply wp_mono; [eapply (IH ws s1 (Some p) k); try done|].
    + by eapply seg_frame.
    + eapply watches_frame; [exact Hws| |exact Hns]. intros w1 c Hw1 Hc. apply Hf. intros Hwc. by eapply Hap.
    + simpl in Hk. lia.
    + intros r s2 (-> & Ho2 & Hdb2 & Hf2 & ws' & Hws' & P2 & S2). split_and!; [done|done|done| |].
      * intros c Hc. rewrite Hf2, Hf; [done|apply Hc; by left|intros w1 Hw1; apply Hc; by right].
      * exists (w' :: ws'). split_and!; [|by constructor|by econstructor]. split; [|done].
        assert (Hown : forall c, owns w' c -> cells s2 !! c = cells s1 !! c).
        { intros c Hc%(owns_same w w' c P'). apply Hf2. intros w1 Hw1 Hc1. by eapply Hap. }
        eapply watch_frame; [exact W'|exact Hown|]. apply Hf2. intros w1 Hw1 Hc1.
        destruct (watches_in s ns ws w1 Hws Hw1) as (p1 & i1 & W1).
        eapply owns_not_node; [exact W1|by eexists|exact Hc1].
Qed.
End event.

Section dispatch.
Context (char_signed : bool) (ev : event_t).

Lemma find_all_spec s a tbl m n key :
  table_at char_signed s a tbl m n ->
  wp (tab_find_all char_signed (Some a) key) s (fun r s' => s' = s /\
    match r with None => m key = [] | Some h => chain s h (m key) /\ (length (m key) <= size (cells s))%nat end).
Proof.
  intros T. unfold tab_find_all. wp_step. eapply wp_the_table; [exact T|].
  destruct T as [_ (hds & R & _) _]. eapply wp_mono; [by eapply ptr_hash_find_all_spec|].
  intros r s' [-> ->]. split; [done|]. pose proof (rg_chain _ _ _ _ _ _ R key) as Hc.
  pose proof (rg_nodup _ _ _ _ _ _ R key) as Hnd. unfold fp in Hnd.
  destruct (hds key) as [h|]; [|done]. split; [done|]. destruct Hc as (hi & hp & Hs).
  rewrite <- (length_fmap fst). apply NoDup_size; [by apply NoDup_app in Hnd as (_ & _ & ?)|].
  intros c Hc. cbn [seg] in Hs. destruct Hs as [_ Hs]. destruct (walk_cells _ _ _ _ _ Hs Hc) as [nd Hnd']. by eexists.
Qed.

(** C5: a report of a device on whose device and key there are conditions, none
    of them a state synchronisation, is handed to each of them, in the order of
    the table, while the database takes every value and there is memory: each
    condition of an enabled scene keeps the new value, its truth bits and its
    scene's are brought into agreement, and the scene is executed, or its timer
    started, exactly on the condition's edge; conditions of disabled scenes, and
    everything that no such scene owns, stay as they were. *)
Theorem scene_event_dispatches s a tbl m n ws :
  let key := event_hash_key (evDevId ev) (evKey ev) in
  table_at char_signed s a tbl m n -> m key <> [] -> watches s (m key) ws -> separate ws ->
  Forall (fun w => ecTriggerType (wCond w) <> "StateSync"%string) ws -> oom s = [] -> db_results (glob s) = [] ->
  wp (scene_list_event char_signed (Some a) (Some ev)) s (fun r s' => r = NoErr /\
    (exists ws', watches s' (m key) ws' /\ Forall2 same_place ws ws' /\
       steps ev (m key).*1 ws ws' (glob s) (glob s')) /\
    (forall c, (forall w, w ∈ ws -> ~ owns w c) -> cells s' !! c = cells s !! c)).
Proof.
  intros key T Hne Hws Hsep Hst Ho Hdb. subst key. unfold scene_list_event. cbn [is_null]. wp_step.
  eapply wp_mono; [by eapply find_all_spec|]. intros [h|] s' [-> Hc]; [|done]. destruct Hc as [Hc Hlen].
  cbn [is_null negb]. unfold walk_nodes. destruct Hc as (hi & hp & Hh & Hseg). wp_step.
  eapply wp_load; [exact Hh|reflexivity|]. cbn [pnNext]. wp_step. unfold fuel. wp_step.
  eapply wp_mono; [eapply (walk_spec (Some a) ev _ ws); [exact Hseg|exact Hws|exact Hsep|lia|exact Hst|exact Ho|exact Hdb]|].
  intros r s' (-> & _ & _ & Hf & ws' & Hws' & P' & S'). split_and!; [done|by exists ws'|done].
Qed.

(** When the database refuses the new value of a condition, the report
    ends there: the condition has the value, but neither its truth nor its
    scene's is updated, nothing is executed, and no further condition on the
    device and key, in whatever scene, learns of the report. *)
Theorem scene_event_stops_at_database s a tbl m n p i ns w d ds :
  let key := event_hash_key (evDevId ev) (evKey ev) in
  table_at char_signed s a tbl m n -> m key = (p, i) :: ns -> watch_at s p i w ->
  ecTriggerType (wCond w) <> "StateSync"%string -> enabled w = true -> changed ev w = true ->
  db_results (glob s) = d :: ds -> d <> NoErr ->
  wp (scene_list_event char_signed (Some a) (Some ev)) s (fun r s' => r = SceneAddErr /\
    (exists w', watch_at s' p i w' /\ wInfo w' = wInfo w /\
       wCond w' = set_last_value (evValue ev) (wCond w) /\
       forall x t, cond_truths (wLists w' x t) = cond_truths (wLists w x t)) /\
    glob s' = drop_db (glob s) /\
    (forall c, c <> wList w -> cells s' !! c = cells s !! c)).
Proof.
  intros key T Hm W Hst Hen Hch Hdb Hd. subst key. unfold scene_list_event. cbn [is_null]. wp_step.
  eapply wp_mono; [by eapply find_all_spec|]. rewrite Hm. intros [h|] s' [-> Hc]; [|done]. destruct Hc as [(hi & hp & Hh & Hseg) _].
  cbn [is_null negb]. unfold walk_nodes. wp_step. eapply wp_load; [exact Hh|reflexivity|]. cbn [pnNext first_or].
  wp_step. unfold fuel. wp_step. rewrite loop_S. wp_step. cbn [is_null]. wp_step.
  eapply event_node_start; [exact W|exact Hst|]. rewrite Hen, Hch. wp_step.
  eapply wp_mono; [by apply (update_last_spec s p i w)|]. cbv zeta. rewrite Hdb. cbn [hd].
  destruct (Z.eqb_spec d NoErr); [done|]. intros r s1 [-> ->]. wp_steps.
  set (e := set_last_value (evValue ev) (wCond w)). pose proof (rewatch_at s p i w e W) as W1.
  assert (Heq : wLists (rewatch w e) (wAnd w) false =
    with_node (wBefore w) (wSet w) (wAfter w) (wLeft w) (wNode w) (wRight w) (CEvent e) (wLists w (wAnd w) false))
    by (cbn [rewatch wLists]; apply upd_pos_same).
  rewrite Heq in W1. destruct (wa_reaches _ _ _ _ W) as [_ _ _ _ Hs Hns]. split_and!; [done| |done|].
  - exists (rewatch w e). split_and!; [exact W1|done|done|]. intros x t.
    destruct (decide ((x, t) = (wAnd w, false))) as [[= -> ->]|Hne].
    + by rewrite Heq, (with_node_truths _ _ _ _ _ _ _ _ Hs Hns).
    + cbn [rewatch wLists]. by rewrite upd_pos_other.
  - intros c Hc. cbn. by rewrite lookup_insert_ne.
Qed.
End dispatch.

(** * The scene of SceneFire.v with its condition registered *)

Definition demo_key : string := "lampSwitchcond".
Definition demo_report : event_t := Event "lamp" "Switch" "1".
Definition demo_watched (db : list Z) : mem :=
  Heap (<[50%positive := OSceneList (SceneList [10%positive] (Some 51%positive) 0 NULL)]>
       (<[51%positive := reg_table (one_bucket demo_key 60) 1 0]>
       (<[60%positive := OPtrNode (PtrNode ptr_info0 (Some 20%positive) NULL)]>
       (<[20%positive := OPtrNode (PtrNode (demo_info false) NULL (Some 60%positive))]> (cells (demo_mem false))))))
    70 [] (set_db db (glob (demo_mem false))).
Definition demo_watch : watch :=
  Watch 10 demo_scene (demo_lists false) false 2 [] (demo_set false) [] [] (demo_node false) [] demo_ev.
Definition demo_chain : string -> list pnode := one_chain demo_key [(20%positive, demo_info false)].

Lemma demo_watched_table db : table_at true (demo_watched db) 50 51 demo_chain 1.
Proof.
  split.
  - eexists. split; reflexivity.
  - exists (one_head demo_key 60). split.
    + apply one_key_reg; [vm_compute; lia|vm_compute; reflexivity|reflexivity| |].
      * exists ptr_info0, NULL. split; [reflexivity|]. cbn [seg]. split; [reflexivity|exact I].
      * repeat constructor; set_solver.
    + intros k. unfold one_head, demo_chain, one_chain, upd_key. case_decide; [done|by intros []].
  - intros a Ha. cbn [demo_watched brk] in Ha. unfold demo_watched, demo_mem. cbn [cells].
    rewrite !lookup_insert_ne by lia. done.
Qed.

Lemma demo_watch_at db : watch_at (demo_watched db) 20 (demo_info false) demo_watch.
Proof.
  split; try reflexivity.
  - eapply scene_at_frame; [apply (demo_at false)|reflexivity|]. intros [] [] b [= <-]; reflexivity.
  - exact (demo_consistent false).
  - exact (demo_reaches false).
  - eexists. split; reflexivity.
Qed.

Lemma scene_event_dispatches_witness :
  wp (scene_list_event true (Some 50%positive) (Some demo_report)) (demo_watched []) (fun r s' => r = NoErr /\
    (exists ws', watches s' [(20%positive, demo_info false)] ws' /\ Forall2 same_place [demo_watch] ws' /\
       steps demo_report [20%positive] [demo_watch] ws' (glob (demo_watched [])) (glob s')) /\
    (forall c, (forall w, w ∈ [demo_watch] -> ~ owns w c) -> cells s' !! c = cells (demo_watched []) !! c)).
Proof.
  apply (scene_event_dispatches true demo_report (demo_watched []) 50 51 demo_chain 1 [demo_watch]).
  - exact (demo_watched_table []).
  - discriminate.
  - exact (conj (demo_watch_at []) I).
  - exact (conj (Forall_nil_2 _) I).
  - apply Forall_singleton. discriminate.
  - reflexivity.
  - reflexivity.
Defined.

Lemma scene_event_stops_at_database_witness :
  wp (scene_list_event true (Some 50%positive) (Some demo_report)) (demo_watched [-1]) (fun r s' => r = SceneAddErr /\
    (exists w', watch_at s' 20 (demo_info false) w' /\ wInfo w' = demo_scene /\
       wCond w' = set_last_value "1" demo_ev /\
       forall x t, cond_truths (wLists w' x t) = cond_truths (demo_lists false x t)) /\
    glob s' = drop_db (glob (demo_watched [-1])) /\
    (forall c, c <> 2%positive -> cells s' !! c = cells (demo_watched [-1]) !! c)).
Proof.
  apply (scene_event_stops_at_database true demo_report (demo_watched [-1]) 50 51 demo_chain 1 20 (demo_info false) []
           demo_watch (-1) []).
  - exact (demo_watched_table [-1]).
  - reflexivity.
  - exact (demo_watch_at [-1]).
  - discriminate.
  - reflexivity.
  - reflexivity.
  - reflexivity.
  - discriminate.
Defined.
