(* ===== verification/ExecProps.v ===== *)
(** What one round of the execution thread does. *)
From stdpp Require Import gmap strings pretty.
From S2P Require Import Prelude Heap CString Base64 HashTable SceneTimer SceneCond SceneSync SceneData ActionList CondList SceneTruth SceneEvent.

(** * Executing a list of actions *)

(** The decoder does not depend on the state it runs in. *)
Lemma base64_decode_run {S} (s : S) : forall n xs, (length xs <= n)%nat ->
  base64_decode xs s = match base64_decode xs tt with Val (bs, _) => Val (bs, s) | Fault f => Fault f end.
Proof.
  induction n as [|n IH]; intros xs Hn; (destruct xs as [|x0 xs]; [done|]); [cbn in Hn; lia|].
  cbn [base64_decode]. destruct (x0 =? 0); [done|]. destruct xs as [|x1 [|x2 [|x3 xs]]]; [done..|].
  cbv zeta. destruct (x2 =? _); [done|]. destruct (x3 =? _); [done|]. cbn [length] in Hn.
  unfold mbind, M_bind. rewrite (IH xs) by lia. by destruct (base64_decode xs tt) as [[bs []]|].
Qed.

Section exec.
Context {json : Type} (cJSON_Parse : string -> option json).
Context (JSON_value_get : string -> nat -> json -> option string).
Context (cbs : list action_cb).

(** The data an action pushes to a device; a Base64 text may end in the middle
    of a group, or have no end. *)
Definition pushed (i : action_info) : option (list Z) :=
  if strn_eq VALUE_CODING_MAX_LEN (acValueCoding i) "Original" then Some (codes (atValue i))
  else if strn_eq VALUE_CODING_MAX_LEN (acValueCoding i) "Base64" then
    match base64_decode (codes (atValue i) ++ replicate (VALUE_MAX_LEN - String.length (atValue i)) 0) tt with
    | Val (data, _) => Some data
    | Fault _ => None
    end
  else Some [].

(** The texts of the keys [ks] of the action's value, when it has them all. *)
Definition params (i : action_info) (ks : list (string * nat)) : option (list string) :=
  j ← cJSON_Parse (atValue i); mapM (fun k => JSON_value_get k.1 k.2 j) ks.
Definition enable_of (i : action_info) : string :=
  default "" (j ← cJSON_Parse (atValue i); JSON_value_get "Enable" STATE_MAX_LEN j).

Definition callback_of (iCbid : Z) : option action_cb :=
  if (iCbid <=? 0) || (ACTION_CALLBACK_LIST_MAX_NUM <=? first_index (fun c => (iCbId c =? iCbid)%Z) 0 cbs)%nat then None
  else cbs !! first_index (fun c => iCbId c =? iCbid) 0 cbs.

(** What an action makes the program do, with the callbacks [cbs]; [None]: it
    goes wrong.  Without the parameters it needs an action does nothing. *)
Definition effects_of (i : action_info) : option (list effect) :=
  let key k := strn_eq KEY_MAX_LEN (atKey i) k in
  if key "SceneId"%string then Some
    match params i [("SceneId", INDEX_MAX_LEN)]%string with
    | Some [id] => [Command "LocalScene" (("Op", "ExecScene") :: ("Id", id) ::
                      (if str_eq (enable_of i) "" then [] else [("Enable", enable_of i)]))%string]
    | _ => []
    end
  else if key "PushZigbee"%string then data ← pushed i; Some [CustomData data]
  else if key "Sleep"%string then Some [Usleep (u32 (atoi (atValue i) * 1000))]
  else if key "Group"%string then Some
    match params i [("GroupId", INDEX_MAX_LEN); ("Type", TYPE_MAX_LEN); ("Key", KEY_MAX_LEN); ("Value", VALUE_MAX_LEN)]%string with
    | Some [group; type; k; v] => [Command "Multicast" [("GroupId", group); ("Key", k); ("Type", type); ("Value", v)]%string]
    | _ => []
    end
  else if key "CallBack"%string then
    match params i [("CbId", INDEX_MAX_LEN); ("Param", KEY_MAX_LEN)]%string with
    | Some [id; param] =>
        match callback_of (atoi id) with
        | Some cb => if is_null (pFun cb) then None else Some [CallBack (pFun cb) (pUserData cb) param]
        | None => Some []
        end
    | _ => Some []
    end
  else Some [Command "Ctrl" [("DeviceId", atDevId i); ("Key", atKey i); ("Value", atValue i)]%string].

(** The object at [b] is a list of actions that do [es], one after another. *)
Definition script (s : mem) (b : positive) (es : list effect) : Prop :=
  exists l ess, cells s !! b = Some (OActions l) /\ NoDup (fst <$> actions l) /\
    effects_of <$> (snd <$> actions l) = Some <$> ess /\ es = concat ess.

Definition table (s : mem) : list action_cb := g_astActionCBList (acts (glob s)).

(** Only the effects grow, the results of commands are used up, and action
    lists keep their scripts. *)
Record performed (s s' : mem) (es : list effect) : Prop := {
  pf_effects : effects (acts (glob s')) = effects (acts (glob s)) ++ es;
  pf_queue : exec_queue (glob s') = exec_queue (glob s);
  pf_time : unix_time (glob s') = unix_time (glob s);
  pf_table : table s' = table s;
  pf_scripts : forall b cs, script s b cs -> script s' b cs;
  pf_other : forall c o, cells s !! c = Some o -> to_actions o = None -> cells s' !! c = Some o
}.

Lemma performed_refl s : performed s s [].
Proof. split; [by rewrite app_nil_r|done..]. Qed.
Lemma performed_trans s s1 s2 es1 es2 :
  performed s s1 es1 -> performed s1 s2 es2 -> performed s s2 (es1 ++ es2).
Proof.
  intros [E1 Q1 T1 B1 S1 O1] [E2 Q2 T2 B2 S2 O2]. split.
  - by rewrite E2, E1, app_assoc.
  - by rewrite Q2.
  - by rewrite T2.
  - by rewrite B2.
  - intros b cs H. by apply S2, S1.
  - intros c o Hc Ho. apply O2; [by apply O1|done].
Qed.

(** A change of the globals that adds the effects [es]. *)
Definition adds (es : list effect) (f : env -> env) : Prop :=
  forall g, exec_queue (f g) = exec_queue g /\ unix_time (f g) = unix_time g /\
    g_astActionCBList (acts (f g)) = g_astActionCBList (acts g) /\ effects (acts (f g)) = effects (acts g) ++ es.

Lemma adds_nil : adds [] (fun g => g).
Proof. intros g. by rewrite app_nil_r. Qed.
Lemma adds_emit e : adds [e] (fun g => set_acts (push_effect e (acts g)) g).
Proof. done. Qed.

(** A write of results, with the command sent. *)
Lemma performed_put s b l l' es f :
  cells s !! b = Some (OActions l) -> fst <$> actions l' = fst <$> actions l ->
  effects_of <$> (snd <$> actions l') = effects_of <$> (snd <$> actions l) -> adds es f ->
  performed s (upd b (OActions l') (with_glob f s)) es.
Proof.
  intros Hb Ha Hc Hf. destruct (Hf (glob s)) as (Hq & Ht & Hcb & He). split; [done|done|done|done| |].
  - intros b' cs (m & ess & Hm & Hnd & Hom & Hcm). destruct (decide (b' = b)) as [->|Hne].
    + rewrite Hb in Hm. injection Hm as <-. exists l', ess. split_and!; [apply lookup_insert_eq|by rewrite Ha|congruence|done].
    + exists m, ess. split_and!; try done. cbn. by rewrite lookup_insert_ne.
  - intros c o Hco Hno. cbn. rewrite lookup_insert_ne; [done|]. intros ->. rewrite Hb in Hco. by injection Hco as <-.
Qed.

Lemma emit_adds {A} e s (a : A) (Q : A -> mem -> Prop) :
  (forall f, adds [e] f -> Q a (with_glob f s)) -> wp (emit e ;; mret a) s Q.
Proof. intros HQ. wp_step. unfold emit, put_acts. apply wp_setg. wp_step. apply (HQ (fun g => set_acts _ g)), adds_emit. Qed.

Lemma command_adds e s (Q : Z -> mem -> Prop) :
  (forall r f, adds [e] f -> Q r (with_glob f s)) -> wp (handleHyCommandByScene e) s Q.
Proof.
  intros HQ. unfold handleHyCommandByScene, emit, get_acts, put_acts. wp_step. apply wp_setg. wp_step. wp_step. apply wp_getg.
  wp_step. wp_step. apply wp_setg. wp_step.
  apply (HQ _ (fun g => let g := set_acts (push_effect e (acts g)) g in
    set_acts (ActState (g_astActionCBList (acts g)) (tl (command_results (acts g))) (effects (acts g))) g)). by intros g.
Qed.

(** ** Each kind of action *)

Definition does (p : L Z) (s : mem) (es : list effect) : Prop :=
  wp p s (fun _ s' => exists f, adds es f /\ s' = with_glob f s).

Lemma does_nothing r s : does (mret r) s [].
Proof. unfold does. wp_step. exists (fun g => g). split; [apply adds_nil|by destruct s]. Qed.
Lemma does_command e s : does (handleHyCommandByScene e) s [e].
Proof. apply command_adds. intros r f Hf. eauto. Qed.

Lemma scene_does i s es : strn_eq KEY_MAX_LEN (atKey i) "SceneId" = true -> effects_of i = Some es ->
  does (exec_scene cJSON_Parse JSON_value_get i) s es.
Proof.
  intros H1 He. unfold effects_of in He. rewrite H1 in He. injection He as <-. unfold exec_scene, enable_of.
  destruct (cJSON_Parse (atValue i)) as [j|] eqn:Hj; unfold params; rewrite Hj; [|apply does_nothing]. cbn.
  destruct (JSON_value_get "SceneId" INDEX_MAX_LEN j) as [id|]; [apply does_command|apply does_nothing].
Qed.
Lemma group_does i s es : strn_eq KEY_MAX_LEN (atKey i) "SceneId" = false -> strn_eq KEY_MAX_LEN (atKey i) "PushZigbee" = false ->
  strn_eq KEY_MAX_LEN (atKey i) "Sleep" = false -> strn_eq KEY_MAX_LEN (atKey i) "Group" = true -> effects_of i = Some es ->
  does (exec_group cJSON_Parse JSON_value_get i) s es.
Proof.
  intros H1 H2 H3 H4 He. unfold effects_of in He. rewrite H1, H2, H3, H4 in He. injection He as <-. unfold exec_group, params.
  destruct (cJSON_Parse (atValue i)) as [j|]; [|apply does_nothing]. cbn.
  destruct (JSON_value_get "GroupId" _ j); [|apply does_nothing]. destruct (JSON_value_get "Type" _ j); [|apply does_nothing].
  destruct (JSON_value_get "Key" _ j); [|apply does_nothing]. destruct (JSON_value_get "Value" _ j); [apply does_command|apply does_nothing].
Qed.
Lemma zigbee_does i s es : strn_eq KEY_MAX_LEN (atKey i) "SceneId" = false -> strn_eq KEY_MAX_LEN (atKey i) "PushZigbee" = true ->
  effects_of i = Some es -> does (exec_zigbee i) s es.
Proof.
  intros H1 H2 He. unfold effects_of in He. rewrite H1, H2 in He. unfold pushed in He. unfold exec_zigbee, does. wp_step.
  destruct (strn_eq VALUE_CODING_MAX_LEN (acValueCoding i) "Original"); [injection He as <-; wp_step; apply does_command|].
  destruct (strn_eq VALUE_CODING_MAX_LEN (acValueCoding i) "Base64"); [|injection He as <-; wp_step; apply does_command].
  unfold wp at 1. rewrite (base64_decode_run s _ _ (le_n _)).
  destruct (base64_decode _ tt) as [[data []]|]; [|done]. injection He as <-. apply does_command.
Qed.

Lemma callback_get_spec id s (Q : option action_cb -> mem -> Prop) : table s = cbs -> Q (callback_of id) s ->
  wp (action_callback_get id) s Q.
Proof.
  intros Ht HQ. unfold action_callback_get, callback_of in *. destruct (id <=? 0); cbn [orb] in HQ; [by wp_step|].
  unfold get_acts. wp_step. wp_step. apply wp_getg. wp_step. change (g_astActionCBList (acts (glob s))) with (table s). rewrite Ht.
  cbv zeta. destruct (_ <=? _)%nat; by wp_step.
Qed.
Lemma callback_does i s es : table s = cbs -> strn_eq KEY_MAX_LEN (atKey i) "SceneId" = false ->
  strn_eq KEY_MAX_LEN (atKey i) "PushZigbee" = false -> strn_eq KEY_MAX_LEN (atKey i) "Sleep" = false ->
  strn_eq KEY_MAX_LEN (atKey i) "Group" = false -> strn_eq KEY_MAX_LEN (atKey i) "CallBack" = true -> effects_of i = Some es ->
  does (exec_callback cJSON_Parse JSON_value_get i) s es.
Proof.
  intros Ht H1 H2 H3 H4 H5 He. unfold effects_of in He. rewrite H1, H2, H3, H4, H5 in He. revert He. unfold exec_callback, params.
  destruct (cJSON_Parse (atValue i)) as [j|]; [|intros [= <-]; apply does_nothing]. cbn.
  destruct (JSON_value_get "CbId" _ j) as [id|]; [|intros [= <-]; apply does_nothing].
  destruct (JSON_value_get "Param" _ j) as [param|]; [|intros [= <-]; apply does_nothing]. cbn. intros He.
  unfold does. wp_step. apply callback_get_spec; [done|]. destruct (callback_of (atoi id)) as [cb|]; [|injection He as <-; apply does_nothing].
  destruct (is_null (pFun cb)); [done|]. injection He as <-. apply emit_adds. eauto.
Qed.

Lemma action_does i s es : table s = cbs -> effects_of i = Some es ->
  wp (action_list_exec cJSON_Parse JSON_value_get i) s (fun r s' =>
    effects_of r.2 = effects_of i /\ exists f, adds es f /\ s' = with_glob f s).
Proof.
  intros Ht He.
  assert (Hdoes : forall p, does p s es -> wp (r ← p; mret (r, i)) s (fun r s' =>
    effects_of r.2 = effects_of i /\ exists f, adds es f /\ s' = with_glob f s)).
  { intros p Hp. wp_step. eapply wp_mono; [exact Hp|]. intros r s' Hf. wp_step. done. }
  unfold action_list_exec. destruct (strn_eq KEY_MAX_LEN (atKey i) "SceneId") eqn:H1; [by apply Hdoes, scene_does|].
  destruct (strn_eq KEY_MAX_LEN (atKey i) "PushZigbee") eqn:H2; [by apply Hdoes, zigbee_does|].
  destruct (strn_eq KEY_MAX_LEN (atKey i) "Sleep") eqn:H3.
  { unfold effects_of in He. rewrite H1, H2, H3 in He. injection He as <-. apply emit_adds. eauto. }
  destruct (strn_eq KEY_MAX_LEN (atKey i) "Group") eqn:H4; [by apply Hdoes, group_does|].
  destruct (strn_eq KEY_MAX_LEN (atKey i) "CallBack") eqn:H5; [by apply Hdoes, callback_does|].
  assert (He' := He). unfold effects_of in He'. rewrite H1, H2, H3, H4, H5 in He'. injection He' as <-.
  wp_step. apply command_adds. intros r f Hf. wp_step. split; [done|]. eauto.
Qed.

Lemma split_at_in (xs : list (positive * action_info)) : forall l1 a i l2,
  xs = l1 ++ (a, i) :: l2 -> NoDup (fst <$> xs) -> split_at a xs = Some (l1, i, l2).
Proof.
  induction xs as [|[b j] xs IH]; intros l1 a i l2 Heq Hnd; [by destruct l1|].
  destruct l1 as [|[c k] l1]; injection Heq as -> -> ->; cbn [split_at].
  - by rewrite decide_True.
  - cbn in Hnd. apply NoDup_cons in Hnd as [Hn Hnd]. rewrite decide_False.
    + by rewrite (IH l1 a i l2).
    + intros ->. apply Hn. rewrite fmap_app. apply elem_of_app. right. by left.
Qed.

Lemma action_at_spec s b l l1 a i l2 :
  cells s !! b = Some (OActions l) -> actions l = l1 ++ (a, i) :: l2 -> NoDup (fst <$> actions l) ->
  wp (action_at (Some b) (Some a)) s (fun r s' => s' = s /\ r = (l1, i, l2)).
Proof.
  intros Hb Ha Hnd. unfold action_at, ActionList.this_. wp_step. eapply wp_load; [exact Hb|reflexivity|].
  eapply wp_get_or; [by apply split_at_in|done].
Qed.

Lemma exec_loop_spec b l2 : forall s l l1 k ess, table s = cbs ->
  cells s !! b = Some (OActions l) -> actions l = l1 ++ l2 -> NoDup (fst <$> actions l) ->
  effects_of <$> (snd <$> l2) = Some <$> ess -> (length l2 < k)%nat ->
  wp (loop k (fun p : ptr =>
    if is_null p then mret (inr NoErr) else
    '(_, i, _) ← action_at (Some b) p;
    '(_, i) ← action_list_exec cJSON_Parse JSON_value_get i;
    '(l1, _, l2) ← action_at (Some b) p;
    l ← ActionList.this_ (Some b);
    ActionList.set_this (Some b) (set_actions (l1 ++ (default 1%positive p, i) :: l2) l) ;;
    p ← action_next (Some b) p;
    mret (inl p)) (fst <$> head l2)) s (fun r s' => r = NoErr /\ performed s s' (concat ess)).
Proof.
  induction l2 as [|[a i] l2 IH]; intros s l l1 k ess Ht Hb Hl Hnd Ho Hk; (destruct k as [|k]; [simpl in Hk; lia|]);
    rewrite loop_S; wp_step; cbn [head fmap option_fmap option_map fst is_null].
  - destruct ess as [|es ess]; [|discriminate Ho]. wp_steps. split; [done|apply performed_refl].
  - destruct ess as [|es ess]; [discriminate Ho|]. cbn [fmap list_fmap snd] in Ho. injection Ho as Hi Ho.
    wp_step. eapply wp_mono; [by eapply action_at_spec|].
    intros r s0 [-> ->]. wp_step. eapply wp_mono; [by apply action_does|].
    intros [r i'] s1 (He & f & Hf & ->). cbn [snd] in He. cbv beta iota.
    wp_step. eapply wp_mono; [eapply action_at_spec; [exact Hb|exact Hl|exact Hnd]|]. intros r1 s0 [-> ->]. cbv beta iota.
    wp_step. unfold ActionList.this_. eapply wp_load; [exact Hb|reflexivity|].
    wp_step. unfold ActionList.set_this. eapply wp_store; [exact Hb|]. cbn [default].
    set (l' := set_actions (l1 ++ (a, i') :: l2) l).
    assert (Hb' : cells (upd b (OActions l') (with_glob f s)) !! b = Some (OActions l')) by apply lookup_insert_eq.
    assert (Ha' : fst <$> actions l' = fst <$> actions l).
    { cbn. by rewrite Hl, !fmap_app, !fmap_cons. }
    assert (P1 : performed s (upd b (OActions l') (with_glob f s)) es).
    { apply (performed_put s b l l'); [exact Hb|done| |exact Hf]. cbn. rewrite Hl, !fmap_app, !fmap_cons. cbn [snd]. by rewrite He. }
    wp_step. unfold action_next. wp_step.
    eapply wp_mono; [eapply (action_at_spec _ b l' l1 a i' l2); [exact Hb'|done|by rewrite Ha']|].
    intros r1 s0 [-> ->]. cbn [snd]. wp_steps.
    eapply wp_mono; [eapply (IH _ l' (l1 ++ [(a, i')]) k ess); [etrans; [apply (pf_table _ _ _ P1)|exact Ht]|exact Hb'|cbn; by rewrite <- app_assoc|by rewrite Ha'|exact Ho|simpl in Hk; lia]|].
    intros r1 s2 [-> P2]. split; [done|]. exact (performed_trans _ _ _ _ _ P1 P2).
Qed.

Lemma exec_all_spec s b cs : table s = cbs -> script s b cs ->
  wp (action_list_exec_all cJSON_Parse JSON_value_get (Some b)) s (fun r s' => r = NoErr /\ performed s s' cs).
Proof.
  intros Ht (l & ess & Hb & Hnd & Ho & ->). unfold action_list_exec_all. cbn [is_null]. wp_step.
  unfold ActionList.this_ at 1. eapply wp_load; [exact Hb|reflexivity|]. wp_step.
  unfold action_first, ActionList.this_ at 1. wp_step. eapply wp_load; [exact Hb|reflexivity|]. wp_step.
  by apply (exec_loop_spec b (actions l) s l []); try lia.
Qed.

(** * A round over the queue *)

(** What the execution of a queued scene does: what its actions do, and then
    its report, when there is a handler of reports. *)
Definition scene_effects (c : scene_list) (q : queue_node) (cs : list effect) : list effect :=
  cs ++ (if is_null (pSceneReportHandler c) then [] else [SceneReport (acSceneId (stSceneInfo q))]).
Definition queued (s : mem) (q : queue_node) (cs : list effect) : Prop :=
  exists b, pstAction (stSceneInfo q) = Some b /\ script s b cs.

Lemma queued_performed s s' es q cs : performed s s' es -> queued s q cs -> queued s' q cs.
Proof. intros P (b & Hb & H). exists b. split; [done|by apply P]. Qed.

Lemma report_spec s a c q :
  cells s !! a = Some (OSceneList c) ->
  wp (scene_report_scene_exec (Some a) (acSceneId (stSceneInfo q))) s (fun _ s' => exists f, s' = with_glob f s /\
    adds (scene_effects c q []) f).
Proof.
  intros Ha. unfold scene_report_scene_exec, scene_effects. wp_step. eapply wp_load; [exact Ha|reflexivity|].
  destruct (is_null (pSceneReportHandler c)).
  - wp_steps. exists (fun g => g). split; [by destruct s|apply adds_nil].
  - wp_step. unfold emit, put_acts. apply wp_setg. wp_steps. eexists. split; [reflexivity|apply adds_emit].
Qed.

Lemma performed_glob s f es : adds es f -> performed s (with_glob f s) es.
Proof. intros Hf. destruct (Hf (glob s)) as (? & ? & ? & ?). by split. Qed.

Lemma exec_round_spec a c rest : forall css s kept k, table s = cbs ->
  cells s !! a = Some (OSceneList c) ->
  exec_queue (glob s) = kept ++ rest -> Forall2 (queued s) rest css -> (length rest < k)%nat ->
  let now := unix_time (glob s) in
  wp (loop k (exec_node cJSON_Parse JSON_value_get (Some a)) (length kept)) s (fun _ s' =>
    exec_queue (glob s') = kept ++ filter (fun q => due now q = false) rest /\
    effects (acts (glob s')) = effects (acts (glob s)) ++
      concat (zip_with (fun q cs => if due now q then scene_effects c q cs else []) rest css)).
Proof.
  induction rest as [|q rest IH]; intros css s kept k Ht Ha Hq Hsc Hk now; (destruct k as [|k]; [simpl in Hk; lia|]);
    rewrite loop_S; wp_step; unfold exec_node at 1; wp_step; apply wp_getg; rewrite Hq;
    (apply Forall2_cons_inv_l in Hsc || apply Forall2_nil_inv_l in Hsc).
  - subst css. rewrite lookup_ge_None_2 by (rewrite app_nil_r; done). wp_steps.
    split_and!; [by rewrite Hq|by rewrite app_nil_r].
  - destruct Hsc as (cs & css' & Hqs & Hsc & ->). rewrite list_lookup_middle by done. fold now.
    cbn [zip_with concat]. rewrite filter_cons. destruct (due now q) eqn:Hdue.
    + destruct Hqs as (b & Hb & Hs). cbv zeta. rewrite Hb. pose proof Hs as (l & ess & Hl & _).
      wp_step. unfold ActionList.this_. eapply wp_load; [exact Hl|reflexivity|].
      wp_step. eapply wp_mono; [by apply exec_all_spec|]. intros r s1 [-> P1].
      assert (Ha1 : cells s1 !! a = Some (OSceneList c)) by (eapply pf_other; [exact P1|exact Ha|done]).
      wp_step. eapply wp_mono; [by eapply report_spec|]. intros r s2 (f & -> & Hf).
      pose proof (performed_trans _ _ _ _ _ P1 (performed_glob s1 f _ Hf)) as P2.
      wp_step. apply wp_setg. wp_steps. set (s2 := with_glob f s1) in *.
      assert (Hq2 : exec_queue (glob s2) = kept ++ q :: rest) by (by rewrite (pf_queue _ _ _ P2)).
      assert (Ht2 : unix_time (glob s2) = now) by apply P2.
      set (s3 := with_glob _ s2).
      assert (Hq3 : exec_queue (glob s3) = kept ++ rest) by (change (exec_queue (glob s3)) with (delete (length kept) (exec_queue (glob s2))); rewrite Hq2; by apply delete_middle).
      eapply wp_mono; [eapply (IH css' s3 kept k); [|exact Ha1|exact Hq3| |simpl in Hk; lia]|].
      * etrans; [apply (pf_table _ _ _ P2)|exact Ht].
      * eapply Forall2_impl; [exact Hsc|]. intros q' cs' Hqs'. exact (queued_performed _ _ _ _ _ P2 Hqs').
      * cbv zeta. change (unix_time (glob s3)) with (unix_time (glob s2)). rewrite Ht2.
        intros r' s4 (Hq4 & He4). rewrite decide_False by done. split; [done|].
        rewrite He4. change (effects (acts (glob s3))) with (effects (acts (glob s2))).
        rewrite (pf_effects _ _ _ P2). unfold scene_effects. by rewrite <- !app_assoc.
    + wp_steps. replace (S (length kept)) with (length (kept ++ [q])) by (rewrite length_app; simpl; lia).
      eapply wp_mono; [eapply (IH css' s (kept ++ [q]) k); [exact Ht|exact Ha|by rewrite <- app_assoc|exact Hsc|simpl in Hk; lia]|].
      cbv zeta. fold now. intros r s1 (Hq1 & He1). rewrite decide_True by done.
      split; [by rewrite Hq1, <- app_assoc|done].
Qed.

Lemma sync_call_spec {A} (m : SY A) s Q :
  wp m (sync (glob s)) (fun a y => Q a (with_glob (set_sync y) s)) -> wp (sync_call m) s Q.
Proof. unfold wp, sync_call. by destruct (m (sync (glob s))) as [[a y]|]. Qed.

(** When a queued scene is to be executed. *)
Definition its_turn (now : Z) (q : queue_node) : Prop := iExecDelayed q = 0 \/ iTime q + iExecDelayed q <= now.
#[export] Instance its_turn_dec now q : Decision (its_turn now q).
Proof. unfold its_turn. apply _. Defined.

Lemma due_its_turn now q : due now q = true <-> its_turn now q.
Proof. unfold due, its_turn. rewrite orb_true_iff, Z.eqb_eq, Z.leb_le. lia. Qed.

Lemma due_decide {A} now q (x y : A) : (if due now q then x else y) = if decide (its_turn now q) then x else y.
Proof. pose proof (due_its_turn now q). destruct (due now q), (decide (its_turn now q)); naive_solver. Qed.

End exec.

(** * Two queued scenes, the second one for later

    The first one switches a lamp, waits, pushes two bytes to a device and calls
    a callback; nobody hears of it when it has been executed. *)

Definition demo_queued (id delay : string) (b : positive) : scene_info :=
  SceneInfo id "" 0 "1" delay "" "" 1 NULL (CondLogic 0 NULL NULL) (CondLogic 3 NULL NULL) (Some b).
Definition demo_action (key coding value : string) : action_info := ActionInfo "1" "lamp" key coding value "".
Definition demo_get (key : string) (_ : nat) (_ : unit) : option string := Some (if str_eq key "CbId" then "7" else "x")%string.
Definition demo_acts : act_state := ActState (ActionCb 7 (Some 20%positive) NULL :: replicate 63 (ActionCb 0 NULL NULL)) [] [].
Definition demo_exec : mem :=
  Heap (<[1%positive := OSceneList (SceneList [] NULL 0 NULL)]>
       (<[2%positive := OActions (ActionList [(4%positive, demo_action "Switch" "Original" "1"); (5%positive, demo_action "Sleep" "Original" "20");
            (7%positive, demo_action "PushZigbee" "Base64" "AQI="); (8%positive, demo_action "CallBack" "Original" "{}")] "s1" 0)]>
       (<[3%positive := OActions (ActionList [(6%positive, demo_action "Switch" "Original" "0")] "s2" 0)]> ∅))) 10 []
    (Env [] (Tm 1 9 0) 1000
      [QueueNode 0 990 (demo_queued "s1" "0" 2); QueueNode 60 990 (demo_queued "s2" "60" 3)] [] sync_unused demo_acts).

Definition demo_ctrl (value : string) : effect := Command "Ctrl" [("DeviceId", "lamp"); ("Key", "Switch"); ("Value", value)]%string.

