(* ===== verification/ScenePanel.v ===== *)
(** Panel keys bound to a scene (scene_list.c): a chain of panel nodes per
    scene, and a pointer node per binding in the table, under the key made of
    the panel's device, key and value. *)
From stdpp Require Import gmap strings.
From S2P Require Import Prelude Heap CString HashTable SceneTimer SceneCond SceneSync SceneData PtrHash CondList SceneTruth SceneOps ActionList SceneEvent.

Definition SCENE_BIND_MAX_NUM : nat := 128.
Definition NAME_MAX_LEN : nat := 128.

Definition blank_panel : scene_panel := ScenePanel "" "" "" "".
Definition bind_hash_key (p : scene_panel) : string :=
  hash_key (spDevId p +:+ spKey p +:+ spValue p +:+ PRT_HASH_TYPE_SCENE_BIND).
Definition set_enable (v : string) (n : panel_node) : panel_node :=
  let p := stPanel n in
  PanelNode (ScenePanel (spDevId p) (spKey p) (spValue p) (str_take STATE_MAX_LEN v)) (plNext n) (plPrev n).
Definition set_links (next prev : ptr) (n : panel_node) : panel_node := PanelNode (stPanel n) next prev.
Definition set_panel (p : ptr) (sc : scene_info) : scene_info :=
  SceneInfo (acSceneId sc) (acSceneName sc) (cManualTriggerFlag sc) (acSceneEnable sc)
    (acExecDelayed sc) (acUpdateTime sc) (acNote sc) (ucSceneCondTrue sc) p
    (stOrCond sc) (stAndCond sc) (pstAction sc).
Definition set_panel_ptr (p : ptr) (h : ptr_node) : ptr_node :=
  let i := stCondPtr h in
  PtrNode (PtrInfo (piId i) (pstScene i) (pstCondList i) (pCondSetNode i) (pCondNode i) p) (pnNext h) (pnPrev h).
Definition upd_panel (p : ptr) (f : panel_node -> panel_node) : L unit :=
  n ← load to_panel p; store p (OPanel (f n)).

(** A request of the scene list to the database; none while it initialises. *)
Definition scene_request (this : ptr) (err : Z) : L Z :=
  c ← load to_scenes this;
  if 1 =? slInitFlag c then mret NoErr else
  iRet ← db_request;
  mret (if negb (iRet =? NoErr) then err else NoErr).
Definition scene_bind_db (this : ptr) : L Z := scene_request this SceneAddErr.
Definition scene_bind_set_db (this : ptr) : L Z := scene_request this SceneAddErr.
Definition scene_unbind_db (this : ptr) : L Z := scene_request this SceneDelErr.

(** What a row of the database leaves in an entry of the array. *)
Definition panel_row (r : scene_panel) : scene_panel :=
  ScenePanel (str_take INDEX_MAX_LEN (spDevId r)) (str_take NAME_MAX_LEN (spKey r))
    (str_take 128 (spValue r)) (str_take STATE_MAX_LEN (acEnable r)).

(** The rows of the scene, or the failure of [db_get]; [None]: no memory. *)
Definition scene_bind_get_list_db (rows : option (list scene_panel)) (iInfoMax : nat)
    : L (option (list scene_panel)) :=
  ok ← reserve;
  if negb ok then mret None else
  match rows with
  | None => mret (Some [])
  | Some rows => mret (Some (panel_row <$> take iInfoMax
      (filter (fun r => spDevId r <> "") (take SCENE_BIND_MAX_NUM rows))))
  end.

(** The last node of the chain from [p]. *)
Definition last_panel (p : ptr) : L ptr :=
  k ← fuel;
  loop k (fun p : ptr =>
    n ← load to_panel p;
    mret (if is_null (plNext n) then inr p else inl (plNext n))) p.

(** The new node goes to the end of the scene's chain. *)
Definition append_panel (pstCurrScene pNew : ptr) : L unit :=
  sc ← load to_scene pstCurrScene;
  if is_null (pstPanel sc) then upd_scene pstCurrScene (set_panel pNew) else
  p ← last_panel (pstPanel sc);
  n ← load to_panel p;
  upd_panel pNew (set_links (plNext n) p) ;;
  upd_panel p (set_links pNew (plPrev n)).

(** The node leaves the chain and is freed. *)
Definition remove_panel (pstCurrScene p : ptr) : L unit :=
  n ← load to_panel p;
  (if is_null (plPrev n) then
     upd_scene pstCurrScene (set_panel (plNext n)) ;;
     if is_null (plNext n) then mret tt
     else upd_panel (plNext n) (fun m => set_links (plNext m) NULL m)
   else if is_null (plNext n) then
     upd_panel (plPrev n) (fun m => set_links NULL (plPrev m) m)
   else
     upd_panel (plNext n) (fun m => set_links (plNext m) (plPrev n) m) ;;
     upd_panel (plPrev n) (fun m => set_links (plNext n) (plPrev m) m)) ;;
  free p.

Section panel.
Context (char_signed : bool).

Definition scene_bind (this pstCurrScene : ptr) (pstPanelInfo : option scene_panel) : L Z :=
  match pstPanelInfo with
  | None => mret ParaErr
  | Some info =>
      if is_null this || is_null pstCurrScene then mret ParaErr else
      sc ← load to_scene pstCurrScene;
      let acHashKey := bind_hash_key info in
      pHashValue ← tab_find char_signed this acHashKey (acSceneId sc);
      if negb (is_null pHashValue) then
        i ← handle pHashValue;
        n ← load to_panel (pScenePanelNode i);
        if strn_eq STATE_MAX_LEN (acEnable (stPanel n)) (acEnable info) then mret NoErr else
        upd_panel (pScenePanelNode i) (set_enable (acEnable info)) ;;
        iRet ← scene_bind_set_db this;
        mret (if negb (iRet =? NoErr) then SceneDelErr else NoErr)
      else
        pHashValue ← alloc (OPtrNode ptr_node0);
        if is_null pHashValue then mret HeapReqErr else
        pNew ← alloc (OPanel (PanelNode blank_panel NULL NULL));
        upd_panel pNew (fun n => PanelNode info (plNext n) (plPrev n)) ;;
        append_panel pstCurrScene pNew ;;
        iRet ← scene_bind_db this;
        if negb (iRet =? NoErr) then mret SceneDelErr else
        h ← load to_node pHashValue;
        store pHashValue (OPtrNode (set_panel_ptr pNew (set_owner (acSceneId sc) pstCurrScene h))) ;;
        tab_inst char_signed this acHashKey pHashValue
  end.

Definition scene_unbind (this pstCurrScene : ptr) (pstPanelInfo : option scene_panel) : L Z :=
  match pstPanelInfo with
  | None => mret ParaErr
  | Some info =>
      if is_null this || is_null pstCurrScene then mret ParaErr else
      sc ← load to_scene pstCurrScene;
      let acHashKey := bind_hash_key info in
      pHashValue ← tab_find char_signed this acHashKey (acSceneId sc);
      if is_null pHashValue then mret NotFoundErr else
      i ← handle pHashValue;
      let p := pScenePanelNode i in
      iRet ← scene_unbind_db this;
      if negb (iRet =? NoErr) then mret SceneDelErr else
      remove_panel pstCurrScene p ;;
      r ← tab_del char_signed this acHashKey (acSceneId sc);
      mret (iRet + r)
  end.

(** The first [iDevMaxNum] panels; the whole chain is walked. *)
Definition scene_bind_get_list (this pstCurrScene : ptr) (iDevMaxNum : nat) : L (Z * list scene_panel) :=
  if is_null this || is_null pstCurrScene then mret (ParaErr, []) else
  sc ← load to_scene pstCurrScene;
  k ← fuel;
  xs ← loop k (fun '(p, xs) =>
    if is_null p then mret (inr xs) else
    n ← load to_panel p;
    mret (inl (plNext n, if (length xs <? iDevMaxNum)%nat then xs ++ [stPanel n] else xs))) (pstPanel sc, []);
  mret (NoErr, xs).

(** The scene's pointer to the first panel stays. *)
Definition scene_bind_clear (this pstCurrScene : ptr) (iClearDbFlag : Z) : L Z :=
  if is_null this || is_null pstCurrScene then mret ParaErr else
  sc ← load to_scene pstCurrScene;
  k ← fuel;
  loop k (fun p : ptr =>
    if is_null p then mret (inr tt) else
    n ← load to_panel p;
    sc ← load to_scene pstCurrScene;
    _ ← tab_del char_signed this (bind_hash_key (stPanel n)) (acSceneId sc);
    (if 1 =? iClearDbFlag then _ ← scene_unbind_db this; mret tt else mret tt) ;;
    free p ;;
    mret (inl (plNext n))) (pstPanel sc) ;;
  mret NoErr.

(** ** Synchronising with an array, of which [iCount] entries are in use *)

Definition same_panel (c e : scene_panel) : bool :=
  strn_eq DEV_ID_MAX_LEN (spDevId c) (spDevId e) && strn_eq KEY_MAX_LEN (spKey c) (spKey e) &&
  strn_eq 128 (spValue c) (spValue e).
Fixpoint find_panel (n : nat) (i : Z) (c : scene_panel) (pastPanelInfo : list scene_panel) : L (Z * bool) :=
  match n with
  | O => mret (i, false)
  | S n =>
      e ← arr_get pastPanelInfo i;
      if same_panel c e then mret (i, true) else find_panel n (i + 1) c pastPanelInfo
  end.

Definition panel_sync_node (this pstCurrScene : ptr) (pastPanelInfo : list scene_panel) (iCount : Z) (p : ptr)
    (pacFoundFlag : list Z) : L (list Z) :=
  n ← load to_panel p;
  '(i, iFlag) ← find_panel (Z.to_nat iCount) 0 (stPanel n) pastPanelInfo;
  if (iFlag : bool) then arr_set pacFoundFlag i 1
  else
    e ← arr_get pastPanelInfo i;
    _ ← scene_unbind this pstCurrScene (Some e);
    mret pacFoundFlag.

Definition scene_bind_sync (this pstCurrScene : ptr) (pastPanelInfo : list scene_panel) (iCount : Z) : L Z :=
  if is_null this || is_null pstCurrScene then mret ParaErr else
  if iCount <? 0 then mret ParaErr else
  sc ← load to_scene pstCurrScene;
  let bind i := e ← arr_get pastPanelInfo i; _ ← scene_bind this pstCurrScene (Some e); mret tt in
  if is_null (pstPanel sc) then
    for_up (Z.to_nat iCount) 0 (fun i _ => bind i) tt ;;
    mret NoErr
  else if 0 =? iCount then _ ← scene_bind_clear this pstCurrScene 1; mret NoErr
  else
    ok ← reserve;
    if negb ok then mret HeapReqErr else
    k ← fuel;
    flags ← loop k (fun '(p, flags) =>
      if is_null p then mret (inr flags) else
      flags ← panel_sync_node this pstCurrScene pastPanelInfo iCount p flags;
      n ← load to_panel p;
      mret (inl (plNext n, flags))) (pstPanel sc, replicate (Z.to_nat iCount) 0);
    for_up (Z.to_nat iCount) 0 (fun i _ =>
      f ← arr_get flags i;
      if 0 =? f then bind i else mret tt) tt ;;
    mret NoErr.

(** Without memory for the rows, [iCount] keeps the size of the array. *)
Definition scene_bind_init (this pstCurrScene : ptr) (rows : option (list scene_panel)) : L Z :=
  if is_null this || is_null pstCurrScene then mret ParaErr else
  ok ← reserve;
  if negb ok then mret HeapReqErr else
  r ← scene_bind_get_list_db rows SCENE_BIND_MAX_NUM;
  let '(xs, iCount) := match r with Some xs => (xs, length xs) | None => ([], SCENE_BIND_MAX_NUM) end in
  scene_bind_sync this pstCurrScene (xs ++ replicate (SCENE_BIND_MAX_NUM - length xs) blank_panel) (Z.of_nat iCount).
End panel.
