(* ===== verification/SceneList.v ===== *)
(** The scene list itself (scene_list.c): adding, changing, removing and
    finding scenes, their actions, the load from the database, construction
    and destruction of the engine. *)
From stdpp Require Import gmap strings.
From S2P Require Import Prelude Heap CString HashTable SceneTimer SceneCond SceneSync SceneData PtrHash ActionList CondList SceneTruth SceneRefine SceneOps SceneEvent ScenePanel.

Definition SCENE_MAX_NUM : nat := 256.
Definition DELAYED_MAX_LEN : nat := 16.
Definition TIME_MAX_LEN : nat := 64.
Definition NOTE_MAX_LEN : nat := 128.

(** * Fields *)

Definition set_lists (ors ands : cond_logic) (sc : scene_info) : scene_info :=
  SceneInfo (acSceneId sc) (acSceneName sc) (cManualTriggerFlag sc) (acSceneEnable sc)
    (acExecDelayed sc) (acUpdateTime sc) (acNote sc) (ucSceneCondTrue sc) (pstPanel sc) ors ands (pstAction sc).
Definition set_list_ptr (x t : bool) (p : ptr) (sc : scene_info) : scene_info :=
  let up c := if t then CondLogic (ucCondListTrue c) p (pstEventCondList c)
              else CondLogic (ucCondListTrue c) (pstTimeCondList c) p in
  if x then set_lists (stOrCond sc) (up (stAndCond sc)) sc else set_lists (up (stOrCond sc)) (stAndCond sc) sc.
Definition set_action (p : ptr) (sc : scene_info) : scene_info :=
  SceneInfo (acSceneId sc) (acSceneName sc) (cManualTriggerFlag sc) (acSceneEnable sc)
    (acExecDelayed sc) (acUpdateTime sc) (acNote sc) (ucSceneCondTrue sc) (pstPanel sc)
    (stOrCond sc) (stAndCond sc) p.
(** [strncpy] of the fields that a scene has in the database, by the lengths of
    their arrays, so that a text that fills its array has no end; the name of the
    caller's [scene_info_t] is [i]. *)
Definition set_texts (i sc : scene_info) : scene_info :=
  SceneInfo (acSceneId sc) (str_take NAME_MAX_LEN (acSceneName i)) (cManualTriggerFlag sc)
    (str_take STATE_MAX_LEN (acSceneEnable i)) (str_take DELAYED_MAX_LEN (acExecDelayed i))
    (str_take TIME_MAX_LEN (acUpdateTime i)) (str_take NOTE_MAX_LEN (acNote i))
    (ucSceneCondTrue sc) (pstPanel sc) (stOrCond sc) (stAndCond sc) (pstAction sc).
Definition zero_scene (id : string) : scene_info :=
  SceneInfo (str_take INDEX_MAX_LEN id) "" 0 "" "" "" "" 0 NULL (CondLogic 0 NULL NULL) (CondLogic 0 NULL NULL) NULL.

Definition set_scenes (l : list positive) (c : scene_list) : scene_list :=
  SceneList l (pHashTable c) (slInitFlag c) (pSceneReportHandler c).
Definition set_sl_flag (f : Z) (c : scene_list) : scene_list :=
  SceneList (scenes c) (pHashTable c) f (pSceneReportHandler c).
Definition upd_scenes (this : ptr) (f : scene_list -> scene_list) : L unit :=
  c ← load to_scenes this; store this (OSceneList (f c)).

(** * The database *)

Definition scene_list_add_db (this : ptr) : L Z := scene_request this SceneAddErr.
Definition scene_list_del_db (this : ptr) : L Z := scene_request this SceneDelErr.
Definition scene_list_set_db (this : ptr) : L Z := scene_request this SceneAddErr.

(** The four tables are created where they do not exist yet; only the failure
    of the last one counts. *)
Definition scene_list_table_db (this : ptr) (exist : bool * bool * bool * bool) : L Z :=
  if is_null this then mret ParaErr else
  ok ← reserve;
  if negb ok then mret (-1) else
  let create (e : bool) : L Z := if e then mret NoErr else db_request in
  let '(scene, cond, action, bind) := exist in
  _ ← create scene; _ ← create cond; _ ← create action;
  iRet ← create bind;
  mret (if negb (iRet =? NoErr) then SceneAddErr else NoErr).

Definition scene_row (r : scene_info) : scene_info := set_texts r (zero_scene (acSceneId r)).
(** The rows of the table, or the failure of [db_get]; [None]: no memory. *)
Definition scene_list_get_list_db (rows : option (list scene_info)) (iInfoMax : nat)
    : L (option (list scene_info)) :=
  ok ← reserve;
  if negb ok then mret None else
  match rows with
  | None => mret (Some [])
  | Some rows => mret (Some (scene_row <$> take iInfoMax
      (filter (fun r => acSceneId r <> "") (take SCENE_MAX_NUM rows))))
  end.

(** * Finding a scene *)

(** [scene_compare(...) == 0] *)
Definition scene_compare (p1 p2 : scene_info) : bool := strn_eq INDEX_MAX_LEN (acSceneId p1) (acSceneId p2).

(** The node made for the search is freed after it; without memory for it
    nothing is found. *)
Fixpoint find_scene (k : scene_info) (xs : list positive) : L ptr :=
  match xs with
  | [] => mret NULL
  | a :: xs =>
      sc ← load to_scene (Some a);
      if scene_compare sc k then mret (Some a) else find_scene k xs
  end.
Definition search_scene (this : ptr) (k : scene_info) : L ptr :=
  ok ← reserve;
  if negb ok then mret NULL else
  c ← load to_scenes this;
  find_scene k (scenes c).

Definition scene_list_get (this : ptr) (pcSeneId : option string) : L ptr :=
  match pcSeneId with
  | None => mret NULL
  | Some id => if is_null this then mret NULL else search_scene this (zero_scene id)
  end.

(** The first [iDevMaxNum] scenes, copied. *)
Definition scene_list_get_list (this : ptr) (iDevMaxNum : nat) : L (Z * list scene_info) :=
  if is_null this then mret (ParaErr, []) else
  c ← load to_scenes this;
  xs ← (fix walk (n : nat) (l : list positive) : L (list scene_info) :=
    match n, l with
    | S n, a :: l => sc ← load to_scene (Some a); xs ← walk n l; mret (sc :: xs)
    | _, _ => mret []
    end) iDevMaxNum (scenes c);
  mret (NoErr, xs).

Definition scene_list_set (this : ptr) (pstInfo : option scene_info) : L Z :=
  match pstInfo with
  | None => mret ParaErr
  | Some i =>
      if is_null this then mret ParaErr else
      pNode ← search_scene this (set_texts i (zero_scene (acSceneId i)));
      if is_null pNode then mret NotFoundErr else
      upd_scene pNode (set_texts i) ;;
      iRet ← scene_list_set_db this;
      mret (if negb (iRet =? NoErr) then SceneSetErr else NoErr)
  end.

(** * Actions of a scene *)

Definition via_action (p : ptr) {A} (m : L A) : L A := _ ← ActionList.this_ p; m.

Definition scene_action_add (this pstCurrScene : ptr) (pstActionInfo : option action_info) : L Z :=
  if is_null this || is_null pstCurrScene || negb (bool_decide (is_Some pstActionInfo)) then mret ParaErr else
  sc ← load to_scene pstCurrScene;
  via_action (pstAction sc) (action_list_add (pstAction sc) pstActionInfo).
Definition scene_action_del (this pstCurrScene : ptr) (pstActionInfo : option action_info) : L Z :=
  if is_null this || is_null pstCurrScene || negb (bool_decide (is_Some pstActionInfo)) then mret ParaErr else
  sc ← load to_scene pstCurrScene;
  via_action (pstAction sc) (action_list_del (pstAction sc) pstActionInfo).
Definition scene_action_get_list (this pstCurrScene : ptr) (iMax : Z) : L (Z * list action_info) :=
  if is_null this || is_null pstCurrScene then mret (ParaErr, []) else
  sc ← load to_scene pstCurrScene;
  via_action (pstAction sc) (action_list_get_list (pstAction sc) iMax).
(** A request for each action, if asked for; the rows' failures do not count. *)
Definition scene_action_clear (this pstCurrScene : ptr) (iClearDbFlag : Z) : L Z :=
  if is_null this then mret ParaErr else
  sc ← load to_scene pstCurrScene;
  l ← ActionList.this_ (pstAction sc);
  (if 1 =? iClearDbFlag
   then each (fun _ => _ ← action_list_del_db (pstAction sc); mret tt) (actions l) else mret tt) ;;
  l ← ActionList.this_ (pstAction sc);
  ActionList.set_this (pstAction sc) (ActionList.set_actions [] l) ;;
  mret NoErr.

(** * Adding a scene

    The node, its four condition lists and its action list; what exists is
    destroyed when one of them cannot be made.  After the last condition list
    the code looks at the list before it.  The new scene is the first of the
    list ([inst_head] fails for NULL only). *)
Definition new_list_at (pNewNode : ptr) (x t : bool) (id : string) : L ptr :=
  p ← new_cond_list (str_take INDEX_MAX_LEN id) (if x then LOGIC_AND else LOGIC_OR)
        (if t then COND_TIME else COND_EVENT);
  upd_scene pNewNode (set_list_ptr x t p) ;;
  mret p.

(** The condition lists made before the failure, in order, then the node. *)
Definition undo_add (pNewNode : ptr) (made : list (bool * bool)) : L ptr :=
  each (fun '(x, t) =>
    sc ← load to_scene pNewNode; _ ← destroy_cond_list (list_ptr sc x t); mret tt) made ;;
  free pNewNode ;;
  mret NULL.

Definition scene_list_add (this : ptr) (pstInfo : option scene_info) : L ptr :=
  match pstInfo with
  | None => mret NULL
  | Some i =>
      if is_null this then mret NULL else
      let id := acSceneId i in
      pNewNode ← alloc (OScene (set_texts i (zero_scene id)));
      p ← new_list_at pNewNode false true id;
      if is_null p then undo_add pNewNode [] else
      p ← new_list_at pNewNode false false id;
      if is_null p then undo_add pNewNode [(false, true)] else
      p ← new_list_at pNewNode true true id;
      if is_null p then undo_add pNewNode [(false, true); (false, false)] else
      _ ← new_list_at pNewNode true false id;
      sc ← load to_scene pNewNode;
      if is_null (list_ptr sc true true) then undo_add pNewNode [(false, true); (false, false); (true, true)] else
      p ← new_action_list id;
      upd_scene pNewNode (set_action p) ;;
      if is_null p then undo_add pNewNode [(false, true); (false, false); (true, true); (true, false)] else
      upd_scenes this (fun c => set_scenes (default 1%positive pNewNode :: scenes c) c) ;;
      upd_scene pNewNode (set_list_bits false (fun _ => 0)) ;;
      upd_scene pNewNode (set_list_bits true (fun _ => 3)) ;;
      iRet ← scene_list_add_db this;
      mret (if negb (iRet =? NoErr) then NULL else pNewNode)
  end.

Section list.
Context (char_signed : bool).

(** * Removing scenes *)

(** A list of the scene is cleared and destroyed. *)
Definition drop_list (this p : ptr) (x t : bool) (clear : ptr -> ptr -> Z -> L Z) : L unit :=
  _ ← clear this p 1;
  sc ← load to_scene p;
  _ ← destroy_cond_list (list_ptr sc x t);
  mret tt.

Definition drop_actions (this p : ptr) : L unit :=
  _ ← scene_action_clear this p 1;
  sc ← load to_scene p;
  _ ← destroy_action_list (pstAction sc);
  mret tt.

(** Everything a scene owns: conditions, actions, bindings. *)
Definition clear_scene (this p : ptr) : L unit :=
  drop_list this p false true (scene_time_or_cond_clear char_signed) ;;
  drop_list this p false false (scene_event_or_cond_clear char_signed) ;;
  drop_list this p true true (scene_time_and_cond_clear char_signed) ;;
  drop_list this p true false (scene_event_and_cond_clear char_signed) ;;
  drop_actions this p ;;
  _ ← scene_bind_clear char_signed this p 1;
  mret tt.

Definition remove_scene (a : positive) (l : list positive) : list positive := filter (fun b => b <> a) l.

Definition scene_list_del (this : ptr) (pcSceneId : option string) : L Z :=
  match pcSceneId with
  | None => mret ParaErr
  | Some id =>
      if is_null this then mret ParaErr else
      pstDelNode ← search_scene this (zero_scene id);
      match pstDelNode with
      | None => mret NotFoundErr
      | Some a =>
          clear_scene this (Some a) ;;
          upd_scenes this (fun c => set_scenes (remove_scene a (scenes c)) c) ;;
          free (Some a) ;;
          iRet ← scene_list_del_db this;
          mret (if negb (iRet =? NoErr) then SceneDelErr else NoErr)
      end
  end.

(** The nodes are freed when all scenes are cleared. *)
Definition scene_list_clear (this : ptr) (iClearDbFlag : Z) : L Z :=
  if is_null this then mret ParaErr else
  c ← load to_scenes this;
  each (fun a =>
    clear_scene this (Some a) ;;
    if 1 =? iClearDbFlag then _ ← scene_list_del_db this; mret tt else mret tt) (scenes c) ;;
  upd_scenes this (set_scenes []) ;;
  each (fun a => free (Some a)) (scenes c) ;;
  mret NoErr.

(** A device leaves: its conditions, actions and panels do, in every scene.
    The allocation of the panels' array is not checked, and it is not freed. *)
Definition of_device (pDevId dev : string) : bool := strn_eq DEV_ID_MAX_LEN dev pDevId.
Definition unregister_scene (this p : ptr) (pDevId : string) (panels : bool) : L unit :=
  let conds (get : ptr -> ptr -> Z -> L (Z * list cond)) (del : ptr -> ptr -> option event_cond -> L Z) : L unit :=
    '(_, cs) ← get this p (Z.of_nat COND_MAX_NUM);
    each (fun c =>
      e ← as_event c;
      if of_device pDevId (ecDevId e) then _ ← del this p (Some e); mret tt else mret tt) cs in
  conds scene_event_or_cond_get_list (scene_event_or_cond_del char_signed) ;;
  conds scene_event_and_cond_get_list (scene_event_and_cond_del char_signed) ;;
  sc ← load to_scene p;
  let pstCurrAction := pstAction sc in
  '(_, xs) ← via_action pstCurrAction (action_list_get_list pstCurrAction (Z.of_nat ACTION_MAX_NUM));
  each (fun i => if of_device pDevId (atDevId i)
                 then _ ← action_list_del pstCurrAction (Some i); mret tt else mret tt) xs ;;
  if negb panels then fail NullDeref else
  '(_, xs) ← scene_bind_get_list this p SCENE_BIND_MAX_NUM;
  each (fun i => if of_device pDevId (spDevId i)
                 then _ ← scene_unbind char_signed this p (Some i); mret tt else mret tt) xs.

Definition scene_list_dev_unregister (this : ptr) (pDevId : string) : L Z :=
  if is_null this then mret ParaErr else
  ok1 ← reserve;
  if negb ok1 then mret HeapReqErr else
  ok2 ← reserve;
  if negb ok2 then mret HeapReqErr else
  ok3 ← reserve;
  c ← load to_scenes this;
  each (fun a => unregister_scene this (Some a) pDevId ok3) (scenes c) ;;
  mret NoErr.

(** * Synchronising with an array, of which [iCount] entries are in use *)

Fixpoint find_info (n : nat) (i : Z) (c : scene_info) (pastInfo : list scene_info) : L (Z * bool) :=
  match n with
  | O => mret (i, false)
  | S n =>
      e ← arr_get pastInfo i;
      if scene_compare c e then mret (i, true) else find_info n (i + 1) c pastInfo
  end.
Definition scene_differs (c e : scene_info) : bool :=
  negb (strn_eq NAME_MAX_LEN (acSceneName c) (acSceneName e) && strn_eq STATE_MAX_LEN (acSceneEnable c) (acSceneEnable e) &&
        strn_eq DELAYED_MAX_LEN (acExecDelayed c) (acExecDelayed e) &&
        strn_eq TIME_MAX_LEN (acUpdateTime c) (acUpdateTime e) && strn_eq NOTE_MAX_LEN (acNote c) (acNote e)).
(** The note is copied with [NOT_WITHIN] as the length, 0 in sqlite3.h. *)
Definition set_changed (e sc : scene_info) : scene_info :=
  let s := set_texts e sc in
  SceneInfo (acSceneId s) (acSceneName s) (cManualTriggerFlag s) (acSceneEnable s) (acExecDelayed s)
    (acUpdateTime s) (acNote sc) (ucSceneCondTrue s) (pstPanel s) (stOrCond s) (stAndCond s) (pstAction s).

Definition scene_sync_node (this : ptr) (pastInfo : list scene_info) (iCount : Z) (pstNode : ptr)
    (pacFoundFlag : list Z) : L (list Z) :=
  c ← load to_scene pstNode;
  '(i, iFlag) ← find_info (Z.to_nat iCount) 0 c pastInfo;
  e ← arr_get pastInfo i;
  if (iFlag : bool) then
    (if scene_differs c e then
       upd_scene pstNode (set_changed e) ;;
       _ ← scene_list_set this (Some e); mret tt
     else mret tt) ;;
    arr_set pacFoundFlag i 1
  else
    _ ← scene_list_del this (Some (acSceneId e));
    mret pacFoundFlag.

(** [next] of a node, which must still be one. *)
Fixpoint node_after (a : positive) (l : list positive) : option ptr :=
  match l with
  | [] => None
  | b :: l => if decide (b = a) then Some (head l) else node_after a l
  end.
Definition scene_next (this p : ptr) : L ptr :=
  c ← load to_scenes this;
  match p with None => fail NullDeref | Some a => get_or Dangling (node_after a (scenes c)) end.

Definition scene_list_sync (this : ptr) (pastInfo : list scene_info) (iCount : Z) : L Z :=
  if is_null this then mret ParaErr else
  if iCount <? 0 then mret ParaErr else
  c ← load to_scenes this;
  let add i := e ← arr_get pastInfo i; _ ← scene_list_add this (Some e); mret tt in
  match scenes c with
  | [] => for_up (Z.to_nat iCount) 0 (fun i _ => add i) tt ;; mret NoErr
  | a :: _ =>
      if 0 =? iCount then _ ← scene_list_clear this 1; mret NoErr else
      ok ← reserve;
      if negb ok then mret HeapReqErr else
      flags ← loop (S (length (scenes c))) (fun '(p, flags) =>
        if is_null p then mret (inr flags) else
        flags ← scene_sync_node this pastInfo iCount p flags;
        p ← scene_next this p;
        mret (inl (p, flags))) (Some a, replicate (Z.to_nat iCount) 0);
      for_up (Z.to_nat iCount) 0 (fun i _ =>
        f ← arr_get flags i;
        if 0 =? f then add i else mret tt) tt ;;
      mret NoErr
  end.

(** * The load from the database

    [rows id]: what the tables hold for the scene [id]. *)
Record scene_rows : Type := SceneRows {
  or_time_rows : list time_cond;
  or_event_rows : list event_cond;
  and_time_rows : list time_cond;
  and_event_rows : list event_cond;
  action_rows : option (list action_info);
  panel_rows : option (list scene_panel)
}.

Definition init_scene (this p : ptr) (rows : string -> scene_rows) : L unit :=
  sc ← load to_scene p;
  let r := rows (acSceneId sc) in
  _ ← scene_time_or_cond_init char_signed this p (or_time_rows r);
  _ ← scene_event_or_cond_init char_signed this p (or_event_rows r);
  _ ← scene_time_and_cond_init char_signed this p (and_time_rows r);
  _ ← scene_event_and_cond_init char_signed this p (and_event_rows r);
  sc ← load to_scene p;
  _ ← via_action (pstAction sc) (action_list_init (pstAction sc) (action_rows r));
  _ ← scene_bind_init char_signed this p (panel_rows r);
  mret tt.

(** The array's entries after the first [iCount] are zeroed. *)
Definition scene_list_init (this : ptr) (exist : bool * bool * bool * bool)
    (scene_table : option (list scene_info)) (rows : string -> scene_rows) : L Z :=
  if is_null this then mret ParaErr else
  upd_scenes this (set_sl_flag 1) ;;
  _ ← scene_list_table_db this exist;
  ok ← reserve;
  iRet ← (if negb ok then mret HeapReqErr else
    r ← scene_list_get_list_db scene_table SCENE_MAX_NUM;
    let '(xs, iCount) := match r with Some xs => (xs, length xs) | None => ([], SCENE_MAX_NUM) end in
    iRet ← scene_list_sync this (xs ++ replicate (SCENE_MAX_NUM - length xs) (zero_scene "")) (Z.of_nat iCount);
    if negb (iRet =? NoErr) then mret iRet else
    c ← load to_scenes this;
    each (fun a => init_scene this (Some a) rows) (scenes c) ;;
    mret iRet);
  upd_scenes this (set_sl_flag 0) ;;
  mret iRet.

(** * The engine

    [new_link_list] allocates the parent object, which is freed, and the
    sentinel, which the paths of failure leave; the mutex, the thread pool and
    the threads are not objects of the model: [threads] says which of the two
    are started. *)
Definition new_scene_list (threads : bool * bool) : L ptr :=
  pNew ← alloc (OSceneList (SceneList [] NULL 0 NULL));
  if is_null pNew then mret NULL else
  let fail_ : L ptr := free pNew ;; mret NULL in
  ok1 ← reserve;
  if negb ok1 then fail_ else
  ok2 ← reserve;
  if negb ok2 then fail_ else
  mutex ← reserve;
  if negb mutex then fail_ else
  pHash ← new_ptr_hash_table;
  upd_scenes pNew (fun c => SceneList (scenes c) pHash (slInitFlag c) (pSceneReportHandler c)) ;;
  if is_null pHash then fail_ else
  let drop_hash : L ptr := _ ← destroy_ptr_hash_table pHash; fail_ in
  ok3 ← reserve;
  if negb ok3 then drop_hash else
  ok4 ← reserve;
  if negb ok4 then drop_hash else
  setg (fun g => set_timers [] (set_queue [] g)) ;;
  if negb (threads.1 && threads.2) then drop_hash else
  mret pNew.

(** The table goes before the scenes that are registered in it. *)
Definition destroy_scene_list (this : ptr) : L Z :=
  if is_null this then mret ParaErr else
  c ← load to_scenes this;
  _ ← destroy_ptr_hash_table (pHashTable c);
  setg (fun g => set_timers [] (set_queue [] g)) ;;
  c ← load to_scenes this;
  (if truth (Z.of_nat (length (scenes c))) then _ ← scene_list_clear this 0; mret tt else mret tt) ;;
  free this ;;
  mret 0.
End list.
