(* ===== verification/SceneRemove.v ===== *)
(** What the removal of a scene leaves: nothing of the scene, and everything
    else as it was. *)
From stdpp Require Import gmap strings.
From S2P Require Import Prelude Heap CString HashTable SceneTimer SceneCond SceneSync SceneData PtrHash PtrRefine PtrProps ActionList CondList CondRefine SceneTruth SceneRefine SceneFire SceneOps SceneEvent OpsRefine OpsProps DelProps ScenePanel SceneList.

(** The table without a handle of the scene [id] under each of the keys. *)
Definition del_keys (id : string) (keys : list string) (m : string -> list pnode) : string -> list pnode :=
  foldl (fun m key => upd_key m key (del_id id (m key))) m keys.

Lemma del_keys_app id k1 k2 m : del_keys id (k1 ++ k2) m = del_keys id k2 (del_keys id k1 m).
Proof. apply foldl_app. Qed.

(** [clear_walk] and [each] over mapped lists. *)
Lemma fmap_snoc {A B} (f : A -> B) xs x : f <$> (xs ++ [x]) = (f <$> xs) ++ [f x].
Proof. by rewrite fmap_app. Qed.

Section remove.
Context (char_signed : bool) (this tbl : positive).

Definition tabled (s : mem) (m : string -> list pnode) : Prop :=
  exists n, n < 2 ^ 31 /\ table_at char_signed s this tbl m n.

(** From [s] to [s']: the table goes from [m] to [m'], requests to the database
    are made, and the objects that are not the table's stay, except [ex]. *)
Record swept (s s' : mem) (m m' : string -> list pnode) (ex : list positive) : Prop := {
  sp_table : tabled s' m';
  sp_keeps : forall c o, c <> tbl -> c ∉ ex -> to_node o = None -> cells s !! c = Some o -> cells s' !! c = Some o;
  sp_none : forall c, cells s !! c = None -> cells s' !! c = None;
  sp_oom : oom s' ⊆ oom s;
  sp_glob : exists k, glob s' = set_db (drop k (db_results (glob s))) (glob s)
}.

Lemma set_db_same g : set_db (drop 0 (db_results g)) g = g.
Proof. by destruct g. Qed.

Lemma swept_refl s m : tabled s m -> swept s s m m [].
Proof. intros T. split; [done|done|done|done|]. exists 0%nat. by rewrite set_db_same. Qed.

Lemma swept_trans s1 s2 s3 m1 m2 m3 ex1 ex2 :
  swept s1 s2 m1 m2 ex1 -> swept s2 s3 m2 m3 ex2 -> swept s1 s3 m1 m3 (ex1 ++ ex2).
Proof.
  intros [T1 K1 N1 O1 [k1 G1]] [T2 K2 N2 O2 [k2 G2]]. split; [done| |by eauto|by etrans|].
  - intros c o Ht He Hn Hc. rewrite not_elem_of_app in He. apply K2; [done|tauto|done|]. by apply K1; [|tauto| |].
  - exists (k1 + k2)%nat. rewrite G2, G1. cbn [set_db db_results]. by rewrite drop_drop.
Qed.

Lemma swept_more s s' m m' ex ex' : swept s s' m m' ex -> ex ⊆ ex' -> swept s s' m m' ex'.
Proof. intros [T K N O G] He. split; [done| |done|done|done]. intros c o Ht Hc. apply K; [done|]. set_solver. Qed.

Lemma swept_trans_nil s1 s2 s3 m1 m2 m3 ex :
  swept s1 s2 m1 m2 ex -> swept s2 s3 m2 m3 [] -> swept s1 s3 m1 m3 ex.
Proof. intros S1 S2. eapply swept_more; [by eapply swept_trans|]. by rewrite app_nil_r. Qed.

(** An object of a scene that is kept. *)
Lemma swept_obj s s' m m' ex c o :
  swept s s' m m' ex -> tabled s m -> cells s !! c = Some o -> scene_obj o -> c ∉ ex -> cells s' !! c = Some o.
Proof.
  intros S (n & _ & T) Hc Ho He. apply S; [|done|by destruct o|done]. intros ->.
  destruct (table_hash _ _ _ _ _ _ T) as [h Hh]. rewrite Hh in Hc. by injection Hc as <-.
Qed.

Lemma tabled_scenes s m : tabled s m -> exists c, cells s !! this = Some (OSceneList c) /\ pHashTable c = Some tbl.
Proof. intros (n & _ & [H _ _]). exact H. Qed.

(** A scene object is replaced, or freed. *)
Lemma swept_upd s m c o o' :
  tabled s m -> cells s !! c = Some o -> scene_obj o -> swept s (upd c o' s) m m [c].
Proof.
  intros (n & Hn & T) Hc Ho. split.
  - exists n. split; [done|]. by eapply table_upd.
  - intros b ob Ht Hb _ Hcb. cbn. rewrite lookup_insert_ne; [done|]. set_solver.
  - intros b Hb. cbn. rewrite lookup_insert_ne; [done|]. congruence.
  - done.
  - exists 0%nat. by rewrite set_db_same.
Qed.

Lemma swept_del s m c o :
  tabled s m -> cells s !! c = Some o -> scene_obj o -> swept s (del c s) m m [c].
Proof.
  intros (n & Hn & T) Hc Ho. split.
  - exists n. split; [done|]. eapply table_frame; [exact T| |].
    + intros b Hb. cbn. destruct (decide (b = c)) as [->|Hne]; [apply lookup_delete_eq|].
      rewrite lookup_delete_ne by done. by apply (ta_wf _ _ _ _ _ _ T).
    + intros b ob Hb Hnb. cbn. rewrite lookup_delete_ne; [done|]. intros ->. congruence.
  - intros b ob Ht Hb _ Hcb. cbn. rewrite lookup_delete_ne; [done|]. set_solver.
  - intros b Hb. cbn. destruct (decide (b = c)) as [->|Hne]; [apply lookup_delete_eq|]. by rewrite lookup_delete_ne.
  - done.
  - exists 0%nat. by rewrite set_db_same.
Qed.

Lemma tab_del_swept s m key id :
  tabled s m ->
  wp (tab_del char_signed (Some this) key id) s (fun _ s' => swept s s' m (del_keys id [key] m) []).
Proof.
  intros (n & Hn & T). unfold tab_del. wp_step. eapply wp_the_table; [exact T|].
  eapply wp_mono; [eapply ptr_hash_del_spec; [apply T|exact Hn|apply T]|].
  intros r s' (-> & Hwf & (G & O & F) & (_ & N) & n' & Hn' & Hr).
  destruct (table_hash _ _ _ _ _ _ T) as [h Hh]. split.
  - exists n'. split; [lia|]. split; [|done|done]. destruct T as [(c & Hc & Hp) _ _]. exists c. split; [|done].
    apply F; [|exact Hc|done]. intros ->. congruence.
  - intros c o Hc _ Ho Hcell. by apply F.
  - done.
  - done.
  - exists 0%nat. rewrite G. by rewrite set_db_same.
Qed.

(** ** Requests *)

Lemma swept_drop_db s m : tabled s m -> swept s (with_glob drop_db s) m m [].
Proof.
  intros (n & Hn & T). split; [|done|done|done|].
  - exists n. split; [done|]. by apply table_glob.
  - exists 1%nat. cbn [glob with_glob]. unfold drop_db. by destruct (db_results (glob s)) as [|? []].
Qed.

Lemma wp_db_request s (Q : Z -> mem -> Prop) :
  Q (hd NoErr (db_results (glob s))) (with_glob drop_db s) -> wp db_request s Q.
Proof. done. Qed.

Lemma cond_request_swept s m b l err :
  tabled s m -> cells s !! b = Some (OList l) ->
  wp (CondList.request (Some b) err) s (fun _ s' => swept s s' m m []).
Proof.
  intros T Hb. unfold CondList.request. wp_step. eapply wp_clist; [exact Hb|]. destruct (1 =? ucInitFlag l).
  - wp_step. by apply swept_refl.
  - wp_step. apply wp_db_request. destruct (negb _); wp_step; by apply swept_drop_db.
Qed.

Lemma action_request_swept s m b l err :
  tabled s m -> cells s !! b = Some (OActions l) ->
  wp (ActionList.request (Some b) err) s (fun _ s' => swept s s' m m []).
Proof.
  intros T Hb. unfold ActionList.request, ActionList.this_. wp_step. eapply wp_load; [exact Hb|reflexivity|].
  destruct (1 =? alInitFlag l).
  - wp_step. by apply swept_refl.
  - wp_step. apply wp_db_request. destruct (negb _); wp_step; by apply swept_drop_db.
Qed.

Lemma scene_request_swept s m err :
  tabled s m -> wp (scene_request (Some this) err) s (fun r s' =>
    (r = NoErr \/ r = err) /\ (db_results (glob s) = [] -> r = NoErr) /\ swept s s' m m []).
Proof.
  intros T. destruct (tabled_scenes _ _ T) as (c & Hc & _). unfold scene_request. wp_step.
  eapply wp_load; [exact Hc|reflexivity|]. destruct (1 =? slInitFlag c).
  - wp_step. split_and!; [by left|done|by apply swept_refl].
  - wp_step. apply wp_db_request. wp_step. split_and!; [| |by apply swept_drop_db].
    + destruct (negb _); [by right|by left].
    + by intros ->.
Qed.

(** ** Clearing what a scene owns *)

Lemma wp_key_of_cond t c s (Q : string -> mem -> Prop) :
  kind_is t c -> Q (cond_key c) s -> wp (key_of_cond t c) s Q.
Proof. intros Hk HQ. unfold key_of_cond. destruct t, c; try done; by wp_steps. Qed.

(** A step after others. *)
Lemma swept_step s s1 m0 m m1 ex {A} (p : L A) (Q : A -> mem -> Prop) :
  swept s s1 m0 m ex -> wp p s1 (fun _ s2 => swept s1 s2 m m1 []) ->
  (forall a s2, swept s s2 m0 m1 ex -> Q a s2) -> wp p s1 Q.
Proof.
  intros S Hp HQ. eapply wp_mono; [exact Hp|]. intros a s2 S2. apply HQ. by eapply swept_trans_nil.
Qed.

Lemma clear_walk_swept first t b l id flag cs s m :
  tabled s m -> cells s !! b = Some (OList l) -> Forall (kind_is t) cs ->
  wp (clear_walk char_signed first t (Some this) (Some b) id flag cs) s (fun _ s' =>
    swept s s' m (del_keys id (cond_key <$> cs) m) []).
Proof.
  intros T Hb Hk. unfold clear_walk.
  apply (wp_each (fun xs s' => swept s s' m (del_keys id (cond_key <$> xs) m) [])); [by apply swept_refl| |done].
  intros xs c rest s1 -> S. apply Forall_middle in Hk as [_ Hk]. rewrite fmap_snoc, del_keys_app.
  wp_step. apply wp_key_of_cond; [done|]. cbv zeta. cbn [fmap list_fmap].
  set (db := if 1 =? flag then _ else _).
  assert (Hdb : forall s1 m1, swept s s1 m m1 [] -> wp db s1 (fun _ s2 => swept s1 s2 m1 m1 [])).
  { intros s2 m1 S2. unfold db. destruct (1 =? flag); [|wp_step; by apply swept_refl, S2].
    pose proof (swept_obj _ _ _ _ _ _ _ S2 T Hb I (not_elem_of_nil b)) as Hb2.
    wp_step. unfold via. wp_step. eapply wp_clist; [exact Hb2|].
    eapply wp_mono; [eapply cond_request_swept; [apply S2|exact Hb2]|]. intros r s3 S3. by wp_step. }
  wp_step. eapply (swept_step s s1 _ _ _ _ _ _ S); [destruct first; [by apply Hdb|wp_step; by apply swept_refl, S]|].
  intros [] s2 S2. wp_step. eapply (swept_step s s2 _ _ _ _ _ _ S2); [apply tab_del_swept, S2|].
  intros r s3 S3. eapply (swept_step s s3 _ _ _ _ _ _ S3); [destruct first; [wp_step; by apply swept_refl, S3|by apply Hdb]|].
  done.
Qed.

(** A function that clears the list [x], [t] of a scene. *)
Definition clears (x t : bool) (clear : ptr -> ptr -> Z -> L Z) : Prop := forall s m a sc b l,
  tabled s m -> cells s !! a = Some (OScene sc) -> list_ptr sc x t = Some b -> cells s !! b = Some (OList l) ->
  Forall (kind_is t) (conds_of l) ->
  wp (clear (Some this) (Some a) 1) s (fun _ s' =>
    swept s s' m (del_keys (acSceneId sc) (cond_key <$> conds_of l) m) [b] /\
    exists l', cells s' !! b = Some (OList l')).

Lemma clear_list_swept s s1 m m1 b l :
  swept s s1 m m1 [] -> tabled s m -> cells s !! b = Some (OList l) ->
  wp (clear_list (Some b)) s1 (fun _ s' => swept s s' m m1 [b] /\ exists l', cells s' !! b = Some (OList l')).
Proof.
  intros S T Hb. pose proof (swept_obj _ _ _ _ _ _ _ S T Hb I (not_elem_of_nil b)) as Hb1.
  unfold clear_list, upd_list. wp_step. eapply wp_clist; [exact Hb1|]. eapply wp_set_clist; [exact Hb1|]. split.
  - apply (swept_trans s s1 _ m m1 m1 [] [b] S). eapply swept_upd; [apply S|exact Hb1|exact I].
  - eexists. apply lookup_insert_eq.
Qed.

Lemma scene_cond_clear_clears x t : clears x t (scene_cond_clear char_signed x t).
Proof.
  intros s m a sc b l T Ha Hl Hb Hk. unfold scene_cond_clear. cbn [is_null orb]. wp_step.
  eapply wp_load; [exact Ha|reflexivity|]. rewrite Hl. wp_step. eapply wp_clist; [exact Hb|]. wp_step.
  eapply wp_mono; [by eapply clear_walk_swept|]. intros [] s1 S1. wp_step.
  eapply wp_mono; [eapply clear_list_swept; [exact S1|done|exact Hb]|]. intros [] s2 H. by wp_step.
Qed.

Lemma scene_event_or_cond_clear_clears : clears false false (scene_event_or_cond_clear char_signed).
Proof.
  intros s m a sc b l T Ha Hl Hb Hk. unfold scene_event_or_cond_clear. cbn [is_null orb]. wp_step.
  eapply wp_load; [exact Ha|reflexivity|]. rewrite Hl. wp_step. eapply wp_clist; [exact Hb|]. wp_step.
  eapply wp_mono; [by eapply clear_walk_swept|]. intros [] s1 S1.
  pose proof (swept_obj _ _ _ _ _ _ _ S1 T Hb I (not_elem_of_nil b)) as Hb1.
  wp_step. eapply (swept_step s s1 _ _ _ _ _ _ S1).
  { destruct (_ && _); [|wp_step; by apply swept_refl, S1]. wp_step. unfold via. wp_step.
    eapply wp_clist; [exact Hb1|]. eapply wp_mono; [eapply cond_request_swept; [apply S1|exact Hb1]|].
    intros r s2 S2. by wp_step. }
  intros [] s2 S2. wp_step.
  eapply wp_mono; [eapply clear_list_swept; [exact S2|done|exact Hb]|]. intros [] s3 H. by wp_step.
Qed.

Lemma destroy_cond_list_swept s m b l :
  tabled s m -> cells s !! b = Some (OList l) ->
  wp (destroy_cond_list (Some b)) s (fun _ s' => swept s s' m m [b] /\ cells s' !! b = None).
Proof.
  intros T Hb. unfold destroy_cond_list. cbn [is_null]. wp_step. eapply wp_clist; [exact Hb|]. wp_step.
  destruct (truth _).
  - unfold cond_clear. cbn [is_null]. wp_step. eapply wp_clist; [exact Hb|]. wp_step.
    eapply wp_set_clist; [exact Hb|]. wp_step. wp_step.
    eapply wp_free; [apply lookup_insert_eq|]. wp_step. split; [|apply lookup_delete_eq].
    eapply swept_more; [eapply swept_trans; [eapply swept_upd; [exact T|exact Hb|exact I]|]|].
    + eapply swept_del; [|apply lookup_insert_eq|exact I]. by eapply sp_table, swept_upd.
    + set_solver.
  - wp_step. wp_step. eapply wp_free; [exact Hb|]. wp_step. split; [by eapply swept_del|apply lookup_delete_eq].
Qed.

Lemma drop_list_swept x t clear s m a sc b l :
  clears x t clear -> tabled s m -> cells s !! a = Some (OScene sc) -> list_ptr sc x t = Some b ->
  cells s !! b = Some (OList l) -> Forall (kind_is t) (conds_of l) ->
  wp (drop_list (Some this) (Some a) x t clear) s (fun _ s' =>
    swept s s' m (del_keys (acSceneId sc) (cond_key <$> conds_of l) m) [b] /\ cells s' !! b = None).
Proof.
  intros Hc T Ha Hl Hb Hk. unfold drop_list. wp_step. eapply wp_mono; [by eapply Hc|].
  intros r s1 (S1 & l' & Hb1). assert (a <> b) as Hab by congruence.
  assert (Ha1 : cells s1 !! a = Some (OScene sc)) by (eapply swept_obj; [exact S1|exact T|exact Ha|exact I|set_solver]).
  wp_step. eapply wp_load; [exact Ha1|reflexivity|]. rewrite Hl. wp_step.
  eapply wp_mono; [eapply destroy_cond_list_swept; [apply S1|exact Hb1]|]. intros r' s2 [S2 Hn]. wp_step.
  split; [|done]. eapply swept_more; [by eapply swept_trans|]. set_solver.
Qed.

Lemma scene_action_clear_swept s m a sc b l :
  tabled s m -> cells s !! a = Some (OScene sc) -> pstAction sc = Some b -> cells s !! b = Some (OActions l) ->
  wp (scene_action_clear (Some this) (Some a) 1) s (fun _ s' =>
    swept s s' m m [b] /\ exists l', cells s' !! b = Some (OActions l')).
Proof.
  intros T Ha Hp Hb. unfold scene_action_clear. cbn [is_null]. change (1 =? 1) with true. cbv iota.
  wp_step. eapply wp_load; [exact Ha|reflexivity|]. rewrite Hp. wp_step. unfold ActionList.this_ at 1.
  eapply wp_load; [exact Hb|reflexivity|]. wp_step.
  apply (wp_each (fun _ s' => swept s s' m m [])); [by apply swept_refl| |].
  - intros xs i rest s1 _ S1. wp_step. unfold action_list_del_db.
    pose proof (swept_obj _ _ _ _ _ _ _ S1 T Hb I (not_elem_of_nil b)) as Hb1.
    eapply (swept_step s s1 _ _ _ _ _ _ S1); [eapply action_request_swept; [apply S1|exact Hb1]|].
    intros r s2 S2. by wp_step.
  - intros s1 S1.
    pose proof (swept_obj _ _ _ _ _ _ _ S1 T Hb I (not_elem_of_nil b)) as Hb1.
    wp_step. unfold ActionList.this_. eapply wp_load; [exact Hb1|reflexivity|]. wp_step.
    unfold ActionList.set_this. eapply wp_store; [exact Hb1|]. wp_step. split; [|eexists; apply lookup_insert_eq].
    apply (swept_trans s s1 _ m m m [] [b] S1). eapply swept_upd; [apply S1|exact Hb1|exact I].
Qed.

(** ** Panels *)

(** The panel nodes [ps], linked in both directions, [pv] before the first. *)
Fixpoint pseg (s : mem) (pv : ptr) (ps : list (positive * scene_panel)) : Prop :=
  match ps with
  | [] => True
  | (a, p) :: ps => cells s !! a = Some (OPanel (PanelNode p (fst <$> head ps) pv)) /\ pseg s (Some a) ps
  end.

Lemma pseg_cells s pv ps c : pseg s pv ps -> c ∈ ps.*1 -> exists n, cells s !! c = Some (OPanel n).
Proof.
  revert pv. induction ps as [|[a p] ps IH]; intros pv H Hc; [by apply elem_of_nil in Hc|].
  destruct H as [Ha H]. apply elem_of_cons in Hc as [->|Hc]; [by eexists|by eapply IH].
Qed.
Lemma pseg_frame s s' pv ps :
  (forall c o, c ∈ ps.*1 -> cells s !! c = Some o -> cells s' !! c = Some o) -> pseg s pv ps -> pseg s' pv ps.
Proof.
  revert pv. induction ps as [|[a p] ps IH]; intros pv Hf; [done|]. intros [Ha H]. split.
  - apply Hf; [by left|done].
  - apply IH; [|done]. intros c o Hc. apply Hf. by right.
Qed.

Lemma bind_clear_loop a sc ps : forall s m pv k,
  tabled s m -> cells s !! a = Some (OScene sc) -> pseg s pv ps -> NoDup ps.*1 -> (length ps < k)%nat ->
  wp (loop k (fun p : ptr =>
    if is_null p then mret (inr tt) else
    n ← load to_panel p;
    sc ← load to_scene (Some a);
    _ ← tab_del char_signed (Some this) (bind_hash_key (stPanel n)) (acSceneId sc);
    (if 1 =? 1 then _ ← scene_unbind_db (Some this); mret tt else mret tt) ;;
    free p ;;
    mret (inl (plNext n))) (fst <$> head ps)) s (fun _ s' =>
    swept s s' m (del_keys (acSceneId sc) (bind_hash_key <$> ps.*2) m) ps.*1 /\
    forall c, c ∈ ps.*1 -> cells s' !! c = None).
Proof.
  induction ps as [|[b p] ps IH]; intros s m pv k T Ha Hs Hnd Hk; (destruct k as [|k]; [simpl in Hk; lia|]);
    rewrite loop_S; cbn [head fmap option_fmap option_map fst is_null]; wp_step.
  { wp_step. wp_step. split; [by apply swept_refl|]. intros c Hc. by apply elem_of_nil in Hc. }
  destruct Hs as [Hb Hs]. cbn [fmap list_fmap fst snd] in Hnd. apply NoDup_cons in Hnd as [Hbps Hnd].
  assert (a <> b) as Hab by congruence.
  wp_step. eapply wp_load; [exact Hb|reflexivity|]. wp_step. eapply wp_load; [exact Ha|reflexivity|].
  cbn [stPanel plNext]. wp_step. eapply wp_mono; [by apply tab_del_swept|]. intros r s1 S1.
  change (1 =? 1) with true. cbv iota. wp_step. unfold scene_unbind_db. wp_step.
  eapply wp_mono; [apply scene_request_swept, S1|]. intros r' s2 (_ & _ & S2). wp_step.
  pose proof (swept_trans_nil _ _ _ _ _ _ _ S1 S2) as S02.
  assert (Hb2 : cells s2 !! b = Some (OPanel (PanelNode p (fst <$> head ps) pv)))
    by exact (swept_obj _ _ _ _ _ _ _ S02 T Hb I (not_elem_of_nil b)).
  wp_step. eapply wp_free; [exact Hb2|]. wp_steps.
  pose proof (swept_del s2 _ b _ (sp_table _ _ _ _ _ S2) Hb2 I) as S3.
  pose proof (swept_trans _ _ _ _ _ _ _ _ S02 S3) as S03. cbn [app] in S03.
  eapply wp_mono; [eapply (IH (del b s2) _ (Some b) k)|].
  - apply S3.
  - eapply (swept_obj _ _ _ _ _ _ _ S03 T Ha I). set_solver.
  - eapply pseg_frame; [|exact Hs]. intros c o Hc Hco. destruct (pseg_cells _ _ _ _ Hs Hc) as [n Hn].
    rewrite Hn in Hco. injection Hco as <-. apply (swept_obj _ _ _ _ _ _ _ S03 T Hn I).
    by intros ->%list_elem_of_singleton.
  - done.
  - simpl in Hk. lia.
  - intros [] s4 [S4 Hd]. split.
    + apply (swept_trans _ _ _ _ _ _ _ _ S03 S4).
    + intros c Hc. cbn [fmap list_fmap fst] in Hc. apply elem_of_cons in Hc as [->|Hc]; [|by apply Hd].
      apply (sp_none _ _ _ _ _ S4), lookup_delete_eq.
Qed.

Lemma pseg_length s pv ps : pseg s pv ps -> NoDup ps.*1 -> (length ps <= size (cells s))%nat.
Proof.
  intros Hs Hnd. rewrite <- (length_fmap fst). apply NoDup_size; [done|]. intros c Hc.
  destruct (pseg_cells _ _ _ _ Hs Hc) as [n Hn]. by eexists.
Qed.

Lemma scene_bind_clear_swept s m a sc ps :
  tabled s m -> cells s !! a = Some (OScene sc) -> pstPanel sc = fst <$> head ps -> pseg s NULL ps -> NoDup ps.*1 ->
  wp (scene_bind_clear char_signed (Some this) (Some a) 1) s (fun _ s' =>
    swept s s' m (del_keys (acSceneId sc) (bind_hash_key <$> ps.*2) m) ps.*1 /\
    forall c, c ∈ ps.*1 -> cells s' !! c = None).
Proof.
  intros T Ha Hp Hs Hnd. unfold scene_bind_clear. cbn [is_null orb]. wp_step. eapply wp_load; [exact Ha|reflexivity|].
  wp_step. unfold fuel. wp_step. wp_step. rewrite Hp. pose proof (pseg_length _ _ _ Hs Hnd).
  eapply wp_mono; [eapply bind_clear_loop; [done|exact Ha|exact Hs|done|lia]|]. intros [] s' H'. by wp_step.
Qed.

(** ** A scene with all it owns *)

Record owned (s : mem) (a : positive) (sc : scene_info) (Ls : lists) (b : positive) (ps : list (positive * scene_panel)) : Prop := {
  ow_scene : scene_at s a sc Ls;
  ow_kinds : forall x t, Forall (kind_is t) (conds_of (Ls x t));
  ow_action : pstAction sc = Some b /\ exists l, cells s !! b = Some (OActions l);
  ow_first : pstPanel sc = fst <$> head ps;
  ow_panels : pseg s NULL ps;
  ow_nodup : NoDup ps.*1
}.

(** Its parts, and the keys of their handles. *)
Definition list_ptrs (sc : scene_info) : list positive :=
  option_list (list_ptr sc false true) ++ option_list (list_ptr sc false false) ++
  option_list (list_ptr sc true true) ++ option_list (list_ptr sc true false).
Definition parts (sc : scene_info) (ps : list (positive * scene_panel)) : list positive :=
  list_ptrs sc ++ option_list (pstAction sc) ++ ps.*1.
Definition scene_keys (Ls : lists) (ps : list (positive * scene_panel)) : list string :=
  (cond_key <$> conds_of (Ls false true)) ++ (cond_key <$> conds_of (Ls false false)) ++
  (cond_key <$> conds_of (Ls true true)) ++ (cond_key <$> conds_of (Ls true false)) ++ (bind_hash_key <$> ps.*2).

(** In the course of the clearing: the parts [ds] are gone. *)
Definition gone (s s1 : mem) (m m1 : string -> list pnode) (ds : list positive) : Prop :=
  swept s s1 m m1 ds /\ forall c, c ∈ ds -> cells s1 !! c = None.

Lemma gone_trans s s1 s2 m m1 m2 ds ds' : gone s s1 m m1 ds -> gone s1 s2 m1 m2 ds' -> gone s s2 m m2 (ds ++ ds').
Proof.
  intros [S1 D1] [S2 D2]. split; [by eapply swept_trans|]. intros c [Hc|Hc]%elem_of_app; [|by apply D2].
  by apply (sp_none _ _ _ _ _ S2), D1.
Qed.

Lemma gone_step s s1 m0 m m1 ds ds' {A} (p : L A) (Q : A -> mem -> Prop) :
  gone s s1 m0 m ds -> wp p s1 (fun _ s2 => gone s1 s2 m m1 ds') ->
  (forall a s2, gone s s2 m0 m1 (ds ++ ds') -> Q a s2) -> wp p s1 Q.
Proof. intros G Hp HQ. eapply wp_mono; [exact Hp|]. intros a s2 G2. apply HQ. by eapply gone_trans. Qed.

Lemma drop_step x t clear s s1 m m1 ds a sc b l :
  clears x t clear -> gone s s1 m m1 ds -> tabled s m -> a ∉ ds -> b ∉ ds -> cells s !! a = Some (OScene sc) ->
  list_ptr sc x t = Some b -> cells s !! b = Some (OList l) -> Forall (kind_is t) (conds_of l) ->
  wp (drop_list (Some this) (Some a) x t clear) s1 (fun _ s2 =>
    gone s s2 m (del_keys (acSceneId sc) (cond_key <$> conds_of l) m1) (ds ++ [b])).
Proof.
  intros Hc G T Ha Hb Hac Hl Hbc Hk. pose proof G as [S _]. eapply (gone_step _ _ _ _ _ _ [b] _ _ G); [|done].
  eapply wp_mono; [eapply drop_list_swept; [exact Hc|apply S| |exact Hl| |exact Hk]|].
  - exact (swept_obj _ _ _ _ _ _ _ S T Hac I Ha).
  - exact (swept_obj _ _ _ _ _ _ _ S T Hbc I Hb).
  - intros r s2 [S2 D2]. split; [done|]. intros c Hin. apply list_elem_of_singleton in Hin as ->. exact D2.
Qed.

Lemma action_step s s1 m m1 ds a sc b l :
  gone s s1 m m1 ds -> tabled s m -> a ∉ ds -> b ∉ ds -> cells s !! a = Some (OScene sc) ->
  pstAction sc = Some b -> cells s !! b = Some (OActions l) ->
  wp (drop_actions (Some this) (Some a)) s1
    (fun _ s2 => gone s s2 m m1 (ds ++ [b])).
Proof.
  intros G T Ha Hb Hac Hp Hbc. pose proof G as [S _]. eapply (gone_step _ _ _ _ _ _ [b] _ _ G); [|done].
  pose proof (swept_obj _ _ _ _ _ _ _ S T Hac I Ha) as Ha1.
  pose proof (swept_obj _ _ _ _ _ _ _ S T Hbc I Hb) as Hb1.
  unfold drop_actions. wp_step. eapply wp_mono; [eapply scene_action_clear_swept; [apply S|exact Ha1|exact Hp|exact Hb1]|].
  intros r s2 (S2 & l2 & Hb2). assert (a <> b) as Hab by congruence.
  wp_step. eapply wp_load; [eapply swept_obj; [exact S2|apply S|exact Ha1|exact I|set_solver]|reflexivity|].
  rewrite Hp. wp_step. unfold destroy_action_list. cbn [is_null]. wp_step. unfold ActionList.this_.
  eapply wp_load; [exact Hb2|reflexivity|]. wp_step. eapply wp_free; [exact Hb2|]. wp_steps. split.
  - eapply swept_more; [eapply swept_trans; [exact S2|eapply swept_del; [apply S2|exact Hb2|exact I]]|]. set_solver.
  - intros c Hin. apply list_elem_of_singleton in Hin as ->. apply lookup_delete_eq.
Qed.

Lemma panels_step s s1 m m1 ds a sc ps :
  gone s s1 m m1 ds -> tabled s m -> a ∉ ds -> (forall c, c ∈ ps.*1 -> c ∉ ds) -> cells s !! a = Some (OScene sc) ->
  pstPanel sc = fst <$> head ps -> pseg s NULL ps -> NoDup ps.*1 ->
  wp (scene_bind_clear char_signed (Some this) (Some a) 1) s1 (fun _ s2 =>
    gone s s2 m (del_keys (acSceneId sc) (bind_hash_key <$> ps.*2) m1) (ds ++ ps.*1)).
Proof.
  intros G T Ha Hps Hac Hp Hs Hnd. pose proof G as [S _]. eapply (gone_step _ _ _ _ _ _ ps.*1 _ _ G); [|done].
  eapply scene_bind_clear_swept; [apply S| |exact Hp| |exact Hnd].
  - exact (swept_obj _ _ _ _ _ _ _ S T Hac I Ha).
  - eapply pseg_frame; [|exact Hs]. intros c o Hc Hco. destruct (pseg_cells _ _ _ _ Hs Hc) as [n Hn].
    rewrite Hn in Hco. injection Hco as <-. by apply (swept_obj _ _ _ _ _ _ _ S T Hn I), Hps.
Qed.

(** The parts of a scene are distinct objects. *)
Lemma owned_distinct s a sc Ls b ps : owned s a sc Ls b ps ->
  a ∉ parts sc ps /\ NoDup (parts sc ps).
Proof.
  intros [R Hk [Hact [l Hb]] Hp Hs Hnd]. pose proof (sa_scene _ _ _ _ R) as Ha.
  destruct (sa_lists _ _ _ _ R false true) as (b1 & P1 & C1). destruct (sa_lists _ _ _ _ R false false) as (b2 & P2 & C2).
  destruct (sa_lists _ _ _ _ R true true) as (b3 & P3 & C3). destruct (sa_lists _ _ _ _ R true false) as (b4 & P4 & C4).
  assert (Hd : forall x t x' t' c, list_ptr sc x t = Some c -> list_ptr sc x' t' = Some c -> x = x' /\ t = t')
    by (intros x t x' t' c H H'; apply (sa_distinct _ _ _ _ R); congruence).
  assert (b1 <> b2) by (intros ->; by destruct (Hd _ _ _ _ _ P1 P2)).
  assert (b1 <> b3) by (intros ->; by destruct (Hd _ _ _ _ _ P1 P3)).
  assert (b1 <> b4) by (intros ->; by destruct (Hd _ _ _ _ _ P1 P4)).
  assert (b2 <> b3) by (intros ->; by destruct (Hd _ _ _ _ _ P2 P3)).
  assert (b2 <> b4) by (intros ->; by destruct (Hd _ _ _ _ _ P2 P4)).
  assert (b3 <> b4) by (intros ->; by destruct (Hd _ _ _ _ _ P3 P4)).
  unfold parts, list_ptrs. rewrite P1, P2, P3, P4, Hact. cbn [option_list option_rect app].
  assert (Hps : forall c o, cells s !! c = Some o -> to_panel o = None -> c ∉ ps.*1).
  { intros c o Hc Ho Hin. destruct (pseg_cells _ _ _ _ Hs Hin) as [n Hn]. rewrite Hn in Hc. by injection Hc as <-. }
  split.
  - rewrite !not_elem_of_cons. split_and!; try congruence. by eapply Hps.
  - do 5 (apply NoDup_cons; split; [rewrite ?not_elem_of_cons; repeat split; try congruence; by eapply Hps|]). exact Hnd.
Qed.

Lemma clear_scene_gone s m a sc Ls b ps :
  tabled s m -> owned s a sc Ls b ps ->
  wp (clear_scene char_signed (Some this) (Some a)) s (fun _ s' =>
    gone s s' m (del_keys (acSceneId sc) (scene_keys Ls ps) m) (parts sc ps)).
Proof.
  intros T O. destruct (owned_distinct _ _ _ _ _ _ O) as [Hnin Hnd]. destruct O as [R Hk [Hact [l Hb]] Hp Hs Hnps].
  pose proof (sa_scene _ _ _ _ R) as Ha.
  destruct (sa_lists _ _ _ _ R false true) as (b1 & P1 & C1). destruct (sa_lists _ _ _ _ R false false) as (b2 & P2 & C2).
  destruct (sa_lists _ _ _ _ R true true) as (b3 & P3 & C3). destruct (sa_lists _ _ _ _ R true false) as (b4 & P4 & C4).
  unfold parts, list_ptrs in *. rewrite P1, P2, P3, P4, Hact in *. cbn [option_list option_rect app] in *.
  rewrite !NoDup_cons, !not_elem_of_cons in Hnd. rewrite !not_elem_of_cons in Hnin. destruct_and?.
  assert (G0 : gone s s m m []) by (split; [by apply swept_refl|intros c Hc; by apply elem_of_nil in Hc]).
  unfold clear_scene, scene_keys. rewrite !del_keys_app.
  wp_step. eapply wp_mono; [apply (drop_step false true _ s s m m [] a sc b1 (Ls false true) (scene_cond_clear_clears _ _) G0 T); [set_solver|set_solver|done..|apply Hk]|].
  intros r1 s1 G1.
  wp_step. eapply wp_mono; [apply (drop_step false false _ s s1 m _ _ a sc b2 (Ls false false) scene_event_or_cond_clear_clears G1 T); [set_solver|set_solver|done..|apply Hk]|].
  intros r2 s2 G2.
  wp_step. eapply wp_mono; [apply (drop_step true true _ s s2 m _ _ a sc b3 (Ls true true) (scene_cond_clear_clears _ _) G2 T); [set_solver|set_solver|done..|apply Hk]|].
  intros r3 s3 G3.
  wp_step. eapply wp_mono; [apply (drop_step true false _ s s3 m _ _ a sc b4 (Ls true false) (scene_cond_clear_clears _ _) G3 T); [set_solver|set_solver|done..|apply Hk]|].
  intros r4 s4 G4.
  wp_step. eapply wp_mono; [apply (action_step s s4 m _ _ a sc b l G4 T); [set_solver|set_solver|done..]|].
  intros r5 s5 G5. wp_step. eapply wp_mono; [apply (panels_step s s5 m _ _ a sc ps G5 T); [set_solver| |done..]|].
  { intros c Hc. rewrite ?elem_of_app, ?list_elem_of_singleton. intros Hin. destruct_or? Hin; subst; try done. by apply elem_of_nil in Hin. }
  intros r6 s6 G6. wp_step. exact G6.
Qed.
End remove.
