(* ===== verification/RemoveProps.v ===== *)
(** The removal of a scene, and a removed scene that was waiting for its
    execution. *)
From stdpp Require Import gmap strings.
From S2P Require Import Prelude Heap CString HashTable SceneTimer SceneCond SceneSync SceneData PtrHash PtrRefine PtrProps ActionList CondList CondRefine SceneTruth SceneRefine SceneFire SceneOps SceneEvent OpsRefine OpsProps DelProps ScenePanel SceneList SceneRemove.

(** * The table without the handles of a scene *)

Definition of_scene (id : string) (n : pnode) : Prop := strn_eq INDEX_MAX_LEN (piId n.2) id = true.
#[export] Instance of_scene_dec id n : Decision (of_scene id n).
Proof. unfold of_scene. apply _. Defined.

Definition other_scenes (id : string) (ns : list pnode) : list pnode := filter (fun n => ~ of_scene id n) ns.
Definition count_of (id : string) (ns : list pnode) : nat := length (filter (of_scene id) ns).
Definition occurrences (key : string) (keys : list string) : nat := length (filter (key =.) keys).

Lemma del_id_cons id a i ns :
  del_id id ((a, i) :: ns) = if decide (of_scene id (a, i)) then ns else (a, i) :: del_id id ns.
Proof.
  cbn [del_id]. destruct (decide (of_scene id (a, i))) as [H|H]; unfold of_scene in H; cbn [snd] in H.
  - by rewrite H.
  - by destruct (strn_eq _ _ _).
Qed.

Lemma del_id_count id ns : count_of id (del_id id ns) = (count_of id ns - 1)%nat.
Proof.
  induction ns as [|[a i] ns IH]; [done|]. unfold count_of in *. rewrite del_id_cons, filter_cons.
  destruct (decide (of_scene id (a, i))) as [H|H]; [cbn [length]; lia|]. by rewrite filter_cons, decide_False.
Qed.

Lemma del_id_others id ns : other_scenes id (del_id id ns) = other_scenes id ns.
Proof.
  induction ns as [|[a i] ns IH]; [done|]. unfold other_scenes in *. rewrite del_id_cons, (filter_cons _ (a, i) ns).
  destruct (decide (of_scene id (a, i))) as [H|H]; [by rewrite decide_False by auto|].
  rewrite decide_True by done. rewrite filter_cons, decide_True by done. by rewrite IH.
Qed.

Lemma count_none id ns : count_of id ns = 0%nat -> other_scenes id ns = ns.
Proof.
  induction ns as [|n ns IH]; [done|]. unfold count_of, other_scenes in *. rewrite !filter_cons.
  destruct (decide (of_scene id n)) as [H|H]; [done|]. rewrite decide_True by done. intros Hc. by rewrite IH.
Qed.

(** Enough deletions leave the handles of the other scenes. *)
Lemma del_keys_others id keys : forall m key,
  (count_of id (m key) <= occurrences key keys)%nat -> del_keys id keys m key = other_scenes id (m key).
Proof.
  induction keys as [|k keys IH]; intros m key Hc; cbn [del_keys foldl].
  - symmetry. apply count_none. cbn in Hc. lia.
  - unfold occurrences in *. rewrite filter_cons in Hc. fold (del_keys id keys (upd_key m k (del_id id (m k)))).
    rewrite IH; unfold upd_key; destruct (decide (key = k)) as [->|Hne].
    + apply del_id_others.
    + done.
    + cbn [length] in Hc. rewrite del_id_count. lia.
    + done.
Qed.

(** * Finding the scene *)

Definition named (id : string) (sc : scene_info) : bool := strn_eq INDEX_MAX_LEN (acSceneId sc) id.

Lemma compare_zero sc id : scene_compare sc (zero_scene id) = named id sc.
Proof. unfold scene_compare, named, strn_eq. cbn [acSceneId zero_scene]. by rewrite str_take_take. Qed.

(** The scenes at [xs] have other ids. *)
Definition not_named (s : mem) (id : string) (xs : list positive) : Prop :=
  Forall (fun b => exists sc, cells s !! b = Some (OScene sc) /\ named id sc = false) xs.

Lemma find_scene_spec s id l1 a l2 sc :
  not_named s id l1 -> cells s !! a = Some (OScene sc) -> named id sc = true ->
  wp (find_scene (zero_scene id) (l1 ++ a :: l2)) s (fun r s' => r = Some a /\ s' = s).
Proof.
  intros Hl Ha Hn. induction Hl as [|b l1 (sc' & Hb & Hf) Hl IH]; cbn [find_scene app].
  - wp_step. eapply wp_load; [exact Ha|reflexivity|]. rewrite compare_zero, Hn. by wp_step.
  - wp_step. eapply wp_load; [exact Hb|reflexivity|]. rewrite compare_zero, Hf. exact IH.
Qed.

Lemma wp_reserve_ok s (Q : bool -> mem -> Prop) : oom s = [] -> Q true s -> wp reserve s Q.
Proof. intros Ho HQ. apply wp_reserve. intros b ->. rewrite Ho. destruct s as [c b o g]. cbn in *. by subst o. Qed.

Lemma search_scene_spec s this c id l1 a l2 sc :
  oom s = [] -> cells s !! this = Some (OSceneList c) -> scenes c = l1 ++ a :: l2 ->
  not_named s id l1 -> cells s !! a = Some (OScene sc) -> named id sc = true ->
  wp (search_scene (Some this) (zero_scene id)) s (fun r s' => r = Some a /\ s' = s).
Proof.
  intros Ho Hc Hs Hl Ha Hn. unfold search_scene. wp_step. apply wp_reserve_ok; [done|]. cbn [negb]. wp_step.
  eapply wp_load; [exact Hc|reflexivity|]. rewrite Hs. by eapply find_scene_spec.
Qed.

Section theorem.
Context (char_signed : bool) (this tbl : positive).
Abbreviation tabled := (tabled char_signed this tbl).
Abbreviation swept := (swept char_signed this tbl).

Lemma swept_scenes s m c c' :
  tabled s m -> cells s !! this = Some (OSceneList c) -> pHashTable c' = pHashTable c ->
  swept s (upd this (OSceneList c') s) m m [this].
Proof.
  intros (n & Hn & T) Hc Hp. destruct (table_hash _ _ _ _ _ _ T) as [h Hh].
  assert (this <> tbl) as Hne by congruence. split.
  - exists n. split; [done|]. destruct T as [(c0 & Hc0 & Hp0) Hr Hwf]. split.
    + exists c'. split; [apply lookup_insert_eq|]. congruence.
    + eapply is_registry_frame; [exact Hr|cbn; by rewrite lookup_insert_ne|].
      intros a nd Ha. cbn. rewrite lookup_insert_ne; [done|]. congruence.
    + apply heap_wf_upd; [done|by eexists].
  - intros b o Ht Hb _ Hcb. cbn. rewrite lookup_insert_ne; [done|]. set_solver.
  - intros b Hb. cbn. rewrite lookup_insert_ne; [done|]. congruence.
  - done.
  - exists 0%nat. by rewrite set_db_same.
Qed.

Lemma filter_without a (l : list positive) : a ∉ l -> filter (fun b => b <> a) l = l.
Proof.
  induction l as [|b l IH]; [done|]. rewrite not_elem_of_cons. intros [Hne Hl].
  rewrite filter_cons, decide_True by congruence. by rewrite IH.
Qed.

Lemma remove_scene_middle a l1 l2 : NoDup (l1 ++ a :: l2) -> remove_scene a (l1 ++ a :: l2) = l1 ++ l2.
Proof.
  intros Hnd. apply NoDup_middle in Hnd as [_ Hin]. unfold remove_scene. rewrite filter_app, filter_cons, decide_False by auto.
  rewrite <- filter_app. by apply filter_without.
Qed.

(** A scene to be removed: the first of its id, with at most one handle for
    each of its conditions and panels. *)
Record removable (s : mem) (c : scene_list) (m : string -> list pnode) (id : string) l1 a l2 sc Ls b ps : Prop := {
  rm_table : tabled s m;
  rm_oom : oom s = [];
  rm_class : cells s !! this = Some (OSceneList c);
  rm_scenes : scenes c = l1 ++ a :: l2;
  rm_nodup : NoDup (scenes c);
  rm_before : not_named s id l1;
  rm_named : named id sc = true;
  rm_owned : owned s a sc Ls b ps;
  rm_handles : forall key, (count_of (acSceneId sc) (m key) <= occurrences key (scene_keys Ls ps))%nat
}.

(** After the removal. *)
Record removed (s s' : mem) (c : scene_list) (m : string -> list pnode) l1 a l2 sc ps : Prop := {
  rv_class : cells s' !! this = Some (OSceneList (set_scenes (l1 ++ l2) c));
  rv_freed : forall p, p ∈ a :: parts sc ps -> cells s' !! p = None;
  rv_kept : forall p o, p ∉ this :: tbl :: a :: parts sc ps -> to_node o = None ->
    cells s !! p = Some o -> cells s' !! p = Some o;
  rv_none : forall p, cells s !! p = None -> cells s' !! p = None;
  rv_table : exists m', tabled s' m' /\ forall key, m' key = other_scenes (acSceneId sc) (m key);
  rv_oom : oom s' = [];
  rv_glob : exists k, glob s' = set_db (drop k (db_results (glob s))) (glob s)
}.

Lemma scene_list_del_run s c m id l1 a l2 sc Ls b ps :
  removable s c m id l1 a l2 sc Ls b ps ->
  wp (scene_list_del char_signed (Some this) (Some id)) s (fun r s' =>
    (r = NoErr \/ r = SceneDelErr) /\ (db_results (glob s) = [] -> r = NoErr) /\ removed s s' c m l1 a l2 sc ps).
Proof.
  intros [T Ho Hc Hs Hnd Hl Hn O Hh]. pose proof O as [[Ha _ _] _ _ _ _ _].
  destruct (owned_distinct _ _ _ _ _ _ O) as [Hap _]. unfold scene_list_del. cbn [is_null]. wp_step.
  eapply wp_mono; [by eapply search_scene_spec|]. intros r s0 [-> ->]. wp_step.
  eapply wp_mono; [by eapply clear_scene_gone|]. intros [] s1 [S1 D1].
  assert (Hthis : this ∉ parts sc ps).
  { intros Hin. specialize (D1 _ Hin). destruct (tabled_scenes _ _ _ _ _ (sp_table _ _ _ _ _ _ _ _ S1)) as (c1 & Hc1 & _). congruence. }
  assert (Htt : this <> tbl).
  { destruct T as (n & _ & T). destruct (table_hash _ _ _ _ _ _ T) as [h Hh']. congruence. }
  assert (Hc1 : cells s1 !! this = Some (OSceneList c)) by (apply S1; done).
  pose proof (swept_obj _ _ _ _ _ _ _ _ _ _ S1 T Ha I Hap) as Ha1.
  unfold upd_scenes. wp_step. wp_step. eapply wp_load; [exact Hc1|reflexivity|]. eapply wp_store; [exact Hc1|].
  rewrite Hs, remove_scene_middle by (by rewrite <- Hs).
  pose proof (swept_scenes s1 _ c (set_scenes (l1 ++ l2) c) (sp_table _ _ _ _ _ _ _ _ S1) Hc1 eq_refl) as S2.
  set (s2 := upd this _ s1) in *. assert (Hta : this <> a) by congruence.
  assert (Ha2 : cells s2 !! a = Some (OScene sc)) by (cbn; by rewrite lookup_insert_ne).
  wp_step. eapply wp_free; [exact Ha2|]. pose proof (swept_del _ _ _ s2 _ a _ (sp_table _ _ _ _ _ _ _ _ S2) Ha2 I) as S3.
  wp_step. unfold scene_list_del_db. eapply wp_mono; [apply scene_request_swept, S3|].
  intros r s4 (Hr & Hr0 & S4). wp_step.
  pose proof (swept_trans _ _ _ _ _ _ _ _ _ _ _ (swept_trans _ _ _ _ _ _ _ _ _ _ _ (swept_trans _ _ _ _ _ _ _ _ _ _ _ S1 S2) S3) S4) as S.
  split_and!.
  - destruct (negb _); [by right|by left].
  - intros Hd. destruct (sp_glob _ _ _ _ _ _ _ _ S1) as [k Hk].
    rewrite Hr0; [done|]. change (glob (del a s2)) with (glob s1). rewrite Hk. cbn [set_db db_results]. by rewrite Hd, drop_nil.
  - split.
    + apply S4; [done|apply not_elem_of_nil|done|]. cbn. rewrite lookup_delete_ne by done. apply lookup_insert_eq.
    + intros p [->|Hp]%elem_of_cons; apply (sp_none _ _ _ _ _ _ _ _ S4); [apply lookup_delete_eq|].
      apply (sp_none _ _ _ _ _ _ _ _ S3), (sp_none _ _ _ _ _ _ _ _ S2), D1, Hp.
    + intros p o Hp Hno Hpo. rewrite !not_elem_of_cons in Hp. apply S; [tauto| |done|done].
      rewrite !not_elem_of_app, !list_elem_of_singleton. set_solver.
    + apply S.
    + eexists. split; [apply S|]. intros key. by apply del_keys_others.
    + pose proof (sp_oom _ _ _ _ _ _ _ _ S) as Hoo. rewrite Ho in Hoo. destruct (oom s4) as [|o os]; [done|].
      exfalso. apply (not_elem_of_nil o), Hoo. by left.
    + apply S.
Qed.

Lemma find_scene_none s id xs :
  not_named s id xs -> wp (find_scene (zero_scene id) xs) s (fun r s' => r = NULL /\ s' = s).
Proof.
  intros Hl. induction Hl as [|b xs (sc & Hb & Hf) Hl IH]; cbn [find_scene]; [by wp_step|].
  wp_step. eapply wp_load; [exact Hb|reflexivity|]. rewrite compare_zero, Hf. exact IH.
Qed.

(** The other scenes are still there. *)
Lemma removed_others s s' c m id l1 a l2 sc Ls b ps xs :
  removable s c m id l1 a l2 sc Ls b ps -> removed s s' c m l1 a l2 sc ps ->
  not_named s id xs -> not_named s' id xs.
Proof.
  intros [T _ Hc _ _ _ Hn O _] V Hx. eapply Forall_impl; [exact Hx|]. intros p (sc' & Hp & Hf). exists sc'.
  split; [|done]. apply V; [|done|done]. pose proof O as [[Ha _ _] _ [Hact [l Hb]] _ Hs _].
  destruct T as (n & _ & T). destruct (table_hash _ _ _ _ _ _ T) as [h Hh].
  rewrite !not_elem_of_cons. split_and!; [congruence..|intros ->; congruence|].
  intros Hin. unfold parts, list_ptrs in Hin. rewrite !elem_of_app, Hact in Hin.
  assert (Hlist : forall x t, p ∈ option_list (list_ptr sc x t) -> False).
  { intros x t Hp'. destruct (sa_lists _ _ _ _ (ow_scene _ _ _ _ _ _ O) x t) as (b' & Hb' & Hcell).
    rewrite Hb' in Hp'. apply list_elem_of_singleton in Hp' as ->. congruence. }
  destruct Hin as [[H|[H|[H|H]]]|[H|H]]; try (by eapply Hlist).
  - apply list_elem_of_singleton in H as ->. congruence.
  - destruct (pseg_cells _ _ _ _ Hs H) as [nd Hnd]. congruence.
Qed.

(** Deleting a scene frees the scene, its four condition lists, its
    actions and its panels, takes exactly its handles out of the pointer table,
    and leaves every other object and scene as it was; the id is then not found,
    unless a later scene of the list has it too. *)
Theorem scene_list_del_releases s c m id l1 a l2 sc Ls b ps :
  removable s c m id l1 a l2 sc Ls b ps ->
  wp (scene_list_del char_signed (Some this) (Some id)) s (fun r s' =>
    (r = NoErr \/ r = SceneDelErr) /\ (db_results (glob s) = [] -> r = NoErr) /\ removed s s' c m l1 a l2 sc ps /\
    (not_named s id l2 -> wp (scene_list_get (Some this) (Some id)) s' (fun p s'' => p = NULL /\ s'' = s'))).
Proof.
  intros H. eapply wp_mono; [by eapply scene_list_del_run|]. intros r s' (Hr & Hr0 & V). split_and!; [done..|].
  intros Hl2. unfold scene_list_get, search_scene. cbn [is_null]. wp_step. apply wp_reserve_ok; [apply V|]. cbn [negb].
  wp_step. eapply wp_load; [apply V|reflexivity|]. apply find_scene_none. cbn [scenes set_scenes].
  apply Forall_app. split; (eapply removed_others; [exact H|exact V|]); [apply H|done].
Qed.

(** A scene that is deleted while it waits in the execution queue is
    executed all the same: when its time has come, the execution thread goes
    through the freed list of actions. *)
Theorem deleted_scene_is_executed {json : Type} (cJSON_Parse : string -> option json)
    (JSON_value_get : string -> nat -> json -> option string) s c m id l1 a l2 sc Ls b ps q rest :
  removable s c m id l1 a l2 sc Ls b ps -> exec_queue (glob s) = q :: rest -> pstAction (stSceneInfo q) = pstAction sc ->
  iExecDelayed q = 0 \/ iTime q + iExecDelayed q <= unix_time (glob s) ->
  wp (scene_sync_event_req_exec (unix_time (glob s))) (sync (glob s)) (fun _ _ => True) ->
  wp (scene_list_del char_signed (Some this) (Some id)) s (fun _ s' =>
    scene_exec cJSON_Parse JSON_value_get (Some this) s' = Fault Dangling).
Proof.
  intros H Hq Hp Hdue Hsy. eapply wp_mono; [by eapply scene_list_del_run|]. intros r s' (_ & _ & V).
  destruct (rv_glob _ _ _ _ _ _ _ _ _ V) as [k Hg]. pose proof (rm_owned _ _ _ _ _ _ _ _ _ _ _ H) as O.
  assert (Hbf : cells s' !! b = None).
  { apply V. right. unfold parts. destruct (ow_action _ _ _ _ _ _ O) as [-> _]. rewrite !elem_of_app. right. left. by left. }
  assert (Hd : due (unix_time (glob s)) q = true) by (unfold due; rewrite orb_true_iff, Z.eqb_eq, Z.leb_le; lia).
  unfold scene_exec. apply fault_after. apply wp_getg. apply fault_after.
  assert (Hsc : exists r0 y, sync_call (scene_sync_event_req_exec (unix_time (glob s'))) s' = Val (r0, with_glob (set_sync y) s')).
  { unfold wp in Hsy. unfold sync_call. rewrite Hg. cbn [set_db unix_time sync].
    destruct (scene_sync_event_req_exec _ _) as [[r0 y]|]; [by eexists _, _|done]. }
  destruct Hsc as (r0 & y & Hsc). unfold wp at 1. rewrite Hsc. cbv beta iota.
  apply fault_after. apply wp_getg. rewrite loop_S. apply fault_bind.
  unfold exec_node. apply fault_after. apply wp_getg. cbn [glob with_glob set_sync exec_queue unix_time]. rewrite Hg.
  cbn [set_db exec_queue unix_time]. rewrite Hq. cbn [lookup list_lookup]. rewrite Hd. apply fault_bind.
  rewrite Hp. destruct (ow_action _ _ _ _ _ _ O) as [-> _]. unfold ActionList.this_, load, mbind, M_bind, getS.
  cbn [cells with_glob]. by rewrite Hbf.
Qed.
End theorem.

(** * A scene with two conditions and an action, waiting for its execution *)

Definition doomed : scene_info :=
  SceneInfo "s1" "evening" 0 "1" "60" "" "" 1 NULL
    (CondLogic 2 (Some 1%positive) (Some 2%positive)) (CondLogic 3 (Some 3%positive) (Some 4%positive)) (Some 5%positive).
Definition doomed_class : scene_list := SceneList [10%positive] (Some 51%positive) 0 NULL.
Definition doomed_mem : mem :=
  Heap (<[5%positive := OActions (ActionList [(6%positive, ActionInfo "1" "lamp" "Switch" "Original" "1" "")] "s1" 0)]>
       (<[10%positive := OScene doomed]>
       (<[50%positive := OSceneList doomed_class]> (cells (pair_mem true))))) 70 []
    (Env [] (Tm 1 9 0) 1000 [QueueNode 60 940 doomed] [] sync_unused acts0).

Lemma doomed_table : tabled true 50 51 doomed_mem pair_chain.
Proof.
  exists 1. split; [lia|]. split.
  - eexists. split; reflexivity.
  - exists (one_head lamp_key 60). split.
    + apply one_key_reg; [vm_compute; lia|vm_compute; reflexivity|reflexivity| |].
      * exists ptr_info0, NULL. split; [reflexivity|]. cbn [seg]. split; [reflexivity|exact I].
      * repeat constructor; set_solver.
    + intros k. unfold one_head, pair_chain, one_chain, upd_key. case_decide; [done|by intros []].
  - intros a Ha. cbn [doomed_mem brk] in Ha. unfold doomed_mem, pair_mem. cbn [cells].
    rewrite !lookup_insert_ne by lia. done.
Qed.

Lemma doomed_removable :
  removable true 50 51 doomed_mem doomed_class pair_chain "s1" [] 10 [] doomed (pair_lists true) 5 [].
Proof.
  split; try reflexivity.
  - apply doomed_table.
  - repeat constructor; set_solver.
  - constructor.
  - split; try reflexivity.
    + split; [reflexivity| |by intros [] [] [] []]. intros [] []; eexists; split; reflexivity.
    + intros [] []; repeat constructor.
    + split; [reflexivity|]. eexists. reflexivity.
    + constructor.
  - intros key. unfold pair_chain, one_chain, upd_key. case_decide as Hk; [subst key|apply Nat.le_0_l].
    vm_compute. lia.
Qed.

Lemma scene_list_del_releases_witness :
  removable true 50 51 doomed_mem doomed_class pair_chain "s1" [] 10 [] doomed (pair_lists true) 5 [] /\
  wp (scene_list_del true (Some 50%positive) (Some "s1")) doomed_mem (fun r s' => r = NoErr /\
    forall p, p ∈ [10; 1; 2; 3; 4; 5]%positive -> cells s' !! p = None).
Proof.
  split; [exact doomed_removable|]. eapply wp_mono.
  - apply (scene_list_del_releases true 50 51 doomed_mem doomed_class pair_chain "s1" [] 10 [] doomed (pair_lists true) 5 []).
    exact doomed_removable.
  - intros r s' (_ & Hr & V & _). split; [by apply Hr|]. intros p Hp. apply V.
    unfold parts, list_ptrs. cbn. set_solver.
Defined.

Lemma deleted_scene_is_executed_witness :
  removable true 50 51 doomed_mem doomed_class pair_chain "s1" [] 10 [] doomed (pair_lists true) 5 [] /\
  wp (scene_list_del true (Some 50%positive) (Some "s1")) doomed_mem (fun _ s' =>
    scene_exec (fun _ => None) (fun _ _ (_ : unit) => None) (Some 50%positive) s' = Fault Dangling).
Proof.
  split; [exact doomed_removable|].
  apply (deleted_scene_is_executed true 50 51 (fun _ => None) (fun _ _ (_ : unit) => None) doomed_mem doomed_class
    pair_chain "s1" [] 10 [] doomed (pair_lists true) 5 [] (QueueNode 60 940 doomed) []).
  - exact doomed_removable.
  - reflexivity.
  - reflexivity.
  - right. vm_compute. discriminate.
  - vm_compute. exact I.
Defined.
