(* ===== verification/AddProps.v ===== *)
(** What adding a scene does. *)
From stdpp Require Import gmap strings.
From S2P Require Import Prelude Heap CString HashTable SceneTimer SceneCond SceneSync SceneData PtrHash PtrRefine PtrProps ActionList CondList CondRefine SceneTruth SceneRefine SceneFire SceneOps SceneEvent OpsRefine OpsProps DelProps ScenePanel SceneList SceneRemove RemoveProps.

(** * Allocations that succeed *)

Definition alloced (t : obj) (s : mem) : mem := Heap (<[brk s := t]> (cells s)) (Pos.succ (brk s)) (oom s) (glob s).

Lemma wp_alloc_ok t s (Q : ptr -> mem -> Prop) :
  oom s = [] -> Q (Some (brk s)) (alloced t s) -> wp (alloc t) s Q.
Proof. intros Ho HQ. apply wp_alloc; [by rewrite Ho|]. intros _. unfold alloced in HQ. by rewrite Ho in *. Qed.

(** [s'] has the new objects [new], and other contents at [ex]. *)
Record grown (s s' : mem) (new ex : list positive) : Prop := {
  gr_keeps : forall p o, p ∉ ex -> cells s !! p = Some o -> cells s' !! p = Some o;
  gr_none : forall p, p ∉ new -> cells s !! p = None -> cells s' !! p = None;
  gr_wf : heap_wf s';
  gr_oom : oom s' = [];
  gr_glob : glob s' = glob s
}.

Lemma grown_trans s1 s2 s3 n1 n2 ex1 ex2 :
  grown s1 s2 n1 ex1 -> grown s2 s3 n2 ex2 -> grown s1 s3 (n1 ++ n2) (ex1 ++ ex2).
Proof.
  intros [K1 N1 W1 O1 G1] [K2 N2 W2 O2 G2]. split; [| |done|done|congruence].
  - intros p o Hp Hc. rewrite not_elem_of_app in Hp. apply K2; [tauto|]. apply K1; tauto.
  - intros p Hp Hc. rewrite not_elem_of_app in Hp. apply N2; [tauto|]. apply N1; tauto.
Qed.
Lemma grown_more s s' new ex ex' : grown s s' new ex -> ex ⊆ ex' -> grown s s' new ex'.
Proof. intros [K N W O G] He. split; [|done..]. intros p o Hp. apply K. set_solver. Qed.

Lemma grown_alloced t (s : mem) : heap_wf s -> oom s = [] -> grown s (alloced t s) [brk s] [].
Proof.
  intros W O. split; [| |by apply heap_wf_alloc|done|done].
  - intros p o _ Hp. cbn. rewrite lookup_insert_ne; [done|]. intros <-. rewrite W in Hp; [done|lia].
  - intros p Hp Hc. cbn. rewrite lookup_insert_ne; [done|]. set_solver.
Qed.
Lemma grown_upd (s : mem) a o o' : heap_wf s -> oom s = [] -> cells s !! a = Some o -> grown s (upd a o' s) [] [a].
Proof.
  intros W O Ha. split; [| |by apply heap_wf_upd; [|by eexists]|done|done].
  - intros p ob Hp Hc. cbn. rewrite lookup_insert_ne; [done|]. set_solver.
  - intros p _ Hc. cbn. rewrite lookup_insert_ne; [done|]. congruence.
Qed.

(** * The lists of a new scene *)

Definition fresh_list (x t : bool) (id : string) : cond_list :=
  CondList [] (if x then 1 else 0) 0 (str_take INDEX_MAX_LEN id) (if x then LOGIC_AND else LOGIC_OR)
    (if t then COND_TIME else COND_EVENT) 0.

Lemma new_cond_list_spec (s : mem) (x t : bool) id :
  heap_wf s -> oom s = [] ->
  wp (new_cond_list (str_take INDEX_MAX_LEN id) (if x then LOGIC_AND else LOGIC_OR) (if t then COND_TIME else COND_EVENT)) s
    (fun p s' => p = Some (brk s) /\ s' = alloced (OList (fresh_list x t id)) s).
Proof.
  intros W O. unfold new_cond_list. wp_step. apply wp_alloc_ok; [done|]. cbn [is_null].
  wp_step. apply wp_reserve_ok; [done|]. cbn [negb]. wp_step. apply wp_reserve_ok; [done|]. cbn [negb].
  wp_step. eapply wp_clist; [apply lookup_insert_eq|]. wp_step. eapply wp_set_clist; [apply lookup_insert_eq|]. wp_step.
  split; [done|]. unfold upd, with_cells, alloced. cbn [cells brk oom glob]. rewrite insert_insert_eq.
  by destruct x.
Qed.

Lemma new_list_at_spec (s : mem) a sc x t id :
  heap_wf s -> oom s = [] -> cells s !! a = Some (OScene sc) ->
  wp (new_list_at (Some a) x t id) s (fun p s' =>
    p = Some (brk s) /\ grown s s' [brk s] [a] /\ cells s !! brk s = None /\
    cells s' !! brk s = Some (OList (fresh_list x t id)) /\
    cells s' !! a = Some (OScene (set_list_ptr x t (Some (brk s)) sc))).
Proof.
  intros W O Ha. assert (Hn : cells s !! brk s = None) by (apply W; lia). assert (Hab : a <> brk s) by congruence.
  unfold new_list_at. wp_step. eapply wp_mono; [by apply new_cond_list_spec|]. intros p s1 [-> ->].
  set (s1 := alloced _ s). assert (Ha1 : cells s1 !! a = Some (OScene sc)) by (cbn; by rewrite lookup_insert_ne).
  pose proof (grown_alloced (OList (fresh_list x t id)) s W O) as G1. fold s1 in G1.
  wp_step. unfold upd_scene. wp_step. eapply wp_load; [exact Ha1|reflexivity|]. eapply wp_store; [exact Ha1|]. wp_step.
  split_and!; [done| |done| |].
  - eapply (grown_trans s s1 _ [brk s] [] [] [a]); [done|]. eapply grown_upd; [apply G1|apply G1|exact Ha1].
  - cbn. rewrite lookup_insert_ne by done. apply lookup_insert_eq.
  - apply lookup_insert_eq.
Qed.

Lemma new_action_list_spec (s : mem) id :
  heap_wf s -> oom s = [] ->
  wp (new_action_list id) s (fun p s' => p = Some (brk s) /\
    s' = alloced (OActions (ActionList [] (str_take INDEX_MAX_LEN id) 0)) s).
Proof.
  intros W O. unfold new_action_list. wp_step. apply wp_alloc_ok; [done|]. cbn [is_null].
  wp_step. apply wp_reserve_ok; [done|]. cbn [negb]. wp_step. apply wp_reserve_ok; [done|]. cbn [negb]. by wp_step.
Qed.

(** * The new scene *)

Definition fresh_lists (id : string) : lists := fun x t => fresh_list x t id.

(** On the way from [s0]: the scene at [a], and its parts [ls]. *)
Record built (s0 s1 : mem) (a : positive) (sc1 : scene_info) (ls : list (positive * obj)) : Prop := {
  bt_grown : grown s0 s1 ls.*1 [a];
  bt_scene : cells s1 !! a = Some (OScene sc1);
  bt_parts : forall p o, (p, o) ∈ ls -> cells s1 !! p = Some o;
  bt_nodup : NoDup ls.*1;
  bt_new : forall p, p ∈ ls.*1 -> cells s0 !! p = None;
  bt_apart : a ∉ ls.*1
}.

Lemma built_upd s0 s1 a sc1 sc2 ls : built s0 s1 a sc1 ls -> built s0 (upd a (OScene sc2) s1) a sc2 ls.
Proof.
  intros [G A P N W Ha]. split; [|apply lookup_insert_eq| |done..].
  - rewrite <- (app_nil_r ls.*1). eapply grown_more; [eapply grown_trans; [exact G|eapply grown_upd; [apply G|apply G|exact A]]|].
    set_solver.
  - intros p o Hp. cbn. rewrite lookup_insert_ne; [by apply P|]. intros <-. apply Ha. by apply list_elem_of_fmap_2 with (f := fst) in Hp.
Qed.

Lemma wp_built_load s0 s1 a sc1 ls (Q : scene_info -> mem -> Prop) :
  built s0 s1 a sc1 ls -> Q sc1 s1 -> wp (load to_scene (Some a)) s1 Q.
Proof. intros B HQ. pose proof (bt_scene _ _ _ _ _ B) as Ha. by eapply wp_load. Qed.
Lemma wp_built_upd s0 s1 a sc1 ls f (Q : unit -> mem -> Prop) :
  built s0 s1 a sc1 ls -> (forall s2, built s0 s2 a (f sc1) ls -> Q tt s2) -> wp (upd_scene (Some a) f) s1 Q.
Proof.
  intros B HQ. pose proof (bt_scene _ _ _ _ _ B) as Ha. unfold upd_scene. wp_step.
  eapply wp_built_load; [exact B|]. eapply wp_store; [exact Ha|].
  apply HQ. by eapply built_upd.
Qed.

(** A new part; [s2] may give the scene other contents as well. *)
Lemma built_more s0 s1 s2 a sc1 sc2 ls b o :
  built s0 s1 a sc1 ls -> cells s1 !! b = None -> grown s1 s2 [b] [a] -> cells s2 !! b = Some o ->
  cells s2 !! a = Some (OScene sc2) -> built s0 s2 a sc2 (ls ++ [(b, o)]).
Proof.
  intros [G A P N W Ha] Hb G2 Hb2 Ha2. assert (Hbl : b ∉ ls.*1).
  { intros ([p o'] & -> & Hin)%list_elem_of_fmap. cbn in Hb. rewrite (P _ _ Hin) in Hb. done. }
  assert (Hb0 : cells s0 !! b = None).
  { destruct (decide (b = a)) as [->|Hne]; [congruence|]. destruct (cells s0 !! b) as [o'|] eqn:H0; [|done].
    rewrite (gr_keeps _ _ _ _ G b o') in Hb; [done|set_solver|done]. }
  split; rewrite ?fmap_app; cbn [fmap list_fmap fst].
  - eapply grown_more; [by eapply grown_trans|]. set_solver.
  - done.
  - intros p o' [Hp|Hp]%elem_of_app; [|apply list_elem_of_singleton in Hp as [= -> ->]; done].
    apply G2; [|by apply P]. intros ->%list_elem_of_singleton. apply Ha. by apply list_elem_of_fmap_2 with (f := fst) in Hp.
  - apply NoDup_app. split_and!; [done|set_solver|apply NoDup_singleton].
  - intros p [Hp|Hp]%elem_of_app; [by apply W|]. by apply list_elem_of_singleton in Hp as ->.
  - rewrite not_elem_of_app. split; [done|]. intros Hab%list_elem_of_singleton. congruence.
Qed.

Lemma built_list s0 s1 a sc1 ls x t id :
  built s0 s1 a sc1 ls ->
  wp (new_list_at (Some a) x t id) s1 (fun p s2 => exists b, p = Some b /\
    built s0 s2 a (set_list_ptr x t (Some b) sc1) (ls ++ [(b, OList (fresh_list x t id))])).
Proof.
  intros B. pose proof B as [G A _ _ _ _].
  eapply wp_mono; [eapply new_list_at_spec; [apply G|apply G|exact A]|]. intros p s2 (-> & G2 & N2 & L2 & A2).
  eexists. split; [done|]. by eapply built_more.
Qed.

Lemma built_actions s0 s1 a sc1 ls id :
  built s0 s1 a sc1 ls ->
  wp (new_action_list id) s1 (fun p s2 => exists b, p = Some b /\
    built s0 s2 a sc1 (ls ++ [(b, OActions (ActionList [] (str_take INDEX_MAX_LEN id) 0))])).
Proof.
  intros B. pose proof B as [G A _ _ _ _].
  eapply wp_mono; [apply new_action_list_spec; apply G|]. intros p s2 [-> ->]. eexists. split; [done|].
  assert (Hn : cells s1 !! brk s1 = None) by (apply (gr_wf _ _ _ _ G); lia).
  eapply built_more; [exact B|exact Hn| |apply lookup_insert_eq|].
  - eapply grown_more; [apply grown_alloced; apply G|set_solver].
  - cbn. rewrite lookup_insert_ne by congruence. done.
Qed.

Definition new_scene (i : scene_info) (b1 b2 b3 b4 b5 : positive) : scene_info :=
  let s := set_texts i (zero_scene (acSceneId i)) in
  SceneInfo (acSceneId s) (acSceneName s) 0 (acSceneEnable s) (acExecDelayed s) (acUpdateTime s) (acNote s) 0 NULL
    (CondLogic 0 (Some b1) (Some b2)) (CondLogic 3 (Some b3) (Some b4)) (Some b5).
Definition empty_actions (id : string) : action_list := ActionList [] (str_take INDEX_MAX_LEN id) 0.
Definition new_parts (id : string) (b1 b2 b3 b4 b5 : positive) : list (positive * obj) :=
  [(b1, OList (fresh_list false true id)); (b2, OList (fresh_list false false id));
   (b3, OList (fresh_list true true id)); (b4, OList (fresh_list true false id)); (b5, OActions (empty_actions id))].

Lemma fresh_consistent i b1 b2 b3 b4 b5 : consistent (new_scene i b1 b2 b3 b4 b5) (fresh_lists (acSceneId i)).
Proof.
  split.
  - intros x t. split; [|done|done]. split; [split; [constructor|constructor|simpl; lia]|by split].
  - intros x t k Hk. by apply elem_of_nil in Hk.
  - by intros [] [].
  - by intros [].
  - done.
Qed.

(** The scene with its parts, in a state that has them. *)
Lemma new_owned s1 a i b1 b2 b3 b4 b5 :
  let ls := new_parts (acSceneId i) b1 b2 b3 b4 b5 in
  cells s1 !! a = Some (OScene (new_scene i b1 b2 b3 b4 b5)) -> NoDup ls.*1 ->
  (forall p o, (p, o) ∈ ls -> cells s1 !! p = Some o) ->
  owned s1 a (new_scene i b1 b2 b3 b4 b5) (fresh_lists (acSceneId i)) b5 [].
Proof.
  intros ls A N P. unfold ls, new_parts in *. cbn [fmap list_fmap fst] in *.
  rewrite !NoDup_cons, !not_elem_of_cons in N. destruct_and?. split; try done.
  - split; [done| |].
    + intros [] []; eexists; (split; [reflexivity|apply P; set_solver]).
    + intros [] [] [] [] He; cbn in He; (done || (injection He as He; subst; done)).
  - split; [done|]. exists (empty_actions (acSceneId i)). apply P. set_solver.
Qed.

Section theorem.
Context (char_signed : bool) (this tbl : positive).
Abbreviation tabled := (tabled char_signed this tbl).

(** The state after the addition, the scene being at [a]. *)
Record added (s s' : mem) (c : scene_list) (m : string -> list pnode) (i : scene_info) (a b1 b2 b3 b4 b5 : positive) : Prop := {
  ad_class : cells s' !! this = Some (OSceneList (set_scenes (a :: scenes c) c));
  ad_owned : owned s' a (new_scene i b1 b2 b3 b4 b5) (fresh_lists (acSceneId i)) b5 [];
  ad_new : forall p, p ∈ [a; b1; b2; b3; b4; b5] -> cells s !! p = None;
  ad_none : forall p, p ∉ [a; b1; b2; b3; b4; b5] -> cells s !! p = None -> cells s' !! p = None;
  ad_kept : forall p o, p <> this -> cells s !! p = Some o -> cells s' !! p = Some o;
  ad_table : tabled s' m;
  ad_oom : oom s' = [];
  ad_glob : exists k, glob s' = set_db (drop k (db_results (glob s))) (glob s)
}.

(** The last steps: the scene is in the list, and has its bits. *)
Lemma built_added s s6 c m i a b1 b2 b3 b4 b5 sc6 sc0 g :
  let ls := new_parts (acSceneId i) b1 b2 b3 b4 b5 in
  let s8 := upd a (OScene (new_scene i b1 b2 b3 b4 b5)) (upd this (OSceneList (set_scenes (a :: scenes c) c)) s6) in
  tabled s m -> cells s !! this = Some (OSceneList c) -> a = brk s -> built (alloced (OScene sc0) s) s6 a sc6 ls ->
  (exists k, g = set_db (drop k (db_results (glob s))) (glob s)) ->
  added s (with_glob (fun _ => g) s8) c m i a b1 b2 b3 b4 b5.
Proof.
  intros ls s8 T Hc Ha [[K N W O G] A P ND New Apart] Hg.
  assert (W0 : heap_wf s) by (destruct T as (n & _ & T); apply T).
  assert (Hna : cells s !! a = None) by (subst a; apply W0; lia).
  assert (Hold : forall p o, cells s !! p = Some o -> cells s6 !! p = Some o).
  { intros p o Hp. assert (p <> a) by congruence. apply K; [set_solver|]. cbn. rewrite lookup_insert_ne by congruence. done. }
  assert (Hta : a <> this) by congruence.
  assert (Hpt : forall p, p ∈ ls.*1 -> p <> this /\ p <> a).
  { intros p Hp. split; [|by intros ->]. intros ->. specialize (New _ Hp). cbn in New.
    rewrite lookup_insert_ne in New by congruence. congruence. }
  assert (T6 : tabled s6 m).
  { destruct T as (n & Hn & T). exists n. split; [done|]. eapply table_frame; [exact T|done|]. eauto. }
  pose proof (swept_scenes _ _ _ _ _ c (set_scenes (a :: scenes c) c) T6 (Hold _ _ Hc) eq_refl) as [T7 _ _ _ _].
  set (s7 := upd this _ s6) in *. assert (Ha7 : cells s7 !! a = Some (OScene sc6)) by (cbn; by rewrite lookup_insert_ne).
  destruct (swept_upd _ _ _ _ _ _ _ (OScene (new_scene i b1 b2 b3 b4 b5)) T7 Ha7 I) as [T8 _ _ _ _]. fold s8 in T8.
  split.
  - cbn. rewrite lookup_insert_ne by done. apply lookup_insert_eq.
  - apply new_owned; [apply lookup_insert_eq|done|]. intros p o Hp.
    destruct (Hpt p) as [? ?]; [by apply list_elem_of_fmap_2 with (f := fst) in Hp|].
    cbn. rewrite !lookup_insert_ne by done. by apply P.
  - intros p [->|Hp]%elem_of_cons; [done|]. specialize (New p Hp). cbn in New.
    destruct (Hpt p Hp). by rewrite lookup_insert_ne in New by congruence.
  - intros p Hp Hcp. assert (p <> this) by congruence. assert (p <> a) by set_solver.
    cbn. rewrite !lookup_insert_ne by done. apply N; [set_solver|]. cbn. rewrite lookup_insert_ne by congruence. done.
  - intros p o Hp Hcp. assert (p <> a) by congruence. cbn. rewrite !lookup_insert_ne by done. by apply Hold.
  - destruct T8 as (n & Hn & T8). exists n. split; [done|]. by apply table_glob.
  - done.
  - done.
Qed.

(** A request changes nothing but the results to come. *)
Lemma scene_request_run s c err (Q : Z -> mem -> Prop) :
  cells s !! this = Some (OSceneList c) ->
  (forall r g, (r = NoErr \/ r = err) -> (db_results (glob s) = [] -> r = NoErr) ->
     (slInitFlag c = 0 -> hd NoErr (db_results (glob s)) <> NoErr -> r = err) ->
     (exists k, g = set_db (drop k (db_results (glob s))) (glob s)) -> Q r (with_glob (fun _ => g) s)) ->
  wp (scene_request (Some this) err) s Q.
Proof.
  intros Hc HQ. unfold scene_request. wp_step. eapply wp_load; [exact Hc|reflexivity|].
  destruct (Z.eqb_spec 1 (slInitFlag c)) as [Hf|Hf]; wp_step.
  - replace s with (with_glob (fun _ => glob s) s) by (by destruct s). apply HQ; [by left|done|lia|].
    exists 0%nat. by rewrite set_db_same.
  - apply wp_db_request. wp_step. apply (HQ _ (drop_db (glob s))).
    + destruct (negb _); [by right|by left].
    + by intros ->.
    + intros _ Hd%Z.eqb_neq. by rewrite Hd.
    + exists 1%nat. unfold drop_db. by destruct (db_results (glob s)) as [|? []].
Qed.

Lemma scene_list_add_run s c m i :
  tabled s m -> oom s = [] -> cells s !! this = Some (OSceneList c) ->
  wp (scene_list_add (Some this) (Some i)) s (fun r s' => exists a b1 b2 b3 b4 b5,
    (r = Some a \/ r = NULL) /\ (db_results (glob s) = [] -> r = Some a) /\
    (slInitFlag c = 0 -> hd NoErr (db_results (glob s)) <> NoErr -> r = NULL) /\
    added s s' c m i a b1 b2 b3 b4 b5).
Proof.
  intros T Ho Hc. assert (W : heap_wf s) by (destruct T as (n & _ & T); apply T).
  unfold scene_list_add. cbn [is_null]. cbv zeta. wp_step. apply wp_alloc_ok; [done|].
  set (a := brk s). set (s0 := alloced _ s). assert (Hna : cells s !! a = None) by (apply W; lia).
  assert (B0 : built s0 s0 a (set_texts i (zero_scene (acSceneId i))) []).
  { assert (W0 : heap_wf s0) by (by apply heap_wf_alloc).
    split; [by split|apply lookup_insert_eq| |constructor| |apply not_elem_of_nil]; intros p; intros; by set_solver. }
  wp_step. eapply wp_mono; [by apply built_list|]. intros p1 s1 (b1 & -> & B1). cbn [is_null].
  wp_step. eapply wp_mono; [by apply built_list|]. intros p2 s2 (b2 & -> & B2). cbn [is_null].
  wp_step. eapply wp_mono; [by apply built_list|]. intros p3 s3 (b3 & -> & B3). cbn [is_null].
  wp_step. eapply wp_mono; [by apply built_list|]. intros p4 s4 (b4 & -> & B4).
  wp_step. eapply wp_built_load; [exact B4|]. change (is_null (list_ptr _ true true)) with false. cbv iota.
  wp_step. eapply wp_mono; [by eapply built_actions|]. intros p5 s5 (b5 & -> & B5). cbn [is_null].
  wp_step. eapply wp_built_upd; [exact B5|]. intros s6 B6. cbn [is_null default].
  assert (Hat : a <> this) by congruence.
  assert (Hc6 : cells s6 !! this = Some (OSceneList c)).
  { apply B6; [by intros ?%list_elem_of_singleton|]. cbn. by rewrite lookup_insert_ne. }
  pose proof (bt_scene _ _ _ _ _ B6) as Ha6.
  wp_step. unfold upd_scenes. wp_step. eapply wp_load; [exact Hc6|reflexivity|]. eapply wp_store; [exact Hc6|].
  set (s7 := upd this _ s6). assert (Ha7 : cells s7 !! a = cells s6 !! a) by (cbn; by rewrite lookup_insert_ne).
  rewrite Ha6 in Ha7. unfold upd_scene. wp_step. wp_step. eapply wp_load; [exact Ha7|reflexivity|]. eapply wp_store; [exact Ha7|].
  wp_step. wp_step. eapply wp_load; [apply lookup_insert_eq|reflexivity|]. eapply wp_store; [apply lookup_insert_eq|].
  rewrite upd_upd. set (s8 := upd a _ s7).
  assert (Hc8 : cells s8 !! this = Some (OSceneList (set_scenes (a :: scenes c) c))).
  { cbn. rewrite lookup_insert_ne by done. apply lookup_insert_eq. }
  wp_step. unfold scene_list_add_db. eapply scene_request_run; [exact Hc8|].
  change (slInitFlag (set_scenes (a :: scenes c) c)) with (slInitFlag c).
  assert (Hg8 : glob s8 = glob s) by apply (gr_glob _ _ _ _ (bt_grown _ _ _ _ _ B6)). rewrite Hg8.
  intros r g Hr Hr0 Hrf Hg. wp_step. exists a, b1, b2, b3, b4, b5. split_and!.
  - destruct (negb _); [by right|by left].
  - intros Hd. by rewrite Hr0.
  - intros Hf Hd. by rewrite Hrf.
  - by eapply built_added.
Qed.

Lemma new_named i b1 b2 b3 b4 b5 : named (acSceneId i) (new_scene i b1 b2 b3 b4 b5) = true.
Proof. apply strn_eq_take. Qed.

(** A scene that is added has the texts of the request, is empty, with all
    its truth bits in agreement, and is what the search for its id finds.  The
    caller gets it only if the database takes it too: otherwise he gets NULL,
    though the scene is in the list and is found. *)
Theorem scene_list_add_get s c m i :
  tabled s m -> oom s = [] -> cells s !! this = Some (OSceneList c) ->
  wp (scene_list_add (Some this) (Some i)) s (fun r s' => exists a b1 b2 b3 b4 b5,
    (db_results (glob s) = [] -> r = Some a) /\
    (slInitFlag c = 0 -> hd NoErr (db_results (glob s)) <> NoErr -> r = NULL) /\
    added s s' c m i a b1 b2 b3 b4 b5 /\
    consistent (new_scene i b1 b2 b3 b4 b5) (fresh_lists (acSceneId i)) /\
    wp (scene_list_get (Some this) (Some (acSceneId i))) s' (fun p s'' => p = Some a /\ s'' = s')).
Proof.
  intros T Ho Hc. eapply wp_mono; [by apply scene_list_add_run|].
  intros r s' (a & b1 & b2 & b3 & b4 & b5 & _ & H1 & H2 & A). exists a, b1, b2, b3, b4, b5. split_and!; [done..| |].
  - apply fresh_consistent.
  - unfold scene_list_get. cbn [is_null]. eapply (search_scene_spec s' this _ _ [] a (scenes c)); [apply A|apply A|done|constructor| |].
    + apply (ad_owned _ _ _ _ _ _ _ _ _ _ _ A).
    + apply new_named.
Qed.

(** Adding a scene and deleting it again leaves the heap as it was: the
    list of scenes, every other object, no object more; and the table's handles. *)
Theorem scene_add_del_no_leak s c m i :
  tabled s m -> oom s = [] -> cells s !! this = Some (OSceneList c) -> NoDup (scenes c) ->
  (forall b, b ∈ scenes c -> is_Some (cells s !! b)) ->
  (forall key, count_of (str_take INDEX_MAX_LEN (acSceneId i)) (m key) = 0%nat) ->
  wp (_ ← scene_list_add (Some this) (Some i); scene_list_del char_signed (Some this) (Some (acSceneId i))) s (fun _ s' =>
    cells s' !! this = Some (OSceneList c) /\
    (forall p, cells s !! p = None -> cells s' !! p = None) /\
    (forall p o, p <> tbl -> to_node o = None -> cells s !! p = Some o -> cells s' !! p = Some o) /\
    exists m', tabled s' m' /\ forall key, m' key = m key).
Proof.
  intros T Ho Hc Hnd Hsome Hcount. wp_step. eapply wp_mono; [by apply scene_list_add_run|].
  intros r s1 (a & b1 & b2 & b3 & b4 & b5 & _ & _ & _ & A).
  assert (Hna : cells s !! a = None) by (apply A; by left).
  assert (R : removable char_signed this tbl s1 (set_scenes (a :: scenes c) c) m (acSceneId i) [] a (scenes c)
    (new_scene i b1 b2 b3 b4 b5) (fresh_lists (acSceneId i)) b5 []).
  { split; [apply A|apply A|apply A|done| |constructor|apply new_named|apply A|].
    - cbn. apply NoDup_cons. split; [|done]. intros Hin. destruct (Hsome a Hin) as [o Ho']. congruence.
    - intros key. cbn [acSceneId new_scene set_texts zero_scene]. rewrite Hcount. apply Nat.le_0_l. }
  eapply wp_mono; [by eapply scene_list_del_run|]. intros r' s' (_ & _ & V).
  assert (Hc' : cells s' !! this = Some (OSceneList c)).
  { rewrite (rv_class _ _ _ _ _ _ _ _ _ _ _ _ V). by destruct c. }
  split_and!; [done| | |].
  - intros p Hp. destruct (decide (p ∈ [a; b1; b2; b3; b4; b5])) as [Hin|Hin].
    + eapply rv_freed; [exact V|exact Hin].
    + eapply rv_none; [exact V|]. by eapply ad_none.
  - intros p o Hpt Hno Hp. destruct (decide (p = this)) as [->|Hne]; [congruence|].
    eapply rv_kept; [exact V| |done|by eapply ad_kept]. rewrite !not_elem_of_cons. split_and!; [done..| |].
    + congruence.
    + intros Hin. assert (Hx : cells s !! p = None) by (eapply ad_new; [exact A|by right]). congruence.
  - destruct (rv_table _ _ _ _ _ _ _ _ _ _ _ _ V) as (m' & Tm & Hm). exists m'. split; [done|].
    intros key. rewrite Hm. cbn [acSceneId new_scene set_texts zero_scene]. by apply count_none.
Qed.
End theorem.

(** * A second scene *)

Definition morning : scene_info := set_texts
  (SceneInfo "" "morning" 0 "1" "0" "" "" 0 NULL (CondLogic 0 NULL NULL) (CondLogic 0 NULL NULL) NULL) (zero_scene "s2").

Lemma scene_list_add_get_witness :
  wp (scene_list_add (Some 50%positive) (Some morning)) doomed_mem (fun r s' => exists a,
    r = Some a /\
    wp (scene_list_get (Some 50%positive) (Some "s2")) s' (fun p s'' => p = Some a /\ s'' = s')).
Proof.
  eapply wp_mono.
  - apply (scene_list_add_get true 50 51 doomed_mem doomed_class pair_chain morning).
    + exact doomed_table.
    + reflexivity.
    + reflexivity.
  - intros r s' (a & b1 & b2 & b3 & b4 & b5 & Hr & _ & _ & _ & Hg). exists a. split; [by apply Hr|exact Hg].
Defined.

Lemma scene_add_del_no_leak_witness :
  wp (_ ← scene_list_add (Some 50%positive) (Some morning); scene_list_del true (Some 50%positive) (Some "s2")) doomed_mem
    (fun _ s' => cells s' !! 50%positive = Some (OSceneList doomed_class) /\
      (forall p, cells doomed_mem !! p = None -> cells s' !! p = None)).
Proof.
  eapply wp_mono.
  - apply (scene_add_del_no_leak true 50 51 doomed_mem doomed_class pair_chain morning).
    + exact doomed_table.
    + reflexivity.
    + reflexivity.
    + repeat constructor; set_solver.
    + intros b Hb. apply list_elem_of_singleton in Hb as ->. by eexists.
    + intros key. unfold pair_chain, one_chain, upd_key. by case_decide.
  - intros r s' (H1 & H2 & _). split; [exact H1|exact H2].
Defined.
