(* ===== verification/PanelProps.v ===== *)
(** The panels of a scene: a chain of nodes and the pointer table implement a
    list of bindings, one per panel key. *)
From stdpp Require Import gmap strings.
From S2P Require Import Prelude Heap CString HashTable SceneTimer SceneCond SceneSync SceneData PtrHash PtrRefine PtrProps ActionList CondList CondRefine SceneTruth SceneRefine SceneFire SceneOps SceneEvent OpsRefine OpsProps DelProps ScenePanel SceneList SceneRemove RemoveProps AddProps.

(** * Chains of panel nodes *)

Abbreviation pan := (positive * scene_panel)%type.

Definition pfirst (ps : list pan) (q : ptr) : ptr := match ps with [] => q | (a, _) :: _ => Some a end.
Definition plast (ps : list pan) (q : ptr) : ptr := match last ps with Some (a, _) => Some a | None => q end.

Lemma plast_cons a p ps q : plast ((a, p) :: ps) q = plast ps (Some a).
Proof. unfold plast. rewrite last_cons. by destruct (last ps) as [[]|]. Qed.
Lemma plast_snoc ps a p q : plast (ps ++ [(a, p)]) q = Some a.
Proof. unfold plast. by rewrite last_snoc. Qed.

Fixpoint chained (s : mem) (pv : ptr) (ps : list pan) (q : ptr) : Prop :=
  match ps with
  | [] => True
  | (a, p) :: ps => cells s !! a = Some (OPanel (PanelNode p (pfirst ps q) pv)) /\ chained s (Some a) ps q
  end.

Lemma chained_pseg s pv ps : chained s pv ps NULL <-> pseg s pv ps.
Proof.
  revert pv. induction ps as [|[a p] ps IH]; intros pv; [done|]. cbn [chained pseg]. rewrite IH.
  replace (fst <$> head ps) with (pfirst ps NULL) by (by destruct ps as [|[]]). done.
Qed.

Lemma chained_app s pv l1 l2 q :
  chained s pv (l1 ++ l2) q <-> chained s pv l1 (pfirst l2 q) /\ chained s (plast l1 pv) l2 q.
Proof.
  revert pv. induction l1 as [|[a p] l1 IH]; intros pv; cbn [app chained].
  - unfold plast. simpl. tauto.
  - rewrite IH, plast_cons. assert (pfirst (l1 ++ l2) q = pfirst l1 (pfirst l2 q)) as -> by (by destruct l1 as [|[]]). tauto.
Qed.

Lemma chained_frame s s' pv ps q :
  (forall a, a ∈ ps.*1 -> cells s' !! a = cells s !! a) -> chained s pv ps q -> chained s' pv ps q.
Proof.
  revert pv. induction ps as [|[a p] ps IH]; intros pv Hf; [done|]. cbn [chained fmap list_fmap fst] in *.
  intros [Ha Hs]. split; [by rewrite Hf by (by left)|]. apply IH; [|done]. intros b Hb. apply Hf. by right.
Qed.

(** A node's panel, the link of the last node, the link of the first one. *)
Lemma chained_panel s pv l1 a p p' l2 q :
  chained s pv (l1 ++ (a, p) :: l2) q -> NoDup (l1 ++ (a, p) :: l2).*1 ->
  cells s !! a = Some (OPanel (PanelNode p (pfirst l2 q) (plast l1 pv))) /\
  chained (upd a (OPanel (PanelNode p' (pfirst l2 q) (plast l1 pv))) s) pv (l1 ++ (a, p') :: l2) q.
Proof.
  rewrite fmap_app, !chained_app. cbn [chained fmap list_fmap fst pfirst]. intros (H1 & Ha & H2) [_ Hn]%NoDup_middle.
  rewrite not_elem_of_app in Hn. destruct Hn as [Hn1 Hn2].
  split_and!; [done| |apply lookup_insert_eq|]; (eapply chained_frame; [|done]); intros b Hb; cbn;
    (rewrite lookup_insert_ne; [done|by intros <-]).
Qed.

Lemma chained_next s pv l a p q q' :
  chained s pv (l ++ [(a, p)]) q -> NoDup (l ++ [(a, p)]).*1 ->
  chained (upd a (OPanel (PanelNode p q' (plast l pv))) s) pv (l ++ [(a, p)]) q'.
Proof.
  rewrite fmap_app, !chained_app. cbn [chained fmap list_fmap fst pfirst]. intros (H1 & _) [_ Hn]%NoDup_middle.
  rewrite app_nil_r in Hn. split_and!; [|apply lookup_insert_eq|done].
  eapply chained_frame; [|done]. intros b Hb. cbn. rewrite lookup_insert_ne; [done|by intros <-].
Qed.

Lemma chained_prev s pv pv' a p l q :
  chained s pv ((a, p) :: l) q -> NoDup ((a, p) :: l).*1 ->
  chained (upd a (OPanel (PanelNode p (pfirst l q) pv')) s) pv' ((a, p) :: l) q.
Proof.
  cbn [chained fmap list_fmap fst]. intros [_ H] [Hn _]%NoDup_cons. split; [apply lookup_insert_eq|].
  eapply chained_frame; [|done]. intros b Hb. cbn. rewrite lookup_insert_ne; [done|by intros <-].
Qed.

Lemma chained_cell s pv ps q a : chained s pv ps q -> a ∈ ps.*1 -> exists n, cells s !! a = Some (OPanel n).
Proof.
  revert pv. induction ps as [|[b p] ps IH]; intros pv; cbn [chained fmap list_fmap fst]; [by intros _ []%elem_of_nil|].
  intros [Hb Hs] [->|Ha]%elem_of_cons; [by eexists|]. by eapply IH.
Qed.

(** ** The end of a chain, and a node more *)

Lemma last_panel_loop s ps : forall pv a p k,
  chained s pv ((a, p) :: ps) NULL -> (length ps < k)%nat ->
  wp (loop k (fun p : ptr => n ← load to_panel p; mret (if is_null (plNext n) then inr p else inl (plNext n))) (Some a)) s
    (fun r s' => r = plast ps (Some a) /\ s' = s).
Proof.
  induction ps as [|[b p'] ps IH]; intros pv a p k [Ha Hs] Hk; (destruct k as [|k]; [simpl in Hk; lia|]);
    rewrite loop_S; wp_step; wp_step; (eapply wp_load; [exact Ha|reflexivity|]); cbn [plNext pfirst is_null]; wp_step.
  - by wp_step.
  - rewrite plast_cons. eapply IH; [exact Hs|simpl in Hk; lia].
Qed.

Lemma chained_size s pv ps q : chained s pv ps q -> NoDup ps.*1 -> (length ps <= size (cells s))%nat.
Proof.
  intros Hs Hnd. rewrite <- (length_fmap fst). apply NoDup_size; [done|].
  intros a Ha. destruct (chained_cell _ _ _ _ _ Hs Ha) as [n ->]. done.
Qed.

Lemma wp_upd_panel s a n f (Q : unit -> mem -> Prop) :
  cells s !! a = Some (OPanel n) -> Q tt (upd a (OPanel (f n)) s) -> wp (upd_panel (Some a) f) s Q.
Proof. intros Ha HQ. unfold upd_panel. wp_step. eapply wp_load; [exact Ha|reflexivity|]. by eapply wp_store. Qed.

(** ** A node at the end, a node less *)

Lemma grown_del (s : mem) a : heap_wf s -> oom s = [] -> grown s (del a s) [] [a].
Proof.
  intros W O. split; [| | |done|done].
  - intros p o Hp Hc. cbn. rewrite lookup_delete_ne; [done|]. set_solver.
  - intros p _ Hc. cbn. destruct (decide (p = a)) as [->|Hne]; [apply lookup_delete_eq|]. by rewrite lookup_delete_ne.
  - by apply heap_wf_del.
Qed.
Lemma grown_refl (s : mem) : heap_wf s -> oom s = [] -> grown s s [] [].
Proof. done. Qed.

(** The scene at [a] has the panel nodes [ps]. *)
Record panelled (s : mem) (a : positive) (sc : scene_info) (ps : list pan) : Prop := {
  pd_scene : cells s !! a = Some (OScene (set_panel (pfirst ps NULL) sc));
  pd_chain : chained s NULL ps NULL;
  pd_nodup : NoDup ps.*1
}.

Lemma panelled_apart s a sc ps : panelled s a sc ps -> a ∉ ps.*1.
Proof. intros [A C _] Hin. destruct (chained_cell _ _ _ _ _ C Hin) as [n Hn]. congruence. Qed.

Lemma append_panel_spec s a sc ps b p :
  heap_wf s -> oom s = [] -> panelled s a sc ps -> b ∉ ps.*1 -> cells s !! b = Some (OPanel (PanelNode p NULL NULL)) ->
  wp (append_panel (Some a) (Some b)) s (fun _ s' =>
    grown s s' [] (a :: b :: ps.*1) /\ panelled s' a sc (ps ++ [(b, p)])).
Proof.
  intros W O P Hbp Hb. pose proof (panelled_apart _ _ _ _ P) as Hap. destruct P as [A C N].
  assert (Hab : a <> b) by congruence.
  assert (N' : NoDup (ps ++ [(b, p)]).*1).
  { rewrite fmap_app. apply NoDup_app. split_and!; [done|set_solver|apply NoDup_singleton]. }
  unfold append_panel. wp_step. eapply wp_load; [exact A|reflexivity|]. cbn [pstPanel set_panel].
  destruct ps as [|x ps _] using rev_ind.
  - cbn [pfirst is_null]. unfold upd_scene. wp_step. eapply wp_load; [exact A|reflexivity|]. eapply wp_store; [exact A|].
    split; [eapply grown_more; [by eapply grown_upd|set_solver]|]. split; [apply lookup_insert_eq| |done].
    cbn [app chained pfirst]. split; [|done]. cbn. by rewrite lookup_insert_ne.
  - destruct x as [c pc]. assert (is_null (pfirst (ps ++ [(c, pc)]) NULL) = false) as -> by (by destruct ps as [|[]]).
    pose proof (chained_size _ _ _ _ C N) as Hsz.
    assert (Hc : cells s !! c = Some (OPanel (PanelNode pc NULL (plast ps NULL)))).
    { apply chained_app in C as [_ [Hc _]]. exact Hc. }
    assert (Hbc : b <> c) by (intros ->; apply Hbp; rewrite fmap_app; set_solver).
    unfold last_panel, fuel. wp_step. wp_step. wp_step.
    eapply wp_mono with (P := fun r s' => r = Some c /\ s' = s).
    { destruct ps as [|[d pd] ps]; cbn [app pfirst] in *.
      - eapply wp_mono; [eapply last_panel_loop; [exact C|simpl in *; lia]|]. done.
      - eapply wp_mono; [eapply last_panel_loop; [exact C|simpl in *; lia]|]. intros r s' [-> ->].
        split; [apply plast_snoc|done]. }
    intros r s' [-> ->]. wp_step. eapply wp_load; [exact Hc|reflexivity|]. wp_step.
    eapply wp_upd_panel; [exact Hb|]. eapply wp_upd_panel; [cbn; by rewrite lookup_insert_ne|].
    cbn [set_links plNext plPrev stPanel].
    assert (Hbs : is_Some (cells s !! b)) by (by eexists).
    pose proof (grown_upd s b _ (OPanel (PanelNode p NULL (Some c))) W O Hb) as G1. set (s1 := upd b _ s) in *.
    assert (Hc1 : cells s1 !! c = Some (OPanel (PanelNode pc NULL (plast ps NULL)))) by (cbn; by rewrite lookup_insert_ne).
    pose proof (grown_upd s1 c _ (OPanel (PanelNode pc (Some b) (plast ps NULL))) (gr_wf _ _ _ _ G1) (gr_oom _ _ _ _ G1) Hc1) as G2.
    split; [eapply grown_more; [eapply (grown_trans _ _ _ [] []); eassumption|rewrite fmap_app; set_solver]|].
    assert (a <> c) by congruence. split; [| |done].
    + cbn. rewrite !lookup_insert_ne by done. rewrite A. by destruct ps as [|[]].
    + apply chained_app. cbn [pfirst]. split.
      * apply (chained_next s1 NULL ps c pc NULL (Some b)); [|done]. eapply chained_frame; [|exact C].
        intros e He. cbn. rewrite lookup_insert_ne; [done|]. by intros <-.
      * rewrite plast_snoc. cbn [chained pfirst]. split; [|done]. cbn. rewrite lookup_insert_ne by done. apply lookup_insert_eq.
Qed.

(** A step that changes one object, after others. *)
Lemma grown_step (s s1 : mem) ex b o o' :
  grown s s1 [] ex -> cells s1 !! b = Some o -> grown s (upd b o' s1) [] (b :: ex).
Proof.
  intros G Hb. eapply grown_more.
  - eapply (grown_trans _ _ _ [] []); [exact G|]. eapply grown_upd; [apply G|apply G|exact Hb].
  - set_solver.
Qed.
Lemma grown_free (s s1 : mem) ex b : grown s s1 [] ex -> grown s (del b s1) [] (b :: ex).
Proof.
  intros G. eapply grown_more.
  - eapply (grown_trans _ _ _ [] []); [exact G|]. apply grown_del; apply G.
  - set_solver.
Qed.

Lemma panelled_free s a sc ps b : panelled s a sc ps -> a <> b -> b ∉ ps.*1 -> panelled (del b s) a sc ps.
Proof.
  intros [A C N] Hab Hb. split; [cbn; by rewrite lookup_delete_ne| |done].
  eapply chained_frame; [|exact C]. intros e He. cbn. rewrite lookup_delete_ne; [done|]. by intros <-.
Qed.

(** The first node of the rest gets another predecessor, or there is no rest. *)
Lemma relink_first s s1 ex c pc l2 pv pv' :
  grown s s1 [] ex -> chained s1 pv ((c, pc) :: l2) NULL -> NoDup ((c, pc) :: l2).*1 ->
  wp (upd_panel (Some c) (fun m => set_links (plNext m) pv' m)) s1 (fun _ s2 =>
    grown s s2 [] (c :: ex) /\ chained s2 pv' ((c, pc) :: l2) NULL /\
    forall e, e <> c -> cells s2 !! e = cells s1 !! e).
Proof.
  intros G C N. pose proof C as [Hc _]. eapply wp_upd_panel; [exact Hc|].
  cbn [set_links plNext plPrev stPanel]. split_and!.
  - by eapply grown_step.
  - by eapply chained_prev.
  - intros e He. cbn. by rewrite lookup_insert_ne.
Qed.

(** The node at [b] is out of the chain, and still allocated. *)
Definition unlinked (s s' : mem) (a : positive) (sc : scene_info) l1 b l2 : Prop :=
  grown s s' [] (a :: l1.*1 ++ l2.*1) /\ panelled s' a sc (l1 ++ l2) /\ cells s' !! b = cells s !! b.

Lemma unlink_first s a sc b p l2 :
  heap_wf s -> oom s = [] -> panelled s a sc ((b, p) :: l2) ->
  wp (upd_scene (Some a) (set_panel (pfirst l2 NULL)) ;;
      if is_null (pfirst l2 NULL) then mret tt
      else upd_panel (pfirst l2 NULL) (fun m => set_links (plNext m) NULL m)) s
    (fun _ s' => unlinked s s' a sc [] b l2).
Proof.
  intros W O P. pose proof (panelled_apart _ _ _ _ P) as Hap. destruct P as [A C N].
  cbn [fmap list_fmap fst] in Hap, N. apply not_elem_of_cons in Hap as [Hab Ha2]. apply NoDup_cons in N as [Hb2 N].
  cbn [chained] in C. destruct C as [Cb C2]. unfold upd_scene. wp_step. wp_step.
  eapply wp_load; [exact A|reflexivity|]. eapply wp_store; [exact A|].
  pose proof (grown_step _ _ _ _ _ (OScene (set_panel (pfirst l2 NULL) (set_panel (pfirst ((b, p) :: l2) NULL) sc)))
    (grown_refl s W O) A) as G1.
  set (s1 := upd a _ s) in *.
  assert (K1 : forall e, e <> a -> cells s1 !! e = cells s !! e) by (intros e He; cbn; by rewrite lookup_insert_ne).
  assert (A1 : cells s1 !! a = Some (OScene (set_panel (pfirst l2 NULL) sc))) by apply lookup_insert_eq.
  assert (C21 : chained s1 (Some b) l2 NULL).
  { eapply chained_frame; [|exact C2]. intros e He. apply K1. by intros ->. }
  destruct l2 as [|[c pc] l2]; cbn [pfirst is_null].
  - wp_step. split_and!; [exact G1|by split|by apply K1].
  - cbn [fmap list_fmap fst] in Ha2, Hb2. apply not_elem_of_cons in Ha2 as [Hac _], Hb2 as [Hbc _].
    eapply wp_mono; [eapply relink_first; [exact G1|exact C21|exact N]|]. intros [] s2 (G2 & C22 & K2). split_and!.
    + eapply grown_more; [exact G2|]. cbn [app fmap list_fmap fst]. set_solver.
    + split; [by rewrite K2|exact C22|exact N].
    + rewrite K2 by done. by apply K1.
Qed.

Lemma unlink_later s a sc l1 d pd b p l2 :
  heap_wf s -> oom s = [] -> panelled s a sc ((l1 ++ [(d, pd)]) ++ (b, p) :: l2) ->
  wp (if is_null (pfirst l2 NULL) then upd_panel (Some d) (fun m => set_links NULL (plPrev m) m)
      else
        upd_panel (pfirst l2 NULL) (fun m => set_links (plNext m) (Some d) m) ;;
        upd_panel (Some d) (fun m => set_links (pfirst l2 NULL) (plPrev m) m)) s
    (fun _ s' => unlinked s s' a sc (l1 ++ [(d, pd)]) b l2).
Proof.
  intros W O P. pose proof (panelled_apart _ _ _ _ P) as Hap. destruct P as [A C N].
  set (l1' := l1 ++ [(d, pd)]) in *. assert (Hdl : d ∈ l1'.*1) by (unfold l1'; rewrite fmap_app; set_solver).
  rewrite fmap_app in Hap, N. cbn [fmap list_fmap fst] in Hap, N. apply NoDup_middle in N as [N Hb].
  rewrite not_elem_of_app in Hb. rewrite not_elem_of_app, not_elem_of_cons in Hap.
  destruct Hb as [Hb1 Hb2], Hap as (Ha1 & Hab & Ha2). pose proof N as (N1 & N12 & N2)%NoDup_app.
  apply chained_app in C as (C1 & Cb & C2). cbn [pfirst] in C1, Cb.
  assert (Hp : forall l3 q l4 q', pfirst (l1' ++ l3) q = pfirst (l1' ++ l4) q') by (intros; by destruct l1 as [|[]]).
  assert (Hd : forall s1 q, chained s1 NULL l1' q -> cells s1 !! d = Some (OPanel (PanelNode pd q (plast l1 NULL)))).
  { intros s1 q H. apply chained_app in H as [_ [H _]]. exact H. }
  (* the last step gives the predecessor its next node *)
  assert (Hlast : forall s1 (f : panel_node -> panel_node), (forall n, f n = set_links (pfirst l2 NULL) (plPrev n) n) ->
    grown s s1 [] l2.*1 -> chained s1 NULL l1' (Some b) -> chained s1 (Some d) l2 NULL ->
    (forall e, e ∉ l2.*1 -> cells s1 !! e = cells s !! e) ->
    wp (upd_panel (Some d) f) s1 (fun _ s' => unlinked s s' a sc l1' b l2)).
  { intros s1 f Hf G1 C11 C21 K1. eapply wp_upd_panel; [by apply Hd|]. rewrite Hf. cbn [set_links plNext plPrev stPanel].
    assert (K2 : forall e, e <> d -> cells (upd d (OPanel (PanelNode pd (pfirst l2 NULL) (plast l1 NULL))) s1) !! e = cells s1 !! e)
      by (intros e He; cbn; by rewrite lookup_insert_ne).
    split_and!.
    - eapply grown_more; [eapply grown_step; [exact G1|by apply Hd]|]. set_solver.
    - split; [| |by rewrite fmap_app].
      + rewrite K2 by (by intros ->). rewrite K1 by done. rewrite (Hp _ _ ((b, p) :: l2) NULL). exact A.
      + apply chained_app. split; [by eapply chained_next|]. unfold l1'. rewrite plast_snoc.
        eapply chained_frame; [|exact C21]. intros e He. apply K2. intros ->. by eapply N12.
    - rewrite K2 by (by intros ->). by apply K1. }
  destruct l2 as [|[c pc] l2]; cbn [pfirst is_null] in *.
  - by apply Hlast.
  - wp_step. eapply wp_mono; [eapply (relink_first s s); [by apply grown_refl|exact C2|exact N2]|].
    intros [] s1 (G1 & C21 & K1). apply Hlast; [done| | |exact C21|].
    + eapply grown_more; [exact G1|]. cbn [fmap list_fmap fst]. set_solver.
    + eapply chained_frame; [|exact C1]. intros e He. apply K1. intros ->. eapply N12; [exact He|by left].
    + intros e He. apply K1. intros ->. apply He. by left.
Qed.

Lemma remove_panel_spec s a sc l1 b p l2 :
  heap_wf s -> oom s = [] -> panelled s a sc (l1 ++ (b, p) :: l2) ->
  wp (remove_panel (Some a) (Some b)) s (fun _ s' =>
    grown s s' [] (a :: (l1 ++ (b, p) :: l2).*1) /\ panelled s' a sc (l1 ++ l2) /\ cells s' !! b = None).
Proof.
  intros W O P. pose proof (panelled_apart _ _ _ _ P) as Hap. pose proof P as [A C N].
  rewrite fmap_app in N, Hap |- *. cbn [fmap list_fmap fst] in N, Hap |- *.
  apply NoDup_middle in N as [_ Hb]. rewrite <- fmap_app in Hb.
  assert (Hab : a <> b) by set_solver. apply chained_app in C as (_ & Cb & _).
  unfold remove_panel. wp_step. eapply wp_load; [exact Cb|reflexivity|]. cbn [plNext plPrev]. wp_step.
  eapply wp_mono with (P := fun _ s' => unlinked s s' a sc l1 b l2).
  - destruct l1 as [|[d pd] l1 _] using rev_ind; [by eapply unlink_first|].
    rewrite plast_snoc. by eapply unlink_later.
  - intros [] s1 (G1 & P1 & Hb1). rewrite Cb in Hb1. eapply wp_free; [exact Hb1|]. split_and!.
    + eapply grown_more; [by apply grown_free|]. set_solver.
    + by apply panelled_free.
    + apply lookup_delete_eq.
Qed.

(** * Bindings *)

Definition key_list (ps : list pan) : list string := bind_hash_key <$> ps.*2.

(** What the chain means: the panels, of different keys. *)
Definition rebind (info p : scene_panel) : scene_panel :=
  if strn_eq STATE_MAX_LEN (acEnable p) (acEnable info) then p else stPanel (set_enable (acEnable info) (PanelNode p NULL NULL)).
Fixpoint bind_to (info : scene_panel) (xs : list scene_panel) : list scene_panel :=
  match xs with
  | [] => [info]
  | p :: xs => if decide (bind_hash_key p = bind_hash_key info) then rebind info p :: xs else p :: bind_to info xs
  end.
Definition unbind_from (info : scene_panel) (xs : list scene_panel) : list scene_panel :=
  filter (fun p => bind_hash_key p <> bind_hash_key info) xs.

Lemma bind_to_new info xs : bind_hash_key info ∉ bind_hash_key <$> xs -> bind_to info xs = xs ++ [info].
Proof.
  induction xs as [|p xs IH]; [done|]. cbn [fmap list_fmap bind_to app]. rewrite not_elem_of_cons. intros [Hne Hx].
  rewrite decide_False by congruence. by rewrite IH.
Qed.
Lemma bind_to_old info xs p ys :
  bind_hash_key p = bind_hash_key info -> bind_hash_key info ∉ bind_hash_key <$> xs ->
  bind_to info (xs ++ p :: ys) = xs ++ rebind info p :: ys.
Proof.
  intros Hp. induction xs as [|q xs IH]; cbn [app bind_to fmap list_fmap]; [by rewrite decide_True|].
  rewrite not_elem_of_cons. intros [Hne Hx]. rewrite decide_False by congruence. by rewrite IH.
Qed.
Lemma unbind_from_none info xs : bind_hash_key info ∉ bind_hash_key <$> xs -> unbind_from info xs = xs.
Proof.
  induction xs as [|p xs IH]; [done|]. cbn [fmap list_fmap]. rewrite not_elem_of_cons. intros [Hne Hx].
  unfold unbind_from. rewrite filter_cons, decide_True by congruence. f_equal. by apply IH.
Qed.
Lemma unbind_from_old info xs p ys :
  bind_hash_key p = bind_hash_key info -> bind_hash_key info ∉ bind_hash_key <$> xs ++ ys ->
  unbind_from info (xs ++ p :: ys) = xs ++ ys.
Proof.
  intros Hp. rewrite fmap_app, not_elem_of_app. intros [Hx Hy]. unfold unbind_from.
  rewrite filter_app, filter_cons, decide_False by tauto.
  by rewrite !(unbind_from_none info : forall xs, _ -> filter _ xs = xs).
Qed.

Lemma rebind_key info p : bind_hash_key (rebind info p) = bind_hash_key p.
Proof. unfold rebind. by destruct (strn_eq _ _ _). Qed.

Lemma find_none_count id ns : find_id id ns = None -> count_of id ns = 0%nat.
Proof.
  induction ns as [|[a i] ns IH]; [done|]. cbn [find_id]. unfold count_of. rewrite filter_cons.
  destruct (strn_eq _ _ _) eqn:Hs; [done|]. intros Hf. rewrite decide_False; [by apply IH|].
  unfold of_scene. cbn [snd]. congruence.
Qed.
Lemma count_none_find id ns : count_of id ns = 0%nat -> find_id id ns = None.
Proof.
  induction ns as [|[a i] ns IH]; [done|]. cbn [find_id]. unfold count_of. rewrite filter_cons.
  destruct (decide (of_scene id (a, i))) as [H|H]; [done|]. unfold of_scene in H. cbn [snd] in H.
  intros Hc. destruct (strn_eq _ _ _); [done|]. by apply IH.
Qed.

Section panels.
Context (char_signed : bool) (this tbl : positive).
Abbreviation table_at := (table_at char_signed).

Lemma table_grown s s' m n new ex :
  table_at s this tbl m n -> grown s s' new ex ->
  (forall p o, p ∈ ex -> cells s !! p = Some o -> scene_obj o) -> table_at s' this tbl m n.
Proof.
  intros T G Hex. eapply table_frame; [exact T|apply G|]. intros p o Hp Ho. apply G; [|done].
  intros Hin. apply Ho. by eapply Hex.
Qed.

(** The scene at [a] with its panels, each with one handle of the scene. *)
Definition bound_once (id : string) (m : string -> list pnode) (ps : list pan) (key : string) : Prop :=
  (count_of id (m key) <= 1)%nat /\
  match find_id id (m key) with
  | None => key ∉ key_list ps
  | Some (_, i) => exists b p, (b, p) ∈ ps /\ bind_hash_key p = key /\ pScenePanelNode i = Some b
  end.
Record panels (s : mem) a sc (ps : list pan) (m : string -> list pnode) (n : Z) : Prop := {
  pn_table : table_at s this tbl m n;
  pn_oom : oom s = [];
  pn_panelled : panelled s a sc ps;
  pn_keys : NoDup (key_list ps);
  pn_bound : forall info, bound_once (acSceneId sc) m ps (bind_hash_key info)
}.

(** After an operation: the panels [xs], the handles of the other scenes and the
    other objects as before. *)
Record rebound (s s' : mem) a sc (ps : list pan) (m : string -> list pnode) (n : Z) (xs : list scene_panel) : Prop := {
  rb_panels : exists ps' m' n', panels s' a sc ps' m' n' /\ ps'.*2 = xs /\ n' <= n + 1 /\
    forall key, other_scenes (acSceneId sc) (m' key) = other_scenes (acSceneId sc) (m key);
  rb_kept : forall c o, c <> tbl -> c ∉ a :: ps.*1 -> to_node o = None -> cells s !! c = Some o -> cells s' !! c = Some o;
  rb_glob : glob s' = glob s
}.

Lemma request_ok s m n err :
  table_at s this tbl m n -> db_results (glob s) = [] ->
  wp (scene_request (Some this) err) s (fun r s' => r = NoErr /\ s' = s).
Proof.
  intros T Hd. destruct (ta_class _ _ _ _ _ _ T) as (c & Hc & _). eapply scene_request_run; [exact Hc|].
  intros r g _ Hr _ [k ->]. split; [by apply Hr|]. rewrite Hd, drop_nil. destruct s as [cs b o g]. cbn in *.
  unfold with_glob. cbn. f_equal. destruct g. cbn in Hd. by subst.
Qed.

(** The panel of a handle. *)
Lemma bound_split s a sc ps m n info h i :
  panels s a sc ps m n -> find_id (acSceneId sc) (m (bind_hash_key info)) = Some (h, i) ->
  exists l1 b p l2, ps = l1 ++ (b, p) :: l2 /\ bind_hash_key p = bind_hash_key info /\ pScenePanelNode i = Some b /\
    bind_hash_key info ∉ bind_hash_key <$> l1.*2 ++ l2.*2.
Proof.
  intros P Hf. destruct (pn_bound _ _ _ _ _ _ P info) as [_ Hb]. rewrite Hf in Hb. destruct Hb as (b & p & Hin & Hk & Hi).
  apply list_elem_of_split in Hin as (l1 & l2 & ->). exists l1, b, p, l2. split_and!; [done..|].
  pose proof (pn_keys _ _ _ _ _ _ P) as N. unfold key_list in N. rewrite !fmap_app in N.
  cbn [fmap list_fmap snd] in N. apply NoDup_middle in N as [_ N]. by rewrite Hk, <- fmap_app in N.
Qed.

Lemma wp_handle s m n key h i (Q : ptr_info -> mem -> Prop) :
  table_at s this tbl m n -> (h, i) ∈ m key -> Q i s -> wp (handle (Some h)) s Q.
Proof.
  intros T Hin HQ. destruct (table_node _ _ _ _ _ _ _ _ _ T Hin) as (nd & Hnd & <-).
  unfold handle. wp_step. eapply wp_load; [exact Hnd|reflexivity|]. by wp_step.
Qed.

(** ** Binding a new panel *)

(** The two allocations and the chain: nothing of it can fail. *)
Record appended (s s' : mem) a sc (ps : list pan) info (h b : positive) : Prop := {
  ap_grown : grown s s' [h; b] (a :: b :: ps.*1);
  ap_panelled : panelled s' a sc (ps ++ [(b, info)]);
  ap_handle : cells s' !! h = Some (OPtrNode ptr_node0);
  ap_new : cells s !! h = None /\ cells s !! b = None
}.

Lemma bind_new s a sc ps m n info (Q : Z -> mem -> Prop) :
  panels s a sc ps m n -> find_id (acSceneId sc) (m (bind_hash_key info)) = None ->
  (forall s1 h b, appended s s1 a sc ps info h b ->
     wp (iRet ← scene_bind_db (Some this);
         if negb (iRet =? NoErr) then mret SceneDelErr else
         nd ← load to_node (Some h);
         store (Some h) (OPtrNode (set_panel_ptr (Some b) (set_owner (acSceneId sc) (Some a) nd))) ;;
         tab_inst char_signed (Some this) (bind_hash_key info) (Some h)) s1 Q) ->
  wp (scene_bind char_signed (Some this) (Some a) (Some info)) s Q.
Proof.
  intros [T O P _ _] Hf HQ. pose proof P as [A C N]. pose proof (ta_wf _ _ _ _ _ _ T) as W.
  unfold scene_bind. cbn [is_null orb]. wp_step. eapply wp_load; [exact A|reflexivity|]. cbn [acSceneId set_panel].
  wp_step. eapply wp_mono; [by eapply tab_find_spec|]. intros r s0 [-> ->]. rewrite Hf. cbn [fmap option_fmap option_map is_null negb].
  wp_step. apply wp_alloc_ok; [done|]. cbn [is_null]. pose proof (grown_alloced (OPtrNode ptr_node0) s W O) as G1.
  set (h := brk s) in *. set (s1 := alloced _ s) in *. wp_step. apply wp_alloc_ok; [done|].
  pose proof (grown_alloced (OPanel (PanelNode blank_panel NULL NULL)) s1 (gr_wf _ _ _ _ G1) O) as G2.
  set (b := brk s1) in *. set (s2 := alloced _ s1) in *. wp_step. eapply wp_upd_panel; [apply lookup_insert_eq|].
  cbn [plNext plPrev]. set (s3 := upd b _ s2). assert (Hh : cells s !! h = None) by (apply W; lia).
  assert (Hhb : h <> b) by (cbn; lia).
  assert (Hb : cells s !! b = None) by (apply W; cbn; lia).
  assert (G3 : grown s s3 [h; b] [b]).
  { eapply grown_more; [|reflexivity]. eapply (grown_trans _ _ _ [h; b] [] []); [exact (grown_trans _ _ _ _ _ _ _ G1 G2)|].
    eapply grown_upd; [apply G2|apply G2|apply lookup_insert_eq]. }
  assert (K3 : forall c o, cells s !! c = Some o -> cells s3 !! c = Some o).
  { intros c o Hc. apply G3; [|done]. intros ->%list_elem_of_singleton. congruence. }
  assert (P3 : panelled s3 a sc ps).
  { split; [by apply K3| |done]. eapply chained_frame; [|exact C]. intros e He.
    destruct (chained_cell _ _ _ _ _ C He) as [nd Hn]. rewrite Hn. by apply K3. }
  assert (Hbps : b ∉ ps.*1) by (intros Hin; destruct (chained_cell _ _ _ _ _ C Hin); congruence).
  wp_step. eapply wp_mono; [eapply append_panel_spec; [apply G3|apply G3|exact P3|exact Hbps|apply lookup_insert_eq]|].
  intros [] s4 [G4 P4]. apply HQ. split; [|done| |done].
  - eapply grown_more; [exact (grown_trans _ _ _ _ _ _ _ G3 G4)|]. set_solver.
  - apply G4.
    + intros Hin. assert (h ∈ ps.*1 \/ h = a) as [Hi|Hi] by set_solver; [|congruence].
      destruct (chained_cell _ _ _ _ _ C Hi); congruence.
    + cbn. rewrite !lookup_insert_ne by done. apply lookup_insert_eq.
Qed.

(** The table and the handle under the scene's new node. *)
Lemma appended_table s s1 a sc ps m n info h b :
  panels s a sc ps m n -> appended s s1 a sc ps info h b -> 
  table_at s1 this tbl m n /\ registry_but char_signed s1 tbl m n h.
Proof.
  intros [T O [A C N] _ _] [G P1 Hh [Hn Hb]].
  assert (Hex : forall p o, p ∈ a :: b :: ps.*1 -> cells s !! p = Some o -> scene_obj o).
  { intros p o [->|[->|Hp]%elem_of_cons]%elem_of_cons Ho; [by replace o with (OScene (set_panel (pfirst ps NULL) sc)) by congruence|congruence|].
    destruct (chained_cell _ _ _ _ _ C Hp) as [nd Hnd]. by replace o with (OPanel nd) by congruence. }
  assert (Hk : forall p o, cells s !! p = Some o -> ~ scene_obj o -> cells s1 !! p = Some o).
  { intros p o Hp Ho. apply G; [|done]. intros Hin. apply Ho. by eapply Hex. }
  split; [by eapply table_grown|]. destruct (table_hash _ _ _ _ _ _ T) as [ht Hht].
  eapply registry_but_frame; [eapply registry_fresh; [apply T|exact Hn]| |].
  - rewrite Hht. apply Hk; [done|by intros []].
  - intros p nd _ Hp. rewrite Hp. apply Hk; [done|by intros []].
Qed.

Lemma appended_kept s s1 a sc ps info h b c o :
  appended s s1 a sc ps info h b -> c ∉ a :: ps.*1 -> cells s !! c = Some o -> cells s1 !! c = Some o.
Proof. intros [G _ _ [Hh Hb]] Hc Ho. apply G; [|done]. assert (c <> b) by congruence. set_solver. Qed.

Lemma bound_once_ext id m m' ps ps' key :
  m' key = m key -> (forall x, x ∈ ps -> x ∈ ps' \/ bind_hash_key x.2 <> key) -> (key ∈ key_list ps' -> key ∈ key_list ps) ->
  bound_once id m ps key -> bound_once id m' ps' key.
Proof.
  unfold bound_once. intros -> Hp Hk [Hc Hb]. split; [done|]. destruct (find_id id (m key)) as [[h i]|]; [|tauto].
  destruct Hb as (b & p & Hin & Hkey & Hi). exists b, p. split_and!; [|done|done].
  by destruct (Hp _ Hin).
Qed.

(** The new handle is the scene's only one under its key. *)
Lemma insert_handle s s' a sc ps m n info h b i n' :
  panels s a sc ps m n -> find_id (acSceneId sc) (m (bind_hash_key info)) = None ->
  strn_eq INDEX_MAX_LEN (piId i) (acSceneId sc) = true -> pScenePanelNode i = Some b ->
  table_at s' this tbl (upd_key m (bind_hash_key info) ((h, i) :: m (bind_hash_key info))) n' -> oom s' = [] ->
  panelled s' a sc (ps ++ [(b, info)]) -> 
  panels s' a sc (ps ++ [(b, info)]) (upd_key m (bind_hash_key info) ((h, i) :: m (bind_hash_key info))) n' /\
  forall key, other_scenes (acSceneId sc) (upd_key m (bind_hash_key info) ((h, i) :: m (bind_hash_key info)) key) =
    other_scenes (acSceneId sc) (m key).
Proof.
  intros [T O P N B] Hf Hid Hb T' O' P'. pose proof (B info) as [_ Hnew]. rewrite Hf in Hnew. unfold key_list in *.
  split; [split; [done..| |]|].
  - unfold key_list. rewrite !fmap_app. apply NoDup_app. split_and!; [done| |apply NoDup_singleton].
    intros k Hk ->%list_elem_of_singleton. done.
  - intros info'. destruct (decide (bind_hash_key info' = bind_hash_key info)) as [Hk|Hk].
    + rewrite Hk. split; rewrite upd_key_eq.
      * unfold count_of. rewrite filter_cons, decide_True by exact Hid. cbn [length].
        fold (count_of (acSceneId sc) (m (bind_hash_key info))). by rewrite find_none_count.
      * cbn [find_id]. rewrite Hid. exists b, info. split_and!; [set_solver|done|done].
    + eapply bound_once_ext; [by apply upd_key_ne| | |apply B].
      * intros x Hx. left. set_solver.
      * unfold key_list. rewrite !fmap_app, elem_of_app. intros [?|H%list_elem_of_singleton]; [done|]. by cbn in H.
  - intros key. unfold upd_key. case_decide as Hk; [|done]. subst key. unfold other_scenes.
    rewrite filter_cons, decide_False; [done|]. intros H. by apply H.
Qed.

(** The handle gets its content, and its place in the table. *)
Lemma store_handle s m n key h nd i pv :
  table_at s this tbl m n -> registry_but char_signed s tbl m n h -> cells s !! h = Some (OPtrNode nd) ->
  oom s = [] -> (String.length key < HASH_KEY_MAX_LEN)%nat -> n + 1 < 2 ^ 31 ->
  wp (store (Some h) (OPtrNode (PtrNode i NULL pv)) ;; tab_inst char_signed (Some this) key (Some h)) s (fun r s' =>
    r = NoErr /\ oom s' = [] /\ glob s' = glob s /\
    (forall p o, p <> tbl -> to_node o = None -> cells s !! p = Some o -> cells s' !! p = Some o) /\
    exists n', n' <= n + 1 /\ table_at s' this tbl (upd_key m key ((h, i) :: m key)) n').
Proof.
  intros T B Hh Ho Hk Hn. wp_step. eapply wp_store; [exact Hh|]. set (s2 := upd h _ s).
  assert (Hnode : forall p o, cells s !! p = Some o -> to_node o = None -> p <> h)
    by (intros p o Hp Hno ->; rewrite Hh in Hp; by injection Hp as <-).
  assert (Htbl : tbl <> h) by (destruct (table_hash _ _ _ _ _ _ T) as [ht Hht]; by eapply Hnode).
  assert (B2 : registry_but char_signed s2 tbl m n h).
  { eapply registry_but_frame; [exact B|cbn; by rewrite lookup_insert_ne|]. intros p nd' Hp _. cbn. by rewrite lookup_insert_ne. }
  assert (T2 : table_at s2 this tbl m n).
  { split; [|by eapply registry_but_is|by apply heap_wf_upd; [apply T|eexists]].
    destruct (ta_class _ _ _ _ _ _ T) as (c & Hc & Hp). exists c. split; [|done].
    cbn. rewrite lookup_insert_ne; [done|]. intros <-. by eapply Hnode. }
  eapply wp_mono; [eapply tab_inst_spec; [exact T2|exact B2|apply lookup_insert_eq|done|done|done]|].
  intros r s' (-> & (Hg & Ho' & F) & n' & Hn' & T'). change (oom s2) with (oom s) in Ho'. rewrite Ho in Ho'.
  split_and!; [done| |done| |by exists n'].
  - destruct (oom s') as [|x xs]; [done|]. exfalso. apply (not_elem_of_nil x), Ho'. by left.
  - intros p o Hp Hno Hc. apply F; [done| |done]. cbn. rewrite lookup_insert_ne; [done|]. intros <-. by eapply Hnode.
Qed.

(** A chain seen from a state that keeps what is not the table's. *)
Lemma panelled_kept s s' m n a sc ps :
  table_at s this tbl m n -> (forall p o, p <> tbl -> to_node o = None -> cells s !! p = Some o -> cells s' !! p = Some o) ->
  panelled s a sc ps -> panelled s' a sc ps.
Proof.
  intros T F [A C N]. destruct (table_hash _ _ _ _ _ _ T) as [ht Hht].
  assert (K : forall p o, cells s !! p = Some o -> scene_obj o -> cells s' !! p = Some o).
  { intros p o Hp Ho. apply F; [|by destruct o|done]. intros ->. rewrite Hht in Hp. by injection Hp as <-. }
  split; [by apply K| |done]. eapply chained_frame; [|exact C]. intros e He.
  destruct (chained_cell _ _ _ _ _ C He) as [nd Hnd]. rewrite Hnd. by apply K.
Qed.

Lemma scene_bind_new s a sc ps m n info :
  panels s a sc ps m n -> find_id (acSceneId sc) (m (bind_hash_key info)) = None -> db_results (glob s) = [] ->
  n + 1 < 2 ^ 31 ->
  wp (scene_bind char_signed (Some this) (Some a) (Some info)) s (fun r s' =>
    r = NoErr /\ rebound s s' a sc ps m n (bind_to info ps.*2)).
Proof.
  intros P Hf Hd Hn. eapply bind_new; [exact P|exact Hf|]. intros s1 h b Ap.
  destruct (appended_table _ _ _ _ _ _ _ _ _ _ P Ap) as [T1 B1]. pose proof Ap as [G P1 Hh [Hhs Hbs]].
  assert (Hg : glob s1 = glob s) by apply G. wp_step. unfold scene_bind_db.
  eapply wp_mono; [eapply request_ok; [exact T1|by rewrite Hg]|]. intros r s' [-> ->]. change (negb (NoErr =? NoErr)) with false. cbv iota.
  wp_step. eapply wp_load; [exact Hh|reflexivity|].
  eapply wp_mono; [eapply store_handle; [exact T1|exact B1|exact Hh|apply G|apply hash_key_short|exact Hn]|].
  intros r s' (-> & Ho' & Hg' & K' & n' & Hn' & T'). split; [done|].
  edestruct (insert_handle s s' a sc ps m n info h b) as [Pf Hoth]; [exact P|exact Hf| | |exact T'|exact Ho'|exact (panelled_kept _ _ _ _ _ _ _ T1 K' P1)|].
  { apply strn_eq_take. }
  { reflexivity. }
  split; [|intros c o Hc1 Hc2 Hc3 Hc4; apply K'; [done|done|exact (appended_kept _ _ _ _ _ _ _ _ _ _ Ap Hc2 Hc4)]|by rewrite Hg'].
  eexists _, _, n'. split; [exact Pf|]. split_and!; [|lia|exact Hoth].
  rewrite bind_to_new; [by rewrite fmap_app|]. destruct (pn_bound _ _ _ _ _ _ P info) as [_ Hb]. by rewrite Hf in Hb.
Qed.

(** ** Binding a panel again *)

Lemma rebound_same s a sc ps m n : 
  panels s a sc ps m n -> rebound s s a sc ps m n ps.*2.
Proof. intros P. split; [|done|done]. exists ps, m, n. split_and!; [done|done|lia|done]. Qed.

Lemma scene_bind_again s a sc ps m n info h i :
  panels s a sc ps m n -> find_id (acSceneId sc) (m (bind_hash_key info)) = Some (h, i) -> db_results (glob s) = [] ->
  wp (scene_bind char_signed (Some this) (Some a) (Some info)) s (fun r s' =>
    r = NoErr /\ rebound s s' a sc ps m n (bind_to info ps.*2)).
Proof.
  intros P Hf Hd. destruct (bound_split _ _ _ _ _ _ _ _ _ P Hf) as (l1 & b & p & l2 & -> & Hk & Hi & Hnin).
  pose proof P as [T O [A C N] NK B].
  assert (Hto : bind_to info (l1 ++ (b, p) :: l2).*2 = (l1 ++ (b, rebind info p) :: l2).*2).
  { rewrite !fmap_app. cbn [fmap list_fmap snd]. apply bind_to_old; [done|].
    rewrite fmap_app, not_elem_of_app in Hnin. tauto. }
  destruct (chained_panel _ _ _ _ _ (rebind info p) _ _ C N) as [Hb C'].
  unfold scene_bind. cbn [is_null orb]. wp_step. eapply wp_load; [exact A|reflexivity|]. cbn [acSceneId set_panel].
  wp_step. eapply wp_mono; [by eapply tab_find_spec|]. intros r s0 [-> ->]. rewrite Hf. cbn [fmap option_fmap option_map fst is_null negb].
  wp_step. eapply wp_handle; [exact T|by eapply find_id_in|]. rewrite Hi. wp_step. eapply wp_load; [exact Hb|reflexivity|].
  cbn [stPanel]. rewrite Hto. unfold rebind in *. destruct (strn_eq _ _ _) eqn:Hs.
  - wp_step. split; [done|]. by apply rebound_same.
  - wp_step. eapply wp_upd_panel; [exact Hb|]. set (s1 := upd b _ s).
    assert (T1 : table_at s1 this tbl m n) by (by eapply table_upd).
    wp_step. unfold scene_bind_set_db. eapply wp_mono; [eapply request_ok; [exact T1|exact Hd]|]. intros r s' [-> ->].
    change (negb (NoErr =? NoErr)) with false. cbv iota. wp_step. split; [done|].
    assert (Hke : forall q, (l1 ++ (b, q) :: l2).*1 = (l1 ++ (b, p) :: l2).*1) by (intros; by rewrite !fmap_app).
    assert (Hpn : bind_hash_key (rebind info p) = bind_hash_key p) by apply rebind_key.
    unfold rebind in Hpn. rewrite Hs in Hpn.
    assert (Hkl : forall q, bind_hash_key q = bind_hash_key p -> key_list (l1 ++ (b, q) :: l2) = key_list (l1 ++ (b, p) :: l2)).
    { intros q Hq. unfold key_list. rewrite !fmap_app. cbn [fmap list_fmap snd]. by rewrite Hq. }
    split; [|intros c o _ Hc _ Ho; cbn; rewrite lookup_insert_ne; [done|]|done].
    + eexists _, m, n. split_and!; [split|reflexivity|lia|done].
      * exact T1.
      * done.
      * split; [|exact C'|by rewrite Hke]. cbn. rewrite lookup_insert_ne by congruence. rewrite A. by destruct l1 as [|[]].
      * by rewrite Hkl.
      * intros info'. destruct (B info') as [Hc Hb']. split; [done|]. rewrite (Hkl _ Hpn).
        destruct (find_id (acSceneId sc) (m (bind_hash_key info'))) as [[h' i']|]; [|done]. destruct Hb' as (b' & p' & Hin & Hk' & Hi').
        rewrite elem_of_app, elem_of_cons in Hin. destruct Hin as [Hin|[Heq|Hin]]; [|injection Heq as -> ->|].
        -- exists b', p'. split_and!; [set_solver|done|done].
        -- eexists b, _. split_and!; [apply elem_of_app; right; by left|by rewrite Hpn|done].
        -- exists b', p'. split_and!; [set_solver|done|done].
    + intros <-. apply Hc. right. rewrite fmap_app. set_solver.
Qed.

Lemma scene_bind_spec s a sc ps m n info :
  panels s a sc ps m n -> db_results (glob s) = [] -> n + 1 < 2 ^ 31 ->
  wp (scene_bind char_signed (Some this) (Some a) (Some info)) s (fun r s' =>
    r = NoErr /\ rebound s s' a sc ps m n (bind_to info ps.*2)).
Proof.
  intros P Hd Hn. destruct (find_id (acSceneId sc) (m (bind_hash_key info))) as [[h i]|] eqn:Hf.
  - by eapply scene_bind_again.
  - by apply scene_bind_new.
Qed.

(** ** Unbinding, and the list *)

(** The handle is out, and no other. *)
Lemma delete_handle s s' a sc m n n' l1 b p l2 info :
  panels s a sc (l1 ++ (b, p) :: l2) m n -> bind_hash_key p = bind_hash_key info ->
  let m' := upd_key m (bind_hash_key info) (del_id (acSceneId sc) (m (bind_hash_key info))) in
  table_at s' this tbl m' n' -> oom s' = [] -> panelled s' a sc (l1 ++ l2) ->
  panels s' a sc (l1 ++ l2) m' n' /\ forall key, other_scenes (acSceneId sc) (m' key) = other_scenes (acSceneId sc) (m key).
Proof.
  intros [_ _ _ N B] Hk m' T' O' P'.
  pose proof N as N0. unfold key_list in N0. rewrite !fmap_app in N0. cbn [fmap list_fmap snd] in N0.
  apply NoDup_middle in N0 as [N1 Hnin]. rewrite <- !fmap_app in N1, Hnin.
  split; [split; [done..|exact N1|]|].
  - intros info'. destruct (decide (bind_hash_key info' = bind_hash_key info)) as [He|He].
    + destruct (B info) as [Hc _]. rewrite He. unfold bound_once, m'. rewrite upd_key_eq.
      assert (Hz : count_of (acSceneId sc) (del_id (acSceneId sc) (m (bind_hash_key info))) = 0%nat) by (rewrite del_id_count; lia).
      rewrite (count_none_find _ _ Hz). split; [lia|]. by rewrite <- Hk.
    + eapply bound_once_ext; [by apply upd_key_ne| | |apply B].
      * intros [c q]. rewrite !elem_of_app, elem_of_cons. intros [?|[[= -> ->]|?]]; [tauto|right; cbn [snd]; by rewrite Hk|tauto].
      * unfold key_list. rewrite !fmap_app, !elem_of_app. cbn [fmap list_fmap snd]. rewrite elem_of_cons. tauto.
  - intros key. unfold m', upd_key. case_decide as He; [subst key; apply del_id_others|done].
Qed.

Lemma scene_unbind_spec s a sc ps m n info :
  panels s a sc ps m n -> db_results (glob s) = [] -> n < 2 ^ 31 ->
  wp (scene_unbind char_signed (Some this) (Some a) (Some info)) s (fun r s' =>
    r = (if decide (bind_hash_key info ∈ key_list ps) then NoErr else NotFoundErr) /\
    rebound s s' a sc ps m n (unbind_from info ps.*2)).
Proof.
  intros P Hd Hn. pose proof P as [T O Pd N B]. pose proof Pd as [A C ND].
  unfold scene_unbind. cbn [is_null orb]. wp_step. eapply wp_load; [exact A|reflexivity|]. cbn [acSceneId set_panel].
  wp_step. eapply wp_mono; [by eapply tab_find_spec|]. intros r s0 [-> ->].
  destruct (find_id (acSceneId sc) (m (bind_hash_key info))) as [[h i]|] eqn:Hf; cbn [fmap option_fmap option_map fst is_null].
  2: { destruct (B info) as [_ Hno]. rewrite Hf in Hno. rewrite decide_False by done. wp_step. split; [done|].
       rewrite unbind_from_none by done. by apply rebound_same. }
  destruct (bound_split _ _ _ _ _ _ _ _ _ P Hf) as (l1 & b & p & l2 & -> & Hk & Hi & Hnin).
  rewrite decide_True by (unfold key_list; rewrite <- Hk, !fmap_app; set_solver).
  wp_step. eapply wp_handle; [exact T|by eapply find_id_in|]. rewrite Hi. wp_step. unfold scene_unbind_db.
  eapply wp_mono; [by eapply request_ok|]. intros r s' [-> ->]. change (negb (NoErr =? NoErr)) with false. cbv iota.
  wp_step. eapply wp_mono; [eapply remove_panel_spec; [apply T|done|exact Pd]|]. intros [] s1 (G1 & P1 & Hb1).
  assert (T1 : table_at s1 this tbl m n).
  { eapply table_grown; [exact T|exact G1|]. intros c o [->|Hc]%elem_of_cons Ho; [by replace o with (OScene (set_panel (pfirst (l1 ++ (b, p) :: l2) NULL) sc)) by congruence|].
    destruct (chained_cell _ _ _ _ _ C Hc) as [nd Hnd]. by replace o with (OPanel nd) by congruence. }
  wp_step. eapply wp_mono; [eapply tab_del_spec; [exact T1|exact Hn]|]. intros r s2 (-> & (Hg & Ho & F) & n' & Hn' & T2).
  wp_step. split; [done|]. assert (Ho1 : oom s1 = []) by apply G1. rewrite Ho1 in Ho.
  assert (Ho2 : oom s2 = []).
  { destruct (oom s2) as [|x xs]; [done|]. exfalso. apply (not_elem_of_nil x), Ho. by left. }
  assert (K : forall c o, c <> tbl -> to_node o = None -> cells s1 !! c = Some o -> cells s2 !! c = Some o) by (intros; by apply F).
  edestruct (delete_handle s s2) as [P2 Hoth]; [exact P|exact Hk|exact T2|exact Ho2|exact (panelled_kept _ _ _ _ _ _ _ T1 K P1)|].
  split; [|intros c o Hc1 Hc2 Hc3 Hc4; by apply K, G1|].
  - eexists _, _, n'. split; [exact P2|]. split_and!; [|lia|exact Hoth].
    rewrite !fmap_app. cbn [fmap list_fmap snd]. by rewrite unbind_from_old.
  - rewrite Hg. apply G1.
Qed.

Lemma get_list_loop s k ps : forall f pv xs,
  chained s pv ps NULL -> (length ps < f)%nat ->
  wp (loop f (fun '(p, xs) =>
    if is_null p then mret (inr xs) else
    n ← load to_panel p;
    mret (inl (plNext n, if (length xs <? k)%nat then xs ++ [stPanel n] else xs))) (pfirst ps NULL, xs)) s
    (fun r s' => r = xs ++ take (k - length xs) ps.*2 /\ s' = s).
Proof.
  induction ps as [|[a p] ps IH]; intros f pv xs C Hf; (destruct f as [|f]; [simpl in Hf; lia|]); rewrite loop_S; cbn [pfirst is_null].
  - wp_step. wp_step. wp_step. cbn [fmap list_fmap]. by rewrite take_nil, app_nil_r.
  - destruct C as [Ha C]. wp_step. wp_step. eapply wp_load; [exact Ha|reflexivity|]. wp_step.
    cbn [plNext stPanel]. eapply wp_mono; [eapply IH; [exact C|simpl in Hf; lia]|]. intros r s' [-> ->]. split; [|done].
    cbn [fmap list_fmap snd]. destruct (Nat.ltb_spec (length xs) k) as [Hl|Hl].
    + rewrite length_app. cbn [length]. replace (k - length xs)%nat with (S (k - (length xs + 1))) by lia.
      cbn [take]. by rewrite <- app_assoc.
    + replace (k - length xs)%nat with 0%nat by lia. by rewrite !take_0.
Qed.

Lemma scene_bind_get_list_spec s a sc ps k :
  panelled s a sc ps ->
  wp (scene_bind_get_list (Some this) (Some a) k) s (fun r s' => r = (NoErr, take k ps.*2) /\ s' = s).
Proof.
  intros [A C N]. unfold scene_bind_get_list. cbn [is_null orb]. wp_step. eapply wp_load; [exact A|reflexivity|].
  cbn [pstPanel set_panel]. unfold fuel. wp_step. wp_step. wp_step. pose proof (chained_size _ _ _ _ C N).
  eapply wp_mono; [eapply get_list_loop; [exact C|lia]|]. intros r s' [-> ->]. wp_step.
  cbn [app length]. by rewrite Nat.sub_0_r.
Qed.

(** The panels of a scene behave as a list of bindings with one entry per
    key: binding adds at the end, or changes the enabling of the entry with the
    key; unbinding removes the entry, or answers that there is none; the list
    gives the first ones.  The handles of other scenes and all other objects
    stay as they are. *)
Theorem panels_refine_bindings s a sc ps m n info k :
  panels s a sc ps m n -> db_results (glob s) = [] -> n + 1 < 2 ^ 31 ->
  wp (scene_bind char_signed (Some this) (Some a) (Some info)) s (fun r s' =>
    r = NoErr /\ rebound s s' a sc ps m n (bind_to info ps.*2)) /\
  wp (scene_unbind char_signed (Some this) (Some a) (Some info)) s (fun r s' =>
    r = (if decide (bind_hash_key info ∈ key_list ps) then NoErr else NotFoundErr) /\
    rebound s s' a sc ps m n (unbind_from info ps.*2)) /\
  wp (scene_bind_get_list (Some this) (Some a) k) s (fun r s' => r = (NoErr, take k ps.*2) /\ s' = s).
Proof.
  intros P Hd Hn. split_and!.
  - by apply scene_bind_spec.
  - apply scene_unbind_spec; [done|done|lia].
  - eapply scene_bind_get_list_spec, P.
Qed.
End panels.
