(* ===== verification/BindProps.v ===== *)
(** Panels when things go wrong: a binding the database refuses, and the chain
    of a scene whose panels were cleared. *)
From stdpp Require Import gmap strings.
From S2P Require Import Prelude Heap CString HashTable SceneTimer SceneCond SceneSync SceneData PtrHash PtrRefine PtrProps ActionList CondList CondRefine SceneTruth SceneRefine SceneFire SceneOps SceneEvent OpsRefine OpsProps DelProps ScenePanel SceneList SceneRemove RemoveProps AddProps PanelProps.

Section theorem.
Context (char_signed : bool) (this tbl : positive).
Abbreviation panels := (panels char_signed this tbl).

Lemma unbound_find s a sc ps m n info :
  panels s a sc ps m n -> bind_hash_key info ∉ key_list ps -> find_id (acSceneId sc) (m (bind_hash_key info)) = None.
Proof.
  intros P Hk. destruct (find_id _ _) as [[h i]|] eqn:Hf; [|done]. exfalso.
  destruct (bound_split _ _ _ _ _ _ _ _ _ _ _ _ P Hf) as (l1 & b & p & l2 & -> & Hp & _). apply Hk.
  unfold key_list. rewrite <- Hp, !fmap_app. set_solver.
Qed.

(** A binding that the database refuses is answered with an error but half
    done: the panel is in the scene's list, no handle leads to it, so it cannot
    be unbound, and the handle that was meant for it is lost. *)
Theorem scene_bind_failure_half_binds s a sc ps m n info c k :
  panels s a sc ps m n -> bind_hash_key info ∉ key_list ps ->
  cells s !! this = Some (OSceneList c) -> slInitFlag c = 0 -> hd NoErr (db_results (glob s)) <> NoErr ->
  wp (scene_bind char_signed (Some this) (Some a) (Some info)) s (fun r s' =>
    r = SceneDelErr /\
    wp (scene_bind_get_list (Some this) (Some a) k) s' (fun r' s'' => r' = (NoErr, take k (ps.*2 ++ [info])) /\ s'' = s') /\
    wp (scene_unbind char_signed (Some this) (Some a) (Some info)) s' (fun r' s'' => r' = NotFoundErr /\ s'' = s') /\
    exists h, cells s !! h = None /\ cells s' !! h = Some (OPtrNode ptr_node0)).
Proof.
  intros P Hk Hc Hfl Hd. pose proof (unbound_find _ _ _ _ _ _ _ P Hk) as Hf.
  eapply bind_new; [exact P|exact Hf|]. intros s1 h b Ap.
  destruct (appended_table _ _ _ _ _ _ _ _ _ _ _ _ _ P Ap) as [T1 _]. pose proof Ap as [G P1 Hh [Hhs _]].
  assert (Hc1 : cells s1 !! this = Some (OSceneList c)).
  { eapply appended_kept; [exact Ap| |exact Hc]. pose proof (pn_panelled _ _ _ _ _ _ _ _ _ P) as [A C _].
    intros [->|Hin]%elem_of_cons; [congruence|]. destruct (chained_cell _ _ _ _ _ C Hin). congruence. }
  wp_step. unfold scene_bind_db. eapply scene_request_run; [exact Hc1|].
  intros r g _ _ Hr _. rewrite Hr; [|done|by rewrite (gr_glob _ _ _ _ G)].
  change (negb (SceneAddErr =? NoErr)) with true. cbv iota. wp_step.
  assert (P2 : panelled (with_glob (fun _ => g) s1) a sc (ps ++ [(b, info)])).
  { destruct P1 as [A1 C1 N1]. split; [exact A1| |exact N1]. eapply chained_frame; [|exact C1]. done. }
  split; [done|]. split_and!; [| |by exists h].
  - eapply wp_mono; [by eapply scene_bind_get_list_spec|]. intros r' s'' [-> ->]. by rewrite fmap_app.
  - unfold scene_unbind. cbn [is_null orb]. wp_step. eapply wp_load; [apply P2|reflexivity|]. cbn [acSceneId set_panel].
    wp_step. eapply wp_mono; [eapply tab_find_spec, table_glob, T1|]. intros r' s'' [-> ->]. rewrite Hf.
    cbn [fmap option_fmap option_map is_null]. by wp_step.
Qed.

(** Synchronising a scene with an empty list of panels frees its panels
    and leaves the scene's pointer on the first of them: the next listing, and
    the next addition of a panel to the chain, go through freed memory. *)
Theorem scene_bind_sync_empty_dangles s a sc ps m n pastPanelInfo info k :
  panels s a sc ps m n -> ps <> [] -> n < 2 ^ 31 ->
  wp (scene_bind_sync char_signed (Some this) (Some a) pastPanelInfo 0) s (fun r s' =>
    r = NoErr /\ (forall b, b ∈ ps.*1 -> cells s' !! b = None) /\
    scene_bind_get_list (Some this) (Some a) k s' = Fault Dangling /\
    append_panel (Some a) info s' = Fault Dangling).
Proof.
  intros P Hne Hn. pose proof P as [T O Pd _ _]. pose proof Pd as [A C N].
  assert (Hfst : is_null (pfirst ps NULL) = false /\ pfirst ps NULL = fst <$> head ps) by (by destruct ps as [|[]]).
  unfold scene_bind_sync. cbn [is_null orb]. change (0 <? 0) with false. cbv iota. wp_step.
  eapply wp_load; [exact A|reflexivity|]. cbn [pstPanel set_panel]. destruct Hfst as [-> Hfst]. change (0 =? 0) with true. cbv iota.
  wp_step. eapply wp_mono; [eapply scene_bind_clear_swept; [by exists n|exact A|exact Hfst|by apply chained_pseg|exact N]|].
  intros r s' [S D]. wp_step. split_and!; [done|exact D| |].
  all: pose proof (swept_obj _ _ _ _ _ _ _ _ _ _ S (ex_intro _ n (conj Hn T)) A I (panelled_apart _ _ _ _ Pd)) as A'.
  all: destruct ps as [|[b p] ps]; [done|]; cbn [pfirst] in A';
    assert (Hb : cells s' !! b = None) by (apply D; by left).
  - unfold scene_bind_get_list. cbn [is_null orb]. apply fault_after. eapply wp_load; [exact A'|reflexivity|].
    apply fault_after. cbn [pstPanel set_panel]. unfold fuel. wp_step. rewrite loop_S. apply fault_bind. cbn [is_null].
    apply fault_bind. unfold load, mbind, M_bind, getS. by rewrite Hb.
  - unfold append_panel. apply fault_after. eapply wp_load; [exact A'|reflexivity|].
    cbn [pstPanel set_panel is_null]. apply fault_bind. unfold last_panel. apply fault_after. unfold fuel. wp_step.
    rewrite loop_S. apply fault_bind. apply fault_bind. unfold load, mbind, M_bind, getS. by rewrite Hb.
Qed.
End theorem.

(** * A scene with one panel *)

Definition wall : scene_panel := ScenePanel "wall" "Key_1" "1" "1".
Definition hall : scene_panel := ScenePanel "hall" "Key_2" "1" "1".
Definition wall_key : string := bind_hash_key wall.
Definition wall_info : ptr_info := PtrInfo "s1" (Some 10%positive) NULL NULL NULL (Some 30%positive).
Definition wall_class : scene_list := SceneList [10%positive] (Some 51%positive) 0 NULL.
Definition wall_mem (db : list Z) : mem :=
  Heap (<[50%positive := OSceneList wall_class]>
       (<[51%positive := reg_table (one_bucket wall_key 60) 1 0]>
       (<[60%positive := OPtrNode (PtrNode ptr_info0 (Some 20%positive) NULL)]>
       (<[20%positive := OPtrNode (PtrNode wall_info NULL (Some 60%positive))]>
       (<[10%positive := OScene (set_panel (Some 30%positive) doomed)]>
       (<[30%positive := OPanel (PanelNode wall NULL NULL)]> ∅)))))) 70 []
    (Env db (Tm 1 9 0) 1000 [] [] sync_unused acts0).
Definition wall_chain : string -> list pnode := one_chain wall_key [(20%positive, wall_info)].

Lemma wall_panels db : panels true 50 51 (wall_mem db) 10 doomed [(30%positive, wall)] wall_chain 1.
Proof.
  split; [split| | | |].
  - eexists. split; reflexivity.
  - exists (one_head wall_key 60). split.
    + apply one_key_reg; [vm_compute; lia|vm_compute; reflexivity|reflexivity| |].
      * exists ptr_info0, NULL. split; [reflexivity|]. cbn [seg]. split; [reflexivity|exact I].
      * repeat constructor; set_solver.
    + intros k. unfold one_head, wall_chain, one_chain, upd_key. case_decide; [done|by intros []].
  - intros a Ha. cbn [wall_mem brk] in Ha. unfold wall_mem. cbn [cells].
    rewrite !lookup_insert_ne by lia. done.
  - reflexivity.
  - split; [reflexivity|by split|apply NoDup_singleton].
  - apply NoDup_singleton.
  - intros info. unfold wall_chain, one_chain, upd_key, bound_once, key_list. case_decide as Hk.
    + rewrite Hk. split; [vm_compute; lia|]. exists 30%positive, wall. split_and!; [by left|done|done].
    + split; [cbn; lia|]. cbn [find_id fmap list_fmap snd]. by intros ?%list_elem_of_singleton.
Qed.

Lemma panels_refine_bindings_witness :
  wp (scene_bind true (Some 50%positive) (Some 10%positive) (Some hall)) (wall_mem []) (fun r s' =>
    r = NoErr /\ exists ps' m' n', panels true 50 51 s' 10 doomed ps' m' n' /\ ps'.*2 = [wall; hall]).
Proof.
  eapply wp_mono.
  - refine (proj1 (panels_refine_bindings true 50 51 (wall_mem []) 10 doomed [(30%positive, wall)] wall_chain 1 hall 8
      (wall_panels []) eq_refl _)).
    lia.
  - intros r s' [-> [(ps' & m' & n' & P & Hps & _) _ _]]. split; [reflexivity|]. exists ps', m', n'.
    split; [exact P|]. rewrite Hps. vm_compute. reflexivity.
Defined.

Lemma scene_bind_failure_half_binds_witness :
  wp (scene_bind true (Some 50%positive) (Some 10%positive) (Some hall)) (wall_mem [1]) (fun r s' =>
    r = SceneDelErr /\
    wp (scene_bind_get_list (Some 50%positive) (Some 10%positive) 8) s' (fun r' s'' => r' = (NoErr, [wall; hall]) /\ s'' = s') /\
    wp (scene_unbind true (Some 50%positive) (Some 10%positive) (Some hall)) s' (fun r' s'' => r' = NotFoundErr /\ s'' = s') /\
    exists h, cells (wall_mem [1]) !! h = None /\ cells s' !! h = Some (OPtrNode ptr_node0)).
Proof.
  apply (scene_bind_failure_half_binds true 50 51 (wall_mem [1]) 10 doomed [(30%positive, wall)] wall_chain 1 hall wall_class 8).
  - exact (wall_panels [1]).
  - unfold key_list. intros H%list_elem_of_singleton. revert H. vm_compute. discriminate.
  - reflexivity.
  - reflexivity.
  - discriminate.
Defined.

Lemma scene_bind_sync_empty_dangles_witness :
  wp (scene_bind_sync true (Some 50%positive) (Some 10%positive) [] 0) (wall_mem []) (fun r s' =>
    r = NoErr /\ (forall b, b ∈ [30%positive] -> cells s' !! b = None) /\
    scene_bind_get_list (Some 50%positive) (Some 10%positive) 8 s' = Fault Dangling /\
    append_panel (Some 10%positive) NULL s' = Fault Dangling).
Proof.
  apply (scene_bind_sync_empty_dangles true 50 51 (wall_mem []) 10 doomed [(30%positive, wall)] wall_chain 1 [] NULL 8).
  - exact (wall_panels []).
  - discriminate.
  - lia.
Defined.
