(* ===== verification/Json.v ===== *)
(** JSON values as the program reads and builds them: the trees and item lists
    of the tool library's cJSON (hytoolsdk/src/cjson/cjson.c), and the functions
    it adds to read a value as text, [JSON_value_get]. *)
From stdpp Require Import gmap strings pretty.
From S2P Require Import Prelude Heap CString SceneCond SceneSync SceneData SceneTruth.

(** A number is its exact decimal value, a numerator over a power of ten.  The
    items of an object have their names, NULL if there was no memory for it. *)
Inductive json : Type :=
| JFalse
| JTrue
| JNull
| JNumber (valuedouble : Z * nat)
| JString (valuestring : string)
| JArray (child : list json)
| JObject (child : list (option string * json)).


(** The [int] member of a number: truncated, saturated. *)
Definition valueint (d : Z * nat) : Z :=
  let '(m, k) := d in
  if INT_MAX * pow10 k <=? m then INT_MAX
  else if m <=? INT_MIN * pow10 k then INT_MIN
  else Z.quot m (pow10 k).

(** * Items *)

Definition cJSON_GetArraySize (array : list json) : Z := s32 (Z.of_nat (length array)).
Definition cJSON_GetArrayItem (array : list json) (index : Z) : option json :=
  if index <? 0 then None else array !! Z.to_nat index.
Definition cJSON_DeleteItemFromArray (array : list json) (which : Z) : list json :=
  if which <? 0 then array else take (Z.to_nat which) array ++ drop (S (Z.to_nat which)) array.
Definition cJSON_AddItemToArray (array : list json) (item : option json) : list json :=
  match item with None => array | Some j => array ++ [j] end.

(** The first item whose name is [name], in upper or lower case. *)
Definition same_name (name : string) (f : option string * json) : bool :=
  match f.1 with Some n => strcase_eq name n | None => false end.
Definition cJSON_GetObjectItem (object : json) (name : string) : option json :=
  match object with
  | JObject fs => snd <$> head (filter (fun f => same_name name f = true) fs)
  | _ => None
  end.

(** * Numbers as text *)

(** [p / q] to the nearest integer, a tie to the even one. *)
Definition round_even (p q : Z) : Z :=
  let d := p / q in
  let r := p mod q in
  if 2 * r <? q then d else if q <? 2 * r then d + 1 else if Z.even d then d else d + 1.

Definition digits (z : Z) : string := pretty z.
Fixpoint zeros (n : nat) : string := match n with O => "" | S n => "0" +:+ zeros n end.
(** [z >= 0] with at least [n] digits. *)
Definition padded (n : nat) (z : Z) : string :=
  let s := digits z in zeros (n - String.length s) +:+ s.
Definition minus (m : Z) : string := if m <? 0 then "-" else "".

(** ["%d"], ["%.0f"], ["%f"], ["%e"] of [m / 10^k]. *)
Definition text_d (z : Z) : string := minus z +:+ digits (Z.abs z).
Definition text_f0 (d : Z * nat) : string := minus d.1 +:+ digits (round_even (Z.abs d.1) (pow10 d.2)).
Definition text_f (d : Z * nat) : string :=
  let r := round_even (Z.abs d.1 * 1000000) (pow10 d.2) in
  minus d.1 +:+ digits (r / 1000000) +:+ "." +:+ padded 6 (r mod 1000000).
Definition text_e (d : Z * nat) : string :=
  let '(m, k) := d in
  let e := Z.of_nat (String.length (digits (Z.abs m))) - 1 - Z.of_nat k in
  let r := if e <=? 6 then round_even (Z.abs m * 10 ^ (6 - e)) (pow10 k)
           else round_even (Z.abs m) (pow10 k * 10 ^ (e - 6)) in
  let '(r, e) := if r =? 10000000 then (1000000, e + 1) else (r, e) in
  minus m +:+ digits (r / 1000000) +:+ "." +:+ padded 6 (r mod 1000000) +:+
  "e" +:+ (if e <? 0 then "-" else "+") +:+ padded 2 (Z.abs e).

(** [fabs(z - d) <= DBL_EPSILON], that is 2^-52. *)
Definition near_int (z : Z) (d : Z * nat) : bool := Z.abs (z * pow10 d.2 - d.1) * 2 ^ 52 <=? pow10 d.2.
Definition le_int (d : Z * nat) (z : Z) : bool := d.1 <=? z * pow10 d.2.
Definition ge_int (d : Z * nat) (z : Z) : bool := z * pow10 d.2 <=? d.1.
Definition abs_lt (d : Z * nat) (z : Z) : bool := Z.abs d.1 <? z * pow10 d.2.

Definition JSON_number_value_get (d : Z * nat) : string :=
  if d.1 =? 0 then text_d 0
  else if near_int (valueint d) d && le_int d INT_MAX && ge_int d INT_MIN then text_d (valueint d)
  else if near_int (d.1 / pow10 d.2) d && abs_lt d (10 ^ 60) then text_f0 d
  else if (Z.abs d.1 * 1000000 <? pow10 d.2) || (1000000000 * pow10 d.2 <? Z.abs d.1) then text_e d
  else text_f d.

(** * The value of a key

    With a buffer of [iValueLen] bytes and without a place for arrays and
    objects: an error, a null, which leaves the buffer as it is, or a text and
    the number of bytes written: [snprintf] writes the text and its end,
    [strncpy] always fills the buffer, and does not terminate a text of
    [iValueLen] bytes or more. *)
Inductive jval : Type :=
| JErr
| JKeep
| JText (s : string) (written : nat).

Definition printed (iValueLen : nat) (s : string) : jval :=
  let s := str_take (iValueLen - 1) s in JText s (S (String.length s)).

Definition JSON_value_get (pcKey : string) (iValueLen : nat) (pstData : json) : jval :=
  match cJSON_GetObjectItem pstData pcKey with
  | None => JErr
  | Some JFalse => printed iValueLen "0"
  | Some JTrue => printed iValueLen "1"
  | Some JNull => JKeep
  | Some (JNumber d) => printed iValueLen (JSON_number_value_get d)
  | Some (JString s) => JText (str_take iValueLen s) iValueLen
  | Some (JArray _) | Some (JObject _) => JErr
  end.

(** Without a buffer, for an array. *)
Definition JSON_array_get (pcKey : string) (pstData : json) : option (list json) :=
  match cJSON_GetObjectItem pstData pcKey with
  | Some (JArray l) => Some l
  | _ => None
  end.

(** The text in a buffer of [iValueLen] bytes that held [old], unterminated if
    it has that many; [None]: error. *)
Definition value_text (pcKey : string) (iValueLen : nat) (old : string) (pstData : json) : option string :=
  match JSON_value_get pcKey iValueLen pstData with
  | JErr => None
  | JKeep => Some old
  | JText s _ => Some s
  end.

(** * Building: every allocation may fail *)

Definition cJSON_CreateObject : L (option json) :=
  ok ← reserve; mret (if (ok : bool) then Some (JObject []) else None).
Definition cJSON_CreateArray : L (option (list json)) :=
  ok ← reserve; mret (if (ok : bool) then Some [] else None).

Definition add_item (object : json) (name : option string) (item : json) : json :=
  match object with JObject fs => JObject (fs ++ [(name, item)]) | j => j end.

(** An item, its text, the copy of its name; an item that could not be made is
    written to all the same. *)
Definition cJSON_AddStringToObject (object : json) (name s : string) : L json :=
  item ← reserve;
  if negb item then fail NullDeref else
  text ← reserve;
  if negb text then fail NullDeref else
  copy ← reserve;
  mret (add_item object (if (copy : bool) then Some name else None) (JString s)).

Fixpoint add_strings (object : json) (fs : list (string * string)) : L json :=
  match fs with
  | [] => mret object
  | (name, s) :: fs => object ← cJSON_AddStringToObject object name s; add_strings object fs
  end.

(** A copy of an item with its name; [None]: no memory. *)
Definition copy_name (name : option string) : L bool :=
  match name with None => mret true | Some _ => reserve end.
Fixpoint cJSON_Duplicate (name : option string) (item : json) : L (option json) :=
  ok ← reserve;
  if negb ok then mret None else
  text ← match item with JString _ => reserve | _ => mret true end;
  if negb text then mret None else
  named ← copy_name name;
  if negb named then mret None else
  match item with
  | JArray l =>
      l' ← (fix go (l : list json) : L (option (list json)) :=
        match l with
        | [] => mret (Some [])
        | j :: l =>
            j' ← cJSON_Duplicate None j;
            match j' with
            | None => mret None
            | Some j' => l' ← go l; mret (cons j' <$> l')
            end
        end) l;
      mret (JArray <$> l')
  | JObject fs =>
      fs' ← (fix go (fs : list (option string * json)) : L (option (list (option string * json))) :=
        match fs with
        | [] => mret (Some [])
        | (n, j) :: fs =>
            j' ← cJSON_Duplicate n j;
            match j' with
            | None => mret None
            | Some j' => fs' ← go fs; mret (cons (n, j') <$> fs')
            end
        end) fs;
      mret (JObject <$> fs')
  | j => mret (Some j)
  end.

(** * Examples *)

Example number_int : JSON_number_value_get (420, 1%nat) = "42".
Proof. vm_compute. reflexivity. Qed.
Example number_frac : JSON_number_value_get (-215, 1%nat) = "-21.500000".
Proof. vm_compute. reflexivity. Qed.
Example number_large : JSON_number_value_get (3000000000, 0%nat) = "3000000000".
Proof. vm_compute. reflexivity. Qed.
Example number_tiny : JSON_number_value_get (15, 8%nat) = "1.500000e-07".
Proof. vm_compute. reflexivity. Qed.
