(* ===== verification/JsonText.v ===== *)
(** JSON texts (hytoolsdk/src/cjson/cjson.c): the parser, the two printers and
    the removal of blanks.  Memory is taken for granted; a position in the text
    is what is left of it, where the end of the text stands for its NUL. *)
From stdpp Require Import gmap strings pretty.
From Stdlib Require Import Ascii.
From S2P Require Import Prelude CString Json.

Definition CJSON_NESTING_LIMIT : nat := 1000.
Definition chr (z : Z) : ascii := ascii_of_N (Z.to_N z).
Definition is_chr (z : Z) (c : ascii) : bool := char_code c =? z.

Definition Quote : ascii := chr 34.
Definition Backslash : ascii := chr 92.

Fixpoint str_drop (n : nat) (s : string) : string :=
  match n, s with S n, String _ s => str_drop n s | _, _ => s end.

(** * Strings *)

Definition hex_digit (c : ascii) : option Z :=
  let z := char_code c in
  if (48 <=? z) && (z <=? 57) then Some (z - 48)
  else if (65 <=? z) && (z <=? 70) then Some (10 + z - 65)
  else if (97 <=? z) && (z <=? 102) then Some (10 + z - 97)
  else None.
(** Anything that is not hexadecimal counts as 0. *)
Definition parse_hex4 (a b c d : ascii) : Z :=
  match hex_digit a, hex_digit b, hex_digit c, hex_digit d with
  | Some a, Some b, Some c, Some d => Z.shiftl (Z.shiftl (Z.shiftl a 4 + b) 4 + c) 4 + d
  | _, _, _, _ => 0
  end.

(** [n] bytes 10xxxxxx, the last ones of the code point, before [acc]; and the
    first byte. *)
Fixpoint utf8_tail (n : nat) (codepoint : Z) (acc : string) : Z * string :=
  match n with
  | O => (codepoint, acc)
  | S n => utf8_tail n (Z.shiftr codepoint 6) (String (chr (Z.land (Z.lor codepoint 0x80) 0xBF)) acc)
  end.
Definition utf8_bytes (n : nat) (first_byte_mark codepoint : Z) : string :=
  let '(codepoint, s) := utf8_tail n codepoint "" in
  String (chr (Z.land (Z.lor codepoint first_byte_mark) 0xFF)) s.
Definition utf8_of (codepoint : Z) : option string :=
  if codepoint <? 0x80 then Some (String (chr (Z.land codepoint 0x7F)) "")
  else if codepoint <? 0x800 then Some (utf8_bytes 1 0xC0 codepoint)
  else if codepoint <? 0x10000 then Some (utf8_bytes 2 0xE0 codepoint)
  else if codepoint <=? 0x10FFFF then Some (utf8_bytes 3 0xF0 codepoint)
  else None.

(** The bytes of the literal at the head of [s], and its length. *)
Definition utf16_literal_to_utf8 (s : string) : option (string * nat) :=
  match s with
  | String _ (String _ (String a (String b (String c (String d s))))) =>
      let first_code := parse_hex4 a b c d in
      if (0xDC00 <=? first_code) && (first_code <=? 0xDFFF) then None
      else if (0xD800 <=? first_code) && (first_code <=? 0xDBFF) then
        match s with
        | String e (String f (String g (String h (String i (String j _))))) =>
            if negb (is_chr 92 e && is_chr 117 f) then None else
            let second_code := parse_hex4 g h i j in
            if (second_code <? 0xDC00) || (0xDFFF <? second_code) then None else
            bs ← utf8_of (0x10000 + Z.lor (Z.shiftl (Z.land first_code 0x3FF) 10) (Z.land second_code 0x3FF));
            Some (bs, 12%nat)
        | _ => None
        end
      else bs ← utf8_of first_code; Some (bs, 6%nat)
  | _ => None
  end.

(** The literal up to its closing quote, and what follows it. *)
Fixpoint string_end (s : string) : option (string * string) :=
  match s with
  | EmptyString => None
  | String c s =>
      if is_chr 34 c then Some ("", s)
      else if is_chr 92 c then
        match s with
        | EmptyString => None
        | String e s => '(raw, rest) ← string_end s; Some (String c (String e raw), rest)
        end
      else '(raw, rest) ← string_end s; Some (String c raw, rest)
  end.

(** The text of the literal; [skip] characters of an escape are still to come.
    A literal does not end in a lone backslash. *)
Fixpoint unescape (skip : nat) (s : string) : option string :=
  match s with
  | EmptyString => Some ""
  | String c s' =>
      match skip with
      | S skip => unescape skip s'
      | O =>
          if negb (is_chr 92 c) then out ← unescape 0 s'; Some (String c out)
          else
            match s' with
            | EmptyString => None
            | String e _ =>
                let one z := out ← unescape 1 s'; Some (String (chr z) out) in
                if is_chr 98 e then one 8
                else if is_chr 102 e then one 12
                else if is_chr 110 e then one 10
                else if is_chr 114 e then one 13
                else if is_chr 116 e then one 9
                else if is_chr 34 e || is_chr 92 e || is_chr 47 e then one (char_code e)
                else if is_chr 117 e then
                  '(bs, sequence_length) ← utf16_literal_to_utf8 s;
                  out ← unescape (sequence_length - 1) s';
                  Some (bs +:+ out)
                else None
            end
      end
  end.

(** A C string ends at its first NUL. *)
Fixpoint c_str (s : string) : string :=
  match s with
  | EmptyString => ""
  | String c s => if is_chr 0 c then "" else String c (c_str s)
  end.

Definition parse_string (s : string) : option (string * string) :=
  match s with
  | String q body =>
      if negb (is_chr 34 q) then None else
      '(raw, rest) ← string_end body;
      out ← unescape 0 raw;
      Some (c_str out, rest)
  | EmptyString => None
  end.

(** * Numbers *)

(** [strtod]: the exact value of a decimal number with a fraction and an
    exponent, and the rest. *)
Definition scale (v : Z) (k : nat) (e : Z) : Z * nat :=
  if Z.of_nat k <=? e then (v * 10 ^ (e - Z.of_nat k), 0%nat) else (v, Z.to_nat (Z.of_nat k - e)).
Definition strtod (s : string) : option (Z * nat * string) :=
  let '(sg, s) := read_sign s in
  let '(v, n, s) := read_digits s 0 0 in
  let '(v, k, s) := match s with
                    | String c s' => if is_chr 46 c then read_digits s' v 0 else (v, 0%nat, s)
                    | EmptyString => (v, 0%nat, s)
                    end in
  if (n + k =? 0)%nat then None else
  let none := Some (scale (sg * v) k 0, s) in
  match s with
  | String c s' =>
      if is_chr 101 c || is_chr 69 c then
        let '(sg', s') := read_sign s' in
        let '(e, m, s') := read_digits s' 0 0 in
        if (m =? 0)%nat then none else Some (scale (sg * v) k (sg' * e), s')
      else none
  | EmptyString => none
  end.

Definition number_char (c : ascii) : bool :=
  is_digit c || is_chr 43 c || is_chr 45 c || is_chr 101 c || is_chr 69 c || is_chr 46 c.
(** The characters copied for [strtod], at most [n], and the rest. *)
Fixpoint number_string (n : nat) (s : string) : string * string :=
  match n, s with
  | S n, String c s' =>
      if number_char c then let '(t, rest) := number_string n s' in (String c t, rest) else ("", s)
  | _, _ => ("", s)
  end.
Definition parse_number (s : string) : option (Z * nat * string) :=
  let '(number_c_string, rest) := number_string 63 s in
  '(d, after_end) ← strtod number_c_string;
  Some (d, after_end +:+ rest).

(** * Values *)

Fixpoint buffer_skip_whitespace (s : string) : string :=
  match s with
  | EmptyString => ""
  | String c s' => if char_code c <=? 32 then buffer_skip_whitespace s' else s
  end.

(** [Some None]: the text is refused; [None]: the fuel is used up. *)
Definition parsed (A : Type) : Type := option (option (A * string)).
Definition refused {A} : parsed A := Some None.
Definition then_ {A B} (p : parsed A) (k : A -> string -> parsed B) : parsed B :=
  match p with None => None | Some None => refused | Some (Some (a, s)) => k a s end.
Definition lift_ {A B} (o : option (A * string)) (f : A -> B) : parsed B :=
  Some (o ≫= fun '(a, s) => Some (f a, s)).

Fixpoint parse_value (fuel : nat) (depth : nat) (s : string) : parsed json :=
  match fuel with
  | O => None
  | S fuel =>
      if starts_with "null" s then Some (Some (JNull, str_drop 4 s))
      else if starts_with "false" s then Some (Some (JFalse, str_drop 5 s))
      else if starts_with "true" s then Some (Some (JTrue, str_drop 4 s))
      else
        match s with
        | EmptyString => refused
        | String c s' =>
            if is_chr 34 c then lift_ (parse_string s) JString
            else if is_chr 45 c || is_digit c then lift_ (parse_number s) JNumber
            else if is_chr 91 c then parse_array fuel depth s'
            else if is_chr 123 c then parse_object fuel depth s'
            else refused
        end
  end
(** After the bracket. *)
with parse_array (fuel : nat) (depth : nat) (s : string) : parsed json :=
  match fuel with
  | O => None
  | S fuel =>
      if (CJSON_NESTING_LIMIT <=? depth)%nat then refused else
      let s := buffer_skip_whitespace s in
      match s with
      | String c s' =>
          if is_chr 93 c then Some (Some (JArray [], s'))
          else then_ (parse_elements fuel (S depth) s) (fun l s => Some (Some (JArray l, s)))
      | EmptyString => then_ (parse_elements fuel (S depth) s) (fun l s => Some (Some (JArray l, s)))
      end
  end
with parse_elements (fuel : nat) (depth : nat) (s : string) : parsed (list json) :=
  match fuel with
  | O => None
  | S fuel =>
      then_ (parse_value fuel depth (buffer_skip_whitespace s)) (fun j s =>
      match buffer_skip_whitespace s with
      | String c s' =>
          if is_chr 44 c then then_ (parse_elements fuel depth s') (fun l s => Some (Some (j :: l, s)))
          else if is_chr 93 c then Some (Some ([j], s'))
          else refused
      | EmptyString => refused
      end)
  end
with parse_object (fuel : nat) (depth : nat) (s : string) : parsed json :=
  match fuel with
  | O => None
  | S fuel =>
      if (CJSON_NESTING_LIMIT <=? depth)%nat then refused else
      let s := buffer_skip_whitespace s in
      match s with
      | String c s' =>
          if is_chr 125 c then Some (Some (JObject [], s'))
          else then_ (parse_members fuel (S depth) s) (fun l s => Some (Some (JObject l, s)))
      | EmptyString => then_ (parse_members fuel (S depth) s) (fun l s => Some (Some (JObject l, s)))
      end
  end
with parse_members (fuel : nat) (depth : nat) (s : string) : parsed (list (option string * json)) :=
  match fuel with
  | O => None
  | S fuel =>
      match parse_string (buffer_skip_whitespace s) with
      | None => refused
      | Some (name, s) =>
          match buffer_skip_whitespace s with
          | String c s =>
              if negb (is_chr 58 c) then refused else
              then_ (parse_value fuel depth (buffer_skip_whitespace s)) (fun j s =>
              match buffer_skip_whitespace s with
              | String c s' =>
                  if is_chr 44 c then then_ (parse_members fuel depth s') (fun l s => Some (Some ((Some name, j) :: l, s)))
                  else if is_chr 125 c then Some (Some ([(Some name, j)], s'))
                  else refused
              | EmptyString => refused
              end)
          | EmptyString => refused
          end
      end
  end.

(** What follows the value is ignored. *)
Definition parse_fuel (s : string) : nat := S (3 * String.length s).
Definition cJSON_Parse (value : string) : option json :=
  match parse_value (parse_fuel value) 0 (buffer_skip_whitespace value) with
  | Some (Some (j, _)) => Some j
  | _ => None
  end.

(** * Printing *)

Definition hex_char (z : Z) : ascii := chr (if z <? 10 then 48 + z else 87 + z).
(** ["u%04x"] of a byte below 32. *)
Definition u04x (z : Z) : string :=
  String (chr 117) (String (chr 48) (String (chr 48) (String (hex_char (z / 16)) (String (hex_char (z mod 16)) "")))).

Definition escape_char (c : ascii) : string :=
  if (31 <? char_code c) && negb (is_chr 34 c) && negb (is_chr 92 c) then String c ""
  else String Backslash (
    if is_chr 92 c then String (chr 92) ""
    else if is_chr 34 c then String (chr 34) ""
    else if is_chr 8 c then String (chr 98) ""
    else if is_chr 12 c then String (chr 102) ""
    else if is_chr 10 c then String (chr 110) ""
    else if is_chr 13 c then String (chr 114) ""
    else if is_chr 9 c then String (chr 116) ""
    else u04x (char_code c)).
Fixpoint escape (s : string) : string :=
  match s with EmptyString => "" | String c s => escape_char c +:+ escape s end.

(** NULL is printed as the empty string. *)
Definition print_string_ptr (input : option string) : string :=
  String Quote (match input with None => "" | Some s => escape s end +:+ String Quote "").

(** ["%1.<P>g"]: [P] significant digits without the zeros at the end, as a
    number with [X + 1] digits before the point if [-4 <= X < P], or with an
    exponent. *)
Fixpoint strip_zeros (s : string) : string :=
  match s with
  | EmptyString => ""
  | String c s =>
      match strip_zeros s with
      | EmptyString => if is_chr 48 c then "" else String c ""
      | t => String c t
      end
  end.
Definition with_fraction (int_part frac : string) : string :=
  match strip_zeros frac with EmptyString => int_part | f => int_part +:+ String (chr 46) f end.

Definition text_g (P : Z) (d : Z * nat) : string :=
  let '(m, k) := d in
  if m =? 0 then "0" else
  let X := Z.of_nat (String.length (digits (Z.abs m))) - 1 - Z.of_nat k in
  let r := if X <=? P - 1 then round_even (Z.abs m * 10 ^ (P - 1 - X)) (pow10 k)
           else round_even (Z.abs m) (pow10 k * 10 ^ (X - (P - 1))) in
  let '(r, X) := if r =? 10 ^ P then (10 ^ (P - 1), X + 1) else (r, X) in
  minus m +:+
  (if (-4 <=? X) && (X <? P) then
     let p := 10 ^ (P - 1 - X) in with_fraction (digits (r / p)) (padded (Z.to_nat (P - 1 - X)) (r mod p))
   else
     let p := 10 ^ (P - 1) in
     with_fraction (digits (r / p)) (padded (Z.to_nat (P - 1)) (r mod p)) +:+
     String (chr 101) ((if X <? 0 then "-" else "+") +:+ padded 2 (Z.abs X))).

Definition same_number (d e : Z * nat) : bool := d.1 * pow10 e.2 =? e.1 * pow10 d.2.
(** 15 digits, or 17 if reading these does not give the number. *)
Definition print_number (d : Z * nat) : string :=
  let s := text_g 15 d in
  match strtod s with
  | Some (test, _) => if same_number test d then s else text_g 17 d
  | None => text_g 17 d
  end.

Fixpoint tabs (n : nat) : string := match n with O => "" | S n => String (chr 9) (tabs n) end.
Definition when (b : bool) (s : string) : string := if b then s else "".
Definition Newline : string := String (chr 10) "".
Definition Tab : string := String (chr 9) "".

(** The elements of an array, and the members of an object at [depth]. *)
Definition print_elements (format : bool) (print : json -> string) : list json -> string :=
  fix go l :=
    match l with
    | [] => ""
    | j :: l => print j +:+ match l with [] => "" | _ => "," +:+ when format " " +:+ go l end
    end.
Definition print_members (format : bool) (depth : nat) (print : json -> string) : list (option string * json) -> string :=
  fix go fs :=
    match fs with
    | [] => ""
    | (name, j) :: fs =>
        when format (tabs depth) +:+ print_string_ptr name +:+ ":" +:+ when format Tab +:+
        print j +:+ match fs with [] => "" | _ => "," end +:+ when format Newline +:+ go fs
    end.

(** [depth]: the nesting, of which only objects show. *)
Fixpoint print_value (format : bool) (depth : nat) (item : json) : string :=
  match item with
  | JNull => "null"
  | JFalse => "false"
  | JTrue => "true"
  | JNumber d => print_number d
  | JString s => print_string_ptr (Some s)
  | JArray l =>
      String (chr 91) (print_elements format (print_value format (S depth)) l +:+ String (chr 93) "")
  | JObject fs =>
      String (chr 123) (when format Newline +:+ print_members format (S depth) (print_value format (S depth)) fs +:+
                        when format (tabs depth) +:+ String (chr 125) "")
  end.

Definition cJSON_Print (item : json) : string := print_value true 0 item.
Definition cJSON_PrintUnformatted (item : json) : string := print_value false 0 item.

(** * Removing blanks

    In place.  A string or a comment that does not end takes the walk past the
    end of the text: [None]. *)
Inductive place : Type := Outside | Inside | Line | Block.

Fixpoint minify (p : place) (s : string) : option string :=
  match s with
  | EmptyString => match p with Outside | Line => Some "" | Inside | Block => None end
  | String c s' =>
      match p with
      | Outside =>
          if is_chr 32 c || is_chr 9 c || is_chr 13 c || is_chr 10 c then minify Outside s'
          else if is_chr 34 c then String c <$> minify Inside s'
          else if is_chr 47 c then
            match s' with
            | String e _ => if is_chr 47 e then minify Line s' else if is_chr 42 e then minify Block s'
                            else String c <$> minify Outside s'
            | EmptyString => String c <$> minify Outside s'
            end
          else String c <$> minify Outside s'
      | Line => if is_chr 10 c then minify Outside s' else minify Line s'
      | Block =>
          match s' with
          | String e s'' => if is_chr 42 c && is_chr 47 e then minify Outside s'' else minify Block s'
          | EmptyString => minify Block s'
          end
      | Inside =>
          if is_chr 34 c then String c <$> minify Outside s'
          else if is_chr 92 c then
            match s' with
            | String e s'' => (fun t => String c (String e t)) <$> minify Inside s''
            | EmptyString => None
            end
          else String c <$> minify Inside s'
      end
  end.
Definition cJSON_Minify (json : string) : option string := minify Outside json.

(** * Examples *)

Definition quoted (s : string) : string := String Quote (s +:+ String Quote "").
Example parse_example : cJSON_Parse (" {" +:+ quoted "a" +:+ " : [1, -2.5e1, " +:+ quoted "x\u0041\n" +:+ "] } ") =
  Some (JObject [(Some "a"%string, JArray [JNumber (1, 0%nat); JNumber (-25, 0%nat); JString (("xA" : string) +:+ Newline)])]).
Proof. vm_compute. reflexivity. Qed.
Example parse_surrogates : cJSON_Parse (quoted "\ud83d\ude00") =
  Some (JString (String (chr 240) (String (chr 159) (String (chr 152) (String (chr 128) ""))))).
Proof. vm_compute. reflexivity. Qed.
Example print_example : cJSON_Print (JArray [JNumber (215, 1%nat); JNumber (1, 7%nat); JNumber (10 ^ 20, 0%nat); JObject []]) =
  ("[21.5, 1e-07, 1e+20, {" +:+ Newline +:+ Tab +:+ "}]")%string.
Proof. vm_compute. reflexivity. Qed.
Example minify_comment : cJSON_Minify "[1, // one
2 /* two */ ]" = Some "[1,2]"%string.
Proof. vm_compute. reflexivity. Qed.
Example minify_overrun : cJSON_Minify "[1] /*" = None.
Proof. vm_compute. reflexivity. Qed.
