(* ===== verification/JsonProps.v ===== *)
(** The parser always ends, what is printed is parsed again, and removing the
    blanks of the formatted text gives the unformatted one. *)
From stdpp Require Import gmap strings pretty.
From Stdlib Require Import Ascii.
From S2P Require Import Prelude CString Json JsonText.

(** * Induction over values *)

Section json_induction.
Context (P : json -> Prop).
Context (Pfalse : P JFalse) (Ptrue : P JTrue) (Pnull : P JNull) (Pnumber : forall d, P (JNumber d)) (Pstring : forall s, P (JString s)).
Context (Parray : forall l, Forall P l -> P (JArray l)) (Pobject : forall fs, Forall (fun f => P f.2) fs -> P (JObject fs)).

Fixpoint json_ind' (j : json) : P j :=
  match j with
  | JFalse => Pfalse
  | JTrue => Ptrue
  | JNull => Pnull
  | JNumber d => Pnumber d
  | JString s => Pstring s
  | JArray l => Parray l ((fix go l : Forall P l := match l with [] => Forall_nil_2 _ | j :: l => Forall_cons_2 _ _ _ (json_ind' j) (go l) end) l)
  | JObject fs => Pobject fs ((fix go fs : Forall (fun f => P f.2) fs :=
      match fs with [] => Forall_nil_2 _ | f :: fs => Forall_cons_2 _ _ _ (json_ind' f.2) (go fs) end) fs)
  end.
End json_induction.

(** * Strings *)

Lemma app_cons c (a b : string) : (String c a +:+ b)%string = String c (a +:+ b).
Proof. reflexivity. Qed.
Lemma nil_app (b : string) : ("" +:+ b)%string = b.
Proof. reflexivity. Qed.
Lemma app_nil_s (s : string) : (s +:+ "")%string = s.
Proof. induction s as [|c s IH]; [done|]. by rewrite app_cons, IH. Qed.
Lemma app_assoc_s (a b c : string) : ((a +:+ b) +:+ c = a +:+ (b +:+ c))%string.
Proof. induction a as [|x a IH]; [done|]. by rewrite !app_cons, IH. Qed.
Lemma length_app_s (a b : string) : String.length (a +:+ b) = (String.length a + String.length b)%nat.
Proof. induction a as [|x a IH]; [done|]. rewrite app_cons. cbn. by rewrite IH. Qed.

Fixpoint all_chars (P : ascii -> bool) (s : string) : bool :=
  match s with EmptyString => true | String c s => P c && all_chars P s end.

Lemma all_chars_app P a b : all_chars P (a +:+ b) = all_chars P a && all_chars P b.
Proof. induction a as [|c a IH]; [done|]. rewrite app_cons. cbn. by rewrite IH, andb_assoc. Qed.
Lemma all_chars_weaken (P Q : ascii -> bool) s : (forall c, P c = true -> Q c = true) -> all_chars P s = true -> all_chars Q s = true.
Proof. intros HPQ. induction s as [|c s IH]; [done|]. cbn. rewrite !andb_true_iff. intros [? ?]. auto. Qed.

(** ** Digits *)

Lemma is_digit_pretty (x : N) : (x < 10)%N -> is_digit (pretty_N_char x) = true.
Proof. intros Hx. assert (x = 0 \/ x = 1 \/ x = 2 \/ x = 3 \/ x = 4 \/ x = 5 \/ x = 6 \/ x = 7 \/ x = 8 \/ x = 9)%N by lia. destruct_or!; by subst. Qed.
Lemma digit_pretty (x : N) : (x < 10)%N -> char_code (pretty_N_char x) - 48 = Z.of_N x.
Proof. intros Hx. assert (x = 0 \/ x = 1 \/ x = 2 \/ x = 3 \/ x = 4 \/ x = 5 \/ x = 6 \/ x = 7 \/ x = 8 \/ x = 9)%N by lia. destruct_or!; by subst. Qed.

Lemma pretty_go_digits (x : N) : forall s, all_chars is_digit s = true -> all_chars is_digit (pretty_N_go x s) = true.
Proof.
  induction (N.lt_wf_0 x) as [x _ IH]. intros s Hs. destruct (decide (x = 0)%N) as [->|Hx]; [by rewrite pretty_N_go_0|].
  rewrite pretty_N_go_step by lia. apply IH; [apply N.div_lt; lia|]. cbn [all_chars].
  rewrite is_digit_pretty, Hs; [done|]. by apply N.mod_lt.
Qed.

(** Reading the digits of [x], then [s], is reading [s] after [x]. *)
Lemma read_pretty_go (x : N) : forall s n, exists k, read_digits (pretty_N_go x s) 0 n = read_digits s (Z.of_N x) (n + k) /\
  String.length (pretty_N_go x s) = (k + String.length s)%nat /\ (x = 0%N /\ k = 0%nat \/ (0 < k)%nat /\ 10 ^ (Z.of_nat k - 1) <= Z.of_N x < 10 ^ Z.of_nat k).
Proof.
  induction (N.lt_wf_0 x) as [x _ IH]. intros s n. destruct (decide (x = 0)%N) as [->|Hx].
  - exists 0%nat. rewrite pretty_N_go_0, Nat.add_0_r. split_and!; [done|done|by left].
  - rewrite pretty_N_go_step by lia. assert (Hlt : (x `div` 10 < x)%N) by (apply N.div_lt; lia).
    assert (Hm : (x `mod` 10 < 10)%N) by by apply N.mod_lt.
    destruct (IH _ Hlt (String (pretty_N_char (x `mod` 10)) s) n) as (k & Hr & Hl & Hk). exists (S k).
    rewrite Hr, Hl. cbn [read_digits String.length]. rewrite is_digit_pretty, digit_pretty by done.
    assert (HX : Z.of_N (x `div` 10) * 10 + Z.of_N (x `mod` 10) = Z.of_N x).
    { rewrite N2Z.inj_div, N2Z.inj_mod. pose proof (Z.div_mod (Z.of_N x) (Z.of_N 10)). lia. }
    assert (Hr10 : 0 <= Z.of_N (x `mod` 10) < 10) by (split; [apply N2Z.is_nonneg|]; change 10 with (Z.of_N 10); by apply N2Z.inj_lt).
    rewrite HX, Nat.add_succ_r. split_and!; [done|lia|right]. split; [lia|]. rewrite Nat2Z.inj_succ, Z.pow_succ_r by lia.
    destruct Hk as [[H0 ->]|[Hk0 Hk]].
    + rewrite H0 in HX. change (10 ^ (Z.succ (Z.of_nat 0) - 1)) with 1. change (10 * 10 ^ Z.of_nat 0) with 10. clear -HX Hr10 Hx.
      generalize dependent (Z.of_N (x `mod` 10)). intros r Hr Hr10. lia.
    + replace (Z.succ (Z.of_nat k) - 1) with (Z.succ (Z.of_nat k - 1)) by lia. rewrite Z.pow_succ_r by lia.
      generalize dependent (Z.of_N (x `div` 10)). generalize dependent (Z.of_N (x `mod` 10)). lia.
Qed.

Lemma digits_zero : digits 0 = "0"%string.
Proof. reflexivity. Qed.
Lemma digits_pos z : 0 < z -> digits z = pretty_N_go (Z.to_N z) "".
Proof. intros Hz. unfold digits. destruct z as [|p|p]; [lia| |lia]. reflexivity. Qed.

Lemma all_digits z : 0 <= z -> all_chars is_digit (digits z) = true.
Proof. intros Hz. destruct (decide (z = 0)) as [->|?]; [done|]. rewrite digits_pos by lia. by apply pretty_go_digits. Qed.

Lemma pretty_go_app (x : N) : forall s, pretty_N_go x s = (pretty_N_go x "" +:+ s)%string.
Proof.
  induction (N.lt_wf_0 x) as [x _ IH]. intros s. destruct (decide (x = 0)%N) as [->|Hx]; [by rewrite !pretty_N_go_0|].
  rewrite !(pretty_N_go_step x) by lia. assert (Hlt : (x `div` 10 < x)%N) by (apply N.div_lt; lia).
  rewrite (IH _ Hlt (String _ s)), (IH _ Hlt (String _ "")), app_assoc_s. done.
Qed.

Definition no_digit (rest : string) : bool := match rest with EmptyString => true | String c _ => negb (is_digit c) end.
Lemma read_stop rest v n : no_digit rest = true -> read_digits rest v n = (v, n, rest).
Proof. destruct rest as [|c rest]; [done|]. cbn. by destruct (is_digit c). Qed.

(** What the digits of a number are read as, and how many they are. *)
Lemma read_digits_digits z rest : 0 <= z -> no_digit rest = true ->
  read_digits (digits z +:+ rest) 0 0 = (z, String.length (digits z), rest).
Proof.
  intros Hz Hr. destruct (decide (z = 0)) as [->|?]; [by apply (read_stop rest 0 1)|].
  rewrite digits_pos, <- pretty_go_app by lia.
  destruct (read_pretty_go (Z.to_N z) rest 0) as (k & -> & Hl & _). rewrite read_stop by done.
  rewrite pretty_go_app, length_app_s in Hl. repeat f_equal; lia.
Qed.
Lemma digits_length z : 0 < z -> let n := Z.of_nat (String.length (digits z)) in 0 < n /\ 10 ^ (n - 1) <= z < 10 ^ n.
Proof.
  intros Hz. cbv zeta. rewrite digits_pos by lia. destruct (read_pretty_go (Z.to_N z) "" 0) as (k & _ & -> & Hk).
  rewrite Nat.add_0_r. destruct Hk as [[H0 _]|[Hk H]]; [lia|]. rewrite Z2N.id in H by lia. lia.
Qed.

Lemma zeros_strip n : strip_zeros (zeros n) = ""%string.
Proof. induction n as [|n IH]; [done|]. change (zeros (S n)) with (String "048" (zeros n)). cbn [strip_zeros]. by rewrite IH. Qed.
Lemma padded_zero n : strip_zeros (padded n 0) = ""%string.
Proof.
  unfold padded. rewrite digits_zero. destruct n as [|n]; [done|]. cbn [String.length Nat.sub]. rewrite Nat.sub_0_r.
  replace (zeros n +:+ "0")%string with (zeros (S n)); [apply zeros_strip|].
  induction n as [|n IH]; [done|]. change (zeros (S n) +:+ "0")%string with (String "048" (zeros n +:+ "0")). by rewrite <- IH.
Qed.

Lemma round_even_1 a : round_even a 1 = a.
Proof. unfold round_even. rewrite Z.mod_1_r, Z.div_1_r. done. Qed.

(** Whole numbers of up to 15 digits are printed as they are. *)
Definition whole (m : Z) : Prop := Z.abs m < 10 ^ 15.

Lemma text_g_whole m : whole m -> text_g 15 (m, 0%nat) = text_d m.
Proof.
  intros Hm. unfold text_g. destruct (Z.eqb_spec m 0) as [->|Hm0]; [done|].
  destruct (digits_length (Z.abs m)) as (Hn & Hlo & Hhi); [lia|]. cbv zeta in *.
  set (n := Z.of_nat (String.length (digits (Z.abs m)))) in *. rewrite Z.sub_0_r.
  assert (Hn15 : n <= 15).
  { destruct (Z.le_gt_cases n 15); [done|]. unfold whole in Hm.
    pose proof (Z.pow_le_mono_r 10 15 (n - 1)). lia. }
  destruct (Z.leb_spec (n - 1) (15 - 1)); [|lia]. change (pow10 0) with 1. rewrite round_even_1.
  replace (15 - 1 - (n - 1)) with (15 - n) by lia.
  assert (Hp : 10 ^ n * 10 ^ (15 - n) = 10 ^ 15) by (rewrite <- Z.pow_add_r by lia; f_equal; lia).
  assert (Hq : 0 < 10 ^ (15 - n)) by (apply Z.pow_pos_nonneg; lia).
  destruct (Z.eqb_spec (Z.abs m * 10 ^ (15 - n)) (10 ^ 15)) as [He|_].
  { rewrite <- Hp in He. apply Z.mul_reg_r in He; lia. }
  destruct (Z.leb_spec (-4) (n - 1)); [|lia]. destruct (Z.ltb_spec (n - 1) 15); [|lia]. cbn [andb].
  replace (15 - 1 - (n - 1)) with (15 - n) by lia.
  rewrite Z.div_mul, Z.mod_mul by lia. unfold with_fraction. rewrite padded_zero. done.
Qed.

(** ** Numbers are read back *)

Lemma digits_head z : 0 <= z -> exists c s, digits z = String c s /\ is_digit c = true.
Proof.
  intros Hz. pose proof (all_digits z Hz) as H. destruct (digits z) as [|c s] eqn:E.
  - exfalso. destruct (decide (z = 0)) as [->|Hne]; [done|].
    destruct (digits_length z) as [Hn _]; [lia|]. rewrite E in Hn. cbn in Hn. lia.
  - exists c, s. cbn in H. apply andb_true_iff in H as [H _]. done.
Qed.

Lemma digit_code c : is_digit c = true -> 48 <= char_code c <= 57.
Proof. unfold is_digit. rewrite andb_true_iff, !Z.leb_le. lia. Qed.

Lemma is_digit_not z c : is_digit c = true -> ~ (48 <= z <= 57) -> is_chr z c = false.
Proof. intros Hc Hz. apply digit_code in Hc. unfold is_chr. apply Z.eqb_neq. lia. Qed.

Lemma read_sign_text m s : read_sign (text_d m +:+ s) = (if m <? 0 then -1 else 1, (digits (Z.abs m) +:+ s)%string).
Proof.
  unfold text_d, minus. destruct (Z.ltb_spec m 0); [done|]. rewrite nil_app.
  destruct (digits_head (Z.abs m)) as (c & t & -> & Hc); [lia|]. rewrite app_cons. cbn [read_sign].
  apply digit_code in Hc. destruct (Z.eqb_spec (char_code c) 45); [lia|]. destruct (Z.eqb_spec (char_code c) 43); [lia|]. done.
Qed.

Lemma strtod_text m : strtod (text_d m) = Some (m, 0%nat, ""%string).
Proof.
  unfold strtod. rewrite <- (app_nil_s (text_d m)), read_sign_text.
  rewrite read_digits_digits by (done || lia). destruct (digits_head (Z.abs m)) as (c & t & E & _); [lia|].
  rewrite E. cbn [String.length Nat.add Nat.eqb]. unfold scale. cbn [Z.of_nat Z.leb Z.compare].
  do 3 f_equal. destruct (Z.ltb_spec m 0); change (10 ^ (0 - 0)) with 1; lia.
Qed.

Lemma print_number_whole m : whole m -> print_number (m, 0%nat) = text_d m.
Proof.
  intros Hm. unfold print_number. rewrite text_g_whole, strtod_text by done. unfold same_number. cbn [fst snd].
  by rewrite Z.eqb_refl.
Qed.

Lemma digit_number_char c : is_digit c = true -> number_char c = true.
Proof. unfold number_char. by intros ->. Qed.
Lemma text_number_chars m : all_chars number_char (text_d m) = true.
Proof.
  unfold text_d, minus. rewrite all_chars_app. apply andb_true_iff. split; [by destruct (m <? 0)|].
  eapply all_chars_weaken; [apply digit_number_char|]. apply all_digits. lia.
Qed.

(** The rest does not go on with the number. *)
Definition no_number (rest : string) : bool := match rest with EmptyString => true | String c _ => negb (number_char c) end.

Lemma number_string_app t rest : forall n, all_chars number_char t = true -> (String.length t <= n)%nat -> no_number rest = true ->
  number_string n (t +:+ rest) = (t, rest).
Proof.
  induction t as [|c t IH]; intros n Ht Hn Hr.
  - rewrite nil_app. destruct n as [|n]; [done|]. destruct rest as [|c rest]; [done|]. cbn in *. by destruct (number_char c).
  - destruct n as [|n]; [cbn in Hn; lia|]. rewrite app_cons. cbn in Ht |- *. apply andb_true_iff in Ht as [-> Ht].
    rewrite IH; [done|done|cbn in Hn; lia|done].
Qed.

Lemma text_length m : whole m -> (String.length (text_d m) <= 63)%nat.
Proof.
  intros Hm. unfold text_d. rewrite length_app_s. assert (String.length (minus m) <= 1)%nat by (unfold minus; destruct (m <? 0); cbn; lia).
  destruct (decide (Z.abs m = 0)) as [->|Hne]; [cbn; lia|]. destruct (digits_length (Z.abs m)) as (Hn & Hlo & _); [lia|].
  cbv zeta in *. unfold whole in Hm. destruct (decide (String.length (digits (Z.abs m)) <= 15)%nat); [lia|].
  pose proof (Z.pow_le_mono_r 10 15 (Z.of_nat (String.length (digits (Z.abs m))) - 1)). lia.
Qed.

Lemma parse_number_text m rest : whole m -> no_number rest = true ->
  parse_number (text_d m +:+ rest) = Some (m, 0%nat, rest).
Proof.
  intros Hm Hr. unfold parse_number. rewrite number_string_app by (done || apply text_number_chars || by apply text_length).
  by rewrite strtod_text.
Qed.

(** ** Strings are read back *)

Definition plain_char (c : ascii) : bool := negb (is_chr 34 c) && negb (is_chr 92 c).

(** A character is itself, has an escape of its own, or is written in
    hexadecimal. *)
Lemma escape_cases c :
  (escape_char c = String c "" /\ plain_char c = true /\ 31 < char_code c) \/
  (exists e, escape_char c = String Backslash (String e "") /\
     forall s, unescape 0 (String Backslash (String e s)) = out ← unescape 0 s; Some (String c out)) \/
  (exists a b, escape_char c = String Backslash (String (chr 117) (String (chr 48) (String (chr 48) (String a (String b ""))))) /\
     parse_hex4 (chr 48) (chr 48) a b = char_code c /\ char_code c < 32 /\ plain_char a = true /\ plain_char b = true).
Proof.
  destruct c as [[] [] [] [] [] [] [] []];
    first [left; split_and!; reflexivity
          |right; left; eexists; split; [reflexivity|intros s; reflexivity]
          |right; right; eexists _, _; split_and!; reflexivity].
Qed.

Lemma string_end_plain c s : plain_char c = true -> string_end (String c s) = '(raw, rest) ← string_end s; Some (String c raw, rest).
Proof. unfold plain_char. rewrite andb_true_iff, !negb_true_iff. cbn. by intros [-> ->]. Qed.
Lemma string_end_escape e s : string_end (String Backslash (String e s)) =
  '(raw, rest) ← string_end s; Some (String Backslash (String e raw), rest).
Proof. reflexivity. Qed.

Lemma string_end_char c s : string_end (escape_char c +:+ s) = '(raw, rest) ← string_end s; Some ((escape_char c +:+ raw)%string, rest).
Proof.
  destruct (escape_cases c) as [(-> & Hp & _)|[(e & -> & _)|(a & b & -> & _ & _ & Ha & Hb)]]; rewrite !app_cons, nil_app.
  - by rewrite string_end_plain.
  - by rewrite string_end_escape.
  - rewrite string_end_escape, !string_end_plain by done. by destruct (string_end s) as [[]|].
Qed.

Lemma string_end_text s rest : string_end (escape s +:+ String Quote rest) = Some (escape s, rest).
Proof.
  induction s as [|c s IH]; [reflexivity|]. cbn [escape]. rewrite app_assoc_s, string_end_char, IH. reflexivity.
Qed.

Lemma unescape_plain c s : plain_char c = true -> unescape 0 (String c s) = out ← unescape 0 s; Some (String c out).
Proof. unfold plain_char. rewrite andb_true_iff, !negb_true_iff. cbn [unescape]. by intros [_ ->]. Qed.

Lemma char_code_chr c : chr (char_code c) = c.
Proof. unfold chr, char_code. by rewrite N2Z.id, ascii_N_embedding. Qed.

Lemma unescape_hex a b c s : parse_hex4 (chr 48) (chr 48) a b = char_code c -> char_code c < 32 ->
  unescape 0 (String Backslash (String (chr 117) (String (chr 48) (String (chr 48) (String a (String b s)))))) =
  out ← unescape 0 s; Some (String c out).
Proof.
  intros Hh Hc. assert (0 <= char_code c) by (unfold char_code; lia).
  change (unescape 0 (String Backslash (String (chr 117) (String (chr 48) (String (chr 48) (String a (String b s)))))))
    with ('(bs, n) ← utf16_literal_to_utf8 (String Backslash (String (chr 117) (String (chr 48) (String (chr 48) (String a (String b s))))));
          out ← unescape (n - 1) (String (chr 117) (String (chr 48) (String (chr 48) (String a (String b s))))); Some (bs +:+ out)%string).
  unfold utf16_literal_to_utf8. rewrite Hh.
  destruct (Z.leb_spec 0xDC00 (char_code c)); [lia|]. destruct (Z.leb_spec 0xD800 (char_code c)); [lia|]. cbn [andb].
  unfold utf8_of. destruct (Z.ltb_spec (char_code c) 0x80); [|lia].
  change 0x7F with (Z.ones 7). rewrite Z.land_ones, Z.mod_small by lia. rewrite char_code_chr. reflexivity.
Qed.

Lemma unescape_char c s : unescape 0 (escape_char c +:+ s) = out ← unescape 0 s; Some (String c out).
Proof.
  destruct (escape_cases c) as [(-> & Hp & _)|[(e & -> & He)|(a & b & -> & Hh & Hc & _)]]; rewrite !app_cons, nil_app.
  - by apply unescape_plain.
  - apply He.
  - by apply unescape_hex.
Qed.

Lemma unescape_text s : unescape 0 (escape s) = Some s.
Proof. induction s as [|c s IH]; [done|]. cbn [escape]. by rewrite unescape_char, IH. Qed.

(** A C string has no NUL. *)
Definition no_nul (s : string) : bool := all_chars (fun c => negb (is_chr 0 c)) s.
Lemma c_str_no_nul s : no_nul s = true -> c_str s = s.
Proof.
  unfold no_nul. induction s as [|c s IH]; [done|]. cbn. rewrite andb_true_iff, negb_true_iff. intros [-> Hs]. by rewrite IH.
Qed.

Lemma parse_string_text s rest : no_nul s = true -> parse_string (print_string_ptr (Some s) +:+ rest) = Some (s, rest).
Proof.
  intros Hs. unfold print_string_ptr. rewrite app_cons, app_assoc_s, app_cons, nil_app. unfold parse_string.
  change (negb (is_chr 34 Quote)) with false. cbv iota. rewrite string_end_text. cbn [mbind option_bind].
  rewrite unescape_text. cbn. by rewrite c_str_no_nul.
Qed.

(** * Removing blanks *)

Definition blank (c : ascii) : bool := is_chr 32 c || is_chr 9 c || is_chr 13 c || is_chr 10 c.
Definition kept (c : ascii) : bool := negb (blank c) && negb (is_chr 34 c) && negb (is_chr 47 c).

Lemma minify_blank c s : blank c = true -> minify Outside (String c s) = minify Outside s.
Proof. unfold blank. cbn [minify]. by intros ->. Qed.
Lemma minify_kept c s : kept c = true -> minify Outside (String c s) = String c <$> minify Outside s.
Proof.
  unfold kept, blank. rewrite !andb_true_iff, !negb_true_iff. cbn [minify]. by intros [[-> ->] ->].
Qed.
Lemma fmap_app_s c t (o : option string) : String c <$> ((fun r => t +:+ r)%string <$> o) = (fun r => String c t +:+ r)%string <$> o.
Proof. by destruct o. Qed.
Lemma minify_all_kept t s : all_chars kept t = true -> minify Outside (t +:+ s) = (fun r => t +:+ r)%string <$> minify Outside s.
Proof.
  induction t as [|c t IH]; [rewrite nil_app; by destruct (minify Outside s)|]. cbn [all_chars]. rewrite andb_true_iff. intros [Hc Ht].
  by rewrite app_cons, minify_kept, IH, fmap_app_s.
Qed.

Lemma minify_inside_char c s : minify Inside (escape_char c +:+ s) = (fun r => escape_char c +:+ r)%string <$> minify Inside s.
Proof.
  assert (Hp : forall c s, plain_char c = true -> minify Inside (String c s) = String c <$> minify Inside s).
  { intros c' s'. unfold plain_char. rewrite andb_true_iff, !negb_true_iff. cbn [minify]. by intros [-> ->]. }
  destruct (escape_cases c) as [(-> & H & _)|[(e & -> & _)|(a & b & -> & _ & _ & Ha & Hb)]]; rewrite !app_cons, nil_app.
  - by rewrite Hp.
  - reflexivity.
  - change (minify Inside (String Backslash (String (chr 117) (String (chr 48) (String (chr 48) (String a (String b s)))))))
      with ((fun t => String Backslash (String (chr 117) t)) <$> minify Inside (String (chr 48) (String (chr 48) (String a (String b s))))).
    rewrite !Hp by done. by destruct (minify Inside s).
Qed.
Lemma minify_inside_text t s : minify Inside (escape t +:+ String Quote s) = (fun r => escape t +:+ String Quote r)%string <$> minify Outside s.
Proof.
  induction t as [|c t IH]; [done|]. cbn [escape]. rewrite app_assoc_s, minify_inside_char, IH.
  destruct (minify Outside s) as [r|]; [|done]. cbn. by rewrite app_assoc_s.
Qed.
Lemma minify_string n s : minify Outside (print_string_ptr n +:+ s) = (fun r => print_string_ptr n +:+ r)%string <$> minify Outside s.
Proof.
  unfold print_string_ptr. rewrite app_cons.
  change (minify Outside (String Quote ?t)) with (String Quote <$> minify Inside t).
  destruct n as [n|]; rewrite app_assoc_s, app_cons, nil_app.
  - rewrite minify_inside_text. destruct (minify Outside s) as [r|]; [|done]. cbn. by rewrite app_cons, app_assoc_s.
  - rewrite nil_app. change (minify Inside (String Quote s)) with (String Quote <$> minify Outside s).
    by destruct (minify Outside s).
Qed.

(** ** The texts of numbers *)

Lemma digits_number z : all_chars number_char (digits z) = true.
Proof.
  destruct (Z.le_gt_cases 0 z) as [H|H].
  - eapply all_chars_weaken; [apply digit_number_char|by apply all_digits].
  - destruct z as [|p|p]; [lia..|]. change (digits (Z.neg p)) with ("-" +:+ digits (Z.pos p))%string.
    rewrite all_chars_app. apply andb_true_iff. split; [done|]. eapply all_chars_weaken; [apply digit_number_char|by apply all_digits].
Qed.
Lemma zeros_number n : all_chars number_char (zeros n) = true.
Proof. induction n as [|n IH]; [done|]. exact IH. Qed.
Lemma padded_number n z : all_chars number_char (padded n z) = true.
Proof. unfold padded. rewrite all_chars_app. apply andb_true_iff. split; [apply zeros_number|apply digits_number]. Qed.
Lemma strip_number s : all_chars number_char s = true -> all_chars number_char (strip_zeros s) = true.
Proof.
  induction s as [|c s IH]; [done|]. cbn [all_chars strip_zeros]. rewrite andb_true_iff. intros [Hc Hs]. specialize (IH Hs).
  destruct (strip_zeros s) as [|e t]; [destruct (is_chr 48 c); cbn; by rewrite ?Hc|]. cbn [all_chars] in *. by rewrite Hc.
Qed.
Lemma fraction_number i f : all_chars number_char i = true -> all_chars number_char f = true ->
  all_chars number_char (with_fraction i f) = true.
Proof.
  intros Hi Hf. unfold with_fraction. apply strip_number in Hf. destruct (strip_zeros f); [done|].
  rewrite all_chars_app. apply andb_true_iff. by split.
Qed.
Lemma text_g_number P d : all_chars number_char (text_g P d) = true.
Proof.
  destruct d as [m k]. unfold text_g. destruct (m =? 0); [done|]. cbv zeta.
  match goal with |- context [let '(r, X) := ?p in _] => destruct p as [r X] end.
  rewrite all_chars_app. apply andb_true_iff. split; [unfold minus; by destruct (m <? 0)|].
  destruct (_ && _); [apply fraction_number; [apply digits_number|apply padded_number]|].
  rewrite all_chars_app. apply andb_true_iff. split; [apply fraction_number; [apply digits_number|apply padded_number]|].
  cbn [all_chars]. rewrite all_chars_app, padded_number. by destruct (X <? 0).
Qed.
Lemma print_number_chars d : all_chars number_char (print_number d) = true.
Proof.
  unfold print_number. cbv zeta. destruct (strtod _) as [[test s]|]; [|apply text_g_number].
  destruct (same_number test d); apply text_g_number.
Qed.
Lemma number_kept c : number_char c = true -> kept c = true.
Proof.
  unfold number_char, kept, blank, is_digit, is_chr. intros H.
  repeat rewrite orb_true_iff in H. rewrite andb_true_iff, !Z.eqb_eq, !Z.leb_le in H.
  repeat match goal with |- context [?x =? ?y] => destruct (Z.eqb_spec x y); [lia|] end. done.
Qed.

(** ** Values *)

Lemma minify_tabs n s : minify Outside (tabs n +:+ s) = minify Outside s.
Proof. induction n as [|n IH]; [done|]. cbn [tabs]. by rewrite app_cons, minify_blank. Qed.
Lemma minify_tab s : minify Outside (Tab +:+ s) = minify Outside s.
Proof. unfold Tab. by rewrite app_cons, minify_blank. Qed.
Lemma minify_newline s : minify Outside (Newline +:+ s) = minify Outside s.
Proof. unfold Newline. by rewrite app_cons, minify_blank. Qed.

(** Removing the blanks of [t] before anything leaves [u]. *)
Definition minifies (t u : string) : Prop := forall s, minify Outside (t +:+ s) = (fun r => u +:+ r)%string <$> minify Outside s.

Lemma minifies_app t u t' u' : minifies t u -> minifies t' u' -> minifies (t +:+ t') (u +:+ u').
Proof.
  intros H H' s. rewrite app_assoc_s, H, H'. destruct (minify Outside s); [|done]. cbn. by rewrite app_assoc_s.
Qed.
Lemma minifies_kept t : all_chars kept t = true -> minifies t t.
Proof. intros H s. by apply minify_all_kept. Qed.
Lemma minifies_string n : minifies (print_string_ptr n) (print_string_ptr n).
Proof. intros s. apply minify_string. Qed.
Lemma minifies_blank t : (forall s, minify Outside (t +:+ s) = minify Outside s) -> minifies t "".
Proof. intros H s. rewrite H. by destruct (minify Outside s). Qed.

Lemma print_minifies j : forall d d', minifies (print_value true d j) (print_value false d' j).
Proof.
  induction j as [| | |n|t|l IH|fs IH] using json_ind'; intros d d'; cbn [print_value]; try (by apply minifies_kept).
  - apply minifies_kept. eapply all_chars_weaken; [apply number_kept|apply print_number_chars].
  - apply minifies_string.
  - apply (minifies_app (String (chr 91) "") (String (chr 91) "")); [by apply minifies_kept|].
    apply minifies_app; [|by apply minifies_kept].
    induction IH as [|j l Hj Hl IHl]; [by apply minifies_kept|]. cbn [print_elements]. apply minifies_app; [apply Hj|].
    destruct l as [|j' l]; [by apply minifies_kept|]. apply minifies_app; [by apply minifies_kept|].
    apply (minifies_app " " "" _ _); [by apply minifies_blank|exact IHl].
  - apply (minifies_app (String (chr 123) "") (String (chr 123) "")); [by apply minifies_kept|].
    apply (minifies_app Newline ""); [apply minifies_blank, minify_newline|].
    apply minifies_app; [|apply (minifies_app _ ""); [apply minifies_blank, minify_tabs|by apply minifies_kept]].
    induction IH as [|[n j] fs Hj Hfs IHl]; [by apply minifies_kept|]. cbn [print_members when].
    apply (minifies_app _ ""); [apply minifies_blank, minify_tabs|]. apply minifies_app; [apply minifies_string|].
    apply minifies_app; [by apply minifies_kept|]. apply (minifies_app Tab ""); [apply minifies_blank, minify_tab|].
    apply minifies_app; [apply Hj|]. apply minifies_app; [destruct fs; by apply minifies_kept|].
    apply (minifies_app Newline ""); [apply minifies_blank, minify_newline|]. exact IHl.
Qed.

Lemma minify_printed j : cJSON_Minify (cJSON_Print j) = Some (cJSON_PrintUnformatted j).
Proof.
  unfold cJSON_Minify, cJSON_Print, cJSON_PrintUnformatted. rewrite <- (app_nil_s (print_value true 0 j)).
  rewrite (print_minifies j 0 0). cbn. by rewrite app_nil_s.
Qed.

(** Removing the blanks from the formatted text of a value gives its
    unformatted text, blanks in strings included, and does not leave the text. *)
Theorem minify_print_unformatted j : cJSON_Minify (cJSON_Print j) = Some (cJSON_PrintUnformatted j).
Proof. apply minify_printed. Qed.

(** * Parsing what is printed *)

(** Values the printers write and the parser reads alike: strings are C strings,
    members have names, numbers are whole with up to 15 digits. *)
Fixpoint printable (j : json) : bool :=
  match j with
  | JFalse | JTrue | JNull => true
  | JNumber (m, k) => (k =? 0)%nat && (Z.abs m <? 10 ^ 15)
  | JString s => no_nul s
  | JArray l => forallb printable l
  | JObject fs => forallb (fun f => match f.1 with Some n => no_nul n | None => false end && printable f.2) fs
  end.
(** How deep arrays and objects are nested. *)
Fixpoint nest (j : json) : nat :=
  match j with
  | JArray l => S (foldr (fun j n => Nat.max (nest j) n) 0%nat l)
  | JObject fs => S (foldr (fun f n => Nat.max (nest f.2) n) 0%nat fs)
  | _ => 0%nat
  end.

(** The parser gives [a] and leaves [rest], if it has fuel. *)
Definition gives {A} (p : parsed A) (a : A) (rest : string) : Prop := p = None \/ p = Some (Some (a, rest)).

Lemma gives_then {A B} (p : parsed A) (k : A -> string -> parsed B) a s b rest :
  gives p a s -> gives (k a s) b rest -> gives (then_ p k) b rest.
Proof. intros [->| ->] H; [by left|exact H]. Qed.

Definition space (c : ascii) : bool := char_code c <=? 32.
Lemma skip_spaces w s : all_chars space w = true -> buffer_skip_whitespace (w +:+ s) = buffer_skip_whitespace s.
Proof.
  induction w as [|c w IH]; [done|]. cbn [all_chars]. rewrite andb_true_iff. unfold space at 1. intros [Hc Hw].
  rewrite app_cons. cbn [buffer_skip_whitespace]. rewrite Hc. by apply IH.
Qed.
Lemma skip_none c s : space c = false -> buffer_skip_whitespace (String c s) = String c s.
Proof. unfold space. cbn [buffer_skip_whitespace]. by intros ->. Qed.
Lemma tabs_space n : all_chars space (tabs n) = true.
Proof. induction n as [|n IH]; [done|]. exact IH. Qed.

(** The first character of a text. *)
Lemma text_d_head m : exists c t, text_d m = String c t /\ (is_chr 45 c || is_digit c) = true.
Proof.
  unfold text_d, minus. destruct (Z.ltb_spec m 0); [by eexists _, _|]. destruct (digits_head (Z.abs m)) as (c & t & -> & Hc); [lia|].
  exists c, t. split; [done|]. by rewrite Hc, orb_true_r.
Qed.
Lemma number_head_code c : (is_chr 45 c || is_digit c) = true -> char_code c = 45 \/ 48 <= char_code c <= 57.
Proof. rewrite orb_true_iff. intros [H|H]; [left; by apply Z.eqb_eq|right; by apply digit_code]. Qed.

Lemma print_head fmt d j : printable j = true -> exists c t, print_value fmt d j = String c t /\ space c = false /\ is_chr 93 c = false.
Proof.
  destruct j as [| | |[m k]|s|l|fs]; cbn [printable print_value]; try (intros _; by eexists _, _).
  rewrite andb_true_iff, Nat.eqb_eq, Z.ltb_lt. intros [-> Hm]. rewrite print_number_whole by done.
  destruct (text_d_head m) as (c & t & -> & Hc). exists c, t. apply number_head_code in Hc.
  split_and!; [done|apply Z.leb_gt; lia|apply Z.eqb_neq; lia].
Qed.
Lemma skip_print fmt d j s : printable j = true -> buffer_skip_whitespace (print_value fmt d j +:+ s) = (print_value fmt d j +:+ s)%string.
Proof. intros Hj. destruct (print_head fmt d j Hj) as (c & t & -> & Hc & _). rewrite app_cons. by apply skip_none. Qed.

Lemma eqb_code (a c : ascii) : char_code a <> char_code c -> Ascii.eqb a c = false.
Proof. intros H. destruct (Ascii.eqb_spec a c); [|done]. by subst. Qed.

(** A value that starts with none of the words. *)
Lemma parse_other fuel depth c s : char_code c <> 110 -> char_code c <> 102 -> char_code c <> 116 ->
  parse_value (S fuel) depth (String c s) =
    if is_chr 34 c then lift_ (parse_string (String c s)) JString
    else if is_chr 45 c || is_digit c then lift_ (parse_number (String c s)) JNumber
    else if is_chr 91 c then parse_array fuel depth s
    else if is_chr 123 c then parse_object fuel depth s
    else refused.
Proof.
  intros Hn Hf Ht. cbn [parse_value starts_with].
  rewrite (eqb_code "n" c), (eqb_code "f" c), (eqb_code "t" c) by (symmetry; done). done.
Qed.

Lemma parse_value_string fuel depth s rest : no_nul s = true ->
  gives (parse_value fuel depth (print_string_ptr (Some s) +:+ rest)) (JString s) rest.
Proof.
  intros Hs. destruct fuel as [|fuel]; [by left|]. right.
  pose proof (parse_string_text s rest Hs) as H. unfold print_string_ptr in *. rewrite app_cons in *.
  rewrite parse_other by done. change (is_chr 34 Quote) with true. cbv iota. by rewrite H.
Qed.

Lemma parse_value_number fuel depth m rest : whole m -> no_number rest = true ->
  gives (parse_value fuel depth (text_d m +:+ rest)) (JNumber (m, 0%nat)) rest.
Proof.
  intros Hm Hr. destruct fuel as [|fuel]; [by left|]. right. pose proof (parse_number_text m rest Hm Hr) as H.
  destruct (text_d_head m) as (c & t & E & Hc). rewrite E, app_cons in *. pose proof (number_head_code c Hc).
  rewrite parse_other by lia. rewrite Hc. replace (is_chr 34 c) with false; [by rewrite H|].
  symmetry. apply Z.eqb_neq. lia.
Qed.

(** ** Arrays and objects *)

Lemma parse_array_S fuel depth s : (depth < CJSON_NESTING_LIMIT)%nat ->
  parse_array (S fuel) depth s =
    match buffer_skip_whitespace s with
    | String c s' => if is_chr 93 c then Some (Some (JArray [], s'))
                     else then_ (parse_elements fuel (S depth) (String c s')) (fun l s => Some (Some (JArray l, s)))
    | EmptyString => then_ (parse_elements fuel (S depth) "") (fun l s => Some (Some (JArray l, s)))
    end.
Proof.
  intros Hd. cbn [parse_array]. destruct (Nat.leb_spec CJSON_NESTING_LIMIT depth); [lia|].
  by destruct (buffer_skip_whitespace s).
Qed.
Lemma parse_object_S fuel depth s : (depth < CJSON_NESTING_LIMIT)%nat ->
  parse_object (S fuel) depth s =
    match buffer_skip_whitespace s with
    | String c s' => if is_chr 125 c then Some (Some (JObject [], s'))
                     else then_ (parse_members fuel (S depth) (String c s')) (fun l s => Some (Some (JObject l, s)))
    | EmptyString => then_ (parse_members fuel (S depth) "") (fun l s => Some (Some (JObject l, s)))
    end.
Proof.
  intros Hd. cbn [parse_object]. destruct (Nat.leb_spec CJSON_NESTING_LIMIT depth); [lia|].
  by destruct (buffer_skip_whitespace s).
Qed.

Lemma parse_name n s : no_nul n = true -> parse_string (buffer_skip_whitespace (print_string_ptr (Some n) +:+ s)) = Some (n, s).
Proof.
  intros Hn. rewrite <- (parse_string_text n s Hn). reflexivity.
Qed.

(** Wherever a value is printed, it is parsed. *)
Definition reparsed (fmt : bool) (j : json) : Prop := forall fuel depth d rest,
  printable j = true -> (nest j + depth <= CJSON_NESTING_LIMIT)%nat -> no_number rest = true ->
  gives (parse_value fuel depth (print_value fmt d j +:+ rest)) j rest.

Lemma print_elements_2 fmt P j j' l : print_elements fmt P (j :: j' :: l) = (P j +:+ "," +:+ when fmt " " +:+ print_elements fmt P (j' :: l))%string.
Proof. reflexivity. Qed.
Lemma print_members_1 fmt d P n j : print_members fmt d P [(n, j)] =
  (when fmt (tabs d) +:+ print_string_ptr n +:+ ":" +:+ when fmt Tab +:+ P j +:+ "" +:+ when fmt Newline +:+ "")%string.
Proof. reflexivity. Qed.
Lemma print_members_2 fmt d P n j f fs : print_members fmt d P ((n, j) :: f :: fs) =
  (when fmt (tabs d) +:+ print_string_ptr n +:+ ":" +:+ when fmt Tab +:+ P j +:+ "," +:+ when fmt Newline +:+ print_members fmt d P (f :: fs))%string.
Proof. reflexivity. Qed.

Lemma elements_reparsed fmt d j l : Forall (reparsed fmt) (j :: l) -> forall fuel depth w rest,
  forallb printable (j :: l) = true -> (foldr (fun j n => Nat.max (nest j) n) 0 (j :: l) + depth <= CJSON_NESTING_LIMIT)%nat ->
  all_chars space w = true ->
  gives (parse_elements fuel depth (w +:+ print_elements fmt (print_value fmt d) (j :: l) +:+ String (chr 93) rest)) (j :: l) rest.
Proof.
  revert j. induction l as [|j' l IH]; intros j HP fuel depth w rest Hp Hn Hw; (destruct fuel as [|fuel]; [by left|]);
    apply Forall_cons in HP as [Hj HP]; cbn [forallb foldr] in Hp, Hn; apply andb_true_iff in Hp as [Hpj Hp];
    cbn [parse_elements]; rewrite ?print_elements_2; rewrite skip_spaces by done.
  - cbn [print_elements]. rewrite app_assoc_s, skip_print by done. eapply gives_then; [apply Hj; [done|lia|done]|]. by right.
  - rewrite !app_assoc_s, skip_print by done. eapply gives_then; [apply Hj; [done|lia|by destruct fmt]|]. rewrite app_cons, skip_none by done.
    change (is_chr 44 ",") with true. cbv iota. rewrite nil_app.
    eapply gives_then; [apply IH; [done|exact Hp|cbn; lia|by destruct fmt]|]. by right.
Qed.

Lemma members_reparsed fmt d f fs : Forall (fun f => reparsed fmt f.2) (f :: fs) -> forall fuel depth w rest,
  printable (JObject (f :: fs)) = true -> (foldr (fun f n => Nat.max (nest f.2) n) 0 (f :: fs) + depth <= CJSON_NESTING_LIMIT)%nat ->
  all_chars space w = true ->
  gives (parse_members fuel depth (w +:+ print_members fmt d (print_value fmt d) (f :: fs) +:+ when fmt (tabs (d - 1)) +:+ String (chr 125) rest)) (f :: fs) rest.
Proof.
  revert f. induction fs as [|f' fs IH]; intros [[name|] j] HP fuel depth w rest Hp Hn Hw; (destruct fuel as [|fuel]; [by left|]);
    apply Forall_cons in HP as [Hj HP]; cbn [printable forallb foldr fst snd] in Hp, Hn, Hj; try discriminate Hp;
    apply andb_true_iff in Hp as [Hpj Hp]; apply andb_true_iff in Hpj as [Hname Hpj];
    cbn [parse_members]; rewrite ?print_members_2, ?print_members_1, !app_assoc_s, !skip_spaces by (done || destruct fmt; (done || apply tabs_space));
    rewrite parse_name by done; rewrite app_cons, skip_none by done; change (negb (is_chr 58 ":")) with false; cbv iota;
    rewrite nil_app, skip_spaces, skip_print by (done || by destruct fmt).
  - eapply gives_then; [apply Hj; [done|lia|by destruct fmt, d as [|[|d]]]|]. rewrite !nil_app, skip_spaces by by destruct fmt.
    rewrite skip_spaces by (destruct fmt; [apply tabs_space|done]). rewrite skip_none by done. by right.
  - eapply gives_then; [apply Hj; [done|lia|done]|]. rewrite app_cons, skip_none by done.
    change (is_chr 44 ",") with true. cbv iota. rewrite nil_app.
    eapply gives_then; [apply IH; [done|exact Hp|cbn; lia|by destruct fmt]|]. by right.
Qed.

Lemma skip_twice s : buffer_skip_whitespace (buffer_skip_whitespace s) = buffer_skip_whitespace s.
Proof.
  induction s as [|c s IH]; [done|]. cbn [buffer_skip_whitespace]. destruct (char_code c <=? 32) eqn:E; [done|]. by apply skip_none.
Qed.
Lemma parse_members_skip fuel depth s : parse_members fuel depth (buffer_skip_whitespace s) = parse_members fuel depth s.
Proof. destruct fuel as [|fuel]; [done|]. cbn [parse_members]. by rewrite skip_twice. Qed.
Lemma members_head fmt d P n j fs s : exists t, buffer_skip_whitespace (print_members fmt d P ((Some n, j) :: fs) +:+ s) = String Quote t.
Proof.
  cbn [print_members]. rewrite !app_assoc_s, skip_spaces by (destruct fmt; [apply tabs_space|done]).
  unfold print_string_ptr. rewrite app_cons, skip_none by done. by eexists.
Qed.

Lemma print_reparsed fmt j : reparsed fmt j.
Proof.
  induction j as [| | |[m k]|s|l IH|fs IH] using json_ind'; intros fuel depth d rest Hp Hn Hr; cbn [print_value];
    try (destruct fuel as [|fuel]; [by left|by right]).
  - cbn [printable] in Hp. rewrite andb_true_iff, Nat.eqb_eq, Z.ltb_lt in Hp. destruct Hp as [-> Hm].
    rewrite print_number_whole by done. by apply parse_value_number.
  - by apply parse_value_string.
  - destruct fuel as [|[|fuel]]; [by left|by left|]. rewrite app_cons, app_assoc_s, app_cons, nil_app, parse_other by done.
    cbn [nest] in Hn. change (gives (parse_array (S fuel) depth (print_elements fmt (print_value fmt (S d)) l +:+ String (chr 93) rest)) (JArray l) rest).
    rewrite parse_array_S by lia. destruct l as [|j l]; [by right|].
    pose proof (elements_reparsed fmt (S d) j l IH fuel (S depth) "" rest Hp ltac:(lia) eq_refl) as H. rewrite nil_app in H. revert H.
    cbn [printable forallb] in Hp. apply andb_true_iff in Hp as [Hj _]. cbn [print_elements]. rewrite app_assoc_s, skip_print by done.
    destruct (print_head fmt (S d) j Hj) as (c & t & -> & _ & Hc). rewrite app_cons, Hc. intros H.
    eapply gives_then; [exact H|]. by right.
  - destruct fuel as [|[|fuel]]; [by left|by left|]. rewrite app_cons, !app_assoc_s, app_cons, nil_app, parse_other by done.
    cbn [nest] in Hn. change (gives (parse_object (S fuel) depth (when fmt Newline +:+ print_members fmt (S d) (print_value fmt (S d)) fs +:+
      when fmt (tabs d) +:+ String (chr 125) rest)) (JObject fs) rest).
    rewrite parse_object_S, skip_spaces by (lia || by destruct fmt). destruct fs as [|f fs].
    { cbn [print_members]. rewrite nil_app, skip_spaces by (destruct fmt; [apply tabs_space|done]). by right. }
    pose proof (members_reparsed fmt (S d) f fs IH fuel (S depth) "" rest Hp ltac:(lia) eq_refl) as H. rewrite nil_app in H.
    cbn [Nat.sub] in H. rewrite Nat.sub_0_r, <- parse_members_skip in H. revert H.
    destruct f as [[n|] j]; [|discriminate Hp].
    destruct (members_head fmt (S d) (print_value fmt (S d)) n j fs (when fmt (tabs d) +:+ String (chr 125) rest)) as [t ->].
    intros H. eapply gives_then; [exact H|]. by right.
Qed.

(** * The parser ends

    With fuel for three calls a character, whatever the text. *)

Lemma skip_length s : (String.length (buffer_skip_whitespace s) <= String.length s)%nat.
Proof. induction s as [|c s IH]; [done|]. cbn. destruct (char_code c <=? 32); cbn; lia. Qed.
Lemma drop_length n s : (String.length (str_drop n s) <= String.length s)%nat.
Proof. revert s. induction n as [|n IH]; intros [|c s]; cbn; [lia..|]. specialize (IH s). lia. Qed.

Lemma string_end_length n : forall s raw rest, (String.length s <= n)%nat -> string_end s = Some (raw, rest) -> (String.length rest < String.length s)%nat.
Proof.
  induction n as [|n IH]; intros [|c s] raw rest Hn H; cbn in Hn; try discriminate H; [lia|]. cbn [string_end] in H.
  destruct (is_chr 34 c); [injection H as _ ->; cbn; lia|].
  assert (Hs : forall s', (String.length s' <= String.length s)%nat -> forall f, ('(raw, rest) ← string_end s'; Some (f raw, rest)) = Some (raw, rest) ->
    (String.length rest < S (String.length s))%nat).
  { intros s' Hs f Hf. destruct (string_end s') as [[raw' rest']|] eqn:E; [|done]. injection Hf as _ ->. apply IH in E; lia. }
  destruct (is_chr 92 c); [|by eapply Hs].
  destruct s as [|e s]; [done|]. eapply (Hs s) with (f := fun raw => String c (String e raw)); [cbn; lia|exact H].
Qed.
Lemma parse_string_length s v rest : parse_string s = Some (v, rest) -> (String.length rest <= String.length s)%nat.
Proof.
  destruct s as [|q s]; [done|]. cbn [parse_string]. destruct (negb _); [done|].
  destruct (string_end s) as [[raw r]|] eqn:E; [|done]. cbn. destruct (unescape 0 raw); [|done]. intros [= _ ->].
  apply (string_end_length _ _ _ _ (le_n _)) in E. cbn. lia.
Qed.

Lemma read_digits_length s : forall v n v' n' r, read_digits s v n = (v', n', r) -> (String.length r <= String.length s)%nat.
Proof.
  induction s as [|c s IH]; intros v n v' n' r; cbn; [intros [= _ _ <-]; done|].
  destruct (is_digit c); [|intros [= _ _ <-]; done]. intros H. apply IH in H. cbn. lia.
Qed.
Lemma read_sign_length s : (String.length (read_sign s).2 <= String.length s)%nat.
Proof. destruct s as [|c s]; [done|]. cbn. destruct (_ =? _); [cbn; lia|]. destruct (_ =? _); cbn; lia. Qed.

Lemma strtod_length s d r : strtod s = Some (d, r) -> (String.length r <= String.length s)%nat.
Proof.
  unfold strtod. pose proof (read_sign_length s) as H0. destruct (read_sign s) as [sg s0]. cbn [snd] in H0.
  destruct (read_digits s0 0 0) as [[v n] s1] eqn:E1. apply read_digits_length in E1.
  destruct (match s1 with String c s' => if is_chr 46 c then read_digits s' v 0 else (v, 0%nat, s1) | EmptyString => (v, 0%nat, s1) end)
    as [[v' k] s2] eqn:E2.
  assert (H2 : (String.length s2 <= String.length s1)%nat).
  { destruct s1 as [|c s1']; [by injection E2 as _ _ <-|]. destruct (is_chr 46 c); [|by injection E2 as _ _ <-].
    apply read_digits_length in E2. cbn. lia. }
  destruct (n + k =? 0)%nat; [done|]. cbv zeta. destruct s2 as [|c s2']; [intros [= _ <-]; cbn; lia|].
  destruct (_ || _); [|intros [= _ <-]; lia]. pose proof (read_sign_length s2') as H3. destruct (read_sign s2') as [sg' s3].
  destruct (read_digits s3 0 0) as [[e m] s4] eqn:E4. apply read_digits_length in E4. cbn in *.
  destruct (m =? 0)%nat; intros [= _ <-]; cbn; lia.
Qed.
Lemma number_string_length s : forall n t r, number_string n s = (t, r) -> (String.length t + String.length r = String.length s)%nat.
Proof.
  induction s as [|c s IH]; intros [|n] t r; cbn; try (intros [= <- <-]; done).
  destruct (number_char c); [|intros [= <- <-]; done].
  destruct (number_string n s) as [t' r'] eqn:E. intros [= <- <-]. apply IH in E. cbn. lia.
Qed.
Lemma parse_number_length s d r : parse_number s = Some (d, r) -> (String.length r <= String.length s)%nat.
Proof.
  unfold parse_number. destruct (number_string 63 s) as [t r0] eqn:E. apply number_string_length in E.
  destruct (strtod t) as [[d' a]|] eqn:E'; [|done]. apply strtod_length in E'. intros [= _ <-]. rewrite length_app_s. lia.
Qed.

(** The call ends, and what it leaves is at most [n] characters. *)
Definition ends {A} (n : nat) (p : parsed A) : Prop :=
  match p with None => False | Some None => True | Some (Some (_, rest)) => (String.length rest <= n)%nat end.

Lemma ends_then {A B} n n' (p : parsed A) (k : A -> string -> parsed B) :
  ends n p -> (forall a s, (String.length s <= n)%nat -> ends n' (k a s)) -> ends n' (then_ p k).
Proof. destruct p as [[[a s]|]|]; cbn; auto. Qed.
Lemma ends_lift {A B} n (o : option (A * string)) (f : A -> B) :
  (forall a s, o = Some (a, s) -> (String.length s <= n)%nat) -> ends n (lift_ o f).
Proof. destruct o as [[a s]|]; cbn; eauto. Qed.
Lemma ends_weaken {A} n n' (p : parsed A) : (n <= n')%nat -> ends n p -> ends n' p.
Proof. destruct p as [[[a s]|]|]; cbn; [lia|done|done]. Qed.

Lemma parser_ends fuel :
  (forall depth s, (3 * String.length s < fuel)%nat -> ends (String.length s) (parse_value fuel depth s)) /\
  (forall depth s, (3 * String.length s + 2 < fuel)%nat -> ends (String.length s) (parse_array fuel depth s)) /\
  (forall depth s, (3 * String.length s + 1 < fuel)%nat -> ends (String.length s) (parse_elements fuel depth s)) /\
  (forall depth s, (3 * String.length s + 2 < fuel)%nat -> ends (String.length s) (parse_object fuel depth s)) /\
  (forall depth s, (3 * String.length s + 1 < fuel)%nat -> ends (String.length s) (parse_members fuel depth s)).
Proof.
  induction fuel as [|fuel (HV & HA & HE & HO & HM)]; [split_and!; lia|].
  assert (Hskip := skip_length). split_and!; intros depth s Hf.
  - cbn [parse_value]. repeat (case_match; [apply drop_length|]). destruct s as [|c s]; [done|]. cbn [String.length] in *.
    case_match; [apply ends_lift; intros a r Hr; by apply parse_string_length in Hr|].
    case_match; [apply ends_lift; intros a r Hr; by apply parse_number_length in Hr|].
    case_match; [eapply ends_weaken, HA; lia|]. case_match; [eapply ends_weaken, HO; lia|done].
  - cbn [parse_array]. case_match; [done|]. cbv zeta. specialize (Hskip s).
    assert (HE' := HE (S depth) (buffer_skip_whitespace s) ltac:(lia)).
    destruct (buffer_skip_whitespace s) as [|c r]; [|case_match; [cbn in *; lia|]];
      (eapply ends_then; [exact HE'|]; intros l r' Hr'; cbn in *; lia).
  - cbn [parse_elements]. eapply ends_then; [apply HV; specialize (Hskip s); lia|]. intros j r Hr.
    pose proof (Hskip s). specialize (Hskip r). destruct (buffer_skip_whitespace r) as [|c r']; [done|]. cbn [String.length] in Hskip.
    case_match; [|case_match; [cbn; lia|done]]. eapply ends_then; [apply HE; lia|]. intros l r2 Hr2. cbn. lia.
  - cbn [parse_object]. case_match; [done|]. cbv zeta. specialize (Hskip s).
    assert (HM' := HM (S depth) (buffer_skip_whitespace s) ltac:(lia)).
    destruct (buffer_skip_whitespace s) as [|c r]; [|case_match; [cbn in *; lia|]];
      (eapply ends_then; [exact HM'|]; intros l r' Hr'; cbn in *; lia).
  - cbn [parse_members]. destruct (parse_string _) as [[name r]|] eqn:E; [|done]. apply parse_string_length in E.
    pose proof (Hskip s). pose proof (Hskip r). destruct (buffer_skip_whitespace r) as [|c r1]; [done|]. cbn [String.length] in *.
    case_match; [done|]. pose proof (Hskip r1). eapply ends_then; [apply HV; lia|]. intros j r2 Hr2.
    specialize (Hskip r2). destruct (buffer_skip_whitespace r2) as [|c' r3]; [done|]. cbn [String.length] in *.
    case_match; [|case_match; [cbn; lia|done]]. eapply ends_then; [apply HM; lia|]. intros l r4 Hr4. cbn. lia.
Qed.

(** C13: the parser ends on every text, with fuel for three calls a character: a
    value and what is left, at most the text, or a refusal. *)
Theorem parse_value_ends depth value : exists r, parse_value (parse_fuel value) depth (buffer_skip_whitespace value) = Some r /\
  match r with Some (_, rest) => (String.length rest <= String.length value)%nat | None => True end.
Proof.
  destruct (parser_ends (parse_fuel value)) as (HV & _). specialize (HV depth (buffer_skip_whitespace value)).
  pose proof (skip_length value). unfold parse_fuel in *. specialize (HV ltac:(lia)).
  destruct (parse_value _ _ _) as [r|]; [|done]. exists r. split; [done|]. destruct r as [[j rest]|]; cbn in *; [lia|done].
Qed.

Lemma print_parsed fmt j : printable j = true -> (nest j <= CJSON_NESTING_LIMIT)%nat -> cJSON_Parse (print_value fmt 0 j) = Some j.
Proof.
  intros Hp Hn. unfold cJSON_Parse. set (t := print_value fmt 0 j).
  destruct (parser_ends (parse_fuel t)) as (HV & _). specialize (HV 0%nat (buffer_skip_whitespace t)).
  pose proof (skip_length t). unfold parse_fuel in *. specialize (HV ltac:(lia)).
  pose proof (print_reparsed fmt j (S (3 * String.length t)) 0%nat 0%nat ""%string Hp ltac:(lia) eq_refl) as HR.
  unfold t in *. rewrite <- (app_nil_s (print_value fmt 0 j)), (skip_print fmt 0 j "" Hp), app_nil_s in HV |- *.
  rewrite app_nil_s in HR. destruct HR as [HR|HR]; rewrite HR in *; [done|]. done.
Qed.

(** C12: a value whose numbers are whole with at most 15 digits, whose strings are
    C strings and whose arrays and objects are nested no deeper than the limit
    is read back from its text, formatted or not. *)
Theorem parse_print j : printable j = true -> (nest j <= CJSON_NESTING_LIMIT)%nat ->
  cJSON_Parse (cJSON_Print j) = Some j /\ cJSON_Parse (cJSON_PrintUnformatted j) = Some j.
Proof. intros Hp Hn. split; by apply print_parsed. Qed.

(** A number, a string and an object, nested, are read back. *)
Lemma parse_print_witness : let j := JObject [(Some "a"%string, JArray [JNumber (-15, 0%nat); JString ("x" +:+ Newline); JObject []])] in
  printable j = true /\ (nest j <= CJSON_NESTING_LIMIT)%nat /\
  cJSON_Parse (cJSON_Print j) = Some j /\ cJSON_Parse (cJSON_PrintUnformatted j) = Some j.
Proof.
  intros j. assert (Hn : (nest j <= CJSON_NESTING_LIMIT)%nat) by (apply Nat.leb_le; vm_compute; reflexivity).
  split; [vm_compute; reflexivity|]. split; [exact Hn|]. apply (parse_print j); [vm_compute; reflexivity|exact Hn].
Defined.

(** * What the parser gives *)

(** Strings are C strings, and members have names. *)
Fixpoint from_text (j : json) : bool :=
  match j with
  | JFalse | JTrue | JNull | JNumber _ => true
  | JString s => no_nul s
  | JArray l => forallb from_text l
  | JObject fs => forallb (fun f => match f.1 with Some n => no_nul n | None => false end && from_text f.2) fs
  end.

Lemma c_str_cut s : no_nul (c_str s) = true.
Proof. unfold no_nul. induction s as [|c s IH]; [done|]. cbn. destruct (is_chr 0 c) eqn:E; [done|]. cbn. by rewrite E. Qed.
Lemma parse_string_c s v rest : parse_string s = Some (v, rest) -> no_nul v = true.
Proof.
  destruct s as [|q s]; [done|]. cbn [parse_string]. destruct (negb _); [done|].
  destruct (string_end s) as [[raw r]|]; [|done]. cbn. destruct (unescape 0 raw) as [out|]; [|done]. intros [= <- _]. apply c_str_cut.
Qed.

(** What a call gives satisfies [P]. *)
Definition yields {A} (P : A -> Prop) (p : parsed A) : Prop := match p with Some (Some (a, _)) => P a | _ => True end.
Lemma yields_then {A B} (P : A -> Prop) (Q : B -> Prop) (p : parsed A) (k : A -> string -> parsed B) :
  yields P p -> (forall a s, P a -> yields Q (k a s)) -> yields Q (then_ p k).
Proof. destruct p as [[[a s]|]|]; cbn; auto. Qed.
Lemma yields_lift {A B} (P : B -> Prop) (o : option (A * string)) (f : A -> B) :
  (forall a s, o = Some (a, s) -> P (f a)) -> yields P (lift_ o f).
Proof. destruct o as [[a s]|]; cbn; eauto. Qed.

(** [j], at [depth], is from a text. *)
Definition value_at (depth : nat) (j : json) : Prop := from_text j = true /\ (nest j + depth <= CJSON_NESTING_LIMIT)%nat.
Definition elements_at (depth : nat) (l : list json) : Prop := value_at (depth - 1) (JArray l).
Definition members_at (depth : nat) (fs : list (option string * json)) : Prop := value_at (depth - 1) (JObject fs).

Lemma element_at depth j : (0 < depth)%nat -> value_at depth j -> elements_at depth [j].
Proof. intros Hd [Hj Hn]. split; cbn; [by rewrite Hj|lia]. Qed.
Lemma elements_cons depth j l : (0 < depth)%nat -> value_at depth j -> elements_at depth l -> elements_at depth (j :: l).
Proof. intros Hd [Hj Hn] [Hl Hnl]. cbn in Hl, Hnl. split; cbn; [by rewrite Hj|lia]. Qed.
Lemma member_at depth n j : (0 < depth)%nat -> no_nul n = true -> value_at depth j -> members_at depth [(Some n, j)].
Proof. intros Hd Hname [Hj Hn]. split; cbn; [by rewrite Hname, Hj|lia]. Qed.
Lemma members_cons depth n j fs : (0 < depth)%nat -> no_nul n = true -> value_at depth j -> members_at depth fs -> members_at depth ((Some n, j) :: fs).
Proof. intros Hd Hname [Hj Hn] [Hl Hnl]. cbn in Hl, Hnl. split; cbn; [by rewrite Hname, Hj|lia]. Qed.

Lemma parser_yields fuel :
  (forall depth s, (depth <= CJSON_NESTING_LIMIT)%nat -> yields (value_at depth) (parse_value fuel depth s)) /\
  (forall depth s, (depth <= CJSON_NESTING_LIMIT)%nat -> yields (value_at depth) (parse_array fuel depth s)) /\
  (forall depth s, (0 < depth <= CJSON_NESTING_LIMIT)%nat -> yields (elements_at depth) (parse_elements fuel depth s)) /\
  (forall depth s, (depth <= CJSON_NESTING_LIMIT)%nat -> yields (value_at depth) (parse_object fuel depth s)) /\
  (forall depth s, (0 < depth <= CJSON_NESTING_LIMIT)%nat -> yields (members_at depth) (parse_members fuel depth s)).
Proof.
  induction fuel as [|fuel (HV & HA & HE & HO & HM)]; [split_and!; done|]. split_and!; intros depth s Hd.
  - cbn [parse_value]. repeat (case_match; [by split|]). destruct s as [|c s]; [done|].
    case_match; [apply yields_lift; intros ? ? Hr; split; [by apply parse_string_c in Hr|cbn; lia]|].
    case_match; [apply yields_lift; intros ? ? Hr; by split|]. case_match; [by apply HA|]. case_match; [by apply HO|done].
  - cbn [parse_array]. case_match eqn:E; [done|]. apply Nat.leb_gt in E. cbv zeta.
    assert (HE' := HE (S depth) (buffer_skip_whitespace s) ltac:(lia)).
    destruct (buffer_skip_whitespace s) as [|c r]; [|case_match; [split; cbn; [done|lia]|]];
      (eapply yields_then; [exact HE'|]; intros l r' Hl; unfold elements_at in Hl; by rewrite Nat.sub_succ, Nat.sub_0_r in Hl).
  - cbn [parse_elements]. eapply yields_then; [apply HV; lia|]. intros j r Hj. destruct (buffer_skip_whitespace r) as [|c r']; [done|].
    case_match; [|case_match; [apply element_at; [lia|done]|done]]. eapply yields_then; [apply HE; lia|]. intros l r2 Hl. apply elements_cons; [lia|done..].
  - cbn [parse_object]. case_match eqn:E; [done|]. apply Nat.leb_gt in E. cbv zeta.
    assert (HM' := HM (S depth) (buffer_skip_whitespace s) ltac:(lia)).
    destruct (buffer_skip_whitespace s) as [|c r]; [|case_match; [split; cbn; [done|lia]|]];
      (eapply yields_then; [exact HM'|]; intros l r' Hl; unfold members_at in Hl; by rewrite Nat.sub_succ, Nat.sub_0_r in Hl).
  - cbn [parse_members]. destruct (parse_string _) as [[name r]|] eqn:E; [|done]. apply parse_string_c in E.
    destruct (buffer_skip_whitespace r) as [|c r1]; [done|]. case_match; [done|]. eapply yields_then; [apply HV; lia|]. intros j r2 Hj.
    destruct (buffer_skip_whitespace r2) as [|c' r3]; [done|]. case_match; [|case_match; [apply member_at; [lia|done..]|done]].
    eapply yields_then; [apply HM; lia|]. intros l r4 Hl. apply members_cons; [lia|done..].
Qed.

(** What the parser gives has C strings, named members, and arrays and objects
    nested no deeper than the limit. *)
Theorem cJSON_Parse_well_formed value j : cJSON_Parse value = Some j -> from_text j = true /\ (nest j <= CJSON_NESTING_LIMIT)%nat.
Proof.
  unfold cJSON_Parse. destruct (parser_yields (parse_fuel value)) as (HV & _). specialize (HV 0%nat (buffer_skip_whitespace value) ltac:(lia)).
  destruct (parse_value _ _ _) as [[[j' r]|]|]; [|done|done]. intros [= ->]. destruct HV as [H1 H2]. rewrite Nat.add_0_r in H2. by split.
Qed.

(** An escape for NUL cuts the string. *)
Lemma cJSON_Parse_well_formed_witness : let value := ("[" +:+ quoted "a\u0000b" +:+ ", {}]")%string in
  cJSON_Parse value = Some (JArray [JString "a"; JObject []]) /\
  from_text (JArray [JString "a"; JObject []]) = true /\ (nest (JArray [JString "a"; JObject []]) <= CJSON_NESTING_LIMIT)%nat.
Proof.
  intros value. assert (H : cJSON_Parse value = Some (JArray [JString "a"; JObject []])) by (vm_compute; reflexivity).
  split; [exact H|]. apply (cJSON_Parse_well_formed value _ H).
Defined.
