(* ===== verification/JsonCheck.v ===== *)
(** The JSON format checker of the tool library (hytoolsdk/src/cjson/cjson.c): a
    pushdown automaton driven by two tables.  Its state is the struct, its stack
    an array of [depth] modes; memory for both is taken for granted.

    The enumerators are abbreviations for their values. *)
From stdpp Require Import strings.
From Stdlib Require Import Ascii.
From S2P Require Import Prelude CString.

Module Checker.
(** The universal error code. *)
Abbreviation __ := (-1).

(** Character classes. *)
Abbreviation C_SPACE := 0.
Abbreviation C_WHITE := 1.
Abbreviation C_LCURB := 2.
Abbreviation C_RCURB := 3.
Abbreviation C_LSQRB := 4.
Abbreviation C_RSQRB := 5.
Abbreviation C_COLON := 6.
Abbreviation C_COMMA := 7.
Abbreviation C_QUOTE := 8.
Abbreviation C_BACKS := 9.
Abbreviation C_SLASH := 10.
Abbreviation C_PLUS := 11.
Abbreviation C_MINUS := 12.
Abbreviation C_POINT := 13.
Abbreviation C_ZERO := 14.
Abbreviation C_DIGIT := 15.
Abbreviation C_LOW_A := 16.
Abbreviation C_LOW_B := 17.
Abbreviation C_LOW_C := 18.
Abbreviation C_LOW_D := 19.
Abbreviation C_LOW_E := 20.
Abbreviation C_LOW_F := 21.
Abbreviation C_LOW_L := 22.
Abbreviation C_LOW_N := 23.
Abbreviation C_LOW_R := 24.
Abbreviation C_LOW_S := 25.
Abbreviation C_LOW_T := 26.
Abbreviation C_LOW_U := 27.
Abbreviation C_ABCDF := 28.
Abbreviation C_E := 29.
Abbreviation C_ETC := 30.

Definition ascii_class : list Z := [
  __; __; __; __; __; __; __; __;
  __; C_WHITE; C_WHITE; __; __; C_WHITE; __; __;
  __; __; __; __; __; __; __; __;
  __; __; __; __; __; __; __; __;
  C_SPACE; C_ETC; C_QUOTE; C_ETC; C_ETC; C_ETC; C_ETC; C_ETC;
  C_ETC; C_ETC; C_ETC; C_PLUS; C_COMMA; C_MINUS; C_POINT; C_SLASH;
  C_ZERO; C_DIGIT; C_DIGIT; C_DIGIT; C_DIGIT; C_DIGIT; C_DIGIT; C_DIGIT;
  C_DIGIT; C_DIGIT; C_COLON; C_ETC; C_ETC; C_ETC; C_ETC; C_ETC;
  C_ETC; C_ABCDF; C_ABCDF; C_ABCDF; C_ABCDF; C_E; C_ABCDF; C_ETC;
  C_ETC; C_ETC; C_ETC; C_ETC; C_ETC; C_ETC; C_ETC; C_ETC;
  C_ETC; C_ETC; C_ETC; C_ETC; C_ETC; C_ETC; C_ETC; C_ETC;
  C_ETC; C_ETC; C_ETC; C_LSQRB; C_BACKS; C_RSQRB; C_ETC; C_ETC;
  C_ETC; C_LOW_A; C_LOW_B; C_LOW_C; C_LOW_D; C_LOW_E; C_LOW_F; C_ETC;
  C_ETC; C_ETC; C_ETC; C_ETC; C_LOW_L; C_ETC; C_LOW_N; C_ETC;
  C_ETC; C_ETC; C_LOW_R; C_LOW_S; C_LOW_T; C_LOW_U; C_ETC; C_ETC;
  C_ETC; C_ETC; C_ETC; C_LCURB; C_ETC; C_RCURB; C_ETC; C_ETC
].

(** States. *)
Abbreviation GO := 0.
Abbreviation OK := 1.
Abbreviation OB := 2.
Abbreviation KE := 3.
Abbreviation CO := 4.
Abbreviation VA := 5.
Abbreviation AR := 6.
Abbreviation ST := 7.
Abbreviation ES := 8.
Abbreviation U1 := 9.
Abbreviation U2 := 10.
Abbreviation U3 := 11.
Abbreviation U4 := 12.
Abbreviation MI := 13.
Abbreviation ZE := 14.
Abbreviation IN := 15.
Abbreviation FR := 16.
Abbreviation E1 := 17.
Abbreviation E2 := 18.
Abbreviation E3 := 19.
Abbreviation T1 := 20.
Abbreviation T2 := 21.
Abbreviation T3 := 22.
Abbreviation F1 := 23.
Abbreviation F2 := 24.
Abbreviation F3 := 25.
Abbreviation F4 := 26.
Abbreviation N1 := 27.
Abbreviation N2 := 28.
Abbreviation N3 := 29.

(** The next state, or an action, which is negative; a row for each state, a
    column for each class. *)
Definition state_transition_table : list (list Z) := [
(* start  GO *) [GO;GO;-6;__;-5;__;__;__;__;__;__;__;__;__;__;__;__;__;__;__;__;__;__;__;__;__;__;__;__;__;__];
(* ok     OK *) [OK;OK;__;-8;__;-7;__;-3;__;__;__;__;__;__;__;__;__;__;__;__;__;__;__;__;__;__;__;__;__;__;__];
(* object OB *) [OB;OB;__;-9;__;__;__;__;ST;__;__;__;__;__;__;__;__;__;__;__;__;__;__;__;__;__;__;__;__;__;__];
(* key    KE *) [KE;KE;__;__;__;__;__;__;ST;__;__;__;__;__;__;__;__;__;__;__;__;__;__;__;__;__;__;__;__;__;__];
(* colon  CO *) [CO;CO;__;__;__;__;-2;__;__;__;__;__;__;__;__;__;__;__;__;__;__;__;__;__;__;__;__;__;__;__;__];
(* value  VA *) [VA;VA;-6;__;-5;__;__;__;ST;__;__;__;MI;__;ZE;IN;__;__;__;__;__;F1;__;N1;__;__;T1;__;__;__;__];
(* array  AR *) [AR;AR;-6;__;-5;-7;__;__;ST;__;__;__;MI;__;ZE;IN;__;__;__;__;__;F1;__;N1;__;__;T1;__;__;__;__];
(* string ST *) [ST;__;ST;ST;ST;ST;ST;ST;-4;ES;ST;ST;ST;ST;ST;ST;ST;ST;ST;ST;ST;ST;ST;ST;ST;ST;ST;ST;ST;ST;ST];
(* escape ES *) [__;__;__;__;__;__;__;__;ST;ST;ST;__;__;__;__;__;__;ST;__;__;__;ST;__;ST;ST;__;ST;U1;__;__;__];
(* u1     U1 *) [__;__;__;__;__;__;__;__;__;__;__;__;__;__;U2;U2;U2;U2;U2;U2;U2;U2;__;__;__;__;__;__;U2;U2;__];
(* u2     U2 *) [__;__;__;__;__;__;__;__;__;__;__;__;__;__;U3;U3;U3;U3;U3;U3;U3;U3;__;__;__;__;__;__;U3;U3;__];
(* u3     U3 *) [__;__;__;__;__;__;__;__;__;__;__;__;__;__;U4;U4;U4;U4;U4;U4;U4;U4;__;__;__;__;__;__;U4;U4;__];
(* u4     U4 *) [__;__;__;__;__;__;__;__;__;__;__;__;__;__;ST;ST;ST;ST;ST;ST;ST;ST;__;__;__;__;__;__;ST;ST;__];
(* minus  MI *) [__;__;__;__;__;__;__;__;__;__;__;__;__;__;ZE;IN;__;__;__;__;__;__;__;__;__;__;__;__;__;__;__];
(* zero   ZE *) [OK;OK;__;-8;__;-7;__;-3;__;__;__;__;__;FR;__;__;__;__;__;__;__;__;__;__;__;__;__;__;__;__;__];
(* int    IN *) [OK;OK;__;-8;__;-7;__;-3;__;__;__;__;__;FR;IN;IN;__;__;__;__;E1;__;__;__;__;__;__;__;__;E1;__];
(* frac   FR *) [OK;OK;__;-8;__;-7;__;-3;__;__;__;__;__;__;FR;FR;__;__;__;__;E1;__;__;__;__;__;__;__;__;E1;__];
(* e      E1 *) [__;__;__;__;__;__;__;__;__;__;__;E2;E2;__;E3;E3;__;__;__;__;__;__;__;__;__;__;__;__;__;__;__];
(* ex     E2 *) [__;__;__;__;__;__;__;__;__;__;__;__;__;__;E3;E3;__;__;__;__;__;__;__;__;__;__;__;__;__;__;__];
(* exp    E3 *) [OK;OK;__;-8;__;-7;__;-3;__;__;__;__;__;__;E3;E3;__;__;__;__;__;__;__;__;__;__;__;__;__;__;__];
(* tr     T1 *) [__;__;__;__;__;__;__;__;__;__;__;__;__;__;__;__;__;__;__;__;__;__;__;__;T2;__;__;__;__;__;__];
(* tru    T2 *) [__;__;__;__;__;__;__;__;__;__;__;__;__;__;__;__;__;__;__;__;__;__;__;__;__;__;__;T3;__;__;__];
(* true   T3 *) [__;__;__;__;__;__;__;__;__;__;__;__;__;__;__;__;__;__;__;__;OK;__;__;__;__;__;__;__;__;__;__];
(* fa     F1 *) [__;__;__;__;__;__;__;__;__;__;__;__;__;__;__;__;F2;__;__;__;__;__;__;__;__;__;__;__;__;__;__];
(* fal    F2 *) [__;__;__;__;__;__;__;__;__;__;__;__;__;__;__;__;__;__;__;__;__;__;F3;__;__;__;__;__;__;__;__];
(* fals   F3 *) [__;__;__;__;__;__;__;__;__;__;__;__;__;__;__;__;__;__;__;__;__;__;__;__;__;F4;__;__;__;__;__];
(* false  F4 *) [__;__;__;__;__;__;__;__;__;__;__;__;__;__;__;__;__;__;__;__;OK;__;__;__;__;__;__;__;__;__;__];
(* nu     N1 *) [__;__;__;__;__;__;__;__;__;__;__;__;__;__;__;__;__;__;__;__;__;__;__;__;__;__;__;N2;__;__;__];
(* nul    N2 *) [__;__;__;__;__;__;__;__;__;__;__;__;__;__;__;__;__;__;__;__;__;__;N3;__;__;__;__;__;__;__;__];
(* null   N3 *) [__;__;__;__;__;__;__;__;__;__;__;__;__;__;__;__;__;__;__;__;__;__;OK;__;__;__;__;__;__;__;__]
].

(** Modes. *)
Abbreviation MODE_ARRAY := 0.
Abbreviation MODE_DONE := 1.
Abbreviation MODE_KEY := 2.
Abbreviation MODE_OBJECT := 3.

Definition JSON_DEPTH : Z := 20.

Record JSON_checker : Type := Checker { state : Z; depth : Z; top : Z; stack : list Z }.
Definition with_state (state : Z) (jc : JSON_checker) : JSON_checker := Checker state (depth jc) (top jc) (stack jc).
Definition with_top (top : Z) (jc : JSON_checker) : JSON_checker := Checker (state jc) (depth jc) top (stack jc).
Definition with_stack (stack : list Z) (jc : JSON_checker) : JSON_checker := Checker (state jc) (depth jc) (top jc) stack.

Definition push (mode : Z) : M JSON_checker bool :=
  modify (fun jc => with_top (top jc + 1) jc) ;;
  jc ← getS;
  if depth jc <=? top jc then mret false else
  stack ← arr_set (stack jc) (top jc) mode;
  modify (with_stack stack) ;;
  mret true.

Definition pop (mode : Z) : M JSON_checker bool :=
  jc ← getS;
  if top jc <? 0 then mret false else
  m ← arr_get (stack jc) (top jc);
  if negb (m =? mode) then mret false else
  modify (with_top (top jc - 1)) ;;
  mret true.

(** The mode on top of the stack. *)
Definition top_mode : M JSON_checker Z :=
  jc ← getS; arr_get (stack jc) (top jc).

Definition new_JSON_checker (depth : Z) : res (bool * JSON_checker) :=
  push MODE_DONE (Checker GO depth (-1) (replicate (Z.to_nat depth) 0)).

(** The state after a successful action. *)
Definition become (state : Z) : M JSON_checker bool :=
  modify (with_state state) ;; mret true.
(** [if(!f) return reject(jc);] *)
Definition unless_reject (f k : M JSON_checker bool) : M JSON_checker bool :=
  ok ← f; if (ok : bool) then k else mret false.

(** False for [reject]. *)
Definition action (next_state : Z) : M JSON_checker bool :=
  if next_state =? -9 then unless_reject (pop MODE_KEY) (become OK)
  else if next_state =? -8 then unless_reject (pop MODE_OBJECT) (become OK)
  else if next_state =? -7 then unless_reject (pop MODE_ARRAY) (become OK)
  else if next_state =? -6 then unless_reject (push MODE_KEY) (become OB)
  else if next_state =? -5 then unless_reject (push MODE_ARRAY) (become AR)
  else if next_state =? -4 then
    m ← top_mode;
    if m =? MODE_KEY then become CO
    else if (m =? MODE_ARRAY) || (m =? MODE_OBJECT) then become OK
    else mret false
  else if next_state =? -3 then
    m ← top_mode;
    if m =? MODE_OBJECT then unless_reject (pop MODE_OBJECT) (unless_reject (push MODE_KEY) (become KE))
    else if m =? MODE_ARRAY then become VA
    else mret false
  else if next_state =? -2 then
    unless_reject (pop MODE_KEY) (unless_reject (push MODE_OBJECT) (become VA))
  else mret false.

Definition JSON_checker_char (next_char : Z) : M JSON_checker bool :=
  if next_char <? 0 then mret false else
  next_class ← if 128 <=? next_char then mret C_ETC else arr_get ascii_class next_char;
  if next_class <=? __ then mret false else
  jc ← getS;
  row ← arr_get state_transition_table (state jc);
  next_state ← arr_get row next_class;
  if 0 <=? next_state then become next_state else action next_state.

Definition JSON_checker_done : M JSON_checker bool :=
  jc ← getS;
  if state jc =? OK then pop MODE_DONE else mret false.

(** The characters one by one, as [int]s. *)
Fixpoint check_chars (char_signed : bool) (s : string) : M JSON_checker bool :=
  match s with
  | EmptyString => JSON_checker_done
  | String c s => unless_reject (JSON_checker_char (char_val char_signed c)) (check_chars char_signed s)
  end.
Definition JSON_check (char_signed : bool) (JSON_str : option string) : res bool :=
  match JSON_str with
  | None => Val false
  | Some s =>
      match new_JSON_checker JSON_DEPTH with
      | Fault f => Fault f
      | Val (_, jc) => match check_chars char_signed s jc with Fault f => Fault f | Val (ok, _) => Val ok end
      end
  end.
End Checker.
