(* ===== verification/CheckProps.v ===== *)
(** The format checker never leaves its stack and refines a pushdown automaton
    over a list of modes; it accepts what the printers write, within its depth,
    and with signed characters nothing that is not ASCII. *)
From stdpp Require Import gmap strings pretty.
From Stdlib Require Import Ascii.
From S2P Require Import Prelude CString Json JsonText JsonProps JsonCheck.

Import Checker.

(** * The automaton *)

(** A state and the modes, the top first. *)
Definition conf : Type := Z * list Z.

Definition class_of (z : Z) : Z :=
  if z <? 0 then -1 else if 128 <=? z then C_ETC else nth (Z.to_nat z) ascii_class (-1).
Definition next_of (st cls : Z) : Z := nth (Z.to_nat cls) (nth (Z.to_nat st) state_transition_table []) (-1).

Definition flip (n : Z) (ms : list Z) : option conf :=
  match ms with
  | [] => None
  | m :: ms' =>
      if n =? -9 then if m =? MODE_KEY then Some (OK, ms') else None
      else if n =? -8 then if m =? MODE_OBJECT then Some (OK, ms') else None
      else if n =? -7 then if m =? MODE_ARRAY then Some (OK, ms') else None
      else if n =? -6 then if (length ms <? Z.to_nat JSON_DEPTH)%nat then Some (OB, MODE_KEY :: ms) else None
      else if n =? -5 then if (length ms <? Z.to_nat JSON_DEPTH)%nat then Some (AR, MODE_ARRAY :: ms) else None
      else if n =? -4 then
        if m =? MODE_KEY then Some (CO, ms) else if (m =? MODE_ARRAY) || (m =? MODE_OBJECT) then Some (OK, ms) else None
      else if n =? -3 then
        if m =? MODE_OBJECT then Some (KE, MODE_KEY :: ms') else if m =? MODE_ARRAY then Some (VA, ms) else None
      else if n =? -2 then if m =? MODE_KEY then Some (VA, MODE_OBJECT :: ms') else None
      else None
  end.
Definition read_char (z : Z) (c : conf) : option conf :=
  let cls := class_of z in
  if cls <=? -1 then None else
  let n := next_of c.1 cls in if 0 <=? n then Some (n, c.2) else flip n c.2.

Fixpoint read_chars (char_signed : bool) (s : string) (c : conf) : option conf :=
  match s with
  | EmptyString => Some c
  | String a s => read_char (char_val char_signed a) c ≫= read_chars char_signed s
  end.
(** A text is read from the start with the mode for the end alone. *)
Definition accepts (char_signed : bool) (s : string) : bool :=
  match read_chars char_signed s (GO, [MODE_DONE]) with
  | Some (st, m :: _) => (st =? OK) && (m =? MODE_DONE)
  | _ => false
  end.

(** * Refinement *)

(** The tables have no holes. *)
Lemma class_range z : 0 <= z < 128 -> exists cls, ascii_class !! Z.to_nat z = Some cls /\ nth (Z.to_nat z) ascii_class (-1) = cls /\ -1 <= cls < 31.
Proof.
  intros Hz. assert (Hall : Forall (fun c => -1 <= c < 31) ascii_class) by (apply (bool_decide_unpack _); vm_compute; reflexivity).
  destruct (lookup_lt_is_Some_2 ascii_class (Z.to_nat z)) as [cls Hc]; [change (length ascii_class) with 128%nat; lia|].
  assert (-1 <= cls < 31) by exact (Forall_lookup_1 _ _ _ _ Hall Hc). exists cls. split_and!; [done|by apply nth_lookup_Some|lia..].
Qed.
Lemma next_range st cls : 0 <= st < 30 -> 0 <= cls < 31 ->
  exists row, state_transition_table !! Z.to_nat st = Some row /\ row !! Z.to_nat cls = Some (next_of st cls) /\ next_of st cls < 30.
Proof.
  intros Hst Hcls.
  assert (Hall : Forall (fun row => length row = 31%nat /\ Forall (fun n => n < 30) row) state_transition_table)
    by (apply (bool_decide_unpack _); vm_compute; reflexivity).
  destruct (lookup_lt_is_Some_2 state_transition_table (Z.to_nat st)) as [row Hr]; [change (length state_transition_table) with 30%nat; lia|].
  pose proof (Forall_lookup_1 _ _ _ _ Hall Hr) as [Hlen Hrow].
  destruct (lookup_lt_is_Some_2 row (Z.to_nat cls)) as [n Hn]; [lia|].
  exists row. unfold next_of. rewrite (nth_lookup_Some _ _ _ _ Hr), (nth_lookup_Some _ _ _ _ Hn).
  split_and!; [done|done|]. by apply (Forall_lookup_1 _ _ _ _ Hrow Hn).
Qed.

(** The struct holds the configuration: the modes fill the array from its start. *)
Record view (jc : JSON_checker) (c : conf) : Prop := View {
  view_state : state jc = c.1;
  view_range : 0 <= c.1 < 30;
  view_depth : depth jc = JSON_DEPTH;
  view_length : length (stack jc) = Z.to_nat JSON_DEPTH;
  view_top : top jc = Z.of_nat (length c.2) - 1;
  view_fits : (length c.2 <= Z.to_nat JSON_DEPTH)%nat;
  view_modes : take (length c.2) (stack jc) = reverse c.2;
  view_bottom : last c.2 = Some MODE_DONE
}.

Lemma view_cons jc st m ms : view jc (st, m :: ms) -> stack jc !! Z.to_nat (top jc) = Some m /\ 0 <= top jc < JSON_DEPTH.
Proof.
  intros [_ _ _ Hl Ht Hf Hm _]. cbn [fst snd] in *. cbn [length] in Ht, Hm, Hf.
  assert (HN : Z.of_nat (Z.to_nat JSON_DEPTH) = JSON_DEPTH) by done. split; [|lia].
  rewrite reverse_cons in Hm. rewrite <- (lookup_take_lt _ (S (length ms))), Hm by lia. rewrite lookup_app_r; rewrite length_reverse; [|lia].
  replace (Z.to_nat (top jc) - length ms)%nat with 0%nat by lia. done.
Qed.
Lemma view_become jc st st' ms : view jc (st, ms) -> 0 <= st' < 30 -> view (with_state st' jc) (st', ms).
Proof. intros [] ?. by constructor. Qed.

Lemma wp_become st' jc st ms (Q : bool -> JSON_checker -> Prop) : view jc (st, ms) -> 0 <= st' < 30 ->
  (forall jc', view jc' (st', ms) -> Q true jc') -> wp (become st') jc Q.
Proof. intros Hv Hst HQ. unfold become. wp_steps. apply HQ. by eapply view_become. Qed.

(** A mode below the top, or no mode left. *)
Lemma wp_pop mode jc st m ms (Q : bool -> JSON_checker -> Prop) : view jc (st, m :: ms) -> mode <> MODE_DONE ->
  (m = mode -> forall jc', view jc' (st, ms) -> Q true jc') -> (m <> mode -> Q false jc) -> wp (pop mode) jc Q.
Proof.
  intros Hv Hne Ht Hf. destruct (view_cons _ _ _ _ Hv) as [Htop Hr]. unfold pop. wp_steps. destruct (Z.ltb_spec (top jc) 0); [lia|].
  apply wp_bind. eapply wp_arr_get; [lia|done|]. destruct (Z.eqb_spec m mode) as [->|Hm]; cbn [negb]; wp_steps; [|by apply Hf].
  apply Ht; [done|]. destruct Hv as [? ? ? ? Ht' Hfit Hm Hb]. cbn [fst snd] in *. cbn [length] in Ht', Hfit, Hm.
  destruct ms as [|m' ms]; [cbn in Hb; congruence|]. constructor; cbn [fst snd with_top state depth top stack] in *; try done; [cbn [length] in *; lia|cbn [length] in *; lia|].
  assert (E := f_equal (take (length (m' :: ms))) Hm). rewrite take_take in E. rewrite reverse_cons in E.
  rewrite take_app_le, (take_ge (reverse _)) in E by (rewrite length_reverse; lia). rewrite <- E. f_equal. lia.
Qed.

Lemma wp_push mode jc st ms (Q : bool -> JSON_checker -> Prop) : view jc (st, ms) ->
  ((length ms < Z.to_nat JSON_DEPTH)%nat -> forall jc', view jc' (st, mode :: ms) -> Q true jc') ->
  (~ (length ms < Z.to_nat JSON_DEPTH)%nat -> forall jc', Q false jc') -> wp (push mode) jc Q.
Proof.
  intros Hv Ht Hf. assert (HN : Z.of_nat (Z.to_nat JSON_DEPTH) = JSON_DEPTH) by done.
  destruct Hv as [? ? Hd Hl Htop Hfit Hm Hb]. cbn [fst snd] in *. unfold push. wp_steps. cbn [with_top depth top stack].
  destruct (Z.leb_spec (depth jc) (top jc + 1)); wp_steps; [apply Hf; lia|]. apply wp_arr_set; [lia|]. wp_steps.
  apply Ht; [lia|]. replace (Z.to_nat (top jc + 1)) with (length ms) by lia.
  constructor; cbn [fst snd with_top with_stack state depth top stack] in *; try done; [by rewrite length_insert|cbn [length]; lia|cbn [length]; lia| |].
  - cbn [length]. rewrite reverse_cons, <- Hm. rewrite (take_S_r _ _ mode) by (apply list_lookup_insert_eq; lia).
    by rewrite take_insert_ge.
  - destruct ms; [discriminate Hb|exact Hb].
Qed.

(** What a step of the checker does to a configuration. *)
Definition follows (o : option conf) (ok : bool) (jc : JSON_checker) : Prop :=
  match o with Some c => ok = true /\ view jc c | None => ok = false end.

Lemma wp_unless (f k : M JSON_checker bool) jc Q :
  wp f jc (fun ok jc' => if (ok : bool) then wp k jc' Q else Q false jc') -> wp (unless_reject f k) jc Q.
Proof. intros H. unfold unless_reject. apply wp_bind. eapply wp_mono; [exact H|]. intros [] jc'; done. Qed.

Lemma wp_pop_become mode st' jc st m ms : view jc (st, m :: ms) -> mode <> MODE_DONE -> 0 <= st' < 30 ->
  wp (unless_reject (pop mode) (become st')) jc (follows (if m =? mode then Some (st', ms) else None)).
Proof.
  intros Hv Hne Hst. apply wp_unless. eapply wp_pop; [done|done|intros -> jc' Hv'|intros Hm].
  - rewrite Z.eqb_refl. eapply wp_become; [done|done|]. by intros jc'' H.
  - by destruct (Z.eqb_spec m mode).
Qed.
Lemma wp_push_become mode st' jc st ms : view jc (st, ms) -> 0 <= st' < 30 ->
  wp (unless_reject (push mode) (become st')) jc (follows (if (length ms <? Z.to_nat JSON_DEPTH)%nat then Some (st', mode :: ms) else None)).
Proof.
  intros Hv Hst. apply wp_unless. eapply wp_push; [done|intros Hl jc' Hv'|intros Hl jc'].
  - destruct (Nat.ltb_spec (length ms) (Z.to_nat JSON_DEPTH)); [|lia]. eapply wp_become; [done|done|]. by intros jc'' H'.
  - by destruct (Nat.ltb_spec (length ms) (Z.to_nat JSON_DEPTH)).
Qed.
(** A pop and a push leave room. *)
Lemma wp_flip mode mode' st' jc st m ms : view jc (st, m :: ms) -> mode <> MODE_DONE -> 0 <= st' < 30 ->
  wp (unless_reject (pop mode) (unless_reject (push mode') (become st'))) jc (follows (if m =? mode then Some (st', mode' :: ms) else None)).
Proof.
  intros Hv Hne Hst. apply wp_unless. pose proof (view_fits _ _ Hv) as Hf. cbn [snd length] in Hf. eapply wp_pop; [done|done|intros -> jc' Hv'|intros Hm].
  - rewrite Z.eqb_refl. eapply wp_mono; [by eapply wp_push_become|]. intros ok jc''.
    destruct (Nat.ltb_spec (length ms) (Z.to_nat JSON_DEPTH)) as [|Hge]; [done|lia].
  - by destruct (Z.eqb_spec m mode).
Qed.
Lemma wp_top_mode jc st m ms (Q : Z -> JSON_checker -> Prop) : view jc (st, m :: ms) -> Q m jc -> wp top_mode jc Q.
Proof. intros Hv HQ. destruct (view_cons _ _ _ _ Hv). unfold top_mode. wp_steps. eapply wp_arr_get; [lia|done|done]. Qed.

Lemma wp_action n jc st ms : view jc (st, ms) -> wp (action n) jc (follows (flip n ms)).
Proof.
  intros Hv. destruct ms as [|m ms]; [by destruct Hv|]. unfold action, flip.
  repeat match goal with |- context [if n =? ?k then _ else _] => destruct (n =? k) end;
    [by eapply wp_pop_become..|by eapply wp_push_become|by eapply wp_push_become| | |by eapply wp_flip|done].
  - apply wp_bind. eapply wp_top_mode; [done|]. destruct (m =? MODE_KEY); [eapply wp_become; [done|done|by intros]|].
    destruct ((m =? MODE_ARRAY) || (m =? MODE_OBJECT)); [|done]. eapply wp_become; [done|done|by intros].
  - apply wp_bind. eapply wp_top_mode; [done|]. destruct (m =? MODE_OBJECT) eqn:E.
    + eapply wp_mono; [by eapply wp_flip|]. by rewrite E.
    + destruct (m =? MODE_ARRAY); [|done]. eapply wp_become; [done|done|by intros].
Qed.

Lemma wp_char z jc c : view jc c -> wp (JSON_checker_char z) jc (follows (read_char z c)).
Proof.
  intros Hv. destruct c as [st ms]. unfold JSON_checker_char, read_char, class_of. destruct (Z.ltb_spec z 0); [done|].
  assert (Hgo : forall cls, -1 <= cls < 31 -> wp (if cls <=? -1 then mret false else
      jc ← getS; row ← arr_get state_transition_table (state jc); next_state ← arr_get row cls;
      if 0 <=? next_state then become next_state else action next_state) jc
    (follows (if cls <=? -1 then None else if 0 <=? next_of st cls then Some (next_of st cls, ms) else flip (next_of st cls) ms))).
  { intros cls Hc. destruct (Z.leb_spec cls (-1)); [done|]. pose proof (view_range _ _ Hv) as Hr. cbn in Hr.
    destruct (next_range st cls) as (row & Hrow & Hn & Hlt); [lia|lia|]. wp_steps. rewrite (view_state _ _ Hv). cbn [fst].
    eapply wp_arr_get; [lia|done|]. apply wp_bind. eapply wp_arr_get; [lia|done|].
    destruct (Z.leb_spec 0 (next_of st cls)); [|by eapply wp_action]. eapply wp_become; [done|lia|by intros]. }
  apply wp_bind. destruct (Z.leb_spec 128 z); [apply wp_ret, Hgo; lia|].
  destruct (class_range z) as (cls & Hl & -> & Hc); [lia|]. eapply wp_arr_get; [lia|done|]. by apply Hgo.
Qed.

Lemma wp_done jc c : view jc c -> wp JSON_checker_done jc (fun ok _ => ok = match c with (st, m :: _) => (st =? OK) && (m =? MODE_DONE) | _ => false end).
Proof.
  intros Hv. destruct c as [st [|m ms]]; [by destruct Hv|]. destruct (view_cons _ _ _ _ Hv). unfold JSON_checker_done. wp_steps.
  rewrite (view_state _ _ Hv). cbn [fst]. destruct (st =? OK); [|done]. unfold pop. wp_steps. destruct (Z.ltb_spec (top jc) 0); [lia|].
  apply wp_bind. eapply wp_arr_get; [lia|done|]. by destruct (m =? MODE_DONE).
Qed.

Lemma wp_check char_signed s : forall jc c, view jc c -> wp (check_chars char_signed s) jc (fun ok _ =>
  ok = match read_chars char_signed s c with Some (st, m :: _) => (st =? OK) && (m =? MODE_DONE) | _ => false end).
Proof.
  induction s as [|a s IH]; intros jc c Hv; cbn [check_chars read_chars]; [by apply wp_done|]. apply wp_unless.
  eapply wp_mono; [by apply wp_char|]. intros ok jc'. destruct (read_char _ c) as [c'|]; cbn; [intros [-> Hv']|by intros ->].
  by apply IH.
Qed.

Lemma check_answers char_signed s : JSON_check char_signed (Some s) = Val (accepts char_signed s).
Proof.
  unfold JSON_check.
  destruct (new_JSON_checker JSON_DEPTH) as [[ok jc]|f] eqn:E; [|vm_compute in E; discriminate E].
  assert (Hv : view jc (GO, [MODE_DONE]))
    by (vm_compute in E; injection E as <- <-; constructor; first [done|cbn; lia|by apply Nat.leb_le]).
  pose proof (wp_check char_signed s jc _ Hv) as H. unfold wp in H.
  destruct (check_chars char_signed s jc) as [[ok' jc']|]; [by subst|done].
Qed.

(** C14: whatever the text, the checker stays within its stack of [JSON_DEPTH] modes
    and answers as the automaton over a list of modes does; NULL is refused. *)
Theorem JSON_check_refines char_signed (JSON_str : option string) :
  JSON_check char_signed JSON_str = Val (match JSON_str with Some s => accepts char_signed s | None => false end).
Proof. destruct JSON_str as [s|]; [apply check_answers|done]. Qed.

(** * Characters that are not ASCII *)

Definition ascii_char (c : ascii) : bool := char_code c <? 128.

Lemma read_chars_app char_signed a b c : read_chars char_signed (a +:+ b) c = read_chars char_signed a c ≫= read_chars char_signed b.
Proof.
  revert c. induction a as [|x a IH]; intros c; [done|]. rewrite app_cons. cbn [read_chars].
  destruct (read_char _ c) as [c'|]; [|done]. apply IH.
Qed.

Lemma non_ascii_checked s : all_chars ascii_char s = false -> JSON_check true (Some s) = Val false.
Proof.
  intros Hs. rewrite check_answers. f_equal. unfold accepts.
  revert Hs. generalize (GO, [MODE_DONE]). induction s as [|a s IH]; intros c Hs; [done|]. cbn [all_chars read_chars] in *.
  apply andb_false_iff in Hs as [Ha|Hs].
  - unfold ascii_char in Ha. apply Z.ltb_ge in Ha. unfold read_char, class_of, char_val. fold (char_code a).
    assert (char_code a < 256) by by destruct a as [[] [] [] [] [] [] [] []].
    destruct (Z.leb_spec 128 (char_code a)); [|lia]. cbn [andb]. destruct (Z.ltb_spec (char_code a - 256) 0); [done|lia].
  - destruct (read_char _ c) as [c'|]; [|done]. by apply IH.
Qed.

(** Where [char] is signed, a text with a byte above 127 is no JSON to the
    checker, in a string or elsewhere. *)
Theorem non_ascii_is_refused s : all_chars ascii_char s = false -> JSON_check true (Some s) = Val false.
Proof. apply non_ascii_checked. Qed.

(** A device's name in UTF-8. *)
Lemma non_ascii_is_refused_witness : let s := cJSON_PrintUnformatted (JObject [(Some "Name"%string, JString (String (chr 195) (String (chr 169) "")))]) in
  all_chars ascii_char s = false /\ JSON_check true (Some s) = Val false /\ JSON_check false (Some s) = Val true.
Proof.
  intros s. assert (Hs : all_chars ascii_char s = false) by (vm_compute; reflexivity).
  split; [exact Hs|]. split; [apply (non_ascii_is_refused s Hs)|vm_compute; reflexivity].
Defined.

(** * What is printed is accepted *)

Section printed.
Context (char_signed : bool).

(** Characters the checker can take, in strings. *)
Definition takes (c : ascii) : bool := negb char_signed || ascii_char c.
Fixpoint takes_all (j : json) : bool :=
  match j with
  | JFalse | JTrue | JNull | JNumber _ => true
  | JString s => all_chars takes s
  | JArray l => forallb takes_all l
  | JObject fs => forallb (fun f => match f.1 with Some n => all_chars takes n | None => true end && takes_all f.2) fs
  end.

Lemma read_escaped c ms : takes c = true -> read_chars char_signed (escape_char c) (ST, ms) = Some (ST, ms).
Proof. unfold takes. destruct char_signed; destruct c as [[] [] [] [] [] [] [] []]; first [reflexivity|discriminate]. Qed.
Lemma read_text s ms : all_chars takes s = true -> read_chars char_signed (escape s) (ST, ms) = Some (ST, ms).
Proof.
  induction s as [|c s IH]; [done|]. cbn [all_chars escape]. rewrite andb_true_iff. intros [Hc Hs].
  by rewrite read_chars_app, read_escaped; cbn; [apply IH|].
Qed.

(** Where a value may start, and a string. *)
Definition at_value (st : Z) : Prop := st = VA \/ st = AR.
Definition at_string (st : Z) : Prop := st = VA \/ st = AR \/ st = OB \/ st = KE.
(** After a value: a number goes on until it is ended. *)
Definition settled (st : Z) : Prop := st = OK \/ st = ZE \/ st = IN.
Definition inside (m : Z) : Prop := m = MODE_ARRAY \/ m = MODE_OBJECT.

Lemma read_quote st ms : at_string st -> read_char (char_val char_signed Quote) (st, ms) = Some (ST, ms).
Proof. intros H. destruct char_signed; destruct_or! H; subst st; reflexivity. Qed.
Lemma read_end_quote m ms : inside m -> read_char (char_val char_signed Quote) (ST, m :: ms) = Some (OK, m :: ms).
Proof. intros H. destruct char_signed; destruct_or! H; subst m; reflexivity. Qed.
Lemma read_key_quote ms : read_char (char_val char_signed Quote) (ST, MODE_KEY :: ms) = Some (CO, MODE_KEY :: ms).
Proof. by destruct char_signed. Qed.

Lemma read_string s st m ms : all_chars takes s = true -> at_string st -> inside m ->
  read_chars char_signed (print_string_ptr (Some s)) (st, m :: ms) = Some (OK, m :: ms).
Proof.
  intros Hs Hst Hm. unfold print_string_ptr. cbn [read_chars]. rewrite read_quote by done. cbn.
  rewrite read_chars_app, read_text by done. cbn. by rewrite read_end_quote.
Qed.
Lemma read_name s st ms : all_chars takes s = true -> at_string st ->
  read_chars char_signed (print_string_ptr (Some s)) (st, MODE_KEY :: ms) = Some (CO, MODE_KEY :: ms).
Proof.
  intros Hs Hst. unfold print_string_ptr. cbn [read_chars]. rewrite read_quote by done. cbn.
  rewrite read_chars_app, read_text by done. cbn. by rewrite read_key_quote.
Qed.

(** ** Numbers *)

Lemma read_digit c st ms : is_digit c = true -> st = VA \/ st = AR \/ st = MI ->
  exists st', (st' = ZE /\ c = chr 48 \/ st' = IN /\ c <> chr 48) /\ read_char (char_val char_signed c) (st, ms) = Some (st', ms).
Proof.
  intros Hc Hst. destruct char_signed; destruct c as [[] [] [] [] [] [] [] []]; try discriminate Hc; destruct_or! Hst; subst st;
    first [exists ZE; split; [by left|reflexivity]|exists IN; split; [right; split; [done|discriminate]|reflexivity]].
Qed.
Lemma read_more t ms : all_chars is_digit t = true -> read_chars char_signed t (IN, ms) = Some (IN, ms).
Proof.
  induction t as [|c t IH]; [done|]. cbn [all_chars read_chars]. rewrite andb_true_iff. intros [Hc Ht].
  replace (read_char (char_val char_signed c) (IN, ms)) with (Some (IN, ms)); [by apply IH|]. symmetry.
  destruct char_signed; destruct c as [[] [] [] [] [] [] [] []]; first [discriminate Hc|reflexivity].
Qed.

(** A number of more than one digit has no zero in front. *)
Lemma pretty_head (x : N) s : (0 < x)%N -> exists c t, pretty_N_go x s = String c t /\ c <> chr 48.
Proof.
  revert s. induction (N.lt_wf_0 x) as [x _ IH]. intros s Hx. rewrite pretty_N_go_step by done.
  destruct (decide (x `div` 10 = 0)%N) as [E|E]; [|apply IH; [apply N.div_lt; lia|by apply N.neq_0_lt_0]].
  rewrite E, pretty_N_go_0. eexists _, _. split; [done|]. intros Hc. apply (f_equal char_code) in Hc.
  assert (Hm : (x `mod` 10 < 10)%N) by by apply N.mod_lt. pose proof (digit_pretty _ Hm) as Hd. rewrite Hc in Hd.
  change (char_code (chr 48)) with 48 in Hd. pose proof (N.div_mod x 10 ltac:(done)) as Hx10. rewrite E in Hx10.
  clear -Hx Hd Hx10. generalize dependent (x `mod` 10)%N. lia.
Qed.

Lemma read_digits_text z st ms : 0 <= z -> st = VA \/ st = AR \/ st = MI ->
  exists st', settled st' /\ read_chars char_signed (digits z) (st, ms) = Some (st', ms).
Proof.
  intros Hz Hst. destruct (decide (z = 0)) as [->|Hne].
  - destruct (read_digit "0" st ms eq_refl Hst) as (st' & Hst' & Hr). exists st'. split; [unfold settled; naive_solver|].
    change (digits 0) with "0"%string. cbn [read_chars]. by rewrite Hr.
  - pose proof (all_digits z Hz) as Hall. rewrite digits_pos in * by lia. destruct (pretty_head (Z.to_N z) "") as (c & t & E & Hc); [lia|].
    rewrite E in *. cbn [all_chars] in Hall. apply andb_true_iff in Hall as [Hd Ht].
    destruct (read_digit c st ms Hd Hst) as (st' & [[_ ?]|[-> _]] & Hr); [done|]. exists IN. split; [unfold settled; tauto|].
    cbn [read_chars]. rewrite Hr. by apply read_more.
Qed.
Lemma read_number m st ms : at_value st -> exists st', settled st' /\ read_chars char_signed (text_d m) (st, ms) = Some (st', ms).
Proof.
  intros Hst. unfold text_d, minus. rewrite read_chars_app. destruct (m <? 0).
  - replace (read_chars char_signed "-" (st, ms)) with (Some (MI, ms)); [apply read_digits_text; [lia|tauto]|].
    destruct char_signed; destruct_or! Hst; subst; reflexivity.
  - apply read_digits_text; [lia|unfold at_value in Hst; tauto].
Qed.

(** ** Blanks, brackets and separators *)

Definition waits (st : Z) : Prop := st = VA \/ st = AR \/ st = OB \/ st = KE \/ st = OK.
Lemma read_blank c st ms : blank c = true -> waits st -> read_char (char_val char_signed c) (st, ms) = Some (st, ms).
Proof.
  intros Hc Hst. destruct char_signed; destruct c as [[] [] [] [] [] [] [] []]; try discriminate Hc; destruct_or! Hst; subst st; reflexivity.
Qed.
Lemma read_blanks w st ms : all_chars blank w = true -> waits st -> read_chars char_signed w (st, ms) = Some (st, ms).
Proof.
  intros Hw Hst. induction w as [|c w IH]; [done|]. cbn [all_chars read_chars] in *. apply andb_true_iff in Hw as [Hc Hw].
  rewrite read_blank by done. by apply IH.
Qed.
Lemma settle_blanks w st ms : all_chars blank w = true -> settled st -> exists st', settled st' /\ read_chars char_signed w (st, ms) = Some (st', ms).
Proof.
  destruct w as [|c w]; [by exists st|]. cbn [all_chars read_chars]. rewrite andb_true_iff. intros [Hc Hw] Hst. exists OK. split; [by left|].
  replace (read_char (char_val char_signed c) (st, ms)) with (Some (OK, ms)); [apply read_blanks; [done|unfold waits; tauto]|].
  symmetry. destruct char_signed; destruct c as [[] [] [] [] [] [] [] []]; try discriminate Hc; destruct_or! Hst; subst st; reflexivity.
Qed.
Lemma tabs_blank n : all_chars blank (tabs n) = true.
Proof. induction n as [|n IH]; [done|]. exact IH. Qed.
Lemma when_blank fmt w : all_chars blank w = true -> all_chars blank (when fmt w) = true.
Proof. by destruct fmt. Qed.

Ltac one_char := match goal with H : settled _ |- _ => destruct_or! H; subst; destruct char_signed; reflexivity end.
Lemma read_comma_array st ms : settled st -> read_chars char_signed "," (st, MODE_ARRAY :: ms) = Some (VA, MODE_ARRAY :: ms).
Proof. intros H. one_char. Qed.
Lemma read_comma_object st ms : settled st -> read_chars char_signed "," (st, MODE_OBJECT :: ms) = Some (KE, MODE_KEY :: ms).
Proof. intros H. one_char. Qed.
Lemma read_close_array st ms : settled st -> read_chars char_signed (String (chr 93) "") (st, MODE_ARRAY :: ms) = Some (OK, ms).
Proof. intros H. one_char. Qed.
Lemma read_close_object st ms : settled st -> read_chars char_signed (String (chr 125) "") (st, MODE_OBJECT :: ms) = Some (OK, ms).
Proof. intros H. one_char. Qed.
Lemma read_colon ms : read_chars char_signed ":" (CO, MODE_KEY :: ms) = Some (VA, MODE_OBJECT :: ms).
Proof. by destruct char_signed. Qed.

Definition opens (st : Z) : Prop := st = GO \/ st = VA \/ st = AR.
Lemma flip_open st m ms a mode st' : (length (m :: ms) < Z.to_nat JSON_DEPTH)%nat -> opens st ->
  a = chr 91 /\ mode = MODE_ARRAY /\ st' = AR \/ a = chr 123 /\ mode = MODE_KEY /\ st' = OB ->
  read_char (char_val char_signed a) (st, m :: ms) = Some (st', mode :: m :: ms).
Proof.
  intros Hl Hst H. apply Nat.ltb_lt in Hl.
  assert (E : read_char (char_val char_signed a) (st, m :: ms) =
    if (length (m :: ms) <? Z.to_nat JSON_DEPTH)%nat then Some (st', mode :: m :: ms) else None); [|by rewrite E, Hl].
  clear Hl. destruct char_signed; destruct_or! H; destruct H as (-> & -> & ->); destruct_or! Hst; subst st; reflexivity.
Qed.

(** ** Values *)

(** A printed value takes the checker to its end, over the same modes. *)
Definition read_through (fmt : bool) (j : json) : Prop := forall d st m ms,
  printable j = true -> takes_all j = true -> at_value st -> inside m -> (length (m :: ms) + nest j <= Z.to_nat JSON_DEPTH)%nat ->
  exists st', settled st' /\ read_chars char_signed (print_value fmt d j) (st, m :: ms) = Some (st', m :: ms).

Lemma elements_read fmt d j l ms : Forall (read_through fmt) (j :: l) -> forall st,
  forallb printable (j :: l) = true -> forallb takes_all (j :: l) = true -> at_value st ->
  (S (length ms) + foldr (fun j n => Nat.max (nest j) n) 0 (j :: l) <= Z.to_nat JSON_DEPTH)%nat ->
  exists st', settled st' /\
    read_chars char_signed (print_elements fmt (print_value fmt d) (j :: l)) (st, MODE_ARRAY :: ms) = Some (st', MODE_ARRAY :: ms).
Proof.
  revert j. induction l as [|j' l IH]; intros j HP st Hp Ht Hst Hl; apply Forall_cons in HP as [Hj HP];
    cbn [forallb foldr] in Hp, Ht, Hl; apply andb_true_iff in Hp as [Hpj Hp]; apply andb_true_iff in Ht as [Htj Ht];
    (destruct (Hj d st MODE_ARRAY ms Hpj Htj Hst) as (st1 & Hst1 & Hr); [by left|cbn [length]; lia|]).
  - exists st1. split; [done|]. cbn [print_elements]. by rewrite app_nil_s.
  - destruct (IH j' HP VA Hp Ht) as (st2 & Hst2 & Hr2); [by left|cbn [foldr]; lia|]. exists st2. split; [done|].
    rewrite print_elements_2, !read_chars_app, Hr. cbn [mbind option_bind]. rewrite read_chars_app, read_comma_array by done. cbn [mbind option_bind].
    rewrite read_chars_app, read_blanks by (try (by left); by apply when_blank). exact Hr2.
Qed.

Lemma members_read fmt d f fs ms : Forall (fun f => read_through fmt f.2) (f :: fs) -> forall st,
  printable (JObject (f :: fs)) = true -> takes_all (JObject (f :: fs)) = true -> st = OB \/ st = KE ->
  (S (length ms) + foldr (fun f n => Nat.max (nest f.2) n) 0 (f :: fs) <= Z.to_nat JSON_DEPTH)%nat ->
  exists st', settled st' /\
    read_chars char_signed (print_members fmt d (print_value fmt d) (f :: fs)) (st, MODE_KEY :: ms) = Some (st', MODE_OBJECT :: ms).
Proof.
  revert f. induction fs as [|f' fs IH]; intros [[name|] j] HP st Hp Ht Hst Hl; apply Forall_cons in HP as [Hj HP];
    cbn [printable takes_all forallb foldr fst snd] in Hp, Ht, Hl, Hj; try discriminate Hp;
    apply andb_true_iff in Hp as [Hpj Hp]; apply andb_true_iff in Hpj as [_ Hpj];
    apply andb_true_iff in Ht as [Htj Ht]; apply andb_true_iff in Htj as [Hname Htj];
    (destruct (Hj d VA MODE_OBJECT ms Hpj Htj) as (st1 & Hst1 & Hr); [by left|by right|cbn [length]; lia|]);
    (rewrite ?print_members_2, ?print_members_1, !read_chars_app, read_blanks by (apply when_blank, tabs_blank || (unfold waits; tauto)));
    cbn [mbind option_bind]; rewrite read_chars_app, read_name by (done || (unfold at_string; tauto)); cbn [mbind option_bind];
    rewrite read_chars_app, read_colon; cbn [mbind option_bind]; rewrite read_chars_app, read_blanks by (by apply when_blank || by left);
    cbn [mbind option_bind]; rewrite read_chars_app, Hr; cbn [mbind option_bind].
  - rewrite nil_app, app_nil_s. by apply settle_blanks; [apply when_blank|].
  - destruct (IH f' HP KE Hp Ht) as (st2 & Hst2 & Hr2); [by right|cbn [foldr]; lia|]. exists st2. split; [done|].
    rewrite read_chars_app, read_comma_object by done. cbn [mbind option_bind].
    rewrite read_chars_app, read_blanks by (by apply when_blank || (unfold waits; tauto)). exact Hr2.
Qed.

(** Arrays and objects, also where a text starts. *)
Definition is_container (j : json) : bool := match j with JArray _ | JObject _ => true | _ => false end.
Lemma container_read fmt j : is_container j = true ->
  match j with JArray l => Forall (read_through fmt) l | JObject fs => Forall (fun f => read_through fmt f.2) fs | _ => True end ->
  forall d st m ms, printable j = true -> takes_all j = true -> opens st -> (length (m :: ms) + nest j <= Z.to_nat JSON_DEPTH)%nat ->
  read_chars char_signed (print_value fmt d j) (st, m :: ms) = Some (OK, m :: ms).
Proof.
  destruct j as [| | | | |l|fs]; try discriminate; intros _ HP d st m ms Hp Ht Hst Hl; cbn [print_value nest read_chars] in *.
  - erewrite flip_open; [|lia|done|by left]. cbn [mbind option_bind]. rewrite read_chars_app.
    destruct l as [|j l]; [by destruct char_signed|].
    destruct (elements_read fmt (S d) j l (m :: ms) HP AR Hp Ht) as (st' & Hst' & ->); [by right|lia|]. by apply read_close_array.
  - erewrite flip_open; [|lia|done|by right]. cbn [mbind option_bind].
    rewrite read_chars_app, read_blanks by (by apply when_blank || (unfold waits; tauto)). cbn [mbind option_bind].
    rewrite read_chars_app. destruct fs as [|f fs].
    + cbn [print_members read_chars mbind option_bind]. rewrite read_chars_app, read_blanks by (apply when_blank, tabs_blank || (unfold waits; tauto)).
      by destruct char_signed.
    + destruct (members_read fmt (S d) f fs (m :: ms) HP OB Hp Ht) as (st1 & Hst1 & ->); [by left|lia|]. cbn [mbind option_bind].
      destruct (settle_blanks (when fmt (tabs d)) st1 (MODE_OBJECT :: m :: ms)) as (st2 & Hst2 & Hr); [apply when_blank, tabs_blank|done|].
      rewrite read_chars_app, Hr. by apply read_close_object.
Qed.

Lemma printed_read fmt j : read_through fmt j.
Proof.
  induction j as [| | |[m k]|s|l IH|fs IH] using json_ind'; intros d st mode ms Hp Ht Hst Hm Hl;
    try (exists OK; split; [by left|]; destruct char_signed; destruct_or! Hst; subst st; reflexivity).
  - cbn [printable print_value] in *. rewrite andb_true_iff, Nat.eqb_eq, Z.ltb_lt in Hp. destruct Hp as [-> Hw].
    rewrite print_number_whole by done. by apply read_number.
  - exists OK. split; [by left|]. apply read_string; [done|unfold at_string, at_value in *; tauto|done].
  - exists OK. split; [by left|]. apply container_read; try done. unfold opens, at_value in *; tauto.
  - exists OK. split; [by left|]. apply container_read; try done. unfold opens, at_value in *; tauto.
Qed.
End printed.

Lemma print_checked char_signed fmt j : is_container j = true -> printable j = true -> takes_all char_signed j = true ->
  (nest j < Z.to_nat JSON_DEPTH)%nat -> JSON_check char_signed (Some (print_value fmt 0 j)) = Val true.
Proof.
  intros Hc Hp Ht Hn. rewrite check_answers. f_equal. unfold accepts.
  rewrite (container_read char_signed fmt j Hc); [done| |done|done|by left|cbn [length]; lia].
  destruct j as [| | | | |l|fs]; try done; apply Forall_forall; intros; apply printed_read.
Qed.

(** The text of an array or an object that the printers and the parser read
    alike, nested less deep than the checker's stack, passes the check,
    formatted or not; with signed characters if its strings are ASCII. *)
Theorem JSON_check_print char_signed j : is_container j = true -> printable j = true -> takes_all char_signed j = true ->
  (nest j < Z.to_nat JSON_DEPTH)%nat ->
  JSON_check char_signed (Some (cJSON_Print j)) = Val true /\ JSON_check char_signed (Some (cJSON_PrintUnformatted j)) = Val true.
Proof. intros. split; by apply print_checked. Qed.

Lemma JSON_check_print_witness : let j := JObject [(Some "a"%string, JArray [JNumber (-15, 0%nat); JString ("x" +:+ Newline); JObject []; JNull])] in
  is_container j = true /\ JSON_check true (Some (cJSON_Print j)) = Val true /\ JSON_check true (Some (cJSON_PrintUnformatted j)) = Val true.
Proof.
  intros j. split; [reflexivity|]. apply (JSON_check_print true j); [reflexivity|vm_compute; reflexivity|vm_compute; reflexivity|].
  apply Nat.ltb_lt. vm_compute. reflexivity.
Defined.
