(* ===== verification/SceneCmd.v ===== *)
(** The commands of the scene engine (scene.c): JSON objects are decoded into
    calls of the scene list, and its contents into JSON objects. *)
From stdpp Require Import gmap strings.
From S2P Require Import Prelude Heap CString HashTable SceneTimer SceneCond SceneSync SceneData PtrHash ActionList CondList SceneTruth SceneOps SceneEvent ScenePanel SceneList Json.

Definition OPERATION_MAX_LEN : nat := 16.
Definition COMMAND_MAX_LEN : nat := 16.
Definition TRIGGER_TYPE_MAX_LEN : nat := 32.
Definition TRIGGER_INTERVAL_MAX_LEN : nat := 8.
Definition CONTINUE_TIME_MAX_LEN : nat := 8.
Definition HOUR_MAX_LEN : nat := 8.
Definition JsonValueErr : Z := -286.
Definition DBOpenErr : Z := -265.
Definition JSON_VALUE_ALL : string := "All".

(** A method of [g_pstSceneList]: the class is there.  The lock is not a part
    of the state. *)
Definition scene_lock (g : ptr) : L unit := _ ← load to_scenes g; mret tt.

(** A text that a command cannot do without. *)
Definition need {A} (o : option string) (err : A) (k : string -> L A) : L A :=
  match o with None => mret err | Some s => k s end.
Definition text (key : string) (n : nat) (d : json) : option string := value_text key n "" d.

(** The scene a command names. *)
Definition of_scene_id {A} (g : ptr) (d : json) (err : Z -> A) (k : string -> ptr -> L A) : L A :=
  need (text "Id" INDEX_MAX_LEN d) (err JsonFormatErr) (fun acSceneId =>
    scene_lock g ;;
    pstScene ← scene_list_get g (Some acSceneId);
    if is_null pstScene then mret (err NotFoundErr) else k acSceneId pstScene).
Abbreviation on_scene g d k := (of_scene_id g d (fun e : Z => e) k).

Definition command_scene (id name enable delayed uptime note : string) : scene_info :=
  SceneInfo id name 0 enable delayed uptime note 0 NULL (CondLogic 0 NULL NULL) (CondLogic 0 NULL NULL) NULL.

(** A field of the command, or what [strncpy] takes from [dflt]; one as long as
    the array it is read into is not terminated there. *)
Definition field (key : string) (n : nat) (dflt : string) (d : json) : string := default dflt (text key n d).

Definition hyScene_Add (g : ptr) (pstData : json) : L Z :=
  need (text "Id" INDEX_MAX_LEN pstData) JsonFormatErr (fun acSceneId =>
    scene_lock g ;;
    pstSeneGet ← scene_list_get g (Some acSceneId);
    if negb (is_null pstSeneGet) then
      old ← load to_scene pstSeneGet;
      let f key n (o : scene_info -> string) := field key n (str_take n (o old)) pstData in
      iRet ← scene_list_set g (Some (command_scene acSceneId
        (f "Name" NAME_MAX_LEN acSceneName) (f "Enable" STATE_MAX_LEN acSceneEnable)
        (f "ExecDelayed" DELAYED_MAX_LEN acExecDelayed) (f "UpdateTime" TIME_MAX_LEN acUpdateTime)
        (f "Note" NOTE_MAX_LEN acNote)));
      mret (if negb (iRet =? NoErr) then SceneSetErr else iRet)
    else
      pstScene ← scene_list_add g (Some (command_scene acSceneId
        (field "Name" NAME_MAX_LEN "0" pstData) (field "Enable" STATE_MAX_LEN "1" pstData)
        (field "ExecDelayed" DELAYED_MAX_LEN "0" pstData) (field "UpdateTime" TIME_MAX_LEN "0" pstData)
        (field "Note" NOTE_MAX_LEN "0" pstData)));
      mret (if is_null pstScene then GeneralErr else 0)).

(** The results: an object per entry, appended to the output array.  The texts
    are read to their ends: an array of the entry that is not terminated is read
    past its own. *)
Fixpoint report_items {A} (all_end : A -> bool) (mk : A -> list (string * string)) (iRet : Z) (xs : list A) (out : list json) : L (Z * list json) :=
  match xs with
  | [] => mret (iRet, out)
  | x :: xs =>
      o ← cJSON_CreateObject;
      match o with
      | None => mret (GeneralErr, out)
      | Some o =>
          if negb (all_end x) then fail OutOfBounds else
          o ← add_strings o (mk x); report_items all_end mk iRet xs (out ++ [o])
      end
  end.

Definition scene_texts (sc : scene_info) : list (string * string) :=
  [("Op", "GetScene"); ("Id", acSceneId sc); ("Name", acSceneName sc); ("Enable", acSceneEnable sc);
   ("ExecDelayed", acExecDelayed sc); ("UpdateTime", acUpdateTime sc); ("Note", acNote sc)]%string.

Definition scene_ends (sc : scene_info) : bool :=
  ended INDEX_MAX_LEN (acSceneId sc) && ended NAME_MAX_LEN (acSceneName sc) && ended STATE_MAX_LEN (acSceneEnable sc) &&
  ended DELAYED_MAX_LEN (acExecDelayed sc) && ended TIME_MAX_LEN (acUpdateTime sc) && ended NOTE_MAX_LEN (acNote sc).

(** The report of an empty list. *)
Definition report_none (all_end : bool) (fs : list (string * string)) (out : list json) : L (Z * list json) :=
  report_items (fun _ => all_end) (fun _ => fs) NoErr [tt] out.

Definition hyScene_Get (g : ptr) (pstData : json) (out : list json) : L (Z * list json) :=
  ok ← reserve;
  if negb ok then mret (HeapReqErr, out) else
  scene_lock g ;;
  '(_, xs) ← scene_list_get_list g SCENE_MAX_NUM;
  if bool_decide (xs = []) then report_none true [("Op", "GetScene"); ("Id", "none")]%string out
  else report_items scene_ends scene_texts NoErr xs out.

(** Executing a scene, without the lock; a changed enabling is stored first,
    with the name and the delay copied by the wrong lengths. *)
Definition enabled_scene (id enable : string) (old : scene_info) : scene_info :=
  command_scene id (str_take INDEX_MAX_LEN (acSceneName old)) (str_take STATE_MAX_LEN enable)
    (str_take STATE_MAX_LEN (acExecDelayed old)) (str_take TIME_MAX_LEN (acUpdateTime old))
    (str_take NOTE_MAX_LEN (acNote old)).

Definition hyScene_Exec (g : ptr) (pstData : json) : L Z :=
  on_scene g pstData (fun acSceneId pstScene =>
    sc ← load to_scene pstScene;
    let active (acSceneEnable : string) : L Z :=
      if strn_eq STATE_MAX_LEN acSceneEnable "1" then scene_list_active g pstScene else mret NoErr in
    match text "Enable" STATE_MAX_LEN pstData with
    | None => active (str_take STATE_MAX_LEN (acSceneEnable sc))
    | Some enable =>
        if strn_eq STATE_MAX_LEN (acSceneEnable sc) enable then active enable else
        iRet ← scene_list_set g (Some (enabled_scene acSceneId enable sc));
        if negb (iRet =? NoErr) then mret GeneralErr else active enable
    end).

(** * Actions *)

Definition hyScene_Add_Action (g : ptr) (pstData : json) : L Z :=
  on_scene g pstData (fun _ pstScene =>
    let id := field "ActionId" ACTION_ID_MAX_LEN "0" pstData in
    need (text "DevId" DEV_ID_MAX_LEN pstData) JsonFormatErr (fun dev =>
    need (text "Key" KEY_MAX_LEN pstData) JsonFormatErr (fun key =>
    let coding := field "ValueCoding" VALUE_CODING_MAX_LEN "Original" pstData in
    need (text "Value" VALUE_MAX_LEN pstData) JsonFormatErr (fun value =>
    scene_action_add g pstScene (Some (ActionInfo id dev key coding value "")))))).

Definition hyScene_Del_Action (g : ptr) (pstData : json) : L Z :=
  on_scene g pstData (fun _ pstScene =>
    let id := field "ActionId" ACTION_ID_MAX_LEN "0" pstData in
    need (text "DevId" DEV_ID_MAX_LEN pstData) JsonFormatErr (fun dev =>
    if strn_eq DEV_ID_MAX_LEN dev JSON_VALUE_ALL then scene_action_clear g pstScene 1 else
    need (text "Key" KEY_MAX_LEN pstData) JsonFormatErr (fun key =>
    scene_action_del g pstScene (Some (ActionInfo id dev key "" "" ""))))).

Definition action_texts (id : string) (a : action_info) : list (string * string) :=
  [("Op", "GetAction"); ("Id", id); ("ActionId", acActionId a); ("DevId", atDevId a); ("Key", atKey a);
   ("ValueCoding", acValueCoding a); ("Value", atValue a)]%string.

Definition action_ends (a : action_info) : bool :=
  ended ACTION_ID_MAX_LEN (acActionId a) && ended DEV_ID_MAX_LEN (atDevId a) && ended KEY_MAX_LEN (atKey a) &&
  ended VALUE_CODING_MAX_LEN (acValueCoding a) && ended VALUE_MAX_LEN (atValue a).

Definition hyScene_Get_Action (g : ptr) (pstData : json) (out : list json) : L (Z * list json) :=
  ok ← reserve;
  if negb ok then mret (HeapReqErr, out) else
  of_scene_id g pstData (fun e => (e, out)) (fun _ pstScene =>
    '(iRet, xs) ← scene_action_get_list g pstScene (Z.of_nat ACTION_MAX_NUM);
    if negb (iRet =? NoErr) then mret (iRet, out) else
    sc ← load to_scene pstScene;
    if bool_decide (xs = [])
    then report_none (ended INDEX_MAX_LEN (acSceneId sc)) [("Op", "GetAction"); ("Id", acSceneId sc); ("DevId", "none")]%string out
    else report_items (fun a => ended INDEX_MAX_LEN (acSceneId sc) && action_ends a) (action_texts (acSceneId sc)) iRet xs out).

(** * Events *)

(** A report: every entry that has a device, a key and a value is dispatched. *)
Definition event_of (d : json) : option event_t :=
  match text "DeviceId" DEV_ID_MAX_LEN d, text "Key" KEY_MAX_LEN d, text "Value" VALUE_MAX_LEN d with
  | Some dev, Some key, Some value => Some (Event dev key value)
  | _, _, _ => None
  end.

Section cmd.
Context (char_signed : bool).

Definition hyScene_Del (g : ptr) (pstData : json) : L Z :=
  need (text "Id" INDEX_MAX_LEN pstData) JsonFormatErr (fun acSceneId =>
    scene_lock g ;;
    if strn_eq INDEX_MAX_LEN acSceneId JSON_VALUE_ALL then scene_list_clear char_signed g 1
    else scene_list_del char_signed g (Some acSceneId)).

(** * Panels *)

Definition hyScene_Bind (g : ptr) (pstData : json) : L Z :=
  on_scene g pstData (fun _ pstScene =>
    need (text "DevId" DEV_ID_MAX_LEN pstData) JsonFormatErr (fun dev =>
    need (text "Key" KEY_MAX_LEN pstData) JsonFormatErr (fun key =>
    need (text "Value" VALUE_MAX_LEN pstData) JsonFormatErr (fun value =>
    scene_bind char_signed g pstScene (Some (ScenePanel dev key value "1")))))).

(** A missing value is an error that is not returned: the empty one is used. *)
Definition hyScene_Unbind (g : ptr) (pstData : json) : L Z :=
  on_scene g pstData (fun _ pstScene =>
    need (text "DevId" DEV_ID_MAX_LEN pstData) JsonFormatErr (fun dev =>
    if strn_eq DEV_ID_MAX_LEN dev JSON_VALUE_ALL then scene_bind_clear char_signed g pstScene 1 else
    need (text "Key" KEY_MAX_LEN pstData) JsonFormatErr (fun key =>
    scene_unbind char_signed g pstScene (Some (ScenePanel dev key (field "Value" VALUE_MAX_LEN "" pstData) ""))))).

Definition panel_texts (id : string) (p : scene_panel) : list (string * string) :=
  [("Op", "GetBindScene"); ("Id", id); ("DevId", spDevId p); ("Key", spKey p); ("Value", spValue p)]%string.

Definition panel_ends (p : scene_panel) : bool :=
  ended DEV_ID_MAX_LEN (spDevId p) && ended KEY_MAX_LEN (spKey p) && ended VALUE_MAX_LEN (spValue p).

Definition hyScene_Get_Bind (g : ptr) (pstData : json) (out : list json) : L (Z * list json) :=
  ok ← reserve;
  if negb ok then mret (HeapReqErr, out) else
  of_scene_id g pstData (fun e => (e, out)) (fun _ pstScene =>
    '(iRet, xs) ← scene_bind_get_list g pstScene SCENE_BIND_MAX_NUM;
    if negb (iRet =? NoErr) then mret (iRet, out) else
    sc ← load to_scene pstScene;
    if bool_decide (xs = [])
    then report_none (ended INDEX_MAX_LEN (acSceneId sc)) [("Op", "GetBindScene"); ("Id", acSceneId sc); ("DevId", "none")]%string out
    else report_items (fun p => ended INDEX_MAX_LEN (acSceneId sc) && panel_ends p) (panel_texts (acSceneId sc)) iRet xs out).

(** * Conditions *)

Definition is_or (acLogic : string) : bool := strn_eq LOGIC_MAX_LEN acLogic "Or".
Definition is_and (acLogic : string) : bool := strn_eq LOGIC_MAX_LEN acLogic "And".
Definition is_kind (kind acCondType : string) : bool := strn_eq TYPE_MAX_LEN acCondType kind.

(** A text read with the length [n] into a member of [size] bytes that has
    [room] bytes to the end of its struct: what is written past the struct, or
    spills into the next member, is out of bounds.  (The zeros of [strncpy] fall
    on members that are read later.) *)
Definition read_member (key : string) (n size room : nat) (d : json) : L (option string) :=
  match JSON_value_get key n d with
  | JErr => mret None
  | JKeep => mret (Some "")
  | JText s written =>
      if (room <? written)%nat || (size <? String.length s)%nat then fail OutOfBounds else mret (Some s)
  end.

(** In [time_cond_t], of 284 bytes, the trigger type is at 128 and the interval
    at 160; both are read with the length of a key. *)
Definition sizeof_time_cond : nat := 284.

Definition command_time_cond (d : json) (k : time_cond -> L Z) : L Z :=
  need (text "TimeKey" KEY_MAX_LEN d) JsonFormatErr (fun acTimeKey =>
    trigger ← read_member "TriggerType" KEY_MAX_LEN TRIGGER_TYPE_MAX_LEN (sizeof_time_cond - 128) d;
    interval ← read_member "TriggerInterval" KEY_MAX_LEN TRIGGER_INTERVAL_MAX_LEN (sizeof_time_cond - 160) d;
    need (value_text "TimeKey" KEY_MAX_LEN acTimeKey d) JsonFormatErr (fun acTimeKey =>
    need (text "StartHour" HOUR_MAX_LEN d) JsonFormatErr (fun sh =>
    need (text "StartMinu" HOUR_MAX_LEN d) JsonFormatErr (fun sm =>
    need (text "EndHour" HOUR_MAX_LEN d) JsonFormatErr (fun eh =>
    need (text "EndMinu" HOUR_MAX_LEN d) JsonFormatErr (fun em =>
    need (text "Week" WEEK_MAX_LEN d) JsonFormatErr (fun week =>
    need (text "Repeat" STATE_MAX_LEN d) JsonFormatErr (fun repeat_ =>
    k (TimeCond acTimeKey (default "InstantOnce" trigger) (default "1" interval) 0 sh sm eh em week repeat_ "0"))))))))).

(** The stored condition on the device and key is the start, if there is one. *)
Definition command_event_cond (g pstScene : ptr) (d : json) (acLogic : string) (k : Z -> event_cond -> L Z) : L Z :=
  need (text "DevId" DEV_ID_MAX_LEN d) JsonFormatErr (fun dev =>
  need (text "Key" KEY_MAX_LEN d) JsonFormatErr (fun key =>
    let c := EventCond dev key "" "" "" "" "" in
    '(iRet, got) ← (if is_or acLogic then scene_event_or_cond_get char_signed g pstScene (Some c)
                    else scene_event_and_cond_get char_signed g pstScene (Some c));
    let c := default c got in
    need (value_text "Value" VALUE_MAX_LEN (ecValue c) d) JsonFormatErr (fun value =>
    let trigger := default "InstantOnce" (value_text "TriggerType" TRIGGER_TYPE_MAX_LEN (ecTriggerType c) d) in
    let continue := default "0" (value_text "ContinueTime" CONTINUE_TIME_MAX_LEN (acContinueTime c) d) in
    need (value_text "Active" ACTIVE_MAX_LEN (acActive c) d) JsonFormatErr (fun active =>
    k iRet (EventCond (ecDevId c) (ecKey c) trigger continue value active (acLastValue c)))))).

Definition hyScene_Add_Cond (g : ptr) (pstData : json) : L Z :=
  on_scene g pstData (fun _ pstScene =>
    need (text "Logic" LOGIC_MAX_LEN pstData) JsonFormatErr (fun acLogic =>
    need (text "CondType" TYPE_MAX_LEN pstData) JsonFormatErr (fun acCondType =>
    if is_kind "Time" acCondType then
      command_time_cond pstData (fun c =>
        if is_or acLogic then scene_time_or_cond_add char_signed g pstScene (Some c)
        else if is_and acLogic then scene_time_and_cond_add char_signed g pstScene (Some c)
        else mret 0)
    else if is_kind "Event" acCondType then
      command_event_cond g pstScene pstData acLogic (fun iRet c =>
        if is_or acLogic then scene_event_or_cond_add char_signed g pstScene (Some c)
        else if is_and acLogic then scene_event_and_cond_add char_signed g pstScene (Some c)
        else mret iRet)
    else mret 0))).

(** The conditions of one logic, by the operations on its lists.  The key of an
    event condition is not read. *)
Definition del_conds (g pstScene : ptr) (d : json) (acCondType : string)
    (time_clear event_clear : ptr -> ptr -> Z -> L Z)
    (time_del : ptr -> ptr -> option time_cond -> L Z) (event_del : ptr -> ptr -> option event_cond -> L Z) : L Z :=
  if is_kind "Time" acCondType then
    need (text "TimeKey" KEY_MAX_LEN d) JsonFormatErr (fun key =>
      if strn_eq TYPE_MAX_LEN key JSON_VALUE_ALL then time_clear g pstScene 1
      else time_del g pstScene (Some (TimeCond key "" "" 0 "" "" "" "" "" "" "")))
  else if is_kind "Event" acCondType then
    need (text "DevId" DEV_ID_MAX_LEN d) JsonFormatErr (fun dev =>
      if strn_eq DEV_ID_MAX_LEN dev JSON_VALUE_ALL then event_clear g pstScene 1
      else event_del g pstScene (Some (EventCond dev "" "" "" "" "" "")))
  else if is_kind JSON_VALUE_ALL acCondType then
    r1 ← time_clear g pstScene 1;
    r2 ← event_clear g pstScene 1;
    mret (r1 + r2)
  else mret 0.

Definition hyScene_Del_Cond (g : ptr) (pstData : json) : L Z :=
  on_scene g pstData (fun _ pstScene =>
    need (text "Logic" LOGIC_MAX_LEN pstData) JsonFormatErr (fun acLogic =>
    if strn_eq LOGIC_MAX_LEN acLogic JSON_VALUE_ALL then
      r1 ← scene_time_or_cond_clear char_signed g pstScene 1;
      r2 ← scene_event_or_cond_clear char_signed g pstScene 1;
      r3 ← scene_time_and_cond_clear char_signed g pstScene 1;
      r4 ← scene_event_and_cond_clear char_signed g pstScene 1;
      mret (r1 + r2 + r3 + r4)
    else
      need (text "CondType" TYPE_MAX_LEN pstData) JsonFormatErr (fun acCondType =>
      if is_or acLogic then
        del_conds g pstScene pstData acCondType (scene_time_or_cond_clear char_signed) (scene_event_or_cond_clear char_signed)
          (scene_time_or_cond_del char_signed) (scene_event_or_cond_del char_signed)
      else if is_and acLogic then
        del_conds g pstScene pstData acCondType (scene_time_and_cond_clear char_signed) (scene_event_and_cond_clear char_signed)
          (scene_time_and_cond_del char_signed) (scene_event_and_cond_del char_signed)
      else mret 0))).

Definition cond_head (id acLogic acCondType : string) : list (string * string) :=
  [("Op", "GetScene"); ("Id", id); ("Logic", acLogic); ("CondType", acCondType)]%string.
Definition time_texts (c : time_cond) : list (string * string) :=
  [("TimeKey", acTimeKey c); ("TriggerType", tcTriggerType c); ("TriggerInterval", acTriggerInterval c);
   ("StartHour", acStartHour c); ("StartMinu", acStartMinu c); ("EndHour", acEndHour c); ("EndMinu", acEndMinu c);
   ("Week", acWeek c); ("Repeat", acRepeat c)]%string.
Definition event_texts (c : event_cond) : list (string * string) :=
  [("TriggerType", ecTriggerType c); ("ContinueTime", acContinueTime c); ("DevId", ecDevId c); ("Key", ecKey c);
   ("Value", ecValue c); ("Active", acActive c)]%string.

Definition head_ends (id acLogic acCondType : string) : bool :=
  ended INDEX_MAX_LEN id && ended LOGIC_MAX_LEN acLogic && ended TYPE_MAX_LEN acCondType.
Definition time_ends (c : time_cond) : bool :=
  ended KEY_MAX_LEN (acTimeKey c) && ended TRIGGER_TYPE_MAX_LEN (tcTriggerType c) && ended TRIGGER_INTERVAL_MAX_LEN (acTriggerInterval c) &&
  forallb (ended HOUR_MAX_LEN) [acStartHour c; acStartMinu c; acEndHour c; acEndMinu c] &&
  ended WEEK_MAX_LEN (acWeek c) && ended STATE_MAX_LEN (acRepeat c).
Definition event_ends (c : event_cond) : bool :=
  ended TRIGGER_TYPE_MAX_LEN (ecTriggerType c) && ended CONTINUE_TIME_MAX_LEN (acContinueTime c) && ended DEV_ID_MAX_LEN (ecDevId c) &&
  ended KEY_MAX_LEN (ecKey c) && ended VALUE_MAX_LEN (ecValue c) && ended ACTIVE_MAX_LEN (acActive c).

Definition blank_time : time_cond := TimeCond "" "" "" 0 "" "" "" "" "" "" "".
Definition blank_event : event_cond := EventCond "" "" "" "" "" "" "".
(** What a scene that is triggered by hand shows in place of a condition. *)
Definition manual_event : event_cond := EventCond "0000000000000000" "Manual" "InstantOnce" "0" "0" "Equ" "".

Fixpoint each_as {A} (cast : cond -> L A) (cs : list cond) : L (list A) :=
  match cs with [] => mret [] | c :: cs => x ← cast c; xs ← each_as cast cs; mret (x :: xs) end.

(** With another logic the count stays that of the array, of zeroed entries. *)
Definition hyScene_Get_Cond (g : ptr) (pstData : json) (out : list json) : L (Z * list json) :=
  of_scene_id g pstData (fun e => (e, out)) (fun acSceneId pstScene =>
    need (text "Logic" LOGIC_MAX_LEN pstData) (JsonFormatErr, out) (fun acLogic =>
    need (text "CondType" TYPE_MAX_LEN pstData) (JsonFormatErr, out) (fun acCondType =>
    let top := cond_head acSceneId acLogic acCondType in
    let top_ends := head_ends acSceneId acLogic acCondType in
    if is_kind "Time" acCondType then
      ok ← reserve;
      if negb ok then mret (HeapReqErr, out) else
      '(iRet, cs) ← (if is_or acLogic then scene_time_or_cond_get_list g pstScene (Z.of_nat COND_MAX_NUM)
                     else if is_and acLogic then scene_time_and_cond_get_list g pstScene (Z.of_nat COND_MAX_NUM)
                     else mret (0, replicate COND_MAX_NUM (CTime blank_time)));
      xs ← each_as as_time cs;
      if bool_decide (xs = []) then report_none top_ends (top ++ [("TimeKey", "none")]%string) out
      else report_items (fun c => top_ends && time_ends c) (fun c => top ++ time_texts c) iRet xs out
    else if is_kind "Event" acCondType then
      ok ← reserve;
      if negb ok then mret (HeapReqErr, out) else
      '(iRet, cs) ← (if is_or acLogic then scene_event_or_cond_get_list g pstScene (Z.of_nat COND_MAX_NUM)
                     else if is_and acLogic then scene_event_and_cond_get_list g pstScene (Z.of_nat COND_MAX_NUM)
                     else mret (0, replicate COND_MAX_NUM (CEvent blank_event)));
      xs ← each_as as_event cs;
      sc ← load to_scene pstScene;
      xs ← (if 1 =? cManualTriggerFlag sc
            then if (length xs <? COND_MAX_NUM)%nat then mret (xs ++ [manual_event]) else fail OutOfBounds
            else mret xs);
      if bool_decide (xs = []) then report_none top_ends (top ++ [("DevId", "none")]%string) out
      else report_items (fun c => top_ends && event_ends c) (fun c => top ++ event_texts c) iRet xs out
    else mret (JsonValueErr, out)))).
End cmd.
