(* ===== verification/SceneDispatch.v ===== *)
(** The entry points of the scene engine (scene.c): the dispatch of an array of
    commands, the query with its answer, reports of devices, start and stop. *)
From stdpp Require Import gmap strings.
From S2P Require Import Prelude Heap CString HashTable SceneTimer SceneCond SceneSync SceneData PtrHash ActionList CondList SceneTruth SceneOps SceneEvent ScenePanel SceneList Json JsonText JsonCheck SceneCmd.

(** * One pass over the commands *)

(** What is done for an operation, with the output array; [None]: there was no
    memory for the array of results. *)
Definition handler : Type := json -> list json -> L (option (Z * list json)).

Definition plain (f : json -> L Z) : handler := fun d out => r ← f d; mret (Some (r, out)).

(** The results are collected in an array of their own and copied. *)
Fixpoint copy_items (got out : list json) : L (list json) :=
  match got with
  | [] => mret out
  | j :: got => j' ← cJSON_Duplicate None j; copy_items got (cJSON_AddItemToArray out j')
  end.
Definition collected (f : json -> list json -> L (Z * list json)) : handler := fun d out =>
  a ← cJSON_CreateArray;
  match a with
  | None => mret None
  | Some a =>
      '(r, got) ← f d a;
      out ← copy_items got out;
      mret (Some (r, out))
  end.

Record pass : Type := Pass { ps_in : list json; ps_out : list json; ps_ret : Z; ps_op : string }.

(** An element whose operation cannot be read is skipped; the first pass
    forgets the results so far.  A handled element is deleted, and the index
    stays. *)
Definition pass_step (first : bool) (table : string -> option handler) :
    Z * Z * pass -> L (Z * Z * pass + pass) := fun '(i, iCount, p) =>
  if iCount <=? i then mret (inr p) else
  match cJSON_GetArrayItem (ps_in p) i with
  | None => mret (inl (i + 1, iCount, p))
  | Some d =>
      match value_text "Op" OPERATION_MAX_LEN (ps_op p) d with
      | None => mret (inl (i + 1, iCount,
                  Pass (ps_in p) (ps_out p) (if first then JsonFormatErr else ps_ret p) (ps_op p)))
      | Some op =>
          match table op with
          | None => mret (inl (i + 1, iCount, Pass (ps_in p) (ps_out p) (ps_ret p) op))
          | Some h =>
              r ← h d (ps_out p);
              match r with
              | None => mret (inl (i + 1, iCount, Pass (ps_in p) (ps_out p) GeneralErr op))
              | Some (z, out) =>
                  mret (inl (i, iCount - 1, Pass (cJSON_DeleteItemFromArray (ps_in p) i) out (ps_ret p + z) op))
              end
          end
      end
  end.
Definition run_pass (first : bool) (table : string -> option handler) (p : pass) : L pass :=
  loop (S (length (ps_in p))) (pass_step first table) (0, cJSON_GetArraySize (ps_in p), p).

Definition is_op (op acOp : string) : bool := strn_eq OPERATION_MAX_LEN acOp op.

(** The last pass deletes nothing. *)
Definition exec_step (exec : json -> L Z) : Z * Z * pass -> L (Z * Z * pass + pass) := fun '(i, iCount, p) =>
  if iCount <=? i then mret (inr p) else
  match cJSON_GetArrayItem (ps_in p) i with
  | None => mret (inl (i + 1, iCount, p))
  | Some d =>
      match value_text "Op" OPERATION_MAX_LEN (ps_op p) d with
      | None => mret (inl (i + 1, iCount, p))
      | Some op =>
          if is_op "ExecScene" op then
            r ← exec d; mret (inl (i + 1, iCount, Pass (ps_in p) (ps_out p) (ps_ret p + r) op))
          else mret (inl (i + 1, iCount, Pass (ps_in p) (ps_out p) (ps_ret p) op))
      end
  end.
Definition run_exec (exec : json -> L Z) (p : pass) : L pass :=
  loop (S (length (ps_in p))) (exec_step exec) (0, cJSON_GetArraySize (ps_in p), p).

Section entry.
Context (char_signed : bool).

Definition scene_table (g : ptr) (acOp : string) : option handler :=
  if is_op "AddScene" acOp then Some (plain (hyScene_Add g))
  else if is_op "DelScene" acOp then Some (plain (hyScene_Del char_signed g))
  else if is_op "GetScene" acOp then Some (collected (hyScene_Get g))
  else None.
Definition other_table (g : ptr) (acOp : string) : option handler :=
  if is_op "AddAction" acOp then Some (plain (hyScene_Add_Action g))
  else if is_op "DelAction" acOp then Some (plain (hyScene_Del_Action g))
  else if is_op "GetAction" acOp then Some (collected (hyScene_Get_Action g))
  else if is_op "AddCond" acOp then Some (plain (hyScene_Add_Cond char_signed g))
  else if is_op "DelCond" acOp then Some (plain (hyScene_Del_Cond char_signed g))
  else if is_op "GetCond" acOp then Some (collected (hyScene_Get_Cond g))
  else if is_op "BindScene" acOp then Some (plain (hyScene_Bind char_signed g))
  else if is_op "UnbindScene" acOp then Some (plain (hyScene_Unbind char_signed g))
  else if is_op "GetBindScene" acOp then Some (collected (hyScene_Get_Bind g))
  else None.

(** Scenes first, then what belongs to them, then executions. *)
Definition hyScene_Dispatch (g : ptr) (pstDataArryIn pstDataArryOut : list json) : L (Z * list json) :=
  p ← run_pass true (scene_table g) (Pass pstDataArryIn pstDataArryOut 0 "");
  p ← run_pass false (other_table g) p;
  p ← run_exec (hyScene_Exec g) p;
  mret (ps_ret p, ps_out p).

(** The answer: a report with the results as its data. *)
Definition hyScene_Report (pstDataArryIn : list json) (pstJsonOut : json) : L json :=
  o ← add_strings pstJsonOut [("Command", "Report"); ("FrameNumber", "00"); ("Type", "LocalScene")]%string;
  copy ← reserve;
  mret (add_item o (if (copy : bool) then Some "Data" else None) (JArray pstDataArryIn)).

(** The result, and the text copied to the caller's buffer, if it has one of
    [outSize] bytes, with the length it is told.  Memory for the printed text is
    taken for granted. *)
Definition scene_query (g : ptr) (inputBuff : option string) (outSize : option nat) : L (Z * option (string * Z)) :=
  if is_null g then mret (GeneralErr, None) else
  match inputBuff with
  | None => mret (ParaErr, None)
  | Some input =>
      arr ← cJSON_CreateArray;
      match cJSON_Parse input with
      | None => mret (JsonFormatErr, None)
      | Some pstJson =>
          need (text "Type" TYPE_MAX_LEN pstJson) (JsonFormatErr, None) (fun acType =>
          if negb (strn_eq TYPE_MAX_LEN acType "LocalScene") then mret (JsonFormatErr, None) else
          need (text "Command" COMMAND_MAX_LEN pstJson) (JsonFormatErr, None) (fun acCommand =>
          match JSON_array_get "Data" pstJson with
          | None => mret (JsonFormatErr, None)
          | Some pstDataArry =>
              if negb (strn_eq COMMAND_MAX_LEN acCommand "Dispatch") then mret (JsonFormatErr, None) else
              '(iRet, out) ← hyScene_Dispatch g pstDataArry [];
              if negb (bool_decide (is_Some arr)) then fail NullDeref else
              if (NoErr =? iRet) && negb (0 =? cJSON_GetArraySize out) then
                pstJsonOut ← cJSON_CreateObject;
                match pstJsonOut with
                | None => mret (GeneralErr, None)
                | Some o =>
                    o ← hyScene_Report out o;
                    pstr ← get_or OutOfBounds (cJSON_Minify (cJSON_Print o));
                    mret (NoErr, (fun n => (str_take n pstr, Z.of_nat (Nat.min n (String.length pstr)))) <$> outSize)
                end
              else mret (iRet, None)
          end))
      end
  end.

(** * Reports of devices *)

(** The values of a report in order; one that lacks a text is skipped. *)
Definition event_items (g : ptr) : list json -> L unit := each (fun d =>
  match event_of d with
  | Some ev => _ ← scene_list_event char_signed g (Some ev); mret tt
  | None => mret tt
  end).
Definition unregister_items (g : ptr) : list json -> L unit := each (fun d =>
  match text "DeviceId" DEV_ID_MAX_LEN d with
  | Some dev => _ ← scene_list_dev_unregister char_signed g dev; mret tt
  | None => mret tt
  end).

Definition is_type (t acType : string) : bool := strn_eq TYPE_MAX_LEN acType t.

Definition json_checked (s : string) : L bool :=
  match Checker.JSON_check char_signed (Some s) with Val ok => mret ok | Fault f => fail f end.

(** A report that was parsed. *)
Definition event_report (g : ptr) (pstJson : json) : L Z :=
  need (text "Type" TYPE_MAX_LEN pstJson) JsonFormatErr (fun acType =>
  let items (run : list json -> L unit) : L Z :=
    match JSON_array_get "Data" pstJson with
    | None => mret JsonFormatErr
    | Some l => run l ;; mret NoErr
    end in
  if is_type "Attribute" acType || is_type "Event" acType then items (event_items g)
  else if is_type "UnRegister" acType then items (unregister_items g)
  else if is_type "ReFactory" acType then _ ← scene_list_clear char_signed g 1; mret NoErr
  else mret NoErr).

(** None of it takes the lock. *)
Definition scene_event (g : ptr) (inputBuff : string) : L Z :=
  if is_null g then mret GeneralErr else
  ok ← json_checked inputBuff;
  if negb ok then mret JsonFormatErr else
  match cJSON_Parse inputBuff with
  | None => mret JsonFormatErr
  | Some pstJson => event_report g pstJson
  end.

Definition scene_event2 (g : ptr) (devId key value : string) : L Z :=
  if is_null g then mret GeneralErr else
  scene_list_event char_signed g
    (Some (Event (str_take DEV_ID_MAX_LEN devId) (str_take KEY_MAX_LEN key) (str_take VALUE_MAX_LEN value))).

Definition scene_query_report_reg (g funName : ptr) : L Z :=
  if is_null g then mret GeneralErr else scene_report_reg g funName.
Definition scene_action_cb_reg (iCbid : Z) (pFun pUserData : ptr) : L Z := action_callback_reg iCbid pFun pUserData.

(** * Start and stop *)

(** The result and [g_pstSceneList]; a failing load is not noticed. *)
Definition scene_init (db_open : bool) (threads : bool * bool) (exist : bool * bool * bool * bool)
    (scene_rows_ : option (list scene_info)) (rows : string -> scene_rows) : L (Z * ptr) :=
  if negb db_open then mret (DBOpenErr, NULL) else
  g ← new_scene_list threads;
  if is_null g then mret (GeneralErr, NULL) else
  _ ← scene_list_init char_signed g exist scene_rows_ rows;
  mret (NoErr, g).

(** All scenes are deleted one by one, by their ids. *)
Definition scene_clean (g : ptr) : L Z :=
  if is_null g then mret GeneralErr else
  ok ← reserve;
  if negb ok then mret HeapReqErr else
  '(_, xs) ← scene_list_get_list g SCENE_MAX_NUM;
  (fix go (xs : list scene_info) (iRet : Z) : L Z :=
    match xs with
    | [] => mret iRet
    | sc :: xs => r ← scene_list_del char_signed g (Some (acSceneId sc)); go xs (iRet + r)
    end) xs 0.

(** The global pointer stays. *)
Definition scene_destroy (g : ptr) : L Z :=
  if is_null g then mret GeneralErr else destroy_scene_list char_signed g.
End entry.
