(* ===== verification/DispatchProps.v ===== *)
(** What the dispatch of commands does: the loops that delete from the array
    they walk are three plain traversals. *)
From stdpp Require Import gmap strings.
From S2P Require Import Prelude Heap CString SceneSync SceneData ActionList SceneTruth SceneEvent SceneList RemoveProps Json SceneCmd SceneDispatch.

(** * The traversals *)

(** The operation of an element whose operation is not null. *)
Definition op_text (d : json) : option string := value_text "Op" OPERATION_MAX_LEN "" d.
Definition has_op (d : json) : Prop := JSON_value_get "Op" OPERATION_MAX_LEN d <> JKeep.

(** Each element in order; one without an operation replaces the results of
    those before it, if [first], and so does one without memory. *)
Fixpoint perform (first : bool) (table : string -> option handler) (ds : list json) (ret : Z) (out : list json) :
    L (Z * list json) :=
  match ds with
  | [] => mret (ret, out)
  | d :: ds =>
      match op_text d with
      | None => perform first table ds (if first then JsonFormatErr else ret) out
      | Some op =>
          match table op with
          | None => perform first table ds ret out
          | Some h =>
              r ← h d out;
              match r with
              | None => perform first table ds GeneralErr out
              | Some (z, out) => perform first table ds (ret + z) out
              end
          end
      end
  end.

(** [kept] is [ds] without some elements that [table] handles. *)
Inductive thinned (table : string -> option handler) : list json -> list json -> Prop :=
| thin_nil : thinned table [] []
| thin_keep d ds kept : thinned table ds kept -> thinned table (d :: ds) (d :: kept)
| thin_drop d ds kept op h :
    op_text d = Some op -> table op = Some h -> thinned table ds kept -> thinned table (d :: ds) kept.

Lemma thinned_length table ds kept : thinned table ds kept -> (length kept <= length ds)%nat.
Proof. induction 1; simpl; lia. Qed.
Lemma thinned_ops table ds kept : thinned table ds kept -> Forall has_op ds -> Forall has_op kept.
Proof. induction 1; [done| |]; intros [? ?]%Forall_cons; [constructor|]; auto. Qed.

(** Elements that another table handles do not matter. *)
Lemma perform_thinned first table table' ds kept :
  thinned table ds kept -> (forall op h, table op = Some h -> table' op = None) -> forall ret out s,
  perform first table' kept ret out s = perform first table' ds ret out s.
Proof.
  intros Ht Hd. induction Ht as [|d ds kept _ IH|d ds kept op h Hop Htab _ IH]; intros ret out s; [done| |].
  - cbn [perform]. destruct (op_text d) as [op|]; [|apply IH]. destruct (table' op) as [h|]; [|apply IH].
    unfold mbind, M_bind. destruct (h d out s) as [[[[z o]|] s']|]; [apply IH|apply IH|done].
  - cbn [perform]. rewrite Hop, (Hd _ _ Htab). apply IH.
Qed.

Lemma read_op d op : has_op d -> value_text "Op" OPERATION_MAX_LEN op d = op_text d.
Proof. unfold has_op, op_text, value_text. by destruct (JSON_value_get _ _ _). Qed.

Lemma item_middle (l1 : list json) d l2 : cJSON_GetArrayItem (l1 ++ d :: l2) (Z.of_nat (length l1)) = Some d.
Proof.
  unfold cJSON_GetArrayItem. destruct (Z.ltb_spec (Z.of_nat (length l1)) 0); [lia|].
  rewrite Nat2Z.id. by apply list_lookup_middle.
Qed.
Lemma delete_middle (l1 : list json) d l2 : cJSON_DeleteItemFromArray (l1 ++ d :: l2) (Z.of_nat (length l1)) = l1 ++ l2.
Proof.
  unfold cJSON_DeleteItemFromArray. destruct (Z.ltb_spec (Z.of_nat (length l1)) 0); [lia|].
  rewrite Nat2Z.id, take_app_length. rewrite (cons_middle d l1 l2), app_assoc.
  replace (S (length l1)) with (length (l1 ++ [d])) by (rewrite length_app; simpl; lia). by rewrite drop_app_length.
Qed.

(** The result of a traversal, given that of the plain one. *)
Definition passes table kept ds (r : res (Z * list json * mem)) (p : res (pass * mem)) : Prop :=
  match r with
  | Fault e => p = Fault e
  | Val ((ret, out), s') => exists kept' op, p = Val (Pass (kept ++ kept') out ret op, s') /\ thinned table ds kept'
  end.

Lemma passes_keep table kept d ds r p : passes table (kept ++ [d]) ds r p -> passes table kept (d :: ds) r p.
Proof.
  destruct r as [[[ret out] s']|]; [|done]. intros (kept' & op & -> & Ht). exists (d :: kept'), op.
  rewrite <- app_assoc. split; [done|]. by constructor.
Qed.

(** A loop by one step; a step by the element it is at. *)
Lemma loop_run {A R} fuel (body : A -> L (A + R)) a s :
  loop (S fuel) body a s =
  match body a s with
  | Fault e => Fault e
  | Val (inl a', s') => loop fuel body a' s'
  | Val (inr x, s') => Val (x, s')
  end.
Proof. rewrite loop_S. unfold mbind, M_bind. by destruct (body a s) as [[[a'|x] s']|e]. Qed.

Lemma pass_step_end first table i n p s : n <= i -> pass_step first table (i, n, p) s = Val (inr p, s).
Proof. intros H. unfold pass_step. by rewrite (proj2 (Z.leb_le n i) H). Qed.

Lemma pass_step_at first table (l1 : list json) d l2 n out ret op s :
  Z.of_nat (length l1) < n -> has_op d ->
  pass_step first table (Z.of_nat (length l1), n, Pass (l1 ++ d :: l2) out ret op) s =
  match op_text d with
  | None => Val (inl (Z.of_nat (length l1) + 1, n, Pass (l1 ++ d :: l2) out (if first then JsonFormatErr else ret) op), s)
  | Some o =>
      match table o with
      | None => Val (inl (Z.of_nat (length l1) + 1, n, Pass (l1 ++ d :: l2) out ret o), s)
      | Some h =>
          match h d out s with
          | Fault e => Fault e
          | Val (None, s') => Val (inl (Z.of_nat (length l1) + 1, n, Pass (l1 ++ d :: l2) out GeneralErr o), s')
          | Val (Some (z, out), s') => Val (inl (Z.of_nat (length l1), n - 1, Pass (l1 ++ l2) out (ret + z) o), s')
          end
      end
  end.
Proof.
  intros Hn Hd. unfold pass_step. rewrite (proj2 (Z.leb_gt n _) Hn). cbn [ps_in ps_out ps_ret ps_op].
  rewrite item_middle, (read_op _ _ Hd), delete_middle. destruct (op_text d) as [o|]; [|done].
  destruct (table o) as [h|]; [|done]. unfold mbind, M_bind. by destruct (h d out s) as [[[[z o']|] s']|].
Qed.

Lemma pass_loop first table ds : forall fuel kept out ret op s,
  Forall has_op ds -> (length ds < fuel)%nat ->
  passes table kept ds (perform first table ds ret out s)
    (loop fuel (pass_step first table)
       (Z.of_nat (length kept), Z.of_nat (length kept + length ds), Pass (kept ++ ds) out ret op) s).
Proof.
  induction ds as [|d ds IH]; intros fuel kept out ret op s Ho Hf; (destruct fuel as [|fuel]; [simpl in Hf; lia|]);
    rewrite loop_run; cbn [perform length] in *.
  - rewrite pass_step_end by lia. exists [], op. split; [done|constructor].
  - apply Forall_cons in Ho as [Hd Ho]. rewrite pass_step_at by (done || lia).
    assert (Hstep : forall out' ret' op' s0, passes table kept (d :: ds) (perform first table ds ret' out' s0)
      (loop fuel (pass_step first table)
        (Z.of_nat (length kept) + 1, Z.of_nat (length kept + S (length ds)), Pass (kept ++ d :: ds) out' ret' op') s0)).
    { intros out' ret' op' s0. apply passes_keep. specialize (IH fuel (kept ++ [d]) out' ret' op' s0 Ho ltac:(lia)).
      rewrite length_app in IH. cbn [length] in IH. rewrite <- app_assoc in IH. cbn [app] in IH.
      replace (Z.of_nat (length kept) + 1) with (Z.of_nat (length kept + 1)) by lia.
      replace (length kept + S (length ds))%nat with (length kept + 1 + length ds)%nat by lia. exact IH. }
    destruct (op_text d) as [o|] eqn:Hop; [|apply Hstep]. destruct (table o) as [h|] eqn:Hh; [|apply Hstep].
    unfold mbind, M_bind. destruct (h d out s) as [[[[z o']|] s']|]; [|apply Hstep|done].
    specialize (IH fuel kept o' (ret + z) o s' Ho ltac:(lia)).
    replace (Z.of_nat (length kept + S (length ds)) - 1) with (Z.of_nat (length kept + length ds)) by lia.
    destruct (perform first table ds (ret + z) o' s') as [[[r1 o1] s1]|]; [|exact IH].
    destruct IH as (kept' & op' & -> & Ht). exists kept', op'. split; [done|]. by eapply thin_drop.
Qed.

Lemma run_pass_perform first table ds out ret op s :
  Forall has_op ds -> Z.of_nat (length ds) < 2 ^ 31 ->
  passes table [] ds (perform first table ds ret out s) (run_pass first table (Pass ds out ret op) s).
Proof.
  intros Ho Hn. unfold run_pass, cJSON_GetArraySize. cbn [ps_in]. rewrite s32_small by (unfold INT_MIN, INT_MAX; lia).
  apply (pass_loop first table ds _ [] out ret op s Ho). lia.
Qed.

(** The last traversal. *)
Definition exec_table (exec : json -> L Z) (acOp : string) : option handler :=
  if is_op "ExecScene" acOp then Some (plain exec) else None.

(** The result of the last traversal, given that of the plain one. *)
Definition runs ds (r : res (Z * list json * mem)) (p : res (pass * mem)) : Prop :=
  match r with
  | Fault e => p = Fault e
  | Val ((ret, out), s') => exists op, p = Val (Pass ds out ret op, s')
  end.

Lemma exec_step_end exec i n p s : n <= i -> exec_step exec (i, n, p) s = Val (inr p, s).
Proof. intros H. unfold exec_step. by rewrite (proj2 (Z.leb_le n i) H). Qed.

Lemma exec_step_at exec (l1 : list json) d l2 n out ret op s :
  Z.of_nat (length l1) < n -> has_op d ->
  let at_ out ret op := (Z.of_nat (length l1) + 1, n, Pass (l1 ++ d :: l2) out ret op) in
  exec_step exec (Z.of_nat (length l1), n, Pass (l1 ++ d :: l2) out ret op) s =
  match op_text d with
  | None => Val (inl (at_ out ret op), s)
  | Some o =>
      if is_op "ExecScene" o then
        match exec d s with Fault e => Fault e | Val (z, s') => Val (inl (at_ out (ret + z) o), s') end
      else Val (inl (at_ out ret o), s)
  end.
Proof.
  intros Hn Hd. unfold exec_step. rewrite (proj2 (Z.leb_gt n _) Hn). cbn [ps_in ps_out ps_ret ps_op].
  rewrite item_middle, (read_op _ _ Hd). destruct (op_text d) as [o|]; [|done].
  destruct (is_op "ExecScene" o); [|done]. unfold mbind, M_bind. by destruct (exec d s) as [[z s']|].
Qed.

Lemma exec_loop exec ds : forall fuel before out ret op s,
  Forall has_op ds -> (length ds < fuel)%nat ->
  runs (before ++ ds) (perform false (exec_table exec) ds ret out s)
    (loop fuel (exec_step exec)
       (Z.of_nat (length before), Z.of_nat (length before + length ds), Pass (before ++ ds) out ret op) s).
Proof.
  induction ds as [|d ds IH]; intros fuel before out ret op s Ho Hf; (destruct fuel as [|fuel]; [simpl in Hf; lia|]);
    rewrite loop_run; cbn [perform length] in *.
  - rewrite exec_step_end by lia. by exists op.
  - apply Forall_cons in Ho as [Hd Ho]. rewrite exec_step_at by (done || lia). cbn zeta.
    assert (Hstep : forall ret' op' s0, runs (before ++ d :: ds) (perform false (exec_table exec) ds ret' out s0)
      (loop fuel (exec_step exec)
        (Z.of_nat (length before) + 1, Z.of_nat (length before + S (length ds)), Pass (before ++ d :: ds) out ret' op') s0)).
    { intros ret' op' s0. specialize (IH fuel (before ++ [d]) out ret' op' s0 Ho ltac:(lia)).
      rewrite length_app in IH. cbn [length] in IH. rewrite <- app_assoc in IH. cbn [app] in IH.
      replace (Z.of_nat (length before) + 1) with (Z.of_nat (length before + 1)) by lia.
      replace (length before + S (length ds))%nat with (length before + 1 + length ds)%nat by lia. exact IH. }
    destruct (op_text d) as [o|] eqn:Hop; [|apply Hstep].
    unfold exec_table at 1. destruct (is_op "ExecScene" o); [|apply Hstep].
    unfold plain, mbind, M_bind. destruct (exec d s) as [[z s']|]; [|done]. apply Hstep.
Qed.

Lemma run_exec_perform exec ds out ret op s :
  Forall has_op ds -> Z.of_nat (length ds) < 2 ^ 31 ->
  runs ds (perform false (exec_table exec) ds ret out s) (run_exec exec (Pass ds out ret op) s).
Proof.
  intros Ho Hn. unfold run_exec, cJSON_GetArraySize. cbn [ps_in]. rewrite s32_small by (unfold INT_MIN, INT_MAX; lia).
  apply (exec_loop exec ds _ [] out ret op s Ho). lia.
Qed.

(** * Dispatch *)

Lemma is_op_inj a b op : is_op a op = true -> is_op b op = true -> strn_eq OPERATION_MAX_LEN a b = true.
Proof. unfold is_op, strn_eq. rewrite !bool_decide_eq_true. congruence. Qed.

Section dispatch.
Context (char_signed : bool) (g : ptr).

Lemma scene_table_ops op h : scene_table char_signed g op = Some h ->
  is_op "AddScene" op = true \/ is_op "DelScene" op = true \/ is_op "GetScene" op = true.
Proof. unfold scene_table. repeat destruct (is_op _ _); intros; tauto || discriminate. Qed.

(** No operation is in two tables. *)
Lemma is_op_other a b op : is_op a op = true -> strn_eq OPERATION_MAX_LEN a b = false -> is_op b op = false.
Proof. intros Ha Hn. destruct (is_op b op) eqn:Hb; [|done]. by rewrite (is_op_inj _ _ _ Ha Hb) in Hn. Qed.

Lemma scene_not_other op h : scene_table char_signed g op = Some h -> other_table char_signed g op = None.
Proof.
  intros H. apply scene_table_ops in H.
  unfold other_table. destruct H as [H|[H|H]]; by rewrite !(is_op_other _ _ _ H) by reflexivity.
Qed.
Lemma exec_not_in op h : exec_table (hyScene_Exec g) op = Some h ->
  scene_table char_signed g op = None /\ other_table char_signed g op = None.
Proof.
  unfold exec_table, scene_table, other_table. destruct (is_op "ExecScene" op) eqn:E; [intros _|discriminate].
  split; by rewrite !(is_op_other _ _ _ E) by reflexivity.
Qed.
Lemma not_exec op h : scene_table char_signed g op = Some h \/ other_table char_signed g op = Some h ->
  exec_table (hyScene_Exec g) op = None.
Proof.
  destruct (exec_table (hyScene_Exec g) op) as [h'|] eqn:E; [|done].
  apply exec_not_in in E as [-> ->]. by intros [].
Qed.

(** C10: the three loops over the commands, which delete the elements they handle
    while they walk, are three traversals of the whole array: first the commands
    on scenes, then those on what belongs to scenes, then the executions.  No
    command is done twice or left out. *)
Theorem hyScene_Dispatch_three_passes arr out s :
  Forall has_op arr -> Z.of_nat (length arr) < 2 ^ 31 ->
  hyScene_Dispatch char_signed g arr out s =
  (('(r, o) ← perform true (scene_table char_signed g) arr 0 out;
    '(r, o) ← perform false (other_table char_signed g) arr r o;
    perform false (exec_table (hyScene_Exec g)) arr r o) : L _) s.
Proof.
  intros Ho Hn. unfold hyScene_Dispatch. cbv [mbind M_bind].
  pose proof (run_pass_perform true (scene_table char_signed g) arr out 0 "" s Ho Hn) as H1.
  destruct (perform true _ arr 0 out s) as [[[r1 o1] s1]|]; [|by rewrite H1].
  destruct H1 as (k1 & op1 & -> & T1). cbn [app].
  pose proof (thinned_length _ _ _ T1). pose proof (thinned_ops _ _ _ T1 Ho) as Ho1.
  pose proof (run_pass_perform false (other_table char_signed g) k1 o1 r1 op1 s1 Ho1 ltac:(lia)) as H2.
  rewrite (perform_thinned false _ _ _ _ T1 scene_not_other) in H2.
  destruct (perform false _ arr r1 o1 s1) as [[[r2 o2] s2]|]; [|by rewrite H2].
  destruct H2 as (k2 & op2 & -> & T2). cbn [app].
  pose proof (thinned_length _ _ _ T2). pose proof (thinned_ops _ _ _ T2 Ho1) as Ho2.
  pose proof (run_exec_perform (hyScene_Exec g) k2 o2 r2 op2 s2 Ho2 ltac:(lia)) as H3.
  rewrite (perform_thinned false _ _ _ _ T2) in H3 by eauto using not_exec.
  rewrite (perform_thinned false _ _ _ _ T1) in H3 by eauto using not_exec.
  destruct (perform false _ arr r2 o2 s2) as [[[r3 o3] s3]|]; [|by rewrite H3].
  by destruct H3 as (op3 & ->).
Qed.
End dispatch.

(** An addition sent after an execution is done before it. *)
Definition op_object (fs : list (string * string)) : json := JObject ((fun f => (Some f.1, JString f.2)) <$> fs).
Definition two_commands : list json :=
  [op_object [("Op", "ExecScene"); ("Id", "s1")]%string; op_object [("Op", "AddScene"); ("Id", "s2")]%string].

Lemma hyScene_Dispatch_three_passes_witness :
  hyScene_Dispatch true (Some 50%positive) two_commands [] doomed_mem =
  (('(r, o) ← perform true (scene_table true (Some 50%positive)) two_commands 0 [];
    '(r, o) ← perform false (other_table true (Some 50%positive)) two_commands r o;
    perform false (exec_table (hyScene_Exec (Some 50%positive))) two_commands r o) : L _) doomed_mem.
Proof.
  apply (hyScene_Dispatch_three_passes true (Some 50%positive) two_commands [] doomed_mem).
  - repeat constructor; vm_compute; discriminate.
  - vm_compute. reflexivity.
Defined.
