(* ===== verification/EngineProps.v ===== *)
(** The scene engine as a whole: what its scenes own is apart, their ids are
    different, and the pointer table has no handle but theirs.  The operations
    on scenes keep this, and cleaning leaves nothing. *)
From stdpp Require Import gmap strings.
From S2P Require Import Prelude Heap CString HashTable SceneTimer SceneCond SceneSync SceneData PtrHash PtrRefine PtrProps ActionList CondList CondRefine SceneTruth SceneRefine SceneFire SceneOps SceneEvent OpsRefine OpsProps DelProps ScenePanel SceneList SceneRemove RemoveProps AddProps Json SceneCmd SceneDispatch.

(** A scene with all it owns. *)
Record held : Type := Held {
  hAt : positive; hScene : scene_info; hLists : lists; hAction : positive; hPanels : list (positive * scene_panel)
}.
Definition holds (s : mem) (d : held) : Prop := owned s (hAt d) (hScene d) (hLists d) (hAction d) (hPanels d).
Definition all_parts (d : held) : list positive := hAt d :: parts (hScene d) (hPanels d).
Definition everything (ds : list held) : list positive := concat (all_parts <$> ds).
Definition id_of (sc : scene_info) : string := str_take INDEX_MAX_LEN (acSceneId sc).

Lemma named_id id sc : named id sc = true <-> id_of sc = str_take INDEX_MAX_LEN id.
Proof. unfold named, strn_eq, id_of. apply bool_decide_eq_true. Qed.
Lemma named_not id sc : named id sc = false <-> id_of sc <> str_take INDEX_MAX_LEN id.
Proof. unfold named, strn_eq, id_of. apply bool_decide_eq_false. Qed.
Lemma of_scene_id_of id n : of_scene id n <-> id_of (zero_scene (piId n.2)) = str_take INDEX_MAX_LEN id.
Proof. unfold of_scene, strn_eq, id_of. cbn [acSceneId zero_scene]. rewrite str_take_take. apply bool_decide_eq_true. Qed.

Lemma elem_everything p ds : p ∈ everything ds <-> exists d, d ∈ ds /\ p ∈ all_parts d.
Proof.
  unfold everything. rewrite list_elem_of_In, in_concat. split.
  - intros (l & Hl & Hp). apply list_elem_of_In, list_elem_of_fmap in Hl as (d & -> & Hd). exists d.
    split; [done|]. by apply list_elem_of_In.
  - intros (d & Hd & Hp). exists (all_parts d). split; apply list_elem_of_In; [|done].
    by apply (list_elem_of_fmap_2 all_parts).
Qed.
Lemma everything_app l1 l2 : everything (l1 ++ l2) = everything l1 ++ everything l2.
Proof. unfold everything. by rewrite fmap_app, concat_app. Qed.
Lemma everything_cons d l : everything (d :: l) = all_parts d ++ everything l.
Proof. done. Qed.

Lemma everything_scenes ds : NoDup (everything ds) -> NoDup (hAt <$> ds).
Proof.
  induction ds as [|d ds IH]; [constructor|]. rewrite everything_cons, NoDup_app. intros (_ & Hd & N).
  cbn [fmap list_fmap]. constructor; [|by apply IH]. intros (y & Heq & Hy)%list_elem_of_fmap.
  apply (Hd (hAt d)); [by left|]. apply elem_everything. exists y. split; [done|]. rewrite Heq. by left.
Qed.

(** The parts of a scene are objects of scenes. *)
Lemma holds_parts s d p : holds s d -> p ∈ all_parts d -> exists o, cells s !! p = Some o /\ scene_obj o.
Proof.
  intros [R _ [Ha [l Hl]] _ Hs _] [->|Hp]%elem_of_cons; [by eexists; split; [apply R|]|].
  unfold parts, list_ptrs in Hp. rewrite !elem_of_app, Ha in Hp.
  assert (Hlist : forall x t, p ∈ option_list (list_ptr (hScene d) x t) -> exists o, cells s !! p = Some o /\ scene_obj o).
  { intros x t Hin. destruct (sa_lists _ _ _ _ R x t) as (b & Hb & Hc). rewrite Hb in Hin.
    apply list_elem_of_singleton in Hin as ->. by eexists. }
  destruct Hp as [[H|[H|[H|H]]]|[H|H]]; [by eapply Hlist..| |].
  - apply list_elem_of_singleton in H as ->. by eexists.
  - destruct (pseg_cells _ _ _ _ Hs H) as [n Hn]. by eexists.
Qed.

Lemma elem_list_ptr sc x t b : list_ptr sc x t = Some b -> b ∈ list_ptrs sc.
Proof. intros H. unfold list_ptrs. destruct x, t; rewrite H; set_solver. Qed.

(** A scene whose parts stay is held on. *)
Lemma holds_kept s s' d :
  holds s d -> (forall p o, p ∈ all_parts d -> scene_obj o -> cells s !! p = Some o -> cells s' !! p = Some o) -> holds s' d.
Proof.
  intros [R K [Ha [l Hl]] F Hs N] Hk. split; [split| | | | |]; [| |apply R|done| |done| |done].
  - apply Hk; [by left|done|apply R].
  - intros x t. destruct (sa_lists _ _ _ _ R x t) as (b & Hb & Hc). exists b. split; [done|].
    apply Hk; [|done..]. right. unfold parts. rewrite !elem_of_app. left. by eapply elem_list_ptr.
  - split; [done|]. exists l. apply Hk; [|done..]. right. unfold parts. rewrite Ha, !elem_of_app. right. left. by left.
  - eapply pseg_frame; [|exact Hs]. intros p o Hp Ho. apply Hk; [|by destruct (pseg_cells _ _ _ _ Hs Hp); simplify_eq|done].
    right. unfold parts. rewrite !elem_of_app. by do 2 right.
Qed.

(** The handles of a scene are among the conditions and panels it has. *)
Definition handles_bound (m : string -> list pnode) (d : held) : Prop :=
  forall key, (count_of (acSceneId (hScene d)) (m key) <= occurrences key (scene_keys (hLists d) (hPanels d)))%nat.

Section engine.
Context (char_signed : bool) (this tbl : positive).
Abbreviation tabled := (tabled char_signed this tbl).

Record engine (s : mem) (c : scene_list) (m : string -> list pnode) (ds : list held) : Prop := {
  en_table : tabled s m;
  en_oom : oom s = [];
  en_class : cells s !! this = Some (OSceneList c);
  en_scenes : scenes c = hAt <$> ds;
  en_holds : Forall (holds s) ds;
  en_apart : NoDup (everything ds);
  en_ids : NoDup ((fun d => id_of (hScene d)) <$> ds);
  en_handles : Forall (handles_bound m) ds;
  en_known : forall key n, n ∈ m key -> exists d, d ∈ ds /\ of_scene (acSceneId (hScene d)) n
}.

Lemma engine_not_named s c m ds id xs : engine s c m ds -> (forall d, d ∈ xs -> d ∈ ds) ->
  Forall (fun d => named id (hScene d) = false) xs -> not_named s id (hAt <$> xs).
Proof.
  intros E Hin Hx. unfold not_named. rewrite Forall_fmap. rewrite Forall_forall in *. intros d Hd. exists (hScene d).
  split; [|by apply Hx]. pose proof (en_holds _ _ _ _ E) as H. rewrite Forall_forall in H. apply (H d), Hin, Hd.
Qed.

(** A scene of an id, or none. *)
Lemma find_held id (ds : list held) : NoDup ((fun d => id_of (hScene d)) <$> ds) ->
  (exists l1 d l2, ds = l1 ++ d :: l2 /\ named id (hScene d) = true /\
     Forall (fun d => named id (hScene d) = false) (l1 ++ l2)) \/
  Forall (fun d => named id (hScene d) = false) ds.
Proof.
  intros N. destruct (decide (Exists (fun d => named id (hScene d) = true) ds)) as [(d & Hd & Hn)%Exists_exists|Hne].
  - left. apply list_elem_of_split in Hd as (l1 & l2 & ->). exists l1, d, l2. split_and!; [done..|].
    rewrite fmap_app, fmap_cons in N. apply NoDup_middle in N as [_ N]. rewrite <- fmap_app in N.
    apply Forall_forall. intros d' Hd'. apply named_not. apply named_id in Hn. rewrite <- Hn. intros Heq. apply N.
    rewrite <- Heq. by apply (list_elem_of_fmap_2 (fun d => id_of (hScene d))).
  - right. apply Forall_forall. intros d Hd. destruct (named id (hScene d)) eqn:Hn; [|done].
    exfalso. apply Hne, Exists_exists. by exists d.
Qed.

Lemma search_engine s c m ds id : engine s c m ds ->
  wp (search_scene (Some this) (zero_scene id)) s (fun r s' => s' = s /\
    ((exists l1 d l2, ds = l1 ++ d :: l2 /\ named id (hScene d) = true /\
       Forall (fun d => named id (hScene d) = false) (l1 ++ l2) /\ r = Some (hAt d)) \/
     (Forall (fun d => named id (hScene d) = false) ds /\ r = NULL))).
Proof.
  intros E. destruct (find_held id ds (en_ids _ _ _ _ E)) as [(l1 & d & l2 & -> & Hn & Ho)|Hf].
  - pose proof (en_holds _ _ _ _ E) as H. apply Forall_app in H as [_ H]. apply Forall_cons in H as [H _].
    pose proof (en_scenes _ _ _ _ E) as Hs. rewrite fmap_app, fmap_cons in Hs. pose proof Ho as [Ho1 _]%Forall_app.
    eapply wp_mono; [eapply search_scene_spec; [apply E|apply E|exact Hs| |apply H|exact Hn]|].
    + eapply engine_not_named; [exact E| |exact Ho1]. intros d' Hd'. apply elem_of_app. by left.
    + intros r s' [-> ->]. split; [done|]. left. by exists l1, d, l2.
  - unfold search_scene. wp_step. apply wp_reserve_ok; [apply E|]. cbn [negb]. wp_step.
    eapply wp_load; [apply E|reflexivity|]. rewrite (en_scenes _ _ _ _ E).
    eapply wp_mono; [apply find_scene_none; by eapply engine_not_named|]. intros r s' [-> ->]. split; [done|]. by right.
Qed.

(** A scene can be removed; what is left is an engine. *)
Lemma engine_removable s c m l1 d l2 id : engine s c m (l1 ++ d :: l2) -> named id (hScene d) = true ->
  Forall (fun d => named id (hScene d) = false) (l1 ++ l2) ->
  removable char_signed this tbl s c m id (hAt <$> l1) (hAt d) (hAt <$> l2) (hScene d) (hLists d) (hAction d) (hPanels d).
Proof.
  intros E Hn Ho. pose proof Ho as [Ho1 _]%Forall_app. split; try apply E.
  - rewrite (en_scenes _ _ _ _ E), fmap_app. done.
  - rewrite (en_scenes _ _ _ _ E). apply everything_scenes, (en_apart _ _ _ _ E).
  - eapply engine_not_named; [exact E| |exact Ho1]. intros d' Hd'. apply elem_of_app. by left.
  - done.
  - pose proof (en_holds _ _ _ _ E) as H. apply Forall_app in H as [_ H]. by apply Forall_cons in H as [H _].
  - pose proof (en_handles _ _ _ _ E) as H. apply Forall_app in H as [_ H]. by apply Forall_cons in H as [H _].
Qed.

(** What belongs to others is not the class or the table, and not these parts. *)
Lemma engine_apart s c m ds d p : engine s c m ds -> d ∈ ds -> p ∈ all_parts d -> p <> this /\ p <> tbl.
Proof.
  intros E Hd Hp. pose proof (en_holds _ _ _ _ E) as H. rewrite Forall_forall in H.
  destruct (holds_parts _ _ _ (H d Hd) Hp) as (o & Ho & Hso). split; intros ->.
  - rewrite (en_class _ _ _ _ E) in Ho. by injection Ho as <-.
  - destruct (en_table _ _ _ _ E) as (n & _ & T). destruct (table_hash _ _ _ _ _ _ T) as [h Hh].
    rewrite Hh in Ho. by injection Ho as <-.
Qed.

Lemma count_zero id ns : (forall n, n ∈ ns -> ~ of_scene id n) -> count_of id ns = 0%nat.
Proof.
  unfold count_of. induction ns as [|n ns IH]; [done|]. intros H. rewrite filter_cons, decide_False by (apply H; by left).
  apply IH. intros n' Hn'. apply H. by right.
Qed.

Lemma count_filter id id' ns : (count_of id (other_scenes id' ns) <= count_of id ns)%nat.
Proof.
  unfold count_of, other_scenes. rewrite list_filter_filter. induction ns as [|n ns IH]; [done|]. rewrite !filter_cons.
  destruct (decide (of_scene id n)) as [H1|H1].
  - case_decide; cbn [length]; lia.
  - rewrite decide_False by tauto. done.
Qed.

Lemma engine_removed s s' c m l1 d l2 :
  engine s c m (l1 ++ d :: l2) ->
  removed char_signed this tbl s s' c m (hAt <$> l1) (hAt d) (hAt <$> l2) (hScene d) (hPanels d) ->
  exists m', engine s' (set_scenes (hAt <$> (l1 ++ l2)) c) m' (l1 ++ l2) /\
    (forall key, m' key = other_scenes (acSceneId (hScene d)) (m key)).
Proof.
  intros E V. destruct (rv_table _ _ _ _ _ _ _ _ _ _ _ _ V) as (m' & T & Hm). exists m'. split; [|done].
  assert (Hin : forall d', d' ∈ l1 ++ l2 -> d' ∈ l1 ++ d :: l2) by set_solver.
  pose proof (en_apart _ _ _ _ E) as N. rewrite everything_app, everything_cons in N.
  assert (Hother : forall d' p, d' ∈ l1 ++ l2 -> p ∈ all_parts d' -> p ∉ all_parts d).
  { intros d' p Hd' Hp Hpd. rewrite !NoDup_app in N. destruct N as (_ & N1 & _ & N2 & _).
    apply elem_of_app in Hd' as [Hd'|Hd'].
    - apply (N1 p); [apply elem_everything; eauto|]. apply elem_of_app. by left.
    - apply (N2 p Hpd). apply elem_everything. eauto. }
  pose proof (en_ids _ _ _ _ E) as Ni. rewrite fmap_app, fmap_cons in Ni. apply NoDup_middle in Ni as [Ni _].
  split; [done|apply V|rewrite fmap_app; apply V|done| | |by rewrite fmap_app| |].
  - rewrite Forall_forall. intros d' Hd'. pose proof (en_holds _ _ _ _ E) as H. rewrite Forall_forall in H.
    eapply holds_kept; [by apply H, Hin|]. intros p o Hp Ho Hc.
    destruct (engine_apart _ _ _ _ _ _ E (Hin _ Hd') Hp) as [H1 H2].
    eapply rv_kept; [exact V| |by destruct o|exact Hc]. rewrite !not_elem_of_cons.
    pose proof (Hother _ _ Hd' Hp) as H3. apply not_elem_of_cons in H3 as [H3 H4]. done.
  - rewrite everything_app. rewrite !NoDup_app in N |- *. destruct N as (N0 & N1 & (_ & _ & N2)%NoDup_app).
    split_and!; [done| |done]. intros p Hp Hp2. apply (N1 p Hp). apply elem_of_app. by right.
  - rewrite Forall_forall. intros d' Hd' key. rewrite Hm. pose proof (en_handles _ _ _ _ E) as H.
    rewrite Forall_forall in H. specialize (H d' (Hin _ Hd') key). etrans; [apply count_filter|exact H].
  - intros key n Hn. rewrite Hm in Hn. unfold other_scenes in Hn. apply list_elem_of_filter in Hn as [Hno Hn].
    destruct (en_known _ _ _ _ E key n Hn) as (d' & Hd' & Ho). exists d'. split; [|done].
    apply elem_of_app in Hd' as [?|[->|?]%elem_of_cons]; [set_solver|done|set_solver].
Qed.

Lemma engine_added s s' c m ds i a b1 b2 b3 b4 b5 :
  engine s c m ds -> Forall (fun d => named (acSceneId i) (hScene d) = false) ds ->
  added char_signed this tbl s s' c m i a b1 b2 b3 b4 b5 ->
  engine s' (set_scenes (a :: scenes c) c) m
    (Held a (new_scene i b1 b2 b3 b4 b5) (fresh_lists (acSceneId i)) b5 [] :: ds).
Proof.
  intros E Hf A. set (d0 := Held _ _ _ _ _).
  assert (Hown : forall p, p ∈ all_parts d0 -> cells s !! p = None).
  { intros p Hp. eapply ad_new; [exact A|]. unfold d0, all_parts, parts, list_ptrs, new_scene in Hp. cbn in Hp.
    set_solver. }
  assert (Hfr : forall d p, d ∈ ds -> p ∈ all_parts d -> is_Some (cells s !! p)).
  { intros d p Hd Hp. pose proof (en_holds _ _ _ _ E) as H. rewrite Forall_forall in H.
    destruct (holds_parts _ _ _ (H d Hd) Hp) as (o & Ho & _). by exists o. }
  split; [apply A|apply A|apply A|by cbn; rewrite (en_scenes _ _ _ _ E)| | | | |].
  - constructor; [apply A|]. rewrite Forall_forall. intros d Hd. pose proof (en_holds _ _ _ _ E) as H.
    rewrite Forall_forall in H. eapply holds_kept; [by apply H|]. intros p o Hp _ Hc. eapply ad_kept; [exact A| |done].
    by eapply engine_apart.
  - rewrite everything_cons, NoDup_app. split_and!; [|intros p Hp (d & Hd & Hpd)%elem_everything|apply E].
    + pose proof (ad_owned _ _ _ _ _ _ _ _ _ _ _ _ _ _ A) as O. apply owned_distinct in O as [O1 O2]. by constructor.
    + destruct (Hfr _ _ Hd Hpd) as [o Ho]. by rewrite (Hown _ Hp) in Ho.
  - cbn [fmap list_fmap]. constructor; [|apply E]. intros (d & Heq & Hd)%list_elem_of_fmap.
    rewrite Forall_forall in Hf. specialize (Hf d Hd). apply named_not in Hf. apply Hf. rewrite <- Heq.
    unfold d0, id_of. cbn [hScene acSceneId new_scene set_texts zero_scene]. apply str_take_take.
  - constructor; [|apply E]. intros key. unfold d0. cbn [hScene hLists hPanels acSceneId new_scene set_texts zero_scene].
    rewrite count_zero; [apply Nat.le_0_l|]. intros n Hn Ho. destruct (en_known _ _ _ _ E key n Hn) as (d & Hd & Hod).
    rewrite Forall_forall in Hf. specialize (Hf d Hd). apply named_not in Hf. apply Hf. unfold id_of at 1.
    apply of_scene_id_of in Hod as <-. apply of_scene_id_of in Ho as ->. apply str_take_take.
  - intros key n Hn. destruct (en_known _ _ _ _ E key n Hn) as (d & Hd & Ho). exists d. split; [by right|done].
Qed.

(** The search compares ids only. *)
Lemma find_scene_ext k k' xs : acSceneId k = acSceneId k' -> forall s, find_scene k xs s = find_scene k' xs s.
Proof.
  intros Hk. induction xs as [|a xs IH]; intros s; [done|]. cbn [find_scene]. unfold mbind, M_bind.
  destruct (load to_scene (Some a) s) as [[sc s']|]; [|done]. unfold scene_compare. rewrite Hk.
  by destruct (strn_eq _ _ _); [|apply IH].
Qed.

Lemma search_set s c m ds i : engine s c m ds ->
  wp (search_scene (Some this) (set_texts i (zero_scene (acSceneId i)))) s (fun r s' => s' = s /\
    ((exists l1 d l2, ds = l1 ++ d :: l2 /\ named (acSceneId i) (hScene d) = true /\
       Forall (fun d => named (acSceneId i) (hScene d) = false) (l1 ++ l2) /\ r = Some (hAt d)) \/
     (Forall (fun d => named (acSceneId i) (hScene d) = false) ds /\ r = NULL))).
Proof.
  intros E. pose proof (search_engine s c m ds (acSceneId i) E) as H. revert H. unfold wp, search_scene, mbind, M_bind.
  destruct (reserve s) as [[[] s1]|]; [|done..]. cbn [negb]. destruct (load to_scenes (Some this) s1) as [[c1 s2]|]; [|done].
  by rewrite (find_scene_ext (set_texts i (zero_scene (acSceneId i))) (zero_scene (acSceneId i))).
Qed.

(** A scene with other texts. *)
Definition retext (i : scene_info) (d : held) : held :=
  Held (hAt d) (set_texts i (hScene d)) (hLists d) (hAction d) (hPanels d).

Lemma Forall_middle_update {A} (P Q : A -> Prop) l1 x y l2 :
  Forall P (l1 ++ x :: l2) -> (forall z, z ∈ l1 ++ l2 -> P z -> Q z) -> (P x -> Q y) -> Forall Q (l1 ++ y :: l2).
Proof.
  rewrite !Forall_app, !Forall_cons, !Forall_forall. intros (H1 & Hx & H2) HQ Hy. split_and!; [|by apply Hy|];
    intros z Hz; apply HQ; [apply elem_of_app; by left|by apply H1|apply elem_of_app; by right|by apply H2].
Qed.

Lemma engine_retext s c m l1 d l2 i g :
  engine s c m (l1 ++ d :: l2) ->
  engine (with_glob (fun _ => g) (upd (hAt d) (OScene (set_texts i (hScene d))) s)) c m (l1 ++ retext i d :: l2).
Proof.
  intros E. set (s' := with_glob _ _).
  assert (Hd : d ∈ l1 ++ d :: l2) by (apply elem_of_app; right; by left).
  pose proof (en_holds _ _ _ _ E) as H. rewrite Forall_forall in H. pose proof (H d Hd) as O.
  assert (Hself : hAt d ∈ all_parts d) by by left.
  destruct (engine_apart _ _ _ _ _ _ E Hd Hself) as [Hne _]. pose proof (sa_scene _ _ _ _ (ow_scene _ _ _ _ _ _ O)) as Ha.
  assert (Hkeep : forall p o, p <> hAt d -> cells s !! p = Some o -> cells s' !! p = Some o).
  { intros p o Hp Ho. cbn. by rewrite lookup_insert_ne. }
  assert (Hsame : everything (l1 ++ retext i d :: l2) = everything (l1 ++ d :: l2)).
  { rewrite !everything_app, !everything_cons. done. }
  pose proof (en_apart _ _ _ _ E) as N. split.
  - destruct (en_table _ _ _ _ E) as (n & Hn & T). exists n. split; [done|]. apply table_glob. by eapply table_upd.
  - apply E.
  - apply Hkeep; [done|apply E].
  - rewrite (en_scenes _ _ _ _ E), !fmap_app. done.
  - eapply Forall_middle_update; [apply (en_holds _ _ _ _ E)| |].
    + intros d' Hd' O'. eapply holds_kept; [exact O'|]. intros p o Hp _. apply Hkeep. intros ->.
      rewrite everything_app, everything_cons in N. apply NoDup_app in N as (_ & N1 & (_ & N2 & _)%NoDup_app).
      apply elem_of_app in Hd' as [Hd'|Hd'].
      * apply (N1 (hAt d)); [apply elem_everything; eauto|]. apply elem_of_app. by left.
      * apply (N2 (hAt d) Hself). apply elem_everything. eauto.
    + intros O'. pose proof (owned_distinct _ _ _ _ _ _ O') as [Hnin _]. destruct O' as [R K [Hact [l Hl]] F Hs Np].
      assert (Hps : forall p o, p ∈ parts (hScene d) (hPanels d) -> cells s !! p = Some o -> cells s' !! p = Some o).
      { intros p o Hp. apply Hkeep. by intros ->. }
      split; [split|done| |done| |done].
      * cbn. apply lookup_insert_eq.
      * intros x t. destruct (sa_lists _ _ _ _ R x t) as (b & Hb & Hc). exists b. split; [by destruct x, t|].
        apply Hps; [|done]. unfold parts. rewrite !elem_of_app. left. by eapply elem_list_ptr.
      * intros x t x' t' He. apply (sa_distinct _ _ _ _ R). by destruct x, t, x', t'.
      * split; [done|]. exists l. apply Hps; [|done]. unfold parts. rewrite Hact, !elem_of_app. right. left. by left.
      * eapply pseg_frame; [|exact Hs]. intros p o Hp Ho. apply Hps; [|done]. unfold parts. rewrite !elem_of_app. by do 2 right.
  - by rewrite Hsame.
  - pose proof (en_ids _ _ _ _ E) as Ni. rewrite fmap_app, fmap_cons in *. exact Ni.
  - eapply Forall_middle_update; [apply (en_handles _ _ _ _ E)| |]; done.
  - intros key n Hn. destruct (en_known _ _ _ _ E key n Hn) as (d' & Hd' & Ho).
    rewrite elem_of_app, elem_of_cons in Hd'. destruct Hd' as [?|[->|?]].
    + exists d'. split; [|done]. rewrite elem_of_app. by left.
    + exists (retext i d). split; [|done]. rewrite elem_of_app. right. by left.
    + exists d'. split; [|done]. rewrite elem_of_app. do 2 right. done.
Qed.

(** A request for the database between operations. *)
Lemma engine_glob s c m ds g : engine s c m ds -> engine (with_glob (fun _ => g) s) c m ds.
Proof.
  intros E. destruct (en_table _ _ _ _ E) as (n & Hn & T). split; try apply E.
  - exists n. split; [done|]. by apply table_glob.
  - eapply Forall_impl; [apply E|]. intros d O. by eapply holds_kept.
Qed.

Lemma scene_list_set_engine s c m ds i : engine s c m ds ->
  wp (scene_list_set (Some this) (Some i)) s (fun r s' =>
    (exists l1 d l2, ds = l1 ++ d :: l2 /\ named (acSceneId i) (hScene d) = true /\
       (db_results (glob s) = [] -> r = NoErr) /\ engine s' c m (l1 ++ retext i d :: l2)) \/
    (Forall (fun d => named (acSceneId i) (hScene d) = false) ds /\ r = NotFoundErr /\ s' = s)).
Proof.
  intros E. unfold scene_list_set. cbn [is_null]. wp_step. eapply wp_mono; [by eapply search_set|].
  intros p s0 (-> & [(l1 & d & l2 & -> & Hn & _ & ->)|[Hf ->]]); cbn [is_null].
  - assert (Hd : d ∈ l1 ++ d :: l2) by (apply elem_of_app; right; by left).
    pose proof (en_holds _ _ _ _ E) as H. rewrite Forall_forall in H.
    pose proof (sa_scene _ _ _ _ (ow_scene _ _ _ _ _ _ (H d Hd))) as Ha.
    unfold upd_scene. wp_step. wp_step. eapply wp_load; [exact Ha|reflexivity|]. eapply wp_store; [exact Ha|].
    wp_step. unfold scene_list_set_db.
    pose proof (engine_retext _ _ _ _ _ _ i (glob s) E) as E1.
    eapply (scene_request_run this _ c); [exact (en_class _ _ _ _ E1)|].
    intros r g _ Hr _ _. wp_step. left. exists l1, d, l2. split_and!; [done..| |].
    + intros Hdb. by rewrite Hr.
    + apply (engine_glob _ _ _ _ g) in E1. exact E1.
  - wp_step. by right.
Qed.

Lemma scene_list_get_engine s c m ds id : engine s c m ds ->
  wp (scene_list_get (Some this) (Some id)) s (fun r s' => s' = s /\
    ((exists l1 d l2, ds = l1 ++ d :: l2 /\ named id (hScene d) = true /\
       Forall (fun d => named id (hScene d) = false) (l1 ++ l2) /\ r = Some (hAt d)) \/
     (Forall (fun d => named id (hScene d) = false) ds /\ r = NULL))).
Proof. intros E. unfold scene_list_get. cbn [is_null]. by eapply search_engine. Qed.

Lemma scene_list_get_list_engine s c m ds n : engine s c m ds ->
  wp (scene_list_get_list (Some this) n) s (fun r s' => r = (NoErr, hScene <$> take n ds) /\ s' = s).
Proof.
  intros E. unfold scene_list_get_list. cbn [is_null]. wp_step. eapply wp_load; [apply E|reflexivity|].
  rewrite (en_scenes _ _ _ _ E). pose proof (en_holds _ _ _ _ E) as H. clear E. wp_step.
  match goal with |- wp (?w _ _) _ _ => set (walk := w) end.
  assert (Hw : wp (walk n (hAt <$> ds)) s (fun xs s' => xs = hScene <$> take n ds /\ s' = s)).
  { revert n. induction H as [|d ds O H IH]; intros n; destruct n as [|n]; [done..|]. cbn [fmap list_fmap take]. subst walk.
    cbv beta iota. wp_step. eapply wp_load; [apply O|reflexivity|]. wp_step. eapply wp_mono; [apply IH|]. intros xs s' [-> ->]. by wp_step. }
  eapply wp_mono; [exact Hw|]. intros xs s' [-> ->]. by wp_step.
Qed.

Lemma scene_list_del_engine s c m ds id : engine s c m ds ->
  wp (scene_list_del char_signed (Some this) (Some id)) s (fun r s' =>
    (exists l1 d l2, ds = l1 ++ d :: l2 /\ named id (hScene d) = true /\ (db_results (glob s) = [] -> r = NoErr) /\
       removed char_signed this tbl s s' c m (hAt <$> l1) (hAt d) (hAt <$> l2) (hScene d) (hPanels d)) \/
    (Forall (fun d => named id (hScene d) = false) ds /\ r = NotFoundErr /\ s' = s)).
Proof.
  intros E. destruct (find_held id ds (en_ids _ _ _ _ E)) as [(l1 & d & l2 & -> & Hn & Ho)|Hf].
  - eapply wp_mono; [eapply scene_list_del_run; by eapply engine_removable|]. intros r s' (_ & Hr & V).
    left. by exists l1, d, l2.
  - unfold scene_list_del. cbn [is_null]. wp_step. eapply wp_mono; [by eapply search_engine|].
    intros p s0 (-> & [(l1 & d & l2 & -> & Hn & _)|[_ ->]]).
    + exfalso. apply Forall_app in Hf as [_ Hf]. apply Forall_cons in Hf as [Hf _]. congruence.
    + wp_step. by right.
Qed.

(** * Clearing *)

(** No scene is left, and all else is. *)
Record emptied (s s' : mem) (c : scene_list) (ds : list held) : Prop := {
  em_engine : exists m', engine s' (set_scenes [] c) m' [] /\ forall key, m' key = [];
  em_freed : forall p, p ∈ everything ds -> cells s' !! p = None;
  em_kept : forall p o, p ∉ this :: tbl :: everything ds -> to_node o = None -> cells s !! p = Some o -> cells s' !! p = Some o;
  em_none : forall p, cells s !! p = None -> cells s' !! p = None;
  em_glob : exists k, glob s' = set_db (drop k (db_results (glob s))) (glob s)
}.

Lemma engine_nil s c m : engine s c m [] -> emptied s s c [].
Proof.
  intros E. split; [|by intros p Hp%elem_of_nil|done|done|exists 0%nat; by rewrite set_db_same].
  exists m. split.
  - pose proof (en_scenes _ _ _ _ E) as Hs. replace (set_scenes [] c) with c by (destruct c; cbn in *; by subst). done.
  - intros key. destruct (m key) as [|n ns] eqn:Hm; [done|].
    destruct (en_known _ _ _ _ E key n) as (d & Hd & _); [rewrite Hm; by left|]. by apply elem_of_nil in Hd.
Qed.

Lemma emptied_cons s s1 s' c m d ds :
  engine s c m (d :: ds) -> removed char_signed this tbl s s1 c m [] (hAt d) (hAt <$> ds) (hScene d) (hPanels d) ->
  emptied s1 s' (set_scenes (hAt <$> ds) c) ds -> emptied s s' c (d :: ds).
Proof.
  intros E V [[m' [E' Hm']] F K N [k G]]. split.
  - exists m'. split; [exact E'|done].
  - intros p [Hp|Hp]%elem_of_app; [|by apply F]. apply N. by apply V.
  - intros p o Hp Hno Hc. rewrite everything_cons, !not_elem_of_cons, not_elem_of_app in Hp. destruct Hp as (H1 & H2 & H3 & H4).
    apply K; [rewrite !not_elem_of_cons; done|done|]. eapply rv_kept; [exact V| |done|done]. rewrite !not_elem_of_cons.
    unfold all_parts in H3. by rewrite not_elem_of_cons in H3.
  - intros p Hp. apply N. by eapply rv_none.
  - destruct (rv_glob _ _ _ _ _ _ _ _ _ _ _ _ V) as [k1 G1]. exists (k1 + k)%nat. rewrite G, G1.
    cbn [set_db db_results]. by rewrite drop_drop.
Qed.

(** One by one, by their ids. *)
Fixpoint del_all (xs : list scene_info) (iRet : Z) : L Z :=
  match xs with
  | [] => mret iRet
  | sc :: xs => r ← scene_list_del char_signed (Some this) (Some (acSceneId sc)); del_all xs (iRet + r)
  end.

Lemma del_all_empties ds : forall s c m iRet, engine s c m ds ->
  wp (del_all (hScene <$> ds) iRet) s (fun r s' => (db_results (glob s) = [] -> r = iRet) /\ emptied s s' c ds).
Proof.
  induction ds as [|d ds IH]; intros s c m iRet E; cbn [fmap list_fmap del_all].
  - wp_step. split; [done|by eapply engine_nil].
  - assert (Hn : named (acSceneId (hScene d)) (hScene d) = true) by by apply named_id.
    pose proof (en_ids _ _ _ _ E) as Ni. cbn [fmap list_fmap] in Ni. apply NoDup_cons in Ni as [Ni _].
    assert (Ho : Forall (fun d' => named (acSceneId (hScene d)) (hScene d') = false) ds).
    { apply Forall_forall. intros d' Hd'. apply named_not. intros Heq. apply Ni. change (id_of (hScene d)) with (str_take INDEX_MAX_LEN (acSceneId (hScene d))).
      rewrite <- Heq. by apply (list_elem_of_fmap_2 (fun d => id_of (hScene d))). }
    wp_step. eapply wp_mono; [eapply scene_list_del_run, (engine_removable s c m [] d ds); done|].
    intros r s1 (_ & Hr & V). destruct (engine_removed s s1 c m [] d ds E V) as (m1 & E1 & _).
    eapply wp_mono; [by apply (IH s1 (set_scenes (hAt <$> ds) c) m1)|]. intros r' s' (Hr' & Em). split; [|by eapply emptied_cons].
    intros Hdb. destruct (rv_glob _ _ _ _ _ _ _ _ _ _ _ _ V) as [k G1]. rewrite Hr', Hr; [unfold NoErr; lia|done|].
    rewrite G1. cbn [set_db db_results]. by rewrite Hdb, drop_nil.
Qed.

(** Or all scenes first, then their nodes. *)
Definition all_owned (ds : list held) : list positive := concat ((fun d => parts (hScene d) (hPanels d)) <$> ds).

Lemma elem_all_owned p ds : p ∈ all_owned ds <-> exists d, d ∈ ds /\ p ∈ parts (hScene d) (hPanels d).
Proof.
  unfold all_owned. rewrite list_elem_of_In, in_concat. split.
  - intros (l & Hl & Hp). apply list_elem_of_In, list_elem_of_fmap in Hl as (d & -> & Hd). exists d. split; [done|].
    by apply list_elem_of_In.
  - intros (d & Hd & Hp). eexists. split; [|apply list_elem_of_In, Hp]. apply list_elem_of_In.
    by apply (list_elem_of_fmap_2 (fun d => parts (hScene d) (hPanels d))).
Qed.
Lemma owned_everything p d ds : d ∈ ds -> p ∈ parts (hScene d) (hPanels d) -> p ∈ everything ds.
Proof. intros Hd Hp. apply elem_everything. exists d. split; [done|]. by right. Qed.

Record clearing (s s1 : mem) (m m1 : string -> list pnode) (pre : list held) : Prop := {
  cg_gone : gone char_signed this tbl s s1 m m1 (all_owned pre);
  cg_count : forall id key, (count_of id (m1 key) <= count_of id (m key))%nat;
  cg_known : forall key n, n ∈ m1 key -> n ∈ m key /\ forall d, d ∈ pre -> ~ of_scene (acSceneId (hScene d)) n
}.

Lemma distinct_parts pre d post p : NoDup (everything (pre ++ d :: post)) ->
  p ∈ all_parts d -> p ∉ everything pre /\ p ∉ everything post.
Proof.
  rewrite everything_app, everything_cons. intros (_ & N1 & (_ & N2 & _)%NoDup_app)%NoDup_app Hp.
  split; [|by apply N2]. intros Hin. apply (N1 p Hin). apply elem_of_app. by left.
Qed.

Lemma clearing_step s s1 c m m1 pre d post :
  engine s c m (pre ++ d :: post) -> clearing s s1 m m1 pre ->
  wp (clear_scene char_signed (Some this) (Some (hAt d))) s1 (fun _ s2 => exists m2, clearing s s2 m m2 (pre ++ [d])).
Proof.
  intros E [[S D] C K]. assert (Hd : d ∈ pre ++ d :: post) by (apply elem_of_app; right; by left).
  pose proof (en_holds _ _ _ _ E) as H. rewrite Forall_forall in H.
  assert (O : holds s1 d).
  { eapply holds_kept; [by apply H|]. intros p o Hp Ho Hc. eapply swept_obj; [exact S|apply E|exact Hc|exact Ho|].
    intros Hin. apply elem_all_owned in Hin as (d' & Hd' & Hpd').
    apply (proj1 (distinct_parts _ _ _ _ (en_apart _ _ _ _ E) Hp)). by eapply owned_everything. }
  eapply wp_mono; [eapply clear_scene_gone; [apply S|exact O]|]. intros r s2 G2. eexists. split.
  - unfold all_owned. rewrite fmap_app, concat_app. cbn [fmap list_fmap concat]. rewrite app_nil_r.
    eapply gone_trans; [split; [exact S|exact D]|exact G2].
  - intros id key. rewrite del_keys_others; [etrans; [apply count_filter|apply C]|].
    etrans; [apply C|]. pose proof (en_handles _ _ _ _ E) as Hh. rewrite Forall_forall in Hh. by apply Hh.
  - intros key n. rewrite del_keys_others.
    + intros [Hno Hn]%list_elem_of_filter. destruct (K key n Hn) as [Hm Hk]. split; [done|].
      intros d' [Hd'| ->%list_elem_of_singleton]%elem_of_app; [by apply Hk|done].
    + etrans; [apply C|]. pose proof (en_handles _ _ _ _ E) as Hh. rewrite Forall_forall in Hh. by apply Hh.
Qed.

Lemma clearing_request s s1 m m1 pre err : clearing s s1 m m1 pre ->
  wp (scene_request (Some this) err) s1 (fun _ s2 => clearing s s2 m m1 pre).
Proof.
  intros [[S D] C K]. eapply wp_mono; [apply scene_request_swept, S|]. intros r s2 (_ & _ & S2). split; [split|done|done].
  - by eapply swept_trans_nil.
  - intros p Hp. apply S2, D, Hp.
Qed.

(** The nodes of the scenes are freed. *)
Lemma free_scenes s m (xs : list positive) :
  tabled s m -> NoDup xs -> (forall a, a ∈ xs -> exists sc, cells s !! a = Some (OScene sc)) ->
  wp (each (fun a => free (Some a)) xs) s (fun _ s' => gone char_signed this tbl s s' m m xs).
Proof.
  intros T N Hx. apply (wp_each (fun pre s' => gone char_signed this tbl s s' m m pre)); [| |done].
  - split; [by apply swept_refl|]. by intros c Hc%elem_of_nil.
  - intros pre a rest s1 -> G. destruct (Hx a) as [sc Ha]; [apply elem_of_app; right; by left|].
    assert (Hpre : a ∉ pre) by (intros Hin; apply NoDup_app in N as (_ & N & _); apply (N a Hin); by left).
    pose proof G as [S _]. pose proof (swept_obj _ _ _ _ _ _ _ _ _ _ S T Ha I Hpre) as Ha1.
    eapply wp_free; [exact Ha1|]. eapply gone_trans; [exact G|]. split; [by eapply swept_del; [apply S|exact Ha1|]|].
    intros p ->%list_elem_of_singleton. apply lookup_delete_eq.
Qed.

Lemma clear_all s c m ds :
  engine s c m ds ->
  wp (each (fun a =>
    clear_scene char_signed (Some this) (Some a) ;;
    if 1 =? 1 then _ ← scene_list_del_db (Some this); mret tt else mret tt) (scenes c)) s (fun _ s1 =>
    exists m1, clearing s s1 m m1 ds).
Proof.
  intros E. rewrite (en_scenes _ _ _ _ E).
  apply (wp_each (fun xs s1 => exists pre post m1, ds = pre ++ post /\ xs = hAt <$> pre /\ clearing s s1 m m1 pre)).
  - exists [], ds, m. split_and!; [done..|]. split; [split; [apply swept_refl, E|by intros c' Hc%elem_of_nil]|done|].
    intros key n Hn. split; [done|]. by intros d Hd%elem_of_nil.
  - intros xs a rest s1 Hxs (pre & post & m1 & -> & -> & G). rewrite fmap_app in Hxs. apply app_inv_head in Hxs.
    destruct post as [|d post]; [done|]. cbn [fmap list_fmap] in Hxs. injection Hxs as Ha Hrest. subst a rest.
    wp_step. eapply wp_mono; [by eapply clearing_step|]. intros [] s2 (m2 & G2). change (1 =? 1) with true. cbv iota.
    wp_step. unfold scene_list_del_db. eapply wp_mono; [by apply clearing_request|]. intros r s3 G3. wp_step.
    exists (pre ++ [d]), post, m2. split_and!; [by rewrite <- app_assoc|by rewrite fmap_app|done].
  - intros s1 (pre & post & m1 & -> & Hx & G). exists m1. rewrite fmap_app in Hx.
    destruct post as [|d post]; [by rewrite app_nil_r|]. exfalso. apply (f_equal length) in Hx.
    rewrite length_app in Hx. cbn in Hx. lia.
Qed.

Lemma engine_class_table s c m ds : engine s c m ds -> this <> tbl.
Proof.
  intros E Ht. destruct (en_table _ _ _ _ E) as (n & _ & T). destruct (table_hash _ _ _ _ _ _ T) as [h Hh].
  pose proof (en_class _ _ _ _ E). congruence.
Qed.
Lemma engine_this s c m ds : engine s c m ds -> this ∉ everything ds.
Proof. intros E (d & Hd & Hp)%elem_everything. by destruct (engine_apart _ _ _ _ _ _ E Hd Hp). Qed.
Lemma nodes_everything ds a : a ∈ hAt <$> ds -> a ∈ everything ds.
Proof. intros (d & -> & Hd)%list_elem_of_fmap. apply elem_everything. exists d. split; [done|by left]. Qed.
Lemma all_owned_everything ds p : p ∈ all_owned ds -> p ∈ everything ds.
Proof. intros (d & Hd & Hp)%elem_all_owned. by eapply owned_everything. Qed.

(** The node of a scene is no part. *)
Lemma engine_nodes s c m ds d : engine s c m ds -> d ∈ ds -> hAt d ∉ all_owned ds.
Proof.
  intros E Hd (d' & Hd' & Hp)%elem_all_owned. pose proof (en_holds _ _ _ _ E) as H. rewrite Forall_forall in H.
  pose proof (H d Hd) as O. apply list_elem_of_split in Hd as (l1 & l2 & ->).
  assert (Hself : hAt d ∈ all_parts d) by by left.
  destruct (distinct_parts _ _ _ _ (en_apart _ _ _ _ E) Hself) as [H1 H2].
  rewrite elem_of_app, elem_of_cons in Hd'. destruct Hd' as [Hd'|[->|Hd']].
  - apply H1. by eapply owned_everything.
  - by apply (owned_distinct _ _ _ _ _ _ O).
  - apply H2. by eapply owned_everything.
Qed.

(** What is cleared and freed is empty. *)
Lemma swept_emptied s s' c m m1 ds :
  engine s c m ds -> swept char_signed this tbl s s' m m1 (all_owned ds ++ [this] ++ (hAt <$> ds)) ->
  cells s' !! this = Some (OSceneList (set_scenes [] c)) ->
  (forall p, p ∈ everything ds -> cells s' !! p = None) -> (forall key, m1 key = []) -> emptied s s' c ds.
Proof.
  intros E S Hc Hf Hm1. split; [exists m1; split; [|done]|done| |apply S|apply S].
  - split; [apply S| |done|done|constructor|constructor|constructor|constructor|].
    + pose proof (sp_oom _ _ _ _ _ _ _ _ S) as Hoo. rewrite (en_oom _ _ _ _ E) in Hoo. destruct (oom s') as [|o os]; [done|].
      exfalso. apply (not_elem_of_nil o), Hoo. by left.
    + intros key n. rewrite Hm1. by intros Hn%elem_of_nil.
  - intros p o Hp Hn Hpo. rewrite !not_elem_of_cons in Hp. destruct Hp as (H1 & H2 & H3). apply S; [done| |done|done].
    rewrite !not_elem_of_app, list_elem_of_singleton. split_and!; [|done|].
    + by intros ?%all_owned_everything.
    + by intros ?%nodes_everything.
Qed.

Lemma scene_list_clear_empties s c m ds : engine s c m ds ->
  wp (scene_list_clear char_signed (Some this) 1) s (fun r s' => r = NoErr /\ emptied s s' c ds).
Proof.
  intros E. pose proof (engine_this _ _ _ _ E) as Hthis. unfold scene_list_clear. cbn [is_null].
  wp_step. eapply wp_load; [apply E|reflexivity|]. wp_step.
  eapply wp_mono; [by eapply clear_all|]. intros [] s1 (m1 & [[S1 D1] C1 K1]).
  assert (Hc1 : cells s1 !! this = Some (OSceneList c)).
  { eapply sp_keeps; [exact S1|by eapply engine_class_table| |done|apply E]. by intros ?%all_owned_everything. }
  unfold upd_scenes. wp_step. wp_step. eapply wp_load; [exact Hc1|reflexivity|]. eapply wp_store; [exact Hc1|].
  pose proof (swept_scenes _ _ _ s1 m1 c (set_scenes [] c) (sp_table _ _ _ _ _ _ _ _ S1) Hc1 eq_refl) as S2.
  set (s2 := upd this _ s1) in *. wp_step. rewrite (en_scenes _ _ _ _ E).
  eapply wp_mono; [eapply free_scenes; [apply S2|apply everything_scenes, (en_apart _ _ _ _ E)|]|].
  { intros a Ha. pose proof Ha as (d & -> & Hd)%list_elem_of_fmap. exists (hScene d). cbn.
    rewrite lookup_insert_ne by (intros ->; by apply Hthis, nodes_everything).
    pose proof (en_holds _ _ _ _ E) as H. rewrite Forall_forall in H.
    eapply swept_obj; [exact S1|apply E|apply (H d Hd)|exact I|by eapply engine_nodes]. }
  intros [] s3 [S3 D3]. wp_step. split; [done|].
  eapply (swept_emptied _ _ _ _ m1); [done|exact (swept_trans _ _ _ _ _ _ _ _ _ _ _ S1 (swept_trans _ _ _ _ _ _ _ _ _ _ _ S2 S3))| | |].
  - eapply sp_keeps; [exact S3|by eapply engine_class_table| |done|cbn; apply lookup_insert_eq].
    by intros ?%nodes_everything.
  - intros p (d & Hd & [->|Hp]%elem_of_cons)%elem_everything.
    + apply D3. by apply list_elem_of_fmap_2.
    + apply (sp_none _ _ _ _ _ _ _ _ S3), (sp_none _ _ _ _ _ _ _ _ S2), D1, elem_all_owned. eauto.
  - intros key. destruct (m1 key) as [|n ns] eqn:Hk; [done|]. destruct (K1 key n) as [Hn Hx]; [rewrite Hk; by left|].
    destruct (en_known _ _ _ _ E key n Hn) as (d & Hd & Ho). by destruct (Hx d Hd).
Qed.
End engine.
