(* ===== verification/CmdProps.v ===== *)
(** What the commands on scenes do to the engine: they keep it well formed,
    whatever is sent; a scene that is added is the first that is reported; and
    cleaning ends with an engine without scenes. *)
From stdpp Require Import gmap strings.
From S2P Require Import Prelude Heap CString HashTable SceneTimer SceneCond SceneSync SceneData PtrHash PtrRefine PtrProps ActionList CondList CondRefine SceneTruth SceneRefine SceneFire SceneOps SceneEvent OpsRefine OpsProps DelProps ScenePanel SceneList SceneRemove RemoveProps AddProps Json SceneCmd SceneDispatch EngineProps.

(** * Texts of JSON values *)

Lemma str_take_le n m s : (n <= m)%nat -> str_take m (str_take n s) = str_take n s.
Proof. intros Hn. apply str_take_short. pose proof (str_take_length n s). lia. Qed.

Lemma text_short key n d s : text key n d = Some s -> str_take n s = s.
Proof.
  unfold text, value_text, JSON_value_get. destruct (cJSON_GetObjectItem d key) as [[]|]; cbn; intros [= <-];
    (apply str_take_le; lia) || apply str_take_take || by destruct n.
Qed.

Lemma field_short key n dflt d : str_take n dflt = dflt -> str_take n (field key n dflt d) = field key n dflt d.
Proof. intros H. unfold field. destruct (text key n d) as [s|] eqn:E; [|done]. by eapply text_short. Qed.

(** * Building JSON changes nothing, when there is memory *)

Definition quiet {A} (p : L A) (Q : A -> Prop) : Prop :=
  forall s, oom s = [] -> wp p s (fun a s' => Q a /\ s' = s).

Lemma quiet_ret {A} (a : A) (Q : A -> Prop) : Q a -> quiet (mret a) Q.
Proof. intros HQ s _. by wp_step. Qed.
Lemma quiet_bind {A B} (p : L A) (f : A -> L B) P Q :
  quiet p P -> (forall a, P a -> quiet (f a) Q) -> quiet (p ≫= f) Q.
Proof. intros Hp Hf s Ho. wp_step. eapply wp_mono; [by apply Hp|]. intros a s' [Ha ->]. by apply (Hf a Ha s). Qed.
Lemma quiet_reserve : quiet reserve (fun ok => ok = true).
Proof. intros s Ho. by apply wp_reserve_ok. Qed.
Lemma quiet_mono {A} (p : L A) (P Q : A -> Prop) : quiet p P -> (forall a, P a -> Q a) -> quiet p Q.
Proof. intros Hp HQ s Ho. eapply wp_mono; [by apply Hp|]. intros a s' [Ha ->]. auto. Qed.

Definition object_of (fs : list (string * string)) : json :=
  JObject ((fun f => (Some f.1, JString f.2)) <$> fs).

Lemma add_strings_quiet fs : forall fs0, quiet (add_strings (JObject fs0) fs)
  (fun o => o = JObject (fs0 ++ ((fun f => (Some f.1, JString f.2)) <$> fs))).
Proof.
  induction fs as [|[n t] fs IH]; intros fs0; cbn [add_strings].
  - apply quiet_ret. by rewrite app_nil_r.
  - eapply (quiet_bind _ _ (fun o => o = JObject (fs0 ++ [(Some n, JString t)]))).
    + unfold cJSON_AddStringToObject. do 3 (eapply quiet_bind; [apply quiet_reserve|intros ? ->; cbn [negb]]). by apply quiet_ret.
    + intros o ->. eapply quiet_mono; [apply IH|]. intros o' ->. by rewrite <- app_assoc.
Qed.

Lemma report_items_quiet {A} (all_end : A -> bool) (mk : A -> list (string * string)) iRet xs :
  Forall (fun x => all_end x = true) xs -> forall out,
  quiet (report_items all_end mk iRet xs out) (fun r => r = (iRet, out ++ ((object_of ∘ mk) <$> xs))).
Proof.
  induction 1 as [|x xs Hx _ IH]; intros out; cbn [report_items]; [apply quiet_ret; by rewrite app_nil_r|].
  eapply (quiet_bind _ _ (fun o => o = Some (JObject []))).
  { unfold cJSON_CreateObject. eapply quiet_bind; [apply quiet_reserve|]. intros ? ->. by apply quiet_ret. }
  intros ? ->. rewrite Hx. cbn [negb]. eapply quiet_bind; [apply add_strings_quiet|]. intros o ->. eapply quiet_mono; [apply IH|].
  intros r ->. by rewrite <- app_assoc.
Qed.

Lemma report_none_quiet fs out : quiet (report_none true fs out) (fun r => r = (NoErr, out ++ [object_of fs])).
Proof. unfold report_none. apply (report_items_quiet (fun _ : unit => true) (fun _ => fs) NoErr [tt]). by repeat constructor. Qed.

(** A first entry with a text that fills its array is read past it. *)
Lemma report_items_overread {A} (all_end : A -> bool) mk iRet x xs out s : oom s = [] -> all_end x = false ->
  report_items all_end mk iRet (x :: xs) out s = Fault OutOfBounds.
Proof. intros Ho Hx. cbn [report_items]. unfold cJSON_CreateObject, reserve, mbind, M_bind. cbn. rewrite Ho. cbn. by rewrite Hx. Qed.

Lemma quiet_run {A B} (p : L A) (f : A -> L B) a s : quiet p (fun x => x = a) -> oom s = [] -> (p ≫= f) s = f a s.
Proof.
  intros Hp Ho. pose proof (Hp s Ho) as H. unfold wp in H. unfold mbind, M_bind. destruct (p s) as [[x s']|e]; [|done]. by destruct H as [-> ->].
Qed.

Lemma cJSON_Duplicate_quiet : forall item name, quiet (cJSON_Duplicate name item) (fun r => r = Some item).
Proof.
  fix IH 1. intros item name.
  assert (Hhead : forall (rest : L (option json)), quiet rest (fun r => r = Some item) ->
    quiet (ok ← reserve; if negb ok then mret None else
      text ← match item with JString _ => reserve | _ => mret true end;
      if negb text then mret None else
      named ← copy_name name; if negb named then mret None else rest) (fun r => r = Some item)).
  { intros rest Hr. eapply quiet_bind; [apply quiet_reserve|]. intros ? ->. cbn [negb].
    eapply (quiet_bind _ _ (fun ok => ok = true)); [destruct item; (by apply quiet_ret) || apply quiet_reserve|].
    intros ? ->. cbn [negb]. eapply (quiet_bind _ _ (fun ok => ok = true));
      [destruct name; (by apply quiet_ret) || apply quiet_reserve|]. by intros ? ->. }
  destruct item as [| | |v|v|l|fs]; cbn [cJSON_Duplicate]; apply Hhead; [by apply quiet_ret..| |].
  - match goal with |- quiet (mbind _ (?f l)) _ => set (go := f) end.
    assert (Hgo : quiet (go l) (fun r => r = Some l)).
    { clear Hhead. induction l as [|j l IHl]; [by apply quiet_ret|]. subst go. cbv beta iota.
      eapply quiet_bind; [apply IH|]. intros ? ->. eapply quiet_bind; [exact IHl|]. intros ? ->. by apply quiet_ret. }
    eapply quiet_bind; [exact Hgo|]. intros ? ->. by apply quiet_ret.
  - match goal with |- quiet (mbind _ (?f fs)) _ => set (go := f) end.
    assert (Hgo : quiet (go fs) (fun r => r = Some fs)).
    { clear Hhead. induction fs as [|[n j] fs IHl]; [by apply quiet_ret|]. subst go. cbv beta iota.
      eapply quiet_bind; [apply IH|]. intros ? ->. eapply quiet_bind; [exact IHl|]. intros ? ->. by apply quiet_ret. }
    eapply quiet_bind; [exact Hgo|]. intros ? ->. by apply quiet_ret.
Qed.

Lemma copy_items_quiet got : forall out, quiet (copy_items got out) (fun r => r = out ++ got).
Proof.
  induction got as [|j got IH]; intros out; cbn [copy_items]; [apply quiet_ret; by rewrite app_nil_r|].
  eapply quiet_bind; [apply cJSON_Duplicate_quiet|]. intros ? ->. eapply quiet_mono; [apply IH|].
  intros r ->. cbn. by rewrite <- app_assoc.
Qed.

(** * Commands on scenes *)

Section cmd.
Context (char_signed : bool) (this tbl : positive).
Abbreviation engine := (engine char_signed this tbl).

Lemma scene_lock_engine s c m ds : engine s c m ds -> wp (scene_lock (Some this)) s (fun _ s' => s' = s).
Proof. intros E. unfold scene_lock. wp_step. eapply wp_load; [apply E|reflexivity|]. by wp_step. Qed.

(** * Texts that end

    A command on scenes whose texts are shorter than the arrays they are read
    into; and scenes in whose arrays every text ends. *)
Definition short_text (d : json) (f : string * nat) : bool :=
  match text f.1 f.2 d with Some t => ended f.2 t | None => true end.
Definition short_command (d : json) : bool :=
  forallb (short_text d) [("Id", INDEX_MAX_LEN); ("Name", NAME_MAX_LEN); ("Enable", STATE_MAX_LEN);
    ("ExecDelayed", DELAYED_MAX_LEN); ("UpdateTime", TIME_MAX_LEN); ("Note", NOTE_MAX_LEN)]%string.
Definition scenes_end (ds : list held) : Prop := Forall (fun h => scene_ends (hScene h) = true) ds.

Lemma field_ends d key n dflt : short_text d (key, n) = true -> ended n dflt = true -> ended n (field key n dflt d) = true.
Proof. unfold short_text, field. cbn [fst snd]. by destruct (text key n d). Qed.
Lemma take_ends n s : ended n s = true -> ended n (str_take n s) = true.
Proof. intros H. rewrite str_take_short; [done|]. unfold ended in H. apply Nat.ltb_lt in H. lia. Qed.

(** The request of AddScene for a scene that is not there, and the scene's
    report. *)
Definition added_scene (id : string) (d : json) : scene_info :=
  command_scene id (field "Name" NAME_MAX_LEN "0" d) (field "Enable" STATE_MAX_LEN "1" d)
    (field "ExecDelayed" DELAYED_MAX_LEN "0" d) (field "UpdateTime" TIME_MAX_LEN "0" d) (field "Note" NOTE_MAX_LEN "0" d).

Definition updated_scene (id : string) (d : json) (old : scene_info) : scene_info :=
  let f key n (o : scene_info -> string) := field key n (str_take n (o old)) d in
  command_scene id (f "Name" NAME_MAX_LEN acSceneName) (f "Enable" STATE_MAX_LEN acSceneEnable)
    (f "ExecDelayed" DELAYED_MAX_LEN acExecDelayed) (f "UpdateTime" TIME_MAX_LEN acUpdateTime) (f "Note" NOTE_MAX_LEN acNote).

Lemma added_ends id d b1 b2 b3 b4 b5 : text "Id" INDEX_MAX_LEN d = Some id -> short_command d = true ->
  scene_ends (new_scene (added_scene id d) b1 b2 b3 b4 b5) = true.
Proof.
  intros Hid H. unfold short_command in H. cbn [forallb] in H. rewrite !andb_true_iff in H. destruct H as (Hi & Hn & He & Hd & Hu & Ho & _).
  unfold short_text in Hi. cbn [fst snd] in Hi. rewrite Hid in Hi. unfold scene_ends, new_scene, added_scene.
  cbn [acSceneId acSceneName acSceneEnable acExecDelayed acUpdateTime acNote set_texts zero_scene command_scene].
  rewrite !take_ends; [done|..]; first [done|by apply field_ends].
Qed.
Lemma updated_ends id d h : short_command d = true -> scene_ends (hScene h) = true ->
  scene_ends (hScene (retext (updated_scene id d (hScene h)) h)) = true.
Proof.
  intros H Hh. unfold short_command in H. cbn [forallb] in H. rewrite !andb_true_iff in H. destruct H as (Hi & Hn & He & Hd & Hu & Ho & _).
  unfold scene_ends in Hh |- *. rewrite !andb_true_iff in Hh. destruct Hh as (((((Ki & Kn) & Ke) & Kd) & Ku) & Ko).
  cbn [hScene retext acSceneId acSceneName acSceneEnable acExecDelayed acUpdateTime acNote set_texts updated_scene command_scene].
  rewrite Ki, !take_ends; [done|..]; (apply field_ends; [done|by apply take_ends]).
Qed.

(** An id is that of one scene. *)
Lemma same_held s c m ds id h k : engine s c m ds -> h ∈ ds -> k ∈ ds ->
  named id (hScene h) = true -> named id (hScene k) = true -> h = k.
Proof.
  intros E Hh Hk Hnh%named_id Hnk%named_id. apply list_elem_of_lookup in Hh as [i Hi]. apply list_elem_of_lookup in Hk as [j Hj].
  assert (i = j) as ->; [|congruence]. eapply NoDup_lookup; [apply (en_ids _ _ _ _ _ _ _ E)| |].
  - rewrite list_lookup_fmap, Hi. reflexivity.
  - rewrite list_lookup_fmap, Hj. apply (f_equal Some). cbv beta. congruence.
Qed.

Lemma hyScene_Add_run s c m ds d id : engine s c m ds -> text "Id" INDEX_MAX_LEN d = Some id ->
  wp (hyScene_Add (Some this) d) s (fun r s' =>
    (exists l1 h l2, ds = l1 ++ h :: l2 /\ named id (hScene h) = true /\ (db_results (glob s) = [] -> r = NoErr) /\
       engine s' c m (l1 ++ retext (updated_scene id d (hScene h)) h :: l2)) \/
    (Forall (fun h => named id (hScene h) = false) ds /\ (db_results (glob s) = [] -> r = NoErr) /\
     exists a b1 b2 b3 b4 b5,
       engine s' (set_scenes (a :: scenes c) c) m
         (Held a (new_scene (added_scene id d) b1 b2 b3 b4 b5) (fresh_lists id) b5 [] :: ds))).
Proof.
  intros E Hid. unfold hyScene_Add, need. rewrite Hid. cbv beta iota. wp_step.
  eapply wp_mono; [by eapply scene_lock_engine|]. intros [] s0 ->. wp_step.
  eapply wp_mono; [by eapply scene_list_get_engine|]. intros p s0 (-> & [(l1 & h & l2 & -> & Hn & _ & ->)|[Hf ->]]); cbn [is_null negb].
  - assert (Hh : h ∈ l1 ++ h :: l2) by (apply elem_of_app; right; by left).
    pose proof (en_holds _ _ _ _ _ _ _ E) as H. rewrite Forall_forall in H. wp_step.
    eapply wp_load; [apply (H h Hh)|reflexivity|]. cbv zeta. fold (updated_scene id d (hScene h)). wp_step.
    eapply wp_mono; [by eapply scene_list_set_engine|].
    intros r s1 [(k1 & k & k2 & Hk & Hnk & Hr & E1)|(Hf & _ & ->)]; wp_step; left.
    + assert (k = h) as -> by (eapply same_held; [exact E|rewrite Hk; apply elem_of_app; right; by left|done..]).
      exists k1, h, k2. split_and!; [done..| |done]. intros Hdb. by rewrite (Hr Hdb).
    + rewrite Forall_forall in Hf. cbn [acSceneId updated_scene command_scene] in Hf. by rewrite (Hf h Hh) in Hn.
  - fold (added_scene id d). wp_step. eapply wp_mono; [eapply scene_list_add_run; apply E|].
    intros p s1 (a & b1 & b2 & b3 & b4 & b5 & _ & Hp & _ & A). wp_step. right. split_and!; [done| |].
    + intros Hdb. by rewrite (Hp Hdb).
    + exists a, b1, b2, b3, b4, b5. exact (engine_added _ _ _ _ _ _ _ _ (added_scene id d) _ _ _ _ _ _ E Hf A).
Qed.

Lemma hyScene_Get_run s c m ds d out : engine s c m ds -> scenes_end ds ->
  wp (hyScene_Get (Some this) d out) s (fun r s' => s' = s /\
    r = (NoErr, out ++ match ds with
                       | [] => [object_of [("Op", "GetScene"); ("Id", "none")]%string]
                       | _ => (object_of ∘ scene_texts) <$> (hScene <$> take SCENE_MAX_NUM ds)
                       end)).
Proof.
  intros E Hends. unfold hyScene_Get. wp_step. apply wp_reserve_ok; [apply E|]. cbn [negb].
  wp_step. eapply wp_mono; [by eapply scene_lock_engine|]. intros [] s0 ->.
  wp_step. eapply wp_mono; [by eapply scene_list_get_list_engine|]. intros r s0 [-> ->].
  destruct ds as [|h ds]; [eapply wp_mono; [apply report_none_quiet, E|]; by intros r s1 [-> ->]|].
  rewrite bool_decide_false by done. eapply wp_mono; [apply report_items_quiet; [|apply E]|by intros r s1 [-> ->]].
  rewrite Forall_fmap. by apply Forall_take.
Qed.

(** GetScene reads past a text that fills its array, as the command stored it:
    here in the scene reported first. *)
Theorem full_text_is_overread s c m h ds d out : engine s c m (h :: ds) -> scene_ends (hScene h) = false ->
  hyScene_Get (Some this) d out s = Fault OutOfBounds.
Proof.
  intros E Hh. unfold hyScene_Get. rewrite (quiet_run _ _ true); [|apply quiet_reserve|apply E]. cbn [negb].
  unfold mbind, M_bind. pose proof (scene_lock_engine _ _ _ _ E) as Hl. unfold wp in Hl.
  destruct (scene_lock (Some this) s) as [[[] s0]|e]; [|done]. rewrite Hl.
  pose proof (scene_list_get_list_engine char_signed this tbl s c m (h :: ds) SCENE_MAX_NUM E) as Hg. unfold wp in Hg.
  destruct (scene_list_get_list _ _ s) as [[r s1]|e]; [|done]. destruct Hg as [-> ->].
  apply report_items_overread; [apply E|done].
Qed.

Lemma hyScene_Del_run s c m ds d : engine s c m ds ->
  wp (hyScene_Del char_signed (Some this) d) s (fun _ s' => exists c' m' ds', engine s' c' m' ds' /\ ds' ⊆ ds).
Proof.
  intros E. unfold hyScene_Del, need. destruct (text _ _ _) as [id|]; [|wp_step; eauto 6]. wp_step.
  eapply wp_mono; [by eapply scene_lock_engine|]. intros [] s0 ->. destruct (strn_eq _ _ _).
  - eapply wp_mono; [by eapply scene_list_clear_empties|]. intros r s' (_ & [(m' & E' & _) _ _ _ _]). exists (set_scenes [] c), m', []. split; [done|set_solver].
  - eapply wp_mono; [by eapply scene_list_del_engine|].
    intros r s' [(l1 & h & l2 & -> & _ & _ & V)|(_ & _ & ->)]; [|eauto 6].
    destruct (engine_removed _ _ _ _ _ _ _ _ _ _ E V) as (m' & E' & _). eexists _, m', (l1 ++ l2). split; [done|set_solver].
Qed.

(** ** Any commands *)

Definition keeps {A} (p : L A) : Prop :=
  forall s c m ds, engine s c m ds -> scenes_end ds ->
    wp p s (fun _ s' => exists c' m' ds', engine s' c' m' ds' /\ scenes_end ds').

Lemma keeps_ret {A} (a : A) : keeps (mret a).
Proof. intros s c m ds E He. wp_step. eauto 6. Qed.
Lemma keeps_bind {A B} (p : L A) (f : A -> L B) : keeps p -> (forall a, keeps (f a)) -> keeps (p ≫= f).
Proof.
  intros Hp Hf s c m ds E He. wp_step. eapply wp_mono; [by eapply Hp|]. intros a s' (c' & m' & ds' & E' & He').
  by eapply Hf.
Qed.
Lemma keeps_quiet {A} (p : L A) Q : quiet p Q -> keeps p.
Proof. intros Hp s c m ds E He. eapply wp_mono; [apply Hp, E|]. intros a s' [_ ->]. eauto 6. Qed.

Lemma keeps_plain f d : keeps (f d) -> forall out, keeps (plain f d out).
Proof. intros Hf out. apply keeps_bind; [apply Hf|]. intros r. apply keeps_ret. Qed.
Lemma keeps_collected f d : (forall out, keeps (f d out)) -> forall out, keeps (collected f d out).
Proof.
  intros Hf out. apply keeps_bind.
  - apply keeps_bind; [eapply keeps_quiet, quiet_reserve|]. intros ok. apply keeps_ret.
  - intros [a|]; [|apply keeps_ret]. apply keeps_bind; [apply Hf|]. intros [r got]. apply keeps_bind.
    + eapply keeps_quiet, copy_items_quiet.
    + intros out'. apply keeps_ret.
Qed.

Lemma hyScene_Add_keeps d : short_command d = true -> keeps (hyScene_Add (Some this) d).
Proof.
  intros Hd s c m ds E He. destruct (text "Id" INDEX_MAX_LEN d) as [id|] eqn:Hid.
  - eapply wp_mono; [by eapply hyScene_Add_run|].
    intros r s' [(l1 & h & l2 & -> & _ & _ & E')|(_ & _ & (a & b1 & b2 & b3 & b4 & b5 & E'))].
    + eexists _, _, _. split; [exact E'|]. unfold scenes_end in *. rewrite Forall_app, Forall_cons in *.
      destruct He as (He1 & Hh & He2). split_and!; [done|by apply updated_ends|done].
    + eexists _, _, _. split; [exact E'|]. constructor; [by apply added_ends|done].
  - unfold hyScene_Add, need. rewrite Hid. wp_step. eauto 6.
Qed.

Lemma scene_table_keeps op h d : scene_table char_signed (Some this) op = Some h -> short_command d = true ->
  forall out, keeps (h d out).
Proof.
  intros Hh Hd. revert Hh. unfold scene_table. destruct (is_op _ _); [intros [= <-]; apply keeps_plain, hyScene_Add_keeps, Hd|destruct (is_op _ _); [intros [= <-]; apply keeps_plain|
    destruct (is_op _ _); [intros [= <-]; apply keeps_collected|done]]].
  - intros s c m ds E He. eapply wp_mono; [by eapply hyScene_Del_run|]. intros r s' (c' & m' & ds' & E' & Hsub).
    exists c', m', ds'. split; [done|]. unfold scenes_end in *. rewrite Forall_forall in *. auto.
  - intros out s c m ds E He. eapply wp_mono; [by eapply hyScene_Get_run|]. intros r s' [-> _]. eauto 6.
Qed.

(** Every step of a pass is a step forward, over commands that were sent. *)
Abbreviation short_commands := (Forall (fun d => short_command d = true)).

Lemma item_of_array arr i d : cJSON_GetArrayItem arr i = Some d -> d ∈ arr.
Proof. unfold cJSON_GetArrayItem. intros H. repeat case_match; try done; by eapply list_elem_of_lookup_2. Qed.
Lemma delete_short arr i : short_commands arr -> short_commands (cJSON_DeleteItemFromArray arr i).
Proof.
  intros H. unfold cJSON_DeleteItemFromArray. destruct (i <? 0); [done|]. apply Forall_app. split; [by apply Forall_take|by apply Forall_drop].
Qed.

Lemma pass_step_keeps first i n p : short_commands (ps_in p) ->
  forall s c m ds, engine s c m ds -> scenes_end ds ->
  wp (pass_step first (scene_table char_signed (Some this)) (i, n, p)) s (fun r s' =>
    (exists c' m' ds', engine s' c' m' ds' /\ scenes_end ds') /\
    match r with inl (i', n', p') => i < n /\ n' - i' = n - i - 1 /\ short_commands (ps_in p') | inr _ => n <= i end).
Proof.
  intros Hp s c m ds E He. unfold pass_step. destruct (Z.leb_spec n i); [wp_step; split; [eauto 6|done]|].
  destruct (cJSON_GetArrayItem _ _) as [d|] eqn:Hd; [|wp_step; split; [eauto 6|split_and!; (done || lia)]].
  destruct (value_text _ _ _ _) as [op|]; [|wp_step; split; [eauto 6|split_and!; (done || lia)]].
  destruct (scene_table _ _ op) as [h|] eqn:Hh; [|wp_step; split; [eauto 6|split_and!; (done || lia)]].
  wp_step. eapply wp_mono; [eapply scene_table_keeps; [exact Hh| |exact E|exact He]|].
  - rewrite Forall_forall in Hp. by apply Hp, (item_of_array _ i).
  - intros [[z out]|] s' E'; wp_step; (split; [done|]; split_and!; try done; try lia). by apply delete_short.
Qed.

Lemma pass_loop_keeps first : forall fuel i n p, Z.max 0 (n - i) < Z.of_nat fuel -> short_commands (ps_in p) ->
  keeps (loop fuel (pass_step first (scene_table char_signed (Some this))) (i, n, p)).
Proof.
  intros fuel. induction fuel as [|fuel IH]; intros i n p Hf Hp s c m ds E He; [lia|]. rewrite loop_S. wp_step.
  eapply wp_mono; [by eapply pass_step_keeps|]. intros [[[i' n'] p']|p'] s' [(c' & m' & ds' & E' & He') Hstep].
  - destruct Hstep as (? & ? & ?). eapply IH; [lia|done|exact E'|exact He'].
  - wp_step. eauto 6.
Qed.

(** C7: whatever commands on scenes are sent, in whatever order, if their texts
    are shorter than the arrays of a scene, the pass over them ends without a
    fault, and after it the engine is well formed: its scenes have different ids
    and own different objects, and the pointer table has no handle but theirs;
    and every text of its scenes ends in its array, as before it. *)
Theorem scene_commands_keep_engine s c m ds first arr out ret op :
  engine s c m ds -> scenes_end ds -> short_commands arr -> Z.of_nat (length arr) < 2 ^ 31 ->
  wp (run_pass first (scene_table char_signed (Some this)) (Pass arr out ret op)) s
    (fun _ s' => exists c' m' ds', engine s' c' m' ds' /\ scenes_end ds').
Proof.
  intros E He Ha Hn. unfold run_pass, cJSON_GetArraySize. cbn [ps_in]. rewrite s32_small by (unfold INT_MIN, INT_MAX; lia).
  eapply pass_loop_keeps; [lia|exact Ha|exact E|exact He].
Qed.

(** The scene that AddScene adds to an engine without it is the first that
    GetScene reports, with the fields of the command, and defaults for those it
    lacks; the others follow. *)
Theorem add_scene_is_reported s c m ds d q id :
  engine s c m ds -> scenes_end ds -> text "Id" INDEX_MAX_LEN d = Some id -> short_command d = true ->
  Forall (fun h => named id (hScene h) = false) ds -> db_results (glob s) = [] ->
  wp (r ← hyScene_Add (Some this) d; o ← hyScene_Get (Some this) q []; mret (r, o)) s (fun r _ =>
    r = (NoErr, (NoErr, object_of [("Op", "GetScene"); ("Id", id);
      ("Name", field "Name" NAME_MAX_LEN "0" d); ("Enable", field "Enable" STATE_MAX_LEN "1" d);
      ("ExecDelayed", field "ExecDelayed" DELAYED_MAX_LEN "0" d); ("UpdateTime", field "UpdateTime" TIME_MAX_LEN "0" d);
      ("Note", field "Note" NOTE_MAX_LEN "0" d)]%string
      :: ((object_of ∘ scene_texts) <$> (hScene <$> take (SCENE_MAX_NUM - 1) ds))))).
Proof.
  intros E He Hid Hd Hf Hdb. wp_step. eapply wp_mono; [by eapply hyScene_Add_run|].
  intros r s1 [(l1 & h & l2 & -> & Hn & _)|(_ & Hr & (a & b1 & b2 & b3 & b4 & b5 & E1))].
  - exfalso. apply Forall_app in Hf as [_ Hf]. apply Forall_cons in Hf as [Hf _]. congruence.
  - wp_step. eapply wp_mono; [eapply hyScene_Get_run; [exact E1|by constructor; [apply added_ends|]]|]. intros o s2 [_ ->]. wp_step. rewrite (Hr Hdb).
    cbn [app fmap list_fmap take SCENE_MAX_NUM hScene]. do 3 f_equal. unfold compose, scene_texts, new_scene, added_scene.
    cbn [acSceneId acSceneName acSceneEnable acExecDelayed acUpdateTime acNote set_texts zero_scene command_scene].
    rewrite !field_short by reflexivity. by rewrite (text_short _ _ _ _ Hid).
Qed.

(** Cleaning the engine ends, deletes every scene, of which there are not
    more than fit the array it makes, and leaves an engine without scenes and
    without handles: what the scenes owned is freed, all else is as it was. *)
Theorem scene_clean_empties s c m ds :
  engine s c m ds -> (length ds <= SCENE_MAX_NUM)%nat ->
  wp (scene_clean char_signed (Some this)) s (fun r s' =>
    (db_results (glob s) = [] -> r = NoErr) /\ emptied char_signed this tbl s s' c ds).
Proof.
  intros E Hl. unfold scene_clean. cbn [is_null]. wp_step. apply wp_reserve_ok; [apply E|]. cbn [negb].
  wp_step. eapply wp_mono; [by eapply scene_list_get_list_engine|]. intros r s0 [-> ->].
  rewrite take_ge by done. eapply wp_mono; [exact (del_all_empties char_signed this tbl ds s c m 0 E)|].
  intros r s' [Hr Em]. split; [exact Hr|done].
Qed.
End cmd.

(** * An engine with one scene *)

Definition doomed_held : held := Held 10 doomed (pair_lists true) 5 [].

Lemma doomed_engine : engine true 50 51 doomed_mem doomed_class pair_chain [doomed_held].
Proof.
  pose proof doomed_removable as R. split; try (by apply R); try reflexivity.
  - constructor; [apply R|constructor].
  - repeat constructor; set_solver.
  - repeat constructor. set_solver.
  - constructor; [|constructor]. intros key. apply R.
  - intros key n Hn. exists doomed_held. split; [by left|]. revert Hn. unfold pair_chain, one_chain, upd_key. case_decide.
    + cbn. intros Hn. repeat (apply elem_of_cons in Hn as [->|Hn]; [reflexivity|]). by apply elem_of_nil in Hn.
    + by intros ?%elem_of_nil.
Qed.


Definition add_morning : json := object_of [("Op", "AddScene"); ("Id", "s2"); ("Name", "morning")]%string.

Lemma scene_commands_keep_engine_witness :
  wp (run_pass true (scene_table true (Some 50%positive)) (Pass [add_morning; JNull; object_of [("Op", "DelScene"); ("Id", "s1")]%string] [] 0 ""))
    doomed_mem (fun _ s' => exists c' m' ds', engine true 50 51 s' c' m' ds' /\ scenes_end ds').
Proof.
  apply (scene_commands_keep_engine true 50 51 doomed_mem doomed_class pair_chain [doomed_held]).
  - exact doomed_engine.
  - repeat constructor.
  - repeat constructor.
  - vm_compute. reflexivity.
Defined.

Lemma add_scene_is_reported_witness :
  wp (r ← hyScene_Add (Some 50%positive) add_morning; o ← hyScene_Get (Some 50%positive) JNull []; mret (r, o)) doomed_mem
    (fun r _ => r = (NoErr, (NoErr, [object_of [("Op", "GetScene"); ("Id", "s2"); ("Name", "morning"); ("Enable", "1");
        ("ExecDelayed", "0"); ("UpdateTime", "0"); ("Note", "0")]%string; object_of (scene_texts doomed)]))).
Proof.
  apply (add_scene_is_reported true 50 51 doomed_mem doomed_class pair_chain [doomed_held] add_morning JNull "s2").
  - exact doomed_engine.
  - repeat constructor.
  - vm_compute. reflexivity.
  - vm_compute. reflexivity.
  - repeat constructor.
  - reflexivity.
Defined.

Lemma scene_clean_empties_witness :
  wp (scene_clean true (Some 50%positive)) doomed_mem (fun r s' =>
    r = NoErr /\ forall p, p ∈ [10; 1; 2; 3; 4; 5]%positive -> cells s' !! p = None).
Proof.
  eapply wp_mono.
  - apply (scene_clean_empties true 50 51 doomed_mem doomed_class pair_chain [doomed_held]).
    + exact doomed_engine.
    + vm_compute. lia.
  - intros r s' [Hr Em]. split; [by apply Hr|]. intros p Hp. apply Em. exact Hp.
Defined.
