(* ===== verification/QueryProps.v ===== *)
(** The engine from text to text: a scene that is added by one request is the
    first of the report that answers the next, and the answer can be parsed; and
    what a device's report in text does is what the report does. *)
From stdpp Require Import gmap strings.
From Stdlib Require Import Ascii.
From S2P Require Import Prelude Heap CString HashTable SceneTimer SceneCond SceneSync SceneData PtrHash PtrRefine PtrProps ActionList CondList CondRefine SceneTruth SceneRefine SceneFire SceneOps SceneEvent OpsRefine OpsProps DelProps ScenePanel SceneList SceneRemove RemoveProps AddProps Json JsonText JsonProps JsonCheck CheckProps SceneCmd SceneDispatch EngineProps CmdProps.

(** * Texts of parsed values are C strings *)

Lemma number_no_nul t : all_chars number_char t = true -> no_nul t = true.
Proof.
  apply all_chars_weaken. intros c Hc. apply negb_true_iff, Z.eqb_neq. intros E.
  assert (c = chr 0) as ->; [|vm_compute in Hc; discriminate Hc]. rewrite <- (char_code_chr c), E. done.
Qed.
Lemma text_f_number d : all_chars number_char (text_f d) = true.
Proof.
  unfold text_f, minus. cbv zeta. rewrite !all_chars_app, digits_number, padded_number. by destruct (d.1 <? 0).
Qed.
Lemma text_f0_number d : all_chars number_char (text_f0 d) = true.
Proof. unfold text_f0, minus. rewrite all_chars_app, digits_number. by destruct (d.1 <? 0). Qed.
Lemma text_e_number d : all_chars number_char (text_e d) = true.
Proof.
  destruct d as [m k]. unfold text_e. cbv zeta. destruct (if _ =? 10000000 then _ else _) as [z z0]. unfold minus. rewrite !all_chars_app, digits_number, !padded_number.
  by destruct (m <? 0), (z0 <? 0).
Qed.
Lemma number_value_no_nul d : no_nul (JSON_number_value_get d) = true.
Proof.
  apply number_no_nul. unfold JSON_number_value_get.
  repeat case_match; first [apply text_number_chars|apply text_f0_number|apply text_e_number|apply text_f_number].
Qed.
Lemma take_no_nul n s : no_nul s = true -> no_nul (str_take n s) = true.
Proof.
  unfold no_nul. revert n. induction s as [|c s IH]; intros [|n] H; try done. cbn [str_take all_chars] in *.
  apply andb_true_iff in H as [-> H]. by apply IH.
Qed.

Lemma item_from_text d key j : from_text d = true -> cJSON_GetObjectItem d key = Some j -> from_text j = true.
Proof.
  destruct d as [| | | | | |fs]; try discriminate. cbn [from_text cJSON_GetObjectItem]. intros Hfs Hj.
  destruct (head (filter _ fs)) as [f|] eqn:E; [|discriminate Hj]. injection Hj as <-.
  assert (Hf : f ∈ fs).
  { apply (list_elem_of_filter (fun f => same_name key f = true)). destruct (filter _ fs); [discriminate E|]. injection E as ->. by left. }
  rewrite List.forallb_forall in Hfs. apply list_elem_of_In in Hf. apply Hfs, andb_true_iff in Hf as [_ ?]. done.
Qed.
Lemma text_no_nul key n d s : from_text d = true -> text key n d = Some s -> no_nul s = true.
Proof.
  intros Hd. unfold text, value_text, JSON_value_get. destruct (cJSON_GetObjectItem d key) as [j|] eqn:E; [|done].
  apply item_from_text in E; [|done]. destruct j as [| | |v|t|l|fs]; cbn; intros [= <-]; try apply take_no_nul; try done. apply number_value_no_nul.
Qed.
Lemma field_no_nul key n dflt d : from_text d = true -> no_nul dflt = true -> no_nul (field key n dflt d) = true.
Proof. intros Hd Hdflt. unfold field. destruct (text key n d) as [s|] eqn:E; [by eapply text_no_nul|done]. Qed.

(** * Requests and answers *)

(** The text asks the engine for one command. *)
Record asks (input : string) (d : json) : Prop := Asks {
  asks_from : from_text d = true;
  asks_parsed : exists o, cJSON_Parse input = Some o /\ text "Type" TYPE_MAX_LEN o = Some "LocalScene"%string /\
    text "Command" COMMAND_MAX_LEN o = Some "Dispatch"%string /\ JSON_array_get "Data" o = Some [d]
}.

Definition report_of (out : list json) : json :=
  JObject [(Some "Command", JString "Report"); (Some "FrameNumber", JString "00"); (Some "Type", JString "LocalScene"); (Some "Data", JArray out)]%string.

Lemma cJSON_CreateArray_quiet : quiet cJSON_CreateArray (fun a => a = Some []).
Proof. eapply quiet_bind; [apply quiet_reserve|]. intros ? ->. by apply quiet_ret. Qed.
Lemma cJSON_CreateObject_quiet : quiet cJSON_CreateObject (fun o => o = Some (JObject [])).
Proof. eapply quiet_bind; [apply quiet_reserve|]. intros ? ->. by apply quiet_ret. Qed.
Lemma hyScene_Report_quiet out : quiet (hyScene_Report out (JObject [])) (fun o => o = report_of out).
Proof.
  eapply quiet_bind; [apply add_strings_quiet|]. intros ? ->. eapply quiet_bind; [apply quiet_reserve|]. intros ? ->. by apply quiet_ret.
Qed.

Section query.
Context (char_signed : bool).

(** One command of the first pass is the whole dispatch. *)
Lemma dispatch_one g op h d s (Q : Z * list json -> mem -> Prop) :
  text "Op" OPERATION_MAX_LEN d = Some op -> scene_table char_signed g op = Some h ->
  wp (h d []) s (fun r s' => match r with Some (z, out) => Q (z, out) s' | None => False end) ->
  wp (hyScene_Dispatch char_signed g [d] []) s Q.
Proof.
  intros Hop Hh Hr. unfold text in Hop. unfold hyScene_Dispatch. wp_step. unfold run_pass. cbn [ps_in length]. rewrite loop_S. wp_step.
  unfold pass_step at 1. cbn [ps_in ps_op]. change (cJSON_GetArraySize [d] <=? 0) with false. change (cJSON_GetArrayItem [d] 0) with (Some d).
  cbv iota. rewrite Hop, Hh. wp_step. eapply wp_mono; [exact Hr|]. intros [[z out]|] s' HQ; [|done].
  wp_step. rewrite loop_S. wp_step. unfold pass_step. change (cJSON_GetArraySize [d] - 1 <=? 0) with true. cbv iota. wp_step. wp_step. wp_step.
  cbn [ps_ret ps_out Z.add]. done.
Qed.

Lemma query_one g input outSize d s (Q : Z * option (string * Z) -> mem -> Prop) :
  is_null g = false -> asks input d -> oom s = [] ->
  wp (hyScene_Dispatch char_signed g [d] []) s (fun r s' => oom s' = [] /\
    Q (if (NoErr =? r.1) && negb (0 =? cJSON_GetArraySize r.2) then
         (NoErr, (fun n => let t := cJSON_PrintUnformatted (report_of r.2) in (str_take n t, Z.of_nat (Nat.min n (String.length t)))) <$> outSize)
       else (r.1, None)) s') ->
  wp (scene_query char_signed g (Some input) outSize) s Q.
Proof.
  intros Hg [_ (o & Hp & Ht & Hc & Hd)] Ho Hr. unfold scene_query. rewrite Hg, Hp. wp_step.
  eapply wp_mono; [by apply cJSON_CreateArray_quiet|]. intros arr s0 [-> ->]. unfold need. rewrite Ht, Hc, Hd.
  change (negb (strn_eq TYPE_MAX_LEN "LocalScene" "LocalScene")) with false. change (negb (strn_eq COMMAND_MAX_LEN "Dispatch" "Dispatch")) with false.
  cbv iota. wp_step. eapply wp_mono; [exact Hr|]. intros [z out] s' [Ho' HQ]. cbn [fst snd] in HQ.
  rewrite bool_decide_true by eauto. cbn [negb]. destruct (_ && _); [|by wp_step].
  wp_step. eapply wp_mono; [by apply cJSON_CreateObject_quiet|]. intros ? s1 [-> ->].
  wp_step. eapply wp_mono; [by apply hyScene_Report_quiet|]. intros ob s1 [-> ->].
  rewrite minify_printed. wp_step. wp_step. by wp_step.
Qed.

Context (this tbl : positive).
Abbreviation engine := (engine char_signed this tbl).

(** What GetScene reports of the scenes [ds]. *)
Definition scene_reports (ds : list held) : list json :=
  match ds with
  | [] => [object_of [("Op", "GetScene"); ("Id", "none")]%string]
  | _ => (object_of ∘ scene_texts) <$> (hScene <$> take SCENE_MAX_NUM ds)
  end.

Lemma scene_reports_some ds : (NoErr =? NoErr) && negb (0 =? cJSON_GetArraySize (scene_reports ds)) = true.
Proof.
  rewrite Z.eqb_refl. apply negb_true_iff, Z.eqb_neq. unfold cJSON_GetArraySize.
  assert (0 < length (scene_reports ds) <= SCENE_MAX_NUM)%nat.
  { destruct ds as [|h ds]; [cbn; split; [lia|apply Nat.leb_le; reflexivity]|]. unfold scene_reports. rewrite !length_fmap, length_take. cbn [length].
    assert (0 < SCENE_MAX_NUM)%nat by (apply Nat.ltb_lt; reflexivity). lia. }
  assert (Z.of_nat SCENE_MAX_NUM < 2 ^ 31) by (apply Z.ltb_lt; reflexivity). rewrite s32_small by (unfold INT_MIN, INT_MAX; lia). lia.
Qed.

Lemma query_get s c m ds input d n : engine s c m ds -> scenes_end ds -> asks input d -> text "Op" OPERATION_MAX_LEN d = Some "GetScene"%string ->
  wp (scene_query char_signed (Some this) (Some input) (Some n)) s (fun r s' => s' = s /\
    let t := cJSON_PrintUnformatted (report_of (scene_reports ds)) in
    r = (NoErr, Some (str_take n t, Z.of_nat (Nat.min n (String.length t))))).
Proof.
  intros E He Hin Hop. eapply query_one; [done|exact Hin|apply E|]. eapply dispatch_one; [exact Hop|reflexivity|]. unfold collected. wp_step.
  eapply wp_mono; [apply cJSON_CreateArray_quiet, E|]. intros ? s1 [-> ->]. wp_step.
  eapply wp_mono; [by eapply hyScene_Get_run|]. intros ? s1 [-> ->]. cbn [app]. fold (scene_reports ds).
  wp_step. eapply wp_mono; [apply copy_items_quiet, E|]. intros ? s1 [-> ->]. wp_step. cbn [fst snd app].
  rewrite scene_reports_some. split; [apply E|]. split; done.
Qed.

Lemma query_add s c m ds input d id outSize : engine s c m ds -> asks input d -> text "Op" OPERATION_MAX_LEN d = Some "AddScene"%string ->
  text "Id" INDEX_MAX_LEN d = Some id -> Forall (fun h => named id (hScene h) = false) ds -> db_results (glob s) = [] ->
  wp (scene_query char_signed (Some this) (Some input) outSize) s (fun r s' => r = (NoErr, None) /\
    exists a b1 b2 b3 b4 b5, engine s' (set_scenes (a :: scenes c) c) m
      (Held a (new_scene (added_scene id d) b1 b2 b3 b4 b5) (fresh_lists id) b5 [] :: ds)).
Proof.
  intros E Hin Hop Hid Hf Hdb. eapply query_one; [done|exact Hin|apply E|]. eapply dispatch_one; [exact Hop|reflexivity|]. unfold plain. wp_step.
  eapply wp_mono; [by eapply hyScene_Add_run|]. intros r s1 [(l1 & h & l2 & -> & Hn & _)|(_ & Hr & (a & b1 & b2 & b3 & b4 & b5 & E1))].
  - exfalso. apply Forall_app in Hf as [_ Hf]. apply Forall_cons in Hf as [Hf _]. congruence.
  - wp_step. rewrite (Hr Hdb). cbn [fst snd]. split; [apply E1|]. split; [done|]. by exists a, b1, b2, b3, b4, b5.
Qed.

(** ** The reports are texts *)

Definition c_texts (sc : scene_info) : bool := forallb (fun f => no_nul f.2) (scene_texts sc).

Lemma object_printable fs : forallb (fun f => no_nul f.1 && no_nul f.2) fs = true -> printable (object_of fs) = true /\ nest (object_of fs) = 1%nat.
Proof.
  intros H. unfold object_of. cbn [printable nest]. induction fs as [|[n t] fs IH]; [done|]. cbn [forallb fst snd] in H.
  apply andb_true_iff in H as [Hf H]. destruct (IH H) as [IH1 IH2]. cbn [fmap list_fmap forallb foldr fst snd printable nest].
  rewrite Hf. split; [exact IH1|]. cbn. exact IH2.
Qed.
Lemma scene_printable sc : c_texts sc = true -> printable (object_of (scene_texts sc)) = true /\ nest (object_of (scene_texts sc)) = 1%nat.
Proof.
  intros H. apply object_printable. unfold c_texts, scene_texts in *. cbn [forallb fst snd] in *. exact H.
Qed.
Lemma reports_printable (js : list json) : Forall (fun j => printable j = true /\ nest j = 1%nat) js ->
  printable (report_of js) = true /\ (nest (report_of js) <= CJSON_NESTING_LIMIT)%nat.
Proof.
  intros H. unfold report_of. split.
  - cbn [printable forallb fst snd]. cbn. rewrite !andb_true_r. apply List.forallb_forall. intros j Hj. apply list_elem_of_In in Hj.
    rewrite Forall_forall in H. by apply H.
  - cbn [nest foldr snd]. assert (foldr (fun j n => Nat.max (nest j) n) 0%nat js <= 1)%nat.
    { induction H as [|j js [_ Hj] _ IH]; [cbn; lia|]. cbn [foldr]. rewrite Hj. lia. }
    apply (Nat.le_trans _ 3); [cbn; lia|]. by apply Nat.leb_le.
Qed.

Lemma added_c_texts id d b1 b2 b3 b4 b5 : from_text d = true -> text "Id" INDEX_MAX_LEN d = Some id ->
  c_texts (new_scene (added_scene id d) b1 b2 b3 b4 b5) = true.
Proof.
  intros Hd Hid. unfold c_texts, scene_texts, new_scene, added_scene.
  cbn [forallb fst snd acSceneId acSceneName acSceneEnable acExecDelayed acUpdateTime acNote set_texts zero_scene command_scene].
  rewrite !take_no_nul; [done|..]; first [by eapply text_no_nul|by apply field_no_nul].
Qed.

(** C8: a scene sent as text is in the text that comes back, if its texts, and
    those of the scenes that are there, are shorter than their arrays: after a
    request that adds it to an engine without it, the answer to a request for the scenes, if
    it fits the buffer, parses to a report whose first scene has the fields of
    the request, and defaults for those it lacks; the others follow. *)
Theorem added_scene_is_answered s c m ds input input' d q id n :
  engine s c m ds -> db_results (glob s) = [] -> Forall (fun h => c_texts (hScene h) = true) ds -> scenes_end ds ->
  asks input d -> short_command d = true -> text "Op" OPERATION_MAX_LEN d = Some "AddScene"%string ->
  text "Id" INDEX_MAX_LEN d = Some id -> Forall (fun h => named id (hScene h) = false) ds ->
  asks input' q -> text "Op" OPERATION_MAX_LEN q = Some "GetScene"%string ->
  wp (r ← scene_query char_signed (Some this) (Some input) None;
      o ← scene_query char_signed (Some this) (Some input') (Some n); mret (r, o)) s (fun r _ =>
    exists answer, r = ((NoErr, None), (NoErr, Some (str_take n answer, Z.of_nat (Nat.min n (String.length answer))))) /\
    cJSON_Parse answer = Some (report_of (object_of [("Op", "GetScene"); ("Id", id);
      ("Name", field "Name" NAME_MAX_LEN "0" d); ("Enable", field "Enable" STATE_MAX_LEN "1" d);
      ("ExecDelayed", field "ExecDelayed" DELAYED_MAX_LEN "0" d); ("UpdateTime", field "UpdateTime" TIME_MAX_LEN "0" d);
      ("Note", field "Note" NOTE_MAX_LEN "0" d)]%string
      :: ((object_of ∘ scene_texts) <$> (hScene <$> take (SCENE_MAX_NUM - 1) ds))))).
Proof.
  intros E Hdb Hds He Hin Hd Hop Hid Hf Hin' Hop'. wp_step. eapply wp_mono; [by eapply query_add|].
  intros r s1 (-> & a & b1 & b2 & b3 & b4 & b5 & E1). wp_step. eapply wp_mono; [eapply query_get; [exact E1|by constructor; [apply added_ends|]|done..]|]. intros o s2 [_ ->]. wp_step.
  set (h := Held _ _ _ _ _). eexists. split; [reflexivity|].
  assert (HR : Forall (fun j => printable j = true /\ nest j = 1%nat) (scene_reports (h :: ds))).
  { unfold scene_reports. rewrite !Forall_fmap. apply Forall_take. constructor; [apply scene_printable, added_c_texts; [apply Hin|done]|].
    eapply Forall_impl; [exact Hds|]. intros k Hk. by apply scene_printable. }
  destruct (reports_printable _ HR) as [Hp Hn]. unfold cJSON_PrintUnformatted. rewrite print_parsed by done. do 2 f_equal.
  cbn [scene_reports fmap list_fmap take SCENE_MAX_NUM hScene h]. f_equal. unfold compose, scene_texts, new_scene, added_scene.
  cbn [acSceneId acSceneName acSceneEnable acExecDelayed acUpdateTime acNote set_texts zero_scene command_scene].
  rewrite !field_short by reflexivity. by rewrite (text_short _ _ _ _ Hid).
Qed.
End query.

(** Two requests to the engine with one scene, in texts of their own. *)
Definition command_text (fs : list (string * string)) : string :=
  cJSON_Print (JObject [(Some "Command", JString "Dispatch"); (Some "Type", JString "LocalScene"); (Some "Data", JArray [object_of fs])]%string).

Lemma added_scene_is_answered_witness :
  wp (r ← scene_query true (Some 50%positive) (Some (command_text [("Op", "AddScene"); ("Id", "s2"); ("Name", "mor\ning")]%string)) None;
      o ← scene_query true (Some 50%positive) (Some (command_text [("Op", "GetScene")]%string)) (Some 1000%nat); mret (r, o)) doomed_mem
    (fun r _ => exists answer, r = ((NoErr, None), (NoErr, Some (str_take 1000 answer, Z.of_nat (Nat.min 1000 (String.length answer))))) /\
      cJSON_Parse answer = Some (report_of [object_of [("Op", "GetScene"); ("Id", "s2"); ("Name", "mor\ning"); ("Enable", "1");
        ("ExecDelayed", "0"); ("UpdateTime", "0"); ("Note", "0")]%string; object_of (scene_texts doomed)])).
Proof.
  apply (added_scene_is_answered true 50 51 doomed_mem doomed_class pair_chain [doomed_held] _ _
    (object_of [("Op", "AddScene"); ("Id", "s2"); ("Name", "mor\ning")]%string) (object_of [("Op", "GetScene")]%string) "s2").
  - exact doomed_engine.
  - reflexivity.
  - repeat constructor.
  - repeat constructor.
  - split; [reflexivity|]. eexists. split; [vm_compute; reflexivity|]. repeat split; vm_compute; reflexivity.
  - vm_compute. reflexivity.
  - vm_compute. reflexivity.
  - vm_compute. reflexivity.
  - repeat constructor.
  - split; [reflexivity|]. eexists. split; [vm_compute; reflexivity|]. repeat split; vm_compute; reflexivity.
  - vm_compute. reflexivity.
Defined.

(** * Reports of devices *)

(** C9: the text of a report, formatted or not, passes the check and the parser,
    and does what the report itself does; where [char] is signed a text that
    is not ASCII is answered with a format error and does nothing. *)
Theorem device_report_is_read char_signed this s :
  (forall j fmt, is_container j = true -> printable j = true -> takes_all char_signed j = true -> (nest j < Z.to_nat Checker.JSON_DEPTH)%nat ->
     scene_event char_signed (Some this) (print_value fmt 0 j) s = event_report char_signed (Some this) j s) /\
  (forall t, char_signed = true -> all_chars ascii_char t = false -> scene_event char_signed (Some this) t s = Val (JsonFormatErr, s)).
Proof.
  split.
  - intros j fmt Hc Hp Ht Hn. unfold scene_event, json_checked. cbn [is_null]. rewrite print_checked, print_parsed; try done.
    apply (Nat.le_trans _ (Z.to_nat Checker.JSON_DEPTH)); [lia|]. by apply Nat.leb_le.
  - intros t -> Ht. unfold scene_event, json_checked. cbn [is_null]. by rewrite non_ascii_checked.
Qed.

(** A sensor's report, and the same from a sensor with a name that is not ASCII. *)
Definition sensor_report (dev : string) : json :=
  JObject [(Some "Type", JString "Attribute"); (Some "Data", JArray [object_of [("DeviceId", dev); ("Key", "Temp"); ("Value", "21")]%string])]%string.

Lemma device_report_is_read_witness :
  scene_event true (Some 50%positive) (cJSON_Print (sensor_report "d1")) doomed_mem = event_report true (Some 50%positive) (sensor_report "d1") doomed_mem /\
  scene_event true (Some 50%positive) (cJSON_Print (sensor_report (String (chr 195) (String (chr 169) "")))) doomed_mem = Val (JsonFormatErr, doomed_mem).
Proof.
  split.
  - apply (proj1 (device_report_is_read true 50 doomed_mem) (sensor_report "d1") true); [reflexivity|vm_compute; reflexivity|vm_compute; reflexivity|].
    apply Nat.ltb_lt. vm_compute. reflexivity.
  - apply (proj2 (device_report_is_read true 50 doomed_mem)); [reflexivity|]. vm_compute. reflexivity.
Defined.
