(* ===== verification/CondCmdProps.v ===== *)
(** Three commands that do not do what is asked: AddCond with an interval,
    DelCond of an event condition, ExecScene with another enabling. *)
From stdpp Require Import gmap strings.
From S2P Require Import Prelude Heap CString HashTable SceneTimer SceneCond SceneSync SceneData PtrHash PtrRefine PtrProps ActionList CondList CondRefine SceneTruth SceneRefine SceneFire SceneOps SceneEvent OpsRefine OpsProps DelProps ScenePanel SceneList SceneRemove RemoveProps AddProps Json SceneCmd SceneDispatch EngineProps CmdProps.

Section cond.
Context (char_signed : bool) (this tbl : positive).
Abbreviation engine := (engine char_signed this tbl).

(** A command on a scene of the engine. *)
Lemma of_scene_id_run {A} s c m l1 h l2 d id (err : Z -> A) (k : string -> ptr -> L A) Q :
  engine s c m (l1 ++ h :: l2) -> text "Id" INDEX_MAX_LEN d = Some id -> named id (hScene h) = true ->
  wp (k id (Some (hAt h))) s Q -> wp (of_scene_id (Some this) d err k) s Q.
Proof.
  intros E Hid Hn HQ. unfold of_scene_id, need. rewrite Hid. wp_step.
  eapply wp_mono; [by eapply scene_lock_engine|]. intros [] s0 ->. wp_step.
  eapply wp_mono; [by eapply scene_list_get_engine|].
  intros p s0 (-> & [(k1 & h' & k2 & Hk & Hn' & _ & ->)|[Hf ->]]); cbn [is_null].
  - assert (h' = h) as ->; [|done]. eapply same_held; [exact E| | |exact Hn'|exact Hn].
    + rewrite Hk. apply elem_of_app. right. by left.
    + apply elem_of_app. right. by left.
  - exfalso. apply Forall_app in Hf as [_ Hf]. apply Forall_cons in Hf as [Hf _]. congruence.
Qed.

Lemma of_scene_id_fault {A} s c m l1 h l2 d id (err : Z -> A) (k : string -> ptr -> L A) e :
  engine s c m (l1 ++ h :: l2) -> text "Id" INDEX_MAX_LEN d = Some id -> named id (hScene h) = true ->
  k id (Some (hAt h)) s = Fault e -> of_scene_id (Some this) d err k s = Fault e.
Proof.
  intros E Hid Hn Hk. unfold of_scene_id, need. rewrite Hid.
  apply fault_after. eapply wp_mono; [by eapply scene_lock_engine|]. intros [] s0 ->.
  apply fault_after. eapply wp_mono; [by eapply scene_list_get_engine|].
  intros p s0 (-> & [(k1 & h' & k2 & Hks & Hn' & _ & ->)|[Hf ->]]); cbn [is_null].
  - assert (h' = h) as ->; [|done]. eapply same_held; [exact E| | |exact Hn'|exact Hn].
    + rewrite Hks. apply elem_of_app. right. by left.
    + apply elem_of_app. right. by left.
  - exfalso. apply Forall_app in Hf as [_ Hf]. apply Forall_cons in Hf as [Hf _]. congruence.
Qed.

(** A scene is at one place. *)
Lemma same_split s c m l1 h l2 k1 k2 : engine s c m (l1 ++ h :: l2) -> l1 ++ h :: l2 = k1 ++ h :: k2 -> l1 = k1 /\ l2 = k2.
Proof.
  intros E Hk. pose proof (en_ids _ _ _ _ _ _ _ E) as N. apply NoDup_fmap_1 in N. clear E. revert k1 N Hk.
  induction l1 as [|x l1 IH]; intros [|y k1] N Hk; cbn [app] in *; simplify_eq; try (apply NoDup_cons in N as [Nx N]).
  - done.
  - exfalso. apply Nx, elem_of_app. right. by left.
  - exfalso. apply Nx, elem_of_app. right. by left.
  - match goal with Hl : _ ++ _ = _ ++ _ |- _ => destruct (IH k1 N Hl) as [-> ->] end. done.
Qed.

(** What is read into the 8 bytes at the end of the condition, 124 of them. *)
Lemma read_interval_overruns d t s :
  cJSON_GetObjectItem d "TriggerInterval" = Some (JString t) ->
  read_member "TriggerInterval" KEY_MAX_LEN TRIGGER_INTERVAL_MAX_LEN (sizeof_time_cond - 160) d s = Fault OutOfBounds.
Proof. intros H. unfold read_member, JSON_value_get. by rewrite H. Qed.

Lemma read_member_cases key n size room d s :
  (exists v, read_member key n size room d s = Val (v, s)) \/ read_member key n size room d s = Fault OutOfBounds.
Proof. unfold read_member. destruct (JSON_value_get _ _ _) as [| |t w]; [eauto..|]. destruct (_ || _); eauto. Qed.

(** AddCond of a time condition whose interval is given as a string always
    writes past the end of the condition on the stack: the text is copied, and
    filled up, with the length of a key. *)
Theorem add_cond_interval_overruns s c m l1 h l2 d id logic kind key t :
  engine s c m (l1 ++ h :: l2) -> text "Id" INDEX_MAX_LEN d = Some id -> named id (hScene h) = true ->
  text "Logic" LOGIC_MAX_LEN d = Some logic -> text "CondType" TYPE_MAX_LEN d = Some kind -> is_kind "Time" kind = true ->
  text "TimeKey" KEY_MAX_LEN d = Some key -> cJSON_GetObjectItem d "TriggerInterval" = Some (JString t) ->
  hyScene_Add_Cond char_signed (Some this) d s = Fault OutOfBounds.
Proof.
  intros E Hid Hn Hlogic Hkind Htime Hkey Hi. unfold hyScene_Add_Cond.
  eapply of_scene_id_fault; [exact E|exact Hid|exact Hn|]. unfold need at 1 2. rewrite Hlogic, Hkind. cbv beta iota.
  rewrite Htime. unfold command_time_cond, need at 1. rewrite Hkey. unfold mbind, M_bind.
  destruct (read_member_cases "TriggerType" KEY_MAX_LEN TRIGGER_TYPE_MAX_LEN (sizeof_time_cond - 128) d s) as [[v ->]| ->]; [|done].
  by rewrite (read_interval_overruns d t s Hi).
Qed.

Lemma scene_cond_del_unknown s c m ds h x t key emptied settle res :
  engine s c m ds -> h ∈ ds -> find_id (acSceneId (hScene h)) (m key) = None ->
  wp (scene_cond_del char_signed (Some this) (Some (hAt h)) x t key emptied settle res) s (fun r s' => r = NotFoundErr /\ s' = s).
Proof.
  intros E Hh Hf. pose proof (en_holds _ _ _ _ _ _ _ E) as H. rewrite Forall_forall in H.
  destruct (en_table _ _ _ _ _ _ _ E) as (n & _ & T). unfold scene_cond_del.
  wp_step. eapply wp_load; [apply (H h Hh)|reflexivity|]. wp_step. eapply wp_mono; [by eapply tab_find_spec|].
  intros r s' [-> ->]. rewrite Hf. cbn [fmap option_fmap option_map is_null]. by wp_step.
Qed.

(** DelCond of an event condition does not read the key: unless the scene
    has a condition on the device with the empty key, the answer is that there
    is none, and nothing is deleted. *)
Theorem del_event_cond_finds_nothing s c m l1 h l2 d id logic kind dev :
  engine s c m (l1 ++ h :: l2) -> text "Id" INDEX_MAX_LEN d = Some id -> named id (hScene h) = true ->
  text "Logic" LOGIC_MAX_LEN d = Some logic -> is_or logic || is_and logic = true ->
  text "CondType" TYPE_MAX_LEN d = Some kind -> is_kind "Event" kind = true ->
  text "DevId" DEV_ID_MAX_LEN d = Some dev -> strn_eq DEV_ID_MAX_LEN dev JSON_VALUE_ALL = false ->
  find_id (acSceneId (hScene h)) (m (event_hash_key dev "")) = None ->
  wp (hyScene_Del_Cond char_signed (Some this) d) s (fun r s' => r = NotFoundErr /\ s' = s).
Proof.
  intros E Hid Hn Hlogic Hoa Hkind Hev Hdev Hall Hf.
  assert (Hh : h ∈ l1 ++ h :: l2) by (apply elem_of_app; right; by left).
  assert (Hnall : strn_eq LOGIC_MAX_LEN logic JSON_VALUE_ALL = false).
  { apply orb_true_iff in Hoa. unfold is_or, is_and in Hoa. destruct (strn_eq _ logic JSON_VALUE_ALL) eqn:Ha; [|done].
    unfold strn_eq in *. rewrite !bool_decide_eq_true in *. rewrite Ha in Hoa. by destruct Hoa as [Hx|Hx]; vm_compute in Hx. }
  assert (Hnt : is_kind "Time" kind = false).
  { unfold is_kind, strn_eq in *. apply bool_decide_eq_true in Hev. apply bool_decide_eq_false. rewrite Hev. by vm_compute. }
  unfold hyScene_Del_Cond. eapply of_scene_id_run; [exact E|exact Hid|exact Hn|].
  unfold need at 1. rewrite Hlogic, Hnall. unfold need at 1. rewrite Hkind. unfold del_conds, need. rewrite Hnt, Hev, Hdev, Hall.
  destruct (is_or logic); [|destruct (is_and logic); [|done]].
  - unfold scene_event_or_cond_del. cbn [is_null orb ecKey ecDevId]. change (strn_eq KEY_MAX_LEN "" _) with false. cbv iota.
    by eapply scene_cond_del_unknown.
  - unfold scene_event_and_cond_del. cbn [is_null orb ecKey ecDevId]. by eapply scene_cond_del_unknown.
Qed.

(** ExecScene that disables a scene stores the name and the delay cut to the
    lengths of an id and of a state. *)
Theorem exec_scene_cuts_texts s c m l1 h l2 d id enable :
  engine s c m (l1 ++ h :: l2) -> text "Id" INDEX_MAX_LEN d = Some id -> named id (hScene h) = true ->
  text "Enable" STATE_MAX_LEN d = Some enable -> strn_eq STATE_MAX_LEN (acSceneEnable (hScene h)) enable = false ->
  strn_eq STATE_MAX_LEN enable "1" = false -> db_results (glob s) = [] ->
  wp (hyScene_Exec (Some this) d) s (fun r s' => r = NoErr /\ exists sc,
    engine s' c m (l1 ++ Held (hAt h) sc (hLists h) (hAction h) (hPanels h) :: l2) /\ acSceneEnable sc = enable /\
    acSceneName sc = str_take INDEX_MAX_LEN (acSceneName (hScene h)) /\
    acExecDelayed sc = str_take STATE_MAX_LEN (acExecDelayed (hScene h))).
Proof.
  intros E Hid Hn Hen Hne Hoff Hdb. assert (Hh : h ∈ l1 ++ h :: l2) by (apply elem_of_app; right; by left).
  pose proof (en_holds _ _ _ _ _ _ _ E) as H. rewrite Forall_forall in H.
  unfold hyScene_Exec. eapply of_scene_id_run; [exact E|exact Hid|exact Hn|]. wp_step.
  eapply wp_load; [apply (H h Hh)|reflexivity|]. cbv zeta. rewrite Hen, Hne. wp_step.
  eapply wp_mono; [by eapply scene_list_set_engine|].
  intros r s' [(k1 & k & k2 & Hk & Hnk & Hr & E')|(Hf & _ & _)].
  - assert (k = h) as -> by (eapply same_held; [exact E|rewrite Hk; apply elem_of_app; right; by left|done..]).
    rewrite (Hr Hdb). cbn [negb]. change (NoErr =? NoErr) with true. cbn [negb]. rewrite Hoff. wp_step. split; [done|].
    assert (l1 = k1 /\ l2 = k2) as [<- <-] by (eapply same_split; [exact E|exact Hk]).
    exists (set_texts (enabled_scene id enable (hScene h)) (hScene h)). split; [exact E'|].
    cbn [acSceneEnable acSceneName acExecDelayed set_texts enabled_scene command_scene]. split_and!.
    + rewrite str_take_take. by eapply text_short.
    + by apply str_take_le; vm_compute; lia.
    + by apply str_take_le; vm_compute; lia.
  - exfalso. rewrite Forall_forall in Hf. cbn [acSceneId enabled_scene command_scene] in Hf. by rewrite (Hf h Hh) in Hn.
Qed.
End cond.

Definition in_scene (fs : list (string * string)) : json := object_of (("Id", "s1") :: fs)%string.

Lemma add_cond_interval_overruns_witness :
  engine true 50 51 doomed_mem doomed_class pair_chain [doomed_held] /\
  hyScene_Add_Cond true (Some 50%positive)
    (in_scene [("Logic", "Or"); ("CondType", "Time"); ("TimeKey", "t1"); ("TriggerInterval", "5")]%string) doomed_mem =
  Fault OutOfBounds.
Proof.
  split; [exact doomed_engine|].
  apply (add_cond_interval_overruns true 50 51 doomed_mem doomed_class pair_chain [] doomed_held [] _ "s1" "Or" "Time" "t1" "5").
  - exact doomed_engine.
  - vm_compute. reflexivity.
  - reflexivity.
  - vm_compute. reflexivity.
  - vm_compute. reflexivity.
  - vm_compute. reflexivity.
  - vm_compute. reflexivity.
  - vm_compute. reflexivity.
Defined.

(** The condition on the lamp is there. *)
Lemma del_event_cond_finds_nothing_witness :
  find_id "s1" (pair_chain lamp_key) <> None /\
  wp (hyScene_Del_Cond true (Some 50%positive)
    (in_scene [("Logic", "Or"); ("CondType", "Event"); ("DevId", "lamp"); ("Key", "Switch")]%string)) doomed_mem
    (fun r s' => r = NotFoundErr /\ s' = doomed_mem).
Proof.
  split; [vm_compute; discriminate|].
  apply (del_event_cond_finds_nothing true 50 51 doomed_mem doomed_class pair_chain [] doomed_held [] _ "s1" "Or" "Event" "lamp").
  - exact doomed_engine.
  - vm_compute. reflexivity.
  - reflexivity.
  - vm_compute. reflexivity.
  - vm_compute. reflexivity.
  - vm_compute. reflexivity.
  - vm_compute. reflexivity.
  - vm_compute. reflexivity.
  - vm_compute. reflexivity.
  - vm_compute. reflexivity.
Defined.

Lemma exec_scene_cuts_texts_witness :
  wp (hyScene_Exec (Some 50%positive) (in_scene [("Enable", "0")]%string)) doomed_mem (fun r s' => r = NoErr /\ exists sc,
    engine true 50 51 s' doomed_class pair_chain [Held 10 sc (pair_lists true) 5 []] /\ acSceneEnable sc = "0").
Proof.
  eapply wp_mono.
  - apply (exec_scene_cuts_texts true 50 51 doomed_mem doomed_class pair_chain [] doomed_held [] (in_scene [("Enable", "0")]%string) "s1" "0").
    + exact doomed_engine.
    + vm_compute. reflexivity.
    + reflexivity.
    + vm_compute. reflexivity.
    + vm_compute. reflexivity.
    + vm_compute. reflexivity.
    + reflexivity.
  - intros r s' (Hr & sc & E & He & _). split; [exact Hr|]. exists sc. split; [exact E|exact He].
Defined.
