(* ===== verification/CommonFunc.v ===== *)
(** The helpers of libhytool that the gateway programs share
    (src/libhytool/tool/commonFunc.c), reading cJSON objects, loops over
    their arrays, and the frames and messages of the gateway's protocol. *)
From stdpp Require Import strings.
From Stdlib Require Import Ascii.
From S2P Require Import Prelude CString Json JsonText.

(** [strcpy] into an array of [size] bytes. *)
Definition strcpy {S} (size : nat) (s : string) : M S string :=
  if (String.length s <? size)%nat then mret s else fail OutOfBounds.

(** The member [valuestring], NULL but for strings, and [child]. *)
Definition valuestring (j : json) : option string := match j with JString s => Some s | _ => None end.
Definition children (j : json) : list json :=
  match j with JArray l => l | JObject fs => snd <$> fs | _ => [] end.

Fixpoint findStrIndex (key : string) (array : list string) : Z :=
  match array with
  | [] => -1
  | a :: array => if str_eq a key then 0 else let i := findStrIndex key array in if i =? -1 then -1 else i + 1
  end.

(** [strtol] in base 10 with a [long] of 32 bits; out of range, [out] keeps its
    value. *)
Definition strToNum (str : string) (out : Z) : Z :=
  let n := atoi str in if (INT_MIN <=? n) && (n <=? INT_MAX) then n else out.

Definition getStrForJson {S} (size : nat) (json : json) (src : string) (dst : string) : M S string :=
  match cJSON_GetObjectItem json src with
  | None => mret dst
  | Some obj => s ← get_or NullDeref (valuestring obj); strcpy size s
  end.

(** The low byte, as a [char]. *)
Definition to_char (char_signed : bool) (z : Z) : Z :=
  let b := u8 z in if char_signed && (128 <=? b) then b - 256 else b.
Definition getByteForJson {S} (char_signed : bool) (json : json) (src : string) (dst : Z) : M S Z :=
  match cJSON_GetObjectItem json src with
  | None => mret dst
  | Some obj => s ← get_or NullDeref (valuestring obj); mret (to_char char_signed (atoi s))
  end.

(** The text of a value in [size] bytes. *)
Definition int_member (j : json) : Z := match j with JNumber d => valueint d | JTrue => 1 | _ => 0 end.
Definition cjson_to_str {S} (size : nat) (j : json) : M S string :=
  strcpy size (match valuestring j with Some s => s | None => text_d (int_member j) end).

(** Frames: STX, a text in JSON, ETX. *)
Definition STX : ascii := chr 2.
Definition ETX : ascii := chr 3.
Definition frame (str : string) : string := String STX (str +:+ String ETX "").

(** Objects of texts, and the messages they come in. *)
Definition string_member (f : string * string) : option string * json := (Some f.1, JString f.2).
Definition string_object (fs : list (string * string)) : json := JObject (string_member <$> fs).
Definition message_of (number command type : string) (data : list json) : json :=
  JObject ((string_member <$> [("Command", command); ("FrameNumber", number); ("Type", type)]%string) ++ [(Some "Data"%string, JArray data)]).
Abbreviation message := (message_of "00").

(** * JSON through pointers that may be NULL *)

Definition get_item (json : option json) (name : string) : option Json.json := json ≫= fun j => cJSON_GetObjectItem j name.
Definition has_item (json : option json) (name : string) : bool := bool_decide (is_Some (get_item json name)).
Section pointers.
Context {S : Type}.
(** [item->valuestring], and its characters. *)
Definition text_ptr (item : option json) : M S (option string) := j ← get_or NullDeref item; mret (valuestring j).
Definition text_of (item : option json) : M S string := t ← text_ptr item; get_or NullDeref t.
Definition int_of (item : option json) : M S Z := j ← get_or NullDeref item; mret (int_member j).
Definition member_text (size : nat) (json : json) (name : string) : M S string := t ← text_of (cJSON_GetObjectItem json name); strcpy size t.
Definition member_text_if (size : nat) (json : Json.json) (name : string) : M S string :=
  if has_item (Some json) name then member_text size json name else mret "".
End pointers.
(** [cJSON_AddStringToObject] of a text that may be NULL. *)
Definition add_text (fs : list (string * string)) (name : string) (t : option string) : list (string * string) :=
  match t with None => fs | Some t => fs ++ [(name, t)] end.


(** * Loops over arrays *)

Fixpoint for_each {S A B} (f : A -> M S B) (l : list A) : M S (list B) :=
  match l with [] => mret [] | a :: l => b ← f a; bs ← for_each f l; mret (b :: bs) end.
(** An array whose length is stored in [len]; a length that does not fit leaves
    less room than its elements need. *)
Definition counted {S A B} (len : Z -> Z) (f : A -> M S B) (l : list A) : M S (list B) :=
  if negb (len (Z.of_nat (length l)) =? Z.of_nat (length l)) then fail OutOfBounds else for_each f l.
(** The first index of an element, the length if there is none. *)
Fixpoint index_of {A} (p : A -> bool) (l : list A) : nat :=
  match l with [] => O | a :: l => if p a then O else Datatypes.S (index_of p l) end.

Lemma findStrIndex_unknown key l : key ∉ l -> findStrIndex key l = -1.
Proof.
  induction l as [|a l IH]; intros Hk; [done|]. apply not_elem_of_cons in Hk as [Ha Hl]. cbn [findStrIndex].
  unfold str_eq. rewrite bool_decide_eq_false_2 by done. by rewrite IH.
Qed.

Section wp.
Context {S : Type}.
Lemma wp_text_of t (s : S) Q : Q t s -> wp (text_of (Some (JString t))) s Q.
Proof. done. Qed.
Lemma wp_strcpy n t (s : S) (Q : string -> S -> Prop) : (String.length t < n)%nat -> Q t s -> wp (strcpy n t) s Q.
Proof. intros Ht HQ. unfold strcpy. by destruct (Nat.ltb_spec (String.length t) n); [|lia]. Qed.
End wp.
