(* ===== verification/HyLink.v ===== *)
(** The front end of the gateway program (src/hylink/src): messages in frames
    between the cloud side ("hylink") and the ZigBee side, the registry of
    devices, and the adapter to the scene engine.  libhytool's cJSON (1.7.13)
    parses and prints with the functions of JsonText, which it shares with the
    tool library's copy; its hash map is a map, walked in an order of its own.
    Sockets, the database file and the LED are a trace; memory for texts is
    taken for granted, memory for devices is not. *)
From stdpp Require Import gmap strings pretty.
From Stdlib Require Import Ascii.
From S2P Require Import Prelude Heap CString SceneData SceneList Json JsonText CommonFunc SceneCmd SceneDispatch.

(** * State *)

Record HylinkDev : Type := Dev { DeviceId : string; ModelId : string; online : Z }.

(** [hyMap]: before it is made, made, destroyed (the pointer stays). *)
Inductive registry : Type :=
| NoMap
| Map (m : gmap string positive)
| Destroyed.

Inductive io : Type :=
| ToHylink (data : string)
| ToZigbee (data : string)
| DbInsert (devId modelId : string)
| DbDelete (devId : string)
| DbReset
| DbClose
| Led (status : Z)
| CloseSockets
| Pause (sec : Z)
| Reboot.

(** A POSIX timer: not made, made and armed for some seconds (0: disarmed), or
    deleted while its id is kept. *)
Inductive posix_timer : Type :=
| NoTimer
| Timer (sec : Z)
| Deleted.

Record front : Type := Front {
  hyMap : registry;
  scenes_mem : mem;
  g_pstSceneList : ptr;
  net_access_timer_id : posix_timer;
  led_timer_id : posix_timer;
  zigbee_connecting_num : Z;
  led_flip : bool;
  trace : list io
}.

Definition set_map (r : registry) (f : front) : front :=
  Front r (scenes_mem f) (g_pstSceneList f) (net_access_timer_id f) (led_timer_id f) (zigbee_connecting_num f) (led_flip f) (trace f).
Definition set_scenes_mem (m : mem) (f : front) : front :=
  Front (hyMap f) m (g_pstSceneList f) (net_access_timer_id f) (led_timer_id f) (zigbee_connecting_num f) (led_flip f) (trace f).
Definition set_engine (g : ptr) (f : front) : front :=
  Front (hyMap f) (scenes_mem f) g (net_access_timer_id f) (led_timer_id f) (zigbee_connecting_num f) (led_flip f) (trace f).
Definition set_net_timer (t : posix_timer) (f : front) : front :=
  Front (hyMap f) (scenes_mem f) (g_pstSceneList f) t (led_timer_id f) (zigbee_connecting_num f) (led_flip f) (trace f).
Definition set_led_timer (t : posix_timer) (f : front) : front :=
  Front (hyMap f) (scenes_mem f) (g_pstSceneList f) (net_access_timer_id f) t (zigbee_connecting_num f) (led_flip f) (trace f).
Definition set_connecting (n : Z) (f : front) : front :=
  Front (hyMap f) (scenes_mem f) (g_pstSceneList f) (net_access_timer_id f) (led_timer_id f) n (led_flip f) (trace f).
Definition set_flip (b : bool) (f : front) : front :=
  Front (hyMap f) (scenes_mem f) (g_pstSceneList f) (net_access_timer_id f) (led_timer_id f) (zigbee_connecting_num f) b (trace f).
Definition push_io (e : io) (f : front) : front :=
  Front (hyMap f) (scenes_mem f) (g_pstSceneList f) (net_access_timer_id f) (led_timer_id f) (zigbee_connecting_num f) (led_flip f) (trace f ++ [e]).

Abbreviation fheap := (heap HylinkDev front).
Abbreviation F A := (M fheap A).

Definition put_io (e : io) : F unit := setg (push_io e).

(** The scene engine runs on its own part of the state. *)
Definition on_scenes {A} (p : L A) : F A := fun s =>
  match p (scenes_mem (glob s)) with
  | Val (a, m) => Val (a, with_glob (set_scenes_mem m) s)
  | Fault e => Fault e
  end.

(** * The registry (hylinkListFunc.c) *)

(** A use of the map. *)
Definition with_map {A} (k : gmap string positive -> F A) : F A :=
  f ← getg; match hyMap f with NoMap => fail NullDeref | Destroyed => fail Dangling | Map m => k m end.

Definition hylinkListSize : F Z := with_map (fun m => mret (Z.of_nat (size m))).
Definition hylinkListInit : F unit := setg (set_map (Map ∅)).
(** A device that was there under the key is left to itself. *)
Definition hylinkListAdd (node : ptr) : F unit :=
  match node with
  | None => mret tt
  | Some a => d ← load Some node; with_map (fun m => setg (set_map (Map (<[DeviceId d := a]> m))))
  end.
Definition hylinkListGet (key : string) : F ptr :=
  f ← getg; match hyMap f with NoMap => mret NULL | Destroyed => fail Dangling | Map m => mret (m !! key) end.
(** The value read for a key that is not there is outside the table. *)
Definition hylinkListDel (key : string) : F unit :=
  with_map (fun m =>
    val ← get_or OutOfBounds (m !! key);
    setg (set_map (Map (delete key m))) ;;
    free (Some val)).

(** * Sending (hylinkSend.c) *)

(** The frame and its NUL go to a buffer of 1024 bytes. *)
Definition hylinkDispatch (str : string) (dir : Z) : F Z :=
  if (1024 <=? String.length str + 2)%nat then fail OutOfBounds else
  put_io (if dir =? 1 then ToZigbee (frame str) else ToHylink (frame str)) ;;
  mret 0.

Record HylinkSendData : Type := SendData { sdDeviceId : string; sdModelId : string; sdKey : string; sdValue : string; sdOnline : string }.
Record HylinkSend : Type := Send { sCommand : Z; sType : string; sData : list HylinkSendData; sDataSize : Z }.

(** Empty members are left out. *)
Definition data_item (d : HylinkSendData) : json :=
  string_object (filter (fun f => f.2 <> ""%string)
    [("DeviceId", sdDeviceId d); ("ModelId", sdModelId d); ("Key", sdKey d); ("Value", sdValue d); ("Online", sdOnline d)]%string).
Fixpoint data_items (n : nat) (i : Z) (l : list HylinkSendData) : F (list json) :=
  match n with
  | O => mret []
  | S n => d ← arr_get l i; js ← data_items n (i + 1) l; mret (data_item d :: js)
  end.

Definition hylinkSendFunc (hylinkSend : HylinkSend) : F Z :=
  if sCommand hylinkSend =? 2 then
    hylinkDispatch (cJSON_PrintUnformatted (string_object [("Command", "BeatHeartResponse")]%string)) 2
  else
    js ← data_items (Z.to_nat (sDataSize hylinkSend)) 0 (sData hylinkSend);
    hylinkDispatch (cJSON_PrintUnformatted (message (if sCommand hylinkSend =? 1 then "Dispatch" else "Report") (sType hylinkSend) js))
      (sCommand hylinkSend).

(** * Messages of the gateway itself (hylink.c) *)

Definition hylinkReportHeart : F Z := hylinkSendFunc (Send 2 "" [] 0).

Definition addDevToHyList (devId modelId : string) : F Z :=
  p ← alloc (Dev "" "" 0);
  if is_null p then fail NullDeref else
  d ← strcpy 33 devId;
  m ← strcpy 33 modelId;
  store p (Dev d m 0) ;;
  hylinkListAdd p ;;
  mret 0.

Definition hylinkNetAccess (sec : Z) : F Z :=
  hylinkSendFunc (Send 1 "Add" [SendData "0000000000000000" "000000" "Time" (text_d sec) ""] 1).

(** * Network access: two timers and the LED (hytool.c, rk3308/rkDriver.c) *)

Definition LedStatusForline (line : Z) : F Z := put_io (Led (if 0 <? line then 0 else 1)) ;; mret 0.
Definition ledTimerCallback : F Z :=
  setg (fun f => set_flip (negb (led_flip f)) f) ;;
  f ← getg; put_io (Led (of_bool (led_flip f))) ;; mret 0.

(** Deleted timers cannot be set. *)
Definition POSIXTimerSet (sec : Z) (t : posix_timer) : posix_timer := match t with Timer _ => Timer sec | t => t end.
Definition POSIXTimerDelete (t : posix_timer) : posix_timer := match t with NoTimer => NoTimer | _ => Deleted end.
Definition is_timer (t : posix_timer) : bool := match t with NoTimer => false | _ => true end.

Definition led_timer_open : F unit :=
  setg (fun f => if is_timer (led_timer_id f) then f else set_led_timer (POSIXTimerSet 1 (Timer 0)) f).
Definition led_timer_close : F unit := setg (set_led_timer NoTimer).
Definition net_timer_close : F unit :=
  led_timer_close ;;
  _ ← hylinkNetAccess 0;
  _ ← LedStatusForline 1;
  mret tt.
Definition net_access_timer (sec : Z) : F Z :=
  setg (fun f => if is_timer (net_access_timer_id f) then f else set_net_timer (Timer 0) f) ;;
  let arm sec := setg (fun f => set_net_timer (POSIXTimerSet sec (net_access_timer_id f)) f) in
  if negb (sec =? 0) then
    led_timer_open ;; arm (if sec <? 120 then 120 else sec) ;; mret 0
  else
    arm 0 ;; net_timer_close ;; mret 0.

(** A second passes: the LED's timer runs every second, the network's once. *)
Definition second : F unit :=
  f ← getg;
  match led_timer_id f with Timer _ => _ ← ledTimerCallback; mret tt | _ => mret tt end ;;
  match net_access_timer_id f with
  | Timer n =>
      if n <=? 0 then mret tt else
      setg (set_net_timer (Timer (n - 1))) ;;
      if n - 1 =? 0 then net_timer_close else mret tt
  | _ => mret tt
  end.

(** The timers are deleted, their ids kept. *)
Definition hytoolClose : F Z :=
  setg (fun f => set_led_timer (POSIXTimerDelete (led_timer_id f)) f) ;;
  setg (fun f => set_net_timer (POSIXTimerDelete (net_access_timer_id f)) f) ;;
  put_io CloseSockets ;;
  mret 0.

(** * The adapter to the scene engine (scene_adapter.c)

    The engine hands its commands to [hylink_scene_send] as text, and its
    reports to [scene_adapter_register_report]. *)

(** Types of messages. *)
Definition hylink_recv_type : list string :=
  ["Add"; "Register"; "UnRegister"; "OnOff"; "Delete"; "DevsInfo"; "LocalScene"].
Abbreviation ADD := 0.
Abbreviation REGISTER := 1.
Abbreviation UNREGISTER := 2.
Abbreviation ONOFF := 3.
Abbreviation DELETE := 4.
Abbreviation DEVSINFO := 5.
Abbreviation LOCAL_SCENE := 6.

Section front_end.
Context (char_signed : bool).

Definition scene_query_ (input : string) : F unit :=
  f ← getg; _ ← on_scenes (scene_query char_signed (g_pstSceneList f) (Some input) None); mret tt.

Definition hylink_scene_send (pCmd : string) : F Z :=
  match cJSON_Parse pCmd ≫= (fun root => cJSON_GetObjectItem root "Command") with
  | None => mret (-1)
  | Some command =>
      c ← get_or NullDeref (valuestring command);
      (if str_eq c "LocalScene" then scene_query_ pCmd else _ ← hylinkDispatch pCmd 1; mret tt) ;;
      mret 0
  end.
Definition scene_adapter_register_report (data : string) : F Z := hylinkDispatch data 0.

(** The texts of the engine's effects (action_list_exec, scene_report). *)
Definition command_text_of (type : string) (fs : list (string * string)) : option string :=
  cJSON_Minify (cJSON_Print (message "Dispatch" type [string_object fs])).
Definition report_text (acSceneId : string) : option string :=
  cJSON_Minify (str_take 4096 (cJSON_Print (message "Report" "LocalScene" [string_object [("Op", "ExecScene"); ("Id", acSceneId)]%string]))).
Definition bytes_text (data : list Z) : string :=
  c_str (foldr (fun z s => String (chr z) s) ""%string data).

Definition deliver (e : effect) : F Z :=
  match e with
  | Command type fs => t ← get_or OutOfBounds (command_text_of type fs); hylink_scene_send t
  | CustomData data => hylink_scene_send (bytes_text data)
  | SceneReport id => t ← get_or OutOfBounds (report_text id); scene_adapter_register_report t
  | Usleep _ | CallBack _ _ _ => mret 0
  end.

Definition scene_adapter_cmd (input : string) : F unit := scene_query_ input.
Definition scene_adapter_report (input : string) : F unit :=
  f ← getg; _ ← on_scenes (scene_event char_signed (g_pstSceneList f) input); mret tt.
Definition scene_adapter_close : F Z := f ← getg; on_scenes (scene_destroy char_signed (g_pstSceneList f)).
Definition scene_adapter_reset : F Z := f ← getg; on_scenes (scene_clean char_signed (g_pstSceneList f)).

(** * Receiving (hylinkRecv.c) *)

(** The order in which the hash map is walked, and what an [int] holds before it
    is written to. *)
Context (kh_values : gmap string positive -> list positive) (stale : Z).

(** An array of [DataSize] elements, a byte. *)
Fixpoint dev_infos (ps : list positive) (index : Z) (l : list HylinkSendData) : F (list HylinkSendData) :=
  match ps with
  | [] => mret l
  | p :: ps =>
      d ← load Some (Some p);
      id ← strcpy 24 (DeviceId d);
      model ← strcpy 24 (ModelId d);
      on ← strcpy 4 (text_d (online d));
      l ← arr_set l index (SendData id model "" "" on);
      dev_infos ps (index + 1) l
  end.
Definition recv_devs_info (commandDir : Z) : F unit :=
  n ← hylinkListSize;
  l ← with_map (fun m => dev_infos (kh_values m) 0 (replicate (Z.to_nat (u8 n)) (SendData "" "" "" "" "")));
  _ ← hylinkSendFunc (Send (if commandDir =? 0 then 1 else 0) "DevsInfo" l (u8 n));
  mret tt.

(** One element of the data, with the device id read so far: [None] ends the
    message as failed. *)
Definition recv_item (root : json) (commandDir type : Z) (hyDevId : string) (sub : json) : F (option string) :=
  hyDevId ← getStrForJson 33 sub "DeviceId" hyDevId;
  if type =? ADD then
    match cJSON_GetObjectItem sub "Key", cJSON_GetObjectItem sub "Value" with
    | Some _, Some value =>
        if commandDir =? 0 then mret (Some hyDevId) else
        v ← get_or NullDeref (valuestring value);
        _ ← net_access_timer (u8 (strToNum v stale));
        mret (Some hyDevId)
    | _, _ => mret None
    end
  else if type =? REGISTER then
    hyModelId ← getStrForJson 33 sub "ModelId" "";
    _ ← addDevToHyList hyDevId hyModelId;
    put_io (DbInsert hyDevId hyModelId) ;;
    mret (Some hyDevId)
  else if type =? ONOFF then
    p ← hylinkListGet hyDevId;
    (if is_null p then mret tt else
     d ← load Some p;
     o ← getByteForJson char_signed sub "Value" (online d);
     store p (Dev (DeviceId d) (ModelId d) o)) ;;
    mret (Some hyDevId)
  else if (type =? UNREGISTER) || (type =? DELETE) then
    p ← hylinkListGet hyDevId;
    (if is_null p then mret tt else
     hylinkListDel hyDevId ;;
     put_io (DbDelete hyDevId)) ;;
    mret (Some hyDevId)
  else if type =? DEVSINFO then
    recv_devs_info commandDir ;; mret (Some hyDevId)
  else
    scene_adapter_cmd (cJSON_PrintUnformatted root) ;; mret (Some hyDevId).

Fixpoint recv_items (root : json) (commandDir type : Z) (hyDevId : string) (l : list json) : F Z :=
  match l with
  | [] => mret 0
  | sub :: l =>
      r ← recv_item root commandDir type hyDevId sub;
      match r with None => mret (-1) | Some hyDevId => recv_items root commandDir type hyDevId l end
  end.

Definition recv_type (root : json) (commandDir : Z) : F Z :=
  match cJSON_GetObjectItem root "Type" with
  | None => mret (-1)
  | Some t =>
      let type := match valuestring t with Some s => findStrIndex s hylink_recv_type | None => -1 end in
      if type =? -1 then mret (-1) else
      match cJSON_GetObjectItem root "Data" with
      | None => mret (-1)
      | Some d => recv_items root commandDir type "" (children d)
      end
  end.

Definition recv_root (root : json) : F Z :=
  match cJSON_GetObjectItem root "Command" with
  | None => mret (-1)
  | Some command =>
      c ← get_or NullDeref (valuestring command);
      if str_eq c "Report" then
        scene_adapter_report (cJSON_PrintUnformatted root) ;; recv_type root 0
      else if str_eq c "Dispatch" then recv_type root 1
      else if str_eq c "TcpBeatHeart" then _ ← hylinkReportHeart; mret 0
      else recv_type root 0
  end.
Definition hylinkRecvJson (data : string) : F Z :=
  match cJSON_Parse data with None => mret (-1) | Some root => recv_root root end.

(** Every STX starts a message, which goes on to the end of what was received. *)
Fixpoint recv_bytes (data : string) (ret : Z) : F Z :=
  match data with
  | EmptyString => mret ret
  | String c data =>
      ret ← (if Ascii.eqb c STX then hylinkRecvJson (c_str data) else mret ret);
      recv_bytes data ret
  end.
Definition hylinkRecvManage (recv : string) : F Z := recv_bytes recv 0.

(** * The two sides (hytool/client.c) *)

Definition hylink_recv (data : string) : F Z := put_io (ToZigbee data) ;; _ ← hylinkRecvManage data; mret 0.
Definition zigbee_recv (data : string) : F Z := put_io (ToHylink data) ;; _ ← hylinkRecvManage data; mret 0.

Definition zigbee_connect : F Z :=
  setg (fun f => set_connecting (zigbee_connecting_num f + 1) f) ;;
  f ← getg;
  (if zigbee_connecting_num f =? 1 then _ ← LedStatusForline 1; mret tt else mret tt) ;;
  mret 0.
Definition zigbee_disconnect : F Z :=
  f ← getg;
  (if 0 <? zigbee_connecting_num f then
     setg (fun f => set_connecting (zigbee_connecting_num f - 1) f) ;;
     if zigbee_connecting_num f - 1 =? 0 then _ ← LedStatusForline 0; mret tt else mret tt
   else mret tt) ;;
  mret 0.

(** * Start, reset and stop (hylink.c, hytool.c, main.c) *)

Fixpoint select_rows (rows : list (string * string)) : F unit :=
  match rows with [] => mret tt | (devid, modelid) :: rows => _ ← addDevToHyList devid modelid; select_rows rows end.

(** [report] is [scene_adapter_register_report]'s address; the rest is what
    starting the engine depends on. *)
Definition scene_adapter_open (report : ptr) (db_open : bool) (threads : bool * bool) (exist : bool * bool * bool * bool)
    (scene_rows_ : option (list scene_info)) (rows : string -> scene_rows) : F Z :=
  f ← getg;
  _ ← on_scenes (scene_query_report_reg (g_pstSceneList f) report);
  '(iRet, g) ← on_scenes (scene_init char_signed db_open threads exist scene_rows_ rows);
  setg (set_engine g) ;;
  mret iRet.
Definition hylinkOpen (devs : list (string * string)) (scene_open : F Z) : F unit :=
  hylinkListInit ;;
  select_rows devs ;;
  _ ← scene_open;
  mret tt.

Definition hylinkListEmpty : F unit :=
  f ← getg;
  match hyMap f with
  | NoMap => mret tt
  | Destroyed => fail Dangling
  | Map m => each (fun p => free (Some p)) (kh_values m) ;; setg (set_map Destroyed)
  end.
Definition hylinkClose : F Z :=
  _ ← scene_adapter_close; hylinkListEmpty ;; put_io DbClose ;; mret 0.
Definition mainClose : F Z :=
  _ ← hytoolClose; _ ← hylinkClose; _ ← LedStatusForline 0; mret 0.

Definition systemReset : F Z :=
  _ ← hylinkSendFunc (Send 0 "ReFactory" [] 0);
  _ ← hylinkSendFunc (Send 1 "ReFactory" [] 0);
  _ ← scene_adapter_reset;
  put_io (Pause 1) ;;
  put_io DbReset ;;
  _ ← mainClose;
  put_io (Pause 10) ;;
  put_io Reboot ;;
  mret 0.

(** The gateway's button: 1 resets, 2 opens the network. *)
Definition sigioFunc (buf : Z) : F unit :=
  if buf =? 1 then _ ← systemReset; mret tt
  else if buf =? 2 then _ ← hylinkNetAccess 120; _ ← net_access_timer 120; mret tt
  else mret tt.
End front_end.
