(* ===== verification/HyLinkProps.v ===== *)
(** What the front end does with messages: frames one after another, the
    registry of devices, the timers of the network access, and the messages it
    does not handle. *)
From stdpp Require Import gmap strings pretty.
From Stdlib Require Import Ascii.
From S2P Require Import Prelude Heap CString SceneCond SceneData SceneList Json JsonText JsonProps CommonFunc SceneCmd SceneDispatch HyLink.

(** * Printed texts *)

(** Unformatted texts have no control characters. *)
Definition no_control (c : ascii) : bool := 31 <? char_code c.
Lemma number_no_control t : all_chars number_char t = true -> all_chars no_control t = true.
Proof.
  apply all_chars_weaken. intros c Hc. unfold no_control. apply Z.ltb_lt. unfold number_char, is_digit, is_chr in Hc.
  repeat rewrite orb_true_iff in Hc. rewrite andb_true_iff, !Z.eqb_eq, !Z.leb_le in Hc. lia.
Qed.
Lemma escape_no_control s : all_chars no_control (escape s) = true.
Proof.
  induction s as [|c s IH]; [done|]. cbn [escape]. rewrite all_chars_app, IH.
  by destruct c as [[] [] [] [] [] [] [] []].
Qed.
Lemma string_no_control n : all_chars no_control (print_string_ptr n) = true.
Proof. destruct n as [s|]; [|done]. unfold print_string_ptr. cbn [all_chars]. by rewrite all_chars_app, escape_no_control. Qed.

Lemma print_no_control j : forall d, all_chars no_control (print_value false d j) = true.
Proof.
  induction j as [| | |n|t|l IH|fs IH] using json_ind'; intros d; cbn [print_value]; try done.
  - apply number_no_control, print_number_chars.
  - apply string_no_control.
  - cbn [all_chars]. rewrite all_chars_app, andb_true_r. apply andb_true_iff. split; [done|].
    induction IH as [|j l Hj Hl IHl]; [done|]. cbn [print_elements]. rewrite all_chars_app, Hj. by destruct l.
  - cbn [all_chars when]. rewrite !all_chars_app, ?nil_app, ?andb_true_r. apply andb_true_iff. split; [done|].
    induction IH as [|[n j] fs Hj Hfs IHl]; [done|]. cbn [print_members when]. cbn [snd] in Hj.
    rewrite !all_chars_app, string_no_control, Hj, IHl. by destruct fs.
Qed.

(** The program just started, with no engine. *)
Definition started : fheap :=
  Heap ∅ 1 [] (Front (Map ∅) (Heap ∅ 1 [] (Env [] (Tm 1 9 0) 1000 [] [] sync_unused acts0)) NULL NoTimer NoTimer 0 false []).

(** * Frames *)

Section messages.
Context (char_signed : bool) (kh_values : gmap string positive -> list positive) (stale : Z).
Abbreviation recv_root := (recv_root char_signed kh_values stale).
Abbreviation recv_bytes := (recv_bytes char_signed kh_values stale).

Fixpoint frames (js : list json) : string :=
  match js with [] => "" | j :: js => frame (cJSON_PrintUnformatted j) +:+ frames js end.
(** Messages one after another. *)
Fixpoint recv_all (js : list json) (ret : Z) : F Z :=
  match js with [] => mret ret | j :: js => ret ← recv_root j; recv_all js ret end.

Definition not_stx (c : ascii) : bool := negb (Ascii.eqb c STX).
Lemma skip_text t : forall rest ret s, all_chars not_stx t = true -> recv_bytes (t +:+ rest) ret s = recv_bytes rest ret s.
Proof.
  induction t as [|c t IH]; intros rest ret s Ht; [done|]. cbn [all_chars] in Ht. apply andb_true_iff in Ht as [Hc Ht].
  rewrite app_cons. cbn [HyLink.recv_bytes]. unfold not_stx in Hc. apply negb_true_iff in Hc. rewrite Hc.
  unfold mbind, M_bind, mret, M_ret. by apply IH.
Qed.

Lemma text_not_stx t : all_chars no_control t = true -> all_chars not_stx t = true.
Proof. apply all_chars_weaken. intros c Hc. by destruct c as [[] [] [] [] [] [] [] []]. Qed.
Lemma control_no_nul t : all_chars no_control t = true -> no_nul t = true.
Proof. apply all_chars_weaken. intros c Hc. by destruct c as [[] [] [] [] [] [] [] []]. Qed.
Lemma no_nul_app a b : no_nul (a +:+ b) = no_nul a && no_nul b.
Proof. apply all_chars_app. Qed.
Lemma printed_no_nul j : no_nul (cJSON_PrintUnformatted j) = true.
Proof. apply control_no_nul, print_no_control. Qed.
Lemma frames_no_nul js : no_nul (frames js) = true.
Proof.
  induction js as [|j js IH]; [done|]. cbn [frames]. unfold frame.
  rewrite no_nul_app, IH, andb_true_r. change (no_nul (cJSON_PrintUnformatted j +:+ String ETX "") = true).
  by rewrite no_nul_app, printed_no_nul.
Qed.

(** The parser stops after the value. *)
Lemma print_parsed_rest j rest : printable j = true -> (nest j <= CJSON_NESTING_LIMIT)%nat -> no_number rest = true ->
  cJSON_Parse (cJSON_PrintUnformatted j +:+ rest) = Some j.
Proof.
  intros Hp Hn Hr. unfold cJSON_Parse. set (t := (cJSON_PrintUnformatted j +:+ rest)%string).
  destruct (parser_ends (parse_fuel t)) as (HV & _). specialize (HV 0%nat (buffer_skip_whitespace t)).
  pose proof (skip_length t). unfold parse_fuel in *. specialize (HV ltac:(lia)).
  pose proof (print_reparsed false j (S (3 * String.length t)) 0%nat 0%nat rest Hp ltac:(lia) Hr) as HR.
  unfold t, cJSON_PrintUnformatted in *. rewrite (skip_print false 0 j rest Hp) in HV |- *.
  destruct HR as [HR|HR]; rewrite HR in *; [done|]. done.
Qed.

Lemma frames_handled js : Forall (fun j => printable j = true /\ (nest j <= CJSON_NESTING_LIMIT)%nat) js -> forall s ret,
  recv_bytes (frames js) ret s = recv_all js ret s.
Proof.
  induction 1 as [|j js [Hp Hn] Hjs IH]; intros s ret; [done|].
  cbn [frames recv_all]. unfold frame. rewrite app_cons. cbn [HyLink.recv_bytes]. rewrite Ascii.eqb_refl.
  unfold hylinkRecvJson. rewrite app_assoc_s, app_cons, nil_app.
  rewrite c_str_no_nul.
  2:{ rewrite no_nul_app, printed_no_nul. apply frames_no_nul. }
  rewrite print_parsed_rest by done. unfold mbind, M_bind. destruct (recv_root j s) as [[r s']|e]; [|done].
  rewrite skip_text by apply text_not_stx, print_no_control. cbn [HyLink.recv_bytes]. apply IH.
Qed.

(** C31: what one side sends in frames, the other handles message by message, in
    order, each once, however many frames come in one piece. *)
Theorem frames_are_received js s : Forall (fun j => printable j = true /\ (nest j <= CJSON_NESTING_LIMIT)%nat) js ->
  hylinkRecvManage char_signed kh_values stale (frames js) s = recv_all js 0 s.
Proof. intros Hjs. by apply frames_handled. Qed.

(** A message without a command is dropped, one whose command is not a text
    stops the program, and one with a command but without a known type is
    dropped. *)
Theorem malformed_messages j s : printable j = true -> (nest j <= CJSON_NESTING_LIMIT)%nat ->
  let run := hylinkRecvManage char_signed kh_values stale (frames [j]) s in
  match cJSON_GetObjectItem j "Command" with
  | None => run = Val (-1, s)
  | Some command =>
      (valuestring command = None -> run = Fault NullDeref) /\
      (valuestring command = Some "Dispatch"%string ->
       match cJSON_GetObjectItem j "Type" with
       | Some (JString type) => type ∉ hylink_recv_type -> run = Val (-1, s)
       | _ => run = Val (-1, s)
       end)
  end.
Proof.
  intros Hp Hn run. assert (run = recv_root j s) as ->.
  { unfold run, hylinkRecvManage. rewrite frames_handled by by constructor. cbn [recv_all]. unfold mbind, M_bind. by destruct (recv_root j s) as [[? ?]|]. }
  unfold HyLink.recv_root. destruct (cJSON_GetObjectItem j "Command") as [command|]; [|done]. split.
  - by intros ->.
  - intros ->. cbn [get_or]. unfold mbind, M_bind, mret, M_ret. change (str_eq "Dispatch" "Report") with false. change (str_eq "Dispatch" "Dispatch") with true.
    cbv iota. unfold recv_type. destruct (cJSON_GetObjectItem j "Type") as [t|]; [|done].
    destruct t as [| | | |type| |]; try done. intros Ht. cbn [valuestring]. by rewrite findStrIndex_unknown.
Qed.
(** * Scenes *)

(** [p] again and again. *)
Fixpoint times (n : nat) (p : F unit) : F unit := match n with O => mret tt | S n => p ;; times n p end.

Lemma recv_scene_items root l : Forall (fun sub => cJSON_GetObjectItem sub "DeviceId" = None) l -> forall s,
  recv_items char_signed kh_values stale root 1 LOCAL_SCENE "" l s =
  (times (length l) (scene_adapter_cmd char_signed (cJSON_PrintUnformatted root)) ;; mret 0) s.
Proof.
  induction 1 as [|sub l Hsub Hl IH]; intros s; [done|]. cbn [recv_items length times]. unfold recv_item, getStrForJson. rewrite Hsub.
  unfold mbind, M_bind, mret, M_ret at 1. cbn [Z.eqb orb Pos.eqb]. destruct (scene_adapter_cmd _ _ s) as [[[] s']|e]; [|done].
  exact (IH s').
Qed.

(** A request for the scene engine with several commands in its data is given
    to the engine as a whole once for each of them, so that n commands are each
    done n times. *)
Theorem scene_request_is_repeated l s : Forall (fun sub => cJSON_GetObjectItem sub "DeviceId" = None) l ->
  recv_root (message "Dispatch" "LocalScene" l) s =
  (times (length l) (scene_adapter_cmd char_signed (cJSON_PrintUnformatted (message "Dispatch" "LocalScene" l))) ;; mret 0) s.
Proof. intros Hl. rewrite <- recv_scene_items by done. reflexivity. Qed.

Definition no_nul_fields (fs : list (string * string)) : bool := forallb (fun f => no_nul f.1 && no_nul f.2) fs.
Lemma fields_printable fs : no_nul_fields fs = true -> printable (string_object fs) = true.
Proof.
  induction fs as [|[n v] fs IH]; intros Hfs; [done|]. unfold no_nul_fields in *. cbn [forallb fst snd] in Hfs. apply andb_true_iff in Hfs as [Hf Hfs].
  change ((no_nul n && no_nul v) && printable (string_object fs) = true). by rewrite Hf, IH.
Qed.
Lemma object_nest fs : nest (string_object fs) = 1%nat.
Proof.
  unfold string_object. cbn [nest]. f_equal. induction fs as [|f fs IH]; [done|]. cbn [fmap list_fmap foldr]. exact IH.
Qed.
Lemma message_printable c t l : no_nul c = true -> no_nul t = true -> forallb no_nul_fields l = true ->
  printable (message c t (string_object <$> l)) = true /\ (nest (message c t (string_object <$> l)) <= 3)%nat.
Proof.
  intros Hc Ht Hl. split.
  - assert (forallb printable (string_object <$> l) = true).
    { induction l as [|fs l IH]; [done|]. cbn [forallb fmap list_fmap] in *. apply andb_true_iff in Hl as [Hfs Hl]. by rewrite fields_printable, IH. }
    change (no_nul c && (no_nul t && (forallb printable (string_object <$> l) && true)) = true). by rewrite Hc, Ht, H.
  - cbn [message nest foldr fmap list_fmap app snd string_member fst]. clear. set (n := foldr _ _ (string_object <$> l)).
    assert (n <= 1)%nat; [|lia]. subst n. induction l as [|fs l IH]; [cbn; lia|]. cbn [fmap list_fmap foldr]. rewrite object_nest.
    change (map string_object l) with (string_object <$> l). lia.
Qed.

(** Whatever command the scene engine gives out - also the execution of
    another scene - goes to the ZigBee side in a frame, and the engine itself
    does not see it. *)
Theorem scene_commands_go_to_zigbee type fs s :
  no_nul type = true -> no_nul_fields fs = true ->
  let text := cJSON_PrintUnformatted (message "Dispatch" type [string_object fs]) in
  (String.length text + 2 < 1024)%nat ->
  deliver char_signed (Command type fs) s = Val (0, with_glob (push_io (ToZigbee (frame text))) s).
Proof.
  intros Ht Hfs text Hl. unfold deliver, command_text_of. rewrite minify_printed. fold text. unfold get_or, hylink_scene_send, mbind, M_bind, mret, M_ret.
  destruct (message_printable "Dispatch" type [fs]) as [Hp Hn]; [done|done|cbn; by rewrite Hfs|]. cbn [fmap list_fmap] in Hp, Hn. unfold text at 1. unfold cJSON_PrintUnformatted at 1.
  rewrite print_parsed by (done || (etrans; [exact Hn|by apply Nat.leb_le])). cbn [option_bind]. change (cJSON_GetObjectItem (message "Dispatch" type [string_object fs]) "Command") with (Some (JString "Dispatch")).
  cbn [valuestring]. change (str_eq "Dispatch" "LocalScene") with false. cbv iota. unfold hylinkDispatch.
  destruct (Nat.leb_spec 1024 (String.length text + 2)); [lia|]. reflexivity.
Qed.

(** The handler of reports that is given before there is an engine makes no
    difference. *)
Theorem reports_are_not_registered report db_open threads exist scene_rows_ rows s : g_pstSceneList (glob s) = NULL ->
  scene_adapter_open char_signed report db_open threads exist scene_rows_ rows s =
  scene_adapter_open char_signed NULL db_open threads exist scene_rows_ rows s.
Proof. intros H. unfold scene_adapter_open, mbind, M_bind, getg, gets. by rewrite H. Qed.
End messages.

(** Walks the map in the order of its keys. *)
Definition in_order (m : gmap string positive) : list positive := (map_to_list m).*2.

Lemma frames_are_received_witness :
  let js := [message "Dispatch" "Register" [string_object [("DeviceId", "d1"); ("ModelId", "m")]]; string_object [("Command", "TcpBeatHeart")]]%string in
  hylinkRecvManage true in_order 0 (frames js) started = recv_all true in_order 0 js 0 started /\
  exists s, recv_all true in_order 0 js 0 started = Val (0, s) /\
    trace (glob s) = [DbInsert "d1" "m"; ToHylink (frame (cJSON_PrintUnformatted (string_object [("Command", "BeatHeartResponse")]%string)))].
Proof.
  intros js. split; [apply frames_are_received; repeat constructor; by apply Nat.leb_le|]. eexists. split; vm_compute; reflexivity.
Defined.

(** A command that is a number. *)
Lemma malformed_messages_witness :
  let j := JObject [(Some "Command", JNumber (1, 0%nat))]%string in
  hylinkRecvManage true in_order 0 (frames [j]) started = Fault NullDeref.
Proof.
  intros j. pose proof (malformed_messages true in_order 0 j started) as H. cbv zeta in H.
  apply H; [reflexivity|apply Nat.leb_le; reflexivity|reflexivity].
Defined.


(** * Network access *)

(** The seconds go by. *)
Fixpoint seconds (n : nat) : F unit := match n with O => mret tt | S n => second ;; seconds n end.

(** The front end with the network open for [m] more seconds. *)
Definition opened (m : Z) (b : bool) (tr : list io) (f : front) : front :=
  Front (hyMap f) (scenes_mem f) (g_pstSceneList f) (Timer m) (Timer 1) (zigbee_connecting_num f) b tr.
Definition closed (b : bool) (tr : list io) (f : front) : front :=
  Front (hyMap f) (scenes_mem f) (g_pstSceneList f) (Timer 0) NoTimer (zigbee_connecting_num f) b tr.

(** The LED in [n] seconds, from [b], and how it is then. *)
Fixpoint blinks (n : nat) (b : bool) : list io := match n with O => [] | S n => Led (of_bool (negb b)) :: blinks n (negb b) end.
Fixpoint blinked (n : nat) (b : bool) : bool := match n with O => b | S n => blinked n (negb b) end.

(** What the ZigBee side is told to end the access, for 0 seconds. *)
Definition access (sec : Z) : io :=
  ToZigbee (frame (cJSON_PrintUnformatted (message "Dispatch" "Add"
    [data_item (SendData "0000000000000000" "000000" "Time" (text_d sec) "")]))).

Lemma hylinkNetAccess_0 s : hylinkNetAccess 0 s = Val (0, with_glob (push_io (access 0)) s).
Proof. reflexivity. Qed.

Lemma second_opened m b tr f s : 1 < m -> glob s = opened m b tr f ->
  second s = Val (tt, with_glob (fun _ => opened (m - 1) (negb b) (tr ++ [Led (of_bool (negb b))]) f) s).
Proof.
  intros Hm Hg. destruct s as [c k o g]. cbn [glob] in Hg. subst g.
  unfold second, mbind, M_bind, getg, gets. cbn [glob opened led_timer_id net_access_timer_id].
  cbn [ledTimerCallback mbind M_bind setg modify with_glob getg gets glob mret M_ret set_flip put_io push_io opened hyMap scenes_mem g_pstSceneList
       net_access_timer_id led_timer_id zigbee_connecting_num led_flip trace cells brk oom].
  destruct (Z.leb_spec m 0); [lia|]. unfold setg, modify, with_glob. cbn [cells brk oom glob set_net_timer]. destruct (Z.eqb_spec (m - 1) 0); [lia|]. reflexivity.
Qed.
Lemma second_closes b tr f s : glob s = opened 1 b tr f ->
  second s = Val (tt, with_glob (fun _ => closed (negb b) (tr ++ [Led (of_bool (negb b)); access 0; Led 0]) f) s).
Proof.
  intros Hg. destruct s as [c k o g]. cbn [glob] in Hg. subst g. unfold with_glob. cbn [cells brk oom glob].
  transitivity (Val (tt, Heap c k o (closed (negb b) (((tr ++ [Led (of_bool (negb b))]) ++ [access 0]) ++ [Led 0]) f))); [reflexivity|].
  by rewrite <- !app_assoc.
Qed.

Lemma seconds_opened k : forall m b tr f s, Z.of_nat k < m -> glob s = opened m b tr f ->
  seconds k s = Val (tt, with_glob (fun _ => opened (m - Z.of_nat k) (blinked k b) (tr ++ blinks k b) f) s).
Proof.
  induction k as [|k IH]; intros m b tr f s Hk Hg; cbn [seconds blinks blinked].
  - rewrite app_nil_r. replace (m - Z.of_nat 0) with m by lia. destruct s; cbn in *; by subst.
  - unfold mbind, M_bind. rewrite (second_opened m b tr f s ltac:(lia) Hg). rewrite (IH (m - 1) (negb b) (tr ++ [Led (of_bool (negb b))]) f) by (lia || done).
    unfold with_glob. cbn [cells brk oom glob]. rewrite <- app_assoc. replace (m - Z.of_nat (S k)) with (m - 1 - Z.of_nat k) by lia. reflexivity.
Qed.

Lemma seconds_snoc k s : seconds (S k) s = (seconds k ;; second) s.
Proof.
  revert s. induction k as [|k IH]; intros s; cbn [seconds].
  - unfold mbind, M_bind, mret, M_ret. by destruct (second s) as [[[] ?]|].
  - cbn [seconds] in IH. unfold mbind, M_bind in *. destruct (second s) as [[[] s']|]; [|done]. apply IH.
Qed.
Lemma blinked_snoc k b : blinked (S k) b = negb (blinked k b).
Proof. revert b. induction k as [|k IH]; intros b; [done|]. apply (IH (negb b)). Qed.
Lemma blinks_snoc k b : blinks (S k) b = blinks k b ++ [Led (of_bool (negb (blinked k b)))].
Proof. revert b. induction k as [|k IH]; intros b; [done|]. change (blinks (S (S k)) b) with (Led (of_bool (negb b)) :: blinks (S k) (negb b)). by rewrite IH. Qed.

(** A grant of network access for [sec] seconds, at least 120, is ended exactly
    when they have gone by: until then nothing is sent and the LED blinks every
    second; at the end the ZigBee side is told once, the LED is lit and its
    timer is gone. *)
Theorem network_access_ends sec f s k : glob s = f -> 0 < sec < 256 ->
  led_timer_id f = NoTimer \/ led_timer_id f = Timer 1 -> net_access_timer_id f <> Deleted ->
  let n := Z.to_nat (Z.max 120 sec) in
  let after f' := with_glob (fun _ => f') s in
  ((k < n)%nat -> (_ ← net_access_timer sec; seconds k) s =
     Val (tt, after (opened (Z.max 120 sec - Z.of_nat k) (blinked k (led_flip f)) (trace f ++ blinks k (led_flip f)) f))) /\
  (_ ← net_access_timer sec; seconds n) s =
     Val (tt, after (closed (blinked n (led_flip f)) (trace f ++ blinks n (led_flip f) ++ [access 0; Led 0]) f)).
Proof.
  intros Hg Hsec Hled Hnet n after.
  assert (Hopen : net_access_timer sec s = Val (0, after (opened (Z.max 120 sec) (led_flip f) (trace f) f))).
  { unfold net_access_timer. destruct (Z.eqb_spec sec 0); [lia|]. destruct s as [c p o g]. cbn [glob] in Hg. subst g.
    unfold after, opened. replace (Z.max 120 sec) with (if sec <? 120 then 120 else sec) by (destruct (Z.ltb_spec sec 120); lia).
    destruct f as [r sm g nt lt cn b tr]. cbn [led_timer_id net_access_timer_id] in *.
    destruct Hled as [-> | ->], nt as [|m|]; try done. }
  assert (Hrun : forall j, (_ ← net_access_timer sec; seconds j) s = seconds j (after (opened (Z.max 120 sec) (led_flip f) (trace f) f))).
  { intros j. unfold mbind, M_bind. by rewrite Hopen. }
  assert (Hk : forall j, (j < n)%nat -> seconds j (after (opened (Z.max 120 sec) (led_flip f) (trace f) f)) =
    Val (tt, after (opened (Z.max 120 sec - Z.of_nat j) (blinked j (led_flip f)) (trace f ++ blinks j (led_flip f)) f))).
  { intros j Hj. rewrite (seconds_opened j (Z.max 120 sec) (led_flip f) (trace f) f); [done|lia|done]. }
  split; [intros Hlt; rewrite Hrun; by apply Hk|]. rewrite Hrun.
  destruct (Nat.lt_exists_pred 0 n) as (j & Hj & _); [lia|]. rewrite Hj.
  rewrite seconds_snoc. unfold mbind, M_bind. rewrite Hk by lia.
  rewrite (second_closes (blinked j (led_flip f)) (trace f ++ blinks j (led_flip f)) f); [|cbn; f_equal; f_equal; lia].
  rewrite blinked_snoc, blinks_snoc. unfold after, with_glob. cbn [cells brk oom glob]. by rewrite <- !app_assoc.
Qed.

Lemma network_access_ends_witness :
  (_ ← net_access_timer 5; seconds 120) started =
    Val (tt, with_glob (fun _ => closed (blinked 120 false) (blinks 120 false ++ [access 0; Led 0]) (glob started)) started).
Proof.
  refine (proj2 (network_access_ends 5 (glob started) started 0 _ _ _ _)); [reflexivity|lia|left; reflexivity|discriminate].
Defined.
