(* ===== verification/RegistryProps.v ===== *)
(** The registry of devices: messages keep it equal to a map from ids to models
    and states, its listing reports exactly that map, and a listing of many
    devices leaves its buffers. *)
From stdpp Require Import gmap strings pretty.
From Stdlib Require Import Ascii.
From S2P Require Import Prelude Heap CString SceneData SceneList Json JsonText JsonProps CommonFunc JsonCheck CheckProps SceneCmd SceneDispatch HyLink HyLinkProps.
From S2P Require RemoveProps.

(** * The abstract registry *)

(** Ids with their models and whether they are online. *)
Abbreviation devices := (gmap string (string * Z)).

Inductive reg_op : Type :=
| Register (id model : string)
| Remove (id : string)
| OnOff (id value : string).

Section registry.
Context (char_signed : bool) (kh_values : gmap string positive -> list positive) (stale : Z).

Definition reg_step (R : devices) (op : reg_op) : devices :=
  match op with
  | Register id model => <[id := (model, 0)]> R
  | Remove id => delete id R
  | OnOff id value => match R !! id with Some (model, _) => <[id := (model, to_char char_signed (atoi value))]> R | None => R end
  end.
(** What is written to the database. *)
Definition reg_db (R : devices) (op : reg_op) : list io :=
  match op with
  | Register id model => [DbInsert id model]
  | Remove id => if decide (id ∈ dom R) then [DbDelete id] else []
  | OnOff _ _ => []
  end.
Fixpoint reg_run (R : devices) (ops : list reg_op) : devices * list io :=
  match ops with
  | [] => (R, [])
  | op :: ops => let '(R', tr) := reg_run (reg_step R op) ops in (R', reg_db R op ++ tr)
  end.

Lemma reg_run_app ops ops' : forall R, reg_run R (ops ++ ops') =
  ((reg_run (reg_run R ops).1 ops').1, (reg_run R ops).2 ++ (reg_run (reg_run R ops).1 ops').2).
Proof.
  induction ops as [|op ops IH]; intros R; [by cbn; destruct (reg_run R ops')|]. cbn [app reg_run]. rewrite IH.
  destruct (reg_run (reg_step R op) ops). cbn. by rewrite app_assoc.
Qed.

Definition reg_fields (op : reg_op) : list (string * string) :=
  match op with
  | Register id model => [("DeviceId", id); ("ModelId", model)]
  | Remove id => [("DeviceId", id)]
  | OnOff id value => [("DeviceId", id); ("Value", value)]
  end%string.
Definition reg_item (op : reg_op) : json := string_object (reg_fields op).
(** The types of message an operation comes in. *)
Definition reg_type (type : string) (op : reg_op) : Prop :=
  match op with
  | Register _ _ => type = "Register"%string
  | Remove _ => type = "UnRegister"%string \/ type = "Delete"%string
  | OnOff _ _ => type = "OnOff"%string
  end.
Definition reg_fits (op : reg_op) : Prop :=
  match op with
  | Register id model => (String.length id < 33)%nat /\ (String.length model < 33)%nat
  | Remove id | OnOff id _ => (String.length id < 33)%nat
  end.

(** * The heap holds the map *)

Record held_devices (s : fheap) (R : devices) : Prop := HeldDevices {
  hd_oom : oom s = [];
  hd_wf : heap_wf s;
  hd_map : exists m, hyMap (glob s) = Map m /\
    (forall id, m !! id = None <-> R !! id = None) /\
    (forall id a, m !! id = Some a -> exists model on, R !! id = Some (model, on) /\ cells s !! a = Some (Dev id model on)) /\
    (forall id id' a, m !! id = Some a -> m !! id' = Some a -> id = id')
}.

(** Nothing else has changed, and [tr] was done. *)
Definition only_devices (s s' : fheap) (tr : list io) : Prop :=
  exists r, glob s' = set_map r (foldl (fun f e => push_io e f) (glob s) tr).

Lemma foldl_push tr f : foldl (fun f e => push_io e f) f tr =
  Front (hyMap f) (scenes_mem f) (g_pstSceneList f) (net_access_timer_id f) (led_timer_id f) (zigbee_connecting_num f) (led_flip f) (trace f ++ tr).
Proof.
  revert f. induction tr as [|e tr IH]; intros f; cbn [foldl]; [rewrite app_nil_r; by destruct f|].
  rewrite IH. cbn. by rewrite <- app_assoc.
Qed.
Lemma only_devices_trans s s' s'' tr tr' : only_devices s s' tr -> only_devices s' s'' tr' -> only_devices s s'' (tr ++ tr').
Proof.
  intros [r H] [r' H']. exists r'. rewrite H', H, !foldl_push. cbn. by rewrite app_assoc.
Qed.

(** The same with a scene engine that has become [e]. *)
Definition devices_and_engine (s s' : fheap) (tr : list io) (e : mem) : Prop :=
  exists r, glob s' = set_map r (set_scenes_mem e (foldl (fun f e => push_io e f) (glob s) tr)).
Lemma devices_and_engine_trans s s' s'' tr tr' e e' :
  devices_and_engine s s' tr e -> devices_and_engine s' s'' tr' e' -> devices_and_engine s s'' (tr ++ tr') e'.
Proof. intros [r H] [r' H']. exists r'. rewrite H', H, !foldl_push. cbn. by rewrite app_assoc. Qed.
Lemma same_engine s s' tr : only_devices s s' tr -> devices_and_engine s s' tr (scenes_mem (glob s)).
Proof. intros [r H]. exists r. rewrite H, foldl_push. done. Qed.

Lemma wp_put_io e s (Q : unit -> fheap -> Prop) : Q tt (with_glob (push_io e) s) -> wp (put_io e) s Q.
Proof. done. Qed.

(** ** One device *)

Lemma addDev_run id model s R : held_devices s R -> (String.length id < 33)%nat -> (String.length model < 33)%nat ->
  wp (addDevToHyList id model) s (fun _ s' => held_devices s' (<[id := (model, 0)]> R) /\ only_devices s s' []).
Proof.
  intros [Ho Hwf (m & Hm & Hdom & Hcells & Hinj)] Hid Hmodel. unfold addDevToHyList. wp_step. apply wp_alloc; [by rewrite Ho|]. intros _.
  cbn [is_null]. wp_step. apply wp_strcpy; [done|]. wp_step. apply wp_strcpy; [done|].
  wp_step. eapply wp_store; [cbn; apply lookup_insert_eq|]. wp_step. unfold hylinkListAdd. wp_step.
  eapply wp_load; [cbn; apply lookup_insert_eq|reflexivity|]. unfold with_map. wp_step. apply wp_getg. cbn [upd with_cells glob]. rewrite Hm.
  apply wp_setg. wp_step. cbn [DeviceId]. split.
  - assert (Hb : forall a, a <> brk s -> forall d, cells s !! a = Some d -> <[brk s := Dev id model 0]> (<[brk s := Dev "" "" 0]> (cells s)) !! a = Some d).
    { intros a Ha d Hd. by rewrite !lookup_insert_ne. }
    constructor; [cbn; by rewrite Ho| |].
    + intros a Ha. cbn in *. rewrite !lookup_insert_ne by lia. apply Hwf. lia.
    + exists (<[id := brk s]> m). split_and!; [done|..]; intros id'; cbn [cells with_glob upd with_cells].
      * destruct (decide (id = id')) as [<-|Hne]; [rewrite (lookup_insert_eq m), (lookup_insert_eq R); split; discriminate|rewrite (lookup_insert_ne m), (lookup_insert_ne R) by done; apply Hdom].
      * intros a. destruct (decide (id = id')) as [<-|Hne].
        -- rewrite (lookup_insert_eq m), (lookup_insert_eq R). intros [= <-]. exists model, 0. split; [done|]. by rewrite lookup_insert_eq.
        -- rewrite (lookup_insert_ne m), (lookup_insert_ne R) by done. intros Ha. destruct (Hcells _ _ Ha) as (mo & on & HR & Hd). exists mo, on. split; [done|].
           apply Hb; [|done]. intros ->. rewrite (Hwf (brk s)) in Hd by lia. done.
      * intros id2 a H1 H2.
        assert (Hnew : forall i, m !! i = Some (brk s) -> False).
        { intros i Hi. destruct (Hcells _ _ Hi) as (? & ? & _ & Hd). by rewrite (Hwf (brk s)) in Hd by lia. }
        destruct (decide (id = id')) as [<-|Hn1], (decide (id = id2)) as [<-|Hn2]; [done|..].
        -- rewrite lookup_insert_eq in H1. rewrite lookup_insert_ne in H2 by done. exfalso. simplify_eq. eauto.
        -- rewrite lookup_insert_eq in H2. rewrite lookup_insert_ne in H1 by done. exfalso. simplify_eq. eauto.
        -- rewrite !lookup_insert_ne in H1, H2 by done. by eapply Hinj.
  - exists (Map (<[id := brk s]> m)). done.
Qed.

Lemma held_get s R id : held_devices s R -> wp (hylinkListGet id) s (fun p s' => s' = s /\
  match R !! id with
  | None => p = NULL
  | Some (model, on) => exists m a, hyMap (glob s) = Map m /\ m !! id = Some a /\ p = Some a /\ cells s !! a = Some (Dev id model on)
  end).
Proof.
  intros [_ _ (m & Hm & Hdom & Hcells & _)]. unfold hylinkListGet. wp_step. apply wp_getg. rewrite Hm. wp_step. split; [done|].
  destruct (m !! id) as [a|] eqn:E.
  - destruct (Hcells _ _ E) as (model & on & -> & Hd). eauto 10.
  - by rewrite (proj1 (Hdom id) E).
Qed.

Lemma held_del s R id x : held_devices s R -> R !! id = Some x ->
  wp (hylinkListDel id) s (fun _ s' => held_devices s' (delete id R) /\ only_devices s s' []).
Proof.
  intros [Ho Hwf (m & Hm & Hdom & Hcells & Hinj)] HR. unfold hylinkListDel, with_map. wp_step. apply wp_getg. rewrite Hm.
  destruct (m !! id) as [a|] eqn:E; [|by rewrite (proj1 (Hdom id) E) in HR]. wp_step. wp_step. wp_step. apply wp_setg.
  destruct (Hcells _ _ E) as (model & on & _ & Hd). eapply wp_free; [exact Hd|]. split; [|by exists (Map (delete id m))].
  constructor; [done| |].
  - intros b Hb. cbn in *. destruct (decide (a = b)) as [->|]; [apply lookup_delete_eq|]. rewrite lookup_delete_ne by done. by apply Hwf.
  - exists (delete id m). split_and!; [done|..]; intros id'; cbn [cells del with_cells with_glob].
    + destruct (decide (id = id')) as [<-|Hne]; [split; intros _; apply lookup_delete_eq|].
      rewrite (lookup_delete_ne m), (lookup_delete_ne R) by done. apply Hdom.
    + intros b Hb. apply lookup_delete_Some in Hb as [Hne Hb]. destruct (Hcells _ _ Hb) as (mo & o & HR' & Hd'). exists mo, o.
      rewrite (lookup_delete_ne R) by done. split; [done|]. rewrite lookup_delete_ne; [done|]. intros ->. by apply Hne, (Hinj _ _ b).
    + intros id2 b H1 H2. apply lookup_delete_Some in H1 as [_ H1]. apply lookup_delete_Some in H2 as [_ H2]. by eapply Hinj.
Qed.

Lemma held_store s R m id a model on on' : held_devices s R -> hyMap (glob s) = Map m -> m !! id = Some a ->
  cells s !! a = Some (Dev id model on) -> held_devices (upd a (Dev id model on') s) (<[id := (model, on')]> R).
Proof.
  intros [Ho Hwf (m' & Hm' & Hdom & Hcells & Hinj)] Hm Hid Ha. rewrite Hm in Hm'. injection Hm' as <-. constructor; [done| |].
  - intros b Hb. cbn in *. rewrite lookup_insert_ne; [by apply Hwf|]. intros ->. by rewrite (Hwf b Hb) in Ha.
  - exists m. split_and!; [done|..|done]; intros id'; cbn [cells upd with_cells].
    + destruct (decide (id = id')) as [<-|Hne]; [|rewrite (lookup_insert_ne R) by done; apply Hdom].
      rewrite (lookup_insert_eq R), Hid. split; discriminate.
    + intros b Hb. destruct (decide (id = id')) as [<-|Hne].
      * rewrite Hid in Hb. injection Hb as <-. exists model, on'. by rewrite (lookup_insert_eq R), lookup_insert_eq.
      * destruct (Hcells _ _ Hb) as (mo & o & HR' & Hd). exists mo, o. rewrite (lookup_insert_ne R) by done. split; [done|].
        rewrite lookup_insert_ne; [done|]. intros ->. apply Hne. by eapply Hinj.
Qed.

(** ** Messages *)

Lemma held_trace s R e : held_devices s R -> held_devices (with_glob (push_io e) s) R.
Proof. by intros [? ? ?]. Qed.
Lemma only_trace s s' tr e : only_devices s s' tr -> only_devices s (with_glob (push_io e) s') (tr ++ [e]).
Proof. intros [r H]. exists r. cbn. rewrite H, foldl_app. cbn. by rewrite !foldl_push. Qed.
Lemma only_devices_refl s : only_devices s s [].
Proof. exists (hyMap (glob s)). cbn. by destruct (glob s). Qed.

Lemma get_member (fs : list (string * string)) name v size old s (Q : string -> fheap -> Prop) :
  cJSON_GetObjectItem (string_object fs) name = Some (JString v) -> (String.length v < size)%nat -> Q v s ->
  wp (getStrForJson size (string_object fs) name old) s Q.
Proof. intros H Hv HQ. unfold getStrForJson. rewrite H. cbn [valuestring]. wp_step. wp_step. by apply wp_strcpy. Qed.

Lemma item_refines root dir type op old s R : held_devices s R -> reg_fits op -> reg_type type op ->
  wp (recv_item char_signed kh_values stale root dir (findStrIndex type hylink_recv_type) old (reg_item op)) s (fun r s' =>
    is_Some r /\ held_devices s' (reg_step R op) /\ only_devices s s' (reg_db R op)).
Proof.
  intros H Hf Ht. unfold recv_item. wp_step. destruct op as [id model|id|id value]; cbn [reg_item reg_fits reg_type reg_step reg_db] in *.
  - destruct Hf as [Hid Hmodel]. subst type. eapply (get_member _ _ id); [reflexivity|done|]. change (findStrIndex "Register" hylink_recv_type) with 1.
    cbn [Z.eqb Pos.eqb]. wp_step. eapply (get_member _ _ model); [reflexivity|done|]. wp_step. eapply wp_mono; [by eapply addDev_run|].
    intros _ s' [H' Ho']. wp_step. apply wp_put_io. wp_step. split_and!; [done|by apply held_trace|]. by apply (only_trace s s' []).
  - eapply (get_member _ _ id); [reflexivity|done|]. replace (findStrIndex type hylink_recv_type =? 0) with false by by destruct Ht as [-> | ->].
    replace (findStrIndex type hylink_recv_type =? 1) with false by by destruct Ht as [-> | ->].
    replace (findStrIndex type hylink_recv_type =? 3) with false by by destruct Ht as [-> | ->].
    replace ((findStrIndex type hylink_recv_type =? 2) || (findStrIndex type hylink_recv_type =? 4)) with true by by destruct Ht as [-> | ->].
    wp_step. eapply wp_mono; [by apply held_get|]. intros p s' [-> Hp]. destruct (R !! id) as [[model on]|] eqn:E.
    + destruct Hp as (m & a & _ & _ & -> & _). cbn [is_null]. rewrite decide_True by by apply elem_of_dom. wp_step. wp_step.
      eapply wp_mono; [by eapply held_del|]. intros _ s' [H' Ho']. apply wp_put_io. wp_step. split_and!; [done|by apply held_trace|].
      by apply (only_trace s s' []).
    + subst p. cbn [is_null]. rewrite decide_False by by apply not_elem_of_dom. wp_step. wp_step. wp_step.
      rewrite (delete_id R) by done. split_and!; [done|done|apply only_devices_refl].
  - subst type. eapply (get_member _ _ id); [reflexivity|done|]. change (findStrIndex "OnOff" hylink_recv_type) with 3. cbn [Z.eqb Pos.eqb].
    wp_step. eapply wp_mono; [by apply held_get|]. intros p s' [-> Hp]. destruct (R !! id) as [[model on]|] eqn:E.
    + destruct Hp as (m & a & Hm & Hid & -> & Ha). cbn [is_null]. wp_step. wp_step. eapply wp_load; [exact Ha|reflexivity|]. wp_step.
      unfold getByteForJson. change (cJSON_GetObjectItem (reg_item (OnOff id value)) "Value") with (Some (JString value)).
      cbn [valuestring get_or]. wp_step. wp_step. wp_step. eapply wp_store; [exact Ha|]. wp_step. cbn [DeviceId ModelId].
      split_and!; [done|by eapply held_store|]. exists (hyMap (glob s)). cbn. by destruct (glob s).
    + subst p. cbn [is_null]. wp_step. wp_step. wp_step. split_and!; [done|done|apply only_devices_refl].
Qed.

(** A message with operations of one type. *)
Record reg_msg : Type := Msg { msg_command : string; msg_type : string; msg_ops : list reg_op }.
Definition reg_message (m : reg_msg) : json := message (msg_command m) (msg_type m) (string_object <$> (reg_fields <$> msg_ops m)).
Definition reg_types : list string := ["Register"; "OnOff"; "Delete"; "UnRegister"]%string.
Record msg_ok (m : reg_msg) : Prop := MsgOk {
  ok_command : no_nul (msg_command m) = true /\ msg_command m <> "TcpBeatHeart"%string;
  ok_type : msg_type m ∈ reg_types;
  ok_ops : Forall (fun op => reg_fits op /\ reg_type (msg_type m) op) (msg_ops m);
  ok_text : forallb no_nul_fields (reg_fields <$> msg_ops m) = true
}.

Lemma items_refine root dir type ops : Forall (fun op => reg_fits op /\ reg_type type op) ops -> forall old s R, held_devices s R ->
  wp (recv_items char_signed kh_values stale root dir (findStrIndex type hylink_recv_type) old (string_object <$> (reg_fields <$> ops))) s
    (fun r s' => r = 0 /\ held_devices s' (reg_run R ops).1 /\ only_devices s s' (reg_run R ops).2).
Proof.
  induction 1 as [|op ops [Hf Ht] Hops IH]; intros old s R H; [cbn; wp_step; split_and!; [done..|apply only_devices_refl]|].
  cbn [fmap list_fmap recv_items]. wp_step. eapply wp_mono; [by eapply item_refines|]. intros r s' ([id ->] & H' & Ho).
  eapply wp_mono; [by apply IH|]. intros r s2 (-> & H2 & Ho2). cbn [reg_run]. destruct (reg_run (reg_step R op) ops).
  split_and!; [done..|]. by eapply only_devices_trans.
Qed.

(** The scene engine ignores reports of these types. *)
Lemma report_ignored type l s : type ∈ ["Register"; "OnOff"; "Delete"]%string -> forallb no_nul_fields l = true ->
  scene_adapter_report char_signed (cJSON_PrintUnformatted (message "Report" type (string_object <$> l))) s = Val (tt, s).
Proof.
  intros Ht Hl. set (j := message _ _ _). unfold scene_adapter_report, on_scenes, mbind, M_bind, getg, gets.
  assert (HE : exists r, scene_event char_signed (g_pstSceneList (glob s)) (cJSON_PrintUnformatted j) (scenes_mem (glob s)) = Val (r, scenes_mem (glob s))).
  { unfold scene_event. destruct (g_pstSceneList (glob s)); [|by eexists]. cbn [is_null]. unfold json_checked, mbind, M_bind. rewrite check_answers.
    unfold mret at 1, M_ret at 1. destruct (accepts _ _); [|by eexists]. cbn [negb]. unfold cJSON_PrintUnformatted.
    destruct (message_printable "Report" type l) as [Hp Hn]; [done| |done|].
    { by apply list_elem_of_In in Ht as [<-|[<-|[<-|[]]]]. }
    rewrite print_parsed by (done || (etrans; [exact Hn|by apply Nat.leb_le])).
    exists NoErr. by apply list_elem_of_In in Ht as [<-|[<-|[<-|[]]]]. }
  destruct HE as [r ->]. unfold with_glob. by destruct s as [c b o []].
Qed.

(** Reports of removed devices go to the scene engine too. *)
Definition hears (g : ptr) (m : reg_msg) : L unit :=
  if str_eq (msg_command m) "Report" && str_eq (msg_type m) "UnRegister"
  then _ ← scene_event char_signed g (cJSON_PrintUnformatted (reg_message m)); mret tt else mret tt.

Lemma report_heard m s e : msg_command m = "Report"%string -> msg_type m ∈ reg_types -> forallb no_nul_fields (reg_fields <$> msg_ops m) = true ->
  hears (g_pstSceneList (glob s)) m (scenes_mem (glob s)) = Val (tt, e) ->
  scene_adapter_report char_signed (cJSON_PrintUnformatted (reg_message m)) s = Val (tt, with_glob (set_scenes_mem e) s).
Proof.
  destruct m as [command type ops]. cbn [msg_command msg_type msg_ops]. intros -> Ht Hl He. unfold hears in He. cbn [msg_command msg_type] in He.
  change (str_eq "Report" "Report") with true in He. cbn [andb] in He. destruct (str_eq type "UnRegister") eqn:E.
  - unfold scene_adapter_report, on_scenes. unfold mbind, M_bind in He |- *. unfold getg, gets.
    destruct (scene_event _ _ _ _) as [[r e']|]; [|discriminate He]. unfold mret, M_ret in He |- *. by injection He as ->.
  - injection He as <-. unfold reg_message. cbn [msg_command msg_type msg_ops].
    rewrite report_ignored; [by destruct s as [? ? ? []]| |done].
    assert (type <> "UnRegister"%string) as Hne by (intros ->; discriminate E).
    apply elem_of_cons in Ht as [->|Ht]; [by left|]. apply elem_of_cons in Ht as [->|Ht]; [by right; left|]. apply elem_of_cons in Ht as [->|Ht]; [by right; right; left|].
    by apply list_elem_of_singleton in Ht.
Qed.

Lemma message_refines m s R e : held_devices s R -> msg_ok m -> hears (g_pstSceneList (glob s)) m (scenes_mem (glob s)) = Val (tt, e) ->
  wp (recv_root char_signed kh_values stale (reg_message m)) s
    (fun r s' => r = 0 /\ held_devices s' (reg_run R (msg_ops m)).1 /\ devices_and_engine s s' (reg_run R (msg_ops m)).2 e).
Proof.
  intros H [[Hc Hbeat] Ht Hops Htext] He.
  assert (HT : forall dir s, held_devices s R -> wp (recv_type char_signed kh_values stale (reg_message m) dir) s
    (fun r s' => r = 0 /\ held_devices s' (reg_run R (msg_ops m)).1 /\ only_devices s s' (reg_run R (msg_ops m)).2)).
  { intros dir s0 H0. unfold recv_type, reg_message. change (cJSON_GetObjectItem (message ?c (msg_type m) ?l) "Type") with (Some (JString (msg_type m))). cbv beta iota.
    cbn [valuestring]. replace (findStrIndex (msg_type m) hylink_recv_type =? -1) with false.
    2:{ by apply list_elem_of_In in Ht as [<-|[<-|[<-|[<-|[]]]]]. }
    by apply items_refine. }
  unfold recv_root. change (cJSON_GetObjectItem (reg_message m) "Command") with (Some (JString (msg_command m))). cbv beta iota.
  cbn [valuestring get_or]. wp_step. wp_step.
  assert (Hother : str_eq (msg_command m) "Report" = false -> forall dir, wp (recv_type char_signed kh_values stale (reg_message m) dir) s
    (fun r s' => r = 0 /\ held_devices s' (reg_run R (msg_ops m)).1 /\ devices_and_engine s s' (reg_run R (msg_ops m)).2 e)).
  { intros E dir. unfold hears in He. rewrite E in He. injection He as <-. eapply wp_mono; [by apply HT|]. intros r s' (-> & H' & Ho).
    split_and!; [done|done|by apply same_engine]. }
  destruct (str_eq (msg_command m) "Report") eqn:E.
  - apply bool_decide_eq_true in E. wp_step. unfold wp at 1. rewrite (report_heard m s e) by done.
    eapply wp_mono; [apply HT; by destruct H|]. intros r s' (-> & H' & [r' Ho]). split_and!; [done|done|]. exists r'. rewrite Ho, !foldl_push. done.
  - destruct (str_eq (msg_command m) "Dispatch"); [by apply Hother|]. destruct (str_eq (msg_command m) "TcpBeatHeart") eqn:E2; [|by apply Hother].
    by apply bool_decide_eq_true in E2.
Qed.

Lemma all_refine ms : Forall msg_ok ms -> forall s R ret e, held_devices s R ->
  each (hears (g_pstSceneList (glob s))) ms (scenes_mem (glob s)) = Val (tt, e) ->
  wp (recv_all char_signed kh_values stale (reg_message <$> ms) ret) s
    (fun r s' => held_devices s' (reg_run R (ms ≫= msg_ops)).1 /\ devices_and_engine s s' (reg_run R (ms ≫= msg_ops)).2 e).
Proof.
  induction 1 as [|m ms Hm Hms IH]; intros s R ret e H He.
  - cbn in *. injection He as <-. wp_step. split; [done|]. by apply same_engine, only_devices_refl.
  - cbn [each] in He. unfold mbind at 1, M_bind at 1 in He. destruct (hears _ m _) as [[[] e1]|] eqn:He1; [|discriminate He].
    cbn [fmap list_fmap recv_all]. wp_step. eapply wp_mono; [by eapply message_refines|]. intros r s' (-> & H' & Ho).
    assert (g_pstSceneList (glob s') = g_pstSceneList (glob s) /\ scenes_mem (glob s') = e1) as [Hg Hs'].
    { destruct Ho as [r Ho]. rewrite Ho, foldl_push. done. }
    eapply wp_mono; [apply (IH s' _ 0 e H'); rewrite Hg, Hs'; exact He|]. intros r' s2 (H2 & Ho2).
    change ((m :: ms) ≫= msg_ops) with (msg_ops m ++ (ms ≫= msg_ops)).
    rewrite reg_run_app. split; [done|]. by eapply devices_and_engine_trans.
Qed.

(** C30: the registry is a map from ids to models and states: frames of messages
    that register, remove and switch devices (Register, UnRegister, Delete,
    OnOff), reports or not, however many come in one piece, leave in memory just
    the devices the operations make, and tell the database of them; the scene
    engine gets the reports of devices that were removed, and becomes what they
    make of it, if it handles them without a fault; and nothing else is done. *)
Theorem registry_refines ms s R e : held_devices s R -> Forall msg_ok ms ->
  each (hears (g_pstSceneList (glob s))) ms (scenes_mem (glob s)) = Val (tt, e) ->
  wp (hylinkRecvManage char_signed kh_values stale (frames (reg_message <$> ms))) s
    (fun _ s' => held_devices s' (reg_run R (ms ≫= msg_ops)).1 /\ devices_and_engine s s' (reg_run R (ms ≫= msg_ops)).2 e).
Proof.
  intros H Hms He. unfold hylinkRecvManage, wp at 1. rewrite frames_handled; [by apply all_refine|].
  clear H He. induction Hms as [|[c t ops] ms [[Hc _] Ht _ Hl] Hms IH]; constructor; [|done]. unfold reg_message. cbn [msg_command msg_type msg_ops] in *.
  destruct (message_printable c t (reg_fields <$> ops)) as [Hp Hn]; [done| |done|].
  - by apply list_elem_of_In in Ht as [<-|[<-|[<-|[<-|[]]]]].
  - split; [done|]. etrans; [exact Hn|by apply Nat.leb_le].
Qed.

(** * The listing of the devices *)

Definition dev_send (d : HylinkDev) : HylinkSendData := SendData (DeviceId d) (ModelId d) "" "" (text_d (online d)).
Definition short (d : HylinkDev) : bool :=
  (String.length (DeviceId d) <? 24)%nat && (String.length (ModelId d) <? 24)%nat && (String.length (text_d (online d)) <? 4)%nat.
Abbreviation no_data := (SendData "" "" "" "" "").

Lemma dev_infos_run s ps ds : Forall2 (fun p d => cells s !! p = Some d) ps ds -> forall l k,
  dev_infos ps (Z.of_nat (length l)) (l ++ replicate k no_data) s =
  (if (length ps <=? k)%nat && forallb short ds then Val (l ++ (dev_send <$> ds) ++ replicate (k - length ps) no_data, s) else Fault OutOfBounds).
Proof.
  induction 1 as [|p d ps ds Hp Hps IH]; intros l k; [cbn; by rewrite Nat.sub_0_r|].
  cbn [dev_infos length forallb]. unfold load, mbind, M_bind, getS. rewrite Hp. unfold get_or, mret, M_ret.
  unfold strcpy, short. destruct (String.length (DeviceId d) <? 24)%nat; cbn [andb]; [|by rewrite andb_false_r].
  unfold mret, M_ret. destruct (String.length (ModelId d) <? 24)%nat; cbn [andb]; [|by rewrite andb_false_r].
  destruct (String.length (text_d (online d)) <? 4)%nat; cbn [andb]; [|by rewrite andb_false_r].
  unfold arr_set. rewrite length_app, length_replicate. destruct k as [|k].
  - destruct (Z.ltb_spec (Z.of_nat (length l)) (Z.of_nat (length l + 0))); [lia|]. by rewrite andb_false_r.
  - destruct (Z.ltb_spec (Z.of_nat (length l)) (Z.of_nat (length l + S k))); [|lia]. destruct (Z.leb_spec 0 (Z.of_nat (length l))); [|lia]. cbn [andb].
    unfold mret, M_ret. rewrite Nat2Z.id. replace (<[length l := _]> (l ++ replicate (S k) no_data)) with ((l ++ [dev_send d]) ++ replicate k no_data).
    2:{ rewrite <- (Nat.add_0_r (length l)), insert_app_r. by rewrite <- app_assoc. }
    replace (Z.of_nat (length l) + 1) with (Z.of_nat (length (l ++ [dev_send d]))) by (rewrite length_app; cbn [length]; lia).
    rewrite IH. cbn [Nat.leb Nat.sub fmap list_fmap]. by rewrite <- !app_assoc.
Qed.

Lemma data_items_run s l : forall l0, data_items (length l) (Z.of_nat (length l0)) (l0 ++ l) s = Val (data_item <$> l, s).
Proof.
  induction l as [|d l IH]; intros l0; [done|]. cbn [length data_items]. unfold arr_get, mbind, M_bind.
  destruct (Z.ltb_spec (Z.of_nat (length l0)) 0); [lia|]. rewrite Nat2Z.id, list_lookup_middle by done. cbn [get_or]. unfold mret, M_ret.
  replace (Z.of_nat (length l0) + 1) with (Z.of_nat (length (l0 ++ [d]))) by (rewrite length_app; cbn [length]; lia).
  replace (l0 ++ d :: l) with ((l0 ++ [d]) ++ l) by by rewrite <- app_assoc. by rewrite IH.
Qed.

(** The map is walked in some order. *)
Context (kh_values_perm : forall m, kh_values m ≡ₚ (map_to_list m).*2).

Definition listed (x : string * (string * Z)) : HylinkDev := Dev x.1 x.2.1 x.2.2.
Definition devs_text (dir : Z) (l : list (string * (string * Z))) : string :=
  cJSON_PrintUnformatted (message (if dir =? 0 then "Dispatch" else "Report") "DevsInfo" (data_item <$> (dev_send <$> (listed <$> l)))).
Definition devs_sent (dir : Z) (text : string) : io := if dir =? 0 then ToZigbee (frame text) else ToHylink (frame text).

Lemma held_values s R m : held_devices s R -> hyMap (glob s) = Map m ->
  exists l, l ≡ₚ map_to_list R /\ Forall2 (fun p d => cells s !! p = Some d) (kh_values m) (listed <$> l).
Proof.
  intros [_ _ (m' & Hm' & Hdom & Hcells & _)] Hm. rewrite Hm in Hm'. injection Hm' as <-.
  set (val := fun a => match cells s !! a with Some d => (ModelId d, online d) | None => (""%string, 0) end).
  assert (HR : R = val <$> m).
  { apply map_eq. intros id. rewrite lookup_fmap. destruct (m !! id) as [a|] eqn:E; [|by apply Hdom].
    destruct (Hcells _ _ E) as (model & on & HR & Hd). etrans; [exact HR|]. cbn. unfold val. by rewrite Hd. }
  symmetry in HR. destruct (Permutation_map_inv _ _ (kh_values_perm m)) as (q & Hq & Hperm). exists (prod_map id val <$> q). split.
  - rewrite <- HR, map_to_list_fmap. by apply fmap_Permutation.
  - rewrite Hq. change (map snd q) with (q.*2). rewrite Forall2_fmap_l, !Forall2_fmap_r. apply Forall_Forall2_diag.
    apply Forall_forall. intros [id a] Hin. assert (m !! id = Some a) as E by (apply elem_of_map_to_list; by rewrite Hperm).
    destruct (Hcells _ _ E) as (model & on & _ & Hd). cbn. unfold val. by rewrite Hd.
Qed.

Lemma dispatch_run str dir s : hylinkDispatch str dir s =
  (if (String.length str + 2 <? 1024)%nat then Val (0, with_glob (push_io (if dir =? 1 then ToZigbee (frame str) else ToHylink (frame str))) s)
   else Fault OutOfBounds).
Proof. unfold hylinkDispatch. destruct (Nat.ltb_spec (String.length str + 2) 1024), (Nat.leb_spec 1024 (String.length str + 2)); by try lia. Qed.

Lemma listing dir s R : held_devices s R -> exists l, l ≡ₚ map_to_list R /\
  recv_devs_info kh_values dir s =
  (if (size R <? 256)%nat && forallb short (listed <$> l) && (String.length (devs_text dir l) + 2 <? 1024)%nat
   then Val (tt, with_glob (push_io (devs_sent dir (devs_text dir l))) s) else Fault OutOfBounds).
Proof.
  intros H. destruct (hd_map _ _ H) as (m & Hm & _). destruct (held_values s R m H Hm) as (l & Hl & Hcells). exists l. split; [done|].
  assert (Hn : size R = size m).
  { rewrite <- (length_map_to_list R), <- Hl, <- (length_fmap listed), <- (Forall2_length _ _ _ Hcells), kh_values_perm, length_fmap.
    apply length_map_to_list. }
  assert (Hk : length (kh_values m) = size m) by by rewrite kh_values_perm, length_fmap, length_map_to_list.
  unfold recv_devs_info, hylinkListSize, with_map, mbind, M_bind, getg, gets. rewrite Hm. unfold mret at 1, M_ret at 1. rewrite Hm.
  pose proof (dev_infos_run s _ _ Hcells [] (Z.to_nat (u8 (Z.of_nat (size m))))) as HD. cbn [app length] in HD. change (Z.of_nat 0) with 0 in HD.
  rewrite HD, Hk, Hn. clear HD.
  destruct (Nat.ltb_spec (size m) 256) as [Hlt|Hge].
  - unfold u8. rewrite Z.mod_small by lia. rewrite Nat2Z.id, Nat.leb_refl, Nat.sub_diag. cbn [andb replicate]. rewrite app_nil_r.
    destruct (forallb short _); [|done]. cbn [andb].
    assert (Hitems : data_items (Z.to_nat (Z.of_nat (size m))) 0 (dev_send <$> (listed <$> l)) s = Val (data_item <$> (dev_send <$> (listed <$> l)), s)).
    { rewrite Nat2Z.id, <- Hn, <- (length_map_to_list R), <- Hl, <- (length_fmap listed), <- (length_fmap dev_send). apply (data_items_run s _ []). }
    unfold hylinkSendFunc, mbind, M_bind, devs_text, devs_sent.
    destruct (dir =? 0); cbn [sCommand sData sDataSize sType Z.eqb Pos.eqb]; rewrite Hitems, dispatch_run; by destruct (_ <? 1024)%nat.
  - assert (u8 (Z.of_nat (size m)) < 256) by (unfold u8; apply Z.mod_pos_bound; lia).
    destruct (Nat.leb_spec (size m) (Z.to_nat (u8 (Z.of_nat (size m))))); [lia|]. done.
Qed.

Lemma escape_length s : (String.length s <= String.length (escape s))%nat.
Proof.
  induction s as [|c s IH]; [done|]. cbn [escape String.length]. rewrite length_app_s.
  assert (1 <= String.length (escape_char c))%nat; [|lia]. destruct c as [[] [] [] [] [] [] [] []]; apply Nat.leb_le; reflexivity.
Qed.
Lemma member_length dep name v : (String.length name + String.length v + 5 <=
  String.length (print_members false dep (print_value false dep) [string_member (name, v)]))%nat.
Proof.
  unfold string_member. cbn [fst snd]. rewrite print_members_1. cbn [when print_value]. rewrite !length_app_s. unfold print_string_ptr.
  cbn [String.length]. rewrite !length_app_s. cbn [String.length]. pose proof (escape_length name). pose proof (escape_length v). lia.
Qed.
Lemma last_member dep P f fs : (String.length (print_members false dep P [f]) <= String.length (print_members false dep P (fs ++ [f])))%nat.
Proof.
  induction fs as [|[n j] fs IH]; [done|]. cbn [app]. destruct fs as [|f' fs]; cbn [app] in *; rewrite print_members_2;
    cbn [when]; rewrite !length_app_s; lia.
Qed.
(** No device takes less. *)
Lemma item_length dep d : (14 <= String.length (print_value false dep (data_item (dev_send d))))%nat.
Proof.
  unfold data_item, dev_send. cbn [sdDeviceId sdModelId sdKey sdValue sdOnline]. set (fs := filter _ _).
  destruct (digits_head (Z.abs (online d)) ltac:(lia)) as (c & t & Ht & _).
  assert (1 <= String.length (text_d (online d)))%nat by (unfold text_d; rewrite Ht, length_app_s; cbn [String.length]; lia).
  assert (exists pre, fs = pre ++ [("Online"%string, text_d (online d))]) as [pre Hfs].
  { assert (text_d (online d) <> ""%string) by (intros E; rewrite E in H; cbn in H; lia). subst fs.
    change (?a :: ?b :: ?c :: ?d :: [?e]) with ([a; b; c; d] ++ [e]). rewrite filter_app. eexists. f_equal. by rewrite filter_cons_True. }
  rewrite Hfs. unfold string_object. rewrite fmap_app. cbn [fmap list_fmap print_value when String.length]. rewrite !length_app_s. cbn [String.length].
  pose proof (last_member (S dep) (print_value false (S dep)) (string_member ("Online"%string, text_d (online d))) (string_member <$> pre)) as HL.
  pose proof (member_length (S dep) "Online" (text_d (online d))) as HM. change (String.length "Online") with 6%nat in HM.
  change (fun m => string_member <$> m) with (fmap (M := list) string_member) in *. lia.
Qed.
Lemma elements_length P k l : Forall (fun j => k <= String.length (P j))%nat l ->
  (S k * length l <= String.length (print_elements false P l) + 1)%nat.
Proof.
  induction 1 as [|j l Hj Hl IH]; [cbn; lia|]. destruct l as [|j' l]; [cbn; rewrite length_app_s; cbn; lia|].
  rewrite print_elements_2. cbn [when]. rewrite !length_app_s. cbn [length String.length] in *. lia.
Qed.
Lemma message_length c items : c = "Dispatch"%string \/ c = "Report"%string ->
  (String.length (print_elements false (print_value false 2) items) + 67 <= String.length (cJSON_PrintUnformatted (message c "DevsInfo" items)))%nat.
Proof.
  set (t := print_elements _ _ items). set (pre := fun k c => str_take k (cJSON_PrintUnformatted (message c "DevsInfo" []))).
  assert (forall k c, (65 <= String.length (pre k c) -> String.length t + 67 <= String.length (pre k c +:+ (((t +:+ "]") +:+ "") +:+ "}")))%nat) as HL.
  { intros k d Hd. rewrite !length_app_s. cbn [String.length]. lia. }
  intros [-> | ->]; [apply (HL 67%nat "Dispatch"%string)|apply (HL 65%nat "Report"%string)]; by apply Nat.leb_le.
Qed.
Lemma devs_text_length dir l : (15 * length l + 66 <= String.length (devs_text dir l))%nat.
Proof.
  unfold devs_text. set (items := data_item <$> (dev_send <$> (listed <$> l))).
  assert (HE : (15 * length l <= String.length (print_elements false (print_value false 2) items) + 1)%nat).
  { subst items. replace (length l) with (length (data_item <$> (dev_send <$> (listed <$> l)))) by by rewrite !length_fmap.
    apply elements_length. rewrite !Forall_fmap. apply Forall_forall. intros x _. apply item_length. }
  pose proof (message_length (if dir =? 0 then "Dispatch" else "Report") items). destruct (dir =? 0); specialize (H ltac:(auto)); lia.
Qed.

(** The cloud side asks for the devices. *)
Definition devs_request : json := message "Dispatch" "DevsInfo" [string_object []].
Lemma request_run s : hylinkRecvManage char_signed kh_values stale (frames [devs_request]) s =
  (recv_devs_info kh_values 1 ;; mret 0) s.
Proof.
  unfold hylinkRecvManage. rewrite frames_handled by (repeat constructor; by apply Nat.leb_le).
  assert (recv_root char_signed kh_values stale devs_request s = (recv_devs_info kh_values 1 ;; mret 0) s) as HR.
  { change (recv_root char_signed kh_values stale devs_request) with (recv_items char_signed kh_values stale devs_request 1 DEVSINFO "" [string_object []]).
    cbn [recv_items]. unfold recv_item, mbind, M_bind. cbn [Z.eqb Pos.eqb orb].
    change (getStrForJson 33 (string_object []) "DeviceId" "" s) with (Val (""%string, s)). cbv beta iota.
    by destruct (recv_devs_info kh_values 1 s) as [[[] ?]|]. }
  cbn [recv_all]. unfold mbind, M_bind in *. rewrite HR. by destruct (recv_devs_info kh_values 1 s) as [[[] ?]|].
Qed.
(** C32: a request for the devices is answered with one message, which lists every
    registered device once with its model and state, as far as the fields and
    the message fit their buffers. *)
Theorem devs_info_lists s R : held_devices s R -> (size R < 256)%nat -> map_Forall (fun id x => short (listed (id, x)) = true) R ->
  (forall l, l ≡ₚ map_to_list R -> String.length (devs_text 1 l) + 2 < 1024)%nat ->
  exists l, l ≡ₚ map_to_list R /\
    hylinkRecvManage char_signed kh_values stale (frames [devs_request]) s = Val (0, with_glob (push_io (ToHylink (frame (devs_text 1 l)))) s).
Proof.
  intros H Hsize Hshort Hfits. destruct (listing 1 s R H) as (l & Hl & Hrun). exists l. split; [done|].
  rewrite request_run. unfold mbind, M_bind. rewrite Hrun. apply Nat.ltb_lt in Hsize as ->.
  rewrite (proj2 (forallb_forall _ _)).
  2:{ intros d Hd. apply list_elem_of_In, list_elem_of_fmap in Hd as ([id x] & -> & Hx). rewrite Hl in Hx. by apply elem_of_map_to_list, Hshort in Hx. }
  specialize (Hfits l Hl). apply Nat.ltb_lt in Hfits as ->. reflexivity.
Qed.

(** With 64 devices or more the same request writes past the end of a buffer,
    whatever the devices are. *)
Theorem devs_info_overruns s R : held_devices s R -> (64 <= size R)%nat ->
  hylinkRecvManage char_signed kh_values stale (frames [devs_request]) s = Fault OutOfBounds.
Proof.
  intros H Hsize. destruct (listing 1 s R H) as (l & Hl & Hrun). rewrite request_run. unfold mbind, M_bind. rewrite Hrun.
  assert (length l = size R) by by rewrite Hl, length_map_to_list.
  pose proof (devs_text_length 1 l). destruct (Nat.ltb_spec (String.length (devs_text 1 l) + 2) 1024); [lia|]. by rewrite andb_false_r.
Qed.
End registry.

(** * Devices come and go

    beside a scene engine with one scene, which hears of the end of one. *)

Definition with_engine : fheap :=
  Heap ∅ 1 [] (Front (Map ∅) RemoveProps.doomed_mem (Some 50%positive) NoTimer NoTimer 0 false []).
Definition end_of (p : L unit) (s : mem) : mem := match p s with Val (_, s') => s' | Fault _ => s end.

Definition come_and_go : list reg_msg :=
  [Msg "Report" "Register" [Register "d1" "lamp"; Register "d2" "lamp"]; Msg "Report" "OnOff" [OnOff "d1" "1"];
   Msg "Dispatch" "UnRegister" [Remove "d2"; Remove "d3"]; Msg "Report" "UnRegister" [Remove "d4"]; Msg "Report" "Delete" []]%string.
Lemma held_started : held_devices started ∅.
Proof. constructor; [done..|]. exists ∅. by repeat split. Qed.
Lemma held_with_engine : held_devices with_engine ∅.
Proof. constructor; [done..|]. exists ∅. by repeat split. Qed.
Lemma come_and_go_ok : Forall msg_ok come_and_go.
Proof.
  repeat constructor; cbn; try done; try (by apply list_elem_of_In; cbn; auto); try (apply Nat.leb_le; reflexivity).
Qed.

Definition what_is_heard : L unit := each (hears true (Some 50%positive)) come_and_go.
Lemma registry_refines_witness :
  wp (hylinkRecvManage true in_order 0 (frames (reg_message <$> come_and_go))) with_engine (fun _ s' =>
    held_devices s' {[ "d1" := ("lamp", 1) ]}%string /\
    devices_and_engine with_engine s' [DbInsert "d1" "lamp"; DbInsert "d2" "lamp"; DbDelete "d2"]%string (end_of what_is_heard RemoveProps.doomed_mem)).
Proof.
  assert (Hrun : reg_run true ∅ (come_and_go ≫= msg_ops) =
    ({[ "d1" := ("lamp", 1) ]}, [DbInsert "d1" "lamp"; DbInsert "d2" "lamp"; DbDelete "d2"])%string) by (vm_compute; reflexivity).
  eapply wp_mono; [apply (registry_refines true in_order 0 come_and_go with_engine ∅ (end_of what_is_heard RemoveProps.doomed_mem))|].
  - exact held_with_engine.
  - exact come_and_go_ok.
  - vm_compute. reflexivity.
  - intros r s' H. rewrite Hrun in H. exact H.
Defined.

(** * One lamp, and 64 *)

Lemma in_order_perm m : in_order m ≡ₚ (map_to_list m).*2.
Proof. done. Qed.
Definition one_lamp : fheap :=
  Heap {[ 1%positive := Dev "d1" "lamp" 1 ]} 2 [] (set_map (Map {[ "d1" := 1%positive ]}) (glob started)).
Lemma held_one_lamp : held_devices one_lamp {[ "d1" := ("lamp", 1) ]}%string.
Proof.
  constructor; [done| |].
  - intros a Ha. cbn in *. apply lookup_singleton_ne. lia.
  - exists {[ "d1"%string := 1%positive ]}. split_and!; [done|..].
    + intros id. by rewrite !lookup_singleton_None.
    + intros id a [<- <-]%lookup_singleton_Some. exists "lamp"%string, 1. split; reflexivity.
    + intros id id' a [<- _]%lookup_singleton_Some [<- _]%lookup_singleton_Some. done.
Qed.

Lemma devs_info_lists_witness :
  let item := string_object [("DeviceId", "d1"); ("ModelId", "lamp"); ("Online", "1")]%string in
  hylinkRecvManage true in_order 0 (frames [devs_request]) one_lamp =
  Val (0, with_glob (push_io (ToHylink (frame (cJSON_PrintUnformatted (message "Report" "DevsInfo" [item]))))) one_lamp).
Proof.
  intros item.
  destruct (devs_info_lists true in_order 0 in_order_perm one_lamp {[ "d1" := ("lamp", 1) ]}%string) as (l & Hl & Hrun).
  - exact held_one_lamp.
  - apply Nat.ltb_lt. reflexivity.
  - intros id x [<- <-]%lookup_singleton_Some. reflexivity.
  - intros l Hl. apply Permutation_singleton_r in Hl as ->. apply Nat.ltb_lt. vm_compute. reflexivity.
  - apply Permutation_singleton_r in Hl as ->. exact Hrun.
Defined.

Definition lamps (n : nat) : list reg_op := (fun i => Register (pretty i) "lamp") <$> seq 0 n.
Lemma lamps_held n : (n <= 64)%nat -> exists s, held_devices s (reg_run true ∅ (lamps n)).1.
Proof.
  intros Hn. assert (Forall (fun op => reg_fits op /\ reg_type "Register" op) (lamps n)) as HF.
  { apply Forall_forall. intros op (i & -> & Hi)%list_elem_of_fmap. apply elem_of_seq in Hi. cbn [reg_fits reg_type].
    split; [split; [|by apply Nat.ltb_lt]|done]. do 64 (destruct i as [|i]; [by apply Nat.ltb_lt|]). lia. }
  pose proof (items_refine true in_order 0 (JObject []) 1 "Register" (lamps n) HF "" started ∅ held_started) as H.
  unfold wp in H. destruct (recv_items _ _ _ _ _ _ _ _ _) as [[r s']|]; [|done]. exists s'. apply H.
Qed.

Lemma devs_info_overruns_witness : exists s, held_devices s (reg_run true ∅ (lamps 64)).1 /\
  hylinkRecvManage true in_order 0 (frames [devs_request]) s = Fault OutOfBounds.
Proof.
  destruct (lamps_held 64 ltac:(lia)) as [s H]. exists s. split; [exact H|].
  apply (devs_info_overruns true in_order 0 in_order_perm s _ H). apply Nat.leb_le. vm_compute. reflexivity.
Defined.
