(* ===== verification/HyBase64.v ===== *)
(** The base64 coding of src/libhytool/base64/base64.c: requests and answers about
    scenes travel in it. *)
From stdpp Require Import strings.
From Stdlib Require Import Ascii.
From S2P Require Import Prelude CString Json JsonText JsonProps.
From S2P Require Base64.

Section coding.
Import Base64.

Definition BASE64_PAD : Z := 61.
Definition BASE64DE_FIRST : Z := 43.
Definition BASE64DE_LAST : Z := 122.

Definition base64en : list Z := codes "ABCDEFGHIJKLMNOPQRSTUVWXYZabcdefghijklmnopqrstuvwxyz0123456789+/".
(** The characters in the order of their codes, 255 for those not in use. *)
Definition base64de : list Z :=
  replicate 43 255 ++ [62; 255; 255; 255; 63; 52; 53; 54; 55; 56; 57; 58; 59; 60; 61] ++ replicate 7 255 ++
  (Z.of_nat <$> seq 0 26) ++ replicate 6 255 ++ (Z.of_nat <$> seq 26 26) ++ replicate 5 255.
Definition en (i : Z) : Z := nth (Z.to_nat i) base64en 0.
Definition de (c : Z) : Z := nth (Z.to_nat c) base64de 0.

(** [s]: the place in the group of three; [l]: the byte before. *)
Fixpoint encode_from (s l : Z) (inp : list Z) : list Z :=
  match inp with
  | [] =>
      if s =? 1 then [en (Z.shiftl (Z.land l 3) 4); BASE64_PAD; BASE64_PAD]
      else if s =? 2 then [en (Z.shiftl (Z.land l 0xF) 2); BASE64_PAD]
      else []
  | c :: inp =>
      if s =? 0 then en (Z.land (Z.shiftr c 2) 0x3F) :: encode_from 1 c inp
      else if s =? 1 then en (Z.lor (Z.shiftl (Z.land l 3) 4) (Z.land (Z.shiftr c 4) 0xF)) :: encode_from 2 c inp
      else en (Z.lor (Z.shiftl (Z.land l 0xF) 2) (Z.land (Z.shiftr c 6) 3)) :: en (Z.land c 0x3F) :: encode_from 0 c inp
  end.
Definition base64_encode (inp : list Z) : list Z := encode_from 0 0 inp.

(** The result, and the bytes that were written: also those of a text that is
    refused, and a byte that was begun. [j]: bytes done; [part]: the byte begun. *)
Fixpoint decode_from (i j : Z) (part : list Z) (inp : list Z) : Z * list Z :=
  match inp with
  | [] => (j, part)
  | x :: inp =>
      if x =? BASE64_PAD then (j, part)
      else if (x <? BASE64DE_FIRST) || (BASE64DE_LAST <? x) then (0, part)
      else
        let c := de x in
        if c =? 255 then (0, part) else
        let b := hd 0 part in
        if Z.land i 3 =? 0 then decode_from (i + 1) j [Z.land (Z.shiftl c 2) 0xFF] inp
        else
          let '(b, part) :=
            if Z.land i 3 =? 1 then (Z.lor b (Z.land (Z.shiftr c 4) 3), [Z.shiftl (Z.land c 0xF) 4])
            else if Z.land i 3 =? 2 then (Z.lor b (Z.land (Z.shiftr c 2) 0xF), [Z.shiftl (Z.land c 3) 6])
            else (Z.lor b c, []) in
          let '(r, bs) := decode_from (i + 1) (j + 1) part inp in (r, b :: bs)
  end.
Definition base64_decode (inp : list Z) : Z * list Z :=
  if negb (Z.land (Z.of_nat (length inp)) 3 =? 0) then (0, []) else decode_from 0 0 [] inp.

(** * Round trip *)

Lemma en_spec v : 0 <= v < 64 -> de (en v) = v /\ (en v =? BASE64_PAD) = false /\ ((en v <? BASE64DE_FIRST) || (BASE64DE_LAST <? en v)) = false.
Proof.
  intros Hv. pose proof (below_all_spec 64 (fun v => (de (en v) =? v) && negb (en v =? BASE64_PAD) && negb ((en v <? BASE64DE_FIRST) || (BASE64DE_LAST <? en v)))
    v ltac:(vm_compute; reflexivity) Hv) as H. cbn beta in H.
  apply andb_true_iff in H as [[H1%Z.eqb_eq H2%negb_true_iff]%andb_true_iff H3%negb_true_iff]. done.
Qed.

Lemma place k n : 0 <= n < 4 -> Z.land (4 * k + n) 3 = n.
Proof. intros Hn. change 3 with (Z.ones 2). rewrite Z.land_ones by lia. change (2 ^ 2) with 4. rewrite Z.add_comm, Z.mul_comm, Z.mod_add by lia. by apply Z.mod_small. Qed.

(** One character of the alphabet. *)
Lemma decode_char i j part v inp : 0 <= v < 64 ->
  decode_from i j part (en v :: inp) =
    if Z.land i 3 =? 0 then decode_from (i + 1) j [Z.land (Z.shiftl v 2) 0xFF] inp
    else
      let '(b, part) :=
        if Z.land i 3 =? 1 then (Z.lor (hd 0 part) (Z.land (Z.shiftr v 4) 3), [Z.shiftl (Z.land v 0xF) 4])
        else if Z.land i 3 =? 2 then (Z.lor (hd 0 part) (Z.land (Z.shiftr v 2) 0xF), [Z.shiftl (Z.land v 3) 6])
        else (Z.lor (hd 0 part) v, []) in
      let '(r, bs) := decode_from (i + 1) (j + 1) part inp in (r, b :: bs).
Proof.
  intros Hv. destruct (en_spec v Hv) as (Hd & Hp & Hr). cbn [decode_from]. rewrite Hp, Hr, Hd. destruct (Z.eqb_spec v 255); [lia|done].
Qed.

Definition sext0 (a : Z) : Z := Z.land (Z.shiftr a 2) 0x3F.
Definition sext1 (a b : Z) : Z := Z.lor (Z.shiftl (Z.land a 3) 4) (Z.land (Z.shiftr b 4) 0xF).
Definition sext2 (b c : Z) : Z := Z.lor (Z.shiftl (Z.land b 0xF) 2) (Z.land (Z.shiftr c 6) 3).
Definition sext3 (c : Z) : Z := Z.land c 0x3F.


Ltac sext_eq :=
  bit_eq; try done; rewrite ?Z.shiftl_spec, ?Z.land_spec, ?(Z.bits_above_log2 (Zpos _)), ?andb_false_r by (cbn; lia); try done; try by rewrite byte_high.
Lemma sext0_range a : 0 <= sext0 a < 64.
Proof. apply land63_range. unfold sext0. by rewrite <- Z.land_assoc. Qed.
Lemma sext1_range a b : 0 <= sext1 a b < 64.
Proof. apply land63_range. unfold sext1. sext_eq. Qed.
Lemma sext2_range b c : 0 <= sext2 b c < 64.
Proof. apply land63_range. unfold sext2. sext_eq. Qed.
Lemma sext3_range c : 0 <= sext3 c < 64.
Proof. apply land63_range. unfold sext3. by rewrite <- Z.land_assoc. Qed.
Lemma joined0 a b : byte a -> Z.lor (Z.land (Z.shiftl (sext0 a) 2) 0xFF) (Z.land (Z.shiftr (sext1 a b) 4) 3) = a.
Proof. intros Ha. unfold sext0, sext1. sext_eq. Qed.
Lemma joined1 a b c : byte b -> Z.lor (Z.shiftl (Z.land (sext1 a b) 0xF) 4) (Z.land (Z.shiftr (sext2 b c) 2) 0xF) = b.
Proof. intros Hb. unfold sext1, sext2. sext_eq. Qed.
Lemma joined2 b c : byte c -> Z.lor (Z.shiftl (Z.land (sext2 b c) 3) 6) (sext3 c) = c.
Proof. intros Hc. unfold sext2, sext3. sext_eq. Qed.
Lemma begun1 a : Z.shiftl (Z.land (sext1 a 0) 0xF) 4 = 0.
Proof. unfold sext1. sext_eq. Qed.
Lemma begun2 b : Z.shiftl (Z.land (sext2 b 0) 3) 6 = 0.
Proof. unfold sext2. sext_eq. Qed.

Lemma encode_pad a b : en (Z.shiftl (Z.land a 3) 4) = en (sext1 a 0) /\ en (Z.shiftl (Z.land b 0xF) 2) = en (sext2 b 0).
Proof. unfold sext1, sext2. by rewrite !Z.shiftr_0_l, !Z.land_0_l, !Z.lor_0_r. Qed.
Lemma encode_length bs : Z.land (Z.of_nat (length (base64_encode bs))) 3 = 0.
Proof.
  unfold base64_encode. enough (forall n bs, (length bs < n)%nat -> exists k, length (encode_from 0 0 bs) = (4 * k)%nat /\ forall l, encode_from 0 l bs = encode_from 0 0 bs) as H.
  { destruct (H (S (length bs)) bs ltac:(lia)) as (k & -> & _). rewrite Nat2Z.inj_mul. rewrite <- (Z.add_0_r (Z.of_nat 4 * _)). by apply (place (Z.of_nat k) 0). }
  clear bs. induction n as [|n IH]; intros bs Hn; [lia|].
  destruct bs as [|a [|b [|c bs]]]; [by exists 0%nat|by exists 1%nat|by exists 1%nat|].
  destruct (IH bs ltac:(cbn in Hn; lia)) as (k & Hk & Hl). exists (S k). cbn [encode_from Z.eqb Pos.eqb length]. rewrite Hl, Hk. split; [lia|done].
Qed.

(** What is coded is decoded to the same bytes, of any number: the result is
    their number, and behind them at most a zero is written. *)
Theorem hytool_base64_roundtrip bs : Forall byte bs ->
  exists tail, base64_decode (base64_encode bs) = (Z.of_nat (length bs), bs ++ tail) /\ (tail = [] \/ tail = [0]).
Proof.
  intros Hbs. unfold base64_decode. rewrite encode_length. cbn [Z.eqb negb]. unfold base64_encode.
  enough (forall n bs l i j, (length bs < n)%nat -> Forall byte bs ->
    exists tail, decode_from (4 * i) j [] (encode_from 0 l bs) = (j + Z.of_nat (length bs), bs ++ tail) /\ (tail = [] \/ tail = [0])) as H.
  { exact (H (S (length bs)) bs 0 0 0 ltac:(lia) Hbs). }
  clear bs Hbs. induction n as [|n IH]; intros bs l i j Hn Hbs; [lia|]. 
  assert (Hp : forall m, 0 <= m < 4 -> Z.land (4 * i + m) 3 = m) by (intros; by apply place).
  pose proof (Hp 0 ltac:(lia)) as Hp0. rewrite Z.add_0_r in Hp0.
  assert (4 * i + 1 + 1 = 4 * i + 2 /\ 4 * i + 2 + 1 = 4 * i + 3 /\ 4 * i + 3 + 1 = 4 * (i + 1)) as (Hi1 & Hi2 & Hi3) by (split_and!; lia).
  destruct bs as [|a [|b [|c bs]]]; cbn [encode_from Z.eqb Pos.eqb].
  - exists []. rewrite Z.add_0_r. split; [done|by left].
  - apply Forall_cons in Hbs as [Ha _]. rewrite (proj1 (encode_pad a 0)). fold (sext0 a).
    rewrite decode_char by apply sext0_range. rewrite Hp0. cbn [Z.eqb]. rewrite decode_char by apply sext1_range. rewrite Hp by lia. cbn [Z.eqb Pos.eqb hd].
    cbn [decode_from]. change (BASE64_PAD =? BASE64_PAD) with true. cbv iota. rewrite joined0, begun1 by done. exists [0]. split; [done|by right].
  - apply Forall_cons in Hbs as [Ha [Hb _]%Forall_cons]. rewrite (proj2 (encode_pad 0 b)). fold (sext0 a) (sext1 a b).
    rewrite decode_char by apply sext0_range. rewrite Hp0. cbn [Z.eqb]. rewrite decode_char by apply sext1_range. rewrite Hp by lia. cbn [Z.eqb Pos.eqb hd].
    rewrite Hi1. rewrite decode_char by apply sext2_range. rewrite Hp by lia. cbn [Z.eqb Pos.eqb hd].
    cbn [decode_from]. change (BASE64_PAD =? BASE64_PAD) with true. cbv iota. rewrite joined0, joined1, begun2 by done. exists [0].
    cbn [length]. split; [f_equal; lia|by right].
  - apply Forall_cons in Hbs as [Ha [Hb [Hc Hbs]%Forall_cons]%Forall_cons]. fold (sext0 a) (sext1 a b) (sext2 b c) (sext3 c).
    rewrite decode_char by apply sext0_range. rewrite Hp0. cbn [Z.eqb]. rewrite decode_char by apply sext1_range. rewrite Hp by lia. cbn [Z.eqb Pos.eqb hd].
    rewrite Hi1. rewrite decode_char by apply sext2_range. rewrite Hp by lia. cbn [Z.eqb Pos.eqb hd].
    rewrite Hi2. rewrite decode_char by apply sext3_range. rewrite Hp by lia. cbn [Z.eqb Pos.eqb hd]. rewrite Hi3.
    destruct (IH bs c (i + 1) (j + 1 + 1 + 1) ltac:(cbn in Hn; lia) Hbs) as (tail & -> & Ht). exists tail. split; [|done].
    rewrite joined0, joined1, joined2 by done. cbn [length app]. f_equal. lia.
Qed.
(** ** Texts *)

Fixpoint text_of_codes (l : list Z) : string :=
  match l with [] => ""%string | c :: l => String (chr c) (text_of_codes l) end.
Lemma text_of_codes_codes t : text_of_codes (codes t) = t.
Proof. induction t as [|c t IH]; [done|]. cbn [codes text_of_codes]. rewrite char_code_chr. f_equal. exact IH. Qed.
Lemma codes_text l : Forall byte l -> codes (text_of_codes l) = l.
Proof.
  induction 1 as [|c l Hc _ IH]; [done|]. cbn [text_of_codes codes]. rewrite IH. f_equal. unfold char_code, chr, byte in *.
  rewrite N_ascii_embedding by lia. lia.
Qed.
Lemma codes_bytes t : Forall byte (codes t).
Proof. induction t as [|c t IH]; constructor; [|done]. unfold byte, char_code. pose proof (N_ascii_bounded c). lia. Qed.
Lemma en_byte v : byte (en v).
Proof.
  unfold en, byte. destruct (nth_in_or_default (Z.to_nat v) base64en 0) as [Hin|E]; [|rewrite E; lia].
  assert (Forall byte base64en) as H by apply codes_bytes. rewrite Forall_forall in H. apply H. by apply list_elem_of_In.
Qed.
Lemma encode_bytes s l bs : Forall byte (encode_from s l bs).
Proof.
  revert s l. induction bs as [|c bs IH]; intros s l; cbn [encode_from].
  - destruct (s =? 1); [|destruct (s =? 2)]; repeat constructor; try apply en_byte; unfold byte, BASE64_PAD; lia.
  - destruct (s =? 0); [|destruct (s =? 1)]; repeat (constructor; [apply en_byte|]); apply IH.
Qed.
Lemma text_of_codes_app a b : text_of_codes (a ++ b) = (text_of_codes a +:+ text_of_codes b)%string.
Proof. induction a as [|c a IH]; [done|]. cbn [app text_of_codes]. rewrite app_cons. by rewrite IH. Qed.

(** A text of C through the coding. *)
Definition encoded (t : string) : string := text_of_codes (base64_encode (codes t)).
Definition decoded (t : string) : string := text_of_codes (base64_decode (codes t)).2.
Lemma decoded_encoded t : no_nul t = true -> c_str (decoded (encoded t)) = t.
Proof.
  intros Ht. unfold decoded, encoded. rewrite codes_text by apply encode_bytes.
  pose proof (codes_bytes t) as Hb. destruct (hytool_base64_roundtrip (codes t) Hb) as (tail & -> & Ht'). cbn [snd].
  rewrite text_of_codes_app, text_of_codes_codes. destruct Ht' as [-> | ->]; cbn [text_of_codes].
  - rewrite app_nil_s. by apply c_str_no_nul.
  - clear Hb. induction t as [|c t IH]; [done|]. unfold no_nul in Ht. cbn [all_chars] in Ht. apply andb_true_iff in Ht as [Hc Ht]. apply negb_true_iff in Hc.
    rewrite app_cons. cbn [c_str]. rewrite Hc. f_equal. by apply IH.
Qed.
End coding.
