(* ===== verification/AliDb.v ===== *)
(** The tables of scenes and groups of switches (src/alink/src/scene/scene_database.c).
    SQLite runs a statement with the texts bound to its parameters: the result of
    preparing it and the rows of texts it gives, without their ids; its tables are
    of any type.  What the statements of the program do, SQLite's documentation
    says; it leaves the order of the rows open. *)
From stdpp Require Import gmap strings.
From S2P Require Import Prelude CString CommonFunc.

Section database.
Context {D : Type} (sqlite : string -> list string -> D -> Z * list (list string) * D).

Definition tables_name : list string := ["scene_local"; "scene_control"; "scene_control_group_name"].
Definition sql (text : string) (binds : list string) : M D (Z * list (list string)) := fun d => Val (sqlite text binds d).
Definition name_of (table : nat) : string := nth table tables_name ""%string.

Definition delete_sql (table field : string) : string := "DELETE FROM " +:+ table +:+ " WHERE " +:+ field +:+ " = ?;".
Definition table_delete_by_field (table field value : string) : M D Z := '(rc, _) ← sql (delete_sql table field) [value]; mret rc.
Definition table0_delete (value : string) : M D Z := table_delete_by_field (name_of 0) "SCENEID" value.
Definition table1_delete (value : string) : M D Z := table_delete_by_field (name_of 1) "GROUPID" value.
Definition table2_delete (value : string) : M D Z := table_delete_by_field (name_of 2) "GROUPID" value.

Definition insert_sql (table : string) (field_num : nat) : string :=
  "INSERT OR REPLACE INTO " +:+ table +:+ " VALUES (NULL" +:+ String.concat "" (replicate field_num ",?"%string) +:+ ");".
(** 15 characters of room for the marks of the fields. *)
Definition table_insert_by_field (table : string) (field_value : list string) : M D Z :=
  if bool_decide (field_value = []) then mret (-1)
  else if (16 <=? 2 * length field_value)%nat then fail OutOfBounds
  else '(rc, _) ← sql (insert_sql table (length field_value)) field_value; mret rc.
(** Every field is copied to 48 bytes. *)
Fixpoint fields_of (l : list string) : M D (list string) :=
  match l with [] => mret [] | t :: l => t ← strcpy 48 t; l ← fields_of l; mret (t :: l) end.
Definition table0_insert (devId modelId : string) : M D Z := l ← fields_of [devId; modelId]; table_insert_by_field (name_of 0) l.
Definition table1_insert (group_id product_key device_id switch_loop : string) : M D Z :=
  l ← fields_of [group_id; product_key; device_id; switch_loop]; table_insert_by_field (name_of 1) l.
Definition table2_insert (group_id group_name : string) : M D Z := l ← fields_of [group_id; group_name]; table_insert_by_field (name_of 2) l.

(** The rows in the order SQLite gives them: what is done with a row does not
    change the tables.  A statement that is not prepared gives none. *)
Definition select_sql (table condition : string) : string := "SELECT * FROM " +:+ table +:+ " " +:+ condition +:+ ";".
Definition select (text : string) (binds : list string) : M D (list (list string)) :=
  '(rc, rows) ← sql text binds; mret (if rc =? 0 then rows else []).
Definition table0_select (sceneId : string) : M D (list (list string)) := select (select_sql (name_of 0) "WHERE SCENEID = ?") [sceneId].
Definition table_select (table : nat) (group_id : option string) : M D (list (list string)) :=
  match group_id with
  | None => select (select_sql (name_of table) "") []
  | Some g => select (select_sql (name_of table) "WHERE GROUPID = ?") [g]
  end.
Definition table1_select (group_id : option string) : M D (list (list string)) := table_select 1 group_id.
Definition table2_select (group_id : option string) : M D (list (list string)) := table_select 2 group_id.

Definition tables_sql_reset (table : string) : list string :=
  ["DELETE FROM " +:+ table +:+ ";"; "DELETE FROM sqlite_sequence WHERE name = " +:+ table +:+ ";"]%string.
Fixpoint exec_all (l : list string) : M D unit := match l with [] => mret tt | t :: l => _ ← sql t []; exec_all l end.
Definition databseReset : M D unit := exec_all (mjoin (tables_sql_reset <$> tables_name)).

(** * What SQLite does with these statements *)

(** The column that a statement on a table compares. *)
Definition key_field (t : nat) : string * nat := if (t =? 0)%nat then ("SCENEID"%string, 1%nat) else ("GROUPID"%string, 0%nat).
Definition has_key (t : nat) (v : string) (row : list string) : Prop := row !! (key_field t).2 = Some v.
#[export] Instance has_key_dec t v row : Decision (has_key t v row).
Proof. unfold has_key. apply _. Defined.

(** [rows t d]: the rows of table [t], as texts.  The first column is unique in the
    tables of rules and of groups' names. *)
Class sqlite_laws (rows : nat -> D -> list (list string)) : Prop := {
  law_delete t v d : (t < 3)%nat -> exists r d', sqlite (delete_sql (name_of t) (key_field t).1) [v] d = (0, r, d') /\
    forall u, rows u d' ≡ₚ if decide (u = t) then filter (fun row => ~ has_key t v row) (rows u d) else rows u d;
  law_insert t l d : (t < 3)%nat -> length l = (if decide (t = 1%nat) then 4 else 2)%nat ->
    exists r d', sqlite (insert_sql (name_of t) (length l)) l d = (0, r, d') /\
    forall u, rows u d' ≡ₚ if decide (u = t)
      then (if decide (t = 1%nat) then rows u d else filter (fun row => row !! 0%nat <> l !! 0%nat) (rows u d)) ++ [l] else rows u d;
  law_select_all t d : (t < 3)%nat -> exists r, sqlite (select_sql (name_of t) "") [] d = (0, r, d) /\ r ≡ₚ rows t d;
  law_select t v d : (t < 3)%nat ->
    exists r, sqlite (select_sql (name_of t) ("WHERE " +:+ (key_field t).1 +:+ " = ?")) [v] d = (0, r, d) /\ r ≡ₚ filter (has_key t v) (rows t d)
}.

Context {rows : nat -> D -> list (list string)} `{!sqlite_laws rows}.
Lemma wp_delete t v d (Q : Z -> D -> Prop) : (t < 3)%nat ->
  (forall d', (forall u, rows u d' ≡ₚ if decide (u = t) then filter (fun row => ~ has_key t v row) (rows u d) else rows u d) -> Q 0 d') ->
  wp (table_delete_by_field (name_of t) (key_field t).1 v) d Q.
Proof.
  intros Ht HQ. destruct (law_delete t v d Ht) as (r & d' & Hd & Hr). unfold table_delete_by_field, sql, wp, mbind, M_bind. rewrite Hd. by apply HQ.
Qed.
Lemma wp_fields l d (Q : list string -> D -> Prop) : Forall (fun t => (String.length t < 48)%nat) l -> Q l d -> wp (fields_of l) d Q.
Proof.
  revert Q. induction l as [|t l IH]; intros Q Hl HQ; [by apply wp_ret|]. apply Forall_cons in Hl as [Ht Hl]. cbn [fields_of].
  wp_step. apply wp_strcpy; [done|]. wp_step. apply IH; [done|]. by wp_step.
Qed.
Lemma wp_insert t l d (Q : Z -> D -> Prop) : (t < 3)%nat -> length l = (if decide (t = 1%nat) then 4 else 2)%nat ->
  Forall (fun f => (String.length f < 48)%nat) l ->
  (forall d', (forall u, rows u d' ≡ₚ if decide (u = t)
      then (if decide (t = 1%nat) then rows u d else filter (fun row => row !! 0%nat <> l !! 0%nat) (rows u d)) ++ [l] else rows u d) -> Q 0 d') ->
  wp (fs ← fields_of l; table_insert_by_field (name_of t) fs) d Q.
Proof.
  intros Ht Hlen Hf HQ. wp_step. apply wp_fields; [done|]. unfold table_insert_by_field. rewrite bool_decide_eq_false_2.
  2:{ intros ->. by destruct (decide (t = 1%nat)). }
  destruct (Nat.leb_spec 16 (2 * length l)); [destruct (decide (t = 1%nat)); lia|].
  destruct (law_insert t l d Ht Hlen) as (r & d' & Hd & Hr). unfold sql, wp, mbind, M_bind. rewrite Hd. by apply HQ.
Qed.
Lemma wp_select t v d (Q : list (list string) -> D -> Prop) : (t < 3)%nat ->
  (forall r, r ≡ₚ filter (has_key t v) (rows t d) -> Q r d) ->
  wp (select (select_sql (name_of t) ("WHERE " +:+ (key_field t).1 +:+ " = ?")) [v]) d Q.
Proof. intros Ht HQ. destruct (law_select t v d Ht) as (r & Hd & Hr). unfold select, sql, wp, mbind, M_bind. rewrite Hd. by apply HQ. Qed.
End database.

(** * Tables in memory *)

Abbreviation memory := (gmap nat (list (list string))).
Definition memory_rows (t : nat) (d : memory) : list (list string) := default [] (d !! t).
(** A statement on table [t]. *)
Definition memory_statement (text : string) (binds : list string) (d : memory) (t : nat) : option (Z * list (list string) * memory) :=
  let rs := memory_rows t d in
  let v := nth 0 binds ""%string in
  if str_eq text (delete_sql (name_of t) (key_field t).1) then Some (0, [], <[t := filter (fun row => ~ has_key t v row) rs]> d)
  else if str_eq text (insert_sql (name_of t) (length binds))
  then Some (0, [], <[t := (if decide (t = 1%nat) then rs else filter (fun row => row !! 0%nat <> binds !! 0%nat) rs) ++ [binds]]> d)
  else if str_eq text (select_sql (name_of t) "") then Some (0, rs, d)
  else if str_eq text (select_sql (name_of t) ("WHERE " +:+ (key_field t).1 +:+ " = ?")) then Some (0, filter (has_key t v) rs, d)
  else None.
Definition memory_sqlite (text : string) (binds : list string) (d : memory) : Z * list (list string) * memory :=
  match memory_statement text binds d 0, memory_statement text binds d 1, memory_statement text binds d 2 with
  | Some r, _, _ | None, Some r, _ | None, None, Some r => r
  | None, None, None => (1, [], d)
  end.

Lemma memory_rows_insert t l d u : memory_rows u (<[t := l]> d) = if decide (u = t) then l else memory_rows u d.
Proof.
  unfold memory_rows. destruct (decide (u = t)) as [->|]; [by rewrite lookup_insert_eq|by rewrite lookup_insert_ne].
Qed.
Lemma below_3 t : (t < 3)%nat -> t = 0%nat \/ t = 1%nat \/ t = 2%nat.
Proof. lia. Qed.
#[export] Instance memory_laws : sqlite_laws memory_sqlite memory_rows.
Proof.
  constructor.
  - intros t v d Ht. eexists _, _. split; [by destruct (below_3 t Ht) as [->|[->| ->]]|]. intros u. rewrite memory_rows_insert. by destruct (decide (u = t)) as [->|].
  - intros t l d Ht Hl. eexists [], (<[t := (if decide (t = 1%nat) then memory_rows t d else filter (fun row => row !! 0%nat <> l !! 0%nat) (memory_rows t d)) ++ [l]]> d). split.
    + destruct (below_3 t Ht) as [->|[->| ->]]; cbn in Hl; unfold memory_sqlite, memory_statement; rewrite Hl; reflexivity.
    + intros u. rewrite memory_rows_insert. by destruct (decide (u = t)) as [->|].
  - intros t d Ht. eexists. split; [by destruct (below_3 t Ht) as [->|[->| ->]]|done].
  - intros t v d Ht. eexists. split; [by destruct (below_3 t Ht) as [->|[->| ->]]|done].
Qed.
