(* ===== verification/AliLink.v ===== *)
(** The gateway of the Ali cloud (src/alink/src) on the device library
    (src/libhylink/src/hylink): devices as the hylink program reports them, their
    twins in the cloud, and what passes between the two.  Profiles are files, whose
    text is an argument, with what follows it in memory; the cloud's SDK and the
    sockets are a trace, their results inputs.  The hash maps are between their
    creation and the end of the program; memory is taken for granted. *)
From stdpp Require Import gmap strings pretty.
From Stdlib Require Import Ascii.
From S2P Require Import Prelude CString Json JsonText CommonFunc AliDb.

(** * Devices (hylinkListFunc.h, cloudLinkListFunc.h) *)

Definition LINK_VALUE_TYPE_ENUM : Z := 0.
Definition LINK_VALUE_TYPE_NUM : Z := 1.
Definition LINK_VALUE_TYPE_STRING : Z := 2.
Definition REPEAT_REPORT : Z := 1.

(** [value]: one byte, an [int], 18 bytes, or nothing, as its type says. *)
Inductive hvalue : Type :=
| VEnum (c : Z)
| VNum (n : Z)
| VText (s : string)
| VNone.
Record HyLinkDevAttr : Type := Attr { hyKey : string; valueType : Z; value : hvalue; repeat : Z }.
Record HyLinkDev : Type := HyDev { devId : string; modelId : string; online : Z; attr : list HyLinkDevAttr }.

Record CloudLinkDevAttr : Type := CloudAttr { caHyKey : string; hyType : string; cloudKey : string }.
Record CloudLinkEventAttr : Type := EventAttr { eventId : string; eaHyKey : string; eaKey : string; eaValue : Z }.
Record CloudLinkServerAttr : Type := ServerAttr { serverId : string; saHyKey : string; saKey : string; saValue : string }.
Record alink_info : Type := AlinkInfo { product_key : string; product_secret : string; device_name : string; device_secret : string }.
Record CloudLinkDev : Type := CloudDev {
  cdModelId : string;
  cdId : Z;
  alinkInfo : alink_info;
  cdAttr : list CloudLinkDevAttr;
  serverAttr : list CloudLinkServerAttr;
  eventAttr : list CloudLinkEventAttr
}.
Definition with_id (i : Z) (d : CloudLinkDev) : CloudLinkDev :=
  CloudDev (cdModelId d) i (alinkInfo d) (cdAttr d) (serverAttr d) (eventAttr d).
Definition with_attr (l : list HyLinkDevAttr) (d : HyLinkDev) : HyLinkDev := HyDev (devId d) (modelId d) (online d) l.
Definition with_online (o : Z) (d : HyLinkDev) : HyLinkDev := HyDev (devId d) (modelId d) o (attr d).

(** What is done outside. *)
Inductive ali_io : Type :=
| ClientWrite (data : string)
| PostProperty (devid : Z) (payload : string)
| PostEvent (event_id payload : string)
| Logout (devid : Z)
| Open (name : string)
| Connect (devid : Z)
| Login (devid : Z)
| DevReset (product name : string)
| Close (devid : Z)
| Exit.

Record ali (D : Type) : Type := Ali {
  hyMap : gmap string HyLinkDev;
  cloudMap : gmap string CloudLinkDev;
  time_key : Z;
  tables : D;
  answers : list Z;
  done : list ali_io
}.
Arguments Ali {D}. Arguments hyMap {D}. Arguments cloudMap {D}. Arguments time_key {D}.
Arguments tables {D}. Arguments answers {D}. Arguments done {D}.

Section setters.
Context {D : Type}.
Definition set_hy m (s : ali D) : ali D := Ali m (cloudMap s) (time_key s) (tables s) (answers s) (done s).
Definition set_cloud m (s : ali D) : ali D := Ali (hyMap s) m (time_key s) (tables s) (answers s) (done s).
Definition set_time_key k (s : ali D) : ali D := Ali (hyMap s) (cloudMap s) k (tables s) (answers s) (done s).
Definition set_tables d (s : ali D) : ali D := Ali (hyMap s) (cloudMap s) (time_key s) d (answers s) (done s).
Definition set_answers l (s : ali D) : ali D := Ali (hyMap s) (cloudMap s) (time_key s) (tables s) l (done s).
Definition push_done e (s : ali D) : ali D := Ali (hyMap s) (cloudMap s) (time_key s) (tables s) (answers s) (done s ++ [e]).

(** A call outside, with its result: success unless an answer says otherwise. *)
Definition call (e : ali_io) : M (ali D) Z :=
  modify (push_done e) ;;
  l ← gets answers;
  match l with [] => mret 0 | r :: l => modify (set_answers l) ;; mret r end.
End setters.

Section alink.
Context {D : Type} (char_signed : bool).
Abbreviation T A := (M (ali D) A).

(** * Messages to the hylink program (hylinkSend.c) *)

(** The text is cut to 2047 bytes, its end is not. *)
Definition hylinkDispatch (str : string) : T Z :=
  if (2050 <=? String.length str + 2)%nat then fail OutOfBounds else call (ClientWrite (frame str)).

Record HylinkDevSendData : Type := DevSend { Type_ : string; DeviceId : string; ModelId : string; Key : string; Value : string }.

Definition hylinkSend (d : HylinkDevSendData) : T Z :=
  hylinkDispatch (cJSON_PrintUnformatted (message_of "0" "Dispatch" (Type_ d) [string_object (filter (fun f => f.2 <> ""%string)
    [("DeviceId", DeviceId d); ("ModelId", ModelId d); ("Key", Key d); ("Value", Value d)]%string)])).

Definition STR_GATEWAY_DEVID : string := "0000000000000000".
Definition STR_GATEWAY_MODELID : string := "000000".
Definition HY_HEART : string :=
  "{" +:+ quoted "Command" +:+ ":" +:+ quoted "TcpBeatHeart" +:+ "," +:+ quoted "Period" +:+ ":" +:+ quoted "60" +:+ "}".
Definition hylinkHeart : T Z := call (ClientWrite HY_HEART).
Definition hylinkSendDevInfo : T Z := hylinkSend (DevSend "DevsInfo" STR_GATEWAY_DEVID "" "DevsInfo" "").
Definition hylinkSendDevAttr (devId : string) : T Z :=
  d ← strcpy 24 devId;
  hylinkSend (DevSend "DevAttri" d "" "All" "").
Definition hylinkListDelById (id : string) : T Z :=
  s ← getS;
  match hyMap s !! id with None => mret (-1) | Some dev => modify (set_hy (delete (devId dev) (hyMap s))) ;; mret 0 end.
Definition hylinkDelDev (sn : string) : T Z :=
  d ← strcpy 24 sn;
  ret ← hylinkSend (DevSend "Delete" d "" "" "");
  (if 0 <=? ret then _ ← hylinkListDelById sn; mret tt else mret tt) ;;
  mret ret.
Definition hyCloudCtrlSend (sn modelId hyType hyKey : string) (cloud_payload : option json) (cloudKey : string) : T Z :=
  d ← strcpy 24 sn;
  m ← strcpy 24 modelId;
  t ← (if str_eq hyType "" then mret "Ctrl"%string else strcpy 12 hyType);
  k ← strcpy 24 hyKey;
  cloud_value ← get_or NullDeref (get_item cloud_payload cloudKey);
  v ← cjson_to_str 16 cloud_value;
  hylinkSend (DevSend t d m k v).

(** * Values and profiles (hylinkListFunc.c, cloudLinkListFunc.c) *)

Definition generateCloudJson (cloudKey : string) (hyValue : hvalue) : option string :=
  let text v := Some (cJSON_PrintUnformatted (JObject [(Some cloudKey, v)])) in
  match hyValue with
  | VEnum c => text (JNumber (c, 0%nat))
  | VNum n => text (JNumber (n, 0%nat))
  | VText s => text (JString s)
  | VNone => None
  end.

(** Room for a value of a type, zeroed. *)
Definition getHyLinkValueType (dataType : Z) : hvalue :=
  if dataType =? LINK_VALUE_TYPE_ENUM then VEnum 0
  else if dataType =? LINK_VALUE_TYPE_NUM then VNum 0
  else if dataType =? LINK_VALUE_TYPE_STRING then VText ""
  else VNone.

Definition hy_attr (arraySub : json) : T HyLinkDevAttr :=
  hyKey ← member_text 33 arraySub "hyKey";
  valueType ← int_of (cJSON_GetObjectItem arraySub "valueType");
  repeat ← int_of (cJSON_GetObjectItem arraySub "repeat");
  mret (Attr hyKey (u8 valueType) (getHyLinkValueType (u8 valueType)) (u8 repeat)).
Definition hyLinkParseJson (devId_ str : string) : T (option HyLinkDev) :=
  match cJSON_Parse str with
  | None => mret None
  | Some root =>
      match cJSON_GetObjectItem root "modelId", cJSON_GetObjectItem root "attr" with
      | Some model, Some a =>
          if bool_decide (children a = []) then mret None else
          d ← strcpy 33 devId_;
          m ← text_of (Some model);
          m ← strcpy 33 m;
          l ← counted u8 hy_attr (children a);
          let dev := HyDev d m 1 l in
          modify (fun s => set_hy (<[devId dev := dev]> (hyMap s)) s) ;;
          mret (Some dev)
      | _, _ => mret None
      end
  end.

Definition cloud_attr (arraySub : json) : T CloudLinkDevAttr :=
  hyKey ← member_text 33 arraySub "hyKey";
  hyType ← member_text_if 8 arraySub "hyType";
  cloudKey ← member_text_if 33 arraySub "cloudKey";
  _ ← int_of (cJSON_GetObjectItem arraySub "valueType");
  mret (CloudAttr hyKey hyType cloudKey).
Definition server_attr (arraySub : json) : T CloudLinkServerAttr :=
  serverId ← member_text 33 arraySub "serverId";
  hyKey ← member_text 33 arraySub "hyKey";
  key ← member_text 33 arraySub "key";
  value ← member_text 33 arraySub "value";
  mret (ServerAttr serverId hyKey key value).
Definition event_attr (arraySub : json) : T CloudLinkEventAttr :=
  eventId ← member_text 33 arraySub "eventId";
  hyKey ← member_text 33 arraySub "hyKey";
  key ← member_text 33 arraySub "key";
  value ← int_of (cJSON_GetObjectItem arraySub "value");
  mret (EventAttr eventId hyKey key (to_char char_signed value)).

(** A part of the profile that may be missing, but not empty. *)
Definition optional_part {A} (root : json) (name : string) (f : json -> T A) : T (option (list A)) :=
  match cJSON_GetObjectItem root name with
  | None => mret (Some [])
  | Some a =>
      if bool_decide (children a = []) then mret None
      else l ← counted (to_char char_signed) f (children a); mret (Some l)
  end.
Definition cloudLinkParseJson (devId str : string) : T (option CloudLinkDev) :=
  match cJSON_Parse str with
  | None => mret None
  | Some root =>
      let item name := cJSON_GetObjectItem root name in
      match item "modelId"%string, item "productKey"%string, item "productSecret"%string, item "deviceSecret"%string, item "attr"%string with
      | Some model, Some productKey, Some productSecret, Some deviceSecret, Some a =>
          if bool_decide (children a = []) then mret None else
          m ← text_of (Some model); m ← strcpy 33 m;
          pk ← text_of (Some productKey); pk ← strcpy 21 pk;
          ps ← text_of (Some productSecret); ps ← strcpy 65 ps;
          dn ← strcpy 33 devId;
          ds ← text_of (Some deviceSecret); ds ← strcpy 65 ds;
          attrs ← counted (to_char char_signed) cloud_attr (children a);
          servers ← optional_part root "services" server_attr;
          match servers with
          | None => mret None
          | Some servers =>
              events ← optional_part root "events" event_attr;
              match events with
              | None => mret None
              | Some events =>
                  let dev := CloudDev m (-1) (AlinkInfo pk ps dn ds) attrs servers events in
                  modify (fun s => set_cloud (<[dn := dev]> (cloudMap s)) s) ;;
                  mret (Some dev)
              end
          end
      | _, _, _, _, _ => mret None
      end
  end.

(** The file's path is cut to 63 characters. *)
Context (profile : string -> option string).
Definition addProfileDev {A} (path devId modelId : string) (func : string -> string -> T (option A)) : T (option A) :=
  match profile (str_take 63 (path +:+ "/" +:+ modelId +:+ ".json")) with
  | None => mret None
  | Some buf => func devId buf
  end.

(** * Reports to the cloud (cloudLinkReport.c, linkkit_subdev.c) *)

Definition linkkit_user_post_property (devid : Z) (payload : string) : T unit := _ ← call (PostProperty devid payload); mret tt.
Definition user_post_event (event_id : string) (event_payload : option string) : T Z :=
  call (PostEvent event_id (default "{}"%string event_payload)).

Definition is_zero (v : hvalue) : bool := match v with VEnum c => c =? 0 | VNum n => n =? 0 | _ => false end.
Definition cloudSingleEventReport (a : HyLinkDevAttr) (cloudLinkDev : CloudLinkDev) : T Z :=
  let i := index_of (fun e => str_eq (hyKey a) (eaHyKey e)) (eventAttr cloudLinkDev) in
  match eventAttr cloudLinkDev !! i with
  | None => mret (-1)
  | Some e =>
      let json := if str_eq (eaKey e) "" then None else generateCloudJson (eaKey e) (value a) in
      (if is_zero (value a) then mret tt else _ ← user_post_event (eventId e) json; mret tt) ;;
      mret (Z.of_nat i)
  end.
Definition cloudSingleAttrReport (hyLinkDev : HyLinkDev) (cloudLinkDev : CloudLinkDev) (hyAttr : Z) : T Z :=
  a ← arr_get (attr hyLinkDev) hyAttr;
  let i := index_of (fun c => str_eq (hyKey a) (caHyKey c)) (cdAttr cloudLinkDev) in
  match cdAttr cloudLinkDev !! i with
  | None => cloudSingleEventReport a cloudLinkDev
  | Some c =>
      match generateCloudJson (cloudKey c) (value a) with
      | None => mret tt
      | Some json => linkkit_user_post_property (cdId cloudLinkDev) json
      end ;;
      _ ← cloudSingleEventReport a cloudLinkDev;
      mret (Z.of_nat i)
  end.

Definition ATTR_REPORT_ALL : Z := 0xFF.
Definition cloudAttrReport (cloudLinkDev : CloudLinkDev) (hyAttr : Z) : T Z :=
  s ← getS;
  match hyMap s !! device_name (alinkInfo cloudLinkDev) with
  | None => mret (-1)
  | Some hyLinkDev =>
      if hyAttr =? ATTR_REPORT_ALL then
        _ ← for_each (cloudSingleAttrReport hyLinkDev cloudLinkDev) (Z.of_nat <$> seq 0 (length (attr hyLinkDev)));
        mret 0
      else cloudSingleAttrReport hyLinkDev cloudLinkDev hyAttr
  end.

(** * Going on and off line (linkkit_subdev.c, cloudLink.c) *)

Definition SUBDEV_OFFLINE : Z := 0.
Definition SUBDEV_ONLINE : Z := 1.
Definition SUBDEV_RESTORE : Z := 2.
Definition FAIL_RETURN : Z := -1.
Context (master_devid : Z).

(** The result, and the device's id. *)
Definition linkkit_subdev_status (meta_info : alink_info) (id status : Z) : T (Z * Z) :=
  if id =? master_devid then mret (-1, id)
  else if status =? SUBDEV_OFFLINE then
    if id <? 0 then mret (-1, id) else
    res ← call (Logout id);
    mret (res, if res =? FAIL_RETURN then id else -1)
  else if status =? SUBDEV_ONLINE then
    devid ← call (Open (device_name meta_info));
    if devid =? FAIL_RETURN then mret (-1, id) else
    res ← call (Connect devid);
    if res =? FAIL_RETURN then mret (res, devid) else
    res ← call (Login devid);
    mret (if res =? FAIL_RETURN then res else 0, devid)
  else if status =? SUBDEV_RESTORE then
    res ← call (DevReset (product_key meta_info) (device_name meta_info));
    if (res =? FAIL_RETURN) || (id <? 0) then mret (res, id) else
    res ← call (Close id);
    mret (res, -1)
  else mret (-1, id).

Definition reportGateWayInfo (deviceName productKey : string) (result : Z) : T Z :=
  let json := cJSON_PrintUnformatted (JObject ((string_member <$>
    [("Command", "Report"); ("FrameNumber", "00"); ("Type", "Register"); ("DeviceNum", "0")]%string) ++
    [(Some "Data"%string, JArray [string_object [("DeviceName", deviceName); ("ProductKey", productKey); ("Result", str_take 3 (text_d result))]%string])])) in
  _ ← user_post_event "GateWayInfo" (Some (cJSON_PrintUnformatted (string_object [("ReportGateWayInfo", json)]%string)));
  mret 0.

(** [name]: the device in the map.  Its id is written to it at once. *)
Definition cloudSubDevStatus (name : string) (status : Z) : T Z :=
  s ← getS;
  match cloudMap s !! name with
  | None => mret (-1)
  | Some dev =>
      _ ← get_or NullDeref (hyMap s !! name);
      '(res, id) ← linkkit_subdev_status (alinkInfo dev) (cdId dev) status;
      let dev := with_id id dev in
      modify (fun s => set_cloud (<[name := dev]> (cloudMap s)) s) ;;
      if res <? 0 then mret res else
      (if status =? SUBDEV_RESTORE then modify (fun s => set_cloud (delete name (cloudMap s)) s)
       else if status =? SUBDEV_ONLINE then
         _ ← cloudAttrReport dev ATTR_REPORT_ALL;
         _ ← reportGateWayInfo name (product_key (alinkInfo dev)) res;
         mret tt
       else mret tt) ;;
      mret 0
  end.

(** The order in which the hash map of the cloud's devices is walked. *)
Context (kh_keys : gmap string CloudLinkDev -> list string).
Definition cloudSubDevLink (id : option string) (status : Z) : T Z :=
  match id with
  | None => s ← getS; _ ← for_each (fun name => cloudSubDevStatus name status) (kh_keys (cloudMap s)); mret 0
  | Some devId => cloudSubDevStatus devId status
  end.

Definition PROFILE_PATH : string := "aliprofile".
Definition cloudReport (hyLinkDev : HyLinkDev) (hyAttr : Z) : T Z :=
  s ← getS;
  match cloudMap s !! devId hyLinkDev with
  | None =>
      c ← addProfileDev PROFILE_PATH (devId hyLinkDev) (modelId hyLinkDev) cloudLinkParseJson;
      match c with
      | None => mret (-1)
      | Some dev =>
          if online hyLinkDev =? SUBDEV_ONLINE then cloudSubDevLink (Some (device_name (alinkInfo dev))) (online hyLinkDev) else mret 0
      end
  | Some dev => if online hyLinkDev =? SUBDEV_ONLINE then cloudAttrReport dev hyAttr else mret 0
  end.

Definition sceneReport (req : string) : T Z :=
  _ ← user_post_event "ReportScene" (Some (cJSON_PrintUnformatted (string_object [("SceneId", req)]%string)));
  mret 0.

Definition db {A} (m : M D A) : T A :=
  s ← getS;
  match m (tables s) with Val (r, d) => modify (set_tables d) ;; mret r | Fault f => fail f end.
Context (sqlite : string -> list string -> D -> Z * list (list string) * D).
(** The program ends: what [cloudLinkClose] frees is not used any more. *)
Definition systemReset : T Z :=
  _ ← cloudSubDevLink None SUBDEV_RESTORE;
  db (databseReset sqlite) ;;
  _ ← cloudSubDevLink None SUBDEV_OFFLINE;
  call Exit.

(** * Reports of devices (hylinkSubDev.c, hylinkRecv.c) *)

Definition with_value (v : hvalue) (a : HyLinkDevAttr) : HyLinkDevAttr := Attr (hyKey a) (valueType a) v (repeat a).

(** The value an attribute takes from a text, and whether it is to be reported. *)
Definition new_value (a : HyLinkDevAttr) (text : string) : T (hvalue * bool) :=
  let again same v := (v, negb same || (repeat a =? REPEAT_REPORT)) in
  match value a with
  | VEnum c => let num := s32 (atoi text) in mret (again (num =? c) (if num =? c then VEnum c else VEnum (to_char char_signed num)))
  | VNum n => let num := s32 (atoi text) in mret (again (num =? n) (VNum num))
  | VText s => if str_eq s text then mret (again true (VText s)) else t ← strcpy 18 text; mret (VText t, true)
  | VNone => mret (VNone, true)
  end.

(** The device [id] is in the map. *)
Definition hylinkSubDevAttrUpdate (id : string) (Data : option json) : T Z :=
  match Data with
  | None => mret 0
  | Some Data =>
      match cJSON_GetObjectItem Data "Key" with
      | None => mret (-1)
      | Some K =>
          s ← getS;
          hyLinkDev ← get_or Dangling (hyMap s !! id);
          key ← (if bool_decide (attr hyLinkDev = []) then mret ""%string else text_of (Some K));
          let i := index_of (fun a => str_eq (hyKey a) key) (attr hyLinkDev) in
          match attr hyLinkDev !! i with
          | None => mret (-1)
          | Some a =>
              match cJSON_GetObjectItem Data "Value" with
              | None => mret (-1)
              | Some v =>
                  text ← text_of (Some v);
                  if str_eq text "" then mret (-1) else
                  '(v, changed) ← new_value a text;
                  modify (fun s => set_hy (<[id := with_attr (<[i := with_value v a]> (attr hyLinkDev)) hyLinkDev]> (hyMap s)) s) ;;
                  mret (if (changed : bool) then Z.of_nat i else -2)
              end
          end
      end
  end.

Definition set_online (id : string) (o : Z) : T unit :=
  modify (fun s => set_hy (alter (with_online o) id (hyMap s)) s).
(** The device itself, or what was done to it since. *)
Definition report_dev (id : string) (hyAttr : Z) : T unit :=
  s ← getS; dev ← get_or Dangling (hyMap s !! id); _ ← cloudReport dev hyAttr; mret tt.

Definition HYLINK_PROFILE_PATH : string := "hyprofile".
(** A device that is not known yet: reported, and asked for its attributes. *)
Definition new_dev (id model : string) (ask : bool) : T unit :=
  dev ← addProfileDev HYLINK_PROFILE_PATH id model hyLinkParseJson;
  match dev with
  | None => mret tt
  | Some dev =>
      report_dev (devId dev) ATTR_REPORT_ALL ;;
      if (ask : bool) then _ ← hylinkSendDevAttr (devId dev); mret tt else mret tt
  end.

(** The parameters of a listed device; after a failure the log reads the name of
    the attribute with the index of the parameter. *)
Fixpoint update_params (id : string) (i : Z) (params : list json) : T unit :=
  match params with
  | [] => mret tt
  | p :: params =>
      res ← hylinkSubDevAttrUpdate id (Some p);
      (if res <? 0 then s ← getS; dev ← get_or Dangling (hyMap s !! id); _ ← arr_get (attr dev) i; mret tt else mret tt) ;;
      update_params id (i + 1) params
  end.
Definition hylinkAnalyDevInfo (Data : json) : T unit :=
  if negb (has_item (Some Data) "ModelId") then mret tt else
  match cJSON_GetObjectItem Data "DeviceId" with
  | None => mret tt
  | Some devidJson =>
      o ← getByteForJson char_signed Data "Online" 0;
      id ← text_of (Some devidJson);
      s ← getS;
      known ← match hyMap s !! id with
      | None =>
          if o =? SUBDEV_ONLINE then
            m ← getStrForJson 33 Data "ModelId" "";
            dev ← addProfileDev HYLINK_PROFILE_PATH id m hyLinkParseJson;
            mret (devId <$> dev)
          else mret None
      | Some dev =>
          if o =? online dev then mret None else
          set_online id o ;;
          _ ← cloudSubDevLink (Some id) o;
          mret (Some id)
      end;
      match known with
      | None => mret tt
      | Some id =>
          (if has_item (Some Data) "Params"
           then update_params id 0 (default [] (children <$> cJSON_GetObjectItem Data "Params")) else mret tt) ;;
          report_dev id ATTR_REPORT_ALL ;;
          _ ← hylinkSendDevAttr id;
          mret tt
      end
  end.

Definition hylink_report_type : list string :=
  ["Register"; "UnRegister"; "OnOff"; "Attribute"; "Event"; "DevAttri"; "DevsInfo"; "LocalScene"; "ReFactory"].

(** One element of the data of a report; [hyDevId] is kept for the next. *)
Definition analy_item (type : Z) (hyDevId : string) (array_sub : json) : T string :=
  hyDevId ← getStrForJson 33 array_sub "DeviceId" hyDevId;
  s ← getS;
  let known := hyMap s !! hyDevId in
  (if type =? 0 then
     match known with
     | None => m ← getStrForJson 33 array_sub "ModelId" ""; new_dev hyDevId m false
     | Some _ => set_online hyDevId SUBDEV_ONLINE ;; _ ← cloudSubDevLink (Some hyDevId) SUBDEV_ONLINE; mret tt
     end
   else if type =? 1 then
     match known with
     | None => mret tt
     | Some _ =>
         _ ← cloudSubDevLink (Some hyDevId) SUBDEV_RESTORE;
         modify (fun s => set_hy (delete hyDevId (hyMap s)) s)
     end
   else if type =? 2 then
     o ← getByteForJson char_signed array_sub "Value" 0;
     match known with
     | None =>
         if negb (o =? 0) && has_item (Some array_sub) "ModelId"
         then m ← getStrForJson 33 array_sub "ModelId" ""; new_dev hyDevId m true else mret tt
     | Some dev =>
         if o =? online dev then mret tt else
         set_online hyDevId o ;; _ ← cloudSubDevLink (Some hyDevId) o; mret tt
     end
   else if (3 <=? type) && (type <=? 5) then
     match known with
     | Some dev =>
         (if online dev =? SUBDEV_OFFLINE then
            set_online hyDevId SUBDEV_ONLINE ;;
            _ ← cloudSubDevLink (Some hyDevId) SUBDEV_ONLINE;
            _ ← hylinkSendDevAttr hyDevId; mret tt
          else mret tt) ;;
         type ← hylinkSubDevAttrUpdate hyDevId (Some array_sub);
         if type <? 0 then mret tt else report_dev hyDevId type
     | None =>
         if has_item (Some array_sub) "ModelId"
         then m ← getStrForJson 33 array_sub "ModelId" ""; new_dev hyDevId m true else mret tt
     end
   else if type =? 6 then hylinkAnalyDevInfo array_sub
   else if type =? 7 then
     op ← text_of (cJSON_GetObjectItem array_sub "Op");
     if str_eq op "ExecScene" then
       match cJSON_GetObjectItem array_sub "Id" with
       | None => mret tt
       | Some Id => i ← text_of (Some Id); _ ← sceneReport i; mret tt
       end
     else mret tt
   else mret tt) ;;
  mret hyDevId.
Fixpoint analy_items (type : Z) (hyDevId : string) (l : list json) : T unit :=
  match l with [] => mret tt | j :: l => hyDevId ← analy_item type hyDevId j; analy_items type hyDevId l end.

Definition analy_root (root : json) : T Z :=
  match cJSON_GetObjectItem root "Command" with
  | None => mret (-1)
  | Some Command =>
      c ← text_of (Some Command);
      if str_eq c "Report" then
        match cJSON_GetObjectItem root "Type", cJSON_GetObjectItem root "Data" with
        | Some t, Some d =>
            let type := match valuestring t with Some t => findStrIndex t hylink_report_type | None => -1 end in
            if type =? -1 then mret (-1)
            else if type =? 8 then _ ← systemReset; mret (-1)
            else analy_items type "" (children d) ;; mret 0
        | _, _ => mret (-1)
        end
      else mret (if str_eq c "BeatHeartResponse" then 0 else -1)
  end.
Definition hylinkRecvAnaly (json : string) : T Z :=
  match cJSON_Parse json with None => mret (-1) | Some root => analy_root root end.

(** After a message that was handled two bytes are left out. *)
Fixpoint recv_bytes (skip : nat) (data : string) : T unit :=
  match data with
  | EmptyString => mret tt
  | String c data =>
      match skip with
      | S n => recv_bytes n data
      | O =>
          if Ascii.eqb c STX then ret ← hylinkRecvAnaly (c_str data); recv_bytes (if ret =? 0 then 2%nat else 0%nat) data
          else recv_bytes 0 data
      end
  end.
Definition hylinkRecv (data : string) : T Z := recv_bytes 0 data ;; mret 0.

(** * Requests of the cloud (cloudLinkCtrl.c, linkkit_subdev.c) *)

Definition cloudLinkListGetBySn (sn : Z) (m : gmap string CloudLinkDev) : option CloudLinkDev :=
  head (filter (fun d => cdId d = sn) (omap (fun k => m !! k) (kh_keys m))).

(** The first attribute of the profile that the request has. *)
Definition cloudLinkCtrl (sn : Z) (payload : string) : T Z :=
  s ← getS;
  match cloudLinkListGetBySn sn (cloudMap s) with
  | None => mret (-1)
  | Some dev =>
      let root := cJSON_Parse payload in
      match head (filter (fun a => has_item root (cloudKey a) = true) (cdAttr dev)) with
      | None => mret (-1)
      | Some a => hyCloudCtrlSend (device_name (alinkInfo dev)) (cdModelId dev) (hyType a) (caHyKey a) root (cloudKey a)
      end
  end.

Definition cloudLinkDevDel (sn : string) : T Z :=
  s ← getS;
  match cloudMap s !! sn with
  | None => mret (-1)
  | Some dev => _ ← cloudSubDevLink (Some (device_name (alinkInfo dev))) SUBDEV_RESTORE; hylinkDelDev sn
  end.

(** The attribute of a cloud key, with the value of the device. *)
Definition cloud_value (dev : CloudLinkDev) (hy : HyLinkDev) (key : string) : option (string * hvalue) :=
  c ← head (filter (fun c => cloudKey c = key) (cdAttr dev));
  a ← head (filter (fun a => hyKey a = caHyKey c) (attr hy));
  Some (cloudKey c, value a).
Fixpoint values_of (dev : CloudLinkDev) (hy : HyLinkDev) (keys : list json) : T (list (option string * json)) :=
  match keys with
  | [] => mret []
  | k :: keys =>
      k ← (if bool_decide (cdAttr dev = []) then mret ""%string else text_of (Some k));
      l ← values_of dev hy keys;
      mret (match cloud_value dev hy k with
            | Some (c, VEnum n) | Some (c, VNum n) => (Some c, JNumber (n, 0%nat)) :: l
            | Some (c, VText t) => (Some c, JString t) :: l
            | _ => l
            end)
  end.
Definition user_property_get_event_handler (devid : Z) (request : string) : T (Z * option string) :=
  s ← getS;
  match cloudLinkListGetBySn devid (cloudMap s) with
  | None => mret (-1, None)
  | Some dev =>
      match hyMap s !! device_name (alinkInfo dev) with
      | None => mret (-1, None)
      | Some hy =>
          l ← values_of dev hy (default [] (children <$> cJSON_Parse request));
          mret (0, Some (cJSON_PrintUnformatted (JObject l)))
      end
  end.
End alink.
