(* ===== verification/AliLinkProps.v ===== *)
(** A device and its twin in the cloud: whatever the device reports, the
    properties posted last are its values. *)
From stdpp Require Import gmap strings pretty.
From Stdlib Require Import Ascii.
From S2P Require Import Prelude CString Json JsonText JsonProps CommonFunc HyLink HyLinkProps AliLink.

(** * What the cloud sees of a device *)

Definition value_json (v : hvalue) : option json :=
  match v with
  | VEnum n | VNum n => Some (JNumber (n, 0%nat))
  | VText t => Some (JString t)
  | VNone => None
  end.

(** The properties in the payloads posted for a device, latest last. *)
Definition see (devid : Z) (view : gmap string json) (e : ali_io) : gmap string json :=
  match e with
  | PostProperty d payload =>
      if d =? devid then
        match cJSON_Parse payload with Some (JObject [(Some k, v)]) => <[k := v]> view | _ => view end
      else view
  | _ => view
  end.
Definition cloud_view (devid : Z) (tr : list ali_io) : gmap string json := foldl (see devid) ∅ tr.

Lemma cloud_view_snoc devid tr e : cloud_view devid (tr ++ [e]) = see devid (cloud_view devid tr) e.
Proof. unfold cloud_view. by rewrite foldl_app. Qed.

Section twins.
Context {D : Type} (char_signed : bool) (profile : string -> option string) (master_devid : Z)
  (kh_keys : gmap string CloudLinkDev -> list string)
  (sqlite : string -> list string -> D -> Z * list (list string) * D).
Abbreviation T A := (M (ali D) A).

(** Values as their types hold them. *)
Definition value_ok (v : hvalue) : Prop :=
  match v with
  | VEnum c => to_char char_signed c = c /\ Z.abs c < 256
  | VNum n => INT_MIN <= n <= INT_MAX
  | VText t => no_nul t = true
  | VNone => True
  end.

Lemma index_of_spec {A} (p : A -> bool) l i a : index_of p l = i -> l !! i = Some a ->
  p a = true /\ forall j b, (j < i)%nat -> l !! j = Some b -> p b = false.
Proof.
  intros <-. revert a. induction l as [|x l IH]; intros a Ha; [done|]. cbn [index_of] in *. destruct (p x) eqn:E.
  - cbn in Ha. injection Ha as <-. split; [done|]. lia.
  - cbn in Ha. destruct (IH a Ha) as [Hp Hb]. split; [done|]. intros [|j] b Hj Hl; cbn in *; [by injection Hl as <-|]. eapply Hb; [|done]. lia.
Qed.

(** The cloud's attribute for a device's key. *)
Definition cloud_attr_of (c : CloudLinkDev) (k : string) : option CloudLinkDevAttr :=
  cdAttr c !! index_of (fun ca => str_eq k (caHyKey ca)) (cdAttr c).
Lemma cloud_attr_key c k ca : cloud_attr_of c k = Some ca -> caHyKey ca = k.
Proof. intros H. apply (index_of_spec _ _ _ _ eq_refl) in H as [H _]. by apply bool_decide_eq_true in H. Qed.

(** Attributes with an empty key are none of the cloud's. *)
Definition shown (c : CloudLinkDev) (view : gmap string json) (a : HyLinkDevAttr) : Prop :=
  match cloud_attr_of c (hyKey a), value_json (value a) with
  | Some ca, Some j => cloudKey ca <> ""%string -> view !! cloudKey ca = Some j
  | _, _ => True
  end.
(** The view after a post. *)
Definition posted (c : CloudLinkDev) (a : HyLinkDevAttr) (view : gmap string json) : gmap string json :=
  match cloud_attr_of c (hyKey a), value_json (value a) with
  | Some ca, Some j => <[cloudKey ca := j]> view
  | _, _ => view
  end.

(** Profiles without keys that come twice, but the empty one. *)
Record profile_ok (c : CloudLinkDev) (l : list HyLinkDevAttr) : Prop := ProfileOk {
  po_cloud : forall i j ca cb, cdAttr c !! i = Some ca -> cdAttr c !! j = Some cb -> cloudKey ca = cloudKey cb -> cloudKey ca <> ""%string -> i = j;
  po_names : Forall (fun ca => no_nul (cloudKey ca) = true) (cdAttr c);
  po_hy : NoDup (hyKey <$> l);
  po_length : (length l < 256)%nat
}.

Lemma shown_posted c view a : shown c (posted c a view) a.
Proof. unfold shown, posted. destruct (cloud_attr_of c (hyKey a)), (value_json (value a)); try done. intros _. apply lookup_insert_eq. Qed.
Lemma shown_other c l view a b : profile_ok c l -> hyKey a <> hyKey b -> shown c view b -> shown c (posted c a view) b.
Proof.
  intros [Hc _ _ _] Hk. unfold shown, posted. destruct (cloud_attr_of c (hyKey b)) as [cb|] eqn:Eb, (value_json (value b)) as [j|]; try done.
  destruct (cloud_attr_of c (hyKey a)) as [ca|] eqn:Ea; [|done]. destruct (value_json (value a)); [|done].
  intros H Hne. rewrite lookup_insert_ne; [by apply H|]. intros E. apply Hk. rewrite <- (cloud_attr_key _ _ _ Ea), <- (cloud_attr_key _ _ _ Eb).
  unfold cloud_attr_of in *. set (i := index_of _ _) in Ea. set (i' := index_of _ _) in Eb.
  assert (i = i') as Hi; [|rewrite Hi in Ea; congruence].
  apply (Hc i i' ca cb); [done..|by rewrite E].
Qed.

(** ** Posts *)

(** The devices and tables are as they were. *)
Definition same_devs (s s' : ali D) : Prop := hyMap s' = hyMap s /\ cloudMap s' = cloudMap s /\ time_key s' = time_key s /\ tables s' = tables s.
Lemma same_devs_refl s : same_devs s s.
Proof. done. Qed.
Lemma same_devs_trans s s' s'' : same_devs s s' -> same_devs s' s'' -> same_devs s s''.
Proof. unfold same_devs. intuition congruence. Qed.

Lemma wp_call e s (Q : Z -> ali D -> Prop) :
  (forall s', same_devs s s' -> done s' = done s ++ [e] -> answers s' = tl (answers s) -> Q (hd 0 (answers s)) s') -> wp (call e) s Q.
Proof.
  intros H. unfold call. wp_step. wp_step. wp_step. wp_step. cbn [answers push_done].
  destruct (answers s) as [|r l] eqn:E; [wp_step; by apply H|]. wp_step. wp_step. wp_step. by apply H.
Qed.

Lemma payload_read k v j p : no_nul k = true -> value_ok v -> value_json v = Some j -> generateCloudJson k v = Some p ->
  cJSON_Parse p = Some (JObject [(Some k, j)]).
Proof.
  intros Hk Hv Hj Hp. assert (p = cJSON_PrintUnformatted (JObject [(Some k, j)]) /\ printable j = true /\ nest j = 0%nat) as (-> & Hpr & Hn).
  { destruct v; cbn in *; simplify_eq; (split; [done|]; split; [|done]); cbn [printable]; try done; cbn [Nat.eqb andb]; apply Z.ltb_lt; unfold INT_MIN, INT_MAX in *; lia. }
  apply print_parsed.
  - cbn [printable forallb fst snd]. by rewrite Hk, Hpr.
  - cbn [nest foldr snd]. rewrite Hn. cbn. by apply Nat.leb_le.
Qed.

Lemma event_report_run d a c s : wp (cloudSingleEventReport (D := D) a c) s (fun _ s' => same_devs s s' /\ cloud_view d (done s') = cloud_view d (done s)).
Proof.
  unfold cloudSingleEventReport. destruct (eventAttr c !! _) as [e|]; [|wp_step; by split].
  wp_step. destruct (is_zero (value a)); [wp_step; wp_step; by split|].
  wp_step. unfold user_post_event. apply wp_call. intros s' Hs Hd _. wp_step. wp_step. rewrite Hd, cloud_view_snoc. by split.
Qed.

Lemma attr_report_run hy c i a s : attr hy !! i = Some a -> Forall (fun ca => no_nul (cloudKey ca) = true) (cdAttr c) -> value_ok (value a) ->
  wp (cloudSingleAttrReport (D := D) hy c (Z.of_nat i)) s (fun _ s' =>
    same_devs s s' /\ cloud_view (cdId c) (done s') = posted c a (cloud_view (cdId c) (done s))).
Proof.
  intros Ha Hc Hv. unfold cloudSingleAttrReport. wp_step. eapply wp_arr_get; [lia|by rewrite Nat2Z.id|]. cbv zeta.
  unfold posted, cloud_attr_of. destruct (cdAttr c !! index_of _ _) as [ca|] eqn:E; [|apply event_report_run].
  assert (no_nul (cloudKey ca) = true) as Hn by exact (Forall_lookup_1 _ _ _ _ Hc E).
  destruct (generateCloudJson (cloudKey ca) (value a)) as [p|] eqn:Ep.
  - destruct (value_json (value a)) as [j|] eqn:Ej; [|destruct (value a); discriminate].
    wp_step. unfold linkkit_user_post_property. wp_step. apply wp_call. intros s1 Hs1 Hd1 _. wp_step. wp_step.
    eapply wp_mono; [apply (event_report_run (cdId c))|]. intros r2 s2 [Hs2 Hd2]. wp_step. split; [by eapply same_devs_trans|].
    rewrite Hd2, Hd1, cloud_view_snoc. cbn [see]. rewrite Z.eqb_refl. by rewrite (payload_read _ _ _ _ Hn Hv Ej Ep).
  - destruct (value_json (value a)) as [j|] eqn:Ej; [destruct (value a); discriminate|]. wp_step. wp_step. wp_step.
    eapply wp_mono; [apply (event_report_run (cdId c))|]. intros r2 s2 [Hs2 Hd2]. by wp_step.
Qed.

Lemma insert_last {A} (l : list A) i a : l !! i = Some a -> take (S i) l = take i l ++ [a].
Proof. apply take_S_r. Qed.

Lemma all_reports_run hy c s : profile_ok c (attr hy) -> Forall (fun a => value_ok (value a)) (attr hy) ->
  wp (for_each (cloudSingleAttrReport (D := D) hy c) (Z.of_nat <$> seq 0 (length (attr hy)))) s (fun _ s' =>
    same_devs s s' /\ Forall (shown c (cloud_view (cdId c) (done s'))) (attr hy)).
Proof.
  intros Hp Hv.
  assert (forall m k s, (k + m = length (attr hy))%nat -> Forall (shown c (cloud_view (cdId c) (done s))) (take k (attr hy)) ->
    wp (for_each (cloudSingleAttrReport (D := D) hy c) (Z.of_nat <$> seq k m)) s (fun _ s' =>
      same_devs s s' /\ Forall (shown c (cloud_view (cdId c) (done s'))) (attr hy))) as HI.
  { clear s. induction m as [|m IH]; intros k s Hk Hs; cbn [seq fmap list_fmap for_each].
    - wp_step. split; [done|]. rewrite take_ge in Hs by lia. done.
    - destruct (lookup_lt_is_Some_2 (attr hy) k ltac:(lia)) as [a Ha]. wp_step.
      eapply wp_mono; [eapply attr_report_run; [done|apply Hp|exact (Forall_lookup_1 _ _ _ _ Hv Ha)]|]. intros r1 s1 [Hs1 Hd1]. wp_step.
      eapply wp_mono; [apply (IH (S k)); [lia|]|].
      + rewrite (insert_last _ _ _ Ha). apply Forall_app. split; [|by constructor; [rewrite Hd1; apply shown_posted|]].
        rewrite Hd1. apply Forall_forall. intros b Hb. apply (shown_other _ _ _ _ _ Hp); [|by eapply Forall_forall].
        apply list_elem_of_lookup in Hb as [j Hb]. apply lookup_take_Some in Hb as [Hb Hj]. intros E.
        assert (k = j) by (eapply (NoDup_lookup (hyKey <$> attr hy)); [apply Hp|by rewrite list_lookup_fmap, Ha|by rewrite list_lookup_fmap, Hb, E]). lia.
      + intros r2 s2 [Hs2 Hd2]. wp_step. split; [by eapply same_devs_trans|done]. }
  apply (HI _ 0%nat); [done|]. constructor.
Qed.

(** * A device with its twin *)

Record twinned (s : ali D) (id : string) (dev : HyLinkDev) (c : CloudLinkDev) : Prop := Twinned {
  tw_hy : hyMap s !! id = Some dev;
  tw_cloud : cloudMap s !! id = Some c;
  tw_name : device_name (alinkInfo c) = id;
  tw_id : devId dev = id;
  tw_profile : profile_ok c (attr dev);
  tw_values : Forall (fun a => value_ok (value a)) (attr dev)
}.
(** The cloud has the values of the device. *)
Definition synced (s : ali D) (id : string) (dev : HyLinkDev) : Prop :=
  online dev = 1 /\ exists c, twinned s id dev c /\ Forall (shown c (cloud_view (cdId c) (done s))) (attr dev).

Lemma cloudAttrReport_all c dev s id : twinned s id dev c ->
  wp (cloudAttrReport (D := D) c ATTR_REPORT_ALL) s (fun _ s' => same_devs s s' /\ Forall (shown c (cloud_view (cdId c) (done s'))) (attr dev)).
Proof.
  intros H. unfold cloudAttrReport. wp_step. wp_step. rewrite (tw_name _ _ _ _ H), (tw_hy _ _ _ _ H). change (ATTR_REPORT_ALL =? ATTR_REPORT_ALL) with true. wp_step. wp_step.
  eapply wp_mono; [apply all_reports_run; apply H|]. intros l s' Hs. by wp_step.
Qed.

Lemma gateway_info_run d name pk res s : wp (reportGateWayInfo (D := D) name pk res) s (fun _ s' =>
  same_devs s s' /\ cloud_view d (done s') = cloud_view d (done s)).
Proof.
  unfold reportGateWayInfo. cbv zeta. wp_step. unfold user_post_event. apply wp_call. intros s' Hs Hd _. wp_step. rewrite Hd, cloud_view_snoc. by split.
Qed.

Lemma twin_with_id s s' id dev c i : twinned s id dev c -> hyMap s' = hyMap s -> cloudMap s' = <[id := with_id i c]> (cloudMap s) ->
  twinned s' id dev (with_id i c).
Proof.
  intros [H1 H2 H3 H4 [Hc Hn Hh Hl] H6] Hh' Hc'. constructor; try done; [by rewrite Hh'|by rewrite Hc', lookup_insert_eq].
Qed.
Lemma twin_same s s' id dev c : twinned s id dev c -> same_devs s s' -> twinned s' id dev c.
Proof. intros [H1 H2 H3 H4 H5 H6] (Hh & Hc & _). constructor; try done; [by rewrite Hh|by rewrite Hc]. Qed.

Lemma goes_online s id dev c devid r1 r2 l : twinned s id dev c -> online dev = 1 -> cdId c <> master_devid ->
  answers s = devid :: r1 :: r2 :: l -> Forall (fun r => r <> -1) [devid; r1; r2] ->
  wp (cloudSubDevStatus master_devid id SUBDEV_ONLINE) s (fun r s' => r = 0 /\ synced s' id dev).
Proof.
  intros H Ho Hm Ha Hr. rewrite !Forall_cons in Hr. destruct Hr as (Hr0 & Hr1 & Hr2 & _).
  unfold cloudSubDevStatus. wp_step. wp_step. rewrite (tw_cloud _ _ _ _ H). wp_step. rewrite (tw_hy _ _ _ _ H). wp_step. wp_step.
  unfold linkkit_subdev_status. destruct (Z.eqb_spec (cdId c) master_devid); [done|]. cbn [Z.eqb SUBDEV_ONLINE SUBDEV_OFFLINE Pos.eqb].
  wp_step. apply wp_call. intros s1 Hs1 Hd1 Ha1. rewrite Ha in *. cbn [hd tl] in *. unfold FAIL_RETURN. destruct (Z.eqb_spec devid (-1)); [done|].
  wp_step. apply wp_call. intros s2 Hs2 Hd2 Ha2. rewrite Ha1 in *. cbn [hd tl] in *. destruct (Z.eqb_spec r1 (-1)); [done|].
  wp_step. apply wp_call. intros s3 Hs3 Hd3 Ha3. rewrite Ha2 in *. cbn [hd tl] in *. wp_step. destruct (Z.eqb_spec r2 (-1)); [done|].
  cbv zeta. wp_step. wp_step. cbn [Z.ltb Z.compare]. cbn [SUBDEV_RESTORE Z.eqb Pos.eqb]. wp_step. wp_step.
  assert (same_devs s s3) as Hs by (eapply same_devs_trans; [exact Hs1|by eapply same_devs_trans]).
  eapply wp_mono; [eapply cloudAttrReport_all, (twin_with_id s _ id dev c devid H)|].
  - cbn [hyMap set_cloud]; by destruct Hs as [-> _].
  - cbn [cloudMap set_cloud]; by destruct Hs as (_ & -> & _).
  - intros r4 s4 [Hs4 Hv]. wp_step. eapply wp_mono; [apply (gateway_info_run devid)|]. intros r5 s5 [Hs5 Hd5]. wp_step. wp_step. split; [done|].
    split; [done|]. exists (with_id devid c). split; [|cbn [with_id cdId] in *; by rewrite Hd5].
    eapply twin_same; [|exact Hs5]. eapply twin_same; [|exact Hs4]. apply (twin_with_id s _ _ _ _ _ H); [cbn [hyMap set_cloud]; by destruct Hs as [-> _]|cbn [cloudMap set_cloud]; by destruct Hs as (_ & -> & _)].
Qed.

(** ** Reports *)

(** The value a text gives. *)
Definition read_value (v : hvalue) (text : string) : hvalue :=
  match v with
  | VEnum _ => VEnum (to_char char_signed (s32 (atoi text)))
  | VNum _ => VNum (s32 (atoi text))
  | VText _ => VText text
  | VNone => VNone
  end.
(** The attribute of a key takes the value of a text; an empty text and an unknown
    key do nothing. *)
Definition set_key (l : list HyLinkDevAttr) (kv : string * string) : list HyLinkDevAttr :=
  let i := index_of (fun a => str_eq (hyKey a) kv.1) l in
  match l !! i with
  | Some a => if str_eq kv.2 "" then l else <[i := with_value (read_value (value a) kv.2) a]> l
  | None => l
  end.

Lemma to_char_range z : to_char char_signed (to_char char_signed z) = to_char char_signed z /\ Z.abs (to_char char_signed z) < 256.
Proof.
  unfold to_char, u8. cbv zeta. change (2 ^ 8) with 256. pose proof (Z.mod_pos_bound z 256 eq_refl) as Hu.
  destruct char_signed; cbn [andb].
  - destruct (Z.leb_spec 128 (z mod 256)).
    + replace ((z mod 256 - 256) mod 256) with (z mod 256).
      { destruct (Z.leb_spec 128 (z mod 256)); lia. }
      apply Z.mod_unique with (-1); lia.
    + rewrite Z.mod_mod by lia. destruct (Z.leb_spec 128 (z mod 256)); lia.
  - rewrite Z.mod_mod by lia. lia.
Qed.
Lemma s32_range z : INT_MIN <= s32 z <= INT_MAX.
Proof.
  unfold s32, u32, INT_MIN, INT_MAX. pose proof (Z.mod_pos_bound z (2 ^ 32) eq_refl). destruct (_ <? _) eqn:E; lia.
Qed.
Lemma read_value_ok v text : value_ok v -> no_nul text = true -> value_ok (read_value v text).
Proof. intros Hv Ht. destruct v; cbn; try done; [apply to_char_range|]. apply s32_range. Qed.

Lemma new_value_run a text s (Q : hvalue * bool -> ali D -> Prop) : value_ok (value a) -> (String.length text < 18)%nat ->
  (forall changed, (changed = false -> read_value (value a) text = value a) -> Q (read_value (value a) text, changed) s) ->
  wp (new_value char_signed a text) s Q.
Proof.
  intros Hv Ht HQ. unfold new_value. destruct (value a) as [c|n|t|] eqn:E; cbn [read_value] in *.
  - cbv zeta. wp_step. destruct (Z.eqb_spec (s32 (atoi text)) c) as [Ec|Ec]; cbn [negb orb].
    + pose proof (HQ (repeat a =? REPEAT_REPORT)) as HQ'. rewrite Ec, (proj1 Hv) in HQ'. by apply HQ'.
    + by apply HQ.
  - cbv zeta. wp_step. apply HQ. destruct (Z.eqb_spec (s32 (atoi text)) n) as [->|]; [done|]. cbn. done.
  - cbv zeta. destruct (str_eq t text) eqn:Et.
    + apply bool_decide_eq_true in Et as ->. wp_step. by apply HQ.
    + wp_step. apply wp_strcpy; [done|]. wp_step. by apply HQ.
  - wp_step. by apply HQ.
Qed.

Lemma set_key_keys l kv : hyKey <$> set_key l kv = hyKey <$> l.
Proof.
  unfold set_key. cbv zeta. destruct (l !! _) as [a|] eqn:E; [|done]. destruct (str_eq kv.2 ""); [done|].
  rewrite list_fmap_insert. apply list_insert_id. by rewrite list_lookup_fmap, E.
Qed.
Lemma set_key_profile c l kv : profile_ok c l -> profile_ok c (set_key l kv).
Proof.
  intros [H1 H2 H3 H4]. constructor; [done..|by rewrite set_key_keys|]. by rewrite <- (length_fmap hyKey), set_key_keys, length_fmap.
Qed.
Lemma set_key_values l kv : no_nul kv.2 = true -> Forall (fun a => value_ok (value a)) l -> Forall (fun a => value_ok (value a)) (set_key l kv).
Proof.
  intros Hn Hl. unfold set_key. cbv zeta. destruct (l !! _) as [a|] eqn:E; [|done]. destruct (str_eq kv.2 ""); [done|].
  apply Forall_insert; [done|]. cbn. apply read_value_ok; [|done]. exact (Forall_lookup_1 _ _ _ _ Hl E).
Qed.

(** The twin after a change of the device's attributes. *)
Lemma twin_attrs s s' id dev c l : twinned s id dev c -> hyMap s' = <[id := with_attr l dev]> (hyMap s) -> cloudMap s' = cloudMap s ->
  profile_ok c l -> Forall (fun a => value_ok (value a)) l -> twinned s' id (with_attr l dev) c.
Proof. intros [H1 H2 H3 H4 H5 H6] Hh Hc Hp Hv. constructor; try done; [by rewrite Hh, lookup_insert_eq|by rewrite Hc]. Qed.

Lemma report_dev_run s id dev c i : twinned s id dev c -> online dev = 1 -> (i < length (attr dev))%nat ->
  wp (report_dev char_signed profile master_devid kh_keys id (Z.of_nat i)) s (fun _ s' => same_devs s s' /\
    forall a, attr dev !! i = Some a -> cloud_view (cdId c) (done s') = posted c a (cloud_view (cdId c) (done s))).
Proof.
  intros H Ho Hi. unfold report_dev. wp_step. wp_step. rewrite (tw_hy _ _ _ _ H). wp_step. wp_step. wp_step. unfold cloudReport. wp_step. wp_step.
  rewrite (tw_id _ _ _ _ H), (tw_cloud _ _ _ _ H), Ho. change (1 =? SUBDEV_ONLINE) with true. wp_step. unfold cloudAttrReport. wp_step. wp_step.
  rewrite (tw_name _ _ _ _ H), (tw_hy _ _ _ _ H). pose proof (po_length _ _ (tw_profile _ _ _ _ H)).
  destruct (Z.eqb_spec (Z.of_nat i) ATTR_REPORT_ALL) as [E|_]; [unfold ATTR_REPORT_ALL in E; lia|].
  destruct (lookup_lt_is_Some_2 (attr dev) i Hi) as [a Ha].
  eapply wp_mono; [eapply attr_report_run; [exact Ha|apply (tw_profile _ _ _ _ H)|exact (Forall_lookup_1 _ _ _ _ (tw_values _ _ _ _ H) Ha)]|].
  intros r s' [Hs Hv]. wp_step. split; [done|]. intros a' Ha'. congruence.
Qed.

Abbreviation analy_item := (analy_item (D := D) char_signed profile master_devid kh_keys).
Abbreviation analy_items := (analy_items (D := D) char_signed profile master_devid kh_keys).
Abbreviation analy_root := (analy_root (D := D) char_signed profile master_devid kh_keys sqlite).

Lemma posted_all c l i a view : profile_ok c l -> l !! i = Some a -> (forall b, b ∈ l -> hyKey a <> hyKey b -> shown c view b) ->
  Forall (shown c (posted c a view)) l.
Proof.
  intros Hp Ha Hv. apply Forall_forall. intros b Hb. destruct (decide (hyKey a = hyKey b)) as [E|Hne].
  - apply list_elem_of_lookup in Hb as [j Hb]. assert (i = j) as <-.
    { eapply (NoDup_lookup (hyKey <$> l)); [apply Hp|by rewrite list_lookup_fmap, Ha|by rewrite list_lookup_fmap, Hb, E]. }
    replace b with a by congruence. apply shown_posted.
  - apply (shown_other _ _ _ _ _ Hp); [done|by apply Hv].
Qed.

Lemma update_run s id dev item k v : synced s id dev ->
  cJSON_GetObjectItem item "Key" = Some (JString k) -> cJSON_GetObjectItem item "Value" = Some (JString v) ->
  no_nul v = true -> (String.length v < 18)%nat ->
  wp (r ← hylinkSubDevAttrUpdate char_signed id (Some item);
      if r <? 0 then mret tt else report_dev char_signed profile master_devid kh_keys id r) s
    (fun _ s' => synced s' id (with_attr (set_key (attr dev) (k, v)) dev)).
Proof.
  intros (Ho & c & H & Hs) HK HV Hn Hl. wp_step. unfold hylinkSubDevAttrUpdate. rewrite HK. wp_step. wp_step. wp_step. rewrite (tw_hy _ _ _ _ H). wp_step. wp_step.
  assert (Hlen : forall l kv, length (set_key l kv) = length l) by (intros; by rewrite <- (length_fmap hyKey), set_key_keys, length_fmap).
  assert (Hsame : set_key (attr dev) (k, v) = attr dev -> synced s id (with_attr (set_key (attr dev) (k, v)) dev)).
  { intros ->. destruct dev. by split; [|exists c]. }
  case_bool_decide as Hnil.
  { wp_step. cbv zeta. rewrite Hnil, lookup_nil. wp_step. change (-1 <? 0) with true. wp_step. wp_step. rewrite Hnil in Hsame. by apply Hsame. }
  apply wp_text_of. cbv zeta. unfold set_key in Hsame at 1. cbn [fst snd] in Hsame. cbv zeta in Hsame.
  destruct (attr dev !! index_of _ _) as [a|] eqn:Ea; [|wp_step; change (-1 <? 0) with true; wp_step; wp_step; by apply Hsame].
  rewrite HV. wp_step. apply wp_text_of. destruct (str_eq v "") eqn:Ev; [wp_step; change (-1 <? 0) with true; wp_step; wp_step; by apply Hsame|]. clear Hsame.
  pose proof (tw_profile _ _ _ _ H) as Hp. pose proof (Forall_lookup_1 _ _ _ _ (tw_values _ _ _ _ H) Ea) as Hva. cbn beta in Hva.
  wp_step. apply new_value_run; [done|done|]. intros changed Hc. set (i := index_of _ _) in *. wp_step. wp_step. wp_step.
  assert (Hset : <[i := with_value (read_value (value a) v) a]> (attr dev) = set_key (attr dev) (k, v)).
  { unfold set_key. cbn [fst snd]. fold i. by rewrite Ea, Ev. }
  rewrite Hset. set (s1 := set_hy _ s).
  assert (H1 : twinned s1 id (with_attr (set_key (attr dev) (k, v)) dev) c).
  { eapply twin_attrs; [done..|by apply set_key_profile|apply set_key_values; [done|apply H]]. }
  pose proof (lookup_lt_Some _ _ _ Ea) as Hi. pose proof (set_key_profile c _ (k, v) Hp) as Hp'. destruct changed.
  - destruct (Z.ltb_spec (Z.of_nat i) 0); [lia|]. eapply wp_mono; [eapply (report_dev_run s1 id); [exact H1|exact Ho|cbn; by rewrite Hlen]|].
    intros r s2 [Hs2 Hv2]. split; [done|]. exists c. split; [by eapply twin_same|]. cbn [attr with_attr] in *.
    rewrite (Hv2 (with_value (read_value (value a) v) a)) by (rewrite <- Hset; by apply list_lookup_insert_eq).
    eapply posted_all; [done|rewrite <- Hset; by apply list_lookup_insert_eq|].
    intros b Hb Hne. rewrite <- Hset in Hb. apply list_elem_of_lookup in Hb as [j Hb]. destruct (decide (i = j)) as [<-|Hij].
    + rewrite list_lookup_insert_eq in Hb by done. injection Hb as <-. by destruct Hne.
    + rewrite list_lookup_insert_ne in Hb by done. exact (Forall_lookup_1 _ _ _ _ Hs Hb).
  - cbn [Z.ltb Z.compare]. wp_step. split; [done|]. exists c. split; [done|]. cbn [attr with_attr].
    rewrite <- Hset, (Hc eq_refl). replace (with_value (value a) a) with a by by destruct a. by rewrite list_insert_id.
Qed.

(** ** Messages *)

(** A report of a device's attributes. *)
Record report : Type := Report { rp_type : string; rp_model : string; rp_values : list (string * string) }.
Definition report_fields (id model : string) (kv : string * string) : list (string * string) :=
  [("DeviceId", id); ("ModelId", model); ("Key", kv.1); ("Value", kv.2)]%string.
Definition report_message (id : string) (r : report) : json :=
  message "Report" (rp_type r) (string_object <$> (report_fields id (rp_model r) <$> rp_values r)).
Record report_ok (r : report) : Prop := ReportOk {
  ro_type : rp_type r ∈ ["Attribute"; "Event"; "DevAttri"]%string;
  ro_model : no_nul (rp_model r) = true;
  ro_values : Forall (fun kv => no_nul kv.1 = true /\ no_nul kv.2 = true /\ (String.length kv.2 < 18)%nat) (rp_values r)
}.
Definition set_keys (kvs : list (string * string)) (dev : HyLinkDev) : HyLinkDev := with_attr (foldl set_key (attr dev) kvs) dev.

Lemma wp_device_id fs old id s Q : cJSON_GetObjectItem (string_object fs) "DeviceId" = Some (JString id) -> (String.length id < 33)%nat -> Q id s ->
  wp (getStrForJson (S := ali D) 33 (string_object fs) "DeviceId" old) s Q.
Proof. intros H Hl HQ. unfold getStrForJson. rewrite H. cbn [valuestring]. wp_step. wp_step. by apply wp_strcpy. Qed.

Lemma synced_online s id dev : synced s id dev -> online dev = 1.
Proof. by intros [H _]. Qed.
Lemma synced_known s id dev : synced s id dev -> hyMap s !! id = Some dev.
Proof. by intros (_ & c & H & _); destruct H. Qed.

Lemma report_item_run s id dev model kv type old : synced s id dev -> (String.length id < 33)%nat -> 3 <= type <= 5 ->
  no_nul kv.2 = true -> (String.length kv.2 < 18)%nat ->
  wp (analy_item type old (string_object (report_fields id model kv))) s (fun _ s' => synced s' id (set_keys [kv] dev)).
Proof.
  intros H Hid Ht Hn Hl. destruct kv as [k v]. unfold AliLink.analy_item. wp_step. eapply (wp_device_id _ _ id); [reflexivity|done|].
  wp_step. wp_step. rewrite (synced_known _ _ _ H). cbv zeta.
  destruct (Z.eqb_spec type 0); [lia|]. destruct (Z.eqb_spec type 1); [lia|]. destruct (Z.eqb_spec type 2); [lia|].
  destruct (Z.leb_spec 3 type); [|lia]. destruct (Z.leb_spec type 5); [|lia]. cbn [andb].
  rewrite (synced_online _ _ _ H). change (1 =? SUBDEV_OFFLINE) with false. wp_step. wp_step. wp_step.
  eapply wp_mono; [by eapply (update_run s id dev _ k v)|]. intros r s' H'. wp_step. exact H'.
Qed.

Lemma report_items_run id model type kvs : (String.length id < 33)%nat -> 3 <= type <= 5 ->
  Forall (fun kv => no_nul kv.1 = true /\ no_nul kv.2 = true /\ (String.length kv.2 < 18)%nat) kvs -> forall s dev old, synced s id dev ->
  wp (analy_items type old (string_object <$> (report_fields id model <$> kvs))) s (fun _ s' => synced s' id (set_keys kvs dev)).
Proof.
  intros Hid Ht. induction 1 as [|kv kvs (_ & Hn & Hl) Hkvs IH]; intros s dev old H; cbn [fmap list_fmap AliLink.analy_items].
  - wp_step. destruct dev. exact H.
  - wp_step. eapply wp_mono; [by eapply report_item_run|]. intros r s' H'. exact (IH _ _ _ H').
Qed.

Lemma report_root_run s id dev r : synced s id dev -> (String.length id < 33)%nat -> report_ok r ->
  wp (analy_root (report_message id r)) s (fun _ s' => synced s' id (set_keys (rp_values r) dev)).
Proof.
  intros H Hid [Ht Hm Hv]. destruct r as [type model kvs]. unfold report_message. cbn [rp_type rp_model rp_values] in *. unfold AliLink.analy_root.
  change (cJSON_GetObjectItem (message "Report" type ?l) "Command") with (Some (JString "Report")). wp_step. wp_step. apply wp_text_of.
  change (str_eq "Report" "Report") with true. wp_step.
  change (cJSON_GetObjectItem (message "Report" type ?l) "Type") with (Some (JString type)).
  change (cJSON_GetObjectItem (message "Report" type ?l) "Data") with (Some (JArray l)). cbv beta iota. cbn [valuestring children].
  assert (3 <= findStrIndex type hylink_report_type <= 5) as Ht'.
  { cbn [rp_type] in Ht. apply list_elem_of_In in Ht. by destruct Ht as [<-|[<-|[<-|[]]]]. }
  cbv zeta. destruct (Z.eqb_spec (findStrIndex type hylink_report_type) (-1)); [lia|]. destruct (Z.eqb_spec (findStrIndex type hylink_report_type) 8); [lia|].
  wp_step. eapply wp_mono; [by eapply report_items_run|]. intros u s' H'. wp_step. exact H'.
Qed.

Abbreviation recv_bytes := (recv_bytes (D := D) char_signed profile master_devid kh_keys sqlite).
Abbreviation hylinkRecv := (hylinkRecv (D := D) char_signed profile master_devid kh_keys sqlite).
Fixpoint handle_all (js : list json) : T unit :=
  match js with [] => mret tt | j :: js => _ ← analy_root j; handle_all js end.

Lemma ali_skip_text t : forall k rest s, all_chars not_stx t = true -> (k <= String.length t)%nat ->
  recv_bytes k (t +:+ rest) s = recv_bytes 0 rest s.
Proof.
  induction t as [|c t IH]; intros k rest s Ht Hk; [by destruct k; [|cbn in Hk; lia]|].
  cbn [all_chars] in Ht. apply andb_true_iff in Ht as [Hc Ht]. rewrite app_cons. cbn [AliLink.recv_bytes]. destruct k as [|k].
  - unfold not_stx in Hc. apply negb_true_iff in Hc. rewrite Hc. apply IH; [done|lia].
  - apply IH; [done|]. cbn in Hk. lia.
Qed.

Definition ali_message_ok (j : json) : Prop :=
  printable j = true /\ (nest j <= CJSON_NESTING_LIMIT)%nat /\ (2 <= String.length (cJSON_PrintUnformatted j))%nat.
Lemma ali_frames_handled js s : Forall ali_message_ok js -> hylinkRecv (frames js) s = (handle_all js ;; mret 0) s.
Proof.
  intros Hjs. unfold AliLink.hylinkRecv, mbind, M_bind. enough (recv_bytes 0 (frames js) s = handle_all js s) as -> by done. revert s.
  induction Hjs as [|j js (Hp & Hn & Hl) Hjs IH]; intros s; [done|].
  cbn [frames handle_all]. unfold frame. rewrite app_cons. cbn [AliLink.recv_bytes]. rewrite Ascii.eqb_refl.
  rewrite app_assoc_s, app_cons, nil_app. unfold hylinkRecvAnaly. rewrite c_str_no_nul.
  2:{ rewrite no_nul_app, printed_no_nul. apply frames_no_nul. }
  rewrite print_parsed_rest by done. unfold mbind, M_bind. destruct (analy_root j s) as [[r s']|e]; [|done].
  rewrite ali_skip_text; [|by apply text_not_stx, print_no_control|by destruct (r =? 0); lia]. exact (IH s').
Qed.
Lemma object_length fs : (2 <= String.length (cJSON_PrintUnformatted (JObject fs)))%nat.
Proof. unfold cJSON_PrintUnformatted. cbn [print_value String.length]. rewrite !length_app_s. cbn [String.length]. lia. Qed.
Lemma ali_text_ok command type l : no_nul command = true -> no_nul type = true -> forallb no_nul_fields l = true ->
  ali_message_ok (message command type (string_object <$> l)).
Proof.
  intros Hc Ht Hl. destruct (message_printable command type l) as [Hp Hn]; [done..|].
  split_and!; [done|etrans; [exact Hn|by apply Nat.leb_le]|apply object_length].
Qed.

(** ** Profiles *)

(** What a run that only reads gives. *)
Definition reads {A} (m : T A) (P : A -> Prop) : Prop := forall s a s', m s = Val (a, s') -> s' = s /\ P a.
Lemma reads_ret {A} (a : A) (P : A -> Prop) : P a -> reads (mret a) P.
Proof. by intros HP s b s' [= <- <-]. Qed.
Lemma reads_bind {A B} (m : T A) (k : A -> T B) P Q : reads m P -> (forall a, P a -> reads (k a) Q) -> reads (a ← m; k a) Q.
Proof.
  intros Hm Hk s b s' E. unfold mbind, M_bind in E. destruct (m s) as [[a s1]|] eqn:Em; [|done].
  apply Hm in Em as [-> Ha]. by apply (Hk a Ha).
Qed.
Lemma reads_get_or {A} f (o : option A) : reads (get_or f o) (fun _ => True).
Proof. destruct o; intros s b s' E; [by injection E as <- <-|discriminate]. Qed.
Lemma reads_int_of o : reads (int_of o) (fun _ => True).
Proof. eapply reads_bind; [apply reads_get_or|]. intros a _. by apply reads_ret. Qed.
Lemma reads_text_of o : reads (text_of o) (fun _ => True).
Proof. eapply (reads_bind _ _ (fun _ => True)); [eapply reads_bind; [apply reads_get_or|intros j _; by apply reads_ret]|]. intros t _. apply reads_get_or. Qed.
Lemma reads_strcpy n t : reads (strcpy n t) (fun u => u = t).
Proof. intros s a s'. unfold strcpy. destruct (_ <? _)%nat; [|done]. by intros [= <- <-]. Qed.
Lemma reads_member n j name : reads (member_text n j name) (fun _ => True).
Proof. eapply reads_bind; [apply reads_text_of|]. intros t _ s a s' E. by apply reads_strcpy in E as [-> _]. Qed.
Lemma reads_counted {A B} len (f : A -> T B) P l : (forall a, reads (f a) P) -> reads (counted len f l) (Forall P).
Proof.
  intros Hf. unfold counted. destruct (negb _); [done|]. induction l as [|a l IH]; [by apply reads_ret|]. cbn [for_each].
  eapply reads_bind; [apply Hf|]. intros b Hb. eapply reads_bind; [apply IH|]. intros bs Hbs. apply reads_ret. by constructor.
Qed.

Lemma fresh_value_ok t : value_ok (getHyLinkValueType t).
Proof.
  unfold getHyLinkValueType. repeat case_match; try done. split; [by destruct char_signed|done].
Qed.
Lemma reads_hy_attr j : reads (hy_attr j) (fun a => value_ok (value a)).
Proof.
  eapply reads_bind; [apply reads_member|]. intros k _. eapply reads_bind; [apply reads_int_of|]. intros t _.
  eapply reads_bind; [apply reads_int_of|]. intros r _. apply reads_ret. apply fresh_value_ok.
Qed.
Lemma hyLinkParseJson_run id text (s : ali D) dev s' : hyLinkParseJson id text s = Val (Some dev, s') ->
  s' = set_hy (<[id := dev]> (hyMap s)) s /\ devId dev = id /\ online dev = 1 /\ Forall (fun a => value_ok (value a)) (attr dev).
Proof.
  unfold hyLinkParseJson. destruct (cJSON_Parse text) as [root|]; [|done].
  destruct (cJSON_GetObjectItem root "modelId") as [m|]; [|done]. destruct (cJSON_GetObjectItem root "attr") as [a|]; [|done].
  case_bool_decide; [done|]. unfold mbind at 1, M_bind at 1. destruct (strcpy _ _ s) as [[d s1]|] eqn:Ed; [|done]. apply reads_strcpy in Ed as [-> ->].
  unfold mbind at 1, M_bind at 1. destruct (text_of _ s) as [[t s1]|] eqn:Et; [|done]. apply reads_text_of in Et as [-> _].
  unfold mbind at 1, M_bind at 1. destruct (strcpy _ t s) as [[u s1]|] eqn:Eu; [|done]. apply reads_strcpy in Eu as [-> ->].
  unfold mbind at 1, M_bind at 1. destruct (counted _ _ _ s) as [[l s1]|] eqn:El; [|done].
  apply (reads_counted _ _ _ _ reads_hy_attr) in El as [-> Hl]. cbn. by intros [= <- <-].
Qed.
Lemma reads_part {A} root name (f : json -> T A) : (forall j, reads (f j) (fun _ => True)) -> reads (optional_part char_signed root name f) (fun _ => True).
Proof.
  intros Hf. unfold optional_part. destruct (cJSON_GetObjectItem root name); [|by apply reads_ret]. case_bool_decide; [by apply reads_ret|].
  eapply reads_bind; [by apply reads_counted|]. intros. by apply reads_ret.
Qed.
Lemma reads_member_if n j name : reads (member_text_if n j name) (fun _ => True).
Proof. unfold member_text_if. destruct (has_item _ _); [apply reads_member|by apply reads_ret]. Qed.
Lemma reads_cloud_attr j : reads (cloud_attr j) (fun _ => True).
Proof.
  eapply reads_bind; [apply reads_member|]. intros k _. eapply reads_bind; [apply reads_member_if|]. intros t _.
  eapply reads_bind; [apply reads_member_if|]. intros c _. eapply reads_bind; [apply reads_int_of|]. intros v _. by apply reads_ret.
Qed.
Lemma reads_server_attr j : reads (server_attr j) (fun _ => True).
Proof. repeat (eapply reads_bind; [apply reads_member|]; intros ? _). by apply reads_ret. Qed.
Lemma reads_event_attr j : reads (event_attr char_signed j) (fun _ => True).
Proof.
  repeat (eapply reads_bind; [apply reads_member|]; intros ? _). eapply reads_bind; [apply reads_int_of|]. intros v _. by apply reads_ret.
Qed.
Lemma cloudLinkParseJson_run id text (s : ali D) c s' : cloudLinkParseJson char_signed id text s = Val (Some c, s') ->
  s' = set_cloud (<[id := c]> (cloudMap s)) s /\ device_name (alinkInfo c) = id /\ cdId c = -1.
Proof.
  unfold cloudLinkParseJson. destruct (cJSON_Parse text) as [root|]; [|done]. repeat (case_match; try done).
  unfold mbind, M_bind. intros E.
  repeat match type of E with
  | context [match text_of ?o s with _ => _ end] => let H := fresh in destruct (text_of o s) as [[? ?]|] eqn:H; [apply reads_text_of in H as [-> _]|done]
  | context [match strcpy ?n ?t s with _ => _ end] => let H := fresh in destruct (strcpy n t s) as [[? ?]|] eqn:H; [apply reads_strcpy in H as [-> ->]|done]
  end.
  destruct (counted _ _ _ s) as [[l sx]|] eqn:El; [|done]. apply (reads_counted _ _ _ _ reads_cloud_attr) in El as [-> _].
  destruct (optional_part _ _ _ server_attr s) as [[o sx]|] eqn:Eo; [|done]. apply (reads_part _ _ _ reads_server_attr) in Eo as [-> _].
  destruct o as [servers|]; [|done].
  destruct (optional_part _ _ _ _ s) as [[o sx]|] eqn:Ee; [|done]. apply (reads_part _ _ _ reads_event_attr) in Ee as [-> _].
  destruct o as [events|]; [|done]. by injection E as <- <-.
Qed.

Lemma profile_read {A} path id model (f : string -> string -> T (option A)) (s : ali D) r :
  addProfileDev profile path id model f s = Val (Some r.1, r.2) -> exists text, f id text s = Val (Some r.1, r.2).
Proof. unfold addProfileDev. destruct (profile _) as [text|]; [by exists text|done]. Qed.

(** ** A device registers *)

Definition register_message (id model : string) : json :=
  message "Report" "Register" (string_object <$> [[("DeviceId", id); ("ModelId", model)]]%string).

(** The device and its twin: those the gateway has, or, where it has neither, those
    of the profiles of the model. *)
Inductive registers (s : ali D) (id model : string) (dev : HyLinkDev) (c : CloudLinkDev) : Prop :=
| registers_again : twinned s id dev c -> registers s id model dev c
| registers_first s1 s2 : hyMap s !! id = None -> cloudMap s !! id = None ->
    addProfileDev profile HYLINK_PROFILE_PATH id model hyLinkParseJson s = Val (Some dev, s1) ->
    addProfileDev profile PROFILE_PATH id (modelId dev) (cloudLinkParseJson char_signed) s1 = Val (Some c, s2) ->
    profile_ok c (attr dev) -> (String.length model < 33)%nat -> registers s id model dev c.

(** A first registration leaves the twins behind. *)
Lemma first_twins s id model dev c s1 s2 : addProfileDev profile HYLINK_PROFILE_PATH id model hyLinkParseJson s = Val (Some dev, s1) ->
  addProfileDev profile PROFILE_PATH id (modelId dev) (cloudLinkParseJson char_signed) s1 = Val (Some c, s2) -> profile_ok c (attr dev) ->
  hyMap s1 !! id = Some dev /\ cloudMap s1 = cloudMap s /\ twinned s2 id dev c /\ online dev = 1 /\ cdId c = -1 /\ answers s2 = answers s.
Proof.
  intros H1 H2 Hp. apply (profile_read _ _ _ _ _ (dev, s1)) in H1 as [t1 H1]. apply (profile_read _ _ _ _ _ (c, s2)) in H2 as [t2 H2]. cbn [fst snd] in *.
  apply hyLinkParseJson_run in H1 as (-> & Hd & Ho & Hv). apply cloudLinkParseJson_run in H2 as (-> & Hn & Hi).
  split_and!; try done; [by cbn; rewrite lookup_insert_eq|]. constructor; try done; cbn; by rewrite lookup_insert_eq.
Qed.

Lemma with_online_same dev : online dev = 1 -> with_online 1 dev = dev.
Proof. destruct dev. cbn. by intros ->. Qed.

Lemma register_root_run s id model dev c devid r1 r2 l : registers s id model dev c -> (String.length id < 33)%nat -> cdId c <> master_devid ->
  answers s = devid :: r1 :: r2 :: l -> Forall (fun r => r <> -1) [devid; r1; r2] ->
  wp (analy_root (register_message id model)) s (fun _ s' => synced s' id (with_online 1 dev)).
Proof.
  intros H Hid Hm Ha Hr. unfold register_message, AliLink.analy_root.
  change (cJSON_GetObjectItem (message "Report" "Register" ?l) "Command") with (Some (JString "Report")). wp_step. wp_step. apply wp_text_of.
  change (str_eq "Report" "Report") with true. wp_step.
  change (cJSON_GetObjectItem (message "Report" "Register" ?l) "Type") with (Some (JString "Register")).
  change (cJSON_GetObjectItem (message "Report" "Register" ?l) "Data") with (Some (JArray l)). cbv beta iota zeta. cbn [valuestring children].
  change (findStrIndex "Register" hylink_report_type) with 0. change (0 =? -1) with false. change (0 =? 8) with false. wp_step.
  cbn [fmap list_fmap AliLink.analy_items]. wp_step. unfold AliLink.analy_item. wp_step. wp_step. eapply (wp_device_id _ _ id); [reflexivity|done|].
  wp_step. wp_step. cbv zeta. change (0 =? 0) with true. destruct H as [H|s1 s2 Hh Hc H1 H2 Hp Hl].
  - rewrite (tw_hy _ _ _ _ H). wp_step. wp_step. unfold set_online. wp_step. wp_step.
    unfold cloudSubDevLink. set (s1 := set_hy _ s).
    eapply wp_mono; [eapply (goes_online s1 id (with_online 1 dev) c devid r1 r2 l); [|done..]|].
    + destruct H as [H1 H2 H3 H4 H5 H6]. constructor; try done. cbn. by rewrite lookup_alter_eq, H1.
    + intros r s' [_ H']. wp_step. wp_step. wp_step. wp_step. exact H'.
  - destruct (first_twins _ _ _ _ _ _ _ H1 H2 Hp) as (Hd1 & Hc1 & Ht & Ho & Hi & Ha2). rewrite Hh. wp_step. wp_step.
    unfold getStrForJson. change (cJSON_GetObjectItem _ "ModelId") with (Some (JString model)). cbn [valuestring]. wp_step. wp_step.
    apply wp_strcpy; [done|]. unfold new_dev. wp_step. unfold wp at 1. rewrite H1. wp_step. unfold report_dev. wp_step. wp_step.
    rewrite (tw_id _ _ _ _ Ht), Hd1. wp_step. wp_step. wp_step. unfold cloudReport. wp_step. wp_step.
    rewrite (tw_id _ _ _ _ Ht), Hc1, Hc. wp_step. unfold wp at 1. rewrite H2. rewrite Ho. change (1 =? SUBDEV_ONLINE) with true. wp_step.
    unfold cloudSubDevLink. rewrite (tw_name _ _ _ _ Ht).
    eapply wp_mono; [eapply (goes_online s2 id dev c devid r1 r2 l Ht); [done|done|by rewrite Ha2|done]|].
    intros r s' [_ H']. repeat wp_step. rewrite with_online_same by done. exact H'.
Qed.

End twins.

(** * A device *)

(** The profiles of its model. *)
Definition profile_json (more : list (string * string)) (attrs : list (list (string * json))) : string :=
  cJSON_PrintUnformatted (JObject ((string_member <$> (("modelId", "m") :: more)%string) ++
    [(Some "attr"%string, JArray ((fun fs => JObject (prod_map Some id <$> fs)) <$> attrs))])).
Definition lamp_profiles (path : string) : option string :=
  let num n := JNumber (n, 0%nat) in
  if str_eq path "hyprofile/m.json" then Some (profile_json [] [
    [("hyKey", JString "Switch"); ("valueType", num 0); ("repeat", num 0)];
    [("hyKey", JString "Level"); ("valueType", num 1); ("repeat", num 0)]])
  else if str_eq path "aliprofile/m.json" then Some (profile_json [("productKey", "pk"); ("productSecret", "ps"); ("deviceSecret", "ds")] [
    [("hyKey", JString "Switch"); ("cloudKey", JString "PowerSwitch"); ("valueType", num 0)];
    [("hyKey", JString "Level"); ("cloudKey", JString "Brightness"); ("valueType", num 1)]])
  else None.
Definition no_sqlite (text : string) (binds : list string) (d : unit) : Z * list (list string) * unit := (0, [], d).
Definition keys_of (m : gmap string CloudLinkDev) : list string := (map_to_list m).*1.
Definition lamp (switch level : Z) (o : Z) : HyLinkDev :=
  HyDev "d1" "m" o [Attr "Switch" 0 (VEnum switch) 0; Attr "Level" 1 (VNum level) 0]%string.
Definition cloud_lamp (i : Z) : CloudLinkDev :=
  CloudDev "m" i (AlinkInfo "pk" "ps" "d1" "ds") [CloudAttr "Switch" "" "PowerSwitch"; CloudAttr "Level" "" "Brightness"]%string [] [].
Definition lamp_home (answers : list Z) : ali unit :=
  Ali {["d1"%string := lamp 0 0 0]} {["d1"%string := cloud_lamp (-1)]} 0 tt answers [].
Definition empty_home (answers : list Z) : ali unit := Ali ∅ ∅ 0 tt answers [].

Lemma lamp_profile i switch level o : profile_ok (cloud_lamp i) (attr (lamp switch level o)).
Proof.
  constructor; [|by repeat constructor|by apply (bool_decide_unpack _); vm_compute|cbn; lia].
  intros [|[|k]] [|[|j]] ca cb H1 H2; try discriminate; try done; injection H1 as <-; injection H2 as <-; discriminate.
Qed.
Lemma lamp_twinned l : twinned true (lamp_home l) "d1" (lamp 0 0 0) (cloud_lamp (-1)).
Proof. constructor; try reflexivity; [apply lamp_profile|]. repeat constructor; vm_compute; try done; by intros []. Qed.
Lemma lamp_registers_again l : registers true lamp_profiles (lamp_home l) "d1" "m" (lamp 0 0 0) (cloud_lamp (-1)).
Proof. apply registers_again, lamp_twinned. Qed.
Lemma lamp_registers_first l : registers true lamp_profiles (empty_home l) "d1" "m" (lamp 0 0 1) (cloud_lamp (-1)).
Proof.
  eapply registers_first; [reflexivity|reflexivity|vm_compute; reflexivity|vm_compute; reflexivity|apply lamp_profile|apply Nat.ltb_lt; reflexivity].
Qed.

Definition lamp_reports : list report := [Report "Attribute" "m" [("Switch", "1"); ("Level", "25")]]%string.
Lemma lamp_reports_ok : Forall report_ok lamp_reports.
Proof. repeat constructor; try reflexivity; apply Nat.ltb_lt; reflexivity. Qed.

