(* ===== verification/AliRequests.v ===== *)
(** What the cloud asks of a device and what it is told: the values of properties,
    requests to set them, and devices whose reset the cloud refuses. *)
From stdpp Require Import gmap strings pretty.
From Stdlib Require Import Ascii.
From S2P Require Import Prelude CString Json JsonText JsonProps CommonFunc HyLink HyLinkProps AliLink AliLinkProps.

Section requests.
Context {D : Type} (char_signed : bool) (profile : string -> option string) (master_devid : Z)
  (kh_keys : gmap string CloudLinkDev -> list string)
  (sqlite : string -> list string -> D -> Z * list (list string) * D).
Abbreviation T A := (M (ali D) A).

Lemma printed_is_parsed j : printable j = true -> (nest j <= CJSON_NESTING_LIMIT)%nat -> cJSON_Parse (cJSON_PrintUnformatted j) = Some j.
Proof. apply (print_parsed false). Qed.

(** * Reading properties *)

(** The value of a property, by the profile. *)
Definition property_value (dev : HyLinkDev) (c : CloudLinkDev) (key : string) : option json :=
  x ← cloud_value c dev key; value_json x.2.
Definition property_member (dev : HyLinkDev) (c : CloudLinkDev) (key : string) : option (option string * json) :=
  j ← property_value dev c key; Some (Some key, j).

Lemma cloud_value_key c dev key k v : cloud_value c dev key = Some (k, v) -> k = key.
Proof.
  unfold cloud_value. destruct (head (filter _ (cdAttr c))) as [ca|] eqn:E; [|done]. cbn.
  destruct (head (filter _ (attr dev))); [|done]. cbn. intros [= <- _].
  apply head_Some_elem_of, list_elem_of_filter in E. apply E.
Qed.

Lemma values_of_run c dev keys s : values_of (D := D) c dev (JString <$> keys) s = Val (omap (property_member dev c) keys, s).
Proof.
  induction keys as [|k keys IH]; [done|]. cbn [fmap list_fmap values_of omap list_omap]. unfold mbind, M_bind.
  assert ((if bool_decide (cdAttr c = []) then mret ""%string else text_of (Some (JString k))) s = Val (if bool_decide (cdAttr c = []) then ""%string else k, s)) as ->
    by by case_bool_decide.
  change (map JString keys) with (JString <$> keys). rewrite IH. unfold mret, M_ret. f_equal. f_equal.
  case_bool_decide as Hc.
  - assert (forall x, cloud_value c dev x = None) as Hn by (intros x; unfold cloud_value; by rewrite Hc). unfold property_member, property_value. by rewrite !Hn.
  - unfold property_member, property_value. destruct (cloud_value c dev k) as [[k' v]|] eqn:E; [|done].
    apply cloud_value_key in E as <-. by destruct v.
Qed.

Lemma index_of_found {A} (p : A -> bool) l a : a ∈ l -> p a = true -> exists b, l !! index_of p l = Some b /\ p b = true /\ b ∈ l.
Proof.
  induction l as [|x l IH]; intros Ha Hp; [by apply not_elem_of_nil in Ha|]. cbn [index_of]. destruct (p x) eqn:E.
  - exists x. split_and!; [done|done|by left].
  - apply elem_of_cons in Ha as [->|Ha]; [congruence|]. destruct (IH Ha Hp) as (b & Hb & Hpb & Hin). exists b. split_and!; [done|done|by right].
Qed.
Lemma property_shown view dev c key j : NoDup (caHyKey <$> cdAttr c) -> Forall (shown c view) (attr dev) ->
  key <> ""%string -> property_value dev c key = Some j -> view !! key = Some j.
Proof.
  intros Hc Hv Hne. unfold property_value, cloud_value. destruct (head (filter _ (cdAttr c))) as [ca|] eqn:Ec; [|done]. cbn.
  destruct (head (filter _ (attr dev))) as [a|] eqn:Ea; [|done]. cbn. intros Hj.
  apply head_Some_elem_of, list_elem_of_filter in Ec as [Hkey Hca]. apply head_Some_elem_of, list_elem_of_filter in Ea as [Hhy Ha].
  apply (proj1 (Forall_forall _ _) Hv) in Ha. unfold shown, cloud_attr_of in Ha.
  destruct (index_of_found (fun ca => str_eq (hyKey a) (caHyKey ca)) (cdAttr c) ca Hca) as (b & Hb & Hpb & Hin); [by apply bool_decide_eq_true|].
  apply bool_decide_eq_true in Hpb. rewrite Hb, Hj in Ha. replace ca with b in Hkey; [subst key; by apply Ha|].
  apply list_elem_of_lookup in Hca as [i Hi]. apply list_elem_of_lookup in Hin as [i' Hi'].
  enough (i' = i) as -> by congruence. eapply (NoDup_lookup (caHyKey <$> cdAttr c)); [done|by rewrite list_lookup_fmap, Hi'|].
  rewrite list_lookup_fmap, Hi. cbn. by rewrite <- Hhy, Hpb.
Qed.

(** What the cloud reads is what it was told: asked for the properties of a
    device that is on line, the gateway answers with the keys of the profile that
    have a value, in the order of the request, and every value is the one last
    posted. *)
Theorem properties_read_as_posted (s : ali D) id dev c keys : twinned char_signed s id dev c ->
  Forall (shown c (cloud_view (cdId c) (done s))) (attr dev) -> NoDup (caHyKey <$> cdAttr c) ->
  cloudLinkListGetBySn kh_keys (cdId c) (cloudMap s) = Some c -> Forall (fun k => no_nul k = true /\ k <> ""%string) keys ->
  exists members,
    user_property_get_event_handler kh_keys (cdId c) (cJSON_PrintUnformatted (JArray (JString <$> keys))) s =
      Val ((0, Some (cJSON_PrintUnformatted (JObject members))), s) /\
    members.*1 = Some <$> filter (fun k => is_Some (property_value dev c k)) keys /\
    Forall (fun m => exists k, m.1 = Some k /\ cloud_view (cdId c) (done s) !! k = Some m.2) members.
Proof.
  intros H Hv Hc Hsn Hk. exists (omap (property_member dev c) keys). split_and!.
  - unfold user_property_get_event_handler, mbind at 1, M_bind at 1, getS. rewrite Hsn, (tw_name _ _ _ _ _ H), (tw_hy _ _ _ _ _ H).
    rewrite printed_is_parsed.
    + change (default [] (children <$> Some (JArray (JString <$> keys)))) with (JString <$> keys). unfold mbind, M_bind. by rewrite values_of_run.
    + cbn [printable]. clear -Hk. induction Hk as [|k keys [Hk _] _ IH]; [done|]. cbn [fmap list_fmap forallb printable]. by rewrite Hk.
    + cbn [nest]. transitivity 1%nat; [|by apply Nat.leb_le]. clear. enough (foldr (fun j n => Nat.max (nest j) n) 0%nat (JString <$> keys) = 0%nat) by lia.
      induction keys as [|k keys IH]; [done|]. cbn [fmap list_fmap foldr nest]. exact IH.
  - clear. induction keys as [|k keys IH]; [done|]. cbn [omap list_omap]. rewrite filter_cons. unfold property_member at 1.
    destruct (property_value dev c k) as [j|].
    + rewrite decide_True by done. cbn. by f_equal.
    + rewrite decide_False by by intros [].  exact IH.
  - apply Forall_forall. intros m Hm. apply list_elem_of_omap in Hm as (k & Hin & Hm). unfold property_member in Hm.
    destruct (property_value dev c k) as [j|] eqn:E; [|done]. cbn in Hm. injection Hm as <-. exists k. split; [done|].
    eapply property_shown; [done..|exact (proj2 (proj1 (Forall_forall _ _) Hk k Hin))|done].
Qed.

(** * Setting properties *)

Definition requested (root : json) (c : CloudLinkDev) : list CloudLinkDevAttr :=
  filter (fun a => has_item (Some root) (cloudKey a) = true) (cdAttr c).
Definition request_value (v : json) : string := match valuestring v with Some s => s | None => text_d (int_member v) end.
Definition request_text (c : CloudLinkDev) (a : CloudLinkDevAttr) (v : json) : string :=
  cJSON_PrintUnformatted (message_of "0" "Dispatch" (if str_eq (hyType a) "" then "Ctrl" else hyType a)
    [string_object (filter (fun f => f.2 <> ""%string)
      [("DeviceId", device_name (alinkInfo c)); ("ModelId", cdModelId c); ("Key", caHyKey a); ("Value", request_value v)]%string)]).
(** What fits the arrays on the way. *)
Definition request_fits (c : CloudLinkDev) (a : CloudLinkDevAttr) (v : json) : Prop :=
  (String.length (device_name (alinkInfo c)) < 24)%nat /\ (String.length (cdModelId c) < 24)%nat /\ (String.length (hyType a) < 12)%nat /\
  (String.length (caHyKey a) < 24)%nat /\ (String.length (request_value v) < 16)%nat /\ (String.length (request_text c a v) + 2 < 2050)%nat.

Lemma strcpy_fits n t (s : ali D) : (String.length t < n)%nat -> strcpy n t s = Val (t, s).
Proof. intros H. unfold strcpy. by destruct (Nat.ltb_spec (String.length t) n); [|lia]. Qed.

(** Of the properties that a request of the cloud sets, one is passed on: the
    first of the device's profile.  The device gets one message, whatever else
    the request has, and the answer is that of this message. *)
Theorem request_sets_one_property s sn c root a others : cloudLinkListGetBySn kh_keys sn (cloudMap s) = Some c ->
  printable root = true -> (nest root <= CJSON_NESTING_LIMIT)%nat -> requested root c = a :: others ->
  exists v, cJSON_GetObjectItem root (cloudKey a) = Some v /\
    (request_fits c a v -> cloudLinkCtrl kh_keys sn (cJSON_PrintUnformatted root) s = call (D := D) (ClientWrite (frame (request_text c a v))) s).
Proof.
  intros Hsn Hp Hn Hr. assert (has_item (Some root) (cloudKey a) = true) as Ha.
  { assert (a ∈ requested root c) as Hin by (rewrite Hr; by left). apply list_elem_of_filter in Hin. apply Hin. }
  apply bool_decide_eq_true in Ha as [v Hv]. exists v. split; [exact Hv|]. intros (H1 & H2 & H3 & H4 & H5 & H6).
  unfold cloudLinkCtrl, mbind at 1, M_bind at 1, getS. rewrite Hsn, printed_is_parsed by done. cbv zeta. fold (requested root c). rewrite Hr. cbn [head].
  unfold hyCloudCtrlSend. unfold mbind, M_bind. rewrite !strcpy_fits by done. rewrite Hv. cbn [get_or]. unfold mret at 2, M_ret at 2.
  assert (forall t, (String.length t < 12)%nat -> (if str_eq t "" then mret "Ctrl"%string else strcpy (S := ali D) 12 t) s = Val (if str_eq t "" then "Ctrl"%string else t, s)) as ->
    by (intros t Ht; destruct (str_eq t ""); [done|by apply strcpy_fits]); [|done].
  rewrite strcpy_fits by done. unfold cjson_to_str. fold (request_value v). rewrite strcpy_fits by done.
  unfold hylinkSend, hylinkDispatch. cbn [Type_ DeviceId ModelId Key Value]. fold (request_text c a v).
  destruct (Nat.leb_spec 2050 (String.length (request_text c a v) + 2)); [lia|done].
Qed.

(** * Devices the cloud does not let go *)

Definition unregister_message (id : string) : json := message "Report" "UnRegister" (string_object <$> [[("DeviceId", id)]]%string).
Definition factory_message : json := message "Report" "ReFactory" [].

Lemma call_val e (s : ali D) : exists s', call e s = Val (hd 0 (answers s), s') /\ same_devs s s'.
Proof.
  unfold call, mbind, M_bind, modify, gets. cbn [answers push_done]. destruct (answers s) as [|r l]; eexists; by split.
Qed.

(** A device of the cloud that is not in the gateway's map any more. *)
Definition orphaned (s : ali D) (id : string) : Prop := is_Some (cloudMap s !! id) /\ hyMap s !! id = None.

Lemma restore_others name id s : id <> name -> orphaned s id ->
  match cloudSubDevStatus master_devid name SUBDEV_RESTORE s with Val (_, s') => orphaned s' id | Fault f => f = NullDeref end.
Proof.
  intros Hne [Hc Hh]. unfold cloudSubDevStatus, mbind at 1, M_bind at 1, getS.
  destruct (cloudMap s !! name) as [c|] eqn:Ec; [|by split]. destruct (hyMap s !! name) as [dev|] eqn:Eh; [|done].
  cbn [get_or]. unfold mbind at 1, M_bind at 1, mret at 1, M_ret at 1.
  assert (forall id0, exists r s1, linkkit_subdev_status master_devid (alinkInfo c) id0 SUBDEV_RESTORE s = Val (r, s1) /\ same_devs s s1) as HL.
  { intros id0. unfold linkkit_subdev_status. destruct (id0 =? master_devid); [by eexists _, _|].
    cbn [Z.eqb SUBDEV_RESTORE SUBDEV_OFFLINE SUBDEV_ONLINE Pos.eqb].
    destruct (call_val (DevReset (product_key (alinkInfo c)) (device_name (alinkInfo c))) s) as (s1 & Hs1 & Hd1).
    unfold mbind, M_bind. rewrite Hs1. destruct ((_ =? _) || _); [by eexists _, _|].
    destruct (call_val (Close id0) s1) as (s2 & Hs2 & Hd2). rewrite Hs2. eexists _, _. split; [done|]. by eapply same_devs_trans. }
  destruct (HL (cdId c)) as ([res id0] & s1 & Hs1 & (Hh1 & Hc1 & _)). unfold mbind, M_bind. rewrite Hs1. cbv zeta. unfold modify.
  destruct (res <? 0); cbn [Z.eqb SUBDEV_RESTORE Pos.eqb]; unfold mret, M_ret; (split; cbn [cloudMap hyMap set_cloud]; [|by rewrite Hh1]).
  - by rewrite lookup_insert_ne, Hc1.
  - by rewrite lookup_delete_ne, lookup_insert_ne, Hc1.
Qed.

Lemma restore_all_faults names id s : id ∈ names -> orphaned s id ->
  for_each (fun name => cloudSubDevStatus master_devid name SUBDEV_RESTORE) names s = Fault NullDeref.
Proof.
  revert s. induction names as [|name names IH]; intros s Hin Hl; [by apply not_elem_of_nil in Hin|].
  cbn [for_each]. unfold mbind, M_bind. destruct (decide (id = name)) as [<-|Hne].
  - destruct Hl as [[c Hc] Hh]. unfold cloudSubDevStatus, mbind, M_bind, getS. by rewrite Hc, Hh.
  - apply elem_of_cons in Hin as [->|Hin]; [done|]. pose proof (restore_others name id s Hne Hl) as HR.
    destruct (cloudSubDevStatus master_devid name SUBDEV_RESTORE s) as [[r s']|f]; [|by rewrite HR]. by rewrite (IH s').
Qed.

(** A device that is removed while the cloud refuses its reset stays in the
    cloud's map without a device, and the next reset of the gateway reads the
    missing device: the program stops. *)
Theorem refused_reset_stops_the_program (s : ali D) id dev c l : (forall m, kh_keys m ≡ₚ (map_to_list m).*1) ->
  twinned char_signed s id dev c -> (String.length id < 33)%nat -> no_nul id = true -> cdId c <> master_devid -> answers s = -1 :: l ->
  AliLink.hylinkRecv char_signed profile master_devid kh_keys sqlite (frames [unregister_message id; factory_message]) s = Fault NullDeref.
Proof.
  intros Hk H Hid Hin Hm Ha. rewrite ali_frames_handled.
  2:{ constructor; [apply ali_text_ok; [done..|]; unfold no_nul_fields; cbn [forallb fst snd]; by rewrite Hin|].
      constructor; [by apply (ali_text_ok "Report" "ReFactory" [])|constructor]. }
  unfold mbind at 1, M_bind at 1. cbn [handle_all].
  assert (exists s', AliLink.analy_root char_signed profile master_devid kh_keys sqlite (unregister_message id) s = Val (0, s') /\ orphaned s' id) as (s' & Hs' & Hl).
  { unfold unregister_message. enough (wp (AliLink.analy_root char_signed profile master_devid kh_keys sqlite (message "Report" "UnRegister" (string_object <$> [[("DeviceId", id)]]%string))) s
      (fun r s' => r = 0 /\ orphaned s' id)) as HW.
    { unfold wp in HW. destruct (AliLink.analy_root _ _ _ _ _ _ s) as [[r s']|]; [|done]. destruct HW as [-> HW]. eauto. }
    unfold AliLink.analy_root.
    change (cJSON_GetObjectItem (message "Report" "UnRegister" ?l) "Command") with (Some (JString "Report")). wp_step. wp_step. apply wp_text_of.
    change (str_eq "Report" "Report") with true. wp_step.
    change (cJSON_GetObjectItem (message "Report" "UnRegister" ?l) "Type") with (Some (JString "UnRegister")).
    change (cJSON_GetObjectItem (message "Report" "UnRegister" ?l) "Data") with (Some (JArray l)). cbv beta iota zeta. cbn [valuestring children].
    change (findStrIndex "UnRegister" hylink_report_type) with 1. change (1 =? -1) with false. change (1 =? 8) with false. wp_step.
    cbn [fmap list_fmap AliLink.analy_items]. wp_step. unfold AliLink.analy_item. wp_step. wp_step. eapply (wp_device_id _ _ id); [reflexivity|done|].
    wp_step. wp_step. rewrite (tw_hy _ _ _ _ _ H). cbv zeta. change (1 =? 0) with false. change (1 =? 1) with true. wp_step. wp_step.
    unfold cloudSubDevLink, cloudSubDevStatus. wp_step. wp_step. rewrite (tw_cloud _ _ _ _ _ H). wp_step. rewrite (tw_hy _ _ _ _ _ H). wp_step. wp_step.
    unfold linkkit_subdev_status. destruct (Z.eqb_spec (cdId c) master_devid); [done|]. cbn [Z.eqb SUBDEV_RESTORE SUBDEV_ONLINE SUBDEV_OFFLINE Pos.eqb].
    wp_step. apply wp_call. intros s1 (Hh1 & Hc1 & _) _ _. rewrite Ha. cbn [hd]. change ((-1 =? FAIL_RETURN) || (cdId c <? 0)) with true. wp_step. cbv zeta.
    wp_step. wp_step. change (-1 <? 0) with true. wp_step. wp_step. wp_step. wp_step. wp_step. split; [done|]. split; cbn.
    - rewrite lookup_insert_eq. eauto.
    - apply lookup_delete_eq. }
  unfold mbind at 1, M_bind at 1. rewrite Hs'. unfold mbind, M_bind.
  assert (AliLink.analy_root char_signed profile master_devid kh_keys sqlite factory_message s' = (_ ← systemReset master_devid kh_keys sqlite; mret (-1)) s') as -> by reflexivity.
  unfold systemReset, cloudSubDevLink, mbind, M_bind, getS. rewrite (restore_all_faults _ id s'); [done| |done].
  rewrite Hk. destruct Hl as [[c' Hc'] _]. apply list_elem_of_fmap. exists (id, c'). split; [done|]. by apply elem_of_map_to_list.
Qed.
End requests.

Definition lamp_online : ali unit :=
  Ali {["d1"%string := lamp 1 25 1]} {["d1"%string := cloud_lamp 7]} 0 tt []
    [PostProperty 7 (cJSON_PrintUnformatted (JObject [(Some "PowerSwitch"%string, JNumber (1, 0%nat))]));
     PostProperty 7 (cJSON_PrintUnformatted (JObject [(Some "Brightness"%string, JNumber (25, 0%nat))]))].
Lemma lamp_online_twinned : twinned true lamp_online "d1" (lamp 1 25 1) (cloud_lamp 7).
Proof.
  constructor; try reflexivity.
  - apply lamp_profile.
  - repeat constructor; vm_compute; try done; by intros [].
Qed.

Lemma properties_read_as_posted_witness :
  cloud_view 7 (done lamp_online) !! "Brightness"%string = Some (JNumber (25, 0%nat)) /\
  exists members,
    user_property_get_event_handler keys_of 7 (cJSON_PrintUnformatted (JArray (JString <$> ["Brightness"; "Colour"; "PowerSwitch"]%string))) lamp_online =
      Val ((0, Some (cJSON_PrintUnformatted (JObject members))), lamp_online) /\
    members.*1 = Some <$> ["Brightness"; "PowerSwitch"]%string /\
    Forall (fun m => exists k, m.1 = Some k /\ cloud_view 7 (done lamp_online) !! k = Some m.2) members.
Proof.
  split; [vm_compute; reflexivity|].
  apply (properties_read_as_posted true keys_of lamp_online "d1" (lamp 1 25 1) (cloud_lamp 7) ["Brightness"; "Colour"; "PowerSwitch"]%string).
  - exact lamp_online_twinned.
  - repeat constructor; vm_compute; reflexivity.
  - apply (bool_decide_unpack _). vm_compute. exact I.
  - vm_compute. reflexivity.
  - repeat constructor; discriminate.
Defined.

Lemma request_sets_one_property_witness :
  let root := JObject [(Some "Brightness", JNumber (3, 0%nat)); (Some "PowerSwitch", JNumber (1, 0%nat))]%string in
  let switch := CloudAttr "Switch" "" "PowerSwitch" in
  let text := request_text (cloud_lamp 7) switch (JNumber (1, 0%nat)) in
  request_fits (cloud_lamp 7) switch (JNumber (1, 0%nat)) /\
  cloudLinkCtrl keys_of 7 (cJSON_PrintUnformatted root) lamp_online = call (ClientWrite (frame text)) lamp_online.
Proof.
  intros root switch text. assert (HF : request_fits (cloud_lamp 7) switch (JNumber (1, 0%nat))) by (repeat split; apply Nat.ltb_lt; vm_compute; reflexivity).
  split; [exact HF|].
  destruct (request_sets_one_property keys_of lamp_online 7 (cloud_lamp 7) root switch [CloudAttr "Level" "" "Brightness"]%string
    ltac:(vm_compute; reflexivity) eq_refl ltac:(apply Nat.leb_le; reflexivity) ltac:(vm_compute; reflexivity)) as (v & Hv & H).
  injection Hv as <-. exact (H HF).
Defined.

Lemma keys_of_perm m : keys_of m ≡ₚ (map_to_list m).*1.
Proof. done. Qed.
Lemma refused_reset_stops_the_program_witness :
  AliLink.hylinkRecv true lamp_profiles 0 keys_of no_sqlite (frames [unregister_message "d1"; factory_message]) (lamp_home [-1]) = Fault NullDeref.
Proof.
  apply (refused_reset_stops_the_program true lamp_profiles 0 keys_of no_sqlite (lamp_home [-1]) "d1" (lamp 0 0 0) (cloud_lamp (-1)) []).
  - exact keys_of_perm.
  - exact (lamp_twinned _).
  - apply Nat.ltb_lt. reflexivity.
  - reflexivity.
  - discriminate.
  - reflexivity.
Defined.
