(* ===== verification/AliScene.v ===== *)
(** Scenes that the cloud sends to the gateway (src/alink/src/scene/scene_add.c,
    scene.c): rules in JSON, coded in base64, become commands of the scene engine
    in messages to the hylink program. *)
From stdpp Require Import gmap strings pretty.
From Stdlib Require Import Ascii.
From S2P Require Import Prelude CString Json JsonText CommonFunc HyBase64 AliDb AliLink.

Definition weekDay : list string := ["Sun"; "Mon"; "Tue"; "Wed"; "Thu"; "Fri"; "Sat"].
Definition cloudActive : list string := ["=="; ">"; "<"; "!="].
Definition localActive : list string := ["Equ"; "Gtr"; "Lss"; "Not"].

(** * strsep *)

Fixpoint has_char (c : ascii) (delim : string) : bool :=
  match delim with EmptyString => false | String d delim => Ascii.eqb c d || has_char c delim end.
Fixpoint cut (delim s : string) : string * option string :=
  match s with
  | EmptyString => (""%string, None)
  | String c s => if has_char c delim then (""%string, Some s) else let '(t, rest) := cut delim s in (String c t, rest)
  end.
(** The token, and what the pointer points at then. *)
Definition strsep (str : option string) (delim : string) : option string * option string :=
  match str with None => (None, None) | Some s => let '(t, rest) := cut delim s in (Some t, rest) end.
(** Every token that is left. *)
Fixpoint split (delim s : string) : list string :=
  match s with
  | EmptyString => [""%string]
  | String c s =>
      if has_char c delim then ""%string :: split delim s
      else match split delim s with t :: l => String c t :: l | [] => [] end
  end.
Definition tokens (delim : string) (str : option string) : list string :=
  match str with None => [] | Some s => split delim s end.

Section scene.
Context {D : Type} (sqlite : string -> list string -> D -> Z * list (list string) * D).
Abbreviation T A := (M (ali D) A).
Abbreviation fields := (list (string * string)).

Definition sceneHyDispatch (DataArray : list json) : T Z :=
  if bool_decide (DataArray = []) then mret (-1)
  else hylinkDispatch (cJSON_PrintUnformatted (message_of "00" "Dispatch" "LocalScene" DataArray)).

(** [sprintf] of a number into 8 bytes. *)
Definition sprintf8 (prefix : string) (n : Z) : T string := strcpy 8 (prefix +:+ text_d n).

(** * Conditions and actions (scene_add.c) *)

(** The size of the table in bytes is taken for its length: a type of comparison
    that is not there is looked for behind it. *)
Definition active_of (compareType : option string) : T string :=
  match compareType with
  | None => mret "Equ"%string
  | Some t => let active := findStrIndex t cloudActive in if active =? -1 then fail OutOfBounds else arr_get localActive active
  end.

(** The device's key for a property of the cloud. *)
Definition scene_key (dev : CloudLinkDev) (property : string) : option string :=
  match cdAttr dev !! index_of (fun a => str_eq property (cloudKey a)) (cdAttr dev) with
  | Some a => Some (caHyKey a)
  | None => eaHyKey <$> eventAttr dev !! index_of (fun e => str_eq property (eaKey e)) (eventAttr dev)
  end.
Definition trigger_type (hylinkDev : option HyLinkDev) (key : string) : fields :=
  match hylinkDev with
  | None => []
  | Some dev =>
      match attr dev !! index_of (fun a => str_eq (hyKey a) key) (attr dev) with
      | None => []
      | Some a => [("TriggerType", if (repeat a =? 0)%Z then "InstantOnce" else "InstantEvery")]%string
      end
  end.

Definition getSceneDevStatus (params : option json) (arrayItem : fields) : T fields :=
  compareType ← text_ptr (get_item params "compareType");
  active ← active_of compareType;
  let arrayItem := arrayItem ++ [("Active"%string, active)] in
  let propertyValue := if has_item params "propertyValue" then get_item params "propertyValue" else get_item params "compareValue" in
  deviceName ← text_of (get_item params "deviceName");
  s ← getS;
  match cloudMap s !! deviceName with
  | None => mret arrayItem
  | Some cloudLinkDev =>
      propertyName ← (if bool_decide (cdAttr cloudLinkDev = [] /\ eventAttr cloudLinkDev = []) then mret ""%string
                      else text_of (get_item params "propertyName"));
      match scene_key cloudLinkDev propertyName with
      | None => mret arrayItem
      | Some hyKey =>
          v ← get_or NullDeref propertyValue;
          strBuf ← cjson_to_str 8 v;
          mret (arrayItem ++ trigger_type (hyMap s !! deviceName) hyKey ++
                [("KeyCoding", "Original"); ("ActionId", "0"); ("DevId", deviceName); ("Key", hyKey); ("Value", strBuf)]%string)
      end
  end.

Definition next_key (prefix : string) : T string :=
  s ← getS;
  modify (set_time_key (time_key s + 1)) ;;
  sprintf8 prefix (time_key s).

Fixpoint add_days (days : list string) (weekBuf : string) : T string :=
  match days with
  | [] => mret weekBuf
  | d :: days =>
      day ← arr_get weekDay (s32 (atoi d));
      weekBuf ← strcpy 33 (weekBuf +:+ (if str_eq weekBuf "" then "" else ",") +:+ day);
      add_days days weekBuf
  end.

Definition cron_fields (cron : string) (arrayItem : fields) : T fields :=
  let delim := " ,"%string in
  let '(minu, timeStr) := strsep (Some cron) delim in
  let '(hour, timeStr) := strsep timeStr delim in
  let '(_, timeStr) := strsep timeStr delim in
  let '(month, timeStr) := strsep timeStr delim in
  let arrayItem := add_text (add_text (add_text (add_text arrayItem "StartMinu" minu) "EndMinu" minu) "StartHour" hour) "EndHour" hour in
  token ← get_or NullDeref month;
  weekBuf ← add_days (tokens delim timeStr) "";
  mret (arrayItem ++ [("Repeat", if str_eq "*" token then "1" else "0"); ("Week", weekBuf)]%string).

Definition add_trigger (localSceneId : option string) (triggersItemsSub : json) : T json :=
  let arrayItem := add_text [("Op", "AddCond")]%string "Id" localSceneId ++ [("Logic", "Or")]%string in
  let params := cJSON_GetObjectItem triggersItemsSub "params" in
  arrayItem ← (if has_item params "cron" then
      key ← next_key "Or_";
      cron ← text_of (get_item params "cron");
      cron_fields cron (arrayItem ++ [("CondType", "Time"); ("TimeKey", key)]%string)
    else if has_item params "deviceName" then getSceneDevStatus params (arrayItem ++ [("CondType", "Event")]%string)
    else mret arrayItem);
  mret (string_object arrayItem).

(** What follows the array of a part of a rule. *)
Definition elements (items : option json) : list json := default [] (children <$> items).
Definition addtriggers (localSceneId : option string) (triggersItems : option json) : T Z :=
  modify (set_time_key 0) ;;
  if bool_decide (elements triggersItems = []) then mret 0 else
  l ← for_each (add_trigger localSceneId) (elements triggersItems);
  sceneHyDispatch l.

Definition period_fields (startTime endTime : string) (arrayItem : fields) : T fields :=
  let '(startHour, r) := strsep (Some startTime) ":" in
  let '(startMinu, _) := strsep r ":" in
  let '(endHour, r) := strsep (Some endTime) ":" in
  let '(endMinu, _) := strsep r ":" in
  mret (add_text (add_text (add_text (add_text arrayItem "StartHour" startHour) "StartMinu" startMinu) "EndHour" endHour) "EndMinu" endMinu).
Definition add_condition (localSceneId : option string) (conditionsItemsSub : json) : T json :=
  let arrayItem := add_text [("Op", "AddCond")]%string "Id" localSceneId ++ [("Logic", "And")]%string in
  let params := cJSON_GetObjectItem conditionsItemsSub "params" in
  arrayItem ← (if has_item params "startTime" then
      key ← next_key "And_";
      startTime ← text_of (get_item params "startTime");
      endTime ← text_of (get_item params "endTime");
      period_fields startTime endTime (arrayItem ++ [("CondType", "Time"); ("TimeKey", key)]%string)
    else if has_item params "deviceName" then getSceneDevStatus params (arrayItem ++ [("CondType", "Event")]%string)
    else mret arrayItem);
  mret (string_object arrayItem).
Definition addconditions (localSceneId : option string) (conditionsItems : option json) : T Z :=
  modify (set_time_key 0) ;;
  if bool_decide (elements conditionsItems = []) then mret 0 else
  l ← for_each (add_condition localSceneId) (elements conditionsItems);
  sceneHyDispatch l.

(** An action that executes another scene. *)
Definition addActionsForSceneId (src_scene_id : option string) (rule_id : string) : T Z :=
  let json := cJSON_PrintUnformatted (string_object [("SceneId", rule_id); ("Enable", "1")]%string) in
  _ ← sceneHyDispatch [string_object (add_text [("Op", "AddAction")]%string "Id" src_scene_id ++
    [("KeyCoding", "Original"); ("ActionId", rule_id); ("DevId", STR_GATEWAY_DEVID); ("Key", "SceneId"); ("Value", json)]%string)];
  mret 0.
Definition add_action (localSceneId : option string) (actionsSub : json) : T (option json) :=
  let params := cJSON_GetObjectItem actionsSub "params" in
  if has_item params "sceneId" then
    sceneId ← text_of (get_item params "sceneId");
    rows ← db (table0_select sqlite sceneId);
    _ ← for_each (fun row => addActionsForSceneId localSceneId (nth 0 row ""%string)) rows;
    mret None
  else
    arrayItem ← getSceneDevStatus params (add_text [("Op", "AddAction")]%string "Id" localSceneId);
    mret (Some (string_object arrayItem)).

(** [i]: actions done; [dispatchNum]: those of the messages up to the last. *)
Fixpoint action_batches (fuel : nat) (localSceneId : option string) (actions : list json) (i dispatchNum : nat) : T unit :=
  match fuel with
  | O => fail OutOfFuel
  | S fuel =>
      let dispatchNum := if (dispatchNum + 10 <? length actions)%nat then (dispatchNum + 10)%nat else length actions in
      l ← for_each (add_action localSceneId) (take (dispatchNum - i) (drop i actions));
      _ ← sceneHyDispatch (omap (fun a => a) l);
      if (dispatchNum <? length actions)%nat then action_batches fuel localSceneId actions dispatchNum dispatchNum else mret tt
  end.
Definition addActions (localSceneId : option string) (actions : option json) : T Z :=
  let l := elements actions in
  if bool_decide (l = []) then mret 0 else
  action_batches (length l) localSceneId l 0 0 ;; mret 0.

(** * Rules (scene.c) *)

Definition delete_single_scene (ruleId : option string) : T Z :=
  sceneHyDispatch [string_object (add_text [("Op", "DelScene")]%string "Id" ruleId)].

Definition del_rule (ruleId : json) : T Z :=
  res ← delete_single_scene (valuestring ruleId);
  (if 0 <=? res then id ← get_or NullDeref (valuestring ruleId); _ ← db (table0_delete sqlite id); mret tt else mret tt) ;;
  mret res.
Fixpoint del_rules (ruleIds : list json) (res : Z) : T Z :=
  match ruleIds with [] => mret res | j :: ruleIds => res ← del_rule j; del_rules ruleIds res end.
Definition delScene (ruleIds : option json) : T Z :=
  j ← get_or NullDeref ruleIds;
  match j with JArray l => del_rules l 0 | _ => del_rule j end.

Definition triggerScene (ruleIds : json) : T Z :=
  if bool_decide (children ruleIds = []) then mret 0 else
  sceneHyDispatch ((fun sub => string_object (add_text [("Op", "ExecScene")]%string "Id" (valuestring sub) ++ [("Enable", "1")]%string)) <$> children ruleIds).

Definition delay_time (additions : option json) : T Z :=
  match elements additions with
  | [] => mret 0
  | sub :: _ =>
      match cJSON_GetObjectItem sub "params" with
      | None => mret 0
      | Some params => int_of (cJSON_GetObjectItem params "delayTime")
      end
  end.
Definition addScene (sceneId : option string) (rules : json) (isUpdate : bool) : T Z :=
  let item name := cJSON_GetObjectItem rules name in
  delayTime ← delay_time (item "additions"%string);
  (if isUpdate then _ ← delScene (item "ruleId"%string); mret tt else mret tt) ;;
  ruleId ← text_ptr (item "ruleId"%string);
  enable ← int_of (item "enable"%string);
  e ← sprintf8 "" enable;
  d ← sprintf8 "" delayTime;
  res ← sceneHyDispatch [string_object (add_text [("Op", "AddScene")]%string "Id" ruleId ++ [("Enable", e); ("ExecDelayed", d)]%string)];
  (if 0 <=? res then
     r ← get_or NullDeref ruleId; i ← get_or NullDeref sceneId;
     _ ← db (table0_insert sqlite r i); mret tt
   else mret tt) ;;
  _ ← addtriggers ruleId (get_item (item "triggers"%string) "items");
  _ ← addconditions ruleId (get_item (item "conditions"%string) "items");
  _ ← addActions ruleId (item "actions"%string);
  mret 0.

(** No result when the kind of operation is unknown. *)
Fixpoint add_rules (operationType sceneId : json) (rules : list json) (res : Z) : T (option Z) :=
  match rules with
  | [] => mret (Some res)
  | r :: rules =>
      op ← text_of (Some operationType);
      if str_eq "createScene" op then res ← addScene (valuestring sceneId) r false; add_rules operationType sceneId rules res
      else if str_eq "updateScene" op then res ← addScene (valuestring sceneId) r true; add_rules operationType sceneId rules res
      else mret None
  end.

(** The result, and the answer to the cloud. *)
Definition scene_request (root : json) : T (Z * option string) :=
  let item name := cJSON_GetObjectItem root name in
  match item "operationType"%string, item "sceneId"%string with
  | Some operationType, Some sceneId =>
      res ← add_rules operationType sceneId (elements (item "rules"%string)) 0;
      match res with
      | None => mret (-1, None)
      | Some res =>
          res ← match item "ruleIds"%string with
            | None => mret res
            | Some ruleIds => op ← text_of (Some operationType); if str_eq "deleteScene" op then delScene (Some ruleIds) else mret res
            end;
          res ← match item "ruleId"%string with
            | None => mret res
            | Some ruleId => op ← text_of (Some operationType); if str_eq "fire" op then triggerScene ruleId else mret res
            end;
          mret (res, Some (cJSON_PrintUnformatted (JObject
            ([(Some "code"%string, JNumber (if res <? 0 then 400 else 200, 0%nat))] ++ (string_member <$> add_text [] "data" (valuestring sceneId)) ++
             [(Some "message"%string, JString "successed")]))))
      end
  | _, _ => mret (-1, None)
  end.
Definition sceneDispatch (str : string) : T (Z * option string) :=
  match cJSON_Parse str with
  | Some (JObject fs) => scene_request (JObject fs)
  | _ => mret (-1, None)
  end.

(** The answer of the last request is given. *)
Fixpoint local_requests (root : json) (ns : list Z) (response : option string) : T (option string) :=
  match ns with
  | [] => mret response
  | n :: ns =>
      match cJSON_GetObjectItem root ("Request_" +:+ text_d n) with
      | None => local_requests root ns response
      | Some sceneRequest =>
          t ← text_of (Some sceneRequest);
          if str_eq t "" then local_requests root ns response else
          '(_, r) ← sceneDispatch (c_str (decoded t));
          local_requests root ns (match r with Some r => Some r | None => response end)
      end
  end.
Definition localScene (request : string) : T (Z * option string) :=
  match cJSON_Parse request with
  | Some (JObject fs) =>
      if has_item (Some (JObject fs)) "Type" then
        r ← local_requests (JObject fs) (Z.of_nat <$> seq 1 9) None;
        mret (0, r)
      else mret (-1, None)
  | _ => mret (-1, None)
  end.
End scene.
