(* ===== verification/AliGroup.v ===== *)
(** Services that the cloud asks of the gateway: groups of switches that are kept
    alike (src/alink/src/scene/more_control.c), and the services of devices
    (src/alink/src/cloudlink/cloudLinkCtrl.c). *)
From stdpp Require Import gmap strings pretty.
From Stdlib Require Import Ascii.
From S2P Require Import Prelude CString Json JsonText CommonFunc HyBase64 AliDb AliLink AliScene.

Section group.
Context {D : Type} (sqlite : string -> list string -> D -> Z * list (list string) * D)
  (kh_keys : gmap string CloudLinkDev -> list string).
Abbreviation T A := (M (ali D) A).

(** * The scene of a group *)

Definition more_control_add_scene (localSceneId : string) : T Z :=
  sceneHyDispatch [string_object [("Op", "AddScene"); ("Id", localSceneId); ("Enable", "1"); ("ExecDelayed", "0")]%string].

(** The condition that a switch of the group makes; none for a switch that the
    cloud's devices do not have. *)
Definition switch_trigger (localSceneId : string) (triggersItemsSub : json) : T (option json) :=
  deviceName ← text_of (cJSON_GetObjectItem triggersItemsSub "deviceName");
  s ← getS;
  match cloudMap s !! deviceName with
  | None => mret None
  | Some cloudLinkDev =>
      SwitchLoop ← (if bool_decide (cdAttr cloudLinkDev = []) then mret ""%string else text_of (cJSON_GetObjectItem triggersItemsSub "SwitchLoop"));
      mret (match cdAttr cloudLinkDev !! index_of (fun a => str_eq SwitchLoop (cloudKey a)) (cdAttr cloudLinkDev) with
            | None => None
            | Some a => Some (string_object [("Op", "AddCond"); ("Id", localSceneId); ("Logic", "Or"); ("CondType", "Event");
                ("TriggerType", "StateSync"); ("Active", "Equ"); ("KeyCoding", "Original"); ("DevId", deviceName); ("Key", caHyKey a);
                ("Value", "0"); ("ContinueTime", "0")]%string)
            end)
  end.
Fixpoint switch_triggers (localSceneId : string) (l : list json) : T (option (list json)) :=
  match l with
  | [] => mret (Some [])
  | sub :: l =>
      t ← switch_trigger localSceneId sub;
      match t with
      | None => mret None
      | Some j => r ← switch_triggers localSceneId l; mret (cons j <$> r)
      end
  end.
Definition more_control_add_triggers (localSceneId : string) (triggersItems : option json) : T Z :=
  if bool_decide (elements triggersItems = []) then mret 0 else
  _ ← more_control_add_scene localSceneId;
  r ← switch_triggers localSceneId (elements triggersItems);
  match r with None => mret (-1) | Some l => sceneHyDispatch l end.

(** * Reports *)

Definition MAX_TEXT_LEN : nat := 2000.
(** The text in [n] parts from part [i], [addr] the place in it. *)
Fixpoint report_parts (n : nat) (i : Z) (report : string) (addr : nat) : T (list (string * string)) :=
  match n with
  | O => mret []
  | S n =>
      let name := ("switchBindReport" +:+ text_d i)%string in
      let len := String.length report in
      if (MAX_TEXT_LEN <? len)%nat then
        if (len <? addr)%nat then fail OutOfBounds else
        l ← report_parts n (i + 1) report (addr + MAX_TEXT_LEN);
        mret ((name, str_take MAX_TEXT_LEN (str_drop addr report)) :: l)
      else if (len =? addr)%nat then l ← report_parts n (i + 1) report addr; mret ((name, ""%string) :: l)
      else l ← report_parts n (i + 1) report len; mret ((name, str_drop addr report) :: l)
  end.
Definition more_control_report (report resp_report : string) : T Z :=
  l ← report_parts 6 0 report 0;
  _ ← user_post_event "SwitchBindReport" (Some (cJSON_PrintUnformatted (string_object (l ++ [("switchBindReport"%string, resp_report)]))));
  mret 0.

Definition group_select_cb (row : list string) : json :=
  string_object [("productKey", nth 1 row ""); ("deviceName", nth 2 row ""); ("SwitchLoop", nth 3 row "")]%string.
Definition group_name_select_cb (row : list string) : T json :=
  rows ← db (table1_select sqlite (Some (nth 0 row ""%string)));
  mret (JObject ((string_member <$> [("GroupId", nth 0 row ""); ("Enable", "1"); ("GroupName", nth 1 row "")]%string) ++
    [(Some "ListData"%string, JArray (group_select_cb <$> rows))])).
Definition group_list (group_id : option string) : T (list json) :=
  rows ← db (table2_select sqlite group_id); for_each group_name_select_cb rows.

Definition response_control (group_id : option string) (bindSwitch : string) : T Z :=
  match group_id with
  | None => mret (-1)
  | Some group_id =>
      BindSwitch ← (if str_eq "AddBindSwitch" bindSwitch || str_eq "ModifyBindSwitch" bindSwitch then group_list (Some group_id)
        else if str_eq "QueryBindSwitch" bindSwitch then group_list (if str_eq group_id "" then None else Some group_id)
        else if str_eq "DeleteBindSwitch" bindSwitch then mret [JString group_id]
        else mret []);
      let code := [(Some "code"%string, JNumber (200, 0%nat)); string_member ("message", "ok")%string] in
      let json := cJSON_PrintUnformatted (JObject (code ++ [(Some bindSwitch, JArray BindSwitch)])) in
      let json := if str_eq "QueryBindSwitch" bindSwitch then encoded json else json in
      more_control_report json (cJSON_PrintUnformatted (JObject (code ++ [string_member (bindSwitch, ""%string)])))
  end.

(** * Requests about groups *)

(** A switch of the group. *)
Definition insert_switch (GroupId : string) (array_sub : json) : T unit :=
  p ← text_of (cJSON_GetObjectItem array_sub "productKey");
  d ← text_of (cJSON_GetObjectItem array_sub "deviceName");
  l ← text_of (cJSON_GetObjectItem array_sub "SwitchLoop");
  _ ← db (table1_insert sqlite GroupId p d l);
  mret tt.
Definition add_mod_more_control (serviceid request : string) : T Z :=
  match cJSON_Parse request with
  | Some (JObject fs) =>
      let root := JObject fs in
      match cJSON_GetObjectItem root "GroupId" with
      | None => mret (-1)
      | Some GroupId =>
          g ← text_of (Some GroupId);
          _ ← db (table1_delete sqlite g);
          _ ← db (table2_delete sqlite g);
          _ ← delete_single_scene (Some g);
          match cJSON_GetObjectItem root "GroupName", cJSON_GetObjectItem root "ListData" with
          | Some GroupName, Some ListData =>
              _ ← for_each (insert_switch g) (children ListData);
              n ← text_of (Some GroupName);
              _ ← db (table2_insert sqlite g n);
              _ ← more_control_add_triggers g (Some ListData);
              response_control (Some g) serviceid
          | _, _ => mret (-1)
          end
      end
  | _ => mret (-1)
  end.
Definition query_more_control (request : string) : T Z :=
  match cJSON_Parse request with
  | Some (JObject fs) =>
      match cJSON_GetObjectItem (JObject fs) "GroupId" with
      | None => mret (-1)
      | Some GroupId => response_control (valuestring GroupId) "QueryBindSwitch"
      end
  | _ => mret (-1)
  end.
Definition delete_more_control (request : string) : T Z :=
  match cJSON_Parse request with
  | Some (JObject fs) =>
      match cJSON_GetObjectItem (JObject fs) "GroupId" with
      | None => mret (-1)
      | Some GroupId =>
          g ← text_of (Some GroupId);
          _ ← db (table1_delete sqlite g);
          _ ← db (table2_delete sqlite g);
          response_control (Some g) "DeleteBindSwitch"
      end
  | _ => mret (-1)
  end.

(** * Services (cloudLinkCtrl.c) *)

(** [strncmp] over the length of the service's name: a prefix is enough. *)
Definition is_service (serviceid name : string) : bool := String.prefix serviceid name.

(** The product whose pages are named by a number from 1. *)
Definition PANEL_PRODUCT : string := "a1aqqjEXCWa".
Definition service_key (a : CloudLinkServerAttr) (panel : bool) (key : option json) : T string :=
  k ← strcpy 24 (saHyKey a);
  if panel then
    key ← get_or NullDeref key;
    strcpy 24 (k +:+ text_d (s32 (int_member key - 1)))
  else match key with
  | None => mret k
  | Some key => buf ← cjson_to_str 24 key; strcpy 24 (k +:+ buf)
  end.
(** What [base64_decode] says it has decoded, as a text. *)
Definition decoded_text (t : string) : string :=
  let '(n, bytes) := base64_decode (Base64.codes t) in c_str (text_of_codes (take (Z.to_nat n) bytes)).
Definition service_value (serviceid : string) (panel : bool) (cloud_value : option json) : T string :=
  if panel && is_service serviceid "WordsCfg" then
    v ← get_or NullDeref cloud_value; buf ← cjson_to_str 24 v; strcpy 16 (decoded_text buf)
  else if panel && negb (is_service serviceid "PictureCfg") then mret ""%string
  else v ← get_or NullDeref cloud_value; cjson_to_str 16 v.

Definition device_service (devid : Z) (serviceid request : string) : T Z :=
  match cJSON_Parse request with
  | Some (JObject fs) =>
      let root := JObject fs in
      s ← getS;
      match cloudLinkListGetBySn kh_keys devid (cloudMap s) with
      | None => mret (-1)
      | Some dev =>
          match serverAttr dev !! index_of (fun a => is_service serviceid (serverId a)) (serverAttr dev) with
          | None => mret (-1)
          | Some a =>
              d ← strcpy 24 (device_name (alinkInfo dev));
              m ← strcpy 24 (cdModelId dev);
              let panel := str_eq (product_key (alinkInfo dev)) PANEL_PRODUCT in
              k ← service_key a panel (cJSON_GetObjectItem root (saKey a));
              v ← service_value serviceid panel (cJSON_GetObjectItem root (saValue a));
              hylinkSend (DevSend "Ctrl" d m k v)
          end
      end
  | _ => mret (-1)
  end.

(** The result, and the answer if there is one. *)
Definition cloudLinkServicCtrl (devid : Z) (serviceid request : string) : T (Z * option string) :=
  let only (m : T Z) : T (Z * option string) := r ← m; mret (r, None) in
  if is_service serviceid "TriggerGatewayService" then localScene sqlite request
  else if is_service serviceid "AddBindSwitch" || is_service serviceid "ModifyBindSwitch" then only (add_mod_more_control serviceid request)
  else if is_service serviceid "QueryBindSwitch" then only (query_more_control request)
  else if is_service serviceid "DeleteBindSwitch" then only (delete_more_control request)
  else only (device_service devid serviceid request).
End group.
