(* ===== verification/AliSceneProps.v ===== *)
(** What becomes of the scenes of the cloud: rules in base64, times that the scene
    engine understands or refuses, actions in messages of ten, and the table of
    rules. *)
From stdpp Require Import gmap strings pretty.
From Stdlib Require Import Ascii.
From S2P Require Import Prelude Heap CString SceneCond SceneSync SceneData SceneList Json JsonText JsonProps CommonFunc SceneCmd HyBase64 AliDb AliLink AliLinkProps AliRequests AliScene.

(** * Tokens *)

Definition free_of (delim t : string) : bool := all_chars (fun c => negb (has_char c delim)) t.
Lemma cut_free delim t c rest : free_of delim t = true -> has_char c delim = true -> cut delim (t +:+ String c rest) = (t, Some rest).
Proof.
  intros Ht Hc. induction t as [|x t IH]; cbn [free_of all_chars] in *; [rewrite nil_app; cbn [cut]; by rewrite Hc|].
  apply andb_true_iff in Ht as [Hx Ht]. apply negb_true_iff in Hx. rewrite app_cons. cbn [cut]. by rewrite Hx, IH.
Qed.
Lemma split_free delim t : free_of delim t = true -> split delim t = [t].
Proof.
  induction t as [|x t IH]; intros Ht; [done|]. cbn [split free_of all_chars] in *.
  apply andb_true_iff in Ht as [Hx Ht]. apply negb_true_iff in Hx. by rewrite Hx, IH.
Qed.
Lemma split_step delim t c rest : free_of delim t = true -> has_char c delim = true -> split delim (t +:+ String c rest) = t :: split delim rest.
Proof.
  intros Ht Hc. induction t as [|x t IH]; cbn [free_of all_chars] in *; [rewrite nil_app; cbn [split]; by rewrite Hc|].
  apply andb_true_iff in Ht as [Hx Ht]. apply negb_true_iff in Hx. rewrite app_cons. cbn [split]. by rewrite Hx, IH.
Qed.
(** [split] gives the tokens that [strsep] gives one after another. *)
Lemma strsep_split delim s : split delim s = match strsep (Some s) delim with (Some t, rest) => t :: AliScene.tokens delim rest | _ => [] end.
Proof.
  unfold strsep. induction s as [|c s IH]; [done|]. cbn [split cut]. destruct (has_char c delim); [done|].
  rewrite IH. by destruct (cut delim s) as [t [r|]].
Qed.
Lemma split_concat delim c toks : has_char c delim = true -> Forall (fun t => free_of delim t = true) toks -> toks <> [] ->
  split delim (String.concat (String c "") toks) = toks.
Proof.
  intros Hc Ht Hn. induction Ht as [|t toks Ht Hts IH]; [done|]. destruct toks as [|t2 toks]; [by apply split_free|].
  change (String.concat (String c "") (t :: t2 :: toks)) with (t +:+ String c (String.concat (String c "") (t2 :: toks)))%string.
  rewrite split_step by done. f_equal. by apply IH.
Qed.

(** The engine's cut at commas. *)
Lemma tokens_from_app a d cur : tokens_from (a +:+ String (chr 44) d) cur = tokens_from a cur ++ CString.tokens d.
Proof.
  revert cur. induction a as [|c a IH]; intros cur; [done|]. rewrite app_cons. cbn [tokens_from].
  destruct (char_code c =? 44); [|apply IH]. by rewrite IH, app_assoc.
Qed.

Definition day_name (d : Z) : string := nth (Z.to_nat d) weekDay ""%string.
Lemma day_cases d : 0 <= d <= 6 -> d = 0 \/ d = 1 \/ d = 2 \/ d = 3 \/ d = 4 \/ d = 5 \/ d = 6.
Proof. lia. Qed.
Ltac days := match goal with H : 0 <= ?d <= 6 |- _ => destruct (day_cases d H) as [->|[->|[->|[->|[->|[->| ->]]]]]] end.
Lemma day_name_index d : 0 <= d <= 6 -> week_index apcWeek 0 (day_name d) = d.
Proof. intros H. by days. Qed.
Lemma day_name_tokens d : 0 <= d <= 6 -> CString.tokens (day_name d) = [day_name d].
Proof. intros H. by days. Qed.

Section scenes.
Context {D : Type}.
Abbreviation T A := (M (ali D) A).

Lemma add_days_run toks s : Forall (fun d => 0 <= s32 (atoi d) <= 6) toks -> forall b, (String.length b + 4 * length toks <= 32)%nat ->
  exists week, add_days (D := D) toks b s = Val (week, s) /\ CString.tokens week = CString.tokens b ++ (day_name <$> ((fun d => s32 (atoi d)) <$> toks)) /\
    (String.length week <= String.length b + 4 * length toks)%nat.
Proof.
  induction 1 as [|d toks Hd _ IH]; intros b Hb; cbn [add_days].
  - exists b. rewrite app_nil_r. split_and!; [done|done|lia].
  - set (b' := (b +:+ (if str_eq b "" then "" else ",") +:+ day_name (s32 (atoi d)))%string).
    assert (Hday : String.length (day_name (s32 (atoi d))) = 3%nat) by by days.
    assert (Hb' : (String.length b' <= String.length b + 4)%nat).
    { unfold b'. rewrite !length_app_s, Hday. destruct (str_eq b ""); cbn [String.length]; lia. }
    cbn [length] in Hb. destruct (IH b' ltac:(lia)) as (week & Hw & Ht & Hl). exists week. split_and!.
    + unfold mbind, M_bind. assert (arr_get (S := ali D) weekDay (s32 (atoi d)) s = Val (day_name (s32 (atoi d)), s)) as -> by by days.
      fold b'. unfold strcpy. destruct (Nat.ltb_spec (String.length b') 33); [exact Hw|lia].
    + rewrite Ht. set (l := day_name <$> _). change (day_name <$> ((fun d => s32 (atoi d)) <$> (d :: toks))) with ([day_name (s32 (atoi d))] ++ l).
      rewrite app_assoc. f_equal. rewrite <- (day_name_tokens (s32 (atoi d))) by done. unfold b', str_eq. case_bool_decide as E.
      * rewrite E. by rewrite !nil_app.
      * change (("," +:+ day_name (s32 (atoi d))))%string with (String (chr 44) (day_name (s32 (atoi d)))). apply tokens_from_app.
    + cbn [length]. lia.
Qed.

(** * Times *)

Definition cron_text (minu hour day month : string) (toks : list string) : string :=
  minu +:+ " " +:+ hour +:+ " " +:+ day +:+ " " +:+ month +:+ " " +:+ String.concat "," toks.
Record cron_ok (minu hour day month : string) (toks : list string) : Prop := CronOk {
  co_free : Forall (fun t => free_of " ," t = true) ([minu; hour; day; month] ++ toks);
  co_minu : (String.length minu <= 8)%nat;
  co_hour : (String.length hour <= 8)%nat;
  co_clock : 0 <= atoi minu < 60;
  co_days : Forall (fun d => 0 <= s32 (atoi d) <= 6) toks;
  co_some : toks <> [];
  co_few : (length toks <= 8)%nat
}.

Lemma cron_fields_run minu hour day month toks item s : cron_ok minu hour day month toks ->
  exists week, cron_fields (D := D) (cron_text minu hour day month toks) item s =
      Val (item ++ [("StartMinu", minu); ("EndMinu", minu); ("StartHour", hour); ("EndHour", hour);
        ("Repeat", if str_eq "*" month then "1" else "0"); ("Week", week)]%string, s) /\
    CString.tokens week = day_name <$> ((fun d => s32 (atoi d)) <$> toks) /\ (String.length week <= 32)%nat.
Proof.
  intros [Hf Hm Hh Hc Hd Hs Hl]. destruct (add_days_run toks s Hd ""%string ltac:(cbn; lia)) as (week & Hw & Ht & Hlen).
  exists week. split_and!; [|done|cbn in Hlen; lia].
  rewrite Forall_app, !Forall_cons in Hf. destruct Hf as ((Hf1 & Hf2 & Hf3 & Hf4 & _) & Hft).
  unfold cron_fields, cron_text, strsep. cbv zeta.
  assert (Hcut : forall t rest, free_of " ," t = true -> cut " ," (t +:+ " " +:+ rest) = (t, Some rest)).
  { intros t rest Hft'. change (" " +:+ rest)%string with (String " " rest). by apply cut_free. }
  rewrite !Hcut by done. cbn [add_text]. cbn [AliScene.tokens].
  change ","%string with (String "," ""). rewrite split_concat by done. unfold mbind, M_bind. cbn [get_or]. unfold mret at 1, M_ret at 1. rewrite Hw.
  unfold mret, M_ret. by rewrite <- !app_assoc.
Qed.

(** The engine's reading of a time. *)
Lemma time_cond_read item key sh sm eh em week rep k h :
  cJSON_GetObjectItem item "TriggerType" = None -> cJSON_GetObjectItem item "TriggerInterval" = None ->
  Forall (fun f => cJSON_GetObjectItem item f.1 = Some (JString f.2))
    [("TimeKey", key); ("StartHour", sh); ("StartMinu", sm); ("EndHour", eh); ("EndMinu", em); ("Week", week); ("Repeat", rep)]%string ->
  Forall (fun t => (String.length t <= 8)%nat) [sh; sm; eh; em; rep] -> (String.length week <= 64)%nat -> (String.length key <= KEY_MAX_LEN)%nat ->
  command_time_cond item k h = k (TimeCond key "InstantOnce" "1" 0 sh sm eh em week rep "0") h.
Proof.
  intros Htt Hti Hf Hlen Hweek Hkey. rewrite !Forall_cons in Hf. rewrite !Forall_cons in Hlen. destruct Hf as (H1 & H2 & H3 & H4 & H5 & H6 & H7 & _).
  destruct Hlen as (L1 & L2 & L3 & L4 & L5 & _). cbn [fst snd] in *.
  assert (HT : forall name n old v, cJSON_GetObjectItem item name = Some (JString v) -> (String.length v <= n)%nat -> value_text name n old item = Some v).
  { intros name n old v Hv Hn. unfold value_text, JSON_value_get. rewrite Hv. f_equal. by apply str_take_short. }
  assert (HR : forall name n size room, cJSON_GetObjectItem item name = None -> read_member name n size room item h = Val (None, h)).
  { intros name n size room Hv. unfold read_member, JSON_value_get. by rewrite Hv. }
  unfold command_time_cond, text. rewrite (HT _ _ _ _ H1 Hkey). cbn [need]. unfold mbind, M_bind. rewrite !HR by done.
  rewrite (HT _ _ _ _ H1 Hkey). cbn [need]. rewrite (HT _ _ _ _ H2 L1). cbn [need]. rewrite (HT _ _ _ _ H3 L2). cbn [need].
  rewrite (HT _ _ _ _ H4 L3). cbn [need]. rewrite (HT _ _ _ _ H5 L4). cbn [need]. rewrite (HT _ _ _ _ H6 Hweek). cbn [need].
  by rewrite (HT _ _ _ _ H7 L5).
Qed.

(** C25: a rule of the cloud with a time in cron's notation becomes a condition
    that the scene engine takes for a time condition, and it holds exactly in
    that minute of the days that are listed: a day is the number that the text
    begins with, so that [*] is Sunday. *)
Theorem cron_rule_holds_then id minu hour day month toks sub params s : cron_ok minu hour day month toks ->
  cJSON_GetObjectItem sub "params" = Some params -> cJSON_GetObjectItem params "cron" = Some (JString (cron_text minu hour day month toks)) ->
  (String.length (text_d (time_key s)) <= 4)%nat ->
  exists item s' c, add_trigger (D := D) (Some id) sub s = Val (item, s') /\ (forall k h, command_time_cond item k h = k c h) /\
    forall t, 0 <= tm_min t < 60 ->
      ((_scene_time_cond_is_true t c).1 = 1 <->
       tm_min t = atoi minu /\ tm_hour t = atoi hour /\ tm_wday t ∈ (fun d => s32 (atoi d)) <$> toks).
Proof.
  intros Hc Hparams Hcron Hkey. destruct (cron_fields_run minu hour day month toks
    (add_text [("Op", "AddCond")]%string "Id" (Some id) ++ [("Logic", "Or")]%string ++ [("CondType", "Time"); ("TimeKey", "Or_" +:+ text_d (time_key s))]%string)
    (set_time_key (time_key s + 1) s) Hc) as (week & Hw & Hdays & Hlen).
  eexists _, (set_time_key (time_key s + 1) s), (TimeCond ("Or_" +:+ text_d (time_key s)) "InstantOnce" "1" 0 hour minu hour minu week
    (if str_eq "*" month then "1" else "0")%string "0").
  split_and!.
  - unfold add_trigger. rewrite Hparams. unfold has_item, get_item. cbn [option_bind mbind]. rewrite Hcron. rewrite bool_decide_eq_true_2 by eauto.
    unfold mbind at 1, M_bind at 1. unfold next_key, sprintf8, strcpy, mbind, M_bind, getS, modify.
    destruct (Nat.ltb_spec (String.length ("Or_" +:+ text_d (time_key s))) 8) as [_|Hlt]; [|rewrite length_app_s in Hlt; cbn in Hlt; lia].
    unfold mret at 1, M_ret at 1. unfold text_of, text_ptr, mbind, M_bind. cbn [get_or valuestring option_bind]. unfold mret at 1 2, M_ret at 1 2.
    rewrite <- app_assoc. cbn [valuestring get_or]. unfold mret at 1, M_ret at 1. rewrite Hw. reflexivity.
  - intros k h. destruct Hc as [_ Hm Hh _ _ _ _]. apply time_cond_read; [reflexivity|reflexivity|by repeat constructor| | |].
    + rewrite !Forall_cons. split_and!; try done. by destruct (str_eq "*" month); apply Nat.leb_le.
    + lia.
    + rewrite length_app_s. change (String.length "Or_") with 3%nat. unfold KEY_MAX_LEN. lia.
  - intros t Ht. rewrite check_exact. cbn [fst]. set (c := TimeCond _ _ _ _ _ _ _ _ _ _ _).
    assert (Hlost : lost c = false) by done. rewrite Hlost. cbn [negb andb].
    assert (Hdays' : week_days c = day_name <$> ((fun d => s32 (atoi d)) <$> toks)).
    { unfold week_days. cbn [acWeek c]. rewrite str_take_short; [done|unfold WEEK_MAX_LEN; lia]. }
    rewrite Hdays'. assert (Hwin : in_window t c = true <-> tm_min t = atoi minu /\ tm_hour t = atoi hour).
    { rewrite in_window_iff by (split; [done|split; apply Hc]). unfold start_minutes, end_minutes, now_minutes, minutes. cbn [acStartHour acStartMinu acEndHour acEndMinu c].
      pose proof (co_clock _ _ _ _ _ Hc). lia. }
    assert (Hex : existsb (fun d => is_today t d && in_window t c) (day_name <$> ((fun d => s32 (atoi d)) <$> toks)) = true <->
      in_window t c = true /\ tm_wday t ∈ (fun d => s32 (atoi d)) <$> toks).
    { pose proof (co_days _ _ _ _ _ Hc) as Hd. clear -Hd. induction Hd as [|d toks Hd _ IH]; cbn [fmap list_fmap existsb].
      - split; [done|]. intros [_ H]. by apply not_elem_of_nil in H.
      - rewrite orb_true_iff. change (map day_name (map (fun d => s32 (atoi d)) toks)) with (day_name <$> ((fun d => s32 (atoi d)) <$> toks)).
        rewrite IH, andb_true_iff. unfold is_today. rewrite day_name_index by done. rewrite Z.eqb_eq, elem_of_cons. tauto. }
    rewrite Hwin in Hex. transitivity (existsb (fun d => is_today t d && in_window t c) (day_name <$> ((fun d => s32 (atoi d)) <$> toks)) = true); [|tauto].
    by destruct (existsb _ _).
Qed.

(** A command without the days of a time. *)
Lemma time_cond_unread item k h : cJSON_GetObjectItem item "TriggerType" = None -> cJSON_GetObjectItem item "TriggerInterval" = None ->
  cJSON_GetObjectItem item "Week" = None -> command_time_cond item k h = Val (JsonFormatErr, h).
Proof.
  intros Htt Hti Hw.
  assert (HR : forall name n size room, cJSON_GetObjectItem item name = None -> read_member name n size room item h = Val (None, h)).
  { intros name n size room Hv. unfold read_member, JSON_value_get. by rewrite Hv. }
  assert (HW : text "Week" WEEK_MAX_LEN item = None) by (unfold text, value_text, JSON_value_get; by rewrite Hw).
  unfold command_time_cond. destruct (text "TimeKey" KEY_MAX_LEN item); [|done]. cbn [need]. unfold mbind, M_bind. rewrite !HR by done.
  destruct (value_text _ _ _ item); [|done]. cbn [need]. rewrite HW.
  by destruct (text "StartHour" _ item), (text "StartMinu" _ item), (text "EndHour" _ item), (text "EndMinu" _ item).
Qed.

(** A condition of the cloud that a scene runs only between two times of day
    is sent to the scene engine without days, and the engine refuses every such
    command, whatever the times are. *)
Theorem period_condition_is_refused id sub params startTime endTime s :
  cJSON_GetObjectItem sub "params" = Some params -> cJSON_GetObjectItem params "startTime" = Some (JString startTime) ->
  cJSON_GetObjectItem params "endTime" = Some (JString endTime) -> (String.length (text_d (time_key s)) <= 3)%nat ->
  exists item s', add_condition (D := D) (Some id) sub s = Val (item, s') /\ forall k h, command_time_cond item k h = Val (JsonFormatErr, h).
Proof.
  intros Hparams Hs He Hkey. unfold add_condition. rewrite Hparams. unfold has_item, get_item. cbn [option_bind mbind]. rewrite Hs, He.
  rewrite bool_decide_eq_true_2 by eauto. unfold mbind at 1, M_bind at 1. unfold next_key, sprintf8, strcpy, mbind, M_bind, getS, modify.
  destruct (Nat.ltb_spec (String.length ("And_" +:+ text_d (time_key s))) 8) as [_|Hlt]; [|rewrite length_app_s in Hlt; cbn in Hlt; lia].
  unfold mret at 1, M_ret at 1. unfold text_of, text_ptr, mbind, M_bind. cbn [get_or valuestring option_bind]. unfold mret at 1 2 3 4, M_ret at 1 2 3 4.
  cbn [get_or valuestring]. unfold mret at 1 2, M_ret at 1 2. unfold period_fields.
  destruct (strsep (Some startTime) ":") as [sh r1]. destruct (strsep r1 ":") as [sm r2].
  destruct (strsep (Some endTime) ":") as [eh r3]. destruct (strsep r3 ":") as [em r4].
  eexists _, _. split; [reflexivity|]. intros k h. apply time_cond_unread; by destruct sh, sm, eh, em.
Qed.

(** * Actions *)

Context (sqlite : string -> list string -> D -> Z * list (list string) * D).

Fixpoint tens_from {A} (fuel : nat) (l : list A) : list (list A) :=
  match fuel, l with S n, _ :: _ => take 10 l :: tens_from n (drop 10 l) | _, _ => [] end.
Definition tens {A} (l : list A) : list (list A) := tens_from (length l) l.
Lemma tens_fuel {A} n : forall m (l : list A), (length l <= n)%nat -> (length l <= m)%nat -> tens_from n l = tens_from m l.
Proof.
  induction n as [|n IH]; intros m l Hn Hm; destruct l as [|a l], m as [|m]; cbn [length] in *; try done; try lia.
  cbn [tens_from]. f_equal. apply IH; rewrite length_drop; cbn [length]; lia.
Qed.
Lemma tens_step {A} (l : list A) : l <> [] -> tens l = take 10 l :: tens (drop 10 l).
Proof.
  intros Hl. unfold tens. destruct l as [|a l]; [done|]. cbn [length tens_from]. f_equal. apply tens_fuel; rewrite ?length_drop; cbn [length]; lia.
Qed.
Lemma tens_join {A} (l : list A) : mjoin (tens l) = l.
Proof.
  unfold tens. enough (forall n (l : list A), (length l <= n)%nat -> mjoin (tens_from n l) = l) as H by by apply H.
  clear l. induction n as [|n IH]; intros l Hl; destruct l as [|a l]; cbn [length] in *; try done; [lia|].
  cbn [tens_from]. change (mjoin (?x :: ?y)) with (x ++ mjoin y). rewrite IH by (rewrite length_drop; cbn [length]; lia). apply take_drop.
Qed.

Definition scene_text (l : list json) : string := cJSON_PrintUnformatted (message_of "00" "Dispatch" "LocalScene" l).
Definition scene_fits (l : list json) : Prop := (String.length (scene_text l) + 2 < 2050)%nat.

Lemma scene_dispatch_run l s (Q : Z -> ali D -> Prop) : l <> [] -> scene_fits l ->
  (forall s', same_devs s s' -> done s' = done s ++ [ClientWrite (frame (scene_text l))] -> answers s' = tl (answers s) -> Q (hd 0 (answers s)) s') ->
  wp (sceneHyDispatch l) s Q.
Proof.
  intros Hl Hf HQ. unfold sceneHyDispatch. rewrite bool_decide_eq_false_2 by done. unfold hylinkDispatch. fold (scene_text l). unfold scene_fits in Hf.
  destruct (Nat.leb_spec 2050 (String.length (scene_text l) + 2)); [lia|]. by apply wp_call.
Qed.

Lemma for_each_pure {A B} (f : A -> T B) l r s : Forall2 (fun a b => f a s = Val (b, s)) l r -> for_each f l s = Val (r, s).
Proof. induction 1 as [|a b l r Ha _ IH]; [done|]. cbn [for_each]. unfold mbind, M_bind. by rewrite Ha, IH. Qed.

(** An action need not compare anything, but without a comparison the gateway reads
    through NULL. *)
Lemma action_without_comparison id a params s : cJSON_GetObjectItem a "params" = Some params ->
  cJSON_GetObjectItem params "sceneId" = None -> cJSON_GetObjectItem params "compareType" = None -> add_action sqlite id a s = Fault NullDeref.
Proof.
  intros Hp Hs Hc. unfold add_action, getSceneDevStatus, text_ptr. rewrite Hp. unfold has_item, get_item. cbn [mbind option_bind]. rewrite Hs, Hc. reflexivity.
Qed.

(** What an action comes to: a command, or the execution of the rules of a scene,
    by their ids. *)
Inductive deed : Type := Sets (j : json) | Runs (rules : list string).
Definition rule_action (id : option string) (rule_id : string) : json :=
  let value := cJSON_PrintUnformatted (string_object [("SceneId", rule_id); ("Enable", "1")]%string) in
  string_object (add_text [("Op", "AddAction")]%string "Id" id ++
    [("KeyCoding", "Original"); ("ActionId", rule_id); ("DevId", STR_GATEWAY_DEVID); ("Key", "SceneId"); ("Value", value)]%string).
Definition comes_to (id : option string) (s : ali D) (a : json) (d : deed) : Prop :=
  match d with
  | Sets j => forall s', same_devs s s' -> add_action sqlite id a s' = Val (Some j, s')
  | Runs rules => exists params scene l, cJSON_GetObjectItem a "params" = Some params /\
      cJSON_GetObjectItem params "sceneId" = Some (JString scene) /\
      table0_select sqlite scene (tables s) = Val (l, tables s) /\ rules = (fun row => nth 0 row ""%string) <$> l
  end.

(** The messages of up to ten actions: one for every rule that is executed, and
    one with the commands, if there are any. *)
Definition rules_of (ds : list deed) : list string := mjoin ((fun d => match d with Runs rules => rules | Sets _ => [] end) <$> ds).
Definition commands_of (ds : list deed) : list json := omap (fun d => match d with Sets j => Some j | Runs _ => None end) ds.
Definition messages_of (id : option string) (ds : list deed) : list (list json) :=
  ((fun r => [rule_action id r]) <$> rules_of ds) ++ (if bool_decide (commands_of ds = []) then [] else [commands_of ds]).
Definition writes (ms : list (list json)) : list ali_io := (fun l => ClientWrite (frame (scene_text l))) <$> ms.

Lemma rules_run id l : forall s : ali D, Forall (fun row => scene_fits [rule_action id (nth 0 row ""%string)]) l ->
  wp (for_each (fun row => addActionsForSceneId id (nth 0 row ""%string)) l) s (fun _ s' => same_devs s s' /\
    done s' = done s ++ writes ((fun row => [rule_action id (nth 0 row ""%string)]) <$> l)).
Proof.
  induction l as [|row l IH]; intros s Hf; cbn [for_each]; [wp_step; split; [apply same_devs_refl|by rewrite app_nil_r]|].
  apply Forall_cons in Hf as [Hf Hl]. wp_step. unfold addActionsForSceneId at 1. cbv zeta. wp_step.
  apply scene_dispatch_run; [done|exact Hf|]. intros s1 Hs1 Hd1 _. wp_step. wp_step. eapply wp_mono; [by apply IH|]. intros u s2 [Hs2 Hd2]. wp_step.
  split; [by eapply same_devs_trans|]. rewrite Hd2, Hd1, <- app_assoc. done.
Qed.

Lemma wp_db {A} (m : M D A) (s : ali D) (Q : A -> ali D -> Prop) : wp m (tables s) (fun a d => Q a (set_tables d s)) -> wp (db m) s Q.
Proof. intros H. unfold db. wp_step. wp_step. unfold wp in H. destruct (m (tables s)) as [[a d]|]; [|done]. wp_step. wp_step. by wp_step. Qed.
Lemma fits_app ms1 ms2 : Forall scene_fits (ms1 ++ ms2) <-> Forall scene_fits ms1 /\ Forall scene_fits ms2.
Proof. apply Forall_app. Qed.
Lemma deeds_run id s acts ds : Forall2 (comes_to id s) acts ds -> Forall scene_fits ((fun r => [rule_action id r]) <$> rules_of ds) -> forall s' : ali D, same_devs s s' ->
  wp (for_each (add_action sqlite id) acts) s' (fun r s2 => same_devs s s2 /\ omap (fun a => a) r = commands_of ds /\
    done s2 = done s' ++ writes ((fun r => [rule_action id r]) <$> rules_of ds)).
Proof.
  induction 1 as [|a d acts ds Hd _ IH]; intros Hf s' Hs; cbn [for_each]; [wp_step; split_and!; [done|done|by rewrite app_nil_r]|].
  destruct d as [j|rules].
  - wp_step. unfold wp at 1. rewrite (Hd s' Hs). wp_step. eapply wp_mono; [by apply IH|]. intros r s2 (Hs2 & Hr & Hd2). wp_step.
    split_and!; [done|by cbn; f_equal|exact Hd2].
  - destruct Hd as (params & scene & l & Hp & Hsc & Hsel & ->).
    change (rules_of (Runs ((fun row => nth 0 row ""%string) <$> l) :: ds)) with (((fun row => nth 0 row ""%string) <$> l) ++ rules_of ds) in *.
    rewrite fmap_app in Hf |- *. apply fits_app in Hf as [Hf1 Hf2]. rewrite <- list_fmap_compose in Hf1 |- *.
    wp_step. unfold add_action at 1. cbv zeta. rewrite Hp. unfold has_item, get_item. cbn [option_bind mbind]. rewrite Hsc. rewrite bool_decide_eq_true_2 by eauto.
    wp_step. apply wp_text_of. wp_step. apply wp_db. unfold wp at 1. assert (tables s' = tables s) as -> by apply Hs. rewrite Hsel.
    wp_step. eapply wp_mono; [by apply rules_run; rewrite Forall_fmap in Hf1|]. intros u s1 [Hs1 Hd1]. wp_step.
    assert (Hs' : same_devs s s1).
    { eapply same_devs_trans; [exact Hs|]. eapply same_devs_trans; [|exact Hs1]. unfold same_devs, set_tables. cbn. destruct Hs as (_ & _ & _ & ->). done. }
    wp_step. eapply wp_mono; [by apply IH|]. intros r s2 (Hs2 & Hr & Hd2). wp_step. split_and!; [done|exact Hr|].
    rewrite Hd2, Hd1. unfold writes. rewrite fmap_app, <- app_assoc. done.
Qed.

(** C28: the actions of a rule go to the scene engine all, in messages of ten of
    them, however many there are: of each ten, first, in order, an action for
    every rule of the scenes they execute, each in a message of its own, and then
    the commands to devices, in order, in one message, if there are any. *)
Theorem actions_go_in_tens id actions ds s : actions <> [] ->
  Forall2 (comes_to id s) actions ds -> Forall scene_fits (mjoin (messages_of id <$> tens ds)) ->
  wp (addActions sqlite id (Some (JArray actions))) s (fun r s' =>
    r = 0 /\ same_devs s s' /\ done s' = done s ++ writes (mjoin (messages_of id <$> tens ds)) /\ mjoin (tens ds) = ds).
Proof.
  intros Hne Hds Hfit. unfold addActions. cbv zeta. change (elements (Some (JArray actions))) with actions. rewrite bool_decide_eq_false_2 by done.
  pose proof (Forall2_length _ _ _ Hds) as Hlen.
  assert (HB : forall fuel i s', (i < length actions)%nat -> (length actions - i <= fuel)%nat -> same_devs s s' -> Forall scene_fits (mjoin (messages_of id <$> tens (drop i ds))) ->
    wp (action_batches sqlite fuel id actions i i) s' (fun _ s2 => same_devs s s2 /\ done s2 = done s' ++ writes (mjoin (messages_of id <$> tens (drop i ds))))).
  { induction fuel as [|fuel IH]; intros i s' Hi Hfuel Hsame Hf; [lia|]. cbn [action_batches]. cbv zeta.
    set (n := if (i + 10 <? length actions)%nat then (i + 10)%nat else length actions).
    assert (Hn : (n - i = 10 \/ n = length actions /\ n - i <= 10)%nat /\ (i < n <= length actions)%nat) by (unfold n; destruct (Nat.ltb_spec (i + 10) (length actions)); lia).
    assert (Hd : drop i ds <> []) by (intros E; apply (f_equal length) in E; rewrite length_drop in E; cbn in E; lia).
    rewrite (tens_step _ Hd) in Hf |- *. rewrite fmap_cons in Hf |- *. change (mjoin (?x :: ?y)) with (x ++ mjoin y) in Hf |- *. apply fits_app in Hf as [Hf1 Hf2].
    assert (Ht : take (n - i) (drop i ds) = take 10 (drop i ds)).
    { destruct Hn as [[->|[-> Hle]] _]; [done|]. rewrite !take_ge; [done|rewrite length_drop; lia..]. }
    unfold messages_of at 1 in Hf1. apply fits_app in Hf1 as [Hf0 Hf1]. unfold messages_of at 1.
    wp_step. eapply wp_mono; [apply (deeds_run id s _ (take 10 (drop i ds))); [rewrite <- Ht; by apply Forall2_take, Forall2_drop|exact Hf0|exact Hsame]|].
    intros r s1 (Hs1 & -> & Hd1).
    assert (HR : forall s2, same_devs s s2 ->
      done s2 = done s1 ++ writes (if bool_decide (commands_of (take 10 (drop i ds)) = []) then [] else [commands_of (take 10 (drop i ds))]) ->
      wp (if (n <? length actions)%nat then action_batches sqlite fuel id actions n n else mret tt) s2 (fun _ s3 => same_devs s s3 /\
        done s3 = done s' ++ writes ((((fun r => [rule_action id r]) <$> rules_of (take 10 (drop i ds))) ++
          (if bool_decide (commands_of (take 10 (drop i ds)) = []) then [] else [commands_of (take 10 (drop i ds))])) ++ mjoin (messages_of id <$> tens (drop 10 (drop i ds)))))).
    { intros s2 Hs2 Hd2. unfold writes in *. rewrite !fmap_app. destruct (Nat.ltb_spec n (length actions)) as [Hlt|Hge].
      - assert (n - i = 10)%nat as Hn10 by lia. assert (drop 10 (drop i ds) = drop n ds) as Hdd by (rewrite drop_drop; f_equal; lia). rewrite Hdd in Hf2 |- *.
        eapply wp_mono; [apply (IH n s2); [lia|lia|exact Hs2|done]|]. intros u s3 [Hs3 Hd3]. split; [done|].
        rewrite Hd3, Hd2, Hd1. unfold writes. by rewrite <- !app_assoc.
      - wp_step. split; [done|]. rewrite drop_drop. rewrite (drop_ge ds (i + 10)) by lia. rewrite Hd2, Hd1, app_nil_r. by rewrite <- !app_assoc. }
    wp_step. case_bool_decide as Hc.
    - unfold sceneHyDispatch. rewrite bool_decide_eq_true_2 by done. wp_step. apply HR; [done|by rewrite app_nil_r].
    - apply scene_dispatch_run; [done|by apply Forall_cons in Hf1 as [? _]|]. intros s2 Hs2 Hd2 _. apply HR; [by eapply same_devs_trans|exact Hd2]. }
  wp_step. eapply wp_mono; [apply (HB _ 0%nat s); [|lia|done|by rewrite drop_0]|].
  - destruct actions; [done|cbn; lia].
  - intros u s' [Hs' Hd']. wp_step. rewrite drop_0 in Hd'. split_and!; [done|done|done|apply tens_join].
Qed.

(** * Requests *)

Definition request_name (n : Z) : string := "Request_" +:+ text_d n.
(** The requests there are, one after another: the last answer counts. *)
Fixpoint run_requests (ts : Z -> option string) (ns : list Z) (response : option string) : T (option string) :=
  match ns with
  | [] => mret response
  | n :: ns =>
      match ts n with
      | None => run_requests ts ns response
      | Some t => '(_, r) ← sceneDispatch sqlite t; run_requests ts ns (match r with Some r => Some r | None => response end)
      end
  end.

Lemma encoded_some t : t <> ""%string -> str_eq (encoded t) "" = false.
Proof. intros Ht. unfold str_eq. apply bool_decide_eq_false_2. destruct t as [|c t]; [done|]. done. Qed.

(** C27: requests about scenes travel in base64: what the gateway does with them
    is what it does with the texts that were coded, each once, in the order of
    their numbers, and the answer is that of the last which has one. *)
Theorem coded_requests_are_handled fs ts s : let root := JObject fs in
  printable root = true -> (nest root <= CJSON_NESTING_LIMIT)%nat -> is_Some (cJSON_GetObjectItem root "Type") ->
  (forall n, 1 <= n <= 9 -> cJSON_GetObjectItem root (request_name n) = (fun t => JString (encoded t)) <$> ts n) ->
  (forall n t, ts n = Some t -> no_nul t = true /\ t <> ""%string) ->
  localScene sqlite (cJSON_PrintUnformatted root) s = (r ← run_requests ts (Z.of_nat <$> seq 1 9) None; mret (0, r)) s.
Proof.
  intros root Hp Hn Htype Hts Hok. unfold localScene. rewrite printed_is_parsed by done. unfold root at 1. fold root. unfold has_item, get_item. cbn [option_bind mbind].
  rewrite bool_decide_eq_true_2 by done. unfold mbind, M_bind.
  assert (HR : forall ns resp s, Forall (fun n => 1 <= n <= 9) ns -> local_requests sqlite root ns resp s = run_requests ts ns resp s).
  { clear s. induction ns as [|n ns IH]; intros resp s Hns; [done|]. apply Forall_cons in Hns as [Hn1 Hns]. cbn [local_requests run_requests].
    change ("Request_" +:+ text_d n)%string with (request_name n). rewrite Hts by done. destruct (ts n) as [t|] eqn:E; [|by apply IH].
    destruct (Hok n t E) as [Hnul Hne]. cbn [fmap option_fmap option_map]. unfold text_of, text_ptr, mbind, M_bind. cbn [get_or valuestring]. unfold mret at 1 2, M_ret at 1 2.
    cbn [get_or valuestring]. unfold mret at 1, M_ret at 1. rewrite encoded_some by done. rewrite decoded_encoded by done.
    destruct (sceneDispatch sqlite t s) as [[[r' resp'] s']|]; [|done]. by apply IH. }
  rewrite HR; [done|]. apply Forall_forall. intros x (y & -> & Hy%elem_of_seq)%list_elem_of_fmap. lia.
Qed.

(** * The table of rules *)

Context (rows : nat -> D -> list (list string)).

(** Deleting a rule leaves its row in the table, where the rules of a scene
    are looked up for the actions that execute it: rows are deleted by the
    scene's id, and the rule's is given. *)
Theorem deleted_rule_stays rule scene s : sqlite_laws sqlite rows -> rule <> scene -> [rule; scene] ∈ rows 0 (tables s) ->
  scene_fits [string_object [("Op", "DelScene"); ("Id", rule)]%string] ->
  wp (delScene sqlite (Some (JString rule))) s (fun r s' =>
    [rule; scene] ∈ rows 0 (tables s') /\ wp (table0_select sqlite scene) (tables s') (fun l _ => [rule; scene] ∈ l)).
Proof.
  intros Hlaws Hne Hin Hfit.
  assert (HQ : forall d, [rule; scene] ∈ rows 0 d -> [rule; scene] ∈ rows 0 d /\ wp (table0_select sqlite scene) d (fun l _ => [rule; scene] ∈ l)).
  { intros d Hd. split; [done|]. apply (wp_select (rows := rows) sqlite 0); [lia|]. intros r ->. apply list_elem_of_filter. by split. }
  unfold delScene. cbn [get_or]. wp_step. wp_step. unfold del_rule. cbn [valuestring]. wp_step. unfold delete_single_scene. cbn [add_text app].
  apply scene_dispatch_run; [done|done|]. intros s1 (_ & _ & _ & Ht) _ _. wp_step. destruct (0 <=? hd 0 (answers s)).
  - wp_step. wp_step. wp_step. apply wp_db. apply (wp_delete (rows := rows) sqlite 0); [lia|]. intros d' Hrows.
    wp_step. wp_step. apply HQ. cbn [tables set_tables]. rewrite Hrows. rewrite decide_True by done. apply list_elem_of_filter.
    split; [|by rewrite Ht]. unfold has_key. cbn. congruence.
  - wp_step. wp_step. apply HQ. by rewrite Ht.
Qed.
End scenes.

(** * A home with a lamp and a table *)

Definition scene_home (d : memory) : ali memory :=
  Ali {["d1"%string := lamp 0 0 1]} {["d1"%string := cloud_lamp 7]} 0 d [] [].

Definition weekdays : list string := ["1"; "3"]%string.
Definition cron_trigger : json :=
  JObject [(Some "params", JObject [(Some "cron", JString (cron_text "30" "7" "*" "*" weekdays))])]%string.
Lemma cron_rule_holds_then_witness :
  exists item s' c, add_trigger (D := memory) (Some "rule"%string) cron_trigger (scene_home ∅) = Val (item, s') /\ (forall k h, command_time_cond item k h = k c h) /\
    forall t, 0 <= tm_min t < 60 ->
      ((_scene_time_cond_is_true t c).1 = 1 <-> tm_min t = 30 /\ tm_hour t = 7 /\ tm_wday t ∈ [1; 3]).
Proof.
  apply (cron_rule_holds_then "rule" "30" "7" "*" "*" weekdays cron_trigger
    (JObject [(Some "cron", JString (cron_text "30" "7" "*" "*" weekdays))])%string (scene_home ∅)).
  - constructor; [by repeat constructor|apply Nat.leb_le; reflexivity..|by apply (bool_decide_unpack _); vm_compute|
      by apply (bool_decide_unpack _); vm_compute|done|apply Nat.leb_le; reflexivity].
  - reflexivity.
  - reflexivity.
  - apply Nat.leb_le. reflexivity.
Defined.

Definition night_params : json := JObject [(Some "startTime", JString "22:00"); (Some "endTime", JString "06:30")]%string.
Lemma period_condition_is_refused_witness :
  exists item s', add_condition (D := memory) (Some "rule"%string) (JObject [(Some "params"%string, night_params)]) (scene_home ∅) = Val (item, s') /\
    forall k h, command_time_cond item k h = Val (JsonFormatErr, h).
Proof.
  apply (period_condition_is_refused "rule" (JObject [(Some "params"%string, night_params)]) night_params "22:00" "06:30" (scene_home ∅)); [reflexivity..|].
  apply Nat.leb_le. reflexivity.
Defined.

(** Twelve actions on the lamp. *)
Definition level_action (n : Z) : json :=
  JObject [(Some "params", JObject [(Some "deviceName", JString "d1"); (Some "propertyName", JString "Brightness"); (Some "compareType", JString "=="); (Some "propertyValue", JNumber (n, 0%nat))])]%string.
Definition level_command (n : Z) : json :=
  string_object [("Op", "AddAction"); ("Id", "rule"); ("Active", "Equ"); ("TriggerType", "InstantOnce"); ("KeyCoding", "Original"); ("ActionId", "0");
    ("DevId", "d1"); ("Key", "Level"); ("Value", text_d n)]%string.
Definition levels : list Z := Z.of_nat <$> seq 1 12.
(** The second action executes the two rules of another scene. *)
Definition rules_table : memory := {[0%nat := [["rule"; "scene"]]]}%string.
Definition scenes_table : memory := {[0%nat := [["r1"; "night"]; ["r2"; "day"]; ["r3"; "night"]]]}%string.
Definition night_action : json := JObject [(Some "params", JObject [(Some "sceneId", JString "night")])]%string.
Definition all_actions : list json := level_action 1 :: night_action :: (level_action <$> drop 1 levels).
Definition all_deeds : list deed := Sets (level_command 1) :: Runs ["r1"; "r3"]%string :: ((Sets ∘ level_command) <$> drop 1 levels).
Lemma actions_go_in_tens_witness :
  wp (addActions memory_sqlite (Some "rule"%string) (Some (JArray all_actions))) (scene_home scenes_table) (fun r s' =>
    r = 0 /\ same_devs (scene_home scenes_table) s' /\
    done s' = (fun l => ClientWrite (frame (scene_text l))) <$>
      [[rule_action (Some "rule") "r1"]; [rule_action (Some "rule") "r3"]; level_command <$> [1; 2; 3; 4; 5; 6; 7; 8; 9]; level_command <$> [10; 11; 12]]%string /\
    mjoin (tens all_deeds) = all_deeds).
Proof.
  eapply wp_mono; [apply (actions_go_in_tens memory_sqlite (Some "rule"%string) all_actions all_deeds (scene_home scenes_table))|].
  - discriminate.
  - assert (HL : forall n, n ∈ levels -> comes_to memory_sqlite (Some "rule"%string) (scene_home scenes_table) (level_action n) (Sets (level_command n))).
    { apply Forall_forall. do 12 (constructor; [intros [h c k d a t] (Hh & Hc & _); cbn in Hh, Hc; subst; vm_compute; reflexivity|]). constructor. }
    constructor; [apply HL; by left|]. constructor.
    + eexists _, "night"%string, [["r1"; "night"]; ["r3"; "night"]]%string. split_and!; vm_compute; reflexivity.
    + apply Forall2_fmap_l, Forall2_fmap_r, Forall_Forall2_diag, Forall_forall. intros n Hn. apply HL. by right.
  - repeat (apply Forall_cons; split; [apply Nat.ltb_lt; vm_compute; reflexivity|]). apply Forall_nil. exact I.
  - intros r s' (Hr & Hs & Hd & Hj). split; [exact Hr|]. split; [exact Hs|]. split; [rewrite Hd; reflexivity|exact Hj].
Defined.

Definition fire_text : string := cJSON_PrintUnformatted (JObject [(Some "operationType", JString "fire"); (Some "sceneId", JString "7")]%string).
Definition fire_root : list (option string * json) := [(Some "Type", JString "scene"); (Some "Request_2", JString (encoded fire_text))]%string.
Definition fire_requests (n : Z) : option string := if n =? 2 then Some fire_text else None.
Lemma coded_requests_are_handled_witness :
  localScene memory_sqlite (cJSON_PrintUnformatted (JObject fire_root)) (scene_home ∅) =
    (r ← run_requests memory_sqlite fire_requests (Z.of_nat <$> seq 1 9) None; mret (0, r)) (scene_home ∅).
Proof.
  apply (coded_requests_are_handled memory_sqlite fire_root fire_requests (scene_home ∅)).
  - vm_compute. reflexivity.
  - apply Nat.leb_le. reflexivity.
  - eexists. reflexivity.
  - intros n Hn. assert (n ∈ Z.of_nat <$> seq 1 9) as H by (apply list_elem_of_fmap; exists (Z.to_nat n); split; [lia|apply elem_of_seq; lia]).
    clear Hn. revert n H. apply Forall_forall. repeat constructor; vm_compute; reflexivity.
  - intros n t. unfold fire_requests. destruct (n =? 2); [|discriminate]. intros E. injection E as <-. split; [vm_compute; reflexivity|discriminate].
Defined.

Lemma deleted_rule_stays_witness :
  wp (delScene memory_sqlite (Some (JString "rule"%string))) (scene_home rules_table) (fun r s' =>
    ["rule"; "scene"]%string ∈ memory_rows 0 (tables s') /\ wp (table0_select memory_sqlite "scene") (tables s') (fun l _ => ["rule"; "scene"]%string ∈ l)).
Proof.
  apply (deleted_rule_stays memory_sqlite memory_rows "rule" "scene" (scene_home rules_table)).
  - exact memory_laws.
  - discriminate.
  - apply (bool_decide_unpack _). vm_compute. exact I.
  - apply Nat.ltb_lt. vm_compute. reflexivity.
Defined.
