(* ===== verification/AliGroupProps.v ===== *)
(** Groups of switches: how reports are split, what the tables hold after a request
    and what the scene engine is told. *)
From stdpp Require Import gmap strings pretty.
From Stdlib Require Import Ascii.
From S2P Require Import Prelude CString Json JsonText JsonProps CommonFunc HyLink HyLinkProps HyBase64 AliDb AliLink AliLinkProps AliRequests AliScene AliSceneProps AliGroup.

(** * Texts *)

Lemma str_take_add a b s : str_take (a + b) s = (str_take a s +:+ str_take b (str_drop a s))%string.
Proof.
  revert s. induction a as [|a IH]; intros s; [by rewrite nil_app|]. destruct s as [|c s]; [by destruct b|].
  cbn [Nat.add str_take str_drop]. by rewrite IH, app_cons.
Qed.
Lemma str_drop_drop a b s : str_drop b (str_drop a s) = str_drop (a + b) s.
Proof. revert s. induction a as [|a IH]; intros s; [done|]. destruct s as [|c s]; [by destruct b|]. apply IH. Qed.
Definition joined (l : list string) : string := foldr (fun t r => (t +:+ r)%string) ""%string l.

Section group.
Context {D : Type} (sqlite : string -> list string -> D -> Z * list (list string) * D)
  (kh_keys : gmap string CloudLinkDev -> list string).
Abbreviation T A := (M (ali D) A).

(** * Reports *)

#[local] Opaque MAX_TEXT_LEN.
Lemma long_report n : forall i report addr (s : ali D), (MAX_TEXT_LEN < String.length report)%nat ->
  if (addr + (n - 1) * MAX_TEXT_LEN <=? String.length report)%nat || (n =? 0)%nat
  then exists l, report_parts n i report addr s = Val (l, s) /\ joined l.*2 = str_take (n * MAX_TEXT_LEN) (str_drop addr report) /\ length l = n
  else report_parts n i report addr s = Fault OutOfBounds.
Proof.
  induction n as [|n IH]; intros i report addr s Hr.
  - rewrite orb_true_r. by exists [].
  - rewrite orb_false_r. cbn [report_parts]. cbv zeta. destruct (Nat.ltb_spec MAX_TEXT_LEN (String.length report)) as [_|]; [|lia].
    specialize (IH (i + 1) report (addr + MAX_TEXT_LEN)%nat s Hr). replace (S n - 1)%nat with n by lia.
    destruct (Nat.ltb_spec (String.length report) addr) as [Hlt|Hge].
    + destruct (Nat.leb_spec (addr + n * MAX_TEXT_LEN) (String.length report)); [lia|done].
    + destruct (Nat.eqb_spec n 0) as [->|Hn].
      * rewrite orb_true_r in IH. destruct IH as (l & Hl & Hj & Hlen). destruct l; [|done].
        destruct (Nat.leb_spec (addr + 0 * MAX_TEXT_LEN) (String.length report)); [|lia]. unfold mbind, M_bind. rewrite Hl. eexists. split; [done|].
        split; [|done]. change (joined [(?a, ?p)].*2) with (p +:+ "")%string. by rewrite app_nil_s, Nat.mul_1_l.
      * rewrite orb_false_r in IH. replace (addr + MAX_TEXT_LEN + (n - 1) * MAX_TEXT_LEN)%nat with (addr + n * MAX_TEXT_LEN)%nat in IH
          by (destruct n as [|n]; [done|]; replace (S n - 1)%nat with n by lia; lia).
        destruct (addr + n * MAX_TEXT_LEN <=? String.length report)%nat; unfold mbind, M_bind; [|by rewrite IH].
        destruct IH as (l & Hl & Hj & Hlen). rewrite Hl. eexists. split; [done|]. split; [|cbn [length]; by rewrite Hlen].
        change (joined ((?a, ?p) :: l).*2) with (p +:+ joined l.*2)%string. rewrite Hj.
        change (S n * MAX_TEXT_LEN)%nat with (MAX_TEXT_LEN + n * MAX_TEXT_LEN)%nat. by rewrite str_take_add, str_drop_drop.
Qed.

Lemma short_report report (s : ali D) : (String.length report <= MAX_TEXT_LEN)%nat ->
  exists l, report_parts 6 0 report 0 s = Val (l, s) /\ joined l.*2 = report /\ length l = 6%nat.
Proof.
  intros Hs. cbn [report_parts]. cbv zeta. destruct (Nat.ltb_spec MAX_TEXT_LEN (String.length report)) as [|_]; [lia|].
  rewrite Nat.eqb_refl. destruct (Nat.eqb_spec (String.length report) 0) as [E|E].
  - eexists. split; [reflexivity|]. split; [|done]. by destruct report.
  - eexists. split; [reflexivity|]. split; [|done]. cbn [fmap list_fmap joined foldr snd str_drop]. by rewrite !app_nil_s.
Qed.

(** C29: a report to the cloud is split in six parts of 2000 bytes that give it
    back: all of it up to 2000 bytes, and its first 12000 bytes if it has 10000 or
    more; for the lengths between, a part behind its end is read. *)
Theorem report_is_split report (s : ali D) : let len := String.length report in
  if (len <=? MAX_TEXT_LEN)%nat || (5 * MAX_TEXT_LEN <=? len)%nat
  then exists l, report_parts 6 0 report 0 s = Val (l, s) /\ joined l.*2 = str_take (6 * MAX_TEXT_LEN) report /\ length l = 6%nat
  else report_parts 6 0 report 0 s = Fault OutOfBounds.
Proof.
  intros len. destruct (Nat.leb_spec len MAX_TEXT_LEN) as [Hs|Hs]; cbn [orb].
  - destruct (short_report report s Hs) as (l & Hl & Hj & Hlen). exists l. split_and!; [done| |done]. rewrite Hj. symmetry. apply str_take_short. unfold len in *. lia.
  - pose proof (long_report 6 0 report 0 s Hs) as H. rewrite orb_false_r in H. exact H.
Qed.

Lemma report_run report resp s (Q : Z -> ali D -> Prop) : (String.length report <= MAX_TEXT_LEN)%nat ->
  (forall l s', joined l.*2 = report -> same_devs s s' ->
    done s' = done s ++ [PostEvent "SwitchBindReport" (cJSON_PrintUnformatted (string_object (l ++ [("switchBindReport"%string, resp)])))] -> Q 0 s') ->
  wp (more_control_report report resp) s Q.
Proof.
  intros Hr HQ. unfold more_control_report. pose proof (short_report report s Hr) as (l & Hl & Hj & _). wp_step. unfold wp at 1. rewrite Hl.
  change (wp (_ ← user_post_event "SwitchBindReport" (Some (cJSON_PrintUnformatted (string_object (l ++ [("switchBindReport"%string, resp)])))); mret 0) s Q).
  wp_step. unfold user_post_event. cbn [default]. apply wp_call. intros s' Hs Hd _. wp_step. by eapply HQ.
Qed.

(** * Tables *)

Context (rows : nat -> D -> list (list string)) `{!sqlite_laws sqlite rows}.

(** The rows of a group, and those of the others. *)
Definition rows_of (t : nat) (g : string) (d : D) : list (list string) := filter (has_key t g) (rows t d).
Definition others_kept (g : string) (d d' : D) : Prop :=
  rows 0 d' ≡ₚ rows 0 d /\ forall t g', (0 < t < 3)%nat -> g' <> g -> rows_of t g' d' ≡ₚ rows_of t g' d.
Lemma others_refl g d : others_kept g d d.
Proof. by split. Qed.
Lemma others_trans g d d1 d2 : others_kept g d d1 -> others_kept g d1 d2 -> others_kept g d d2.
Proof. intros [H0 H] [H0' H']. split; [by rewrite H0'|]. intros t g' Ht Hg. by rewrite H', H. Qed.

Lemma filter_none t g (l : list (list string)) : filter (has_key t g) (filter (fun row => ~ has_key t g row) l) = [].
Proof. induction l as [|row l IH]; [done|]. rewrite filter_cons. destruct (decide _) as [Hrow|_]; [|done]. rewrite filter_cons. by rewrite decide_False. Qed.
Lemma filter_others t g g' (l : list (list string)) : g' <> g -> filter (has_key t g') (filter (fun row => ~ has_key t g row) l) = filter (has_key t g') l.
Proof.
  intros Hg. induction l as [|row l IH]; [done|]. rewrite !filter_cons. destruct (decide (~ has_key t g row)) as [Hr|Hr].
  - rewrite filter_cons. by rewrite IH.
  - apply dec_stable in Hr. rewrite IH, decide_False; [done|]. unfold has_key in *. congruence.
Qed.
Lemma rows_deleted t g d d' : (0 < t < 3)%nat ->
  (forall u, rows u d' ≡ₚ if decide (u = t) then filter (fun row => ~ has_key t g row) (rows u d) else rows u d) ->
  rows_of t g d' = [] /\ (forall u, (0 < u < 3)%nat -> u <> t -> rows_of u g d' ≡ₚ rows_of u g d) /\ others_kept g d d'.
Proof.
  intros Ht H. split_and!.
  - apply Permutation_nil_r. unfold rows_of. rewrite (H t), decide_True by done.
    by rewrite filter_none.
  - intros u Hu Hne. unfold rows_of. by rewrite (H u), decide_False.
  - split; [rewrite (H 0%nat), decide_False by lia; done|]. intros u g' Hu Hg. unfold rows_of. rewrite (H u).
    destruct (decide (u = t)) as [->|]; [|done]. by rewrite filter_others.
Qed.

Lemma filter_has t g (l : list (list string)) r : filter (has_key t g) (l ++ [r]) = filter (has_key t g) l ++ (if decide (has_key t g r) then [r] else []).
Proof. by rewrite filter_app. Qed.
(** A switch's row. *)
Lemma row_inserted g row d d' : has_key 1 g row ->
  (forall u, rows u d' ≡ₚ if decide (u = 1%nat) then rows u d ++ [row] else rows u d) ->
  rows_of 1 g d' ≡ₚ rows_of 1 g d ++ [row] /\ rows_of 2 g d' ≡ₚ rows_of 2 g d /\ others_kept g d d'.
Proof.
  intros Hk H. unfold rows_of, others_kept. split_and!.
  - rewrite (H 1%nat), decide_True by done. by rewrite filter_has, decide_True.
  - by rewrite (H 2%nat), decide_False by done.
  - by rewrite (H 0%nat), decide_False by done.
  - intros t g' Ht Hg. unfold rows_of. rewrite (H t). destruct (decide (t = 1%nat)) as [->|]; [|done].
    rewrite filter_has, decide_False; [by rewrite app_nil_r|]. unfold has_key in *. congruence.
Qed.
(** A group's name. *)
Lemma name_inserted g n d d' :
  (forall u, rows u d' ≡ₚ if decide (u = 2%nat) then filter (fun row => row !! 0%nat <> Some g) (rows u d) ++ [[g; n]] else rows u d) ->
  rows_of 2 g d' ≡ₚ [[g; n]] /\ rows_of 1 g d' ≡ₚ rows_of 1 g d /\ others_kept g d d'.
Proof.
  intros H. assert (HF : forall g', filter (has_key 2 g') (rows 2 d') ≡ₚ filter (has_key 2 g') (filter (fun row => ~ has_key 2 g row) (rows 2 d)) ++ (if decide (g' = g) then [[g; n]] else [])).
  { intros g'. rewrite (H 2%nat), decide_True by done. rewrite filter_has. apply Permutation_app.
    { rewrite (list_filter_iff (fun row => row !! 0%nat <> Some g) (fun row => ~ has_key 2 g row)) by done. done. }
    destruct (decide (g' = g)) as [->|Hne].
    - by rewrite decide_True.
    - rewrite decide_False; [done|]. unfold has_key. cbn. congruence. }
  split_and!.
  - unfold rows_of. rewrite HF, decide_True by done.
    by rewrite filter_none.
  - unfold rows_of. by rewrite (H 1%nat), decide_False by done.
  - split; [by rewrite (H 0%nat), decide_False by done|]. intros t g' Ht Hg. unfold rows_of. destruct (decide (t = 2%nat)) as [->|Hne].
    + rewrite HF, decide_False, app_nil_r by done. by rewrite filter_others.
    + by rewrite (H t), decide_False by done.
Qed.

(** ** What is outside the tables *)

Definition kept (s s' : ali D) : Prop := hyMap s' = hyMap s /\ cloudMap s' = cloudMap s.
Lemma wp_db_kept {A} (m : M D A) s (Q : A -> ali D -> Prop) :
  wp m (tables s) (fun a d => forall s', kept s s' -> done s' = done s -> answers s' = answers s -> tables s' = d -> Q a s') -> wp (db m) s Q.
Proof. intros H. apply wp_db. eapply wp_mono; [exact H|]. intros a d HQ. by apply HQ. Qed.

Lemma rows_perm t g d d' : rows t d' ≡ₚ rows t d -> rows_of t g d' ≡ₚ rows_of t g d.
Proof. intros H. unfold rows_of. by rewrite H. Qed.

(** The rows of a group are deleted from both tables. *)
Lemma group_cleared g s (Q : Z -> ali D -> Prop) :
  (forall s', kept s s' -> done s' = done s -> answers s' = answers s -> rows_of 1 g (tables s') = [] -> rows_of 2 g (tables s') = [] ->
    others_kept g (tables s) (tables s') -> Q 0 s') ->
  wp (db (table1_delete sqlite g)) s (fun _ s1 => wp (db (table2_delete sqlite g)) s1 Q).
Proof.
  intros HQ. apply wp_db_kept. apply (wp_delete (rows := rows) sqlite 1); [lia|]. intros d1 H1 s1 [Hh1 Hc1] Hd1 Ha1 Ht1.
  apply wp_db_kept. apply (wp_delete (rows := rows) sqlite 2); [lia|]. intros d2 H2 s2 [Hh2 Hc2] Hd2 Ha2 Ht2. subst.
  apply rows_deleted in H1 as (R1 & _ & O1); [|lia]. apply rows_deleted in H2 as (R2 & K2 & O2); [|lia].
  apply HQ; [split; congruence|congruence|congruence| |done|by eapply others_trans].
  apply Permutation_nil_r. by rewrite K2, R1 by lia.
Qed.

Definition deleted_text (g : string) : string :=
  cJSON_PrintUnformatted (JObject ([(Some "code"%string, JNumber (200, 0%nat)); string_member ("message", "ok")%string] ++ [(Some "DeleteBindSwitch"%string, JArray [JString g])])).

(** Deleting a group takes its name and its switches out of the tables, and
    nothing of the other groups; but the scene that keeps the switches alike is
    not deleted: the scene engine is told nothing. *)
Theorem deleted_group_keeps_its_scene root g s : printable root = true -> (nest root <= CJSON_NESTING_LIMIT)%nat ->
  (exists fs, root = JObject fs) -> cJSON_GetObjectItem root "GroupId" = Some (JString g) -> (String.length (deleted_text g) <= MAX_TEXT_LEN)%nat ->
  wp (delete_more_control sqlite (cJSON_PrintUnformatted root)) s (fun r s' =>
    r = 0 /\ kept s s' /\ rows_of 1 g (tables s') = [] /\ rows_of 2 g (tables s') = [] /\ others_kept g (tables s) (tables s') /\
    exists payload, done s' = done s ++ [PostEvent "SwitchBindReport" payload]).
Proof.
  intros Hp Hn [fs ->] Hg Hlen. unfold delete_more_control. rewrite printed_is_parsed by done. rewrite Hg. wp_step. apply wp_text_of.
  wp_step. eapply wp_mono; [apply (group_cleared g s (fun _ s2 => wp (response_control sqlite (Some g) "DeleteBindSwitch") s2 (fun r s' =>
    r = 0 /\ kept s s' /\ rows_of 1 g (tables s') = [] /\ rows_of 2 g (tables s') = [] /\ others_kept g (tables s) (tables s') /\
    exists payload, done s' = done s ++ [PostEvent "SwitchBindReport" payload])))|].
  2:{ intros r s1 H1. wp_step. exact H1. }
  intros s1 [Hh1 Hc1] Hd1 Ha1 R1 R2 O1. cbn [response_control].
  change (str_eq "AddBindSwitch" "DeleteBindSwitch" || str_eq "ModifyBindSwitch" "DeleteBindSwitch") with false. change (str_eq "QueryBindSwitch" "DeleteBindSwitch") with false.
  change (str_eq "DeleteBindSwitch" "DeleteBindSwitch") with true. cbv iota. wp_step. wp_step. cbv zeta. apply report_run; [exact Hlen|].
  intros l s2 _ (Hh2 & Hc2 & _ & Ht2) Hd2. rewrite Ht2. split_and!; try done; [split; congruence|]. eexists. by rewrite Hd2, Hd1.
Qed.

(** ** Requests that make a group *)

Record switch : Type := Switch { sw_product : string; sw_device : string; sw_loop : string }.
Definition switch_json (w : switch) : json :=
  string_object [("productKey", sw_product w); ("deviceName", sw_device w); ("SwitchLoop", sw_loop w)]%string.
Definition switch_row (g : string) (w : switch) : list string := [g; sw_product w; sw_device w; sw_loop w].
Definition group_request (g name : string) (ws : list switch) : json :=
  JObject ((string_member <$> [("GroupId", g); ("GroupName", name)]%string) ++ [(Some "ListData"%string, JArray (switch_json <$> ws))]).

Lemma switches_inserted g ws : Forall (fun w => Forall (fun f => (String.length f < 48)%nat) (switch_row g w)) ws -> forall s (Q : list unit -> ali D -> Prop),
  (forall r s', kept s s' -> done s' = done s -> answers s' = answers s -> rows_of 1 g (tables s') ≡ₚ rows_of 1 g (tables s) ++ (switch_row g <$> ws) ->
    rows_of 2 g (tables s') ≡ₚ rows_of 2 g (tables s) -> others_kept g (tables s) (tables s') -> Q r s') ->
  wp (for_each (insert_switch sqlite g) (switch_json <$> ws)) s Q.
Proof.
  induction 1 as [|w ws Hw _ IH]; intros s Q HQ; cbn [fmap list_fmap for_each].
  - wp_step. apply HQ; try done. by rewrite app_nil_r.
  - wp_step. unfold insert_switch. wp_step. apply wp_text_of. wp_step. apply wp_text_of. wp_step. apply wp_text_of. wp_step.
    apply wp_db_kept. apply (wp_insert (rows := rows) sqlite 1 (switch_row g w)); [lia|done|done|]. intros d' H s1 [Hh1 Hc1] Hd1 Ha1 Ht1. subst d'.
    wp_step. wp_step. apply (row_inserted g) in H as (R1 & R2 & O); [|done]. apply (IH s1). intros r s2 [Hh2 Hc2] Hd2 Ha2 R1' R2' O'. wp_step.
    apply HQ; [split; congruence|congruence|congruence| | |by eapply others_trans].
    + rewrite R1', R1, <- app_assoc. done.
    + by rewrite R2', R2.
Qed.

(** What keeps a switch like the others. *)
Definition switch_cond (g : string) (w : switch) (key : string) : json :=
  string_object [("Op", "AddCond"); ("Id", g); ("Logic", "Or"); ("CondType", "Event"); ("TriggerType", "StateSync"); ("Active", "Equ");
    ("KeyCoding", "Original"); ("DevId", sw_device w); ("Key", key); ("Value", "0"); ("ContinueTime", "0")]%string.
(** The device's key of a switch, by the profile. *)
Definition switch_key (m : gmap string CloudLinkDev) (w : switch) : option string :=
  dev ← m !! sw_device w;
  a ← cdAttr dev !! index_of (fun a => str_eq (sw_loop w) (cloudKey a)) (cdAttr dev);
  Some (caHyKey a).

Lemma switches_known g ws keys (s : ali D) : Forall2 (fun w key => switch_key (cloudMap s) w = Some key) ws keys ->
  switch_triggers g (switch_json <$> ws) s = Val (Some (zip_with (switch_cond g) ws keys), s).
Proof.
  induction 1 as [|w key ws keys Hk _ IH]; [done|]. cbn [fmap list_fmap switch_triggers zip_with]. unfold mbind at 1, M_bind at 1.
  assert (switch_trigger g (switch_json w) s = Val (Some (switch_cond g w key), s)) as ->.
  { unfold switch_trigger, mbind, M_bind, getS. change (text_of (cJSON_GetObjectItem (switch_json w) "deviceName") s) with (Val (sw_device w, s) : res (string * ali D)).
    cbv iota beta. unfold switch_key in Hk. destruct (cloudMap s !! sw_device w) as [dev|]; [|done]. cbn [mbind option_bind] in Hk.
    assert (bool_decide (cdAttr dev = []) = false) as -> by (apply bool_decide_eq_false_2; intros E; rewrite E in Hk; done).
    change (text_of (cJSON_GetObjectItem (switch_json w) "SwitchLoop") s) with (Val (sw_loop w, s) : res (string * ali D)). cbv iota beta.
    destruct (cdAttr dev !! _) as [a|]; [|done]. by injection Hk as <-. }
  unfold mbind, M_bind. change (map switch_json ws) with (switch_json <$> ws). rewrite IH. reflexivity.
Qed.

(** The report of a group whose rows come in the order [rs]. *)
Definition group_text (serviceid g name : string) (rs : list (list string)) : string :=
  cJSON_PrintUnformatted (JObject ([(Some "code"%string, JNumber (200, 0%nat)); string_member ("message", "ok")%string] ++
    [(Some serviceid, JArray [JObject ((string_member <$> [("GroupId", g); ("Enable", "1"); ("GroupName", name)]%string) ++
      [(Some "ListData"%string, JArray (group_select_cb <$> rs))])])])).
Definition service_answer (serviceid : string) : string :=
  cJSON_PrintUnformatted (JObject ([(Some "code"%string, JNumber (200, 0%nat)); string_member ("message", "ok")%string] ++ [string_member (serviceid, ""%string)])).

(** The rows of a group, as its report gives them. *)
Lemma group_listed g name ws s (Q : list json -> ali D -> Prop) :
  rows_of 2 g (tables s) ≡ₚ [[g; name]] -> rows_of 1 g (tables s) ≡ₚ (switch_row g <$> ws) ->
  (forall rs s', rs ≡ₚ switch_row g <$> ws -> kept s s' -> done s' = done s -> tables s' = tables s ->
    Q [JObject ((string_member <$> [("GroupId", g); ("Enable", "1"); ("GroupName", name)]%string) ++ [(Some "ListData"%string, JArray (group_select_cb <$> rs))])] s') ->
  wp (group_list sqlite (Some g)) s Q.
Proof.
  intros R2 R1 HQ. unfold group_list. wp_step. apply wp_db_kept. apply (wp_select (rows := rows) sqlite 2); [lia|]. intros r Hr s1 [Hh1 Hc1] Hd1 _ Ht1.
  fold (rows_of 2 g (tables s)) in Hr. rewrite R2 in Hr. apply Permutation_singleton_r in Hr. subst r. cbn [for_each].
  wp_step. unfold group_name_select_cb. cbn [nth]. wp_step. apply wp_db_kept. apply (wp_select (rows := rows) sqlite 1); [lia|]. intros r Hr s2 [Hh2 Hc2] Hd2 _ Ht2.
  rewrite Ht1 in Hr. fold (rows_of 1 g (tables s)) in Hr. rewrite R1 in Hr. wp_step. wp_step. wp_step. apply HQ; [done|split; congruence|congruence|congruence].
Qed.

Lemma kept_trans s s' s2 : kept s s' -> kept s' s2 -> kept s s2.
Proof. intros [? ?] [? ?]. split; congruence. Qed.
Lemma same_kept s s' : same_devs s s' -> kept s s'.
Proof. intros (? & ? & _). by split. Qed.

(** The commands that the scene engine gets for a group. *)
Definition group_commands (g : string) (ws : list switch) (keys : list string) : list (list json) :=
  [[string_object [("Op", "DelScene"); ("Id", g)]%string];
   [string_object [("Op", "AddScene"); ("Id", g); ("Enable", "1"); ("ExecDelayed", "0")]%string];
   zip_with (switch_cond g) ws keys].

Record group_ok (s : ali D) (serviceid g name : string) (ws : list switch) (keys : list string) : Prop := GroupOk {
  go_some : ws <> [];
  go_service : serviceid ∈ ["AddBindSwitch"; "ModifyBindSwitch"]%string;
  go_text : printable (group_request g name ws) = true;
  go_fields : Forall (fun f => (String.length f < 48)%nat) (name :: mjoin (switch_row g <$> ws));
  go_known : Forall2 (fun w key => switch_key (cloudMap s) w = Some key) ws keys;
  go_commands : Forall scene_fits (group_commands g ws keys);
  go_report : forall rs, rs ≡ₚ switch_row g <$> ws -> (String.length (group_text serviceid g name rs) <= MAX_TEXT_LEN)%nat
}.

Lemma group_request_nest g name ws : (nest (group_request g name ws) <= CJSON_NESTING_LIMIT)%nat.
Proof.
  transitivity 3%nat; [|by apply Nat.leb_le]. unfold group_request. cbn [nest foldr fmap list_fmap app snd string_member fst].
  change (map switch_json ws) with (switch_json <$> ws).
  assert (foldr (fun j n => Nat.max (nest j) n) 0%nat (switch_json <$> ws) <= 1)%nat as H; [|lia].
  induction ws as [|w ws IH]; [cbn; lia|]. cbn [fmap list_fmap foldr]. unfold switch_json at 1. rewrite object_nest. change (map switch_json ws) with (switch_json <$> ws). lia.
Qed.

(** C24: a request that adds or changes a group puts its name and its switches in
    the tables in place of what they had of the group, and changes nothing of the
    others; the scene engine is told to drop the group's scene, to make it anew and
    to add a condition for every switch in order; and the cloud gets a report
    with all its switches. *)
Theorem group_is_made serviceid g name ws keys s : group_ok s serviceid g name ws keys ->
  wp (add_mod_more_control sqlite serviceid (cJSON_PrintUnformatted (group_request g name ws))) s (fun r s' =>
    r = 0 /\ rows_of 1 g (tables s') ≡ₚ (switch_row g <$> ws) /\ rows_of 2 g (tables s') ≡ₚ [[g; name]] /\ others_kept g (tables s) (tables s') /\
    exists rs l, rs ≡ₚ switch_row g <$> ws /\ joined l.*2 = group_text serviceid g name rs /\
      done s' = done s ++ ((fun c => ClientWrite (frame (scene_text c))) <$> group_commands g ws keys) ++
        [PostEvent "SwitchBindReport" (cJSON_PrintUnformatted (string_object (l ++ [("switchBindReport"%string, service_answer serviceid)])))]).
Proof.
  intros [Hne Hsv Hp Hf Hk Hc Hrep]. apply Forall_cons in Hf as [Hname Hf]. unfold group_commands in Hc. rewrite !Forall_cons in Hc. destruct Hc as (Hc1 & Hc2 & Hc3 & _).
  assert (Hf' : Forall (fun w => Forall (fun f => (String.length f < 48)%nat) (switch_row g w)) ws).
  { clear -Hf. induction ws as [|w ws IH]; [done|]. change (mjoin (switch_row g <$> (w :: ws))) with (switch_row g w ++ mjoin (switch_row g <$> ws)) in Hf.
    apply Forall_app in Hf as [H1 H2]. constructor; [done|by apply IH]. }
  assert (Hg : (String.length g < 48)%nat).
  { destruct ws as [|w ws]; [done|]. apply Forall_cons in Hf' as [Hw _]. by apply Forall_cons in Hw as [Hw _]. }
  unfold add_mod_more_control. rewrite printed_is_parsed; [|done|apply group_request_nest]. unfold group_request at 1.
  change (cJSON_GetObjectItem (JObject ((string_member <$> [("GroupId", g); ("GroupName", name)]%string) ++ [(Some "ListData"%string, JArray (switch_json <$> ws))])) "GroupId") with (Some (JString g)).
  change (cJSON_GetObjectItem (JObject ((string_member <$> [("GroupId", g); ("GroupName", name)]%string) ++ [(Some "ListData"%string, JArray (switch_json <$> ws))])) "GroupName") with (Some (JString name)).
  change (cJSON_GetObjectItem (JObject ((string_member <$> [("GroupId", g); ("GroupName", name)]%string) ++ [(Some "ListData"%string, JArray (switch_json <$> ws))])) "ListData") with (Some (JArray (switch_json <$> ws))).
  cbv beta iota zeta. wp_step. apply wp_text_of.
  set (Q := fun (r : Z) (s' : ali D) => _). wp_step.
  eapply wp_mono; [eapply (group_cleared g s)|intros r0 s0 H0; wp_step; exact H0].
  intros s1 K1 Hd1 _ R11 R12 O1. cbv beta. wp_step. unfold delete_single_scene. cbn [add_text app]. apply scene_dispatch_run; [done|done|].
  intros s2 Hs2 Hd2 _. wp_step. apply switches_inserted; [done|]. intros r3 s3 K3 Hd3 _ R31 R32 O3. wp_step. apply wp_text_of. wp_step.
  apply wp_db_kept. apply (wp_insert (rows := rows) sqlite 2 [g; name]); [lia|done|by constructor; [exact Hg|constructor; [exact Hname|constructor]]|]. intros d4 H4 s4 K4 Hd4 _ Ht4. subst d4.
  apply name_inserted in H4 as (R42 & R41 & O4). wp_step. unfold more_control_add_triggers. change (elements (Some (JArray (switch_json <$> ws)))) with (switch_json <$> ws).
  rewrite bool_decide_eq_false_2 by by destruct ws. wp_step. unfold more_control_add_scene. apply scene_dispatch_run; [done|done|]. intros s5 Hs5 Hd5 _.
  pose proof (kept_trans _ _ _ K1 (kept_trans _ _ _ (same_kept _ _ Hs2) (kept_trans _ _ _ K3 (kept_trans _ _ _ K4 (same_kept _ _ Hs5))))) as K5.
  wp_step. unfold wp at 1. rewrite (switches_known g ws keys); [|by rewrite (proj2 K5)].
  apply scene_dispatch_run; [|done|].
  { inversion Hk; [done|]. by subst. }
  intros s6 Hs6 Hd6 _.
  destruct Hs2 as (_ & _ & _ & Ht2), Hs5 as (_ & _ & _ & Ht5), Hs6 as (_ & _ & _ & Ht6).
  assert (G1 : rows_of 1 g (tables s6) ≡ₚ switch_row g <$> ws) by by rewrite Ht6, Ht5, R41, R31, Ht2, R11.
  assert (G2 : rows_of 2 g (tables s6) ≡ₚ [[g; name]]) by by rewrite Ht6, Ht5, R42.
  assert (GO : others_kept g (tables s) (tables s6)).
  { rewrite Ht6, Ht5. eapply others_trans; [exact O1|]. rewrite <- Ht2. by eapply others_trans. }
  unfold response_control. assert (str_eq "AddBindSwitch" serviceid || str_eq "ModifyBindSwitch" serviceid = true) as ->.
  { apply list_elem_of_In in Hsv. by destruct Hsv as [<-|[<-|[]]]. }
  assert (str_eq "QueryBindSwitch" serviceid = false) as -> by (apply list_elem_of_In in Hsv; by destruct Hsv as [<-|[<-|[]]]).
  wp_step. apply (group_listed g name ws); [done|done|]. intros rs s7 Hrs _ Hd7 Ht7. cbv zeta. apply report_run; [by apply Hrep|].
  intros l s8 Hl (_ & _ & _ & Ht8) Hd8. unfold Q. rewrite Ht8, Ht7. split_and!; [done..|]. exists rs, l. split_and!; [done|exact Hl|].
  rewrite Hd8, Hd7, Hd6, Hd5, Hd4, Hd3, Hd2, Hd1. by rewrite <- !app_assoc.
Qed.
End group.

(** * A group of one switch *)

Definition hall : switch := Switch "pk" "d1" "PowerSwitch".
Definition hall_tables : memory := {[1%nat := [switch_row "9" hall]; 2%nat := [["9"; "hall"]]]}%string.
Definition delete_root : json := JObject [(Some "GroupId", JString "9")]%string.

Lemma deleted_group_keeps_its_scene_witness :
  rows_of memory_rows 1 "9" hall_tables = [switch_row "9" hall] /\
  wp (delete_more_control memory_sqlite (cJSON_PrintUnformatted delete_root)) (scene_home hall_tables) (fun r s' =>
    r = 0 /\ kept (scene_home hall_tables) s' /\ rows_of memory_rows 1 "9" (tables s') = [] /\ rows_of memory_rows 2 "9" (tables s') = [] /\
    others_kept memory_rows "9" hall_tables (tables s') /\ exists payload, done s' = [PostEvent "SwitchBindReport" payload]).
Proof.
  split; [vm_compute; reflexivity|].
  apply (deleted_group_keeps_its_scene memory_sqlite memory_rows delete_root "9" (scene_home hall_tables)).
  - reflexivity.
  - apply Nat.leb_le. reflexivity.
  - eexists. reflexivity.
  - reflexivity.
  - apply Nat.leb_le. vm_compute. reflexivity.
Defined.

Lemma group_is_made_witness :
  wp (add_mod_more_control memory_sqlite "AddBindSwitch" (cJSON_PrintUnformatted (group_request "9" "hall" [hall]))) (scene_home ∅) (fun r s' =>
    r = 0 /\ rows_of memory_rows 1 "9" (tables s') ≡ₚ [switch_row "9" hall] /\ rows_of memory_rows 2 "9" (tables s') ≡ₚ [["9"; "hall"]%string] /\
    others_kept memory_rows "9" ∅ (tables s') /\
    exists rs l, rs ≡ₚ [switch_row "9" hall] /\ joined l.*2 = group_text "AddBindSwitch" "9" "hall" rs /\
      done s' = ((fun c => ClientWrite (frame (scene_text c))) <$> group_commands "9" [hall] ["Switch"%string]) ++
        [PostEvent "SwitchBindReport" (cJSON_PrintUnformatted (string_object (l ++ [("switchBindReport"%string, service_answer "AddBindSwitch")])))]).
Proof.
  apply (group_is_made memory_sqlite memory_rows "AddBindSwitch" "9" "hall" [hall] ["Switch"%string] (scene_home ∅)). constructor.
  - discriminate.
  - by left.
  - vm_compute. reflexivity.
  - repeat constructor; apply Nat.ltb_lt; reflexivity.
  - repeat constructor.
  - repeat (apply Forall_cons; split; [apply Nat.ltb_lt; vm_compute; reflexivity|]). apply Forall_nil. exact I.
  - intros rs Hrs. apply Permutation_singleton_r in Hrs. subst rs. apply Nat.leb_le. vm_compute. reflexivity.
Defined.
