(* ===== verification/AliEngine.v ===== *)
(** From the cloud's gateway to the scene engine: the commands of a rule arrive at
    the hylink program, which hands the message to the engine once for each of
    them. *)
From stdpp Require Import gmap strings pretty.
From S2P Require Import Prelude Heap CString Json JsonText JsonProps CommonFunc SceneDispatch HyLink HyLinkProps AliDb AliLink AliLinkProps AliRequests AliScene AliSceneProps.

(** * The members of commands *)

Definition command_names : list string :=
  ["Op"; "Id"; "Logic"; "CondType"; "TimeKey"; "StartMinu"; "EndMinu"; "StartHour"; "EndHour"; "Repeat"; "Week"; "Active";
   "TriggerType"; "KeyCoding"; "ActionId"; "DevId"; "Key"; "Value"]%string.
Definition named (fs : list (string * string)) : Prop := Forall (fun f => f.1 ∈ command_names) fs.
Lemma named_no_device fs : named fs -> cJSON_GetObjectItem (string_object fs) "DeviceId" = None.
Proof.
  intros H. unfold cJSON_GetObjectItem, string_object. assert (filter (fun f => same_name "DeviceId" f = true) (string_member <$> fs) = []) as ->; [|done].
  induction H as [|[n v] fs Hn _ IH]; [done|]. cbn [fmap list_fmap]. rewrite filter_cons, decide_False; [exact IH|].
  unfold same_name, string_member. cbn [fst] in *. assert (forallb (fun n => negb (strcase_eq "DeviceId" n)) command_names = true) as HC by reflexivity.
  rewrite forallb_forall in HC. specialize (HC n ltac:(by apply list_elem_of_In)). apply negb_true_iff in HC. by rewrite HC.
Qed.
Lemma named_app a b : named a -> named b -> named (a ++ b).
Proof. apply Forall_app_2. Qed.
Lemma named_add fs n t : named fs -> n ∈ command_names -> named (add_text fs n t).
Proof. intros H Hn. destruct t; [|done]. apply named_app; [done|]. by constructor. Qed.

Create HintDb named discriminated.
#[export] Hint Resolve named_app named_add : named.
#[export] Hint Extern 1 (named _) => (unfold named; repeat constructor) : named.

Section engine.
Context {D : Type} (char_signed : bool) (kh_values : gmap string positive -> list positive) (stale : Z).
Abbreviation T A := (M (ali D) A).

(** What a computation gives when it gives something, with nothing done outside. *)
Definition yields {A} (m : T A) (P : A -> Prop) : Prop := forall s a s', m s = Val (a, s') -> done s' = done s /\ P a.
Definition quiet {A} (m : T A) : Prop := yields m (fun _ => True).
Lemma yields_after {A B} (m : T A) (k : A -> T B) (P : A -> Prop) (Q : B -> Prop) : yields m P -> (forall a, P a -> yields (k a) Q) -> yields (a ← m; k a) Q.
Proof.
  intros Hm H s b s' E. unfold mbind, M_bind in E. destruct (m s) as [[a s1]|] eqn:Em; [|done].
  destruct (Hm _ _ _ Em) as [Hd Ha]. destruct (H a Ha _ _ _ E) as [Hd' Hb]. split; [congruence|done].
Qed.
Lemma yields_bind {A B} (m : T A) (k : A -> T B) P : quiet m -> (forall a, yields (k a) P) -> yields (a ← m; k a) P.
Proof. intros Hm H. by eapply yields_after. Qed.
Lemma yields_ret {A} (a : A) (P : A -> Prop) : P a -> yields (mret a) P.
Proof. intros H s b s' [= <- <-]. by split. Qed.
Lemma quiet_get_or {A} f (o : option A) : quiet (get_or f o).
Proof. intros s b s' E. destruct o; [|done]. by injection E as <- <-. Qed.
Lemma quiet_text_of o : quiet (text_of o).
Proof. unfold text_of, text_ptr. apply yields_bind; [|intros; apply quiet_get_or]. apply yields_bind; [apply quiet_get_or|]. intros a. by apply yields_ret. Qed.
Lemma quiet_text_ptr o : quiet (text_ptr o).
Proof. unfold text_ptr. apply yields_bind; [apply quiet_get_or|]. intros a. by apply yields_ret. Qed.
Lemma quiet_strcpy n t : quiet (strcpy n t).
Proof. unfold strcpy. destruct (_ <? _)%nat; [by apply yields_ret|by intros s a s' E]. Qed.
Lemma quiet_arr_get {A} (l : list A) i : quiet (arr_get l i).
Proof. unfold arr_get. destruct (i <? 0); [by intros s a s' E|apply quiet_get_or]. Qed.
Lemma quiet_getS : quiet getS.
Proof. by intros s a s' [= <- <-]. Qed.
Lemma quiet_if {A} (b : bool) (m n : T A) : quiet m -> quiet n -> quiet (if b then m else n).
Proof. by destruct b. Qed.
Lemma quiet_mret {A} (a : A) : quiet (mret a).
Proof. by apply yields_ret. Qed.
Lemma quiet_next_key p : quiet (next_key p).
Proof. unfold next_key. apply yields_bind; [apply quiet_getS|]. intros s. apply yields_bind; [by intros s1 a s' [= <- <-]|]. intros _. apply quiet_strcpy. Qed.
Lemma quiet_active o : quiet (active_of o).
Proof. unfold active_of. destruct o; [|apply quiet_mret]. cbv zeta. apply quiet_if; [by intros s1 a s' E|apply quiet_arr_get]. Qed.
Lemma quiet_days toks : forall b, quiet (add_days toks b).
Proof.
  induction toks as [|d toks IH]; intros b; [apply quiet_mret|]. cbn [add_days]. apply yields_bind; [apply quiet_arr_get|]. intros day.
  apply yields_bind; [apply quiet_strcpy|]. intros w. apply IH.
Qed.
#[local] Hint Resolve quiet_get_or quiet_text_of quiet_text_ptr quiet_strcpy quiet_getS quiet_next_key quiet_active quiet_days : named.

Lemma status_named params fs : named fs -> yields (getSceneDevStatus params fs) named.
Proof.
  intros H. unfold getSceneDevStatus. apply yields_bind; [auto with named|]. intros t. apply yields_bind; [auto with named|]. intros active. cbv zeta.
  apply yields_bind; [auto with named|]. intros d. apply yields_bind; [auto with named|]. intros s.
  assert (named (fs ++ [("Active"%string, active)])) as HA by auto with named.
  destruct (cloudMap s !! d) as [dev|]; [|by apply yields_ret]. apply yields_bind; [apply quiet_if; [apply quiet_mret|auto with named]|]. intros p.
  destruct (scene_key dev p) as [k|]; [|by apply yields_ret].
  apply yields_bind; [auto with named|]. intros v. apply yields_bind; [apply quiet_strcpy|]. intros b. apply yields_ret. apply named_app; [done|]. apply named_app; [|auto with named].
  unfold trigger_type. destruct (hyMap s !! d) as [hy|]; [|constructor]. destruct (attr hy !! _); [auto with named|constructor].
Qed.
Lemma cron_named cron fs : named fs -> yields (cron_fields cron fs) named.
Proof.
  intros H. unfold cron_fields. cbv zeta. destruct (strsep (Some cron) " ,") as [m r1]. destruct (strsep r1 " ,") as [h r2]. destruct (strsep r2 " ,") as [x r3].
  destruct (strsep r3 " ,") as [mo r4]. apply yields_bind; [auto with named|]. intros t. apply yields_bind; [auto with named|]. intros w. apply yields_ret.
  apply named_app; [|auto with named]. repeat (apply named_add; [|by apply (bool_decide_unpack _); vm_compute]). exact H.
Qed.
Lemma trigger_named id sub : yields (add_trigger id sub) (fun j => exists fs, j = string_object fs /\ named fs).
Proof.
  unfold add_trigger. cbv zeta. assert (named (add_text [("Op", "AddCond")]%string "Id" id ++ [("Logic", "Or")]%string)) as H.
  { apply named_app; [|auto with named]. apply named_add; [auto with named|by apply (bool_decide_unpack _); vm_compute]. }
  apply (yields_after _ _ named); [|intros fs Hfs; apply yields_ret; eauto]. destruct (has_item _ "cron").
  - apply yields_bind; [auto with named|]. intros k. apply yields_bind; [auto with named|]. intros c. apply cron_named. apply named_app; [done|auto with named].
  - destruct (has_item _ "deviceName"); [|by apply yields_ret]. apply status_named. apply named_app; [done|auto with named].
Qed.
Lemma for_each_given {A B} (f : A -> T B) l (P : B -> Prop) : (forall a, yields (f a) P) -> yields (for_each f l) (fun r => length r = length l /\ Forall P r).
Proof.
  intros H. induction l as [|a l IH]; [by apply yields_ret|]. cbn [for_each]. eapply yields_after; [apply H|]. intros b Hb. eapply yields_after; [exact IH|].
  intros r [Hl Hr]. apply yields_ret. cbn [length]. split; [by rewrite Hl|by constructor].
Qed.

(** C26: a rule of the cloud with n triggers goes to the hylink program in one
    message, and there the scene engine is given this message n times: every
    trigger is added n times. *)
Theorem triggers_are_added_again id triggers (s s' : ali D) r fs : triggers <> [] ->
  addtriggers id (Some (JArray triggers)) s = Val (r, s') ->
  exists l, length l = length triggers /\
    done s' = done s ++ [ClientWrite (frame (scene_text (string_object <$> l)))] /\
    (forallb no_nul_fields l = true ->
     hylinkRecvManage char_signed kh_values stale (frame (scene_text (string_object <$> l))) fs =
       (times (length triggers) (scene_adapter_cmd char_signed (scene_text (string_object <$> l))) ;; mret 0) fs).
Proof.
  intros Hne E. unfold addtriggers in E. change (elements (Some (JArray triggers))) with triggers in E. rewrite bool_decide_eq_false_2 in E by done.
  unfold mbind at 1, M_bind at 1, modify in E. unfold mbind, M_bind in E.
  destruct (for_each (add_trigger id) triggers (set_time_key 0 s)) as [[js s1]|] eqn:Ej; [|done].
  destruct (for_each_given _ _ _ (trigger_named id) _ _ _ Ej) as (Hd & Hlen & Hjs).
  assert (exists l, js = string_object <$> l /\ Forall named l) as (l & -> & Hl).
  { clear -Hjs. induction Hjs as [|j js (fs & -> & Hfs) _ (l & -> & Hl)]; [by exists []|]. exists (fs :: l). split; [done|by constructor]. }
  rewrite length_fmap in Hlen. exists l. split_and!; [done| |].
  - unfold sceneHyDispatch in E. rewrite bool_decide_eq_false_2 in E by (intros E'; apply (f_equal length) in E'; rewrite length_fmap, Hlen in E'; by destruct triggers).
    unfold hylinkDispatch in E. fold (scene_text (string_object <$> l)) in E. destruct (2050 <=? _)%nat; [done|].
    assert (HW : wp (call (ClientWrite (frame (scene_text (string_object <$> l))))) s1 (fun _ s2 => done s2 = done s1 ++ [ClientWrite (frame (scene_text (string_object <$> l)))]))
      by (apply wp_call; auto).
    unfold wp in HW. rewrite E in HW. rewrite HW, Hd. done.
  - intros Hn. destruct (message_printable "Dispatch" "LocalScene" l) as [Hp Hnest]; [done..|].
    unfold hylinkRecvManage. change (frame (scene_text (string_object <$> l))) with (frame (cJSON_PrintUnformatted (message "Dispatch" "LocalScene" (string_object <$> l)))).
    replace (frame (cJSON_PrintUnformatted (message "Dispatch" "LocalScene" (string_object <$> l))))
      with (frames [message "Dispatch" "LocalScene" (string_object <$> l)]) by (cbn [frames]; by rewrite app_nil_s).
    rewrite frames_handled.
    2:{ constructor; [|done]. split; [done|]. etrans; [exact Hnest|by apply Nat.leb_le]. }
    cbn [recv_all]. unfold mbind at 1, M_bind at 1. rewrite scene_request_is_repeated.
    + rewrite length_fmap, Hlen. unfold scene_text. unfold mbind, M_bind. by destruct (times _ _ fs) as [[? ?]|].
    + apply Forall_fmap. eapply Forall_impl; [exact Hl|]. intros f Hf. by apply named_no_device.
Qed.
End engine.

(** Two triggers on the lamp. *)
Definition level_trigger (n : Z) : json :=
  JObject [(Some "params", JObject [(Some "deviceName", JString "d1"); (Some "propertyName", JString "Brightness"); (Some "compareType", JString ">"); (Some "compareValue", JNumber (n, 0%nat))])]%string.
Lemma triggers_are_added_again_witness :
  exists r s', addtriggers (Some "rule"%string) (Some (JArray [level_trigger 10; level_trigger 50])) (scene_home ∅) = Val (r, s') /\
  exists l, length l = 2%nat /\ done s' = [ClientWrite (frame (scene_text (string_object <$> l)))] /\
    (forallb no_nul_fields l = true ->
     hylinkRecvManage true in_order 0 (frame (scene_text (string_object <$> l))) started =
       (times 2 (scene_adapter_cmd true (scene_text (string_object <$> l))) ;; mret 0) started).
Proof.
  destruct (addtriggers (Some "rule"%string) (Some (JArray [level_trigger 10; level_trigger 50])) (scene_home ∅)) as [[r s']|f] eqn:E; [|vm_compute in E; discriminate].
  exists r, s'. split; [reflexivity|].
  exact (triggers_are_added_again true in_order 0 (Some "rule"%string) [level_trigger 10; level_trigger 50] (scene_home ∅) s' r started ltac:(discriminate) E).
Defined.
