(* ===== verification/Zcl.v ===== *)
(** Frames of the ZigBee Cluster Library as the ZigBee program of the gateway makes
    and reads them (src/tyzigbee/src/zigbee/tyzigbee): lengths of values by their
    type, the numbers of commands, buffers of bytes. *)
From stdpp Require Import base list.
From S2P Require Import Prelude CString.

Definition Z3_PROFILE_ID_HA : Z := 0x0104.
Definition Z3_CMD_TYPE_GLOBAL : Z := 1.
Definition Z3_CMD_TYPE_PRIVATE : Z := 2.
Definition Z3_CMD_TYPE_ZDO : Z := 3.
Definition Z3_FRAME_TYPE_UNICAST : Z := 0.
Definition ZCL_PRIVATE_CLUSTER : Z := 0xef00.
Definition READ_ATTRIBUTE : Z := 0.
Definition READ_ATTRIBUTES_RESPONSE : Z := 1.
Definition WRITE_ATTRIBUTES : Z := 2.
Definition WRITE_ATTRIBUTES_RESPONSE : Z := 4.
Definition REPORT_ATTRIBUTES : Z := 0x0a.
(** The commands of the private cluster that carry a value. *)
Definition TY_DATA : list Z := [1; 2; 3; 5; 6].
Definition TUYA_MCU_VERSION_RSP : Z := 0x11.
Definition TUYA_MCU_SYNC_TIME : Z := 0x24.

(** ty_z3_aps_frame_s of the SDK; [zmessage]: the bytes that are allocated for it. *)
Record aps_frame : Type := Aps {
  dev_id : string; profile_id : Z; cluster_id : Z; src_endpoint : Z; dst_endpoint : Z;
  cmd_type : Z; cmd_id : Z; frame_type : Z; msg_length : Z; zmessage : list Z
}.
Definition with_ends (cluster src dst : Z) (f : aps_frame) : aps_frame :=
  Aps (dev_id f) (profile_id f) cluster src dst (cmd_type f) (cmd_id f) (frame_type f) (msg_length f) (zmessage f).
Definition with_cmd (type cmd : Z) (f : aps_frame) : aps_frame :=
  Aps (dev_id f) (profile_id f) (cluster_id f) (src_endpoint f) (dst_endpoint f) type cmd (frame_type f) (msg_length f) (zmessage f).
Definition with_message (len : Z) (msg : list Z) (f : aps_frame) : aps_frame :=
  Aps (dev_id f) (profile_id f) (cluster_id f) (src_endpoint f) (dst_endpoint f) (cmd_type f) (cmd_id f) (frame_type f) len msg.

(** * Buffers *)

Definition u16 (z : Z) : Z := z mod 65536.
(** Two bytes as the processor stores them, low byte first. *)
Definition le16 (z : Z) : list Z := [Z.land z 0xff; Z.land (Z.shiftr z 8) 0xff].

Section buffers.
Context {S : Type}.
Definition put_bytes (off : nat) (bs buf : list Z) : M S (list Z) :=
  if (off + length bs <=? length buf)%nat then mret (take off buf ++ bs ++ drop (off + length bs) buf) else fail OutOfBounds.
Definition get_bytes (off : nat) (n : Z) (buf : list Z) : M S (list Z) :=
  if (n <? 0) || (Z.of_nat (length buf) <? Z.of_nat off + n) then fail OutOfBounds else mret (take (Z.to_nat n) (drop off buf)).
End buffers.

(** * Lengths of values *)

Definition zcl_types : list (Z * list Z) :=
  [(0, [0x00; 0xff]);
   (1, [0x10; 0x08; 0x18; 0x20; 0x28; 0x30]);
   (2, [0x09; 0x19; 0x21; 0x29; 0x31; 0x38; 0xe8; 0xe9]);
   (3, [0x0a; 0x1a; 0x22; 0x2a]);
   (4, [0x0b; 0x1b; 0x23; 0x2b; 0x39; 0xe0; 0xe1; 0xe2; 0xea]);
   (5, [0x0c; 0x1c; 0x24; 0x2c]);
   (6, [0x0d; 0x1d; 0x25; 0x2d]);
   (7, [0x0e; 0x1e; 0x26; 0x2e]);
   (8, [0x0f; 0x1f; 0x27; 0x2f; 0x3a; 0xf0]);
   (16, [0xf1])].
Fixpoint type_length (l : list (Z * list Z)) (dataType : Z) : option Z :=
  match l with
  | [] => None
  | (n, types) :: l => if existsb (Z.eqb dataType) types then Some n else type_length l dataType
  end.
Definition byte_string (dataType : Z) : bool := existsb (Z.eqb dataType) [0x41; 0x42].
Definition long_string (dataType : Z) : bool := existsb (Z.eqb dataType) [0x43; 0x44].

(** The length of the value and of the length before it; [data] are the bytes from
    the value on, if there are any. *)
Definition getZcl3DataType {S} (dataType : Z) (data : option (list Z)) : M S (Z * Z) :=
  if byte_string dataType then
    d ← get_or NullDeref data; n ← arr_get d 0; mret (n, 1)
  else if long_string dataType then
    d ← get_or NullDeref data; n0 ← arr_get d 0; n1 ← arr_get d 1; mret (n0 + Z.shiftl n1 8, 2)
  else mret (default 0 (type_length zcl_types dataType), 0).

Definition getZcl3ProvateDataType (dataType : Z) : Z :=
  if existsb (Z.eqb dataType) [0; 3] then 0xff
  else if existsb (Z.eqb dataType) [1; 4] then 1
  else if dataType =? 2 then 4
  else -1.
