(* ===== verification/Zigbee.v ===== *)
(** The ZigBee program of the gateway (src/tyzigbee/src): it joins ZigBee devices,
    turns commands of the hylink program into ZCL frames and frames of devices into
    messages to hylink.  The SDK, the socket, the database and the shell are a trace
    and answers; the Python scripts that convert values are a parameter. *)
From stdpp Require Import gmap strings pretty.
From Stdlib Require Import Ascii.
From S2P Require Import Prelude CString Json JsonText CommonFunc HyBase64 Zcl.
From S2P Require Base64.

(** * Data (hylinkListFunc.h, zigbeeListFunc.h) *)

Record HylinkDev : Type := Dev { DeviceId : string; ModelId : string; Version : string; version : Z; activeTime : Z }.
Record ZigbeeAttr : Type := ZAttr {
  zHyKey : string; hyKeyPrivate : Z; srcEndpoint : Z; dstEndpoint : Z; AttributeId : Z; ClusterId : Z;
  z3CmdType : Z; z3CmdId : Z; dataType : Z
}.
Record SceneAttr : Type := SAttr { sKey : string; sValue : list string }.
Record zigbeeDev : Type := ZDev {
  zModelId : string; report_modelId : string; manuName : string; heart_type : Z; heartbeatTime : Z;
  zAttr : list ZigbeeAttr; zScene : list SceneAttr
}.
Definition with_Version (v : string) (d : HylinkDev) : HylinkDev := Dev (DeviceId d) (ModelId d) v (version d) (activeTime d).
Definition with_version (v : Z) (d : HylinkDev) : HylinkDev := Dev (DeviceId d) (ModelId d) (Version d) v (activeTime d).
Definition with_activeTime (t : Z) (d : HylinkDev) : HylinkDev := Dev (DeviceId d) (ModelId d) (Version d) (version d) t.

(** What is done outside. *)
Inductive zigbee_io : Type :=
| ToClient (data : string)
| SendZcl (f : aps_frame)
| PermitJoin (permit : bool)
| DevDel (id : option string)
| DbInsert (id model : string)
| DbDelete (id : string)
| DbClose
| DbReset
| Shell (command : string).

(** [python]: the interpreter has not been ended; [running]: nor the program. *)
Record zigbee : Type := Zigbee {
  hyMap : gmap string HylinkDev;
  zigbeeMap : gmap string zigbeeDev;
  now : Z;
  python_on : bool;
  running : bool;
  answers : list Z;
  done : list zigbee_io
}.
Abbreviation T := (M zigbee).

Definition set_hy m (s : zigbee) : zigbee := Zigbee m (zigbeeMap s) (now s) (python_on s) (running s) (answers s) (done s).
Definition set_zigbee m (s : zigbee) : zigbee := Zigbee (hyMap s) m (now s) (python_on s) (running s) (answers s) (done s).
Definition set_python b (s : zigbee) : zigbee := Zigbee (hyMap s) (zigbeeMap s) (now s) b (running s) (answers s) (done s).
Definition set_running b (s : zigbee) : zigbee := Zigbee (hyMap s) (zigbeeMap s) (now s) (python_on s) b (answers s) (done s).
Definition set_answers l (s : zigbee) : zigbee := Zigbee (hyMap s) (zigbeeMap s) (now s) (python_on s) (running s) l (done s).
Definition push_done e (s : zigbee) : zigbee := Zigbee (hyMap s) (zigbeeMap s) (now s) (python_on s) (running s) (answers s) (done s ++ [e]).

(** A call outside, with its result: 0 unless an answer says otherwise. *)
Definition call (e : zigbee_io) : T Z :=
  modify (push_done e) ;;
  l ← gets answers;
  match l with [] => mret 0 | r :: l => modify (set_answers l) ;; mret r end.

(** The maps of devices and of profiles. *)
Definition hylinkListAdd (node : HylinkDev) : T unit := modify (fun s => set_hy (<[DeviceId node := node]> (hyMap s)) s).
Definition hylinkListGet (key : string) : T (option HylinkDev) := gets (fun s => hyMap s !! key).
Definition hylinkListDel (key : string) : T unit := modify (fun s => set_hy (delete key (hyMap s)) s).
Definition hylinkListEmpty : T unit := modify (set_hy ∅).
Definition zigbeeListAdd (node : zigbeeDev) : T unit := modify (fun s => set_zigbee (<[manuName node := node]> (zigbeeMap s)) s).
Definition zigbeeListGet (key : string) : T (option zigbeeDev) := gets (fun s => zigbeeMap s !! key).
(** A member of a device in the map, through a pointer to it. *)
Definition upd_dev (id : string) (f : HylinkDev -> HylinkDev) : T unit := modify (fun s => set_hy (alter f id (hyMap s)) s).

Definition STR_GATEWAY_DEVID : string := "0000000000000000".
Definition STR_GATEWAY_MODELID : string := "000000".
Definition STR_VERSION : string := "Version".
Definition HEART_TIMER : Z := 300.
Definition HEART_AUTO_REPORT : Z := 1.

(** The text of [sprintf] of a version. *)
Definition version_text (v : Z) : string :=
  text_d (Z.land (Z.shiftr v 6) 3) +:+ "." +:+ text_d (Z.land (Z.shiftr v 4) 3) +:+ "." +:+ text_d (Z.land v 0x0f).

(** [char_signed]: whether [char] is; [stale]: what an uninitialised variable holds;
    [python]: the result of a function of a module for a text and a length, if it
    has one. *)
Section zigbee.
Context (char_signed : bool) (stale : Z)
  (python : string -> string -> string -> Z -> option (string * Z)).

(** * Profiles (zigbeeProfile.c) *)

(** An array of [size] elements whose length is a [char]: less room, when the length
    does not fit, or none. *)
Definition room_for (size : nat) : T unit :=
  let n := to_char char_signed (Z.of_nat size) in
  if n <? 0 then fail NullDeref else if n <? Z.of_nat size then fail OutOfBounds else mret tt.
Definition int_if (json : json) (name : string) : T Z :=
  if has_item (Some json) name then int_of (cJSON_GetObjectItem json name) else mret 0.

Definition zigbee_attr (arraySub : json) : T ZigbeeAttr :=
  let item name := cJSON_GetObjectItem arraySub name in
  hyKey ← member_text 33 arraySub "hyKey";
  private ← int_of (item "hyKeyPrivate"%string);
  src ← int_of (item "srcEndpoint"%string);
  dst ← int_of (item "dstEndpoint"%string);
  cluster ← int_of (item "ClusterId"%string);
  attribute ← int_of (item "AttributeId"%string);
  cmdType ← int_if arraySub "z3CmdType";
  cmdId ← int_if arraySub "z3CmdId";
  type ← int_if arraySub "dataType";
  let char := to_char char_signed in
  mret (ZAttr hyKey (char private) (char src) (char dst) (u16 attribute) (u16 cluster) (char cmdType) (char cmdId) (u8 type)).
(** As many values as their length, a [char], says. *)
Definition scene_attr (arraySub : json) : T SceneAttr :=
  key ← member_text 33 arraySub "key";
  let value := default [] (children <$> cJSON_GetObjectItem arraySub "value") in
  let n := to_char char_signed (Z.of_nat (length value)) in
  if n <? 0 then fail NullDeref else
  l ← for_each (fun j => t ← text_of (Some j); strcpy 33 t) (take (Z.to_nat n) value);
  mret (SAttr key l).

Definition zigbeeParseJson (str : string) : T unit :=
  match cJSON_Parse str with
  | None => mret tt
  | Some root =>
      let item name := cJSON_GetObjectItem root name in
      match item "modelId"%string, item "manuName"%string, item "heartbeatTime"%string, item "attr"%string with
      | Some modelId, Some manuName, Some heartbeatTime, Some attr =>
          let l := children attr in
          if bool_decide (l = []) then mret tt else
          room_for (length l) ;;
          t ← text_of (Some modelId); m ← strcpy 33 t;
          t ← text_of (Some manuName); n ← strcpy 33 t;
          h ← int_if root "heart_type";
          r ← member_text_if 33 root "report_modelId";
          attrs ← for_each zigbee_attr l;
          scenes ← match item "scene"%string with
            | None => mret []
            | Some scene => room_for (length (children scene)) ;; for_each scene_attr (children scene)
            end;
          zigbeeListAdd (ZDev m r n (to_char char_signed h) (int_member heartbeatTime) attrs scenes)
      | _, _, _, _ => mret tt
      end
  end.

(** * Messages to the hylink program (hylinkSend.c) *)

Definition hylinkDispatch (str : string) : T Z :=
  if (1024 <=? String.length str + 2)%nat then fail OutOfBounds else call (ToClient (frame str)).

Definition report_text (Type_ : string) (fields : list (string * string)) : string :=
  cJSON_PrintUnformatted (message "Report" Type_ [string_object fields]).
(** [ModelId] is NULL for every caller. *)
Definition hylinkSendSingleFunc (DeviceId Type_ : string) (Key Value : option string) : T Z :=
  hyDev ← hylinkListGet DeviceId;
  match hyDev with
  | None => mret (-1)
  | Some hyDev =>
      zDev ← zigbeeListGet (ModelId hyDev);
      match zDev with
      | None => mret (-1)
      | Some zDev =>
          let model := if str_eq (report_modelId zDev) "" then ModelId hyDev else report_modelId zDev in
          hylinkDispatch (report_text Type_ (add_text (add_text [("DeviceId", DeviceId); ("ModelId", model)]%string "Key" Key) "Value" Value))
      end
  end.

(** One element of data; its model by its device if it has none, which is the
    profile's if that is empty. *)
Definition hylinkSendFunc (Type_ DeviceId_ ModelId_ Key Value : string) : T Z :=
  let field name t := if str_eq t "" then [] else [(name, t)] : list (string * string) in
  let send model := hylinkDispatch (report_text Type_ (field "DeviceId"%string DeviceId_ ++ [("ModelId"%string, model)] ++ field "Key"%string Key ++ field "Value"%string Value)) in
  if negb (str_eq ModelId_ "") then send ModelId_
  else
    hyDev ← hylinkListGet DeviceId_;
    match hyDev with
    | None => mret (-1)
    | Some hyDev =>
        zDev ← zigbeeListGet (ModelId hyDev);
        match zDev with
        | None => mret (-1)
        | Some zDev => send (if str_eq (report_modelId zDev) "" then report_modelId zDev else ModelId hyDev)
        end
    end.

(** * Values (zigbeeManage.c, cpython.c) *)

(** The part up to the first underscore. *)
Fixpoint key_stem (key : string) : option string :=
  match key with
  | EmptyString => None
  | String c key => if Ascii.eqb c (chr 95) then Some (String c "") else String c <$> key_stem key
  end.
(** What follows the first underscore. *)
Fixpoint key_number (key : string) : option string :=
  match key with
  | EmptyString => None
  | String c key => if Ascii.eqb c (chr 95) then Some key else key_number key
  end.

(** A module or a function that is not there ends the interpreter. *)
Definition hyLinkConver (modelId key dir inp : string) (inLen : Z) : T (option (string * Z)) :=
  hkey ← strcpy 24 (default key (key_stem key));
  s ← getS;
  if negb (python_on s) then fail Dangling else
  match python modelId (hkey +:+ dir) inp inLen with
  | None => modify (set_python false) ;; mret None
  | Some r => mret (Some r)
  end.

(** The key, which may get a number, and the text of a value's bytes. *)
Definition conversion_up (modelId hyKey : string) (private : Z) (inp : list Z) (inLen : Z) : T (string * string) :=
  if inLen =? 0 then mret (hyKey, ""%string)
  else if private =? 0 then b ← arr_get inp 0; mret (hyKey, text_d b)
  else
    '(key, inp, inLen) ← (if str_eq hyKey "SceName_" || str_eq hyKey "ScePhoto_" then
        b0 ← arr_get inp 0; b1 ← arr_get inp 1;
        key ← strcpy 33 (hyKey +:+ text_d (Z.shiftl b0 8 + b1 + 1));
        mret (key, drop 2 inp, inLen - 2)
      else mret (hyKey, inp, inLen));
    bytes ← get_bytes 0 inLen inp;
    let enc := text_of_codes (base64_encode bytes) in
    r ← hyLinkConver modelId key "up" enc (Z.of_nat (String.length enc));
    match r with
    | None => mret (key, ""%string)
    | Some (t, _) => t ← strcpy 33 t; mret (key, t)
    end.

(** The result, and the message with the bytes of a text at [off]. *)
Definition conversion_down (modelId hyKey : string) (private : Z) (value : string) (inLen : Z) (off : nat) (msg : list Z) : T (Z * list Z) :=
  if inLen =? 0 then mret (-1, msg)
  else if private =? 0 then
    msg ← put_bytes off [u8 (strToNum value stale)] msg; mret (1, msg)
  else
    '(off, privatekeyLen, msg) ← (if String.prefix "SceName_" hyKey || String.prefix "ScePhoto_" hyKey then
        n ← get_or NullDeref (key_number hyKey);
        let num := s32 (strToNum n stale - 1) in
        msg ← put_bytes off [u8 (Z.shiftr num 8); Z.land num 0xff] msg;
        mret ((off + 2)%nat, 2, msg)
      else mret (off, 0, msg));
    r ← hyLinkConver modelId hyKey "down" value inLen;
    '(outLen, msg) ← match r with
      | None => mret (0, msg)
      | Some (t, n) => msg ← put_bytes off (Base64.codes t ++ [0]) msg; mret (n, msg)
      end;
    out ← (if negb (Z.land outLen 3 =? 0) then mret (0, []) else bs ← get_bytes off outLen msg; mret (base64_decode bs));
    let '(decodeOutlen, bytes) := out in
    msg ← put_bytes off (take (Z.to_nat decodeOutlen) bytes) msg;
    mret (decodeOutlen + privatekeyLen, msg).

(** * Commands to devices (zigbeeDispatch.c) *)

(** The log reads every byte of the message. *)
Definition tuyaZclSend (f : aps_frame) : T Z :=
  if Z.of_nat (length (zmessage f)) <? msg_length f then fail OutOfBounds
  else call (SendZcl (with_message (msg_length f) (take (Z.to_nat (msg_length f)) (zmessage f)) f)).

Definition attr_ends (a : ZigbeeAttr) (f : aps_frame) : aps_frame := with_ends (ClusterId a) (u8 (srcEndpoint a)) (u8 (dstEndpoint a)) f.

Definition zigbeeZclQuery (a : ZigbeeAttr) (f : aps_frame) : T (Z * aps_frame) :=
  f ← (if ClusterId a =? ZCL_PRIVATE_CLUSTER then
      msg ← put_bytes 0 [0; 0; u8 (AttributeId a)] (zmessage f);
      mret (with_message 3 msg (with_cmd Z3_CMD_TYPE_PRIVATE (u8 (Z.shiftr (z3CmdId a) 4)) f))
    else
      msg ← put_bytes 0 (le16 (AttributeId a)) (zmessage f);
      mret (with_message 2 msg (with_cmd Z3_CMD_TYPE_GLOBAL READ_ATTRIBUTE f)));
  let f := attr_ends a f in
  r ← tuyaZclSend f; mret (r, f).

(** The command, the length of the message and the message. *)
Definition ctrl_message (a : ZigbeeAttr) (modelId key value : string) (msg : list Z) : T (option (Z * Z * list Z)) :=
  let convert inLen off msg := conversion_down modelId key (hyKeyPrivate a) value inLen off msg in
  if ClusterId a =? ZCL_PRIVATE_CLUSTER then
    msg ← put_bytes 0 [0; 0; u8 (AttributeId a); dataType a] msg;
    '(n, msg) ← convert (getZcl3ProvateDataType (dataType a)) 6%nat msg;
    msg ← put_bytes 4 [u8 (Z.shiftr n 8); Z.land n 0xff] msg;
    mret (Some (Z.land (z3CmdId a) 0x0f, u16 (n + 6), msg))
  else
    '(len, _) ← getZcl3DataType (dataType a) None;
    let cmdType := u8 (z3CmdType a) in
    if cmdType =? Z3_CMD_TYPE_GLOBAL then
      msg ← put_bytes 0 (le16 (AttributeId a) ++ [dataType a]) msg;
      '(n, msg) ← convert len 3%nat msg;
      mret (Some (WRITE_ATTRIBUTES, u16 (n + 3), msg))
    else if cmdType =? Z3_CMD_TYPE_PRIVATE then
      '(n, msg) ← convert len 0%nat msg;
      if z3CmdId a =? 0 then c ← arr_get msg 0; mret (Some (c, 0, msg))
      else mret (Some (Z.land (z3CmdId a) 0x0f, u16 n, msg))
    else if cmdType =? Z3_CMD_TYPE_ZDO then mret (Some (u8 stale, u16 stale, msg))
    else mret None.
Definition zigbeeZclCtrl (a : ZigbeeAttr) (f : aps_frame) (modelId key value : string) : T (Z * aps_frame) :=
  key ← strcpy 33 key;
  r ← ctrl_message a modelId key value (zmessage f);
  match r with
  | None => mret (-1, f)
  | Some (cmdId, msgLen, msg) =>
      let f := attr_ends a (with_message msgLen msg (with_cmd (u8 (z3CmdType a)) cmdId f)) in
      r ← tuyaZclSend f; mret (r, f)
  end.

Fixpoint query_all (l : list ZigbeeAttr) (f : aps_frame) : T aps_frame :=
  match l with [] => mret f | a :: l => '(_, f) ← zigbeeZclQuery a (attr_ends a f); query_all l f end.
(** An attribute is found by the beginning of the key. *)
Definition zigbeeDevZclDispatch (zDev : zigbeeDev) (f : aps_frame) (key value : option string) : T (Z * aps_frame) :=
  match key with
  | None => f ← query_all (zAttr zDev) f; mret (0, f)
  | Some key =>
      match zAttr zDev !! index_of (fun a => String.prefix (zHyKey a) key) (zAttr zDev) with
      | None => mret (-1, f)
      | Some a =>
          match value with
          | None => zigbeeZclQuery a f
          | Some value => zigbeeZclCtrl a f (manuName zDev) key value
          end
      end
  end.

Fixpoint scene_dispatch (zDev : zigbeeDev) (keys : list string) (value : option string) (res : Z) (f : aps_frame) : T Z :=
  match keys with
  | [] => mret res
  | k :: keys => '(res, f) ← zigbeeDevZclDispatch zDev f (Some k) value; scene_dispatch zDev keys value res f
  end.
Definition new_frame (devId : string) : aps_frame :=
  Aps devId Z3_PROFILE_ID_HA 0 0 0 0 0 Z3_FRAME_TYPE_UNICAST 0 (replicate 33 0).
Definition zigbeeZclDispatch (devId : string) (key value : option string) : T Z :=
  hyDev ← hylinkListGet devId;
  match hyDev with
  | None => mret (-1)
  | Some hyDev =>
      zDev ← zigbeeListGet (ModelId hyDev);
      match zDev with
      | None => mret (-1)
      | Some zDev =>
          (if bool_decide (value = None /\ key = Some STR_VERSION) then upd_dev devId (with_version 1) else mret tt) ;;
          id ← strcpy 33 devId;
          '(res, f) ← zigbeeDevZclDispatch zDev (new_frame id) key value;
          if res <? 0 then
            key ← get_or NullDeref key;
            match zScene zDev !! index_of (fun a => str_eq key (sKey a)) (zScene zDev) with
            | None => mret (-1)
            | Some a => scene_dispatch zDev (sValue a) value res f
            end
          else mret res
      end
  end.

(** * Reports of devices (zigbeeReport.c) *)

(** [hylinkDevZclReport] of hylink.c *)
Definition hylinkDevZclReport (devId hyKey data : string) : T Z :=
  hyDev ← hylinkListGet devId;
  match hyDev with
  | None => mret (-1)
  | Some hyDev => _ ← hylinkSendSingleFunc (DeviceId hyDev) "Attribute" (Some hyKey) (Some data); mret 0
  end.
Definition zigbeeAttrReport (a : ZigbeeAttr) (devId modelId : string) (inp : list Z) (inLen : Z) : T unit :=
  '(key, data) ← conversion_up modelId (zHyKey a) (hyKeyPrivate a) inp inLen;
  _ ← hylinkDevZclReport devId key data; mret tt.

Definition reported (f : aps_frame) (attributeId : Z) (a : ZigbeeAttr) : bool :=
  (ClusterId a =? cluster_id f) && ((AttributeId a =? attributeId) || (attributeId <? 0)) &&
  ((dstEndpoint a =? src_endpoint f) || (dst_endpoint f =? 255)).
Fixpoint report_attrs (l : list ZigbeeAttr) (zDev : zigbeeDev) (f : aps_frame) (attributeId : Z) (inp : list Z) (inLen : Z) : T unit :=
  match l with
  | [] => mret tt
  | a :: l =>
      (if reported f attributeId a then zigbeeAttrReport a (dev_id f) (manuName zDev) inp inLen else mret tt) ;;
      report_attrs l zDev f attributeId inp inLen
  end.
Definition zigbeeReport (zDev : zigbeeDev) (f : aps_frame) (attributeId : Z) (inp : list Z) (inLen : Z) : T unit :=
  report_attrs (zAttr zDev) zDev f attributeId inp inLen.

(** The attributes from [index] on; [status]: whether a status comes before each
    type, and an error ends the list. *)
Fixpoint attribute_list (fuel : nat) (zDev : zigbeeDev) (f : aps_frame) (with_status : bool) (index : Z) : T unit :=
  match fuel with
  | O => fail OutOfFuel
  | Datatypes.S fuel =>
      if msg_length f <=? index then mret tt else
      let msg := zmessage f in
      lo ← arr_get msg index; hi ← arr_get msg (index + 1);
      let attributeId := u16 (lo + Z.shiftl hi 8) in
      let index := index + 2 in
      status ← (if with_status then arr_get msg index else mret 0);
      let index := if with_status then index + 1 else index in
      if with_status && negb (status =? 0) then mret tt else
      type ← arr_get msg index;
      let value := drop (Z.to_nat (index + 1)) msg in
      '(len, shift) ← getZcl3DataType type (Some value);
      zigbeeReport zDev f attributeId (drop (Z.to_nat shift) value) len ;;
      attribute_list fuel zDev f with_status (index + 1 + len + shift)
  end.

Definition time_bytes (t : Z) : list Z := [u8 (Z.shiftr t 24); u8 (Z.shiftr t 16); u8 (Z.shiftr t 8); Z.land t 0xff].
Definition private_report (zDev : zigbeeDev) (f : aps_frame) : T Z :=
  if existsb (Z.eqb (cmd_id f)) TY_DATA then
    attributeId ← arr_get (zmessage f) 2;
    _ ← arr_get (zmessage f) 3;
    hi ← arr_get (zmessage f) 4; lo ← arr_get (zmessage f) 5;
    zigbeeReport zDev f attributeId (drop 6 (zmessage f)) (Z.shiftl hi 8 + lo) ;;
    mret 0
  else if cmd_id f =? TUYA_MCU_VERSION_RSP then _ ← arr_get (zmessage f) 2; mret 0
  else if cmd_id f =? TUYA_MCU_SYNC_TIME then
    t ← gets now;
    call (SendZcl (with_message 10 ([0; 0] ++ time_bytes t ++ time_bytes (t + 8 * 60 * 60)) f))
  else mret 0.
Definition DOOR_SENSOR : string := "_TYZB01_kw2okqc3".
Definition zigbeeZclReport (f : aps_frame) : T Z :=
  hyDev ← hylinkListGet (dev_id f);
  match hyDev with
  | None => mret (-1)
  | Some hyDev =>
      zDev ← zigbeeListGet (ModelId hyDev);
      match zDev with
      | None => mret (-1)
      | Some zDev =>
          if cmd_type f =? Z3_CMD_TYPE_PRIVATE then
            if cluster_id f =? ZCL_PRIVATE_CLUSTER then private_report zDev f
            else if str_eq (manuName zDev) DOOR_SENSOR then zigbeeReport zDev f (-1) (zmessage f) 1 ;; mret 0
            else mret 0
          else if cmd_id f =? READ_ATTRIBUTES_RESPONSE then
            attribute_list (Datatypes.S (Z.to_nat (msg_length f))) zDev f true 0 ;; mret 0
          else if cmd_id f =? REPORT_ATTRIBUTES then
            attribute_list (Datatypes.S (Z.to_nat (msg_length f))) zDev f false 0 ;; mret 0
          else if (cmd_id f =? WRITE_ATTRIBUTES_RESPONSE) && (Z.of_nat (length (zmessage f)) <? msg_length f) then fail OutOfBounds
          else mret 0
      end
  end.
End zigbee.
