(* ===== verification/ZigbeeLink.v ===== *)
(** Devices of the ZigBee program over time: joining, being heard of, leaving
    (src/tyzigbee/src/hylink/hylink.c, the callbacks of tyZigbeeZcl3.c), the heartbeat
    (heartbeat.c), and the commands of the hylink program (hylinkRecv.c, zigbee.c). *)
From stdpp Require Import gmap strings pretty.
From Stdlib Require Import Ascii.
From S2P Require Import Prelude CString Json JsonText CommonFunc Zcl Zigbee.

(** [buckets]: the table of the hash map of devices, some of it empty; [channel]:
    the first line that the shell prints. *)
Section link.
Context (char_signed : bool) (stale : Z)
  (python : string -> string -> string -> Z -> option (string * Z))
  (buckets : gmap string HylinkDev -> list (option string)) (channel : option string).
Abbreviation zigbeeZclDispatch := (zigbeeZclDispatch stale python).

(** * Devices (hylink.c) *)

Definition addDevToHyList (devId modelId : string) : T unit :=
  d ← strcpy 33 devId; m ← strcpy 33 modelId;
  hylinkListAdd (Dev d m "" 0 0).
Definition init_online (id : option string) : T unit :=
  match id with
  | None => mret tt
  | Some id => _ ← zigbeeZclDispatch id (Some STR_VERSION) None; mret tt
  end.
Definition hyDevInitOnline : T unit := m ← gets hyMap; _ ← for_each init_online (buckets m); mret tt.

(** A command of the SDK (zigbee.c). *)
Definition zigbeeCmdDelDev (id : option string) : T Z := call (DevDel id).

Definition hylinkDevJoin (devId version manuName : string) : T Z :=
  zDev ← zigbeeListGet manuName;
  match zDev with
  | None => _ ← zigbeeCmdDelDev (Some devId); mret (-1)
  | Some _ =>
      d ← strcpy 33 devId; m ← strcpy 33 manuName; v ← strcpy 33 version;
      hylinkListAdd (Dev d m v 0 0) ;;
      _ ← call (DbInsert d m);
      _ ← hylinkSendSingleFunc d "Register" None None;
      _ ← hylinkSendSingleFunc d "Attribute" (Some STR_VERSION) (Some v);
      _ ← zigbeeZclDispatch d None None;
      mret 0
  end.

Definition hylinkOnlineFresh (devId version_ : string) : T Z :=
  hyDev ← hylinkListGet devId;
  match hyDev with
  | None => mret (-1)
  | Some hyDev =>
      v ← strcpy 33 version_;
      upd_dev devId (with_Version v) ;;
      (if (activeTime hyDev =? 0) || (0 <? version hyDev) then
         upd_dev devId (with_version 0) ;;
         _ ← hylinkSendSingleFunc (DeviceId hyDev) "OnOff" (Some "Online"%string) (Some "1"%string);
         _ ← hylinkSendSingleFunc (DeviceId hyDev) "Attribute" (Some STR_VERSION) (Some v);
         mret tt
       else mret tt) ;;
      t ← gets now;
      upd_dev devId (with_activeTime t) ;;
      mret 0
  end.

(** The device's id is read again when the device has been freed. *)
Definition hylinkDevLeave (devId : string) : T Z :=
  hyDev ← hylinkListGet devId;
  match hyDev with
  | None => mret (-1)
  | Some hyDev =>
      _ ← hylinkSendSingleFunc (DeviceId hyDev) "UnRegister" None None;
      hylinkListDel (DeviceId hyDev) ;;
      freed ← hylinkListGet devId;
      hyDev ← get_or Dangling freed;
      _ ← call (DbDelete (DeviceId hyDev));
      mret 0
  end.

Definition hylinkReportDevInfo : T Z := hylinkSendFunc "DevsInfo" STR_GATEWAY_DEVID "" "DevsInfo" "".
Definition hylinkReportNetAccess (sec : Z) : T Z :=
  hylinkSendFunc "Attribute" STR_GATEWAY_DEVID STR_GATEWAY_MODELID "Time" (text_d (if sec =? 0 then 0 else 1)).

(** What follows the first colon. *)
Fixpoint after_colon (s : string) : option string :=
  match s with EmptyString => None | String c s => if Ascii.eqb c (chr 58) then Some s else after_colon s end.
(** Without a colon the pointer behind NULL is read. *)
Definition hylinkZigbeeChannel : T Z :=
  _ ← call (Shell "grep -i 'channel' storage/zigbeeNetInfo.txt");
  match channel with
  | None => mret (-1)
  | Some line =>
      t ← get_or NullDeref (after_colon (str_take 63 line));
      hylinkSendFunc "Attribute" STR_GATEWAY_DEVID STR_GATEWAY_MODELID "ZB_Channel" (text_d (strToNum t 0))
  end.

Definition hylinkClose : T Z := _ ← call DbClose; hylinkListEmpty ;; mret 0.
(** The table is emptied when the database is closed. *)
Definition hylinkReset : T Z :=
  m ← gets hyMap;
  _ ← for_each zigbeeCmdDelDev (buckets m);
  _ ← hylinkClose;
  _ ← call DbReset;
  mret 0.
Definition zigbeeReset : T Z :=
  _ ← call (Shell "rm -rf storage"); _ ← call (Shell "rm -rf *.db*"); _ ← call (Shell "rm -rf *log*"); mret 0.
Definition zigbeeCmdNetAccess (time : Z) : T Z :=
  ret ← call (PermitJoin (negb (time =? 0)));
  if negb (ret =? 0) then mret ret else _ ← hylinkReportNetAccess time; mret ret.

(** * Callbacks of the SDK (tyZigbeeZcl3.c) *)

Definition z3_dev_join_cb (id manu_name : string) (version : Z) : T Z := _ ← hylinkDevJoin id (version_text version) manu_name; mret 0.
Definition z3_dev_leave_cb (id : string) : T Z := _ ← hylinkDevLeave id; mret 0.
(** The log reads every byte of the message. *)
Definition z3_dev_zcl_report_cb (f : aps_frame) : T Z :=
  if Z.of_nat (length (zmessage f)) <? msg_length f then fail OutOfBounds
  else _ ← zigbeeZclReport python f; mret 0.
Definition z3_dev_online_fresh_cb (id : string) (version : Z) : T Z := _ ← hylinkOnlineFresh id (version_text version); mret 0.

(** * Heartbeat (heartbeat.c) *)

Definition heartbeat_dev (curTime : Z) (id : option string) : T unit :=
  match id with
  | None => mret tt
  | Some id =>
      hyDev ← hylinkListGet id;
      match hyDev with
      | None => mret tt
      | Some hyDev =>
          if activeTime hyDev =? 0 then mret tt else
          zDev ← zigbeeListGet (ModelId hyDev);
          match zDev with
          | None => mret tt
          | Some zDev =>
              if activeTime hyDev + heartbeatTime zDev <? curTime then
                upd_dev id (with_activeTime 0) ;;
                _ ← hylinkSendSingleFunc (DeviceId hyDev) "OnOff" (Some "Online"%string) (Some "0"%string); mret tt
              else if activeTime hyDev + HEART_TIMER <? curTime then
                if heart_type zDev =? HEART_AUTO_REPORT then mret tt
                else _ ← zigbeeZclDispatch (DeviceId hyDev) (Some STR_VERSION) None; mret tt
              else mret tt
          end
      end
  end.
Definition heartbeat : T Z :=
  curTime ← gets now;
  m ← gets hyMap;
  _ ← for_each (heartbeat_dev curTime) (buckets m);
  mret 0.

(** * Commands of the hylink program (hylinkRecv.c) *)

Definition hylink_recv_type : list string :=
  ["Add"; "Delete"; "ReFactory"; "Restart"; "DevsInfo"; "DevAttri"; "Ctrl"; "Attribute"].

(** An element of the data; whether the next is handled. *)
Definition recv_item (type : Z) (array_sub : json) : T bool :=
  let item name := cJSON_GetObjectItem array_sub name in
  if type =? 0 then
    match item "Key"%string, item "Value"%string with
    | Some _, Some value =>
        v ← text_of (Some value);
        _ ← zigbeeCmdNetAccess (u8 (strToNum v stale));
        _ ← hylinkZigbeeChannel; mret true
    | _, _ => mret false
    end
  else if type =? 1 then
    match item "DeviceId"%string with
    | None => mret false
    | Some d => id ← text_of (Some d); _ ← hylinkDevLeave id; mret true
    end
  else if type =? 4 then
    match item "ModelId"%string, item "DeviceId"%string with
    | Some m, Some d =>
        d ← text_of (Some d); d ← strcpy 33 d; m ← text_of (Some m); m ← strcpy 33 m;
        hylinkListAdd (Dev d m "" 0 0) ;;
        _ ← zigbeeZclDispatch d None None; mret true
    | _, _ => mret true
    end
  else if type =? 5 then
    match item "DeviceId"%string with
    | None => mret false
    | Some d => id ← text_of (Some d); _ ← zigbeeZclDispatch id None None; mret true
    end
  else if type =? 6 then
    match item "DeviceId"%string, item "Key"%string, item "Value"%string with
    | Some d, Some k, Some v =>
        id ← text_of (Some d); key ← text_ptr (Some k); value ← text_ptr (Some v);
        _ ← zigbeeZclDispatch id key value; mret true
    | _, _, _ => mret false
    end
  else if type =? 7 then
    match item "DeviceId"%string, item "Key"%string with
    | Some d, Some k => id ← text_of (Some d); key ← text_ptr (Some k); _ ← zigbeeZclDispatch id key None; mret true
    | _, _ => mret false
    end
  else mret true.
Fixpoint recv_items (type : Z) (l : list json) : T unit :=
  match l with [] => mret tt | j :: l => go_on ← recv_item type j; if (go_on : bool) then recv_items type l else mret tt end.

(** The result is not used. *)
Definition recv_root (root : json) : T unit :=
  let item name := cJSON_GetObjectItem root name in
  match item "Command"%string with
  | None => mret tt
  | Some Command =>
      c ← text_of (Some Command);
      if negb (str_eq "Dispatch" c) then mret tt else
      match item "Type"%string, item "Data"%string with
      | Some Type_, Some Data =>
          let type := match valuestring Type_ with None => -1 | Some t => findStrIndex t hylink_recv_type end in
          if type =? -1 then mret tt
          else if type =? 2 then _ ← hylinkReset; _ ← zigbeeReset; modify (set_running false)
          else recv_items type (children Data)
      | _, _ => mret tt
      end
  end.
Definition hylinkRecvJson (data : string) : T unit :=
  match cJSON_Parse data with None => mret tt | Some root => recv_root root end.
(** Nothing is done when the program has ended. *)
Fixpoint recv_bytes (data : string) : T unit :=
  match data with
  | EmptyString => mret tt
  | String c data =>
      s ← getS;
      if negb (running s) then mret tt else
      (if Ascii.eqb c STX then hylinkRecvJson (c_str data) else mret tt) ;;
      recv_bytes data
  end.
Definition hylinkRecvManage (data : string) : T unit := recv_bytes data.
End link.
