(* ===== verification/ZclProps.v ===== *)
(** How the ZigBee program reads the reports of devices: every attribute of a
    well-formed report, and an end with every one. *)
From stdpp Require Import gmap strings pretty.
From S2P Require Import Prelude CString Json JsonText CommonFunc HyBase64 Zcl Zigbee.
From S2P Require Base64.

(** * Buffers and types *)

Lemma existsb_eqb d l : existsb (Z.eqb d) l = true <-> d ∈ l.
Proof.
  rewrite existsb_exists. split.
  - intros (x & Hx & ->%Z.eqb_eq). by apply list_elem_of_In.
  - intros Hd. exists d. split; [by apply list_elem_of_In|apply Z.eqb_refl].
Qed.
Lemma type_length_small d n : type_length zcl_types d = Some n -> 0 <= n <= 16.
Proof.
  unfold zcl_types. cbn [type_length]. intros H. repeat (case_match; [by injection H as <-|]). done.
Qed.
Lemma default_length d : 0 <= default 0 (type_length zcl_types d).
Proof. destruct (type_length zcl_types d) as [n|] eqn:E; [by apply type_length_small in E as []|done]. Qed.
Lemma le16_value z : 0 <= z < 65536 -> exists lo hi, le16 z = [lo; hi] /\ u16 (lo + Z.shiftl hi 8) = z /\ 0 <= lo < 256 /\ 0 <= hi < 256.
Proof.
  intros Hz. exists (Z.land z 0xff), (Z.land (Z.shiftr z 8) 0xff). split; [done|].
  change 0xff with (Z.ones 8). rewrite !Z.land_ones, Z.shiftl_mul_pow2, Z.shiftr_div_pow2 by lia. change (2 ^ 8) with 256.
  pose proof (Z.mod_pos_bound z 256 ltac:(lia)). pose proof (Z.mod_pos_bound (z / 256) 256 ltac:(lia)).
  split_and!; [|lia..]. unfold u16. rewrite (Z.mod_small (z / 256)) by (split; [apply Z.div_pos; lia|apply Z.div_lt_upper_bound; lia]).
  pose proof (Z.div_mod z 256 ltac:(lia)). rewrite Z.mod_small; lia.
Qed.

(** * Attributes in a report *)

Record attribute : Type := Attribute { a_id : Z; a_type : Z; a_bytes : list Z }.
(** A string has its length before it. *)
Definition length_bytes (r : attribute) : list Z :=
  let n := Z.of_nat (length (a_bytes r)) in
  if byte_string (a_type r) then [n] else if long_string (a_type r) then le16 n else [].
Definition encode (status : bool) (r : attribute) : list Z :=
  le16 (a_id r) ++ (if status then [0] else []) ++ [a_type r] ++ length_bytes r ++ a_bytes r.
Record attribute_ok (r : attribute) : Prop := AttributeOk {
  ao_id : 0 <= a_id r < 65536;
  ao_bytes : Forall Base64.byte (a_bytes r);
  ao_length : if byte_string (a_type r) then Z.of_nat (length (a_bytes r)) < 256
              else if long_string (a_type r) then Z.of_nat (length (a_bytes r)) < 65536
              else type_length zcl_types (a_type r) = Some (Z.of_nat (length (a_bytes r)))
}.

Create HintDb ends.

Section reports.
Context (python : string -> string -> string -> Z -> option (string * Z)).
Abbreviation zigbeeReport := (zigbeeReport python).
Abbreviation attribute_list := (attribute_list python).

Definition report_all (zDev : zigbeeDev) (f : aps_frame) (rs : list attribute) : T unit :=
  _ ← for_each (fun r => zigbeeReport zDev f (a_id r) (a_bytes r) (Z.of_nat (length (a_bytes r)))) rs; mret tt.

Lemma arr_get_app (l : list Z) x r s : arr_get (S := zigbee) (l ++ x :: r) (Z.of_nat (length l)) s = Val (x, s).
Proof.
  unfold arr_get. destruct (Z.ltb_spec (Z.of_nat (length l)) 0); [lia|]. rewrite Nat2Z.id.
  by rewrite lookup_app_r, Nat.sub_diag by lia.
Qed.

Lemma arr_get_0 (b : Z) l (s : zigbee) : arr_get (b :: l) 0 s = Val (b, s).
Proof. done. Qed.
Lemma arr_get_1 (b0 b1 : Z) l (s : zigbee) : arr_get (b0 :: b1 :: l) 1 s = Val (b1, s).
Proof. done. Qed.

(** What is behind a value makes no difference. *)
Lemma conversion_up_rest model key private inp rest s :
  conversion_up python model key private (inp ++ rest) (Z.of_nat (length inp)) s = conversion_up python model key private inp (Z.of_nat (length inp)) s.
Proof.
  unfold conversion_up. destruct (Z.eqb_spec (Z.of_nat (length inp)) 0) as [E|E]; [done|].
  destruct inp as [|b0 inp]; [done|]. cbn [app]. destruct (private =? 0); [done|].
  assert (HG : forall l, get_bytes (S := zigbee) 0 (Z.of_nat (length l)) (l ++ rest) = get_bytes 0 (Z.of_nat (length l)) l).
  { intros l. unfold get_bytes. cbn [drop]. rewrite length_app, Nat2Z.id.
    destruct (Z.ltb_spec (Z.of_nat (length l)) 0); [lia|]. cbn [orb].
    destruct (Z.ltb_spec (Z.of_nat (length l + length rest)) (Z.of_nat 0 + Z.of_nat (length l))); [lia|].
    destruct (Z.ltb_spec (Z.of_nat (length l)) (Z.of_nat 0 + Z.of_nat (length l))); [lia|]. by rewrite !drop_0, take_app_length, take_ge. }
  destruct (str_eq key "SceName_" || str_eq key "ScePhoto_").
  - destruct inp as [|b1 inp].
    + destruct rest as [|b1 rest]; [done|]. cbn [app]. unfold mbind, M_bind. rewrite !arr_get_0, arr_get_1. change (arr_get [b0] 1 s) with (Fault OutOfBounds : res (Z * zigbee)). cbv beta iota.
      unfold strcpy. destruct (_ <? 33)%nat; [|done]. reflexivity.
    + cbn [app]. unfold mbind, M_bind. rewrite !arr_get_0, !arr_get_1. cbv beta iota. cbn [drop].
      assert (Z.of_nat (length (b0 :: b1 :: inp)) - 2 = Z.of_nat (length inp)) as -> by (cbn [length]; lia).
      unfold strcpy. destruct (_ <? 33)%nat; [|done]. unfold mret, M_ret. cbv beta iota. rewrite !drop_0. by rewrite HG.
  - unfold mbind, M_bind, mret, M_ret. pose proof (HG (b0 :: inp)) as HG0. cbn [app] in HG0. by rewrite HG0.
Qed.

Lemma report_attrs_rest l zDev f id inp rest s :
  report_attrs python l zDev f id (inp ++ rest) (Z.of_nat (length inp)) s = report_attrs python l zDev f id inp (Z.of_nat (length inp)) s.
Proof.
  revert s. induction l as [|a l IH]; intros s; [done|]. cbn [report_attrs]. unfold mbind, M_bind.
  destruct (reported f id a); [|apply IH]. unfold zigbeeAttrReport, mbind, M_bind. rewrite conversion_up_rest.
  destruct (conversion_up _ _ _ _ _ _ s) as [[[key data] s']|]; [|done]. destruct (hylinkDevZclReport _ key data s') as [[r s2]|]; [|done]. apply IH.
Qed.

Lemma value_length r rest s : attribute_ok r ->
  getZcl3DataType (S := zigbee) (a_type r) (Some (length_bytes r ++ a_bytes r ++ rest)) s =
    Val ((Z.of_nat (length (a_bytes r)), Z.of_nat (length (length_bytes r))), s).
Proof.
  intros [_ Hb Hl]. unfold getZcl3DataType, length_bytes in *. destruct (byte_string (a_type r)).
  - unfold mbind, M_bind. cbn [get_or]. unfold mret at 1, M_ret at 1. cbn [app]. rewrite arr_get_0. reflexivity.
  - destruct (long_string (a_type r)).
    + destruct (le16_value (Z.of_nat (length (a_bytes r))) ltac:(lia)) as (lo & hi & -> & Hz & Hlo & Hhi). unfold mbind, M_bind. cbn [get_or]. unfold mret at 1, M_ret at 1.
      cbn [app]. rewrite arr_get_0, arr_get_1. unfold mret, M_ret. unfold u16 in Hz. rewrite Z.shiftl_mul_pow2 in * by lia. rewrite Z.mod_small in Hz by lia. by rewrite Hz.
    + by rewrite Hl.
Qed.

Lemma attribute_read k zDev f status pre r tail s : attribute_ok r -> zmessage f = pre ++ encode status r ++ tail -> Z.of_nat (length pre) < msg_length f ->
  attribute_list (Datatypes.S k) zDev f status (Z.of_nat (length pre)) s =
    (zigbeeReport zDev f (a_id r) (a_bytes r) (Z.of_nat (length (a_bytes r))) ;; attribute_list k zDev f status (Z.of_nat (length (pre ++ encode status r)))) s.
Proof.
  intros Hr Hm Hlen. cbn [Zigbee.attribute_list]. destruct (Z.leb_spec (msg_length f) (Z.of_nat (length pre))); [lia|]. cbv zeta. rewrite Hm.
  destruct (le16_value (a_id r) (ao_id _ Hr)) as (lo & hi & Hle & Hid & _). unfold encode in *. rewrite Hle in *.
  set (body := length_bytes r ++ a_bytes r). set (st := if status then [0] else []).
  assert (Hst : length st = if status then 1%nat else 0%nat) by (unfold st; by destruct status).
  assert (HA : forall p x q i, i = Z.of_nat (length p) -> pre ++ ([lo; hi] ++ st ++ [a_type r] ++ body) ++ tail = p ++ x :: q ->
    arr_get (S := zigbee) (pre ++ ([lo; hi] ++ st ++ [a_type r] ++ body) ++ tail) i s = Val (x, s)).
  { intros p x q i -> E. rewrite E. apply arr_get_app. }
  unfold mbind at 1, M_bind at 1. rewrite (HA pre lo (hi :: st ++ [a_type r] ++ body ++ tail)); [|done|cbn [app]; by rewrite <- !app_assoc].
  unfold mbind at 1, M_bind at 1. rewrite (HA (pre ++ [lo]) hi (st ++ [a_type r] ++ body ++ tail)); [|rewrite length_app; cbn; lia|cbn [app]; by rewrite <- !app_assoc].
  rewrite Hid. set (p := pre ++ [lo; hi] ++ st).
  assert (Hstatus : (if status then arr_get (pre ++ ([lo; hi] ++ st ++ [a_type r] ++ body) ++ tail) (Z.of_nat (length pre) + 2) else mret 0) s = Val (0, s)).
  { unfold st. destruct status; [|done]. apply (HA (pre ++ [lo; hi]) 0 ([a_type r] ++ body ++ tail)); [rewrite length_app; cbn; lia|unfold st; cbn [app]; by rewrite <- !app_assoc]. }
  unfold mbind at 1, M_bind at 1. rewrite Hstatus. change (negb (0 =? 0)) with false. rewrite andb_false_r.
  assert (Hi : (if status then Z.of_nat (length pre) + 2 + 1 else Z.of_nat (length pre) + 2) = Z.of_nat (length p)) by (unfold p; rewrite !length_app, Hst; cbn [length]; destruct status; lia).
  rewrite Hi. unfold mbind at 1, M_bind at 1. rewrite (HA p (a_type r) (body ++ tail)); [|done|unfold p; cbn [app]; by rewrite <- !app_assoc].
  assert (Hd : drop (Z.to_nat (Z.of_nat (length p) + 1)) (pre ++ ([lo; hi] ++ st ++ [a_type r] ++ body) ++ tail) = length_bytes r ++ a_bytes r ++ tail).
  { replace (Z.to_nat (Z.of_nat (length p) + 1)) with (length (p ++ [a_type r])) by (rewrite length_app; cbn [length]; lia).
    replace (pre ++ ([lo; hi] ++ st ++ [a_type r] ++ body) ++ tail) with ((p ++ [a_type r]) ++ length_bytes r ++ a_bytes r ++ tail); [by rewrite drop_app_length|].
    unfold p, body. cbn [app]. rewrite <- !app_assoc. cbn [app]. by rewrite <- ?app_assoc. }
  rewrite Hd. unfold mbind at 1, M_bind at 1. rewrite value_length by done. rewrite Nat2Z.id, drop_app_length.
  unfold mbind at 1 2, M_bind at 1 2. unfold Zigbee.zigbeeReport. rewrite report_attrs_rest.
  destruct (report_attrs _ _ _ _ _ _ _ s) as [[u s']|]; [|done]. f_equal.
  unfold p, body. repeat (rewrite length_app; cbn [app length]). lia.
Qed.

Lemma encoded_length status r : (3 <= length (encode status r))%nat.
Proof. unfold encode. rewrite !length_app. cbn [length le16]. lia. Qed.
Lemma attributes_read zDev f status rs : Forall attribute_ok rs -> forall k pre tail s,
  zmessage f = pre ++ mjoin (encode status <$> rs) ++ tail -> Z.of_nat (length (pre ++ mjoin (encode status <$> rs))) <= msg_length f ->
  attribute_list (length rs + k) zDev f status (Z.of_nat (length pre)) s =
    (report_all zDev f rs ;; attribute_list k zDev f status (Z.of_nat (length (pre ++ mjoin (encode status <$> rs))))) s.
Proof.
  induction 1 as [|r rs Hr _ IH]; intros k pre tail s Hm Hl.
  - cbn [fmap list_fmap mjoin list_join]. by rewrite app_nil_r.
  - change (mjoin (encode status <$> (r :: rs))) with (encode status r ++ mjoin (encode status <$> rs)) in *.
    pose proof (encoded_length status r). rewrite !length_app in Hl. cbn [length Nat.add].
    rewrite <- app_assoc in Hm. rewrite (attribute_read _ _ _ _ pre r (mjoin (encode status <$> rs) ++ tail)) by (done || lia).
    unfold report_all. cbn [for_each]. unfold mbind, M_bind. destruct (zigbeeReport _ _ _ _ _ s) as [[u s']|]; [|done].
    rewrite (IH k (pre ++ encode status r) tail s'); [|by rewrite <- app_assoc|rewrite !length_app; lia].
    rewrite <- app_assoc. unfold report_all, mbind, M_bind. by destruct (for_each _ rs s') as [[us s2]|].
Qed.

(** What ends a list of attributes: nothing more, or an attribute that could not be
    read, whatever follows. *)
Inductive list_end (status : bool) : list Z -> Prop :=
| end_here : list_end status []
| end_failed id st rest : status = true -> 0 <= id < 65536 -> st <> 0 -> list_end status (le16 id ++ st :: rest).

(** C19: the attributes of a report, and those of an answer to a question, are
    reported each once and in order, when they are strings or of types whose length
    the program knows (not arrays, structures, sets and bags); but an attribute that
    could not be read hides those behind it in the answer. *)
Theorem attributes_are_reported status f rs tail hyDev zDev s : Forall attribute_ok rs -> list_end status tail ->
  zmessage f = mjoin (encode status <$> rs) ++ tail -> msg_length f = Z.of_nat (length (zmessage f)) ->
  cmd_type f <> Z3_CMD_TYPE_PRIVATE -> cmd_id f = (if status then READ_ATTRIBUTES_RESPONSE else REPORT_ATTRIBUTES) ->
  hyMap s !! dev_id f = Some hyDev -> zigbeeMap s !! ModelId hyDev = Some zDev ->
  zigbeeZclReport python f s = (report_all zDev f rs ;; mret 0) s.
Proof.
  intros Hrs Hend Hm Hlen Ht Hc Hhy Hz. unfold zigbeeZclReport, hylinkListGet, zigbeeListGet.
  unfold mbind at 1, M_bind at 1, gets at 1. rewrite Hhy. unfold mbind at 1, M_bind at 1, gets at 1. rewrite Hz.
  destruct (Z.eqb_spec (cmd_type f) Z3_CMD_TYPE_PRIVATE); [done|].
  assert (HA : attribute_list (Datatypes.S (Z.to_nat (msg_length f))) zDev f status 0 s = report_all zDev f rs s).
  { assert (Hj : (3 * length rs <= length (mjoin (encode status <$> rs)))%nat).
    { clear. induction rs as [|r rs IH]; [done|]. change (mjoin (encode status <$> (r :: rs))) with (encode status r ++ mjoin (encode status <$> rs)).
      rewrite length_app. pose proof (encoded_length status r). cbn [length]. lia. }
    rewrite Hm, length_app in Hlen. replace (Datatypes.S (Z.to_nat (msg_length f))) with (length rs + Datatypes.S (Z.to_nat (msg_length f) - length rs))%nat by lia.
    pose proof (attributes_read zDev f status rs Hrs (Datatypes.S (Z.to_nat (msg_length f) - length rs)) [] tail s Hm) as HR. cbn [app length] in HR.
    change (Z.of_nat 0) with 0 in HR. rewrite HR by lia. unfold mbind, M_bind. destruct (report_all zDev f rs s) as [[[] s']|]; [|done].
    cbn [Zigbee.attribute_list]. destruct Hend as [|id st rest -> Hid Hst].
    - cbn [length] in Hlen. destruct (Z.leb_spec (msg_length f) (Z.of_nat (length (mjoin (encode status <$> rs))))); [done|lia].
    - rewrite length_app in Hlen. cbn [length le16] in Hlen.
      destruct (Z.leb_spec (msg_length f) (Z.of_nat (length (mjoin (encode true <$> rs))))); [lia|]. cbv zeta. rewrite Hm.
      set (p := mjoin (encode true <$> rs)). destruct (le16_value id Hid) as (lo & hi & -> & Hv & _).
      assert (HA : forall a x q i, i = Z.of_nat (length a) -> p ++ [lo; hi] ++ st :: rest = a ++ x :: q ->
        arr_get (S := zigbee) (p ++ [lo; hi] ++ st :: rest) i s' = Val (x, s')).
      { intros a x q i -> E. rewrite E. apply arr_get_app. }
      unfold mbind, M_bind. rewrite (HA p lo (hi :: st :: rest)) by done. rewrite (HA (p ++ [lo]) hi (st :: rest)); [|rewrite length_app; cbn; lia|by rewrite <- app_assoc].
      rewrite (HA (p ++ [lo; hi]) st rest); [|rewrite length_app; cbn; lia|by rewrite <- app_assoc].
      destruct (Z.eqb_spec st 0); [done|]. reflexivity. }
  rewrite Hc. destruct status.
  - change (READ_ATTRIBUTES_RESPONSE =? READ_ATTRIBUTES_RESPONSE) with true. cbv iota. unfold mbind, M_bind. by rewrite HA.
  - change (REPORT_ATTRIBUTES =? READ_ATTRIBUTES_RESPONSE) with false. change (REPORT_ATTRIBUTES =? REPORT_ATTRIBUTES) with true. cbv iota. unfold mbind, M_bind. by rewrite HA.
Qed.

(** * The end of the walk *)

Definition ends {A} (m : T A) : Prop := forall s, m s <> Fault OutOfFuel.
Lemma reading_then {A B} (m : T A) (k : A -> T B) (P : A -> Prop) : ends m -> (forall s a s', m s = Val (a, s') -> P a) -> (forall a, P a -> ends (k a)) -> ends (a ← m; k a).
Proof. intros Hm HP Hk s E. unfold mbind, M_bind in E. destruct (m s) as [[a s']|e] eqn:Em; [|by apply (Hm s); congruence]. by eapply Hk; [eapply HP|]. Qed.
Lemma ends_bind {A B} (m : T A) (k : A -> T B) : ends m -> (forall a, ends (k a)) -> ends (a ← m; k a).
Proof. intros Hm Hk. by apply (reading_then _ _ (fun _ => True)). Qed.
Lemma ends_ret {A} (a : A) : ends (mret a).
Proof. by intros s. Qed.
Lemma ends_if {A} (b : bool) (m n : T A) : ends m -> ends n -> ends (if b then m else n).
Proof. by destruct b. Qed.
Lemma ends_get_or {A} f (o : option A) : f <> OutOfFuel -> ends (get_or f o).
Proof. intros Hf s. destruct o; [done|]. intros E. by injection E. Qed.
Lemma ends_arr_get {A} (l : list A) i : ends (arr_get l i).
Proof. unfold arr_get. apply ends_if; [by intros s|by apply ends_get_or]. Qed.
Lemma ends_call e : ends (call e).
Proof. intros s. unfold call, mbind, M_bind, modify, gets. cbn. by destruct (answers s). Qed.
Lemma ends_strcpy n t : ends (strcpy n t).
Proof. unfold strcpy. apply ends_if; by intros s. Qed.
Lemma ends_get_bytes a n b : ends (get_bytes a n b).
Proof. unfold get_bytes. apply ends_if; by intros s. Qed.
Lemma ends_gets {A} (f : zigbee -> A) : ends (gets f).
Proof. by intros s. Qed.
Lemma ends_modify f : ends (modify f).
Proof. by intros s. Qed.
#[local] Hint Resolve ends_ret ends_if ends_arr_get ends_call ends_strcpy ends_get_bytes ends_gets ends_modify : ends.
#[local] Hint Extern 1 (ends (get_or _ _)) => (by apply ends_get_or) : ends.
Ltac ends := repeat first [progress intros | progress auto with ends | apply ends_if | apply ends_bind | case_match | (let s := fresh in intro s; discriminate)].

Lemma ends_send id t k v : ends (hylinkSendSingleFunc id t k v).
Proof. unfold hylinkSendSingleFunc, hylinkListGet, zigbeeListGet, hylinkDispatch. ends. Qed.
Lemma ends_conver m k d i n : ends (hyLinkConver python m k d i n).
Proof. unfold hyLinkConver. ends. Qed.
#[local] Hint Resolve ends_send ends_conver : ends.
Lemma ends_report a id m inp n : ends (zigbeeAttrReport python a id m inp n).
Proof. unfold zigbeeAttrReport, conversion_up, hylinkDevZclReport, hylinkListGet. ends. Qed.
#[local] Hint Resolve ends_report : ends.
Lemma ends_reports l zDev f id inp n : ends (report_attrs python l zDev f id inp n).
Proof. induction l as [|a l IH]; cbn [report_attrs]; ends. Qed.

Lemma length_positive d v (s : zigbee) a s' : Forall Base64.byte v -> getZcl3DataType d (Some v) s = Val (a, s') -> 0 <= a.1 /\ 0 <= a.2.
Proof.
  intros Hv. unfold getZcl3DataType, mbind, M_bind. cbn [get_or]. unfold mret, M_ret. 
  assert (HA : forall i b s1, arr_get (S := zigbee) v i s = Val (b, s1) -> 0 <= b /\ s1 = s).
  { intros i b s1. unfold arr_get. destruct (i <? 0); [done|]. destruct (v !! Z.to_nat i) as [x|] eqn:E; [|done]. cbn. intros [= <- <-].
    split; [|done]. pose proof (Forall_lookup_1 _ _ _ _ Hv E) as Hx. unfold Base64.byte in Hx. lia. }
  destruct (byte_string d).
  - destruct (arr_get v 0 s) as [[n s1]|] eqn:E; [|done]. intros [= <- <-]. destruct (HA _ _ _ E). cbn. lia.
  - destruct (long_string d).
    + destruct (arr_get v 0 s) as [[n0 s1]|] eqn:E; [|done]. destruct (HA _ _ _ E) as [? ->].
      destruct (arr_get v 1 s) as [[n1 s2]|] eqn:E1; [|done]. destruct (HA _ _ _ E1). intros [= <- <-]. cbn [fst snd]. rewrite Z.shiftl_mul_pow2 by lia. change (2 ^ 8) with 256. lia.
    + intros [= <- <-]. split; [apply default_length|reflexivity].
Qed.

Lemma ends_list zDev f status fuel : Forall Base64.byte (zmessage f) -> forall index, 0 <= index -> Z.max 0 (msg_length f - index) < Z.of_nat fuel ->
  ends (attribute_list fuel zDev f status index).
Proof.
  intros Hb. induction fuel as [|fuel IH]; intros index Hi Hf; [lia|]. cbn [Zigbee.attribute_list]. cbv zeta.
  destruct (Z.leb_spec (msg_length f) index); [auto with ends|]. do 2 (apply ends_bind; [auto with ends|]; intros ?).
  apply ends_bind; [auto with ends|]. intros st. apply ends_if; [auto with ends|]. apply ends_bind; [auto with ends|]. intros type.
  set (next := if status then index + 2 + 1 else index + 2). assert (index + 2 <= next) by (unfold next; destruct status; lia).
  apply (reading_then _ _ (fun a => 0 <= a.1 /\ 0 <= a.2)).
  - unfold getZcl3DataType. ends.
  - intros s1 v1 s1'. apply length_positive. by apply Forall_drop.
  - intros [len shift] [Hlen Hshift]. cbn [fst snd] in *. apply ends_bind; [apply ends_reports|]. intros _. apply IH; lia.
Qed.

(** C22: whatever a device sends, reading its report ends: with reports, or at a
    byte that is not there. *)
Theorem zcl_report_ends f s : Forall Base64.byte (zmessage f) -> zigbeeZclReport python f s <> Fault OutOfFuel.
Proof.
  intros Hb. enough (ends (zigbeeZclReport python f)) as H by apply H.
  unfold zigbeeZclReport. do 2 (apply ends_bind; [by intros ?|]; intros [?|]; [|auto with ends]).
  assert (HL : forall zDev status, ends (attribute_list (Datatypes.S (Z.to_nat (msg_length f))) zDev f status 0)) by (intros; apply ends_list; [done|lia|lia]).
  assert (HP : forall zDev, ends (private_report python zDev f)).
  { intros zDev. unfold private_report. ends; apply ends_reports. }
  apply ends_if; [apply ends_if; [apply HP|apply ends_if; [apply ends_bind; [apply ends_reports|]|]]|repeat apply ends_if; try (apply ends_bind; [apply HL|])];
    auto with ends; by intros s'.
Qed.
End reports.

(** * Witnesses *)

Definition no_python : string -> string -> string -> Z -> option (string * Z) := fun _ _ _ _ => None.
Definition lamp_profile : zigbeeDev :=
  ZDev "TS0001" "" "lamp" 0 900 [ZAttr "Switch" 0 1 1 0 6 1 0 0x10; ZAttr "Level" 0 1 1 0 8 1 0 0x21; ZAttr "Name" 1 1 1 5 0 0 0 0x42] [].
Definition lamp : HylinkDev := Dev "00158d0001" "lamp" "" 0 0.
Definition one_lamp : zigbee := Zigbee {["00158d0001"%string := lamp]} {["lamp"%string := lamp_profile]} 1000 true true [] [].
Definition lamp_on : list attribute := [Attribute 0 0x10 [1]; Attribute 5 0x42 [76; 49]].
Definition lamp_report (status : bool) (tail : list Z) : aps_frame :=
  let msg := mjoin (encode status <$> lamp_on) ++ tail in
  Aps "00158d0001" 0x0104 6 1 1 Z3_CMD_TYPE_GLOBAL (if status then READ_ATTRIBUTES_RESPONSE else REPORT_ATTRIBUTES) 0 (Z.of_nat (length msg)) msg.

Lemma lamp_on_ok : Forall attribute_ok lamp_on.
Proof. repeat (apply Forall_cons; split; [split; [by vm_compute|repeat (apply Forall_cons; split; [by vm_compute|]); apply Forall_nil_2|by vm_compute]|]). apply Forall_nil_2. Qed.
Lemma attributes_are_reported_witness : zigbeeZclReport no_python (lamp_report true (le16 4 ++ [0x86; 6; 0; 0; 16; 1])) one_lamp =
    (report_all no_python lamp_profile (lamp_report true (le16 4 ++ [0x86; 6; 0; 0; 16; 1])) lamp_on ;; mret 0) one_lamp.
Proof.
  apply (attributes_are_reported no_python true _ lamp_on (le16 4 ++ [0x86; 6; 0; 0; 16; 1]) lamp lamp_profile); [apply lamp_on_ok| |try reflexivity..].
  - apply end_failed; [done|lia|lia].
  - by vm_compute.
Defined.
Lemma zcl_report_ends_witness : zigbeeZclReport no_python (lamp_report false [7]) one_lamp = Fault OutOfBounds /\ zigbeeZclReport no_python (lamp_report false [7]) one_lamp <> Fault OutOfFuel.
Proof.
  split; [by vm_compute|]. apply zcl_report_ends. cbn. repeat (apply Forall_cons; split; [by vm_compute|]). apply Forall_nil_2.
Defined.
