(* ===== verification/ZigbeeProps.v ===== *)
(** Devices of the ZigBee program over time, and the way of a command from a frame
    of the hylink program to a device and back. *)
From stdpp Require Import gmap strings pretty.
From Stdlib Require Import Ascii.
From S2P Require Import Prelude CString Json JsonText JsonProps CommonFunc HyBase64 Zcl Zigbee ZigbeeLink ZclProps.

(** * Lengths of messages *)

Lemma escape_at_most s : (String.length (escape s) <= 6 * String.length s)%nat.
Proof.
  induction s as [|c s IH]; [cbn; lia|]. cbn [escape String.length]. rewrite length_app_s.
  assert (String.length (escape_char c) <= 6)%nat; [|lia]. destruct c as [[] [] [] [] [] [] [] []]; apply Nat.leb_le; reflexivity.
Qed.
Definition room (fs : list (string * string)) : nat := sum_list_with (fun f => String.length (print_string_ptr (Some f.1)) + 6 * String.length f.2 + 4)%nat fs.
Lemma string_at_most s : (String.length (print_string_ptr (Some s)) <= 6 * String.length s + 2)%nat.
Proof. unfold print_string_ptr. cbn [String.length]. rewrite length_app_s. cbn [String.length]. pose proof (escape_at_most s). lia. Qed.
Lemma members_at_most dep P fs : (forall t, P (JString t) = print_string_ptr (Some t)) ->
  (String.length (print_members false dep P (string_member <$> fs)) <= room fs)%nat.
Proof.
  intros HP. induction fs as [|[n v] fs IH]; [done|]. pose proof (string_at_most v). cbn [fmap list_fmap string_member fst snd] in *.
  unfold room in *. cbn [sum_list_with fst snd]. destruct fs as [|f fs].
  - cbn [fmap list_fmap]. change (string_member (n, v)) with (Some n, JString v). rewrite print_members_1, HP. cbn [when String.length]. rewrite !length_app_s. cbn [String.length sum_list_with]. lia.
  - cbn [fmap list_fmap] in *. change (string_member (n, v)) with (Some n, JString v). rewrite print_members_2, HP. cbn [when String.length]. rewrite !length_app_s. cbn [String.length]. lia.
Qed.
Lemma report_at_most type fs : (String.length (report_text type fs) <= 6 * String.length type + room fs + 70)%nat.
Proof.
  pose proof (members_at_most 3 (print_value false 3) fs ltac:(done)) as HM. pose proof (string_at_most type) as HT.
  change (report_text type fs) with (String (chr 123) (print_members false 1 (print_value false 1)
    [(Some "Command", JString "Report"); (Some "FrameNumber", JString "00"); (Some "Type", JString type); (Some "Data", JArray [string_object fs])]%string +:+ "" +:+ "}"%string)).
  rewrite !print_members_2, print_members_1. cbn [when print_value print_elements string_object]. unfold string_object. cbn [print_value when].
  do 4 (rewrite ?length_app_s; cbn [String.length]).
  change (String.length (print_string_ptr (Some "Command"%string))) with 9%nat. change (String.length (print_string_ptr (Some "Report"%string))) with 8%nat.
  change (String.length (print_string_ptr (Some "FrameNumber"%string))) with 13%nat. change (String.length (print_string_ptr (Some "00"%string))) with 4%nat.
  change (String.length (print_string_ptr (Some "Type"%string))) with 6%nat. change (String.length (print_string_ptr (Some "Data"%string))) with 6%nat. lia.
Qed.

(** * Messages to hylink *)

Section devices.
Context (stale : Z) (python : string -> string -> string -> Z -> option (string * Z)).
Implicit Types s : zigbee.

(** A message goes out, and the answer is used up. *)
Definition sent (e : zigbee_io) s : zigbee := set_answers (tail (answers s)) (push_done e s).
Lemma wp_send e s (Q : Z -> zigbee -> Prop) : (forall r, Q r (sent e s)) -> wp (call e) s Q.
Proof.
  intros HQ. unfold call. wp_step. wp_step. wp_step. wp_step. destruct s as [? ? ? ? ? [|r l] ?]; cbn.
  - wp_step. apply (HQ 0).
  - wp_step. wp_step. wp_step. apply (HQ r).
Qed.
Definition small (t : string) : Prop := (String.length t < 33)%nat.

Definition model_of (d : HylinkDev) (p : zigbeeDev) : string := if str_eq (report_modelId p) "" then ModelId d else report_modelId p.
Definition single_text (type : string) (d : HylinkDev) (p : zigbeeDev) (key value : option string) : string :=
  report_text type (add_text (add_text [("DeviceId", DeviceId d); ("ModelId", model_of d p)]%string "Key" key) "Value" value).
Definition names_small (d : HylinkDev) (p : zigbeeDev) : Prop := small (DeviceId d) /\ small (ModelId d) /\ small (report_modelId p).

Lemma single_fits type d p key value : (String.length type <= 10)%nat -> names_small d p -> small (default "" key) -> small (default "" value) ->
  (String.length (single_text type d p key value) < 1022)%nat.
Proof.
  intros Ht (Hi & Hm & Hr) Hk Hv. unfold small in *. pose proof (report_at_most type (add_text (add_text [("DeviceId", DeviceId d); ("ModelId", model_of d p)]%string "Key" key) "Value" value)) as HL.
  assert (String.length (model_of d p) < 33)%nat as Hm' by (unfold model_of; by case_match).
  assert (HK : forall l n t, (room (l ++ [(n, t)]) = room l + (String.length (print_string_ptr (Some n)) + 6 * String.length t + 4))%nat).
  { intros l n t. unfold room. rewrite sum_list_with_app. cbn [sum_list_with fst snd]. lia. }
  assert (HD : forall i m, (room [("DeviceId", i); ("ModelId", m)]%string = 6 * (String.length i + String.length m) + 27)%nat) by (intros i m; unfold room; cbn [sum_list_with fst snd];
    change (String.length (print_string_ptr (Some "DeviceId"%string))) with 10%nat; change (String.length (print_string_ptr (Some "ModelId"%string))) with 9%nat; lia).
  unfold single_text. destruct key as [k|], value as [v|]; unfold add_text in *; unfold default, from_option, id in *; rewrite ?HK, ?HD in HL;
    change (String.length (print_string_ptr (Some "Key"%string))) with 5%nat in HL; change (String.length (print_string_ptr (Some "Value"%string))) with 7%nat in HL; lia.
Qed.

(** A device that is known, with its profile. *)
Record known s (id : string) (d : HylinkDev) (p : zigbeeDev) : Prop := Known {
  kn_dev : hyMap s !! id = Some d;
  kn_id : DeviceId d = id;
  kn_profile : zigbeeMap s !! ModelId d = Some p;
  kn_small : names_small d p
}.
Lemma wp_single s id d p type key value (Q : Z -> zigbee -> Prop) : known s id d p ->
  (String.length type <= 10)%nat -> small (default "" key) -> small (default "" value) ->
  (forall r, Q r (sent (ToClient (frame (single_text type d p key value))) s)) -> wp (hylinkSendSingleFunc id type key value) s Q.
Proof.
  intros [Hd Hi Hp Hs] Ht Hk Hv HQ. unfold hylinkSendSingleFunc, hylinkListGet, zigbeeListGet. wp_step. wp_step. rewrite Hd. wp_step. wp_step. rewrite Hp.
  cbv zeta. fold (model_of d p). rewrite <- Hi. pose proof (single_fits type d p key value Ht Hs Hk Hv) as HL. unfold single_text in *.
  unfold hylinkDispatch. destruct (Nat.leb_spec 1024 (String.length (report_text type (add_text (add_text [("DeviceId", DeviceId d); ("ModelId", model_of d p)]%string "Key" key) "Value" value)) + 2)); [lia|].
  by apply wp_send.
Qed.

(** * Questions to devices *)

(** What hylink was told. *)
Definition told s : list string := omap (fun e => match e with ToClient t => Some t | _ => None end) (done s).
Definition quiet s s' : Prop := hyMap s' = hyMap s /\ zigbeeMap s' = zigbeeMap s /\ now s' = now s /\ running s' = running s /\ told s' = told s.
Lemma quiet_refl s : quiet s s.
Proof. by split_and!. Qed.
Lemma quiet_trans s s' s'' : quiet s s' -> quiet s' s'' -> quiet s s''.
Proof. unfold quiet. intros (-> & -> & -> & -> & ->) H. exact H. Qed.
Lemma quiet_sent f s : quiet s (sent (SendZcl f) s).
Proof. split_and!; try done. unfold told. cbn. by rewrite omap_app, app_nil_r. Qed.
Lemma told_sent t s : told (sent (ToClient t) s) = told s ++ [t].
Proof. unfold told. cbn. by rewrite omap_app. Qed.

Lemma wp_put_bytes off bs buf s (Q : list Z -> zigbee -> Prop) : (off + length bs <= length buf)%nat ->
  Q (take off buf ++ bs ++ drop (off + length bs) buf) s -> wp (put_bytes off bs buf) s Q.
Proof. intros Hl HQ. unfold put_bytes. by destruct (Nat.leb_spec (off + length bs) (length buf)); [|lia]. Qed.

Lemma put_length off (bs buf : list Z) : (off + length bs <= length buf)%nat -> length (take off buf ++ bs ++ drop (off + length bs) buf) = length buf.
Proof. intros Hl. rewrite !length_app, length_take, length_drop. lia. Qed.

(** A frame in the making. *)
Definition buffered (f : aps_frame) : Prop := length (zmessage f) = 33%nat.
Lemma query_run a f s : buffered f -> wp (zigbeeZclQuery a f) s (fun r s' => buffered r.2 /\ quiet s s').
Proof.
  intros Hf. unfold zigbeeZclQuery. wp_step.
  apply (wp_mono _ _ (fun f' s' => s' = s /\ buffered f' /\ 0 <= msg_length f' <= 33)).
  - unfold buffered in Hf. assert (3 <= length (zmessage f))%nat by (rewrite Hf; apply Nat.leb_le; reflexivity).
    case_match; wp_step; (eapply wp_put_bytes; [cbn; lia|]); wp_step; (split_and!; [done| |cbn; lia|cbn; lia]); unfold buffered; cbn [zmessage with_message];
      (rewrite put_length; [done|cbn; lia]).
  - intros f' ? (-> & Hb & Hl). cbv zeta. wp_step. unfold tuyaZclSend. unfold attr_ends, with_ends. cbn [zmessage msg_length]. unfold buffered in Hb. rewrite Hb.
    destruct (Z.ltb_spec (Z.of_nat 33) (msg_length f')); [lia|]. apply wp_send. intros r. wp_step. split; [done|apply quiet_sent].
Qed.
Lemma query_all_run l f s : buffered f -> wp (query_all l f) s (fun f' s' => buffered f' /\ quiet s s').
Proof.
  revert f s. induction l as [|a l IH]; intros f s Hf; cbn [query_all]; wp_step; [split; [done|apply quiet_refl]|].
  eapply wp_mono; [by apply (query_run a (attr_ends a f))|]. intros [r f'] s' [Hb Hq]. eapply wp_mono; [by apply IH|].
  intros f2 s2 [Hb2 Hq2]. split; [done|by eapply quiet_trans].
Qed.
Lemma dev_question_run p f key s : buffered f -> wp (zigbeeDevZclDispatch stale python p f key None) s (fun r s' => buffered r.2 /\ quiet s s' /\ (key = None -> r.1 = 0)).
Proof.
  intros Hf. unfold zigbeeDevZclDispatch. destruct key as [key|].
  - case_match; [|wp_step; split_and!; [done|apply quiet_refl|done]]. eapply wp_mono; [by apply query_run|]. intros r s' [Hb Hq]. by split_and!.
  - wp_step. eapply wp_mono; [by apply query_all_run|]. intros f' s' [Hb Hq]. wp_step. by split_and!.
Qed.
Lemma scene_question_run p keys res f s : buffered f -> wp (scene_dispatch stale python p keys None res f) s (fun _ s' => quiet s s').
Proof.
  revert res f s. induction keys as [|k keys IH]; intros res f s Hf; cbn [scene_dispatch]; wp_step; [apply quiet_refl|].
  eapply wp_mono; [by apply dev_question_run|]. intros [r f'] s' (Hb & Hq & _). eapply wp_mono; [by apply IH|].
  intros r2 s2 Hq2. by eapply quiet_trans.
Qed.
(** The house after a question. *)
Definition asked (id : string) (key : option string) s : zigbee :=
  if bool_decide (key = Some STR_VERSION) then set_hy (alter (with_version 1) id (hyMap s)) s else s.
Lemma question_run id key d p s : known s id d p -> wp (zigbeeZclDispatch stale python id key None) s (fun _ s' => quiet (asked id key s) s').
Proof.
  intros [Hd Hi Hp (Hs & _ & _)]. unfold zigbeeZclDispatch, hylinkListGet, zigbeeListGet. wp_step. wp_step. rewrite Hd. wp_step. wp_step. rewrite Hp. wp_step.
  apply (wp_mono _ _ (fun _ s' => s' = asked id key s)).
  - unfold asked. destruct (decide (key = Some STR_VERSION)) as [->|Hk].
    + rewrite !bool_decide_eq_true_2 by done. unfold upd_dev. by wp_step.
    + rewrite !bool_decide_eq_false_2 by naive_solver. by wp_step.
  - intros _ ? ->. wp_step. apply wp_strcpy; [by rewrite <- Hi|]. wp_step.
    eapply wp_mono; [by apply dev_question_run|]. intros [res f] s' (Hb & Hq & Hk). cbn [fst snd] in *.
    destruct (Z.ltb_spec res 0); [|by wp_step]. destruct key as [key|]; [|specialize (Hk eq_refl); lia]. wp_step. wp_step.
    case_match; [|by wp_step]. eapply wp_mono; [by apply scene_question_run|]. intros r s2 Hq2. by eapply quiet_trans.
Qed.

(** * Joining and leaving *)

Lemma told_other e s : (forall t, e <> ToClient t) -> told (sent e s) = told s.
Proof. intros He. unfold told. cbn. rewrite omap_app. destruct e; cbn; rewrite ?app_nil_r; naive_solver. Qed.
Lemma known_after s s' id d p : known s id d p -> hyMap s' = hyMap s -> zigbeeMap s' = zigbeeMap s -> known s' id d p.
Proof. intros [Hd Hi Hp Hs] Hm Hz. constructor; congruence. Qed.

(** A device of a known kind that joins is registered with hylink, then its
    version is told, and nothing else; it is known from then on and counts as off
    line until it is heard of. *)
Theorem joining_device_is_registered s id v m p : zigbeeMap s !! m = Some p -> small id -> small m -> small v -> small (report_modelId p) ->
  let d := Dev id m v 0 0 in
  wp (hylinkDevJoin stale python id v m) s (fun r s' => r = 0 /\ known s' id d p /\ hyMap s' = <[id := d]> (hyMap s) /\ zigbeeMap s' = zigbeeMap s /\
    told s' = told s ++ [frame (single_text "Register" d p None None); frame (single_text "Attribute" d p (Some STR_VERSION) (Some v))]).
Proof.
  intros Hp Hi Hm Hv Hr d. unfold hylinkDevJoin, zigbeeListGet, hylinkListAdd. wp_step. wp_step. rewrite Hp.
  do 3 (wp_step; apply wp_strcpy; [done|]). wp_step. wp_step. fold d.
  set (s1 := set_hy _ s). assert (known s1 id d p) as Hk by (constructor; [apply lookup_insert_eq|done..]).
  wp_step. apply wp_send. intros _. set (s2 := sent _ s1). assert (known s2 id d p) as Hk2 by (by apply (known_after s1)).
  wp_step. eapply wp_single; [exact Hk2|by apply Nat.leb_le|by apply Nat.leb_le..|]. intros _. set (s3 := sent _ s2). assert (known s3 id d p) as Hk3 by (by apply (known_after s1)).
  wp_step. eapply wp_single; [exact Hk3|by apply Nat.leb_le|by apply Nat.leb_le|done|]. intros _. set (s4 := sent _ s3). assert (known s4 id d p) as Hk4 by (by apply (known_after s1)).
  wp_step. eapply wp_mono; [exact (question_run id None d p s4 Hk4)|]. intros r s5 (H1 & H2 & H3 & H4 & H5). change (asked id None s4) with s4 in *. wp_step.
  split_and!; [done|by apply (known_after s4)|by rewrite H1|by rewrite H2|].
  rewrite H5. unfold s4, s3. rewrite !told_sent. unfold s2. rewrite told_other by done. by rewrite <- app_assoc.
Qed.
(** C23: a device that leaves, or is deleted by hylink, is told to hylink, and then
    the program reads it when it has been freed. *)
Theorem leaving_device_is_read_after_free s id d p : known s id d p -> hylinkDevLeave id s = Fault Dangling.
Proof.
  intros H. pose proof H as [Hd Hi _ _]. unfold hylinkDevLeave, hylinkListGet. apply fault_after. wp_step. cbv beta. rewrite Hd.
  apply fault_after. rewrite Hi. eapply wp_single; [done|by apply Nat.leb_le|by apply Nat.leb_le..|]. intros r. unfold hylinkListDel.
  apply fault_after. wp_step. apply fault_after. wp_step. cbn. by rewrite lookup_delete_eq.
Qed.
End devices.

(** * Witnesses *)

Lemma joining_device_is_registered_witness :
  wp (hylinkDevJoin 0 no_python "00158d0003" "1.2.3" "lamp") one_lamp (fun r s' => r = 0 /\ known s' "00158d0003" (Dev "00158d0003" "lamp" "1.2.3" 0 0) lamp_profile /\
    hyMap s' = <["00158d0003"%string := Dev "00158d0003" "lamp" "1.2.3" 0 0]> (hyMap one_lamp) /\ zigbeeMap s' = zigbeeMap one_lamp /\
    told s' = told one_lamp ++ [frame (single_text "Register" (Dev "00158d0003" "lamp" "1.2.3" 0 0) lamp_profile None None);
      frame (single_text "Attribute" (Dev "00158d0003" "lamp" "1.2.3" 0 0) lamp_profile (Some STR_VERSION) (Some "1.2.3"%string))]).
Proof. apply joining_device_is_registered; [reflexivity|by apply Nat.leb_le..]. Defined.
Lemma leaving_device_is_read_after_free_witness : known one_lamp "00158d0001" lamp lamp_profile /\ hylinkDevLeave "00158d0001" one_lamp = Fault Dangling.
Proof.
  assert (known one_lamp "00158d0001" lamp lamp_profile) as H by (constructor; [reflexivity..|]; repeat split; by apply Nat.leb_le).
  split; [exact H|]. exact (leaving_device_is_read_after_free _ _ _ _ H).
Defined.
