(* ===== verification/ZigbeeOnline.v ===== *)
(** What hylink is told of the devices of the ZigBee program: each lives as if it
    were alone. *)
From stdpp Require Import gmap strings pretty.
From S2P Require Import Prelude CString Json JsonText JsonProps CommonFunc Zcl Zigbee ZigbeeLink ZclProps ZigbeeProps.

(** * One device *)

Record watch : Type := Watch { w_active : Z; w_asked : Z }.
Inductive notice : Type := Online | Offline | VersionIs (v : string).
Definition watch_of (d : HylinkDev) : watch := Watch (activeTime d) (version d).
Definition heard (t v : Z) (w : watch) : watch * list notice :=
  if (w_active w =? 0) || (0 <? w_asked w) then (Watch t 0, [Online; VersionIs (version_text v)]) else (Watch t (w_asked w), []).
Definition beat (p : zigbeeDev) (t : Z) (w : watch) : watch * list notice :=
  if w_active w =? 0 then (w, [])
  else if w_active w + heartbeatTime p <? t then (Watch 0 (w_asked w), [Offline])
  else if (w_active w + HEART_TIMER <? t) && negb (heart_type p =? HEART_AUTO_REPORT) then (Watch (w_active w) 1, [])
  else (w, []).

(** The message of a notice. *)
Definition line (id model : string) (n : notice) : string :=
  let text type key value := frame (report_text type [("DeviceId", id); ("ModelId", model); ("Key", key); ("Value", value)]%string) in
  match n with
  | Online => text "OnOff" "Online" "1"
  | Offline => text "OnOff" "Online" "0"
  | VersionIs v => text "Attribute" STR_VERSION v
  end%string.

(** * Many devices *)

Inductive event : Type := Heard (id : string) (version t : Z) | Beat (t : Z).
(** The house at another time. *)
Definition at_time (t : Z) (s : zigbee) : zigbee := Zigbee.Zigbee (hyMap s) (zigbeeMap s) t (python_on s) (running s) (answers s) (done s).
(** What a device sees of an event. *)
Definition seen (p : zigbeeDev) (id : string) (e : event) (w : watch) : watch * list notice :=
  match e with
  | Heard i v t => if decide (i = id) then heard t v w else (w, [])
  | Beat t => beat p t w
  end.
Fixpoint life (p : zigbeeDev) (id : string) (es : list event) (w : watch) : watch * list notice :=
  match es with
  | [] => (w, [])
  | e :: es => let '(w, ns) := seen p id e w in let '(w, ms) := life p id es w in (w, ns ++ ms)
  end.

(** The model that hylink hears for a device. *)
Definition sent_as (s : zigbee) (id : string) : string :=
  default "" (d ← hyMap s !! id; p ← zigbeeMap s !! ModelId d; Some (model_of d p))%string.
Definition lines (s : zigbee) (o : string * notice) : string := line o.1 (sent_as s o.1) o.2.
Definition about (id : string) (outs : list (string * notice)) : list notice := omap (fun o => if decide (o.1 = id) then Some o.2 else None) outs.
Definition house_ok (s : zigbee) : Prop := forall id d, hyMap s !! id = Some d -> exists p, known s id d p.

Section online.
Context (stale : Z) (python : string -> string -> string -> Z -> option (string * Z))
  (buckets : gmap string HylinkDev -> list (option string)) (channel : option string).
Implicit Types s : zigbee.

Definition happen (e : event) : T unit :=
  match e with
  | Heard id v t => modify (at_time t) ;; _ ← z3_dev_online_fresh_cb id v; mret tt
  | Beat t => modify (at_time t) ;; _ ← heartbeat stale python buckets; mret tt
  end.

(** A part of the house goes on: the devices [ids], with [step], and what is told. *)
Record lived (step : string -> zigbeeDev -> watch -> watch * list notice) s s' : Prop := Lived {
  lv_profiles : zigbeeMap s' = zigbeeMap s;
  lv_unknown : forall id, hyMap s !! id = None -> hyMap s' !! id = None;
  lv_told : exists outs, told s' = told s ++ (lines s <$> outs) /\ (forall o, o ∈ outs -> is_Some (hyMap s !! o.1)) /\
    forall id d p, known s id d p -> exists d', hyMap s' !! id = Some d' /\ DeviceId d' = id /\ ModelId d' = ModelId d /\
      (watch_of d', about id outs) = step id p (watch_of d)
}.

Lemma known_unique s id d p d' p' : known s id d p -> known s id d' p' -> d' = d /\ p' = p.
Proof. intros [H1 _ H2 _] [H3 _ H4 _]. rewrite H3 in H1. injection H1 as <-. rewrite H4 in H2. by injection H2. Qed.
Lemma sent_as_known s id d p : known s id d p -> sent_as s id = model_of d p.
Proof. intros [H1 _ H2 _]. unfold sent_as. rewrite H1. cbn [mbind option_bind]. by rewrite H2. Qed.
Lemma known_named s s' id d d' p : known s id d p -> zigbeeMap s' = zigbeeMap s -> hyMap s' !! id = Some d' -> DeviceId d' = id -> ModelId d' = ModelId d -> known s' id d' p.
Proof. intros [H1 H2 H3 (Ha & Hb & Hc)] Hz Hd Hi Hm. constructor; [done|done|by rewrite Hz, Hm|split_and!; [by rewrite Hi, <- H2|by rewrite Hm|done]]. Qed.

Lemma lived_known step s s' id d p : lived step s s' -> known s id d p -> exists d', known s' id d' p /\ ModelId d' = ModelId d /\ watch_of d' = (step id p (watch_of d)).1.
Proof.
  intros [Hz _ (outs & _ & _ & Ho)] Hk. destruct (Ho id d p Hk) as (d' & H1 & H2 & H3 & H4). exists d'.
  split_and!; [by eapply known_named|done|by rewrite <- H4].
Qed.
Lemma lived_house step s s' : lived step s s' -> house_ok s -> house_ok s'.
Proof.
  intros HL Hs id d' Hd'. destruct (hyMap s !! id) as [d|] eqn:Hd; [|by rewrite (lv_unknown _ _ _ HL) in Hd'].
  destruct (Hs id d Hd) as (p & Hk). destruct (lived_known _ _ _ _ _ _ HL Hk) as (d2 & Hk2 & _). exists p.
  pose proof (kn_dev _ _ _ _ Hk2) as E. rewrite Hd' in E. by injection E as ->.
Qed.
Lemma lived_sent_as step s s' id : lived step s s' -> house_ok s -> is_Some (hyMap s !! id) -> sent_as s' id = sent_as s id.
Proof.
  intros HL Hs [d Hd]. destruct (Hs id d Hd) as (p & Hk). destruct (lived_known _ _ _ _ _ _ HL Hk) as (d' & Hk' & Hm & _).
  rewrite (sent_as_known _ _ _ _ Hk), (sent_as_known _ _ _ _ Hk'). unfold model_of. by rewrite Hm.
Qed.

Definition after (f g : string -> zigbeeDev -> watch -> watch * list notice) : string -> zigbeeDev -> watch -> watch * list notice :=
  fun id p w => let '(w, ns) := f id p w in let '(w, ms) := g id p w in (w, ns ++ ms).
Definition nothing : string -> zigbeeDev -> watch -> watch * list notice := fun _ _ w => (w, []).
Lemma lived_refl s : lived nothing s s.
Proof.
  split; [done|done|]. exists []. split_and!; [by rewrite app_nil_r|by intros o Ho%elem_of_nil|]. intros id d p [H1 H2 _ _]. by exists d.
Qed.
Lemma about_app id o1 o2 : about id (o1 ++ o2) = about id o1 ++ about id o2.
Proof. apply omap_app. Qed.
Lemma lived_trans f g s s1 s2 : house_ok s -> lived f s s1 -> lived g s1 s2 -> lived (after f g) s s2.
Proof.
  intros Hs H1 H2. pose proof H1 as [Hz1 Hu1 (o1 & Ht1 & Ha1 & Hn1)]. pose proof H2 as [Hz2 Hu2 (o2 & Ht2 & Ha2 & Hn2)].
  assert (HK : forall id, is_Some (hyMap s1 !! id) -> is_Some (hyMap s !! id)).
  { intros id [d1 Hd1]. destruct (hyMap s !! id) eqn:E; [by eexists|]. by rewrite (Hu1 _ E) in Hd1. }
  split; [congruence|by auto|]. exists (o1 ++ o2). split_and!.
  - rewrite Ht2, Ht1, fmap_app, <- app_assoc. do 2 f_equal. apply list_fmap_ext. intros i o Hi. apply list_elem_of_lookup_2 in Hi.
    unfold lines. by rewrite (lived_sent_as _ _ _ _ H1 Hs) by auto.
  - intros o [Ho|Ho]%elem_of_app; auto.
  - intros id d p Hk. destruct (Hn1 id d p Hk) as (d1 & Hd1 & Hi1 & Hm1 & Hw1). destruct (lived_known _ _ _ _ _ _ H1 Hk) as (d1' & Hk1 & _).
    assert (d1' = d1) as -> by (pose proof (kn_dev _ _ _ _ Hk1); congruence). destruct (Hn2 id d1 p Hk1) as (d2 & Hd2 & Hi2 & Hm2 & Hw2).
    exists d2. split_and!; [done|done|congruence|]. unfold after. rewrite <- Hw1, <- Hw2, about_app. done.
Qed.
Lemma lived_ext f g s s' : (forall id p w, is_Some (hyMap s !! id) -> f id p w = g id p w) -> lived f s s' -> lived g s s'.
Proof. intros Hfg [H1 H2 (o & Ho & Ha & Hn)]. split; [done|done|]. exists o. split_and!; [done..|]. intros id d p Hk. rewrite <- Hfg by (rewrite (kn_dev _ _ _ _ Hk); by eexists). by apply Hn. Qed.

(** * One device of many *)

Definition only (id : string) (f : zigbeeDev -> watch -> watch * list notice) : string -> zigbeeDev -> watch -> watch * list notice :=
  fun i p w => if decide (i = id) then f p w else (w, []).
Lemma only_lived f s s' id d p d' ns : known s id d p -> zigbeeMap s' = zigbeeMap s -> hyMap s' = <[id := d']> (hyMap s) ->
  DeviceId d' = id -> ModelId d' = ModelId d -> told s' = told s ++ (line id (model_of d p) <$> ns) -> f p (watch_of d) = (watch_of d', ns) ->
  lived (only id f) s s'.
Proof.
  intros Hk Hz Hh Hi Hm Ht Hf. split; [done| |].
  - intros i Hn. rewrite Hh. destruct (decide (i = id)) as [->|]; [by rewrite (kn_dev _ _ _ _ Hk) in Hn|by rewrite lookup_insert_ne].
  - exists ((fun n => (id, n)) <$> ns). split_and!.
    + rewrite Ht, <- list_fmap_compose. f_equal. apply list_fmap_ext. intros j n _. unfold lines. cbn. by rewrite (sent_as_known _ _ _ _ Hk).
    + intros o (n & -> & _)%list_elem_of_fmap. cbn. rewrite (kn_dev _ _ _ _ Hk). by eexists.
    + intros i d2 p2 Hk2. unfold only. assert (HA : about i ((fun n => (id, n)) <$> ns) = if decide (i = id) then ns else []).
      { unfold about. clear. induction ns as [|n ns IH]; [by case_decide|]. cbn [fmap list_fmap omap list_omap fst snd] in *. destruct (decide (id = i)) as [E|E], (decide (i = id)) as [E'|E']; try congruence; by rewrite IH. }
      rewrite HA, Hh. destruct (decide (i = id)) as [->|Hne].
      * destruct (known_unique _ _ _ _ _ _ Hk Hk2) as [-> ->]. exists d'. rewrite lookup_insert_eq. by split_and!.
      * exists d2. rewrite lookup_insert_ne by done. destruct Hk2. by split_and!.
Qed.

Lemma version_small v : small (version_text v).
Proof.
  assert (HB : forall z k, 0 <= k <= 4 -> (String.length (text_d (Z.land z (Z.ones k))) <= 2)%nat).
  { intros z k Hk. rewrite Z.land_ones by lia. pose proof (Z.mod_pos_bound z (2 ^ k) ltac:(lia)). assert (2 ^ k <= 2 ^ 4) by (apply Z.pow_le_mono_r; lia). change (2 ^ 4) with 16 in *.
    assert (HF : forallb (fun n => String.length (text_d (Z.of_nat n)) <=? 2)%nat (seq 0 16) = true) by reflexivity.
    rewrite forallb_forall in HF. specialize (HF (Z.to_nat (z mod 2 ^ k))). rewrite Z2Nat.id in HF by lia. apply Nat.leb_le, HF, in_seq. lia. }
  unfold version_text, small. rewrite !length_app_s. cbn [String.length].
  pose proof (HB (Z.shiftr v 6) 2 ltac:(lia)). pose proof (HB (Z.shiftr v 4) 2 ltac:(lia)). pose proof (HB v 4 ltac:(lia)).
  change (Z.ones 2) with 3 in *. change (Z.ones 4) with 15 in *. lia.
Qed.

(** The member is written through the pointer. *)
Lemma upd_dev_run id f d s (Q : unit -> zigbee -> Prop) : hyMap s !! id = Some d -> Q tt (set_hy (<[id := f d]> (hyMap s)) s) -> wp (upd_dev id f) s Q.
Proof. intros Hd HQ. unfold upd_dev. wp_step. by rewrite (alter_alt_Some _ _ _ _ Hd). Qed.
(** One device goes on by [f], and nothing else changes. *)
Definition moved (id : string) (f : watch -> watch * list notice) (d : HylinkDev) (p : zigbeeDev) s s' : Prop :=
  exists d' ns, hyMap s' = <[id := d']> (hyMap s) /\ zigbeeMap s' = zigbeeMap s /\ DeviceId d' = id /\ ModelId d' = ModelId d /\
    told s' = told s ++ (line id (model_of d p) <$> ns) /\ f (watch_of d) = (watch_of d', ns).
Lemma moved_lived id f d p s s' : known s id d p -> moved id (f p) d p s s' -> lived (only id f) s s'.
Proof. intros Hk (d' & ns & Hh & Hz & Hi & Hm & Ht & Hf). by eapply only_lived. Qed.

Lemma heard_moves id v d p s : known s id d p ->
  wp (z3_dev_online_fresh_cb id v) s (fun _ s' => moved id (heard (now s) v) d p s s').
Proof.
  intros Hk. pose proof Hk as [Hd Hi Hp Hs]. unfold z3_dev_online_fresh_cb, hylinkOnlineFresh, hylinkListGet. wp_step. wp_step. wp_step. rewrite Hd.
  pose proof (version_small v) as Hv. wp_step. apply wp_strcpy; [done|]. wp_step. apply (upd_dev_run _ _ d); [done|].
  set (d1 := with_Version (version_text v) d). set (s1 := set_hy _ s). assert (hyMap s1 !! id = Some d1) as Hd1 by apply lookup_insert_eq. wp_step.
  destruct ((activeTime d =? 0) || (0 <? version d)) eqn:Ea.
  - wp_step. apply (upd_dev_run _ _ d1); [done|]. set (d2 := with_version 0 d1). set (s2 := set_hy _ s1).
    assert (hyMap s2 !! id = Some d2) as Hd2 by apply lookup_insert_eq. assert (known s2 id d2 p) as Hk2 by (by constructor).
    rewrite Hi. wp_step. eapply wp_single; [exact Hk2|by apply Nat.leb_le|by apply Nat.leb_le..|]. intros _.
    wp_step. eapply wp_single; [by apply (known_after s2)|by apply Nat.leb_le|by apply Nat.leb_le|done|]. intros _.
    wp_step. wp_step. wp_step. wp_step. apply (upd_dev_run _ _ d2); [done|]. wp_step. wp_step.
    exists (with_activeTime (now s) d2), [Online; VersionIs (version_text v)]. split_and!; try done.
    + cbn. by rewrite !insert_insert_eq.
    + assert (HT : told s2 = told s) by done. rewrite <- HT.
      transitivity (told (sent (ToClient (frame (single_text "Attribute" d2 p (Some STR_VERSION) (Some (version_text v))))) (sent (ToClient (frame (single_text "OnOff" d2 p (Some "Online"%string) (Some "1"%string)))) s2))); [done|].
      rewrite !told_sent, <- app_assoc. cbn [fmap list_fmap line app]. unfold single_text. cbn [add_text app d2 d1 with_version with_Version DeviceId]. by rewrite Hi.
    + unfold heard. cbn [watch_of w_active w_asked]. by rewrite Ea.
  - wp_step. wp_step. wp_step. wp_step. apply (upd_dev_run _ _ d1); [done|]. wp_step. wp_step.
    exists (with_activeTime (now s) d1), []. split_and!; try done.
    + cbn. by rewrite insert_insert_eq.
    + by rewrite app_nil_r.
    + unfold heard. cbn [watch_of w_active w_asked]. by rewrite Ea.
Qed.
Lemma heard_run id v d p s : known s id d p ->
  wp (z3_dev_online_fresh_cb id v) s (fun _ s' => lived (only id (fun _ => heard (now s) v)) s s').
Proof. intros Hk. eapply wp_mono; [by apply (heard_moves id v d p)|]. intros r s' H. by eapply moved_lived. Qed.

Lemma beat_moves id t d p s : known s id d p -> wp (heartbeat_dev stale python t (Some id)) s (fun _ s' => moved id (beat p t) d p s s').
Proof.
  intros Hk. pose proof Hk as [Hd Hi Hp Hs]. unfold heartbeat_dev, hylinkListGet, zigbeeListGet. wp_step. wp_step. rewrite Hd.
  assert (Hsame : beat p t (watch_of d) = (watch_of d, []) -> wp (mret tt) s (fun _ s' => moved id (beat p t) d p s s')).
  { intros Hb. wp_step. exists d, []. split_and!; try done; [by rewrite insert_id|by rewrite app_nil_r]. }
  unfold beat at 1 in Hsame. cbn [watch_of w_active w_asked] in Hsame. destruct (activeTime d =? 0) eqn:Ea; [by apply Hsame|].
  wp_step. wp_step. rewrite Hp. destruct (activeTime d + heartbeatTime p <? t) eqn:Eo; [|destruct (activeTime d + HEART_TIMER <? t) eqn:Eh; [destruct (heart_type p =? HEART_AUTO_REPORT) eqn:Er|]]; cbn [andb negb] in Hsame; [|by apply Hsame| |by apply Hsame].
  - clear Hsame. wp_step. apply (upd_dev_run _ _ d); [done|]. set (d1 := with_activeTime 0 d). set (s1 := set_hy _ s).
    assert (known s1 id d1 p) as Hk1 by (constructor; [apply lookup_insert_eq|done..]). rewrite Hi. wp_step.
    eapply wp_single; [exact Hk1|by apply Nat.leb_le|by apply Nat.leb_le..|]. intros _. wp_step.
    exists d1, [Offline]. split_and!; try done.
    + rewrite told_sent. unfold single_text. cbn [add_text app d1 with_activeTime DeviceId]. by rewrite Hi.
    + unfold beat. cbn [watch_of w_active w_asked]. by rewrite Ea, Eo.
  - clear Hsame. rewrite Hi. wp_step. eapply wp_mono; [by apply (question_run stale python id (Some STR_VERSION) d p)|].
    intros _ s' (H1 & H2 & H3 & H4 & H5). unfold asked in *. rewrite bool_decide_eq_true_2 in * by done. cbn [hyMap zigbeeMap set_hy] in *. wp_step.
    exists (with_version 1 d), []. split_and!; try done.
    + rewrite H1. by apply alter_alt_Some.
    + by rewrite app_nil_r.
    + unfold beat. cbn [watch_of w_active w_asked]. by rewrite Ea, Eo, Eh, Er.
Qed.

Lemma beat_run id t d p s : known s id d p -> wp (heartbeat_dev stale python t (Some id)) s (fun _ s' => lived (only id (fun p => beat p t)) s s').
Proof. intros Hk. eapply wp_mono; [by apply (beat_moves id t d p)|]. intros r s' H. by eapply moved_lived. Qed.

(** * All devices *)

Definition those (ids : list string) (f : zigbeeDev -> watch -> watch * list notice) : string -> zigbeeDev -> watch -> watch * list notice :=
  fun i p w => if decide (i ∈ ids) then f p w else (w, []).
Lemma beats_run t l : NoDup (omap id l) -> forall s, house_ok s -> Forall (fun i => is_Some (hyMap s !! i)) (omap id l) ->
  wp (for_each (heartbeat_dev stale python t) l) s (fun _ s' => lived (those (omap id l) (fun p => beat p t)) s s').
Proof.
  induction l as [|[i|] l IH]; intros Hn s Hs Hl; cbn [for_each].
  - wp_step. eapply lived_ext; [|apply lived_refl]. intros. unfold those, nothing. case_decide as Hi; [|done]. by apply elem_of_nil in Hi.
  - cbn [omap list_omap id] in *. apply NoDup_cons in Hn as [Hi Hn]. apply Forall_cons in Hl as [[d Hd] Hl]. destruct (Hs i d Hd) as (p & Hk).
    wp_step. eapply wp_mono; [by apply (beat_run i t d p)|]. intros u s1 H1. wp_step.
    eapply wp_mono; [apply IH; [done|exact (lived_house _ _ _ H1 Hs)|]|].
    + apply Forall_forall. intros k Hin. rewrite Forall_forall in Hl. destruct (Hl k Hin) as [dk Hdk]. destruct (Hs k dk Hdk) as (pk & Hkk).
      destruct (lived_known _ _ _ _ _ _ H1 Hkk) as (d' & [H _ _ _] & _). by eexists.
    + intros us s2 H2. wp_step. eapply lived_ext; [|by apply (lived_trans _ _ _ _ _ Hs H1 H2)]. intros k pk w _. unfold after, only, those.
      destruct (decide (k = i)) as [->|Hne].
      * rewrite decide_True by (apply elem_of_cons; by left). destruct (beat pk t w) as [w' ns]. rewrite decide_False by done. by rewrite app_nil_r.
      * destruct (decide (k ∈ i :: omap id l)) as [[->|Hin]%elem_of_cons|Hin]; [done| |].
        { rewrite decide_True by done. by destruct (beat pk t w). }
        { rewrite decide_False; [done|]. intros ?. apply Hin. apply elem_of_cons; by right. }
  - wp_step. unfold heartbeat_dev at 1. wp_step. wp_step. eapply wp_mono; [by apply IH|]. intros us s2 H2. by wp_step.
Qed.

Lemma lived_at_time f t s s' : lived f (at_time t s) s' -> lived f s s'.
Proof.
  intros [Hz Hu (o & Ht & Ha & Hn)]. split; [done|done|]. exists o. split_and!; [done|done|].
  intros i d p Hk. apply Hn. by apply (known_after s).
Qed.
Lemma house_at_time t s : house_ok s -> house_ok (at_time t s).
Proof. intros Hs i d Hd. destruct (Hs i d Hd) as (p & Hk). exists p. by apply (known_after s). Qed.

Lemma happen_run e s : (forall m, omap id (buckets m) ≡ₚ (map_to_list m).*1) -> house_ok s ->
  wp (happen e) s (fun _ s' => lived (fun i p => seen p i e) s s').
Proof.
  intros Hb Hs. destruct e as [i v t|t]; unfold happen.
  - wp_step. wp_step. destruct (hyMap s !! i) as [d|] eqn:Hd.
    + destruct (Hs i d Hd) as (p & Hk). wp_step. eapply wp_mono; [apply (heard_run i v d p); by apply (known_after s)|]. intros r s' H. wp_step.
      apply lived_at_time in H. eapply lived_ext; [|exact H]. intros k pk w _. unfold only, seen. cbn [now at_time].
      destruct (decide (k = i)), (decide (i = k)); congruence || done.
    + unfold z3_dev_online_fresh_cb, hylinkOnlineFresh, hylinkListGet. wp_step. wp_step. wp_step. wp_step. cbn [hyMap at_time]. rewrite Hd. wp_step. wp_step. wp_step.
      apply (lived_at_time _ t). eapply lived_ext; [|apply lived_refl]. intros k pk w [dk Hdk]. cbn in Hdk. unfold nothing, seen. rewrite decide_False by congruence. done.
  - wp_step. wp_step. unfold heartbeat. wp_step. wp_step. wp_step. wp_step. wp_step. cbn [now hyMap at_time]. wp_step. eapply wp_mono; [apply beats_run|].
    + rewrite Hb. apply NoDup_fst_map_to_list.
    + by apply house_at_time.
    + apply Forall_forall. intros k Hk. rewrite Hb in Hk. apply list_elem_of_fmap in Hk as ([k' d] & -> & Hk). apply elem_of_map_to_list in Hk. by eexists.
    + intros us s' H. wp_step. wp_step. apply lived_at_time in H. eapply lived_ext; [|exact H]. intros k pk w [d Hd]. unfold those, seen.
      rewrite decide_True; [done|]. rewrite Hb. apply list_elem_of_fmap. exists (k, d). split; [done|]. by apply elem_of_map_to_list.
Qed.

Lemma events_run es s : (forall m, omap id (buckets m) ≡ₚ (map_to_list m).*1) -> house_ok s ->
  wp (for_each happen es) s (fun _ s' => lived (fun i p => life p i es) s s').
Proof.
  intros Hb. revert s. induction es as [|e es IH]; intros s Hs; cbn [for_each]; wp_step; [apply lived_refl|].
  eapply wp_mono; [by apply happen_run|]. intros u s1 H1. wp_step. eapply wp_mono; [apply IH; exact (lived_house _ _ _ H1 Hs)|]. intros us s2 H2. wp_step.
  exact (lived_trans _ _ _ _ _ Hs H1 H2).
Qed.

(** C16: what hylink is told of every device of the house, in any course of being
    heard of and of heartbeats, is what the device's own life says, and so is its
    state: devices make no difference to each other, and the program does not stop. *)
Theorem devices_live_apart es s : (forall m, omap id (buckets m) ≡ₚ (map_to_list m).*1) -> house_ok s ->
  wp (for_each happen es) s (fun _ s' => house_ok s' /\ exists outs, told s' = told s ++ (lines s <$> outs) /\
    forall i d p, known s i d p -> exists d', known s' i d' p /\ (watch_of d', about i outs) = life p i es (watch_of d)).
Proof.
  intros Hb Hs. eapply wp_mono; [by apply events_run|]. intros us s' H. split; [exact (lived_house _ _ _ H Hs)|].
  pose proof H as [Hz Hu (outs & Ht & _ & Hn)]. exists outs. split; [done|].
  intros i d p Hk. destruct (Hn i d p Hk) as (d' & H1 & H2 & H3 & H4). exists d'. split; [|done]. by eapply known_named.
Qed.

(** Off line only after on line. *)
Fixpoint alternates (on : bool) (ns : list notice) : bool :=
  match ns with
  | [] => true
  | Online :: ns => alternates true ns
  | Offline :: ns => on && alternates false ns
  | VersionIs _ :: ns => alternates on ns
  end.
(** ** Everything that happens to devices, but that they leave *)

(** A device joins; hylink lists a device, of a kind that may not be known, or
    asks a device, by a key or for everything it has; a device is heard of;
    the heartbeat. *)
Inductive turn : Type :=
| Joins (id manuName : string) (version t : Z)
| Listed (id model : string)
| Asked (id : string) (key : option string)
| Says (id : string) (version t : Z)
| Beats (t : Z).
Definition turn_ok (e : turn) : Prop :=
  match e with
  | Joins id name _ _ => small id /\ small name
  | Listed id model => small id /\ small model
  | _ => True
  end.
Definition take_turn (e : turn) : T unit :=
  match e with
  | Joins id name v t => modify (at_time t) ;; _ ← z3_dev_join_cb stale python id name v; mret tt
  | Listed id model => _ ← recv_item stale python channel 4 (string_object [("DeviceId", id); ("ModelId", model)]%string); mret tt
  | Asked id None => _ ← recv_item stale python channel 5 (string_object [("DeviceId", id)]%string); mret tt
  | Asked id (Some key) => _ ← recv_item stale python channel 7 (string_object [("DeviceId", id); ("Key", key)]%string); mret tt
  | Says id v t => modify (at_time t) ;; _ ← z3_dev_online_fresh_cb id v; mret tt
  | Beats t => modify (at_time t) ;; _ ← heartbeat stale python buckets; mret tt
  end.

(** What is told: by a device under a model, that it is there, or a notice. *)
Record saying : Type := Saying { sy_id : string; sy_model : string; sy_what : option notice }.
Definition say (y : saying) : string :=
  match sy_what y with
  | None => frame (report_text "Register" [("DeviceId", sy_id y); ("ModelId", sy_model y)]%string)
  | Some n => line (sy_id y) (sy_model y) n
  end.
Definition notices (id : string) (outs : list saying) : list notice := omap (fun y => if decide (sy_id y = id) then sy_what y else None) outs.

(** Names are as long as they may be. *)
Record names_ok s : Prop := NamesOk {
  no_devices : forall id d, hyMap s !! id = Some d -> DeviceId d = id /\ small id /\ small (ModelId d);
  no_profiles : forall m p, zigbeeMap s !! m = Some p -> small (report_modelId p)
}.
(** A device that hylink takes for off line does not count as heard of, unless
    hylink cannot be told of it. *)
Definition on_ok s (id : string) (on : bool) : Prop :=
  forall d, hyMap s !! id = Some d -> is_Some (zigbeeMap s !! ModelId d) -> activeTime d = 0 \/ on = true.

(** A step in which every device alternates. *)
Definition alternating s s' : Prop :=
  names_ok s' /\ exists outs, told s' = told s ++ (say <$> outs) /\
    forall id on, on_ok s id on -> exists on', on_ok s' id on' /\ forall ms, alternates on (notices id outs ++ ms) = alternates on' ms.

Lemma names_known s id d p : names_ok s -> hyMap s !! id = Some d -> zigbeeMap s !! ModelId d = Some p -> known s id d p.
Proof. intros [H1 H2] Hd Hp. destruct (H1 id d Hd) as (Hi & Hs & Hm). constructor; [done..|]. split_and!; [by rewrite Hi|done|by eapply H2]. Qed.
Lemma notices_app id o1 o2 : notices id (o1 ++ o2) = notices id o1 ++ notices id o2.
Proof. apply omap_app. Qed.
Lemma alternating_trans s s1 s2 : alternating s s1 -> alternating s1 s2 -> alternating s s2.
Proof.
  intros (_ & o1 & T1 & A1) (N2 & o2 & T2 & A2). split; [done|]. exists (o1 ++ o2). split.
  - by rewrite T2, T1, fmap_app, app_assoc.
  - intros id on Hon. destruct (A1 id on Hon) as (on1 & Hon1 & E1). destruct (A2 id on1 Hon1) as (on2 & Hon2 & E2).
    exists on2. split; [done|]. intros ms. by rewrite notices_app, <- app_assoc, E1, E2.
Qed.

(** Only the device [id] changes, and only it is spoken of. *)
Lemma alternating_one id s s' outs : names_ok s' -> zigbeeMap s' = zigbeeMap s -> (forall k, k <> id -> hyMap s' !! k = hyMap s !! k) ->
  told s' = told s ++ (say <$> outs) -> Forall (fun y => sy_id y = id) outs ->
  (forall on, on_ok s id on -> exists on', on_ok s' id on' /\ forall ms, alternates on (omap sy_what outs ++ ms) = alternates on' ms) ->
  alternating s s'.
Proof.
  intros HN Hz Hh Ht Ho HA. split; [done|]. exists outs. split; [done|]. intros k on Hon.
  assert (Hout : notices k outs = if decide (k = id) then omap sy_what outs else []).
  { unfold notices. clear Ht HA. induction Ho as [|y outs Hy _ IH]; [by case_decide|]. cbn. rewrite Hy.
    destruct (decide (id = k)), (decide (k = id)); try congruence; rewrite IH; done. }
  rewrite Hout. case_decide as Hk; [subst k; by apply HA|]. exists on. split; [|done].
  intros d Hd Hp. rewrite Hz in Hp. rewrite Hh in Hd by done. by apply Hon.
Qed.
Lemma alternating_quiet s s' : hyMap s' = hyMap s -> zigbeeMap s' = zigbeeMap s -> told s' = told s -> names_ok s -> alternating s s'.
Proof.
  intros Hh Hz Ht HN. apply (alternating_one "" _ _ []); [split; [rewrite Hh; apply HN|rewrite Hz; apply HN]|done|by intros; rewrite Hh|by rewrite Ht, app_nil_r|done|].
  intros on Hon. exists on. split; [|done]. unfold on_ok. by rewrite Hh, Hz.
Qed.

(** A known device that goes on, by a step after which it is heard of only if
    hylink knows. *)
Definition steady (f : watch -> watch * list notice) : Prop :=
  forall w on, w_active w = 0 \/ on = true -> exists on', (w_active (f w).1 = 0 \/ on' = true) /\ forall ms, alternates on ((f w).2 ++ ms) = alternates on' ms.
Lemma heard_steady t v : steady (heard t v).
Proof.
  intros w on Hw. unfold heard. destruct ((w_active w =? 0) || (0 <? w_asked w)) eqn:E; [exists true; by split; [right|]|].
  exists on. split; [|done]. right. destruct Hw as [Hw|]; [|done]. by rewrite Hw in E.
Qed.
Lemma beat_steady p t : steady (beat p t).
Proof.
  intros w on Hw. unfold beat. destruct (Z.eqb_spec (w_active w) 0) as [E|E]; [exists on; split; [by left|done]|]. destruct Hw as [|Hw]; [done|]. subst on.
  destruct (_ <? t); [exists false; by split; [left|]|]. destruct (_ && _); exists true; by split; [right|].
Qed.
Lemma names_insert s s' id d' : names_ok s -> hyMap s' = <[id := d']> (hyMap s) -> zigbeeMap s' = zigbeeMap s ->
  DeviceId d' = id -> small id -> small (ModelId d') -> names_ok s'.
Proof.
  intros [H1 H2] Hh Hz Hi Hs Hm. split; [|by rewrite Hz]. intros k d. rewrite Hh. intros [[<- <-]|[_ Hd]]%lookup_insert_Some; [done|by apply H1].
Qed.
Lemma moved_alternating id f d p s s' : names_ok s -> known s id d p -> steady f -> moved id f d p s s' -> alternating s s'.
Proof.
  intros HN Hk Hst (d' & ns & Hh & Hz & Hi & Hm & Ht & Hf). pose proof Hk as [Hd Hid Hp (Hs1 & Hs2 & Hs3)].
  apply (alternating_one id s s' ((fun n => Saying id (model_of d p) (Some n)) <$> ns)).
  - apply (names_insert s s' id d'); [done|done|done|done|by rewrite <- Hid|by rewrite Hm].
  - done.
  - intros k Hne. by rewrite Hh, lookup_insert_ne.
  - by rewrite Ht, <- list_fmap_compose.
  - apply Forall_fmap. by apply Forall_true.
  - intros on Hon. assert (omap sy_what ((fun n => Saying id (model_of d p) (Some n)) <$> ns) = ns) as ->.
    { clear. induction ns as [|n ns IH]; [done|]. cbn. by f_equal. }
    assert (Hw : w_active (watch_of d) = 0 \/ on = true) by (apply (Hon d Hd); by exists p).
    destruct (Hst (watch_of d) on Hw) as (on' & Hon' & HA). rewrite Hf in Hon', HA. cbn [fst snd watch_of w_active] in *. exists on'. split; [|done].
    intros d2 Hd2 _. rewrite Hh, lookup_insert_eq in Hd2. injection Hd2 as <-. done.
Qed.

(** A device of a kind that is not known is not spoken of. *)
Lemma unknown_kind_heard id v d s : hyMap s !! id = Some d -> DeviceId d = id -> zigbeeMap s !! ModelId d = None ->
  wp (z3_dev_online_fresh_cb id v) s (fun _ s' => exists d', hyMap s' = <[id := d']> (hyMap s) /\ zigbeeMap s' = zigbeeMap s /\
    DeviceId d' = id /\ ModelId d' = ModelId d /\ told s' = told s).
Proof.
  intros Hd Hi Hp. unfold z3_dev_online_fresh_cb, hylinkOnlineFresh, hylinkListGet. wp_step. wp_step. wp_step. rewrite Hd.
  pose proof (version_small v) as Hv. wp_step. apply wp_strcpy; [done|]. wp_step. apply (upd_dev_run _ _ d); [done|].
  set (d1 := with_Version (version_text v) d). set (s1 := set_hy _ s). assert (hyMap s1 !! id = Some d1) as Hd1 by apply lookup_insert_eq. wp_step.
  assert (Hmute : forall type key value s2 d2 (Q : Z -> zigbee -> Prop), hyMap s2 !! id = Some d2 -> ModelId d2 = ModelId d -> zigbeeMap s2 = zigbeeMap s ->
    Q (-1) s2 -> wp (hylinkSendSingleFunc (DeviceId d) type key value) s2 Q).
  { intros type key value s2 d2 Q H2 Hm2 Hz2 HQ. unfold hylinkSendSingleFunc, hylinkListGet, zigbeeListGet. rewrite Hi. wp_step. wp_step. rewrite H2.
    wp_step. wp_step. rewrite Hz2, Hm2, Hp. by wp_step. }
  destruct ((activeTime d =? 0) || (0 <? version d)).
  - wp_step. apply (upd_dev_run _ _ d1); [done|]. set (d2 := with_version 0 d1). set (s2 := set_hy _ s1).
    assert (hyMap s2 !! id = Some d2) as Hd2 by apply lookup_insert_eq.
    wp_step. eapply Hmute; [exact Hd2|done|done|]. wp_step. eapply Hmute; [exact Hd2|done|done|]. wp_step. wp_step. wp_step. wp_step.
    apply (upd_dev_run _ _ d2); [done|]. wp_step. wp_step. exists (with_activeTime (now s) d2). split_and!; try done.
    cbn. by rewrite !insert_insert_eq.
  - wp_step. wp_step. wp_step. wp_step. apply (upd_dev_run _ _ d1); [done|]. wp_step. wp_step.
    exists (with_activeTime (now s) d1). split_and!; try done. cbn. by rewrite insert_insert_eq.
Qed.

(** A device that is put in the list anew is off line. *)
Lemma fresh_alternating s s' id d' outs : names_ok s -> hyMap s' = <[id := d']> (hyMap s) -> zigbeeMap s' = zigbeeMap s ->
  DeviceId d' = id -> small id -> small (ModelId d') -> activeTime d' = 0 ->
  told s' = told s ++ (say <$> outs) -> Forall (fun y => sy_id y = id) outs -> Forall (fun y => forall n, sy_what y = Some n -> exists v, n = VersionIs v) outs ->
  alternating s s'.
Proof.
  intros HN Hh Hz Hi Hs Hm Ha Ht Ho Hv. apply (alternating_one id s s' outs); [by eapply names_insert|done| |done|done|].
  - intros k Hne. by rewrite Hh, lookup_insert_ne.
  - intros on _. exists on. split.
    + intros d2 Hd2 _. rewrite Hh, lookup_insert_eq in Hd2. injection Hd2 as <-. by left.
    + intros ms. clear Ht Ho. induction Hv as [|[i m [n|]] outs Hy _ IH]; [done| |done]. destruct (Hy n eq_refl) as [v ->]. exact IH.
Qed.

(** ** Each turn *)

Lemma ask_alternates id key s : names_ok s -> wp (zigbeeZclDispatch stale python id key None) s (fun _ s' => alternating s s').
Proof.
  intros HN. destruct (hyMap s !! id) as [d|] eqn:Hd.
  - destruct (zigbeeMap s !! ModelId d) as [p|] eqn:Hp.
    + pose proof (names_known _ _ _ _ HN Hd Hp) as Hk. eapply wp_mono; [by eapply question_run|]. intros r s' (H1 & H2 & _ & _ & H5).
      unfold asked in *. case_bool_decide; [|by apply alternating_quiet]. cbn [hyMap zigbeeMap set_hy] in *.
      eapply (moved_alternating id (fun w => (Watch (w_active w) 1, [])) d p); [done|done|intros w on Hw; by exists on|].
      exists (with_version 1 d), []. split_and!; [rewrite H1; by apply alter_alt_Some|done|apply Hk|done|by rewrite app_nil_r|done].
    + unfold zigbeeZclDispatch, hylinkListGet, zigbeeListGet. wp_step. wp_step. rewrite Hd. wp_step. wp_step. rewrite Hp. wp_step. by apply alternating_quiet.
  - unfold zigbeeZclDispatch, hylinkListGet. wp_step. wp_step. rewrite Hd. wp_step. by apply alternating_quiet.
Qed.

Lemma says_alternates id v s : names_ok s -> wp (z3_dev_online_fresh_cb id v) s (fun _ s' => alternating s s').
Proof.
  intros HN. destruct (hyMap s !! id) as [d|] eqn:Hd.
  - destruct (zigbeeMap s !! ModelId d) as [p|] eqn:Hp.
    + pose proof (names_known _ _ _ _ HN Hd Hp) as Hk. eapply wp_mono; [by apply (heard_moves id v d p)|]. intros r s' H.
      eapply moved_alternating; [done|done|apply heard_steady|exact H].
    + destruct (no_devices _ HN id d Hd) as (Hid & Hs1 & Hs2).
      eapply wp_mono; [by apply (unknown_kind_heard id v d)|]. intros r s' (d' & Hh & Hz & Hi & Hm & Ht).
      apply (alternating_one id s s' []); [eapply names_insert; [done|done|done|congruence|done|by rewrite Hm]|done|intros k Hne; by rewrite Hh, lookup_insert_ne|by rewrite Ht, app_nil_r|done|].
      intros on _. exists on. split; [|done]. intros d2 Hd2 [p2 Hp2]. rewrite Hh, lookup_insert_eq in Hd2. injection Hd2 as <-. rewrite Hm, Hz, Hp in Hp2. done.
  - unfold z3_dev_online_fresh_cb, hylinkOnlineFresh, hylinkListGet. wp_step. wp_step. wp_step. rewrite Hd. wp_step. wp_step. by apply alternating_quiet.
Qed.
Lemma beat_alternates t id s : names_ok s -> wp (heartbeat_dev stale python t id) s (fun _ s' => alternating s s').
Proof.
  intros HN. destruct id as [id|]; [|unfold heartbeat_dev; wp_step; by apply alternating_quiet].
  destruct (hyMap s !! id) as [d|] eqn:Hd.
  - destruct (zigbeeMap s !! ModelId d) as [p|] eqn:Hp.
    + pose proof (names_known _ _ _ _ HN Hd Hp) as Hk. eapply wp_mono; [by apply (beat_moves id t d p)|]. intros r s' H.
      eapply moved_alternating; [done|done|apply beat_steady|exact H].
    + unfold heartbeat_dev, hylinkListGet, zigbeeListGet. wp_step. wp_step. rewrite Hd. destruct (activeTime d =? 0); [wp_step; by apply alternating_quiet|].
      wp_step. wp_step. rewrite Hp. wp_step. by apply alternating_quiet.
  - unfold heartbeat_dev, hylinkListGet. wp_step. wp_step. rewrite Hd. wp_step. by apply alternating_quiet.
Qed.
Lemma all_alternate {A} (f : A -> T unit) l : (forall a s, names_ok s -> wp (f a) s (fun _ s' => alternating s s')) ->
  forall s, names_ok s -> wp (for_each f l) s (fun _ s' => alternating s s').
Proof.
  intros Hf. induction l as [|a l IH]; intros s HN; cbn [for_each]; wp_step; [by apply alternating_quiet|].
  eapply wp_mono; [by apply Hf|]. intros u s1 H1. wp_step. eapply wp_mono; [apply IH; apply H1|]. intros us s2 H2. wp_step. exact (alternating_trans _ _ _ H1 H2).
Qed.
Lemma joins_alternates id name v s : names_ok s -> small id -> small name -> wp (z3_dev_join_cb stale python id name v) s (fun _ s' => alternating s s').
Proof.
  intros HN Hi Hm. unfold z3_dev_join_cb. wp_step. destruct (zigbeeMap s !! name) as [p|] eqn:Hp.
  - eapply wp_mono; [apply (joining_device_is_registered stale python s id (version_text v) name p Hp Hi Hm (version_small v)); by eapply no_profiles|].
    intros r s' (_ & Hk & Hh & Hz & Ht). wp_step. set (d := Dev id name (version_text v) 0 0) in *.
    apply (fresh_alternating s s' id d [Saying id (model_of d p) None; Saying id (model_of d p) (Some (VersionIs (version_text v)))]); try done.
    + by repeat constructor.
    + constructor; [by intros n|]. constructor; [|done]. intros n [= <-]. by eexists.
  - unfold hylinkDevJoin, zigbeeListGet, zigbeeCmdDelDev. wp_step. wp_step. rewrite Hp. wp_step. apply wp_send. intros _. wp_step. wp_step.
    apply alternating_quiet; [done|done|by apply told_other|done].
Qed.
Lemma wp_text_ptr t s (Q : option string -> zigbee -> Prop) : Q (Some t) s -> wp (text_ptr (Some (JString t))) s Q.
Proof. done. Qed.
Lemma listed_alternates id model s : names_ok s -> small id -> small model ->
  wp (recv_item stale python channel 4 (string_object [("DeviceId", id); ("ModelId", model)]%string)) s (fun _ s' => alternating s s').
Proof.
  intros HN Hi Hm. unfold recv_item. change (4 =? 0) with false. change (4 =? 1) with false. change (4 =? 4) with true. cbv iota zeta beta.
  change (cJSON_GetObjectItem (string_object [("DeviceId", id); ("ModelId", model)]%string) "ModelId") with (Some (JString model)).
  change (cJSON_GetObjectItem (string_object [("DeviceId", id); ("ModelId", model)]%string) "DeviceId") with (Some (JString id)).
  wp_step. wp_step. apply wp_text_of. wp_step. apply wp_strcpy; [done|]. wp_step. apply wp_text_of. wp_step. apply wp_strcpy; [done|].
  wp_step. unfold hylinkListAdd. wp_step. set (d := Dev id model "" 0 0). set (s1 := set_hy _ s).
  assert (A1 : alternating s s1) by (by apply (fresh_alternating s s1 id d []); rewrite ?app_nil_r).
  wp_step. eapply wp_mono; [apply ask_alternates; apply A1|]. intros r s2 A2. wp_step. exact (alternating_trans _ _ _ A1 A2).
Qed.

Lemma at_time_alternating t s : names_ok s -> alternating s (at_time t s).
Proof. by apply alternating_quiet. Qed.
Lemma turn_alternates e s : turn_ok e -> names_ok s -> wp (take_turn e) s (fun _ s' => alternating s s').
Proof.
  intros He HN. assert (HT : forall t, names_ok (at_time t s)) by (intros t; apply at_time_alternating; done).
  assert (HA : forall {A} t (p : T A), (forall s, names_ok s -> wp p s (fun _ s' => alternating s s')) ->
    wp (modify (at_time t) ;; _ ← p; mret tt) s (fun _ s' => alternating s s')).
  { intros A t p Hp. wp_step. wp_step. wp_step. eapply wp_mono; [by apply Hp|]. intros a s' H. wp_step.
    exact (alternating_trans _ _ _ (at_time_alternating t s HN) H). }
  destruct e as [id name v t|id model|id [key|]|id v t|t]; cbn [turn_ok take_turn] in *.
  - apply HA. intros s0 HN0. destruct He. by apply joins_alternates.
  - destruct He. wp_step. eapply wp_mono; [by apply listed_alternates|]. intros b s' HA1. by wp_step.
  - wp_step. unfold recv_item. change (7 =? 0) with false. change (7 =? 1) with false. change (7 =? 4) with false. change (7 =? 5) with false.
    change (7 =? 6) with false. change (7 =? 7) with true. cbv iota zeta beta.
    change (cJSON_GetObjectItem (string_object [("DeviceId", id); ("Key", key)]%string) "Key") with (Some (JString key)).
    change (cJSON_GetObjectItem (string_object [("DeviceId", id); ("Key", key)]%string) "DeviceId") with (Some (JString id)).
    wp_step. wp_step. apply wp_text_of. wp_step. apply wp_text_ptr. wp_step. eapply wp_mono; [by apply ask_alternates|]. intros r s' H. wp_step. by wp_step.
  - wp_step. unfold recv_item. change (5 =? 0) with false. change (5 =? 1) with false. change (5 =? 4) with false. change (5 =? 5) with true. cbv iota zeta beta.
    change (cJSON_GetObjectItem (string_object [("DeviceId", id)]%string) "DeviceId") with (Some (JString id)).
    wp_step. wp_step. apply wp_text_of. wp_step. eapply wp_mono; [by apply ask_alternates|]. intros r s' H. wp_step. by wp_step.
  - apply HA. intros s0 HN0. by apply says_alternates.
  - apply HA. intros s0 HN0. unfold heartbeat. wp_step. wp_step. wp_step. wp_step. wp_step.
    eapply wp_mono; [apply (all_alternate _ _ (beat_alternates (now s0))); done|]. intros us s' H. by wp_step.
Qed.

(** C20: in whatever course of devices joining, of known kinds or not, being
    listed by hylink, being heard of, of heartbeats, and of questions from
    hylink - to devices the program has or not - the program goes on, and in
    what hylink is told of a device, the device is off line at most once after
    each time it is on line, and at first only if it had been heard of before.
    (A device that leaves stops the program; a value that is sent to a device
    changes nothing here.) *)
Theorem offline_is_told_once es s : names_ok s -> Forall turn_ok es ->
  wp (for_each take_turn es) s (fun _ s' => names_ok s' /\ exists outs, told s' = told s ++ (say <$> outs) /\
    forall id, alternates (match hyMap s !! id with Some d => negb (activeTime d =? 0) | None => false end) (notices id outs) = true).
Proof.
  intros HN Hes. assert (HW : wp (for_each take_turn es) s (fun _ s' => alternating s s')).
  { revert s HN. induction Hes as [|e es He _ IH]; intros s HN; cbn [for_each]; wp_step; [by apply alternating_quiet|].
    eapply wp_mono; [by apply turn_alternates|]. intros u s1 H1. wp_step. eapply wp_mono; [apply IH; apply H1|]. intros us s2 H2. wp_step. exact (alternating_trans _ _ _ H1 H2). }
  eapply wp_mono; [exact HW|]. intros us s' (HN' & outs & Ht & HA). split; [done|]. exists outs. split; [done|]. intros id.
  set (on := match hyMap s !! id with Some d => _ | None => _ end).
  assert (Hon : on_ok s id on).
  { intros d Hd _. unfold on. rewrite Hd. destruct (Z.eqb_spec (activeTime d) 0); [by left|by right]. }
  destruct (HA id on Hon) as (on' & _ & E). specialize (E []). by rewrite app_nil_r in E.
Qed.

Lemma off_stays_off p i es : forall w, w_active w = 0 -> Forall (fun e => forall v t, e <> Heard i v t) es -> life p i es w = (w, []).
Proof.
  induction es as [|e es IH]; intros w Hw Hes; [done|]. apply Forall_cons in Hes as [He Hes]. cbn [life].
  assert (seen p i e w = (w, [])) as ->.
  { destruct e as [k v t|t]; cbn [seen]; [case_decide; [subst; by destruct (He v t)|done]|]. unfold beat. by rewrite Hw. }
  by rewrite IH.
Qed.
Lemma silence p i es t : forall w, w_active w <> 0 -> Forall (fun e => forall v t, e <> Heard i v t) es -> Beat t ∈ es ->
  w_active w + heartbeatTime p < t -> w_active (life p i es w).1 = 0 /\ (life p i es w).2 = [Offline].
Proof.
  induction es as [|e es IH]; intros w Hw Hes Ht Hl; [by apply elem_of_nil in Ht|]. apply Forall_cons in Hes as [He Hes]. cbn [life].
  assert (HS : (exists k, seen p i e w = (Watch 0 k, [Offline])) \/ (e <> Beat t /\ exists k, seen p i e w = (Watch (w_active w) k, []))).
  { destruct w as [a k]. cbn [w_active] in *. destruct e as [k' v t'|t']; cbn [seen]; [right; split; [done|]; exists k; case_decide; [subst; by destruct (He v t')|done]|].
    unfold beat. cbn [w_active w_asked]. destruct (Z.eqb_spec a 0); [done|]. destruct (Z.ltb_spec (a + heartbeatTime p) t'); [left; by exists k|].
    right. split; [intros [= ->]; lia|]. destruct (_ && _); by eexists. }
  destruct HS as [[k ->]|[Hne [k ->]]]; [by rewrite off_stays_off|].
  apply elem_of_cons in Ht as [Ht|Ht]; [by destruct Hne|]. specialize (IH (Watch (w_active w) k) Hw Hes Ht Hl). by destruct (life p i es _).
Qed.
(** C21: a device that has been heard of and is not heard of again is told to be off
    line, once, and nothing else is told of it, as soon as a heartbeat comes after
    its time, whatever comes before and after. *)
Theorem silent_device_is_off_line es t s i d p : (forall m, omap id (buckets m) ≡ₚ (map_to_list m).*1) -> house_ok s ->
  known s i d p -> activeTime d <> 0 -> Forall (fun e => forall v t, e <> Heard i v t) es -> Beat t ∈ es -> activeTime d + heartbeatTime p < t ->
  wp (for_each happen es) s (fun _ s' => exists outs d', told s' = told s ++ (lines s <$> outs) /\ about i outs = [Offline] /\
    known s' i d' p /\ activeTime d' = 0).
Proof.
  intros Hb Hs Hk Ha Hes Ht Hl. eapply wp_mono; [by apply events_run|]. intros us s' [Hz Hu (outs & Ho & _ & Hn)].
  destruct (Hn i d p Hk) as (d' & H1 & H2 & H3 & H4). destruct (silence p i es t (watch_of d)) as [HW HO]; [done..|]. rewrite <- H4 in HW, HO.
  exists outs, d'. split_and!; [done|done|by eapply known_named|done].
Qed.
End online.

(** * Witnesses *)

(** A table whose first place is empty. *)
Definition table_of (m : gmap string HylinkDev) : list (option string) := None :: (Some <$> (map_to_list m).*1).
Lemma table_of_all m : omap id (table_of m) ≡ₚ (map_to_list m).*1.
Proof. unfold table_of. cbn [omap list_omap id]. induction ((map_to_list m).*1) as [|k l IH]; [done|]. cbn. by constructor. Qed.
Definition lamp2 : HylinkDev := Dev "00158d0002" "lamp" "" 0 700.
Definition two_lamps : zigbee := Zigbee.Zigbee (<["00158d0002"%string := lamp2]> (hyMap one_lamp)) (zigbeeMap one_lamp) 1000 true true [] [].
Lemma lamp_known : known two_lamps "00158d0001" lamp lamp_profile.
Proof. constructor; [reflexivity..|]. repeat split; by apply Nat.leb_le. Qed.
Lemma lamp2_known : known two_lamps "00158d0002" lamp2 lamp_profile.
Proof. constructor; [reflexivity..|]. repeat split; by apply Nat.leb_le. Qed.
Lemma two_lamps_ok : house_ok two_lamps.
Proof.
  intros i d. change (hyMap two_lamps) with (<["00158d0002"%string := lamp2]> {["00158d0001"%string := lamp]} : gmap string HylinkDev). intros [[<- <-]|[_ [<- <-]%lookup_singleton_Some]]%lookup_insert_Some.
  - eexists. apply lamp2_known.
  - eexists. apply lamp_known.
Qed.
(** The first lamp is heard of, the second is not. *)
Definition an_hour : list event := [Heard "00158d0001" 0x42 1000; Beat 1200; Beat 1700; Heard "00158d0001" 0x42 1710; Beat 2000].
Lemma devices_live_apart_witness : wp (for_each (happen 0 no_python table_of) an_hour) two_lamps (fun _ s' => house_ok s' /\ exists outs, told s' = told two_lamps ++ (lines two_lamps <$> outs) /\
    forall i d p, known two_lamps i d p -> exists d', known s' i d' p /\ (watch_of d', about i outs) = life p i an_hour (watch_of d)).
Proof. apply devices_live_apart; [exact table_of_all|exact two_lamps_ok]. Defined.
(** A lamp joins under the id of the second one, a device of an unknown kind is
    listed, and both are heard of and asked. *)
Definition a_day : list turn :=
  [Says "00158d0001" 0x42 1000; Joins "00158d0002" "lamp" 0x41 1010; Listed "00158d0003" "fridge"; Says "00158d0003" 0x40 1020;
   Asked "00158d0002" None; Says "00158d0002" 0x41 1030; Asked "00158d0001" (Some STR_VERSION); Beats 1700; Says "00158d0001" 0x42 1710; Beats 2500].
Lemma offline_is_told_once_witness : wp (for_each (take_turn 0 no_python table_of None) a_day) two_lamps (fun _ s' => names_ok s' /\
    exists outs, told s' = told two_lamps ++ (say <$> outs) /\
    forall id, alternates (match hyMap two_lamps !! id with Some d => negb (activeTime d =? 0) | None => false end) (notices id outs) = true).
Proof.
  apply offline_is_told_once.
  - split.
    + intros id d Hd. destruct (two_lamps_ok id d Hd) as (p & [_ Hi _ (H1 & H2 & _)]). split_and!; [done|by rewrite <- Hi|done].
    + intros m p. change (zigbeeMap two_lamps) with ({["lamp"%string := lamp_profile]} : gmap string zigbeeDev). intros [_ <-]%lookup_singleton_Some. by apply Nat.leb_le.
  - repeat constructor; by apply Nat.leb_le.
Defined.
Lemma silent_device_is_off_line_witness : wp (for_each (happen 0 no_python table_of) an_hour) two_lamps (fun _ s' => exists outs d', told s' = told two_lamps ++ (lines two_lamps <$> outs) /\
    about "00158d0002" outs = [Offline] /\ known s' "00158d0002" d' lamp_profile /\ activeTime d' = 0).
Proof.
  apply (silent_device_is_off_line _ _ _ an_hour 1700 _ _ lamp2); [exact table_of_all|exact two_lamps_ok|exact lamp2_known|done| |apply elem_of_cons; right; apply elem_of_cons; right; apply elem_of_cons; by left|reflexivity].
  repeat (apply Forall_cons; split; [done|]). apply Forall_nil_2.
Defined.
