(* ===== verification/ZigbeeCommand.v ===== *)
(** The way of a command: from the frame that the hylink program sends to the frame
    that the device gets, and from the device's report back to hylink. *)
From stdpp Require Import gmap strings pretty.
From Stdlib Require Import Ascii.
From S2P Require Import Prelude CString Json JsonText JsonProps CommonFunc HyLinkProps.
From S2P Require Import HyBase64 Zcl Zigbee ZigbeeLink ZclProps ZigbeeProps.
From S2P Require Base64 Heap SceneData HyLink.

Section command.
Context (stale : Z) (python : string -> string -> string -> Z -> option (string * Z)) (buckets : gmap string HylinkDev -> list (option string)) (channel : option string).
Implicit Types s : zigbee.
Abbreviation recv_bytes := (ZigbeeLink.recv_bytes stale python buckets channel).
Abbreviation recv_root := (ZigbeeLink.recv_root stale python buckets channel).
Abbreviation hylinkRecvManage := (ZigbeeLink.hylinkRecvManage stale python buckets channel).

(** * Frames of the hylink program *)

(** Messages one after another, until one ends the program. *)
Fixpoint while_running (js : list json) : T unit :=
  match js with
  | [] => mret tt
  | j :: js => s ← getS; if negb (running s) then mret tt else recv_root j ;; while_running js
  end.
Lemma zigbee_skip_text t : forall rest s, all_chars not_stx t = true -> recv_bytes (t +:+ rest) s = recv_bytes rest s.
Proof.
  induction t as [|c t IH]; intros rest s Ht; [done|]. cbn [all_chars] in Ht. apply andb_true_iff in Ht as [Hc Ht].
  rewrite app_cons. cbn [ZigbeeLink.recv_bytes]. unfold not_stx in Hc. apply negb_true_iff in Hc. rewrite Hc.
  unfold mbind, M_bind, getS, mret, M_ret. destruct (negb (running s)) eqn:E; [|by apply IH].
  destruct rest as [|c' rest]; [done|]. cbn [ZigbeeLink.recv_bytes]. unfold mbind, M_bind, getS. by rewrite E.
Qed.
Definition message_ok (j : json) : Prop := printable j = true /\ (nest j <= CJSON_NESTING_LIMIT)%nat.
Lemma zigbee_frames_handled js s : Forall message_ok js -> hylinkRecvManage (frames js) s = while_running js s.
Proof.
  intros Hjs. unfold ZigbeeLink.hylinkRecvManage. revert s. induction Hjs as [|j js [Hp Hn] Hjs IH]; intros s; [done|].
  cbn [frames while_running]. unfold frame. rewrite app_cons. cbn [ZigbeeLink.recv_bytes]. rewrite Ascii.eqb_refl.
  unfold mbind at 1 3, M_bind at 1 3, getS. destruct (negb (running s)); [done|].
  unfold ZigbeeLink.hylinkRecvJson. rewrite app_assoc_s, app_cons, nil_app. rewrite c_str_no_nul.
  2:{ rewrite no_nul_app, printed_no_nul. apply frames_no_nul. }
  rewrite print_parsed_rest by done. unfold mbind, M_bind. destruct (recv_root j s) as [[r s']|e]; [|done].
  rewrite zigbee_skip_text by apply text_not_stx, print_no_control. cbn [ZigbeeLink.recv_bytes]. unfold mbind, M_bind, getS.
  destruct (negb (running s')) eqn:E; [|apply IH]. destruct js; [done|]. cbn [while_running]. unfold mbind, M_bind, getS. by rewrite E.
Qed.

(** * Commands *)

Record command : Type := Ctrl { c_dev : string; c_key : string; c_value : string }.
(** The message of an action of a scene. *)
Definition ctrl_fields (c : command) : list (string * string) := [("DeviceId", c_dev c); ("Key", c_key c); ("Value", c_value c)]%string.
Definition ctrl_json (c : command) : json := message "Dispatch" "Ctrl" [string_object (ctrl_fields c)].
Lemma ctrl_ok c : no_nul_fields (ctrl_fields c) = true -> message_ok (ctrl_json c).
Proof.
  intros Hc. destruct (message_printable "Dispatch" "Ctrl" [ctrl_fields c]) as [Hp Hn]; [done|done|cbn [forallb]; by rewrite Hc|].
  split; [done|]. etrans; [exact Hn|by apply Nat.leb_le].
Qed.
Lemma ctrl_root c s : recv_root (ctrl_json c) s = (_ ← zigbeeZclDispatch stale python (c_dev c) (Some (c_key c)) (Some (c_value c)); mret tt) s.
Proof.
  unfold ctrl_json, ZigbeeLink.recv_root.
  change (cJSON_GetObjectItem (message "Dispatch" "Ctrl" ?l) "Command") with (Some (JString "Dispatch")).
  change (cJSON_GetObjectItem (message "Dispatch" "Ctrl" ?l) "Type") with (Some (JString "Ctrl")).
  change (cJSON_GetObjectItem (message "Dispatch" "Ctrl" ?l) "Data") with (Some (JArray l)). cbn [valuestring children].
  change (findStrIndex "Ctrl" hylink_recv_type) with 6. unfold mbind at 1, M_bind at 1.
  change (text_of (Some (JString "Dispatch")) s) with (Val ("Dispatch"%string, s)). cbv beta iota zeta. change (negb (str_eq "Dispatch" "Dispatch")) with false.
  change (6 =? -1) with false. change (6 =? 2) with false. cbv iota. cbn [recv_items]. unfold recv_item. cbv zeta.
  change (cJSON_GetObjectItem (string_object (ctrl_fields c)) "DeviceId") with (Some (JString (c_dev c))).
  change (cJSON_GetObjectItem (string_object (ctrl_fields c)) "Key") with (Some (JString (c_key c))).
  change (cJSON_GetObjectItem (string_object (ctrl_fields c)) "Value") with (Some (JString (c_value c))).
  change (6 =? 0) with false. change (6 =? 1) with false. change (6 =? 4) with false. change (6 =? 5) with false. change (6 =? 6) with true. cbv iota.
  unfold mbind, M_bind, text_of, text_ptr, get_or, mret, M_ret. unfold mbind, M_bind, mret, M_ret. cbv beta iota delta [valuestring]. by destruct (zigbeeZclDispatch _ _ _ _ _ s) as [[r s']|].
Qed.

(** ** A command does not end the program *)

Definition keeps {A} (m : T A) : Prop := forall s a s', m s = Val (a, s') -> running s' = running s.
Lemma stays_ret {A} (a : A) : keeps (mret a).
Proof. by intros s b s' [= _ <-]. Qed.
Lemma stays_bind {A B} (m : T A) (k : A -> T B) : keeps m -> (forall a, keeps (k a)) -> keeps (a ← m; k a).
Proof. intros Hm Hk s b s'. unfold mbind, M_bind. destruct (m s) as [[a s1]|] eqn:E; [|done]. intros H. rewrite (Hk _ _ _ _ H). by apply (Hm _ _ _ E). Qed.
Lemma keeps_if {A} (b : bool) (m n : T A) : keeps m -> keeps n -> keeps (if b then m else n).
Proof. by destruct b. Qed.
Lemma keeps_fail {A} e : keeps (fail e : T A).
Proof. by intros s a s'. Qed.
Lemma keeps_get_or {A} e (o : option A) : keeps (get_or e o).
Proof. destruct o; [apply stays_ret|apply keeps_fail]. Qed.
Lemma keeps_gets {A} (f : zigbee -> A) : keeps (gets f).
Proof. by intros s a s' [= _ <-]. Qed.
Lemma keeps_getS : keeps getS.
Proof. by intros s a s' [= _ <-]. Qed.
Lemma keeps_modify f : (forall s, running (f s) = running s) -> keeps (modify f).
Proof. intros Hf s a s' [= _ <-]. apply Hf. Qed.
Lemma keeps_call e : keeps (call e).
Proof. intros s a s'. unfold call, mbind, M_bind, modify, gets. cbn. by destruct (answers s) as [|? ?]; intros [= _ <-]. Qed.
Create HintDb keeps.
#[local] Hint Resolve stays_ret keeps_fail keeps_get_or keeps_gets keeps_getS keeps_modify keeps_call : keeps.
Ltac keeps := repeat first [progress intros | progress auto with keeps | apply keeps_if | apply stays_bind | case_match].
Lemma keeps_strcpy n t : keeps (strcpy n t).
Proof. unfold strcpy. keeps. Qed.
Lemma keeps_put_bytes o b m : keeps (put_bytes o b m).
Proof. unfold put_bytes. keeps. Qed.
Lemma keeps_get_bytes o n b : keeps (get_bytes o n b).
Proof. unfold get_bytes. keeps. Qed.
Lemma keeps_arr_get {A} (l : list A) i : keeps (arr_get l i).
Proof. unfold arr_get. keeps. Qed.
#[local] Hint Resolve keeps_strcpy keeps_put_bytes keeps_get_bytes keeps_arr_get : keeps.
Lemma keeps_conver m k d i n : keeps (hyLinkConver python m k d i n).
Proof. unfold hyLinkConver. keeps. Qed.
Lemma keeps_send f : keeps (tuyaZclSend f).
Proof. unfold tuyaZclSend. keeps. Qed.
Lemma keeps_type (type : Z) data : keeps (getZcl3DataType type data).
Proof. unfold getZcl3DataType. keeps. Qed.
#[local] Hint Resolve keeps_conver keeps_send keeps_type : keeps.
Lemma keeps_down m k p v n o b : keeps (conversion_down stale python m k p v n o b).
Proof. unfold conversion_down. keeps. Qed.
#[local] Hint Resolve keeps_down : keeps.
Lemma keeps_ctrl a f m k v : keeps (zigbeeZclCtrl stale python a f m k v).
Proof. unfold zigbeeZclCtrl, ctrl_message. keeps. Qed.
Lemma keeps_query a f : keeps (zigbeeZclQuery a f).
Proof. unfold zigbeeZclQuery. keeps. Qed.
#[local] Hint Resolve keeps_ctrl keeps_query : keeps.
Lemma keeps_query_all l f : keeps (query_all l f).
Proof. revert f. induction l as [|a l IH]; intros f; cbn [query_all]; keeps. Qed.
#[local] Hint Resolve keeps_query_all : keeps.
Lemma keeps_dev p f k v : keeps (zigbeeDevZclDispatch stale python p f k v).
Proof. unfold zigbeeDevZclDispatch. keeps. Qed.
#[local] Hint Resolve keeps_dev : keeps.
Lemma keeps_scene p l v r f : keeps (scene_dispatch stale python p l v r f).
Proof. revert r f. induction l as [|k l IH]; intros r f; cbn [scene_dispatch]; keeps. Qed.
#[local] Hint Resolve keeps_scene : keeps.
Lemma keeps_dispatch i k v : keeps (zigbeeZclDispatch stale python i k v).
Proof. unfold zigbeeZclDispatch, hylinkListGet, zigbeeListGet, upd_dev. keeps. Qed.

(** What the hylink program has written to the ZigBee program. *)
Fixpoint to_zigbee (tr : list HyLink.io) : string :=
  match tr with [] => "" | HyLink.ToZigbee t :: tr => t +:+ to_zigbee tr | _ :: tr => to_zigbee tr end.
(** What an action of a scene orders: a value for a device, the execution of
    another scene, or a value for a group. *)
Inductive order : Type := ToDevice (c : command) | ToScene (fs : list (string * string)) | ToGroup (fs : list (string * string)).
Definition order_type (o : order) : string := match o with ToDevice _ => "Ctrl" | ToScene _ => "LocalScene" | ToGroup _ => "Multicast" end.
Definition order_fields (o : order) : list (string * string) := match o with ToDevice c => ctrl_fields c | ToScene fs | ToGroup fs => fs end.
Definition order_json (o : order) : json := message "Dispatch" (order_type o) [string_object (order_fields o)].
Definition order_short (o : order) : Prop :=
  no_nul_fields (order_fields o) = true /\ (String.length (cJSON_PrintUnformatted (order_json o)) + 2 < 1024)%nat.
Definition dispatch_ctrl (c : command) : T Z := zigbeeZclDispatch stale python (c_dev c) (Some (c_key c)) (Some (c_value c)).
(** Scenes and groups are nothing to the ZigBee program. *)
Definition done_to (o : order) : T Z := match o with ToDevice c => dispatch_ctrl c | _ => mret 0 end.

Lemma order_ok o : no_nul_fields (order_fields o) = true -> message_ok (order_json o).
Proof.
  intros Ho. destruct (message_printable "Dispatch" (order_type o) [order_fields o]) as [Hp Hn]; [done|by destruct o|cbn [forallb]; by rewrite Ho|].
  split; [done|]. etrans; [exact Hn|by apply Nat.leb_le].
Qed.
Lemma unknown_root type fs s : findStrIndex type hylink_recv_type = -1 -> recv_root (message "Dispatch" type [string_object fs]) s = Val (tt, s).
Proof.
  intros Ht. unfold ZigbeeLink.recv_root.
  change (cJSON_GetObjectItem (message "Dispatch" type ?l) "Command") with (Some (JString "Dispatch")).
  change (cJSON_GetObjectItem (message "Dispatch" type ?l) "Type") with (Some (JString type)).
  change (cJSON_GetObjectItem (message "Dispatch" type ?l) "Data") with (Some (JArray l)). cbn [valuestring]. rewrite Ht. reflexivity.
Qed.
Lemma order_root o s : recv_root (order_json o) s = (_ ← done_to o; mret tt) s.
Proof. destruct o as [c|fs|fs]; [apply ctrl_root|by apply unknown_root..]. Qed.
Lemma keeps_order o : keeps (done_to o).
Proof. destruct o as [c|fs|fs]; [apply keeps_dispatch|apply stays_ret..]. Qed.

Lemma orders_handled os s : running s = true -> while_running (order_json <$> os) s = (for_each done_to os ;; mret tt) s.
Proof.
  revert s. induction os as [|o os IH]; intros s Hr; [done|]. cbn [fmap list_fmap while_running for_each].
  unfold mbind at 1, M_bind at 1, getS. rewrite Hr. cbn [negb]. pose proof (order_root o s) as HR. pose proof (keeps_order o s) as HK.
  unfold mbind, M_bind in HR |- *. rewrite HR. destruct (done_to o s) as [[r s']|e]; [|done].
  specialize (HK r s' eq_refl). specialize (IH s' ltac:(by rewrite HK)). unfold mbind, M_bind in IH. unfold mret, M_ret in IH |- *. cbv beta iota. etrans; [exact IH|]. by destruct (for_each _ os s') as [[rs s2]|].
Qed.
Definition order_effect (o : order) : SceneData.effect := SceneData.Command (order_type o) (order_fields o).
Lemma orders_written char_signed os (h : HyLink.fheap) : Forall order_short os -> exists rs h',
  for_each (fun o => HyLink.deliver char_signed (order_effect o)) os h = Val (rs, h') /\
  exists ts, HyLink.trace (Heap.glob h') = HyLink.trace (Heap.glob h) ++ ts /\ to_zigbee ts = frames (order_json <$> os).
Proof.
  intros Ho. revert h. induction Ho as [|o os [Hn Hl] _ IH]; intros h; cbn [for_each]; [exists [], h; split; [done|]; exists []; by rewrite app_nil_r|].
  unfold mbind, M_bind, order_effect. rewrite scene_commands_go_to_zigbee; [|by destruct o|done|exact Hl].
  match goal with |- context [for_each _ os ?h1] => destruct (IH h1) as (rs & h' & HE & ts & Ht & HF) end. unfold order_effect in HE. rewrite HE.
  exists (0 :: rs), h'. split; [done|]. eexists (_ :: ts). split; [rewrite Ht; cbn; by rewrite <- app_assoc|].
  cbn [fmap list_fmap frames]. change (list_fmap _ _ order_json os) with (order_json <$> os). rewrite <- HF. reflexivity.
Qed.
(** C18: the actions of scenes reach the devices: of any commands to devices, to
    scenes and to groups that the scene engine gives out, if they fit the buffer
    of the hylink program, the ZigBee program, which gets what the hylink program
    writes in one piece, does each command to a device to its device, in order;
    those to scenes and groups, which go there too, are of types it does not know,
    and it does nothing for them. *)
Theorem scene_actions_reach_devices char_signed os (h : HyLink.fheap) s : Forall order_short os -> running s = true ->
  exists rs h' ts, for_each (fun o => HyLink.deliver char_signed (order_effect o)) os h = Val (rs, h') /\
    HyLink.trace (Heap.glob h') = HyLink.trace (Heap.glob h) ++ ts /\
    hylinkRecvManage (to_zigbee ts) s = (for_each done_to os ;; mret tt) s.
Proof.
  intros Ho Hr. destruct (orders_written char_signed os h Ho) as (rs & h' & HD & ts & Ht & HF). exists rs, h', ts. split_and!; [done|done|].
  rewrite HF, zigbee_frames_handled; [by apply orders_handled|]. rewrite Forall_fmap. eapply Forall_impl; [exact Ho|]. intros o [H _]. by apply order_ok.
Qed.

(** * A command and its echo *)

(** The frame that writes a number to an attribute, and a report of the device that
    has the same bytes of it, and more if the attribute has. *)
Definition write_frame (id : string) (a : ZigbeeAttr) (n : Z) : aps_frame :=
  Aps id Z3_PROFILE_ID_HA (ClusterId a) (u8 (srcEndpoint a)) (u8 (dstEndpoint a)) Z3_CMD_TYPE_GLOBAL WRITE_ATTRIBUTES Z3_FRAME_TYPE_UNICAST 4
    (le16 (AttributeId a) ++ [dataType a; u8 n]).
Definition echo (w : aps_frame) (rest : list Z) : aps_frame :=
  Aps (dev_id w) (profile_id w) (cluster_id w) (dst_endpoint w) (src_endpoint w) Z3_CMD_TYPE_GLOBAL REPORT_ATTRIBUTES (frame_type w)
    (Z.of_nat (length (zmessage w ++ rest))) (zmessage w ++ rest).

(** A command of the cluster: the number is the command, or, when the profile has
    one, the byte that goes with it. *)
Definition command_frame (id : string) (a : ZigbeeAttr) (n : Z) : aps_frame :=
  Aps id Z3_PROFILE_ID_HA (ClusterId a) (u8 (srcEndpoint a)) (u8 (dstEndpoint a)) Z3_CMD_TYPE_PRIVATE
    (if z3CmdId a =? 0 then u8 n else Z.land (z3CmdId a) 0x0f) Z3_FRAME_TYPE_UNICAST
    (if z3CmdId a =? 0 then 0 else 1) (if z3CmdId a =? 0 then [] else [u8 n]).
Definition number_frame (id : string) (a : ZigbeeAttr) (n : Z) : aps_frame :=
  if u8 (z3CmdType a) =? Z3_CMD_TYPE_GLOBAL then write_frame id a n else command_frame id a n.

(** An attribute that is written with a number, or a command, and reported alone. *)
Record number_attr (p : zigbeeDev) (a : ZigbeeAttr) : Prop := NumberAttr {
  na_found : zAttr p !! index_of (fun b => String.prefix (zHyKey b) (zHyKey a)) (zAttr p) = Some a;
  na_key : small (zHyKey a);
  na_plain : hyKeyPrivate a = 0;
  na_cluster : ClusterId a <> ZCL_PRIVATE_CLUSTER;
  na_type : u8 (z3CmdType a) = Z3_CMD_TYPE_GLOBAL \/ u8 (z3CmdType a) = Z3_CMD_TYPE_PRIVATE;
  na_id : 0 <= AttributeId a < 65536;
}.

Lemma type_not_string d n : type_length zcl_types d = Some n -> byte_string d = false /\ long_string d = false.
Proof.
  intros H. split; apply not_true_is_false; intros E; apply existsb_eqb, elem_of_cons in E as [->|E]; try done; by apply list_elem_of_singleton in E as ->.
Qed.
Lemma byte_small n : small (text_d (u8 n)).
Proof.
  assert (HF : forallb (fun k => String.length (text_d (Z.of_nat k)) <=? 3)%nat (seq 0 256) = true) by (vm_compute; reflexivity).
  rewrite forallb_forall in HF. pose proof (Z.mod_pos_bound n 256 ltac:(lia)) as Hn. specialize (HF (Z.to_nat (u8 n))). unfold u8 in *. change (2 ^ 8) with 256 in *. rewrite Z2Nat.id in HF by lia.
  unfold small. enough (String.length (text_d (n mod 256)) <= 3)%nat by lia. apply Nat.leb_le, HF, in_seq. lia.
Qed.

Lemma wp_send_ok e s (Q : Z -> zigbee -> Prop) : Forall (Z.le 0) (answers s) -> (forall r, 0 <= r -> Q r (sent e s)) -> wp (call e) s Q.
Proof.
  intros Ha HQ. unfold call. wp_step. wp_step. wp_step. wp_step. destruct s as [? ? ? ? ? [|r l] ?]; cbn.
  - wp_step. by apply (HQ 0).
  - wp_step. wp_step. wp_step. cbn in Ha. apply Forall_cons in Ha as [Hr _]. by apply (HQ r).
Qed.
Lemma write_run s id d p a v len : known s id d p -> number_attr p a -> type_length zcl_types (dataType a) = Some len -> 0 < len -> small v ->
  Forall (Z.le 0) (answers s) ->
  wp (zigbeeZclDispatch stale python id (Some (zHyKey a)) (Some v)) s (fun _ s' => s' = sent (SendZcl (number_frame id a (strToNum v stale))) s).
Proof.
  intros [Hd Hi Hp (Hs & _ & _)] [Hf Hk H0 Hc Ht Hid] Hl Hlen Hv Ha. unfold zigbeeZclDispatch, hylinkListGet, zigbeeListGet.
  wp_step. wp_step. rewrite Hd. wp_step. wp_step. rewrite Hp. wp_step. rewrite bool_decide_eq_false_2 by naive_solver. wp_step. wp_step.
  apply wp_strcpy; [by rewrite <- Hi|]. wp_step. unfold zigbeeDevZclDispatch. rewrite Hf. unfold zigbeeZclCtrl. wp_step. apply wp_strcpy; [done|]. wp_step.
  unfold ctrl_message. cbv zeta. destruct (Z.eqb_spec (ClusterId a) ZCL_PRIVATE_CLUSTER); [done|].
  unfold getZcl3DataType. destruct (type_not_string _ _ Hl) as [-> ->]. rewrite Hl. change (default 0 (Some len)) with len. wp_step. wp_step.
  unfold number_frame. destruct Ht as [-> | ->].
  - change (Z3_CMD_TYPE_GLOBAL =? Z3_CMD_TYPE_GLOBAL) with true. cbv iota.
    wp_step. apply wp_put_bytes; [by apply Nat.leb_le|]. wp_step. unfold conversion_down. destruct (Z.eqb_spec len 0); [lia|]. rewrite H0. change (0 =? 0) with true. cbv iota.
    set (m0 := take 0 _ ++ _). assert (m0 = (le16 (AttributeId a) ++ [dataType a]) ++ replicate 30 0) as -> by reflexivity.
    wp_step. apply wp_put_bytes; [by apply Nat.leb_le|]. wp_step. wp_step. unfold tuyaZclSend.
    change (Z.to_nat (u16 (1 + 3))) with 4%nat. change (u16 (1 + 3)) with 4. set (m1 := take 3 _ ++ _).
    assert (m1 = (le16 (AttributeId a) ++ [dataType a; u8 (strToNum v stale)]) ++ replicate 29 0) as -> by reflexivity.
    wp_step. cbn [zmessage msg_length attr_ends with_ends with_message with_cmd new_frame]. rewrite length_app, length_replicate.
    destruct (Z.ltb_spec (Z.of_nat (length (le16 (AttributeId a) ++ [dataType a; u8 (strToNum v stale)]) + 29)) 4); [done|].
    apply wp_send_ok; [done|]. intros r Hr. wp_step. destruct (Z.ltb_spec r 0); [lia|]. by wp_step.
  - change (Z3_CMD_TYPE_PRIVATE =? Z3_CMD_TYPE_GLOBAL) with false. change (Z3_CMD_TYPE_PRIVATE =? Z3_CMD_TYPE_PRIVATE) with true. cbv iota.
    wp_step. unfold conversion_down. destruct (Z.eqb_spec len 0); [lia|]. rewrite H0. change (0 =? 0) with true. cbv iota.
    wp_step. apply wp_put_bytes; [by apply Nat.leb_le|]. wp_step. set (m0 := take 0 _ ++ _). assert (m0 = u8 (strToNum v stale) :: replicate 32 0) as -> by reflexivity.
    unfold command_frame. destruct (z3CmdId a =? 0).
    + wp_step. unfold wp at 1. rewrite arr_get_0. wp_step. wp_step. unfold tuyaZclSend.
      cbn [zmessage msg_length attr_ends with_ends with_message with_cmd new_frame]. apply wp_send_ok; [done|]. intros r Hr. wp_step. destruct (Z.ltb_spec r 0); [lia|]. by wp_step.
    + wp_step. wp_step. unfold tuyaZclSend. cbn [zmessage msg_length attr_ends with_ends with_message with_cmd new_frame].
      apply wp_send_ok; [done|]. intros r Hr. wp_step. destruct (Z.ltb_spec r 0); [lia|]. by wp_step.
Qed.

(** ** The echo *)

Lemma report_attrs_filter l p f i inp n s : report_attrs python l p f i inp n s =
  (_ ← for_each (fun a => zigbeeAttrReport python a (dev_id f) (manuName p) inp n) (List.filter (reported f i) l); mret tt) s.
Proof.
  revert s. induction l as [|a l IH]; intros s; [done|]. cbn [report_attrs List.filter]. destruct (reported f i a); [|unfold mbind at 1, M_bind at 1; apply IH].
  cbn [for_each]. unfold mbind, M_bind. destruct (zigbeeAttrReport _ _ _ _ _ _ s) as [[u s']|]; [|done].
  etrans; [apply IH|]. unfold mbind, M_bind. by destruct (for_each _ _ s') as [[us s2]|].
Qed.
Lemma echo_run s id d p a n rest : known s id d p -> number_attr p a -> type_length zcl_types (dataType a) = Some (1 + Z.of_nat (length rest)) ->
  Forall Base64.byte rest -> let f := echo (write_frame id a n) rest in List.filter (reported f (AttributeId a)) (zAttr p) = [a] ->
  wp (zigbeeZclReport python f) s (fun _ s' => s' = sent (ToClient (frame (single_text "Attribute" d p (Some (zHyKey a)) (Some (text_d (u8 n)))))) s).
Proof.
  intros Hk Hna Hl Hr f Hf. pose proof Hk as [Hd Hi Hp _]. pose proof Hna as [_ Hkey H0 _ _ Hid].
  set (r := Attribute (AttributeId a) (dataType a) (u8 n :: rest)). destruct (type_not_string _ _ Hl) as [Hb1 Hb2].
  assert (attribute_ok r) as Hr'.
  { constructor; cbn [a_id a_type a_bytes r]; [done| |].
    - apply Forall_cons. split; [|done]. unfold Base64.byte, u8. apply Z.mod_pos_bound. lia.
    - rewrite Hb1, Hb2, Hl. cbn [length]. f_equal. lia. }
  assert (zmessage f = mjoin (encode false <$> [r]) ++ []) as Hm.
  { unfold f, echo, write_frame, r. cbn [zmessage]. cbn [fmap list_fmap mjoin list_join]. unfold encode, length_bytes. cbn [a_id a_type a_bytes]. rewrite Hb1, Hb2, !app_nil_r, <- app_assoc. reflexivity. }
  unfold zigbeeZclReport, hylinkListGet, zigbeeListGet. wp_step. wp_step. change (dev_id f) with id. rewrite Hd. wp_step. wp_step. rewrite Hp.
  change (cmd_type f =? Z3_CMD_TYPE_PRIVATE) with false. change (cmd_id f =? READ_ATTRIBUTES_RESPONSE) with false. change (cmd_id f =? REPORT_ATTRIBUTES) with true. cbv iota.
  assert (0 < msg_length f) as Hpos by (unfold f, echo; cbn [msg_length]; rewrite length_app; cbn; lia).
  assert (msg_length f = Z.of_nat (length (mjoin (encode false <$> [r])))) as Hlen by (rewrite app_nil_r in Hm; by rewrite <- Hm).
  assert (HE : attribute_list python (Datatypes.S (Z.to_nat (msg_length f))) p f false 0 s = report_all python p f [r] s).
  { etrans; [refine (attributes_read python p f false [r] _ (Z.to_nat (msg_length f)) [] [] s Hm _); [by apply Forall_cons|cbn [app]; lia]|].
    unfold mbind, M_bind. destruct (report_all python p f [r] s) as [[[] s']|]; [|done]. cbn [app]. rewrite <- Hlen.
    destruct (Z.to_nat (msg_length f)) eqn:E; [lia|]. cbn [attribute_list]. by rewrite Z.leb_refl. }
  set (told' := sent _ s). assert (wp (zigbeeAttrReport python a (dev_id f) (manuName p) (u8 n :: rest) (Z.of_nat (length (u8 n :: rest)))) s (fun _ s' => s' = told')) as HZ.
  { unfold zigbeeAttrReport, conversion_up. rewrite H0. cbn [length]. destruct (Z.eqb_spec (Z.of_nat (Datatypes.S (length rest))) 0); [lia|]. change (0 =? 0) with true. cbv iota.
    wp_step. wp_step. unfold wp at 1. rewrite arr_get_0. wp_step. unfold hylinkDevZclReport, hylinkListGet. wp_step. wp_step. wp_step. change (dev_id f) with id. rewrite Hd. wp_step. rewrite Hi.
    eapply wp_single; [done|by apply Nat.leb_le|done|apply byte_small|]. intros q. wp_step. by wp_step. }
  apply wp_run in HZ as (u & s' & HZ & ->).
  wp_step. unfold wp. rewrite HE. clear HE.
  unfold report_all. cbn [for_each]. unfold Zigbee.zigbeeReport, mbind at 1 2 3, M_bind at 1 2 3. rewrite report_attrs_filter. cbn [a_id a_bytes r]. rewrite Hf. cbn [for_each].
  unfold mbind, M_bind. by rewrite HZ.
Qed.

(** C17: a number that hylink sends for an attribute that is passed on as it is,
    outside the private cluster, goes to the device in one byte: written to the
    attribute, or, for an attribute set by commands of its cluster, as the
    command, or with the profile's command.  And when the device reports an
    attribute that has this byte, and has no other key in the profile, hylink is
    told of the same attribute the number that is left of it, whatever bytes the
    attribute has besides. *)
Theorem command_comes_back s id d p a v rest : let c := Ctrl id (zHyKey a) v in let n := strToNum v stale in let w := number_frame id a n in
  known s id d p -> number_attr p a -> type_length zcl_types (dataType a) = Some (1 + Z.of_nat (length rest)) -> Forall Base64.byte rest ->
  let report := echo (write_frame id a n) rest in
  List.filter (reported report (AttributeId a)) (zAttr p) = [a] -> small v -> no_nul_fields (ctrl_fields c) = true ->
  running s = true -> Forall (Z.le 0) (answers s) ->
  wp (hylinkRecvManage (frames [ctrl_json c]) ;; zigbeeZclReport python report) s (fun _ s' =>
    done s' = done s ++ [SendZcl w; ToClient (frame (single_text "Attribute" d p (Some (zHyKey a)) (Some (text_d (u8 n)))))]).
Proof.
  intros c n w Hk Hna Hl Hr report Hf Hv Hc Hrun Ha. wp_step. unfold wp. rewrite zigbee_frames_handled by (by apply Forall_cons; split; [apply ctrl_ok|]).
  cbn [while_running]. unfold mbind at 1, M_bind at 1, getS. rewrite Hrun. cbn [negb]. unfold mbind at 1, M_bind at 1. rewrite ctrl_root. cbn [c_dev c_key c_value c].
  destruct (proj1 (wp_run _ _ _) (write_run s id d p a v _ Hk Hna Hl ltac:(lia) Hv Ha)) as (r & s1 & HW & ->). unfold mbind, M_bind. rewrite HW. unfold mret, M_ret.
  set (s1 := sent _ s). change (wp (zigbeeZclReport python report) s1 (fun _ s' => done s' =
    done s ++ [SendZcl w; ToClient (frame (single_text "Attribute" d p (Some (zHyKey a)) (Some (text_d (u8 n)))))])).
  eapply wp_mono; [apply (echo_run s1 id d p a n rest); [by apply (known_after s)|done..]|]. intros q s' ->. cbn. by rewrite <- app_assoc.
Qed.
End command.

(** * Witnesses *)

Definition lamp_level : ZigbeeAttr := ZAttr "Level" 0 1 1 0 8 1 0 0x21.
Definition zigbee_lamp : command := Ctrl "00158d0001" "Level" "300".
(** A switch, whose number is the command of its cluster. *)
Definition lamp_switch : ZigbeeAttr := ZAttr "Switch_1" 0 1 1 0 6 2 0 0x10.
Definition switch_profile : zigbeeDev := ZDev "lamp" "" "lamp" 0 600 [lamp_switch] [].
Definition one_switch : zigbee := Zigbee.Zigbee (hyMap one_lamp) {["lamp"%string := switch_profile]} 1000 true true [] [].
Lemma command_comes_back_witness :
  wp (ZigbeeLink.hylinkRecvManage 0 no_python (fun _ => []) None (frames [ctrl_json (Ctrl "00158d0001" "Switch_1" "1")]) ;; zigbeeZclReport no_python (echo (write_frame "00158d0001" lamp_switch 1) [])) one_switch (fun _ s' =>
    done s' = done one_switch ++ [SendZcl (number_frame "00158d0001" lamp_switch 1); ToClient (frame (single_text "Attribute" lamp switch_profile (Some "Switch_1"%string) (Some (text_d (u8 1)))))]) /\
  wp (ZigbeeLink.hylinkRecvManage 0 no_python (fun _ => []) None (frames [ctrl_json zigbee_lamp]) ;; zigbeeZclReport no_python (echo (write_frame "00158d0001" lamp_level 300) [1])) one_lamp (fun _ s' =>
    done s' = done one_lamp ++ [SendZcl (number_frame "00158d0001" lamp_level 300); ToClient (frame (single_text "Attribute" lamp lamp_profile (Some "Level"%string) (Some (text_d (u8 300)))))]).
Proof.
  split.
  - apply (command_comes_back 0 no_python (fun _ => []) None one_switch "00158d0001" lamp switch_profile lamp_switch "1" []); try reflexivity.
    + constructor; [reflexivity..|]; repeat split; by apply Nat.leb_le.
    + constructor; try reflexivity; [by apply Nat.leb_le|done|by right|cbn; lia].
    + apply Forall_nil_2.
    + by apply Nat.leb_le.
    + apply Forall_nil_2.
  - apply (command_comes_back 0 no_python (fun _ => []) None one_lamp "00158d0001" lamp lamp_profile lamp_level "300" [1]); try reflexivity.
    + constructor; [reflexivity..|]; repeat split; by apply Nat.leb_le.
    + constructor; try reflexivity; [by apply Nat.leb_le|done|by left|cbn; lia].
    + apply Forall_cons. split; [by vm_compute|apply Forall_nil_2].
    + by apply Nat.leb_le.
    + apply Forall_nil_2.
Defined.
Definition some_orders : list order :=
  [ToDevice zigbee_lamp; ToScene [("Op", "ExecScene"); ("Id", "s2")]%string; ToDevice (Ctrl "00158d0001" "Switch" "1");
   ToGroup [("GroupId", "7"); ("Key", "Switch"); ("Type", "lamp"); ("Value", "0")]%string].
Lemma scene_actions_reach_devices_witness : running one_lamp = true /\ exists rs h' ts,
  for_each (fun o => HyLink.deliver true (order_effect o)) some_orders started = Val (rs, h') /\
    HyLink.trace (Heap.glob h') = HyLink.trace (Heap.glob started) ++ ts /\
    ZigbeeLink.hylinkRecvManage 0 no_python (fun _ => []) None (to_zigbee ts) one_lamp = (for_each (done_to 0 no_python) some_orders ;; mret tt) one_lamp.
Proof.
  split; [reflexivity|]. apply scene_actions_reach_devices; [|reflexivity].
  repeat (apply Forall_cons; split; [split; [reflexivity|by apply Nat.ltb_lt]|]). apply Forall_nil_2.
Defined.
